(* ===== verification/_CoqProject ===== *)
-Q . S2P
Prelude.v
TeeDefines.v
UteeError.v
Memory.v
Params.v
ParamsSpec.v
TeeParams.v
TeeParamsSpec.v
TeecDefines.v
TeecError.v
Uuids.v
TaSession.v
EntryPoints.v
EntryPointsSpec.v
Storage.v
StorageSpec.v
SecureDb.v
SecureDbSpec.v
TeecParams.v
TeecParamsSpec.v
TeecSession.v
TeecSessionSpec.v
ErrorBoundary.v
Plugin.v
ElfUuid.v
Crypto.v
CryptoSpec.v
BigInt.v
BigIntSpec.v
Net.v
NetSpec.v
Supplicant.v
Transient.v
TransientSpec.v
TeeIds.v
Host.v
CargoConfig.v
CargoBuild.v
CargoTool.v
CargoConfigSpec.v
CargoToolSpec.v
Utf8.v
Properties.v
TaHeader.v
TaHeaderSpec.v
TaLinker.v
TaLinkerSpec.v
PluginBuild.v
TaApp.v
StorageTa.v
StorageTaSpec.v
Wallet.v
WalletSpec.v
SessionTa.v
TaState.v
Hotp.v
HotpSpec.v
DigestTa.v
DigestTaSpec.v
SignTa.v
SignTaSpec.v
HelloTa.v
InterTa.v
InterTaSpec.v
ClientApp.v
ClientHeap.v
HotpHost.v
HotpHostSpec.v
SignHost.v
SignHostSpec.v
SuppTa.v
SuppTaSpec.v
InterTaHost.v
InterTaHostSpec.v
WalletHost.v
WalletHostSpec.v
StorageHost.v
StorageHostSpec.v
