(* ===== verification/Prelude.v ===== *)
(** * A verification of the Teaclave TrustZone SDK

    The SDK lets Trusted Applications (TAs, in the secure world, on OP-TEE) and
    their clients (CAs, in the normal world) be written in Rust.  This library
    models its crates as pure functions and explicit state passing, states what
    makes each correct, and proves it.  Paths below are relative to [src/].

    ** The program and the files

    A client builds an [Operation] of four parameters and sends it over a
    [Session] of a [Context] (crate [crates/optee-teec]); libteec, the kernel
    driver and OP-TEE deliver it; the entry points generated by the attribute
    macros ([crates/optee-utee-macros]) convert the raw parameters into typed
    wrappers and call the TA author's functions ([crates/optee-utee]); a TA uses
    persistent objects of the trusted storage, calls other TAs, and reports an
    error as a code that becomes an error of the client again.  [secure_db] is a
    key-value store on persistent objects, [cargo-optee] the build tool.

    Shared:
    - [Prelude]: results, outcomes (a value, a panic, undefined behaviour),
      stateful programs and their notations, machine integers, byte strings,
      hexadecimal formatting, the enumerations derived with [num_enum], tactics
      and the hint database [rust];
    - [Memory]: the address space and [TEE_MemMove] as an interface
      ([TeeMemMove], laws [TeeMemMoveOk], instance [plain_memmove]).

    The TA side:
    - [TeeDefines] ([crates/optee-utee-sys/src/tee_api_defines.rs]): constants,
      the packing of the parameter-type word; [TeeIds]: its identifiers of algorithms,
      objects and attributes, compared with the crate's;
    - [UteeError] ([optee-utee/src/error.rs]): [ErrorKind], [ErrorOrigin],
      [Error], [tee_check];
    - [Params], [ParamsSpec] ([optee-utee/src/parameter/]): the raw union as two
      machine words, the wrappers by slot number, [from_raw] of every type,
      tuples, the methods of values and memory references;
    - [TeeParams], [TeeParamsSpec] ([optee-utee/src/tee_parameter.rs]): the
      parameters a TA passes to another TA, and the update from the answer;
    - [TaSession] ([optee-utee/src/ta_session.rs]): inter-TA sessions, over the
      interface [TeeTaApi] of the three TEE calls;
    - [EntryPoints], [EntryPointsSpec] ([optee-utee-macros/src/lib.rs]): the
      macros' checks, the five generated functions, the boxes of session
      contexts on a heap over the interface [Allocator];
    - [Storage], [StorageSpec] ([optee-utee/src/object/]): handles and persistent
      objects over the interface [TrustedStorage], whose calls can fail, panic the TA
      (identifiers of more than 64 bytes, closed handles, missing rights) and close the
      handle of an object they find corrupt;
    - [SecureDb], [SecureDbSpec] ([crates/secure_db/src/]): backend, database and
      client on [Storage], with [bincode] and hash-map iteration as interfaces;
    - [Crypto], [CryptoSpec] ([optee-utee/src/crypto_op.rs]): operation handles
      in their boxes and the methods of the six kinds of operation, over the
      interface [TeeCrypto], whose observable state is the set of operations the
      TEE holds; a call with an output gets the buffer and the size behind its in/out
      pointer, and laws only bind it when that size is at most the buffer's;
    - [BigInt], [BigIntSpec] ([optee-utee/src/arithmetical.rs]): big numbers as
      vectors of words, over the interface [TeeArith];
    - [Net], [NetSpec] ([optee-utee/src/net/]): both socket adapters, [Socket] and
      the reading and writing loops, over the interface [TeeSockets];
    - [Transient], [TransientSpec] ([optee-utee/src/object/attribute.rs],
      [transient_object.rs], [enum_handle.rs]): attributes as unions over memory,
      transient objects and enumerators in their boxes, over [TeeObjects];
    - [Supplicant] ([optee-utee/src/extension.rs] and the example plugin): the
      commands a TA sends to a plugin, answered by [Plugin];
    - [Uuids] ([optee-utee/src/uuid.rs], [optee-teec/src/uuid.rs]): the UUID types of
      both sides, over the interface [UuidCrate];
    - [Properties] ([property.rs], [identity.rs], [time.rs]), with [Utf8] for the
      standard library's decoding: the property types as instances of the class
      [PropertyValue], the crate's keys, identities and time, over [TeeProperties].

    TAs built on these:
    - [StorageTa], [StorageTaSpec] ([examples/ta/secure_storage-rs/src/main.rs]): the
      secure-storage example, from its entry point to the trusted storage;
    - [Wallet], [WalletSpec] ([projects/web3/eth_wallet/]): the wallet TA on [SecureDb],
      with the cryptographic crates as the interface [EthCrates];
    - [Hotp], [HotpSpec] ([examples/ta/hotp-rs/src/main.rs]): the one-time-password TA,
      its session context, and the HMAC through [Crypto] and [Transient];
    - [DigestTa], [DigestTaSpec] ([examples/ta/digest-rs/src/main.rs]): the digest TA,
      whose sessions own an operation;
    - [SignTa], [SignTaSpec] ([examples/ta/signature_verification-rs/src/main.rs]): the
      signature TA, with what is asked of the TEE's RSA and of the digest;
    - [HelloTa] ([examples/ta/hello_world-rs/src/main.rs]): the TA that counts;
      [InterTa], [InterTaSpec] ([examples/ta/inter_ta-rs/src/main.rs]): the TA that calls
      it and the system pseudo TA, over the TEE between them ([InterTee]);
    - [SuppTa], [SuppTaSpec] ([examples/ta/supp_plugin-rs/src/main.rs],
      [examples/ca/supp_plugin-rs/src/main.rs]): the TA that calls a plugin, its client;
    - [SessionTa]: a session through the generated entry points, against a
      specification of its steps, which can leave the reply open (a TEE that may fail)
      and can panic;
    - [TaApp]: what TAs share, their state and their clients' buffers; [TaState]: the
      state of a TA that uses operations and objects, and its scopes.

    The CA side:
    - [TeecDefines] ([crates/optee-teec-sys/src/tee_client_api.rs]), [TeecError]
      ([optee-teec/src/error.rs]);
    - [TeecParams], [TeecParamsSpec] ([optee-teec/src/parameter.rs],
      [operation.rs]): parameters and operations; the way to the TA and back is
      the interface [Transport], which joins the two sides;
    - [TeecSession], [TeecSessionSpec] ([context.rs], [session.rs]): contexts and
      sessions, with the strong counts of the shared [Arc] and the state of its
      mutex, over the interface [TeecApi] of libteec;
    - [ClientApp]: the block of a client program with its drops, the [Platform] between
      libteec and the entry points of a TA, and what a client sees of a TA that refines a
      specification; [HotpHost], [HotpHostSpec] ([examples/ca/hotp-rs/src/main.rs]): the
      client of the one-time-password TA; [SignHost], [SignHostSpec]
      ([examples/ca/signature_verification-rs/src/main.rs]): that of the signature TA;
      [InterTaHost], [InterTaHostSpec] ([examples/ca/inter_ta-rs/src/main.rs]): that of the
      TA that calls others;
    - [ClientHeap]: the vectors of a client, over an allocator ([ClientAlloc]);
      [WalletHost], [WalletHostSpec] ([projects/web3/eth_wallet/host/src/]): the wallet
      program, which sends its requests and takes the answers in such vectors;
      [StorageHost], [StorageHostSpec] ([examples/ca/secure_storage-rs/src/main.rs]): the
      client of the secure-storage TA;
    - [ErrorBoundary]: a TA's error as the client's error;
    - [Plugin] ([extension.rs], [crates/optee-teec-macros/src/lib.rs]): plugins of
      the tee-supplicant.

    Building a TA:
    - [TaHeader], [TaHeaderSpec] ([crates/optee-utee-build/src/ta_config.rs],
      [code_generator.rs], [optee-utee-sys/src/user_ta_header.rs]): the
      configuration, the generated header as items, and what the compiler and the
      TEE's library make of them;
    - [TaLinker], [TaLinkerSpec] ([linker.rs], [builder.rs]): the lines a build
      script prints for cargo and the files it writes, over [BuildHost];
    - [PluginBuild] ([crates/optee-teec-build/src/plugin.rs]): the build script of a
      plugin, over [PluginHost];
    - [ElfUuid] ([tools/cargo-optee/src/elf_uuid.rs]): reading a UUID from an image;
    - [Host]: paths, JSON values and commands, and the operating system as an
      interface;
    - [CargoConfig], [CargoConfigSpec] ([config.rs]): resolving a configuration from
      the command line, Cargo.toml, the environment and defaults;
    - [CargoBuild] ([common.rs]), [CargoTool] ([ta_builder.rs], [ca_builder.rs],
      [main.rs], [cli.rs]), [CargoToolSpec]: the builders as sequences of commands,
      with their temporary files.

    A component's file has its data with the source's constructors and fields,
    and one definition per function; the [...Spec] file has the specification,
    the theorems and an example module with a concrete instance of every
    interface, on which the witnesses are evaluated.

    ** What the theorems show

    (Names without a file are theorems or lemmas of the file of their component.)
    Refinement and end-to-end statements: the generated entry points implement a
    table of session contexts ([entry_points_refine_spec]); the secure-storage TA
    implements a map of objects ([secure_storage_refines_map]), of which its client leaves
    what it should ([storage_client_toggles]), the wallet TA a map from
    identifiers to seeds ([eth_wallet_refines_map]), which is also what the user of its
    client sees ([wallet_client_refines_map]), the one-time-password TA RFC 4226
    ([hotp_implements_rfc4226]), which its client tests through the whole stack
    ([hotp_host_accepts]), up to what a TEE without memory answers; the signature client verifies what the TA signed for it
    ([sign_client_verifies]), and a client's call goes on to the TAs its TA calls
    ([inter_ta_client_passes]) and to a plugin ([client_pings_plugin]); the digest TA
    computes a hash of what was sent ([digest_ta_hashes]); the secure database implements a finite map ([secure_db_refines_map], [client_put_get]); what a
    client or a calling TA passes is what the callee finds, and the answer comes
    back ([request_round_trip], [ta_sees_ca_operation],
    [callee_sees_caller_params]); errors keep their code and kind across the
    boundary ([ta_error_reaches_client]); a plugin answers the TA that called it
    ([plugin_round_trip]); attributes read back as they were set
    ([attributes_round_trip]); a TA image's UUID is the one the loader sees
    ([read_uuid_correct]), and it is the one of the build script and of the client
    ([uuid_survives_build], [uuid_strings_agree]); a TA reads back the properties
    its build script declared ([declared_properties_read_back]).

    The tools: the generated header is a well-typed program for every configuration
    ([header_well_typed]); a build script gives cargo all its directives or stops
    ([build_script_correct]), and that of a plugin declares what it is given
    ([plugin_build_correct]); a configuration is the reference combination of its
    layers ([config_from_layers]); a build runs its commands in order, stops at the
    first that fails, strips the executable that cargo reported and signs the result
    ([ta_build_pipeline]), with the
    environment and the artifact that are meant ([command_environment],
    [artifact_selection]).

    Resources: sessions, contexts, handles and boxes are neither leaked nor
    released twice, on error paths too ([client_lifecycle_safe],
    [sessions_balanced], [object_handle_lifecycle], [operations_balanced],
    [sockets_balanced]); the tool removes its temporary files
    ([commands_leave_no_temps]).  Loops that wait for a peer end
    ([write_all_terminates], [read_exact_terminates]).

    Memory safety against the other world: shared buffers are read and written
    within bounds whatever the host does at any time ([memref_interleaving_safe],
    [write_at_correct], [memref_input_reads], [plugin_output_safe]); sizes
    reported by a callee cannot make a slice exceed its buffer
    ([tee_params_invariant], [update_from_raw_correct]); the TEE is offered the
    caller's whole slice and no byte more, and the size it reports is its output's
    ([crypto_outputs_bounded]).

    Functional behaviour and errors on every branch: [from_raw_tuple_correct],
    [value_inout_write_read], [read_remaining_correct], [invoke_command_correct],
    [session_calls_report], [operation_round_trip], [write_output_at_correct],
    [plugin_invoke_correct], [tee_check_faithful], [error_kind_round_trip], the
    macros' checks ([session_macros_accept], [plugin_macros_accept]), what an
    unreliable storage can leave behind ([secure_db_put_delete_outcomes]), and
    exact arithmetic in vectors that are large enough
    ([bigint_expressions_exact], [bigint_octets_round_trip]).

    Some theorems state behaviour that is not what the code means to do:
    [zero_code_error_opens_null_session], [list_prefix_mixes_tables],
    [null_handle_undefined], [bigint_divide_short_dividend], the overflow case of [write_output_at_correct],
    the boxes that failed allocations leak in [operations_balanced], an attribute
    that outlives its buffer ([attribute_outlives_buffer]), the file that
    [commands_leave_no_temps] lets stay when it cannot be renamed, the panic of
    [header_well_typed] on stack sizes that overflow, the panic of
    [hotp_implements_rfc4226] at the 256th code with overflow checks and the code that a
    mistyped request uses up, the panics of [digest_ta_hashes] on a TEE without memory
    and on huge buffers, identifiers of more than 64 bytes, which panic the TA
    ([put_long], [invocation_panics], [secure_storage_refines_map]), a value put under the
    database's own name ([put_own_name]), the handle of a corrupt object that is closed
    twice ([corrupt_object_closed_twice]), and the empty linker script of a
    preprocessor that fails ([failed_preprocessor_empty_script]).

    Conditions.  The comment of each theorem names those under which it holds.  "Nothing
    fails that does not have to" is the class [TrustedStorageReliable]: calls on what
    is there succeed and what is not there is not found; without it only
    [secure_db_put_delete_outcomes], [object_handle_lifecycle] and
    [read_remaining_correct] speak of the storage.  Identifiers and keys have at most 64
    bytes ([short]) where the comment says so.

    ** Conventions and bounds

    Integers are [Z] with their width written out; [usize] has the width of the
    class [Target] (32 or 64), whether overflow panics is the class [Profile].
    Foreign functions are interfaces: a class of operations, and a class of laws
    that state their documented behaviour; theorems are proved against the laws.
    Loops of the source are structural recursions over the list they walk, but
    for these, which have fuel: [lower_hex], whose sixteen digits hold any [u64];
    [Net]'s loops, with the length of the buffer, and [Utf8] and [Host.strip_space],
    with that of the text (each step consumes at least a byte; for [Net] the
    termination theorems say so).
    Aliasing is modelled where it matters: wrappers refer to slots,
    pointers are addresses, boxes and [Arc]s are locations.

    ** What is not modelled

    Operation by other threads (every interleaving of calls is a sequence of
    calls here), poisoned locks, failure of the TA's own allocator (a vector that is longer
    than half the address space does panic), other ways in which the TEE panics a TA
    that uses it as documented,
    formatting through
    [core::fmt] other than the error messages, the TEE's and libteec's own code.
    The other example TAs and clients ([examples/]) compose the components above in the
    ways the modelled ones do; those that set up an operation before their first command
    (AES, authentication) replace a null handle, whose destructor is undefined behaviour
    in the model ([null_handle_undefined]), so no theorem about their runs holds.
    Also left out: foreign declarations, generated tests, the printing of messages and of
    tokens (but for what the wallet program prints), argument parsing by [clap] and
    [structopt], the panic handler, allocator and trace output of a TA, and the assembly
    of third-party algorithms in [rustls_provider]. *)

From Stdlib Require Export ZArith Lia.
From stdpp Require Export base gmap strings list fin_maps numbers.

Declare Scope rust_scope.
Delimit Scope rust_scope with rust.
Open Scope Z_scope.

(** ** Results and outcomes

    [result] is Rust's [Result<T, E>].  [outcome] is what running a Rust
    function can give: a value, a panic (the crates are built with
    [panic = abort], so a panic ends the program), or undefined behaviour
    (only reachable through the [unsafe] blocks of the source). *)

Inductive result (T E : Type) : Type :=
| Ok (t : T)
| Err (e : E).
Arguments Ok {T E} t.
Arguments Err {T E} e.

Inductive outcome (A : Type) : Type :=
| Ret (a : A)
| Panic
| UB.
Arguments Ret {A} a.
Arguments Panic {A}.
Arguments UB {A}.

#[export] Instance result_eq_dec {T E} `{EqDecision T, EqDecision E} :
  EqDecision (result T E).
Proof. solve_decision. Defined.

#[export] Instance outcome_eq_dec {A} `{EqDecision A} : EqDecision (outcome A).
Proof. solve_decision. Defined.

Definition is_ok {T E} (r : result T E) : bool :=
  match r with Ok _ => true | Err _ => false end.

Definition result_map {T U E} (f : T -> U) (r : result T E) : result U E :=
  match r with Ok t => Ok (f t) | Err e => Err e end.

(** [Result::map_err]. *)
Definition map_err {T E F} (f : E -> F) (r : result T E) : result T F :=
  match r with Ok t => Ok t | Err e => Err (f e) end.

(** [Option::ok_or]. *)
Definition ok_or {T E} (o : option T) (e : E) : result T E :=
  match o with Some t => Ok t | None => Err e end.

(** The [?] operator on pure results. *)
Definition result_bind {T U E} (r : result T E) (f : T -> result U E) : result U E :=
  match r with Ok t => f t | Err e => Err e end.

Definition outcome_bind {A B} (o : outcome A) (f : A -> outcome B) : outcome B :=
  match o with Ret a => f a | Panic => Panic | UB => UB end.

(** ** Stateful programs

    A function that reads and writes a state [S] (the TA's memory, the raw
    parameters, the trusted storage) is a [prog S A].  A fallible function has
    type [prog S (result A E)]: the state reached at an early return is kept,
    as it is in the source. *)

Definition prog (S A : Type) : Type := S -> outcome (A * S).

Definition pret {S A} (a : A) : prog S A := fun s => Ret (a, s).
Definition pbind {S A B} (m : prog S A) (f : A -> prog S B) : prog S B :=
  fun s => match m s with
           | Ret (a, s') => f a s'
           | Panic => Panic
           | UB => UB
           end.
Definition ptry {S A B E} (m : prog S (result A E)) (f : A -> prog S (result B E))
  : prog S (result B E) :=
  pbind m (fun r => match r with Ok a => f a | Err e => pret (Err e) end).
Definition pget {S} : prog S S := fun s => Ret (s, s).
Definition pput {S} (s : S) : prog S unit := fun _ => Ret (tt, s).
Definition pmod {S} (f : S -> S) : prog S unit := fun s => Ret (tt, f s).
Definition plift {S A} (o : outcome A) : prog S A :=
  fun s => outcome_bind o (fun a => Ret (a, s)).

Notation "'let*' x := m 'in' k" := (pbind m (fun x => k))
  (at level 10, x pattern, m at level 100, k at level 200,
   format "'[v' 'let*'  x  :=  m  'in' '/' k ']'") : rust_scope.
Notation "'let?' x := m 'in' k" := (ptry m (fun x => k))
  (at level 10, x pattern, m at level 100, k at level 200,
   format "'[v' 'let?'  x  :=  m  'in' '/' k ']'") : rust_scope.
Notation "'let!' x := m 'in' k" := (outcome_bind m (fun x => k))
  (at level 10, x pattern, m at level 100, k at level 200,
   format "'[v' 'let!'  x  :=  m  'in' '/' k ']'") : rust_scope.
Notation "'try' x := m 'in' k" := (result_bind m (fun x => k))
  (at level 10, x pattern, m at level 100, k at level 200,
   format "'[v' 'try'  x  :=  m  'in' '/' k ']'") : rust_scope.
Open Scope rust_scope.

(** Running a fallible outcome (a pure function that can panic and that
    returns a [Result]) with [?]. *)
Definition otry {A B E} (m : outcome (result A E)) (f : A -> outcome (result B E))
  : outcome (result B E) :=
  match m with
  | Ret (Ok a) => f a
  | Ret (Err e) => Ret (Err e)
  | Panic => Panic
  | UB => UB
  end.

Lemma pbind_pret {S A B} (a : A) (f : A -> prog S B) s :
  pbind (pret a) f s = f a s.
Proof. done. Qed.

Lemma pbind_Ret {S A B} (m : prog S A) (f : A -> prog S B) s a s' :
  m s = Ret (a, s') -> pbind m f s = f a s'.
Proof. by unfold pbind; intros ->. Qed.

Lemma ptry_Ok {S A B E} (m : prog S (result A E)) (f : A -> prog S (result B E)) s a s' :
  m s = Ret (Ok a, s') -> ptry m f s = f a s'.
Proof. by unfold ptry, pbind; intros ->. Qed.

Lemma ptry_Err {S A B E} (m : prog S (result A E)) (f : A -> prog S (result B E)) s e s' :
  m s = Ret (Err e, s') -> ptry m f s = Ret (Err e, s').
Proof. by unfold ptry, pbind; intros ->. Qed.

Lemma pbind_inv {S A B} (m : prog S A) (f : A -> prog S B) s r :
  pbind m f s = Ret r -> exists a s', m s = Ret (a, s') /\ f a s' = Ret r.
Proof. unfold pbind. destruct (m s) as [[a s']| |]; [eauto|done|done]. Qed.

Lemma ptry_inv {S A B E} (m : prog S (result A E)) (f : A -> prog S (result B E)) s r :
  ptry m f s = Ret r ->
  (exists a s', m s = Ret (Ok a, s') /\ f a s' = Ret r)
  \/ (exists e s', m s = Ret (Err e, s') /\ r = (Err e, s')).
Proof.
  unfold ptry, pbind, pret. destruct (m s) as [[[a|e] s']| |]; try done.
  - left; eauto.
  - right. exists e, s'. split; [done|congruence].
Qed.

(** ** Reasoning about programs

    [does m s Q]: from [s], [m] returns with a result and a state in [Q]. *)
Definition does {S A} (m : prog S A) (s : S) (Q : A -> S -> Prop) : Prop :=
  exists a s', m s = Ret (a, s') /\ Q a s'.

Lemma does_ret {S A} (a : A) (s : S) (Q : A -> S -> Prop) : Q a s -> does (pret a) s Q.
Proof. intros HQ. by exists a, s. Qed.

Lemma does_bind {S A B} (m : prog S A) (f : A -> prog S B) s R Q :
  does m s R -> (forall a s', R a s' -> does (f a) s' Q) -> does (pbind m f) s Q.
Proof.
  intros (a & s1 & E & HR) Hf. destruct (Hf a s1 HR) as (b & s2 & E2 & HQ).
  exists b, s2. by rewrite (pbind_Ret _ _ _ _ _ E).
Qed.

Lemma does_try {S A B E} (m : prog S (result A E)) (f : A -> prog S (result B E)) s R Q :
  does m s R ->
  (forall e s', R (Err e) s' -> Q (Err e) s') ->
  (forall a s', R (Ok a) s' -> does (f a) s' Q) -> does (ptry m f) s Q.
Proof.
  intros Hm He Hf. unfold ptry. eapply does_bind; [exact Hm|].
  intros [a|e] s1 HR; [by apply Hf|by apply does_ret, He].
Qed.

(** [?] on a value. *)
Lemma does_try_pure {S A B E} (r : result A E) (f : A -> prog S (result B E)) s
    (Q : result B E -> S -> Prop) :
  (forall e, r = Err e -> Q (Err e) s) ->
  (forall a, r = Ok a -> does (f a) s Q) -> does (ptry (pret r) f) s Q.
Proof.
  intros He Hf. destruct r as [a|e].
  - destruct (Hf a eq_refl) as (b & s' & E1 & HQ). exists b, s'.
    by rewrite (ptry_Ok _ _ s a s).
  - exists (Err e), s. split; [done|by apply He].
Qed.

Lemma does_mono {S A} (m : prog S A) s (R Q : A -> S -> Prop) :
  does m s R -> (forall a s', R a s' -> Q a s') -> does m s Q.
Proof. intros (a & s' & E & HR) H. exists a, s'. auto. Qed.

(** ** Machine integers

    Integers are kept in [Z] with their width written out.  [in_u w x] says
    that [x] is a value of the unsigned type of [w] bits. *)

Definition in_u (w x : Z) : Prop := 0 <= x < 2 ^ w.
Definition in_ub (w x : Z) : bool := (0 <=? x) && (x <? 2 ^ w).
Definition wrap_u (w x : Z) : Z := x mod 2 ^ w.

#[export] Instance in_u_dec w x : Decision (in_u w x).
Proof. unfold in_u. apply _. Defined.

Lemma wrap_u_range w x : 0 <= w -> in_u w (wrap_u w x).
Proof. intros. unfold in_u, wrap_u. apply Z.mod_pos_bound. lia. Qed.

Lemma wrap_u_small w x : in_u w x -> wrap_u w x = x.
Proof. apply Z.mod_small. Qed.

(** Or-ing a shifted value onto a value that fits below it is an addition. *)
Lemma lor_shiftl_add x y k :
  0 <= k -> 0 <= x < 2 ^ k -> Z.lor x (Z.shiftl y k) = x + Z.shiftl y k.
Proof.
  intros Hk Hx. assert (Z.land x (Z.shiftl y k) = 0) as Hl;
    [|by rewrite Z.add_nocarry_lxor, Z.lxor_lor].
  apply Z.bits_inj'. intros n Hn. rewrite Z.land_spec, Z.bits_0.
  destruct (Z.lt_ge_cases n k).
  - rewrite Z.shiftl_spec_low by done. apply andb_false_r.
  - destruct (Z.eq_dec x 0) as [->|]; [by rewrite Z.bits_0|].
    rewrite (Z.bits_above_log2 x n); [done|lia|].
    apply Z.lt_le_trans with k; [|done]. apply Z.log2_lt_pow2; lia.
Qed.

(** The pointer width of the target: [aarch64] (64) or [arm] (32).  [usize]
    and raw pointers have this width. *)
Class Target : Type := ptr_bits : Z.
Class TargetOk {T : Target} : Prop := ptr_bits_cases : ptr_bits = 32 \/ ptr_bits = 64.

#[export] Instance aarch64_ok : @TargetOk 64 := or_intror eq_refl.
#[export] Instance arm_ok : @TargetOk 32 := or_introl eq_refl.

(** Whether integer overflow panics (debug profile) or wraps (release). *)
Class Profile : Type := overflow_checks : bool.

Definition add_u {P : Profile} (w x y : Z) : outcome Z :=
  if x + y <? 2 ^ w then Ret (x + y)
  else if overflow_checks then Panic else Ret (wrap_u w (x + y)).
Definition sub_u {P : Profile} (w x y : Z) : outcome Z :=
  if y <=? x then Ret (x - y)
  else if overflow_checks then Panic else Ret (wrap_u w (x - y)).
Definition checked_add (w x y : Z) : option Z :=
  if x + y <? 2 ^ w then Some (x + y) else None.

Section Target_lemmas.
Context `{TargetOk}.

Lemma usize_pos : 0 < 2 ^ ptr_bits.
Proof. destruct ptr_bits_cases as [-> | ->]; done. Qed.

Lemma u32_le_usize : 2 ^ 32 <= 2 ^ ptr_bits.
Proof. destruct ptr_bits_cases as [-> | ->]; done. Qed.

End Target_lemmas.

(** ** Byte strings

    A byte is a [Z] below 256 and a byte string is a list of them; [len] is
    the length as the source's [usize] sees it. *)

Abbreviation bytes := (list Z).

Definition is_byte (b : Z) : Prop := in_u 8 b.

Definition len {A} (l : list A) : Z := Z.of_nat (length l).

Definition zeros (n : Z) : bytes := replicate (Z.to_nat n) 0.

(** The bytes of a string literal. *)
Definition str_bytes (s : string) : bytes :=
  map (fun a => Z.of_N (Ascii.N_of_ascii a)) (String.list_ascii_of_string s).

(** [&l[a..b]]: panics unless [a <= b <= l.len()]. *)
Definition slice {A} (l : list A) (a b : Z) : outcome (list A) :=
  if (0 <=? a) && (a <=? b) && (b <=? len l)
  then Ret (take (Z.to_nat (b - a)) (drop (Z.to_nat a) l)) else Panic.

(** [l[i]]: panics when out of range. *)
Definition index {A} (l : list A) (i : Z) : outcome A :=
  if 0 <=? i then
    match l !! Z.to_nat i with Some x => Ret x | None => Panic end
  else Panic.

(** [l[i] = x]: panics when out of range. *)
Definition set_index {A} (l : list A) (i : Z) (x : A) : outcome (list A) :=
  if (0 <=? i) && (i <? len l) then Ret (<[Z.to_nat i := x]> l) else Panic.

(** Replace the bytes of [l] from [n] on by [l']; meant for
    [n + length l' <= length l]. *)
Definition splice {A} (l : list A) (n : Z) (l' : list A) : list A :=
  take (Z.to_nat n) l ++ l' ++ drop (Z.to_nat n + length l') l.

Lemma len_nonneg {A} (l : list A) : 0 <= len l.
Proof. unfold len. lia. Qed.

Lemma len_eq {A B} (l : list A) (l' : list B) : length l' = length l -> len l = len l'.
Proof. unfold len. congruence. Qed.

Lemma len_nil {A} : len (@nil A) = 0.
Proof. done. Qed.

Lemma len_cons {A} (x : A) l : len (x :: l) = 1 + len l.
Proof. unfold len; cbn [length]; lia. Qed.

Lemma len_app {A} (l1 l2 : list A) : len (l1 ++ l2) = len l1 + len l2.
Proof. unfold len. rewrite length_app. lia. Qed.

Lemma len_zero_nil {A} (l : list A) : len l = 0 <-> l = [].
Proof. unfold len. destruct l; cbn; split; intros; [done|done|lia|done]. Qed.

Lemma len_zeros n : 0 <= n -> len (zeros n) = n.
Proof. intros. unfold len, zeros. rewrite length_replicate. lia. Qed.

Lemma len_take {A} (n : Z) (l : list A) :
  0 <= n <= len l -> len (take (Z.to_nat n) l) = n.
Proof. unfold len. intros. rewrite length_take. lia. Qed.

Lemma len_drop {A} (n : Z) (l : list A) :
  0 <= n <= len l -> len (drop (Z.to_nat n) l) = len l - n.
Proof. unfold len. intros. rewrite length_drop. lia. Qed.

Lemma len_splice {A} (l : list A) n l' :
  0 <= n -> n + len l' <= len l -> len (splice l n l') = len l.
Proof.
  intros. unfold splice, len in *. rewrite !length_app, length_take, length_drop. lia.
Qed.

Lemma splice_nil {A} (l : list A) n : splice l n [] = l.
Proof.
  unfold splice. cbn [length app]. rewrite Nat.add_0_r. apply take_drop.
Qed.

Lemma splice_take {A} (l : list A) n l' :
  0 <= n -> n + len l' <= len l ->
  take (Z.to_nat n) (splice l n l') = take (Z.to_nat n) l.
Proof.
  intros. unfold splice, len in *. rewrite take_app_le.
  - rewrite take_take. f_equal. lia.
  - rewrite length_take. lia.
Qed.

Lemma splice_mid {A} (l : list A) n l' :
  0 <= n -> n + len l' <= len l ->
  take (length l') (drop (Z.to_nat n) (splice l n l')) = l'.
Proof.
  intros. unfold splice, len in *.
  rewrite drop_app_ge; rewrite length_take; [|lia].
  replace (Z.to_nat n - Z.to_nat n `min` length l)%nat with 0%nat by lia.
  rewrite drop_0. apply take_app_length.
Qed.

Lemma splice_full {A} (l l' : list A) : len l' = len l -> splice l 0 l' = l'.
Proof.
  unfold splice, len. intros. cbn [Z.to_nat take app]. rewrite drop_ge by lia.
  apply app_nil_r.
Qed.

(** What was written at the beginning, cut out again. *)
Lemma slice_splice {A} (l d : list A) : len d <= len l -> slice (splice l 0 d) 0 (len d) = Ret d.
Proof.
  intros Hd. pose proof (len_nonneg d). unfold slice. rewrite len_splice by lia.
  rewrite (proj2 (Z.leb_le 0 0)), (proj2 (Z.leb_le 0 (len d))), (proj2 (Z.leb_le (len d) (len l)))
    by lia.
  cbn [andb]. f_equal. rewrite Z.sub_0_r. unfold len. rewrite Nat2Z.id.
  by apply (splice_mid l 0); [lia|rewrite Z.add_0_l].
Qed.

Lemma slice_full {A} (l : list A) : slice l 0 (len l) = Ret l.
Proof.
  unfold slice. pose proof (len_nonneg l).
  rewrite (proj2 (Z.leb_le 0 0)), (proj2 (Z.leb_le 0 (len l))),
    (proj2 (Z.leb_le (len l) (len l))) by lia. cbn [andb].
  change (Z.to_nat 0) with 0%nat. rewrite drop_0, take_ge; [done|]. unfold len. lia.
Qed.

(** Little-endian combination of bytes. *)
Fixpoint le_combine (l : bytes) : Z :=
  match l with
  | [] => 0
  | b :: l' => b + 256 * le_combine l'
  end.

Lemma le_combine_range l :
  Forall is_byte l -> 0 <= le_combine l < 256 ^ len l.
Proof.
  induction 1 as [|b l Hb _ IH]; [done|].
  rewrite len_cons, Z.pow_add_r by (try lia; apply len_nonneg).
  unfold is_byte, in_u in Hb. cbn [le_combine]. lia.
Qed.

(** Big-endian combination of bytes. *)
Definition be_combine (l : bytes) : Z := le_combine (rev l).

(** The bytes of an integer, least significant first. *)
Fixpoint le_split (n : nat) (x : Z) : bytes :=
  match n with
  | O => []
  | S n => x mod 256 :: le_split n (x / 256)
  end.

Lemma be_combine_snoc l b : be_combine (l ++ [b]) = be_combine l * 256 + b.
Proof. unfold be_combine. rewrite rev_unit. cbn [le_combine]. lia. Qed.

Lemma be_combine_range l : Forall is_byte l -> 0 <= be_combine l < 256 ^ len l.
Proof.
  intros Hl. unfold be_combine. rewrite (len_eq l (rev l)) by (by rewrite length_rev).
  apply le_combine_range. by apply Forall_rev.
Qed.

Lemma le_split_combine l : Forall is_byte l -> le_split (length l) (le_combine l) = l.
Proof.
  induction 1 as [|b l Hb _ IH]; [done|]. unfold is_byte, in_u in Hb. cbn [length le_combine le_split].
  rewrite (Z.mul_comm 256), Z.mod_add, Z.div_add, (Z.mod_small b), (Z.div_small b) by lia.
  by rewrite Z.add_0_l, IH.
Qed.

Lemma le_split_be n l : Forall is_byte l -> length l = n -> le_split n (be_combine l) = rev l.
Proof.
  intros Hl <-. unfold be_combine. rewrite <-(length_rev l). apply le_split_combine.
  by apply Forall_rev.
Qed.

(** ** Hexadecimal formatting: [{:x}] on an unsigned integer *)

Definition hex_digit (d : Z) : string :=
  match List.nth_error ["0"; "1"; "2"; "3"; "4"; "5"; "6"; "7"; "8"; "9";
                        "a"; "b"; "c"; "d"; "e"; "f"]%string (Z.to_nat d) with
  | Some s => s
  | None => ""%string
  end.

(** [fuel] digits from the least significant, without leading zeros. *)
Fixpoint lower_hex_aux (fuel : nat) (x : Z) (acc : string) : string :=
  match fuel with
  | O => acc
  | S fuel' =>
      let acc' := (hex_digit (x mod 16) +:+ acc)%string in
      if x <? 16 then acc' else lower_hex_aux fuel' (x / 16) acc'
  end.

(** Sixteen digits hold any [u64]. *)
Definition lower_hex (x : Z) : string := lower_hex_aux 16 x "".

(** ** Automation *)

Create HintDb rust discriminated.

#[export] Hint Resolve len_nonneg usize_pos u32_le_usize : rust.
Create Rewrite HintDb rust_len.
#[export] Hint Rewrite @len_nil @len_cons @len_app : rust_len.

(** Reflect the boolean comparisons of hypotheses and goal. *)
Ltac reflect_bool :=
  repeat match goal with
  | H : (_ && _)%bool = true |- _ => apply andb_true_iff in H as [? ?]
  | H : (_ || _)%bool = false |- _ => apply orb_false_iff in H as [? ?]
  | H : negb _ = true |- _ => apply negb_true_iff in H
  | H : negb _ = false |- _ => apply negb_false_iff in H
  | H : (_ <=? _) = true |- _ => apply Z.leb_le in H
  | H : (_ <=? _) = false |- _ => apply Z.leb_gt in H
  | H : (_ <? _) = true |- _ => apply Z.ltb_lt in H
  | H : (_ <? _) = false |- _ => apply Z.ltb_ge in H
  | H : (_ =? _) = true |- _ => apply Z.eqb_eq in H
  | H : (_ =? _) = false |- _ => apply Z.eqb_neq in H
  end.

(** Split on the first conditional of the goal, reflecting its test. *)
Ltac case_if :=
  match goal with
  | |- context [if ?b then _ else _] => destruct b eqn:?; reflect_bool
  end.

(** Discharge a conditional of the goal whose test linear arithmetic decides. *)
Ltac decide_if :=
  repeat match goal with
  | |- context [if ?a <=? ?b then _ else _] =>
      first [ rewrite (proj2 (Z.leb_le a b)) by (unfold in_u in *; lia)
            | rewrite (proj2 (Z.leb_gt a b)) by (unfold in_u in *; lia) ]
  | |- context [if ?a <? ?b then _ else _] =>
      first [ rewrite (proj2 (Z.ltb_lt a b)) by (unfold in_u in *; lia)
            | rewrite (proj2 (Z.ltb_ge a b)) by (unfold in_u in *; lia) ]
  | |- context [if ?a =? ?b then _ else _] =>
      first [ rewrite (proj2 (Z.eqb_eq a b)) by (unfold in_u in *; lia)
            | rewrite (proj2 (Z.eqb_neq a b)) by (unfold in_u in *; lia) ]
  end.

(** Invert hypotheses that say a program returned. *)
Ltac prog_inv :=
  repeat match goal with
  | H : Ret _ = Ret _ |- _ => injection H as H
  | H : pret _ _ = Ret _ |- _ => unfold pret in H
  | H : Panic = Ret _ |- _ => discriminate H
  | H : UB = Ret _ |- _ => discriminate H
  | H : (_, _) = (_, _) |- _ => injection H as ? ?
  | H : Ok _ = Ok _ |- _ => injection H as H
  | H : Err _ = Err _ |- _ => injection H as H
  | H : Ok _ = Err _ |- _ => discriminate H
  | H : Err _ = Ok _ |- _ => discriminate H
  end; subst.

(** ** Enumerations with [num_enum]

    The source derives [FromPrimitive] and [IntoPrimitive] (crate [num_enum])
    on its [repr(u32)] enums: [into] gives the discriminant written in the
    declaration, [from] gives the variant with that discriminant and otherwise
    the variant marked [catch_all] (which keeps the code) or [default]. *)

Class NumEnum (E : Type) : Type := {
  discriminant : E -> Z;
  named : list E;
  otherwise : Z -> E;
}.

Definition from_primitive {E} `{NumEnum E} (c : Z) : E :=
  match list_find (fun k => discriminant k = c) named with
  | Some (_, k) => k
  | None => otherwise c
  end.

(** What the declarations must satisfy: distinct discriminants. *)
Class NumEnumOk (E : Type) `{NumEnum E} : Prop :=
  named_nodup : NoDup (map discriminant named).

(** Decide a closed decidable goal by computation. *)
Ltac decide_closed := apply (bool_decide_unpack _); vm_compute; exact I.

Ltac num_enum_ok := unfold NumEnumOk; decide_closed.

(** [catch_all] keeps the code. *)
Class CatchAll (E : Type) `{NumEnum E} : Prop :=
  otherwise_code c : discriminant (otherwise c) = c.

Section NumEnum_lemmas.
Context {E : Type} `{NumEnumOk E}.

Lemma from_primitive_named (k : E) :
  k ∈ named -> from_primitive (discriminant k) = k.
Proof.
  intros Hk. unfold from_primitive.
  destruct (list_find _ _) as [[i k']|] eqn:Hf.
  - apply list_find_Some in Hf as (Hi & Heq & _).
    apply list_elem_of_lookup in Hk as [j Hj].
    assert (i = j) as ->; [|congruence].
    apply (NoDup_lookup (map discriminant named) i j (discriminant k)).
    + apply named_nodup.
    + change (map discriminant named) with (discriminant <$> named).
      rewrite list_lookup_fmap, Hi. cbn. by rewrite Heq.
    + change (map discriminant named) with (discriminant <$> named).
      by rewrite list_lookup_fmap, Hj.
  - apply list_find_None in Hf. rewrite Forall_forall in Hf.
    by destruct (Hf k (proj1 (list_elem_of_In _ _) Hk)).
Qed.

Lemma from_primitive_other (c : Z) :
  (forall k : E, k ∈ named -> discriminant k <> c) -> from_primitive (E:=E) c = otherwise c.
Proof.
  intros Hc. unfold from_primitive.
  destruct (list_find _ _) as [[i k']|] eqn:Hf; [|done].
  apply list_find_Some in Hf as (Hi & Heq & _).
  destruct (Hc k'); [|done]. apply list_elem_of_lookup. eauto.
Qed.

Lemma into_from_primitive `{!CatchAll E} (c : Z) :
  discriminant (from_primitive (E:=E) c) = c.
Proof.
  unfold from_primitive. destruct (list_find _ _) as [[i k']|] eqn:Hf.
  - by apply list_find_Some in Hf as (_ & Heq & _).
  - apply otherwise_code.
Qed.

End NumEnum_lemmas.
