(* ===== verification/TeeDefines.v ===== *)
(** * TeeDefines: the constants of the TEE Internal Core API

    Translated from [crates/optee-utee-sys/src/tee_api_defines.rs]: the error
    codes, parameter-type tags, login types, origins, seek origins, operation
    modes and object flags the crates use, and the two functions that pack and
    unpack the parameter-type word.  All constants are [u32]. *)

From S2P Require Import Prelude.

(** ** Timeouts *)

Definition TEE_TIMEOUT_INFINITE : Z := 0xFFFFFFFF.

(** ** API error codes *)

Definition TEE_SUCCESS : Z := 0x00000000.
Definition TEE_ERROR_CORRUPT_OBJECT : Z := 0xF0100001.
Definition TEE_ERROR_CORRUPT_OBJECT_2 : Z := 0xF0100002.
Definition TEE_ERROR_STORAGE_NOT_AVAILABLE : Z := 0xF0100003.
Definition TEE_ERROR_STORAGE_NOT_AVAILABLE_2 : Z := 0xF0100004.
Definition TEE_ERROR_UNSUPPORTED_VERSION : Z := 0xF0100005.
Definition TEE_ERROR_CIPHERTEXT_INVALID : Z := 0xF0100006.
Definition TEE_ERROR_GENERIC : Z := 0xFFFF0000.
Definition TEE_ERROR_ACCESS_DENIED : Z := 0xFFFF0001.
Definition TEE_ERROR_CANCEL : Z := 0xFFFF0002.
Definition TEE_ERROR_ACCESS_CONFLICT : Z := 0xFFFF0003.
Definition TEE_ERROR_EXCESS_DATA : Z := 0xFFFF0004.
Definition TEE_ERROR_BAD_FORMAT : Z := 0xFFFF0005.
Definition TEE_ERROR_BAD_PARAMETERS : Z := 0xFFFF0006.
Definition TEE_ERROR_BAD_STATE : Z := 0xFFFF0007.
Definition TEE_ERROR_ITEM_NOT_FOUND : Z := 0xFFFF0008.
Definition TEE_ERROR_NOT_IMPLEMENTED : Z := 0xFFFF0009.
Definition TEE_ERROR_NOT_SUPPORTED : Z := 0xFFFF000A.
Definition TEE_ERROR_NO_DATA : Z := 0xFFFF000B.
Definition TEE_ERROR_OUT_OF_MEMORY : Z := 0xFFFF000C.
Definition TEE_ERROR_BUSY : Z := 0xFFFF000D.
Definition TEE_ERROR_COMMUNICATION : Z := 0xFFFF000E.
Definition TEE_ERROR_SECURITY : Z := 0xFFFF000F.
Definition TEE_ERROR_SHORT_BUFFER : Z := 0xFFFF0010.
Definition TEE_ERROR_EXTERNAL_CANCEL : Z := 0xFFFF0011.
Definition TEE_ERROR_TIMEOUT : Z := 0xFFFF3001.
Definition TEE_ERROR_OVERFLOW : Z := 0xFFFF300F.
Definition TEE_ERROR_TARGET_DEAD : Z := 0xFFFF3024.
Definition TEE_ERROR_STORAGE_NO_SPACE : Z := 0xFFFF3041.
Definition TEE_ERROR_MAC_INVALID : Z := 0xFFFF3071.
Definition TEE_ERROR_SIGNATURE_INVALID : Z := 0xFFFF3072.
Definition TEE_ERROR_TIME_NOT_SET : Z := 0xFFFF5000.
Definition TEE_ERROR_TIME_NEEDS_RESET : Z := 0xFFFF5001.

(** ** Parameter types *)

Definition TEE_PARAM_TYPE_NONE : Z := 0.
Definition TEE_PARAM_TYPE_VALUE_INPUT : Z := 1.
Definition TEE_PARAM_TYPE_VALUE_OUTPUT : Z := 2.
Definition TEE_PARAM_TYPE_VALUE_INOUT : Z := 3.
Definition TEE_PARAM_TYPE_MEMREF_INPUT : Z := 5.
Definition TEE_PARAM_TYPE_MEMREF_OUTPUT : Z := 6.
Definition TEE_PARAM_TYPE_MEMREF_INOUT : Z := 7.

(** ** Login types *)

Definition TEE_LOGIN_PUBLIC : Z := 0x00000000.
Definition TEE_LOGIN_USER : Z := 0x00000001.
Definition TEE_LOGIN_GROUP : Z := 0x00000002.
Definition TEE_LOGIN_APPLICATION : Z := 0x00000004.
Definition TEE_LOGIN_APPLICATION_USER : Z := 0x00000005.
Definition TEE_LOGIN_APPLICATION_GROUP : Z := 0x00000006.
Definition TEE_LOGIN_TRUSTED_APP : Z := 0xF0000000.

(** ** Origin codes *)

Definition TEE_ORIGIN_API : Z := 0x00000001.
Definition TEE_ORIGIN_COMMS : Z := 0x00000002.
Definition TEE_ORIGIN_TEE : Z := 0x00000003.
Definition TEE_ORIGIN_TRUSTED_APP : Z := 0x00000004.

(** ** Whence values *)

Definition TEE_DATA_SEEK_SET : Z := 0x00000000.
Definition TEE_DATA_SEEK_CUR : Z := 0x00000001.
Definition TEE_DATA_SEEK_END : Z := 0x00000002.
Definition TEE_WHENCE_ILLEGAL_VALUE : Z := 0x7FFFFFFF.

(** ** Operation modes *)

Definition TEE_MODE_ENCRYPT : Z := 0x00000000.
Definition TEE_MODE_DECRYPT : Z := 0x00000001.
Definition TEE_MODE_SIGN : Z := 0x00000002.
Definition TEE_MODE_VERIFY : Z := 0x00000003.
Definition TEE_MODE_MAC : Z := 0x00000004.
Definition TEE_MODE_DIGEST : Z := 0x00000005.
Definition TEE_MODE_DERIVE : Z := 0x00000006.
Definition TEE_MODE_ILLEGAL_VALUE : Z := 0x7FFFFFFF.

(** ** Storage, data flags, object identifiers, usages and handle flags *)

Definition TEE_STORAGE_PRIVATE : Z := 0x00000001.
Definition TEE_DATA_FLAG_ACCESS_READ : Z := 0x00000001.
Definition TEE_DATA_FLAG_ACCESS_WRITE : Z := 0x00000002.
Definition TEE_DATA_FLAG_ACCESS_WRITE_META : Z := 0x00000004.
Definition TEE_DATA_FLAG_SHARE_READ : Z := 0x00000010.
Definition TEE_DATA_FLAG_SHARE_WRITE : Z := 0x00000020.
Definition TEE_DATA_FLAG_OVERWRITE : Z := 0x00000400.
Definition TEE_DATA_MAX_POSITION : Z := 0xFFFFFFFF.
Definition TEE_OBJECT_ID_MAX_LEN : Z := 64.
Definition TEE_USAGE_EXTRACTABLE : Z := 0x00000001.
Definition TEE_USAGE_ENCRYPT : Z := 0x00000002.
Definition TEE_USAGE_DECRYPT : Z := 0x00000004.
Definition TEE_USAGE_MAC : Z := 0x00000008.
Definition TEE_USAGE_SIGN : Z := 0x00000010.
Definition TEE_USAGE_VERIFY : Z := 0x00000020.
Definition TEE_USAGE_DERIVE : Z := 0x00000040.
Definition TEE_HANDLE_FLAG_PERSISTENT : Z := 0x00010000.
Definition TEE_HANDLE_FLAG_INITIALIZED : Z := 0x00020000.
Definition TEE_HANDLE_FLAG_KEY_SET : Z := 0x00040000.
Definition TEE_HANDLE_FLAG_EXPECT_TWO_KEYS : Z := 0x00080000.
Definition TEE_HANDLE_FLAG_EXTRACTING : Z := 0x00100000.

(** ** The parameter-type word *)

Definition TEE_NUM_PARAMS : Z := 4.

Definition TEE_PARAM_TYPES (t0 t1 t2 t3 : Z) : Z :=
  Z.lor (Z.lor (Z.lor t0 (wrap_u 32 (Z.shiftl t1 4))) (wrap_u 32 (Z.shiftl t2 8)))
        (wrap_u 32 (Z.shiftl t3 12)).

(** The source indexes with a [usize]; every caller passes a slot 0..3, so the
    shift amount is at most 12 and the shift never overflows. *)
Definition TEE_PARAM_TYPE_GET (t i : Z) : Z :=
  Z.land (Z.shiftr t (i * 4)) 0xF.

(** ** Packing and unpacking *)

Section Packing.

(** A parameter-type tag as the word can hold it: four bits. *)
Definition is_tag (t : Z) : Prop := in_u 4 t.

#[export] Instance is_tag_dec t : Decision (is_tag t).
Proof. unfold is_tag. apply _. Defined.

Lemma TEE_PARAM_TYPES_sum t0 t1 t2 t3 :
  is_tag t0 -> is_tag t1 -> is_tag t2 -> is_tag t3 ->
  TEE_PARAM_TYPES t0 t1 t2 t3 = t0 + t1 * 2 ^ 4 + t2 * 2 ^ 8 + t3 * 2 ^ 12.
Proof.
  unfold is_tag, in_u, TEE_PARAM_TYPES. intros.
  rewrite !wrap_u_small; unfold in_u; rewrite ?Z.shiftl_mul_pow2 by lia; [|lia..].
  rewrite <- !Z.shiftl_mul_pow2 by lia.
  rewrite (lor_shiftl_add t0 t1 4) by lia.
  rewrite (lor_shiftl_add _ t2 8) by (rewrite ?Z.shiftl_mul_pow2; lia).
  rewrite (lor_shiftl_add _ t3 12) by (rewrite ?Z.shiftl_mul_pow2; lia).
  rewrite !Z.shiftl_mul_pow2 by lia. lia.
Qed.

Lemma TEE_PARAM_TYPE_GET_div t i :
  0 <= i -> TEE_PARAM_TYPE_GET t i = (t / 2 ^ (i * 4)) mod 16.
Proof.
  intros. unfold TEE_PARAM_TYPE_GET. change 0xF with (Z.ones 4).
  rewrite Z.land_ones, Z.shiftr_div_pow2 by lia. done.
Qed.

(** A slot read from any word is a tag. *)
Lemma TEE_PARAM_TYPE_GET_tag t i : 0 <= i -> is_tag (TEE_PARAM_TYPE_GET t i).
Proof.
  intros. rewrite TEE_PARAM_TYPE_GET_div by done. apply Z.mod_pos_bound. lia.
Qed.

Lemma TEE_PARAM_TYPE_GET_pack t0 t1 t2 t3 :
  is_tag t0 -> is_tag t1 -> is_tag t2 -> is_tag t3 ->
  TEE_PARAM_TYPE_GET (TEE_PARAM_TYPES t0 t1 t2 t3) 0 = t0 /\
  TEE_PARAM_TYPE_GET (TEE_PARAM_TYPES t0 t1 t2 t3) 1 = t1 /\
  TEE_PARAM_TYPE_GET (TEE_PARAM_TYPES t0 t1 t2 t3) 2 = t2 /\
  TEE_PARAM_TYPE_GET (TEE_PARAM_TYPES t0 t1 t2 t3) 3 = t3.
Proof.
  intros. rewrite TEE_PARAM_TYPES_sum, !TEE_PARAM_TYPE_GET_div by (done || lia).
  unfold is_tag, in_u in *. cbn -[Z.div Z.modulo]. repeat split; Z.to_euclidean_division_equations; lia.
Qed.

Lemma TEE_PARAM_TYPES_range t0 t1 t2 t3 :
  is_tag t0 -> is_tag t1 -> is_tag t2 -> is_tag t3 ->
  in_u 16 (TEE_PARAM_TYPES t0 t1 t2 t3).
Proof.
  intros. rewrite TEE_PARAM_TYPES_sum by done. unfold is_tag, in_u in *. lia.
Qed.

(** Packing the four slots of a 16-bit word gives the word back. *)
Lemma TEE_PARAM_TYPES_unpack t :
  in_u 16 t ->
  TEE_PARAM_TYPES (TEE_PARAM_TYPE_GET t 0) (TEE_PARAM_TYPE_GET t 1)
    (TEE_PARAM_TYPE_GET t 2) (TEE_PARAM_TYPE_GET t 3) = t.
Proof.
  intros. rewrite TEE_PARAM_TYPES_sum by (apply TEE_PARAM_TYPE_GET_tag; lia).
  rewrite !TEE_PARAM_TYPE_GET_div by lia. unfold in_u in *.
  cbn -[Z.div Z.modulo]. Z.to_euclidean_division_equations; lia.
Qed.

End Packing.

#[export] Hint Resolve TEE_PARAM_TYPE_GET_tag TEE_PARAM_TYPES_range : rust.
