(* ===== verification/UteeError.v ===== *)
(** * UteeError: the error type of the TA-side API

    Models [crates/optee-utee/src/error.rs]: the kinds of error with their
    codes, the [Error] value that carries a kind and an optional origin, and
    the two functions that turn a raw [TEE_Result] into a [Result]. *)

From S2P Require Import Prelude TeeDefines.

Module ErrorKind.

Inductive ErrorKind : Type :=
| CorruptObject
| CorruptObject2
| StorageNotAvailable
| StorageNotAvailable2
| Generic
| AccessDenied
| Cancel
| AccessConflict
| ExcessData
| BadFormat
| BadParameters
| BadState
| ItemNotFound
| NotImplemented
| NotSupported
| NoData
| OutOfMemory
| Busy
| Communication
| Security
| ShortBuffer
| ExternalCancel
| Overflow
| TargetDead
| StorageNoSpace
| MacInvalid
| SignatureInvalid
| TimeNotSet
| TimeNeedsReset
| Unknown (code : Z).

#[global] Instance ErrorKind_eq_dec : EqDecision ErrorKind.
Proof. solve_decision. Defined.

(** [u32::from(kind)]. *)
Definition into_u32 (k : ErrorKind) : Z :=
  match k with
  | CorruptObject => TEE_ERROR_CORRUPT_OBJECT
  | CorruptObject2 => TEE_ERROR_CORRUPT_OBJECT_2
  | StorageNotAvailable => TEE_ERROR_STORAGE_NOT_AVAILABLE
  | StorageNotAvailable2 => TEE_ERROR_STORAGE_NOT_AVAILABLE_2
  | Generic => TEE_ERROR_GENERIC
  | AccessDenied => TEE_ERROR_ACCESS_DENIED
  | Cancel => TEE_ERROR_CANCEL
  | AccessConflict => TEE_ERROR_ACCESS_CONFLICT
  | ExcessData => TEE_ERROR_EXCESS_DATA
  | BadFormat => TEE_ERROR_BAD_FORMAT
  | BadParameters => TEE_ERROR_BAD_PARAMETERS
  | BadState => TEE_ERROR_BAD_STATE
  | ItemNotFound => TEE_ERROR_ITEM_NOT_FOUND
  | NotImplemented => TEE_ERROR_NOT_IMPLEMENTED
  | NotSupported => TEE_ERROR_NOT_SUPPORTED
  | NoData => TEE_ERROR_NO_DATA
  | OutOfMemory => TEE_ERROR_OUT_OF_MEMORY
  | Busy => TEE_ERROR_BUSY
  | Communication => TEE_ERROR_COMMUNICATION
  | Security => TEE_ERROR_SECURITY
  | ShortBuffer => TEE_ERROR_SHORT_BUFFER
  | ExternalCancel => TEE_ERROR_EXTERNAL_CANCEL
  | Overflow => TEE_ERROR_OVERFLOW
  | TargetDead => TEE_ERROR_TARGET_DEAD
  | StorageNoSpace => TEE_ERROR_STORAGE_NO_SPACE
  | MacInvalid => TEE_ERROR_MAC_INVALID
  | SignatureInvalid => TEE_ERROR_SIGNATURE_INVALID
  | TimeNotSet => TEE_ERROR_TIME_NOT_SET
  | TimeNeedsReset => TEE_ERROR_TIME_NEEDS_RESET
  | Unknown code => code
  end.

Definition variants : list ErrorKind :=
  [CorruptObject; CorruptObject2; StorageNotAvailable; StorageNotAvailable2;
   Generic; AccessDenied; Cancel; AccessConflict;
   ExcessData; BadFormat; BadParameters; BadState;
   ItemNotFound; NotImplemented; NotSupported; NoData;
   OutOfMemory; Busy; Communication; Security;
   ShortBuffer; ExternalCancel; Overflow; TargetDead;
   StorageNoSpace; MacInvalid; SignatureInvalid; TimeNotSet;
   TimeNeedsReset].

#[global] Instance ErrorKind_num_enum : NumEnum ErrorKind :=
  {| discriminant := into_u32; named := variants; otherwise := Unknown |}.

#[global] Instance ErrorKind_num_enum_ok : NumEnumOk ErrorKind.
Proof. num_enum_ok. Qed.

#[global] Instance ErrorKind_catch_all : CatchAll ErrorKind.
Proof. done. Qed.

(** [ErrorKind::from(code)]. *)
Definition from_u32 (code : Z) : ErrorKind := from_primitive code.

Definition as_str (k : ErrorKind) : string :=
  (match k with
  | CorruptObject => "Object corruption."
  | CorruptObject2 => "Persistent object corruption."
  | StorageNotAvailable => "Object storage is not available."
  | StorageNotAvailable2 => "Persistent object storage is not available."
  | Generic => "Non-specific cause."
  | AccessDenied => "Access privileges are not sufficient."
  | Cancel => "The operation was canceled."
  | AccessConflict => "Concurrent accesses caused conflict."
  | ExcessData =>
      "Too much data for the requested operation was passed."
  | BadFormat => "Input data was of invalid format."
  | BadParameters => "Input parameters were invalid."
  | BadState => "Operation is not valid in the current state."
  | ItemNotFound => "The requested data item is not found."
  | NotImplemented =>
      "The requested operation should exist but is not yet implemented."
  | NotSupported =>
      "The requested operation is valid but is not supported in this implementation."
  | NoData => "Expected data was missing."
  | OutOfMemory => "System ran out of resources."
  | Busy => "The system is busy working on something else."
  | Communication => "Communication with a remote party failed."
  | Security => "A security fault was detected."
  | ShortBuffer =>
      "The supplied buffer is too short for the generated output."
  | ExternalCancel => "Undocumented."
  | Overflow => "Data overflow."
  | TargetDead =>
      "Trusted Application has panicked during the operation."
  | StorageNoSpace => "Insufficient space is available."
  | MacInvalid => "MAC is invalid."
  | SignatureInvalid => "Signature is invalid."
  | TimeNotSet => "The persistent time has not been set."
  | TimeNeedsReset =>
      "The persistent time has been set but may have been corrupted and SHALL no longer be trusted."
  | Unknown _ => "Unknown error."
  end)%string.

End ErrorKind.

Abbreviation ErrorKind := ErrorKind.ErrorKind.

Module ErrorOrigin.

Inductive ErrorOrigin : Type := Api | Comms | Tee | Ta | Unknown.

#[global] Instance ErrorOrigin_eq_dec : EqDecision ErrorOrigin.
Proof. solve_decision. Defined.

(** [origin as u32]: [Unknown] has no written discriminant, so it gets the
    previous one plus one. *)
Definition into_u32 (o : ErrorOrigin) : Z :=
  match o with
  | Api => TEE_ORIGIN_API
  | Comms => TEE_ORIGIN_COMMS
  | Tee => TEE_ORIGIN_TEE
  | Ta => TEE_ORIGIN_TRUSTED_APP
  | Unknown => TEE_ORIGIN_TRUSTED_APP + 1
  end.

Definition from_u32 (code : Z) : ErrorOrigin :=
  if code =? TEE_ORIGIN_API then Api
  else if code =? TEE_ORIGIN_COMMS then Comms
  else if code =? TEE_ORIGIN_TEE then Tee
  else if code =? TEE_ORIGIN_TRUSTED_APP then Ta
  else Unknown.

End ErrorOrigin.

Abbreviation ErrorOrigin := ErrorOrigin.ErrorOrigin.

Module Error.

Record Error : Type := mkError {
  kind : ErrorKind;
  origin : option ErrorOrigin;
}.

#[global] Instance Error_eq_dec : EqDecision Error.
Proof. solve_decision. Defined.

Definition from_kind (k : ErrorKind) : Error := mkError k None.
Definition new (k : ErrorKind) : Error := from_kind k.
Definition from_raw_error (code : Z) : Error := from_kind (ErrorKind.from_u32 code).
Definition with_origin (e : Error) (o : ErrorOrigin) : Error :=
  mkError (kind e) (Some o).
Definition raw_code (e : Error) : Z := ErrorKind.into_u32 (kind e).
Definition message (e : Error) : string := ErrorKind.as_str (kind e).

(** The origin the formatter prints: [0] when there is none. *)
Definition origin_code (e : Error) : Z :=
  match origin e with Some o => ErrorOrigin.into_u32 o | None => 0 end.

(** [Debug::fmt], and [Display::fmt] which calls it. *)
Definition fmt (e : Error) : string :=
  (message e ++ " (error code 0x" ++ lower_hex (raw_code e)
     ++ ", origin 0x" ++ lower_hex (origin_code e) ++ ")")%string.

End Error.

Abbreviation Error := Error.Error.

(** [Result<T>] of the crate. *)
Definition Result (T : Type) : Type := result T Error.

(** [kind.into()] in an error position. *)
Definition bail {T} (k : ErrorKind) : Result T := Err (Error.from_kind k).

Definition tee_check (code : Z) : Result unit :=
  if code =? TEE_SUCCESS then Ok tt else Err (Error.from_raw_error code).

Definition tee_check_with_origin (code orig : Z) : Result unit :=
  if code =? TEE_SUCCESS then Ok tt
  else Err (Error.with_origin (Error.from_raw_error code) (ErrorOrigin.from_u32 orig)).

(** ** Properties *)

Lemma from_raw_error_code code : Error.raw_code (Error.from_raw_error code) = code.
Proof. exact (into_from_primitive (E:=ErrorKind) code). Qed.

Lemma error_kind_named (k : ErrorKind) :
  k ∈ ErrorKind.variants \/ exists code, k = ErrorKind.Unknown code.
Proof.
  destruct k as [ | | | | | | | | | | | | | | | | | | | | | | | | | | | | |code];
    [left; decide_closed..|right; by exists code].
Qed.

Lemma unknown_not_variant code : ErrorKind.Unknown code ∉ ErrorKind.variants.
Proof.
  rewrite list_elem_of_In. cbn. intros Hk.
  repeat (destruct Hk as [Hk|Hk]; [discriminate Hk|]). done.
Qed.

(** No error code is lost or confused: [ErrorKind::from] followed by
    [u32::from] is the identity on every code, every named kind is recovered
    from its code, and a code gives [Unknown] exactly when it is not the code
    of a named kind. *)
Lemma error_kind_round_trip :
  (forall code, ErrorKind.into_u32 (ErrorKind.from_u32 code) = code) /\
  (forall k, k ∈ ErrorKind.variants -> ErrorKind.from_u32 (ErrorKind.into_u32 k) = k) /\
  (forall code, ErrorKind.from_u32 code = ErrorKind.Unknown code <->
     ~ exists k, k ∈ ErrorKind.variants /\ ErrorKind.into_u32 k = code).
Proof.
  split_and!.
  - apply from_raw_error_code.
  - intros k Hk. exact (from_primitive_named (E:=ErrorKind) k Hk).
  - intros code. split.
    + intros Hu (k & Hk & <-). unfold ErrorKind.from_u32 in Hu.
      change (ErrorKind.into_u32 k) with (discriminant k) in Hu.
      rewrite from_primitive_named in Hu by done. rewrite Hu in Hk. by apply unknown_not_variant in Hk.
    + intros Hn. unfold ErrorKind.from_u32. rewrite from_primitive_other; [done|].
      intros k Hk Hc. apply Hn. by exists k.
Qed.

(** [tee_check] and [tee_check_with_origin] succeed exactly on
    [TEE_SUCCESS]; otherwise the error carries the very code the TEE returned,
    which is then not [TEE_SUCCESS], so an error is never reported as success
    when its code travels back to the caller. *)
Lemma tee_check_faithful code orig :
  (tee_check code = Ok tt <-> code = TEE_SUCCESS) /\
  (tee_check_with_origin code orig = Ok tt <-> code = TEE_SUCCESS) /\
  (forall e, tee_check code = Err e ->
     Error.raw_code e = code /\ Error.raw_code e <> TEE_SUCCESS /\ Error.origin e = None) /\
  (forall e, tee_check_with_origin code orig = Err e ->
     Error.raw_code e = code /\ Error.raw_code e <> TEE_SUCCESS /\
     Error.origin e = Some (ErrorOrigin.from_u32 orig)).
Proof.
  unfold tee_check, tee_check_with_origin.
  destruct (code =? TEE_SUCCESS) eqn:Hc; reflect_bool; split_and!; try done.
  - intros e [= <-]. rewrite from_raw_error_code. done.
  - intros e [= <-]. pose proof (from_raw_error_code code) as Hr.
    unfold Error.raw_code in *. cbn [Error.with_origin Error.kind]. by rewrite Hr.
Qed.
