(* ===== verification/Memory.v ===== *)
(** * Memory: the address space a TA sees, and [TEE_MemMove]

    The address space is a finite map from addresses to bytes; its domain is
    what is mapped.  [TEE_MemMove] belongs to the TEE (it is only declared in
    [crates/optee-utee-sys/src/tee_api.rs]), so it is an interface here: the
    two directions in which the crates call it (from shared memory into a
    TA-owned buffer, from a TA-owned buffer into shared memory), with the
    documented effect as laws.  A TA-owned buffer ([Vec], slice) is a list. *)

From S2P Require Import Prelude.

Abbreviation mem := (gmap Z Z).

(** [[a, a+n)] is mapped. *)
Definition range_mapped (m : mem) (a n : Z) : Prop :=
  forall x, a <= x < a + n -> is_Some (m !! x).

(** The mapped addresses. *)
Definition mdom (m : mem) : gset Z := dom m.

(** [l] is what [m] holds from [a] on. *)
Definition holds_at (m : mem) (a : Z) (l : bytes) : Prop :=
  forall i, 0 <= i < len l -> m !! (a + i) = l !! Z.to_nat i.

(** [m'] differs from [m] at most on [[a, a+n)]. *)
Definition same_outside (m m' : mem) (a n : Z) : Prop :=
  forall x, ~ (a <= x < a + n) -> m' !! x = m !! x.

(** [TEE_MemMove(dest, src, size)]: [None] is a fault (an address of the range
    is not mapped). *)
Class TeeMemMove : Type := {
  memmove_from : mem -> Z -> Z -> option bytes;
  memmove_to : mem -> Z -> bytes -> option mem;
}.

Class TeeMemMoveOk `{TeeMemMove} : Prop := {
  memmove_from_mapped m a n :
    0 <= n -> range_mapped m a n ->
    exists l, memmove_from m a n = Some l /\ len l = n /\ holds_at m a l;
  memmove_to_mapped m a l :
    range_mapped m a (len l) ->
    exists m', memmove_to m a l = Some m' /\ mdom m' = mdom m /\
      holds_at m' a l /\ same_outside m m' a (len l);
}.

(** ** A concrete instance *)

Fixpoint read_range (m : mem) (a : Z) (n : nat) : option bytes :=
  match n with
  | O => Some []
  | S n' => match m !! a, read_range m (a + 1) n' with
            | Some b, Some l => Some (b :: l)
            | _, _ => None
            end
  end.

Fixpoint write_range (m : mem) (a : Z) (l : bytes) : option mem :=
  match l with
  | [] => Some m
  | b :: l' => match m !! a with
               | Some _ => write_range (<[a := b]> m) (a + 1) l'
               | None => None
               end
  end.

Definition plain_memmove : TeeMemMove := {|
  memmove_from m a n := read_range m a (Z.to_nat n);
  memmove_to := write_range;
|}.

(** A mapped buffer with given contents. *)
Definition buffer_at (a : Z) (l : bytes) : mem :=
  list_to_map (imap (fun i b => (a + Z.of_nat i, b)) l).

Lemma range_mapped_sub m a n a' n' :
  range_mapped m a n -> a <= a' -> a' + n' <= a + n -> range_mapped m a' n'.
Proof. intros Hm ?? x ?. apply Hm. lia. Qed.

Lemma range_mapped_dom m m' a n :
  mdom m' = mdom m -> range_mapped m a n -> range_mapped m' a n.
Proof.
  unfold mdom. intros Hd Hm x Hx. apply elem_of_dom. rewrite Hd.
  apply elem_of_dom. auto.
Qed.

Lemma holds_at_nil m a : holds_at m a [].
Proof. intros i Hi. unfold len in Hi. cbn in Hi. lia. Qed.

Lemma holds_at_cons m a b l :
  m !! a = Some b -> holds_at m (a + 1) l -> holds_at m a (b :: l).
Proof.
  intros Ha Hl i Hi. rewrite len_cons in Hi.
  destruct (Z.eq_dec i 0) as [->|]; [by rewrite Z.add_0_r|].
  replace (Z.to_nat i) with (S (Z.to_nat (i - 1))) by lia. cbn [lookup list_lookup].
  rewrite <- Hl by lia. f_equal. lia.
Qed.

Lemma holds_at_lookup m a l (n : nat) :
  holds_at m a l -> (n < length l)%nat -> m !! (a + Z.of_nat n) = l !! n.
Proof. intros Hl Hn. rewrite Hl by (unfold len; lia). by rewrite Nat2Z.id. Qed.

(** What is held is mapped. *)
Lemma holds_at_mapped (m' : mem) x l : holds_at m' x l -> range_mapped m' x (len l).
Proof.
  intros Hl y Hy. replace y with (x + (y - x)) by lia. rewrite Hl by lia.
  apply lookup_lt_is_Some_2. unfold len in Hy. lia.
Qed.

(** The contents of a range are determined. *)
Lemma holds_at_inj m a l1 l2 :
  len l1 = len l2 -> holds_at m a l1 -> holds_at m a l2 -> l1 = l2.
Proof.
  unfold len. intros Hlen H1 H2. apply list_eq. intros n.
  destruct (decide (n < length l1)%nat).
  - rewrite <- (holds_at_lookup m a l1), <- (holds_at_lookup m a l2) by (done || lia). done.
  - rewrite !lookup_ge_None_2 by lia. done.
Qed.

(** A sub-range holds the corresponding part of the contents. *)
Lemma holds_at_sub m a content o l :
  holds_at m a content -> 0 <= o -> o + len l <= len content -> holds_at m (a + o) l ->
  l = take (Z.to_nat (len l)) (drop (Z.to_nat o) content).
Proof.
  unfold len. intros Hc Ho Hle Hl. apply list_eq. intros n.
  destruct (decide (n < length l)%nat).
  - rewrite lookup_take_lt by lia. rewrite lookup_drop.
    rewrite <- (holds_at_lookup m (a + o) l), <- (holds_at_lookup m a content) by (done || lia).
    f_equal. lia.
  - rewrite !lookup_ge_None_2; [done|rewrite length_take; lia|lia].
Qed.

Lemma read_range_spec m n : forall a,
  range_mapped m a (Z.of_nat n) ->
  exists l, read_range m a n = Some l /\ len l = Z.of_nat n /\ holds_at m a l.
Proof.
  induction n as [|n IH]; intros a Hm.
  - exists []. auto using holds_at_nil.
  - destruct (IH (a + 1)) as (l & Hr & Hlen & Hl);
      [intros x Hx; apply Hm; lia|].
    destruct (Hm a) as [b Hb]; [lia|].
    exists (b :: l). cbn [read_range]. rewrite Hb, Hr, len_cons.
    split_and!; [done|lia|by apply holds_at_cons].
Qed.

Lemma write_range_spec l : forall m a,
  range_mapped m a (len l) ->
  exists m', write_range m a l = Some m' /\ mdom m' = mdom m /\
    holds_at m' a l /\ same_outside m m' a (len l).
Proof.
  induction l as [|b l IH]; intros m a Hm.
  - exists m. split_and!; auto using holds_at_nil. done.
  - rewrite len_cons in Hm. pose proof (len_nonneg l).
    destruct (Hm a) as [b0 Hb0]; [lia|].
    destruct (IH (<[a:=b]> m) (a + 1)) as (m' & Hw & Hdom & Hh & Hs).
    { intros x Hx. rewrite lookup_insert_ne by lia. apply Hm. lia. }
    exists m'. cbn [write_range]. rewrite Hb0. split_and!; [done| | |].
    + rewrite Hdom. unfold mdom. rewrite dom_insert_L. apply elem_of_dom_2 in Hb0. clear -Hb0. set_solver.
    + apply holds_at_cons; [|done]. rewrite Hs by lia. apply lookup_insert_eq.
    + intros x Hx. rewrite len_cons in Hx. rewrite Hs by lia.
      apply lookup_insert_ne. lia.
Qed.

Lemma plain_memmove_ok : @TeeMemMoveOk plain_memmove.
Proof.
  split; cbn.
  - intros m a n Hn Hm. destruct (read_range_spec m (Z.to_nat n) a) as (l & ? & ? & ?).
    + by rewrite Z2Nat.id.
    + exists l. split_and!; [done|lia|done].
  - intros m a l Hm. by apply write_range_spec.
Qed.

Lemma buffer_at_lookup a l i :
  0 <= i < len l -> buffer_at a l !! (a + i) = l !! Z.to_nat i.
Proof.
  intros Hi. unfold buffer_at. unfold len in Hi.
  destruct (lookup_lt_is_Some_2 l (Z.to_nat i)) as [b Hb]; [lia|]. rewrite Hb.
  apply elem_of_list_to_map_1'.
  - intros y Hy. apply elem_of_lookup_imap in Hy as (j & c & [= Hj ->] & Hc).
    replace (Z.to_nat i) with j in Hb by lia. congruence.
  - apply elem_of_lookup_imap. exists (Z.to_nat i), b. split; [|done].
    f_equal. lia.
Qed.

Lemma buffer_at_outside a l x : ~ a <= x < a + len l -> buffer_at a l !! x = None.
Proof.
  intros Hx. unfold buffer_at. apply not_elem_of_list_to_map_1.
  intros ([y v] & -> & Hy)%list_elem_of_fmap.
  apply elem_of_lookup_imap in Hy as (i & c & [= -> ->] & Hc). cbn in Hx.
  apply lookup_lt_Some in Hc. unfold len in Hx. lia.
Qed.

Lemma buffer_at_mapped a l : range_mapped (buffer_at a l) a (len l).
Proof.
  intros x Hx. replace x with (a + (x - a)) by lia. rewrite buffer_at_lookup by lia.
  apply lookup_lt_is_Some_2. unfold len in Hx. lia.
Qed.

(** ** Buffers that are placed and removed *)

(** Without the [n] bytes at [p]. *)
Definition dropped (p n : Z) (m : mem) : mem := filter (fun '(a, _) => ~ p <= a < p + n) m.

Lemma dropped_in p n m x : p <= x < p + n -> dropped p n m !! x = None.
Proof. intros Hx. apply map_lookup_filter_None. right. intros v _. tauto. Qed.

Lemma dropped_out p n m x : ~ p <= x < p + n -> dropped p n m !! x = m !! x.
Proof.
  intros Hx. unfold dropped. destruct (m !! x) as [v|] eqn:Hm.
  - by apply map_lookup_filter_Some.
  - apply map_lookup_filter_None. by left.
Qed.

(** A buffer that is allocated and freed leaves the memory as it was. *)
Lemma filter_buffer p l (m : mem) :
  (forall x, p <= x < p + len l -> m !! x = None) ->
  filter (fun '(a, _) => ~ p <= a < p + len l) (buffer_at p l ∪ m) = m.
Proof.
  intros Hf. fold (dropped p (len l) (buffer_at p l ∪ m)). apply map_eq. intros x.
  destruct (decide (p <= x < p + len l)) as [Hx|Hx].
  - by rewrite dropped_in, Hf.
  - rewrite dropped_out, lookup_union_r by done || by apply buffer_at_outside. done.
Qed.

Lemma array_dropped p l (mm m' : mem) :
  (forall x, p <= x < p + len l -> mm !! x = None) ->
  same_outside (buffer_at p l ∪ mm) m' p (len l) ->
  filter (fun '(a, _) => ~ p <= a < p + len l) m' = mm.
Proof.
  intros Hf Hs. transitivity (dropped p (len l) (buffer_at p l ∪ mm)); [|by apply filter_buffer].
  fold (dropped p (len l) m'). apply map_eq. intros x.
  destruct (decide (p <= x < p + len l)) as [Hx|Hx]; [by rewrite !dropped_in|].
  rewrite !dropped_out by done. by apply Hs.
Qed.

Lemma array_holds p l (mm : mem) : holds_at (buffer_at p l ∪ mm) p l.
Proof.
  intros i Hi. destruct (lookup_lt_is_Some_2 l (Z.to_nat i)) as [v Hv]; [unfold len in Hi; lia|].
  rewrite Hv. apply lookup_union_Some_l. by rewrite buffer_at_lookup by lia.
Qed.

(** An array that was there keeps its contents when a new one is placed. *)
Lemma array_after p l q l' (mm : mem) :
  holds_at mm p l -> (forall x, q <= x < q + len l' -> mm !! x = None) ->
  holds_at (buffer_at q l' ∪ mm) p l.
Proof.
  intros Hl Hf i Hi. rewrite lookup_union_r; [by apply Hl|].
  apply buffer_at_outside. intros Hx. specialize (Hf _ Hx). rewrite (Hl i Hi) in Hf.
  apply lookup_ge_None in Hf. unfold len in Hi. lia.
Qed.

Lemma array_beside p l q l' (mm : mem) :
  (forall x, q <= x < q + len l' -> (buffer_at p l ∪ mm) !! x = None) ->
  holds_at (buffer_at q l' ∪ (buffer_at p l ∪ mm)) p l.
Proof. apply array_after, array_holds. Qed.
