(* ===== verification/Params.v ===== *)
(** * Params: the typed views of the four raw parameters of an entry point

    Models [crates/optee-utee/src/parameter/]: [mod.rs] (the conversion traits,
    [ParamType], [ParameterAny]), [value.rs], [memref.rs], [none.rs] and
    [deprecated.rs].

    A raw [TEE_Param] is a union of a memory reference and a pair of [u32]; it
    is kept as its two machine words, which both views read and write.  The
    state of an entry point is the address space and the array of raw
    parameters; a wrapper that holds [&mut TEE_Param] holds the slot number.  The
    source's traits are type classes, their provided methods are definitions
    over the class. *)

From S2P Require Import Prelude TeeDefines UteeError Memory.

(** ** The raw union ([TEE_Param]) and the state of an entry point *)

Record TEE_Param : Type := mkParam { word0 : Z; word1 : Z }.

#[global] Instance TEE_Param_eq_dec : EqDecision TEE_Param.
Proof. solve_decision. Defined.

Section Union.
Context `{Target}.

(** [memref.buffer] and [memref.size]. *)
Definition memref_buffer (p : TEE_Param) : Z := word0 p.
Definition memref_size (p : TEE_Param) : Z := word1 p.
Definition set_memref_size (p : TEE_Param) (n : Z) : TEE_Param := mkParam (word0 p) n.

(** [value.a] and [value.b]: the first eight bytes of the union, little
    endian. *)
Definition value_a (p : TEE_Param) : Z := word0 p mod 2 ^ 32.
Definition value_b (p : TEE_Param) : Z :=
  if ptr_bits =? 64 then word0 p / 2 ^ 32 else word1 p.
Definition set_value_a (p : TEE_Param) (a : Z) : TEE_Param :=
  mkParam (if ptr_bits =? 64 then a + 2 ^ 32 * (word0 p / 2 ^ 32) else a) (word1 p).
Definition set_value_b (p : TEE_Param) (b : Z) : TEE_Param :=
  if ptr_bits =? 64 then mkParam (word0 p mod 2 ^ 32 + 2 ^ 32 * b) (word1 p)
  else mkParam (word0 p) b.

(** The words are machine words. *)
Definition param_ok (p : TEE_Param) : Prop := in_u ptr_bits (word0 p) /\ in_u ptr_bits (word1 p).

End Union.

Record world : Type := mkWorld { wmem : mem; raws : list TEE_Param }.

Definition get_raw (i : nat) : prog world TEE_Param :=
  fun w => match raws w !! i with Some p => Ret (p, w) | None => UB end.
Definition put_raw (i : nat) (p : TEE_Param) : prog world unit :=
  fun w => match raws w !! i with
           | Some _ => Ret (tt, mkWorld (wmem w) (<[i := p]> (raws w)))
           | None => UB
           end.

(** ** [ParamType] *)

Module ParamType.

Inductive ParamType : Type :=
| None_
| ValueInput
| ValueOutput
| ValueInout
| MemrefInput
| MemrefOutput
| MemrefInout
| Unknown (code : Z).

#[global] Instance ParamType_eq_dec : EqDecision ParamType.
Proof. solve_decision. Defined.

Definition into_u32 (t : ParamType) : Z :=
  match t with
  | None_ => TEE_PARAM_TYPE_NONE
  | ValueInput => TEE_PARAM_TYPE_VALUE_INPUT
  | ValueOutput => TEE_PARAM_TYPE_VALUE_OUTPUT
  | ValueInout => TEE_PARAM_TYPE_VALUE_INOUT
  | MemrefInput => TEE_PARAM_TYPE_MEMREF_INPUT
  | MemrefOutput => TEE_PARAM_TYPE_MEMREF_OUTPUT
  | MemrefInout => TEE_PARAM_TYPE_MEMREF_INOUT
  | Unknown code => code
  end.

Definition variants : list ParamType :=
  [None_; ValueInput; ValueOutput; ValueInout; MemrefInput; MemrefOutput; MemrefInout].

#[global] Instance ParamType_num_enum : NumEnum ParamType :=
  {| discriminant := into_u32; named := variants; otherwise := Unknown |}.
#[global] Instance ParamType_num_enum_ok : NumEnumOk ParamType.
Proof. num_enum_ok. Qed.
#[global] Instance ParamType_catch_all : CatchAll ParamType.
Proof. done. Qed.

Definition from_u32 (code : Z) : ParamType := from_primitive code.

End ParamType.

Abbreviation ParamType := ParamType.ParamType.

Definition check_type_is (raw_type : Z) (exp_type : ParamType) : Result unit :=
  if raw_type =? ParamType.into_u32 exp_type then Ok tt
  else bail ErrorKind.BadParameters.

(** ** The conversion traits *)

(** [FromRawParameter::from_raw(raw_type, &mut raw_params[slot])]. *)
Class FromRawParameter (T : Type) : Type :=
  from_raw : Z -> nat -> prog world (Result T).

(** [FromRawParameters] for 4-tuples. *)
Definition from_raw_tuple {A B C D}
    `{FromRawParameter A, FromRawParameter B, FromRawParameter C, FromRawParameter D}
    (raw_types : Z) : prog world (Result (A * B * C * D)) :=
  let? p0 := from_raw (TEE_PARAM_TYPE_GET raw_types 0) 0%nat in
  let? p1 := from_raw (TEE_PARAM_TYPE_GET raw_types 1) 1%nat in
  let? p2 := from_raw (TEE_PARAM_TYPE_GET raw_types 2) 2%nat in
  let? p3 := from_raw (TEE_PARAM_TYPE_GET raw_types 3) 3%nat in
  pret (Ok (p0, p1, p2, p3)).

(** ** [none.rs] *)

Inductive ParameterNone : Type := mkParameterNone.

#[global] Instance ParameterNone_from_raw : FromRawParameter ParameterNone :=
  fun raw_type _slot =>
    let? _ := pret (check_type_is raw_type ParamType.None_) in
    pret (Ok mkParameterNone).

(** ** [value.rs] *)

Class ParameterValueRead (T : Type) : Type := {
  get_a : T -> prog world Z;
  get_b : T -> prog world Z;
}.
Class ParameterValueWrite (T : Type) : Type := {
  set_a : T -> Z -> prog world unit;
  set_b : T -> Z -> prog world unit;
}.

Record ParameterValueInput : Type := mkValueInput { vi_a : Z; vi_b : Z }.
Record ParameterValueOutput : Type := mkValueOutput { vo_raw : nat }.
Record ParameterValueInout : Type := mkValueInout { vio_raw : nat }.

Section Values.
Context `{Target}.

#[global] Instance ParameterValueInput_from_raw : FromRawParameter ParameterValueInput :=
  fun raw_type slot =>
    let? _ := pret (check_type_is raw_type ParamType.ValueInput) in
    let* p := get_raw slot in
    pret (Ok (mkValueInput (value_a p) (value_b p))).

#[global] Instance ParameterValueOutput_from_raw : FromRawParameter ParameterValueOutput :=
  fun raw_type slot =>
    let? _ := pret (check_type_is raw_type ParamType.ValueOutput) in
    pret (Ok (mkValueOutput slot)).

#[global] Instance ParameterValueInout_from_raw : FromRawParameter ParameterValueInout :=
  fun raw_type slot =>
    let? _ := pret (check_type_is raw_type ParamType.ValueInout) in
    pret (Ok (mkValueInout slot)).

#[global] Instance ParameterValueInput_read : ParameterValueRead ParameterValueInput := {|
  get_a p := pret (vi_a p);
  get_b p := pret (vi_b p);
|}.

#[global] Instance ParameterValueInout_read : ParameterValueRead ParameterValueInout := {|
  get_a p := let* raw := get_raw (vio_raw p) in pret (value_a raw);
  get_b p := let* raw := get_raw (vio_raw p) in pret (value_b raw);
|}.

#[global] Instance ParameterValueInout_write : ParameterValueWrite ParameterValueInout := {|
  set_a p a := let* raw := get_raw (vio_raw p) in put_raw (vio_raw p) (set_value_a raw a);
  set_b p b := let* raw := get_raw (vio_raw p) in put_raw (vio_raw p) (set_value_b raw b);
|}.

#[global] Instance ParameterValueOutput_write : ParameterValueWrite ParameterValueOutput := {|
  set_a p a := let* raw := get_raw (vo_raw p) in put_raw (vo_raw p) (set_value_a raw a);
  set_b p b := let* raw := get_raw (vo_raw p) in put_raw (vo_raw p) (set_value_b raw b);
|}.

End Values.

(** ** [memref.rs] *)

Class ParameterMemref (T : Type) : Type := buffer_len : T -> prog world Z.

Class ParameterMemrefRead (T : Type) `{ParameterMemref T} : Type :=
  read_buffer_ptr : T -> prog world Z.

Class ParameterMemrefWrite (T : Type) `{ParameterMemref T} : Type := {
  write_buffer_ptr : T -> prog world Z;
  set_updated_size_unchecked : T -> Z -> prog world unit;
}.

(** [<*mut u8>::add]: leaving the address space is undefined behaviour. *)
Definition ptr_add `{Target} (p n : Z) : outcome Z :=
  if p + n <? 2 ^ ptr_bits then Ret (p + n) else UB.

(** [vec![0; n]]: more than [isize::MAX] bytes is a capacity overflow, which
    panics. *)
Definition vec_zeroed `{Target} (n : Z) : outcome bytes :=
  if n <? 2 ^ (ptr_bits - 1) then Ret (zeros n) else Panic.

Section Memref_methods.
Context `{Target, TeeMemMove} {T : Type} `{ParameterMemref T}.

(** [TEE_MemMove] from shared memory to the start of a TA-owned buffer. *)
Definition TEE_MemMove_from (dest : bytes) (src n : Z) : prog world bytes :=
  fun w => match memmove_from (wmem w) src n with
           | Some l => Ret (splice dest 0 l, w)
           | None => UB
           end.

(** [TEE_MemMove] of a TA-owned buffer into shared memory. *)
Definition TEE_MemMove_to (dest : Z) (src : bytes) : prog world unit :=
  fun w => match memmove_to (wmem w) dest src with
           | Some m => Ret (tt, mkWorld m (raws w))
           | None => UB
           end.

Definition read_to_vec `{!ParameterMemrefRead T} (self : T) : prog world bytes :=
  let* n := buffer_len self in
  let* copy := plift (vec_zeroed n) in
  if negb (n =? 0) then
    let* p := read_buffer_ptr self in
    TEE_MemMove_from copy p n
  else pret copy.

(** [read_at(offset, dest)]: the number of bytes read, and [dest] after the
    call.  The guard gives [offset <= buffer_len], so the subtraction does not
    underflow. *)
Definition read_at `{!ParameterMemrefRead T} (self : T) (offset : Z) (dest : bytes)
    : prog world (Result Z * bytes) :=
  let* n := buffer_len self in
  if n <? offset then pret (bail ErrorKind.BadParameters, dest)
  else
    let* n' := buffer_len self in
    let available := n' - offset in
    let to_read := Z.min (len dest) available in
    if negb (to_read =? 0) then
      let* p := read_buffer_ptr self in
      let* src := plift (ptr_add p offset) in
      let* dest' := TEE_MemMove_from dest src to_read in
      pret (Ok to_read, dest')
    else pret (Ok to_read, dest).

Definition set_updated_size `{!ParameterMemrefWrite T} (self : T) (size : Z)
    : prog world (Result unit) :=
  let* n := buffer_len self in
  if n <? size then pret (bail ErrorKind.ShortBuffer)
  else
    let* _ := set_updated_size_unchecked self size in
    pret (Ok tt).

Definition write_at `{!ParameterMemrefWrite T} (self : T) (offset : Z) (input : bytes)
    : prog world (Result unit) :=
  let? new_size := pret (ok_or (checked_add ptr_bits offset (len input))
                               (Error.from_kind ErrorKind.ShortBuffer)) in
  let* n := buffer_len self in
  if n <? new_size then pret (bail ErrorKind.ShortBuffer)
  else
    let* _ :=
      (if negb (len input =? 0) then
         let* p := write_buffer_ptr self in
         let* dst := plift (ptr_add p offset) in
         TEE_MemMove_to dst input
       else pret tt) in
    let* _ := set_updated_size_unchecked self new_size in
    pret (Ok tt).

Definition set_output `{!ParameterMemrefWrite T} (self : T) (data : bytes)
    : prog world (Result unit) := write_at self 0 data.

End Memref_methods.

Record ParameterMemrefInput : Type := mkMemrefInput { mi_raw : nat }.
Record ParameterMemrefInout : Type := mkMemrefInout { mio_capacity : Z; mio_raw : nat }.
Record ParameterMemrefOutput : Type := mkMemrefOutput { mo_capacity : Z; mo_raw : nat }.

(** The buffer must not be null. *)
#[global] Instance ParameterMemrefInput_from_raw : FromRawParameter ParameterMemrefInput :=
  fun raw_type slot =>
    let? _ := pret (check_type_is raw_type ParamType.MemrefInput) in
    let* p := get_raw slot in
    if memref_buffer p =? 0 then pret (bail ErrorKind.BadParameters)
    else pret (Ok (mkMemrefInput slot)).

#[global] Instance ParameterMemrefInout_from_raw : FromRawParameter ParameterMemrefInout :=
  fun raw_type slot =>
    let? _ := pret (check_type_is raw_type ParamType.MemrefInout) in
    let* p := get_raw slot in
    if memref_buffer p =? 0 then pret (bail ErrorKind.BadParameters)
    else pret (Ok (mkMemrefInout (memref_size p) slot)).

#[global] Instance ParameterMemrefOutput_from_raw : FromRawParameter ParameterMemrefOutput :=
  fun raw_type slot =>
    let? _ := pret (check_type_is raw_type ParamType.MemrefOutput) in
    let* p := get_raw slot in
    if memref_buffer p =? 0 then pret (bail ErrorKind.BadParameters)
    else pret (Ok (mkMemrefOutput (memref_size p) slot)).

(** An input reads the size from the raw parameter; the writable ones keep the
    size the host supplied, because the raw field becomes the reported size. *)
#[global] Instance ParameterMemrefInput_memref : ParameterMemref ParameterMemrefInput :=
  fun p => let* raw := get_raw (mi_raw p) in pret (memref_size raw).
#[global] Instance ParameterMemrefInout_memref : ParameterMemref ParameterMemrefInout :=
  fun p => pret (mio_capacity p).
#[global] Instance ParameterMemrefOutput_memref : ParameterMemref ParameterMemrefOutput :=
  fun p => pret (mo_capacity p).

#[global] Instance ParameterMemrefInput_read : ParameterMemrefRead ParameterMemrefInput :=
  fun p => let* raw := get_raw (mi_raw p) in pret (memref_buffer raw).
#[global] Instance ParameterMemrefInout_read : ParameterMemrefRead ParameterMemrefInout :=
  fun p => let* raw := get_raw (mio_raw p) in pret (memref_buffer raw).

#[global] Instance ParameterMemrefInout_write : ParameterMemrefWrite ParameterMemrefInout := {|
  write_buffer_ptr p := let* raw := get_raw (mio_raw p) in pret (memref_buffer raw);
  set_updated_size_unchecked p n :=
    let* raw := get_raw (mio_raw p) in put_raw (mio_raw p) (set_memref_size raw n);
|}.
#[global] Instance ParameterMemrefOutput_write : ParameterMemrefWrite ParameterMemrefOutput := {|
  write_buffer_ptr p := let* raw := get_raw (mo_raw p) in pret (memref_buffer raw);
  set_updated_size_unchecked p n :=
    let* raw := get_raw (mo_raw p) in put_raw (mo_raw p) (set_memref_size raw n);
|}.

(** ** [ParameterAny] *)

Module ParameterAny.

Inductive ParameterAny : Type :=
| None_
| ValueInput (p : ParameterValueInput)
| ValueInout (p : ParameterValueInout)
| ValueOutput (p : ParameterValueOutput)
| MemrefInput (p : ParameterMemrefInput)
| MemrefInout (p : ParameterMemrefInout)
| MemrefOutput (p : ParameterMemrefOutput)
| Unknown (raw_type : Z) (raw_param : nat).

Definition as_value_input (p : ParameterAny) : Result ParameterValueInput :=
  match p with ValueInput q => Ok q | _ => bail ErrorKind.BadParameters end.
Definition as_value_output (p : ParameterAny) : Result ParameterValueOutput :=
  match p with ValueOutput q => Ok q | _ => bail ErrorKind.BadParameters end.
Definition as_value_inout (p : ParameterAny) : Result ParameterValueInout :=
  match p with ValueInout q => Ok q | _ => bail ErrorKind.BadParameters end.
Definition as_memref_input (p : ParameterAny) : Result ParameterMemrefInput :=
  match p with MemrefInput q => Ok q | _ => bail ErrorKind.BadParameters end.
Definition as_memref_inout (p : ParameterAny) : Result ParameterMemrefInout :=
  match p with MemrefInout q => Ok q | _ => bail ErrorKind.BadParameters end.
Definition as_memref_output (p : ParameterAny) : Result ParameterMemrefOutput :=
  match p with MemrefOutput q => Ok q | _ => bail ErrorKind.BadParameters end.
Definition as_none (p : ParameterAny) : Result unit :=
  match p with None_ => Ok tt | _ => bail ErrorKind.BadParameters end.

#[global] Instance ParameterAny_from_raw `{Target} : FromRawParameter ParameterAny :=
  fun raw_type slot =>
    if raw_type =? TEE_PARAM_TYPE_NONE then pret (Ok None_)
    else if raw_type =? TEE_PARAM_TYPE_VALUE_INPUT then
      let? p := from_raw raw_type slot in pret (Ok (ValueInput p))
    else if raw_type =? TEE_PARAM_TYPE_VALUE_INOUT then
      let? p := from_raw raw_type slot in pret (Ok (ValueInout p))
    else if raw_type =? TEE_PARAM_TYPE_VALUE_OUTPUT then
      let? p := from_raw raw_type slot in pret (Ok (ValueOutput p))
    else if raw_type =? TEE_PARAM_TYPE_MEMREF_INPUT then
      let? p := from_raw raw_type slot in pret (Ok (MemrefInput p))
    else if raw_type =? TEE_PARAM_TYPE_MEMREF_INOUT then
      let? p := from_raw raw_type slot in pret (Ok (MemrefInout p))
    else if raw_type =? TEE_PARAM_TYPE_MEMREF_OUTPUT then
      let? p := from_raw raw_type slot in pret (Ok (MemrefOutput p))
    else pret (Ok (Unknown raw_type slot)).

End ParameterAny.

Abbreviation ParameterAny := ParameterAny.ParameterAny.

(** ** [deprecated.rs]: the raw-pointer API *)

Module Deprecated.

(** [ParamTypes::into_flags]. *)
Definition into_flags (types : Z) : ParamType * ParamType * ParamType * ParamType :=
  (ParamType.from_u32 (Z.land 0x000f types),
   ParamType.from_u32 (Z.shiftr (Z.land 0x00f0 types) 4),
   ParamType.from_u32 (Z.shiftr (Z.land 0x0f00 types) 8),
   ParamType.from_u32 (Z.shiftr (Z.land 0xf000 types) 12)).

(** The source's [Parameter] (a keyword here); [raw] is a pointer to a slot. *)
Record Parameter_ : Type := mkParameter { raw : nat; param_type : ParamType }.
Record ParamValue : Type := mkParamValue { pv_raw : nat; pv_type : ParamType }.
Record ParamMemref : Type := mkParamMemref { pm_raw : nat; pm_type : ParamType }.

(** [Parameters::from_raw]. *)
Definition Parameters_from_raw (types : Z) 
    : Parameter_ * Parameter_ * Parameter_ * Parameter_ :=
  let '(f0, f1, f2, f3) := into_flags types in
  (mkParameter 0 f0, mkParameter 1 f1, mkParameter 2 f2, mkParameter 3 f3).

Definition as_value (self : Parameter_) : Result ParamValue :=
  match param_type self with
  | ParamType.ValueInput | ParamType.ValueInout | ParamType.ValueOutput =>
      Ok (mkParamValue (raw self) (param_type self))
  | _ => bail ErrorKind.BadParameters
  end.

Definition as_memref (self : Parameter_) : Result ParamMemref :=
  match param_type self with
  | ParamType.MemrefInout | ParamType.MemrefInput | ParamType.MemrefOutput =>
      Ok (mkParamMemref (raw self) (param_type self))
  | _ => bail ErrorKind.BadParameters
  end.

Section Accessors.
Context `{Target}.

Definition a (v : ParamValue) : prog world Z :=
  let* p := get_raw (pv_raw v) in pret (value_a p).
Definition b (v : ParamValue) : prog world Z :=
  let* p := get_raw (pv_raw v) in pret (value_b p).
Definition set_a (v : ParamValue) (x : Z) : prog world unit :=
  let* p := get_raw (pv_raw v) in put_raw (pv_raw v) (set_value_a p x).
Definition set_b (v : ParamValue) (x : Z) : prog world unit :=
  let* p := get_raw (pv_raw v) in put_raw (pv_raw v) (set_value_b p x).

(** [buffer()]: the address and length of the slice that is formed; a null
    pointer or a length above [isize::MAX] is undefined behaviour. *)
Definition buffer (m : ParamMemref) : prog world (Z * Z) :=
  let* p := get_raw (pm_raw m) in
  if (memref_buffer p =? 0) || (2 ^ (ptr_bits - 1) <=? memref_size p) then plift UB
  else pret (memref_buffer p, memref_size p).

(** No bounds check. *)
Definition set_updated_size (m : ParamMemref) (size : Z) : prog world unit :=
  let* p := get_raw (pm_raw m) in put_raw (pm_raw m) (set_memref_size p size).

End Accessors.

End Deprecated.
