(* ===== verification/ParamsSpec.v ===== *)
(** * ParamsSpec: what the parameter wrappers guarantee

    The interface of a memory-reference wrapper is a view: the host buffer
    [[base, base+cap)] the wrapper stands for.  The provided methods of the
    traits are verified once against this interface; the three wrappers
    discharge it.  Conversion from raw parameters has an interface of its own,
    the test a wrapper applies to a tag and a raw parameter. *)

From S2P Require Import Prelude TeeDefines UteeError Memory Params.

(** ** Interfaces *)

(** [view p w base cap]: in state [w], wrapper [p] stands for the host buffer
    of [cap] bytes at [base]. *)
Class MemrefView (T : Type) : Type := {
  view : T -> world -> Z -> Z -> Prop;
  slot_of : T -> nat;
}.

Class MemrefLaws (T : Type) `{ParameterMemref T, !MemrefView T} : Prop := {
  view_raws (p : T) w w' b c : raws w' = raws w -> view p w b c -> view p w' b c;
  buffer_len_view (p : T) w b c : view p w b c -> buffer_len p w = Ret (c, w);
}.

Class MemrefReadLaws (T : Type) `{ParameterMemrefRead T, !MemrefView T} : Prop :=
  read_ptr_view (p : T) w b c : view p w b c -> read_buffer_ptr p w = Ret (b, w).

Definition with_size (w : world) (i : nat) (raw : TEE_Param) (n : Z) : world :=
  mkWorld (wmem w) (<[i := set_memref_size raw n]> (raws w)).

Class MemrefWriteLaws (T : Type) `{ParameterMemrefWrite T, !MemrefView T} : Prop := {
  write_ptr_view (p : T) w b c : view p w b c -> write_buffer_ptr p w = Ret (b, w);
  set_size_view (p : T) w b c n :
    view p w b c ->
    exists raw, raws w !! slot_of p = Some raw /\
      set_updated_size_unchecked p n w = Ret (tt, with_size w (slot_of p) raw n) /\
      view p (with_size w (slot_of p) raw n) b c;
}.

(** The range the TEE hands over: inside the address space and mapped. *)
Definition valid_buffer `{Target} (w : world) (b c : Z) : Prop :=
  0 <= b /\ 0 <= c /\ b + c < 2 ^ ptr_bits /\ range_mapped (wmem w) b c.

(** The size the host will read back from a slot. *)
Definition reported_size (w : world) (i : nat) : option Z :=
  memref_size <$> raws w !! i.

(** ** The three wrappers *)

#[global] Instance MemrefInput_view : MemrefView ParameterMemrefInput := {|
  view p w b c := raws w !! mi_raw p = Some (mkParam b c);
  slot_of := mi_raw;
|}.
#[global] Instance MemrefInout_view : MemrefView ParameterMemrefInout := {|
  view p w b c := mio_capacity p = c /\ exists n, raws w !! mio_raw p = Some (mkParam b n);
  slot_of := mio_raw;
|}.
#[global] Instance MemrefOutput_view : MemrefView ParameterMemrefOutput := {|
  view p w b c := mo_capacity p = c /\ exists n, raws w !! mo_raw p = Some (mkParam b n);
  slot_of := mo_raw;
|}.

Lemma get_raw_Some i w p : raws w !! i = Some p -> get_raw i w = Ret (p, w).
Proof. by unfold get_raw; intros ->. Qed.

Lemma put_raw_Some i w p q :
  raws w !! i = Some p -> put_raw i q w = Ret (tt, mkWorld (wmem w) (<[i:=q]> (raws w))).
Proof. by unfold put_raw; intros ->. Qed.

Lemma put_get_size i w b n0 n :
  raws w !! i = Some (mkParam b n0) ->
  (let* raw := get_raw i in put_raw i (set_memref_size raw n)) w
    = Ret (tt, with_size w i (mkParam b n0) n).
Proof.
  intros Hp. erewrite pbind_Ret by (by apply get_raw_Some). by erewrite put_raw_Some.
Qed.

Lemma with_size_lookup w i b n0 n :
  raws w !! i = Some (mkParam b n0) ->
  raws (with_size w i (mkParam b n0) n) !! i = Some (mkParam b n).
Proof.
  intros Hi. cbn. apply list_lookup_insert_eq. by apply lookup_lt_Some in Hi.
Qed.

#[global] Instance MemrefInput_laws : MemrefLaws ParameterMemrefInput.
Proof.
  split; cbn; intros p w.
  - by intros w' b c ->.
  - intros b c Hp. unfold buffer_len, ParameterMemrefInput_memref.
    by erewrite pbind_Ret by (by apply get_raw_Some).
Qed.
#[global] Instance MemrefInout_laws : MemrefLaws ParameterMemrefInout.
Proof.
  split; cbn; intros p w.
  - by intros w' b c ->.
  - by intros b c [<- _].
Qed.
#[global] Instance MemrefOutput_laws : MemrefLaws ParameterMemrefOutput.
Proof.
  split; cbn; intros p w.
  - by intros w' b c ->.
  - by intros b c [<- _].
Qed.

#[global] Instance MemrefInput_read_laws : MemrefReadLaws ParameterMemrefInput.
Proof.
  intros p w b c Hp. cbn in Hp. unfold read_buffer_ptr, ParameterMemrefInput_read.
  by erewrite pbind_Ret by (by apply get_raw_Some).
Qed.
#[global] Instance MemrefInout_read_laws : MemrefReadLaws ParameterMemrefInout.
Proof.
  intros p w b c [_ [n Hp]]. unfold read_buffer_ptr, ParameterMemrefInout_read.
  by erewrite pbind_Ret by (by apply get_raw_Some).
Qed.

#[global] Instance MemrefInout_write_laws : MemrefWriteLaws ParameterMemrefInout.
Proof.
  split; intros p w b c; [|intros n]; intros [Hc [n0 Hp]].
  - cbn. by erewrite pbind_Ret by (by apply get_raw_Some).
  - exists (mkParam b n0). split_and!; [done|by apply put_get_size|].
    split; [done|]. exists n. by apply with_size_lookup.
Qed.
#[global] Instance MemrefOutput_write_laws : MemrefWriteLaws ParameterMemrefOutput.
Proof.
  split; intros p w b c; [|intros n]; intros [Hc [n0 Hp]].
  - cbn. by erewrite pbind_Ret by (by apply get_raw_Some).
  - exists (mkParam b n0). split_and!; [done|by apply put_get_size|].
    split; [done|]. exists n. by apply with_size_lookup.
Qed.

(** ** The accessors, verified against the interface *)

Section Accessors.
Context `{!Target, !TargetOk, !TeeMemMove, !TeeMemMoveOk}.
Context {T : Type} `{ParameterMemref T, !MemrefView T, !MemrefLaws T}.

Lemma MemMove_from_spec (w : world) dest src n :
  0 <= n <= len dest -> range_mapped (wmem w) src n ->
  exists l, TEE_MemMove_from dest src n w = Ret (splice dest 0 l, w) /\
    len l = n /\ holds_at (wmem w) src l.
Proof.
  intros Hn Hm. destruct (memmove_from_mapped (wmem w) src n) as (l & Hl & ? & ?); [lia|done|].
  exists l. unfold TEE_MemMove_from. by rewrite Hl.
Qed.

Lemma MemMove_to_spec (w : world) dst l :
  range_mapped (wmem w) dst (len l) ->
  exists m, TEE_MemMove_to dst l w = Ret (tt, mkWorld m (raws w)) /\
    mdom m = mdom (wmem w) /\ holds_at m dst l /\ same_outside (wmem w) m dst (len l).
Proof.
  intros Hm. destruct (memmove_to_mapped (wmem w) dst l) as (m & Hl & ? & ? & ?); [done|].
  exists m. unfold TEE_MemMove_to. by rewrite Hl.
Qed.

Lemma ptr_add_valid (w : world) b c o :
  valid_buffer w b c -> 0 <= o <= c ->
  (plift (ptr_add b o) : prog world Z) w = Ret (b + o, w).
Proof.
  intros (? & ? & ? & _) ?. unfold plift, ptr_add. by decide_if.
Qed.

Lemma read_at_spec `{!ParameterMemrefRead T, !MemrefReadLaws T} (p : T) w b c offset dest :
  view p w b c -> valid_buffer w b c -> 0 <= offset ->
  (c < offset /\ read_at p offset dest w = Ret ((bail ErrorKind.BadParameters, dest), w))
  \/ (offset <= c /\ exists l,
       read_at p offset dest w = Ret ((Ok (len l), splice dest 0 l), w) /\
       len l = Z.min (len dest) (c - offset) /\ holds_at (wmem w) (b + offset) l).
Proof.
  intros Hv Hb Ho. pose proof (len_nonneg dest). unfold read_at.
  erewrite pbind_Ret by (by eapply buffer_len_view).
  case_if; [left; split; [lia|done]|right; split; [lia|]].
  erewrite pbind_Ret by (by eapply buffer_len_view). cbv zeta.
  case_if.
  - erewrite pbind_Ret by (by eapply read_ptr_view).
    erewrite pbind_Ret by (by apply (ptr_add_valid w b c)).
    destruct Hb as (? & ? & ? & Hm).
    destruct (MemMove_from_spec w dest (b + offset) (Z.min (len dest) (c - offset)))
      as (l & Hl & Hlen & Hh); [lia|apply (range_mapped_sub _ b c); lia || done|].
    exists l. erewrite pbind_Ret by done. rewrite Hlen. done.
  - exists []. rewrite splice_nil, len_nil. split_and!; [|lia|apply holds_at_nil].
    by replace (Z.min (len dest) (c - offset)) with 0 by lia.
Qed.

Lemma read_to_vec_spec `{!ParameterMemrefRead T, !MemrefReadLaws T} (p : T) w b c :
  view p w b c -> valid_buffer w b c -> c < 2 ^ (ptr_bits - 1) ->
  exists l, read_to_vec p w = Ret (l, w) /\ len l = c /\ holds_at (wmem w) b l.
Proof.
  intros Hv (Hb0 & Hc0 & Hbc & Hm) Hc. unfold read_to_vec.
  erewrite pbind_Ret by (by eapply buffer_len_view).
  unfold vec_zeroed. decide_if. erewrite pbind_Ret by done. case_if.
  - erewrite pbind_Ret by (by eapply read_ptr_view).
    destruct (MemMove_from_spec w (zeros c) b c) as (l & Hl & Hlen & Hh);
      [rewrite len_zeros; lia|done|].
    exists l. rewrite Hl, splice_full; [done|]. by rewrite len_zeros.
  - subst c. exists []. split_and!; [done|done|apply holds_at_nil].
Qed.

Lemma set_updated_size_spec `{!ParameterMemrefWrite T, !MemrefWriteLaws T} (p : T) w b c n :
  view p w b c ->
  (c < n /\ set_updated_size p n w = Ret (bail ErrorKind.ShortBuffer, w))
  \/ (n <= c /\ exists raw, raws w !! slot_of p = Some raw /\
       set_updated_size p n w = Ret (Ok tt, with_size w (slot_of p) raw n) /\
       view p (with_size w (slot_of p) raw n) b c).
Proof.
  intros Hv. unfold set_updated_size. erewrite pbind_Ret by (by eapply buffer_len_view).
  case_if; [left; split; [lia|done]|right; split; [lia|]].
  destruct (set_size_view p w b c n Hv) as (raw & Hraw & Hset & Hv').
  exists raw. split_and!; [done| |done]. by erewrite pbind_Ret.
Qed.

(** The world after a successful [write_at]. *)
Definition written (w : world) (i : nat) (raw : TEE_Param) (m : mem) (n : Z) : world :=
  with_size (mkWorld m (raws w)) i raw n.

Lemma write_at_short `{!ParameterMemrefWrite T} (p : T) w b c offset data :
  view p w b c -> c < 2 ^ ptr_bits -> c < offset + len data ->
  write_at p offset data w = Ret (bail ErrorKind.ShortBuffer, w).
Proof.
  intros Hv Hc Hlt. unfold write_at, checked_add.
  destruct (_ <? _); [|done]. cbn [ok_or]. erewrite ptry_Ok by done.
  erewrite pbind_Ret by (by eapply buffer_len_view). by decide_if.
Qed.

Lemma write_at_fits `{!ParameterMemrefWrite T, !MemrefWriteLaws T} (p : T) w b c offset data :
  view p w b c -> valid_buffer w b c -> 0 <= offset -> offset + len data <= c ->
  exists raw m, raws w !! slot_of p = Some raw /\
    write_at p offset data w
      = Ret (Ok tt, written w (slot_of p) raw m (offset + len data)) /\
    mdom m = mdom (wmem w) /\ holds_at m (b + offset) data /\
    same_outside (wmem w) m (b + offset) (len data) /\
    view p (written w (slot_of p) raw m (offset + len data)) b c.
Proof.
  intros Hv Hb Ho Hlt. pose proof (len_nonneg data) as Hd.
  assert (exists m,
    (if negb (len data =? 0) then
       let* p := write_buffer_ptr p in
       let* dst := plift (ptr_add p offset) in
       TEE_MemMove_to dst data
     else pret tt) w = Ret (tt, mkWorld m (raws w)) /\
    mdom m = mdom (wmem w) /\ holds_at m (b + offset) data /\
    same_outside (wmem w) m (b + offset) (len data)) as (m & Hw & Hdom & Hh & Hs).
  { case_if.
    - destruct (MemMove_to_spec w (b + offset) data) as (m & Hm & ? & ? & ?).
      { destruct Hb as (? & ? & ? & Hm). apply (range_mapped_sub _ b c); lia || done. }
      exists m. split_and!; [|done..]. erewrite pbind_Ret by (by eapply write_ptr_view).
      by erewrite pbind_Ret by (apply (ptr_add_valid w b c); lia || done).
    - apply len_zero_nil in Heqb0 as ->. exists (wmem w). destruct w.
      split_and!; [done|done|apply holds_at_nil|done]. }
  destruct (set_size_view p (mkWorld m (raws w)) b c (offset + len data))
    as (raw & Hraw & Hset & Hv'); [by apply (view_raws p w)|].
  exists raw, m. split_and!; [done| |done..]. unfold write_at, checked_add.
  destruct Hb as (? & ? & ? & _). decide_if. cbn [ok_or]. erewrite ptry_Ok by done.
  erewrite pbind_Ret by (by eapply buffer_len_view). decide_if.
  erewrite pbind_Ret by done. by erewrite pbind_Ret.
Qed.

End Accessors.

(** ** Conversion from raw parameters *)

(** What a wrapper type promises about [from_raw]: the test it applies to the
    tag and the raw parameter, and what the wrapper it builds stands for. *)
Class FromRawLaws (T : Type) `{FromRawParameter T} : Type := {
  accepts : Z -> TEE_Param -> bool;
  stands_for : T -> Z -> nat -> TEE_Param -> Prop;
  from_raw_accept t i w p :
    raws w !! i = Some p -> accepts t p = true ->
    exists x, from_raw t i w = Ret (Ok x, w) /\ stands_for x t i p;
  from_raw_reject t i w p :
    raws w !! i = Some p -> accepts t p = false ->
    from_raw (T:=T) t i w = Ret (bail ErrorKind.BadParameters, w);
}.

(** A wrapper of a non-null buffer stands for that buffer. *)
Definition views_slot {T} `{MemrefView T} (x : T) (i : nat) (p : TEE_Param) : Prop :=
  slot_of x = i /\
  forall w, raws w !! i = Some p -> view x w (memref_buffer p) (memref_size p).

Definition has_tag (t : ParamType) (raw_type : Z) : bool := raw_type =? ParamType.into_u32 t.
Definition has_buffer (p : TEE_Param) : bool := negb (memref_buffer p =? 0).

Lemma check_type_is_eq raw_type t :
  check_type_is raw_type t
    = if has_tag t raw_type then Ok tt else bail ErrorKind.BadParameters.
Proof. done. Qed.

Ltac from_raw_crush :=
  intros t i w p Hp; unfold from_raw, has_buffer, ParameterNone_from_raw,
    ParameterValueInput_from_raw, ParameterValueOutput_from_raw, ParameterValueInout_from_raw,
    ParameterMemrefInput_from_raw, ParameterMemrefOutput_from_raw,
    ParameterMemrefInout_from_raw;
  destruct (has_tag _ t) eqn:Ht; destruct (memref_buffer p =? 0) eqn:Hb;
  intros Ha; try discriminate Ha; unfold ptry, pbind, pret, get_raw;
  rewrite check_type_is_eq, Ht; rewrite ?Hp; cbn -[memref_buffer]; rewrite ?Hb;
  try (eexists; split; [reflexivity|]); try done.

#[global] Instance None_from_raw_laws : FromRawLaws ParameterNone.
Proof.
  refine {| accepts t _ := has_tag ParamType.None_ t;
            stands_for _ _ _ _ := True |}; from_raw_crush.
Defined.

Section From_raw.
Context `{!Target}.

#[global] Instance ValueInput_from_raw_laws : FromRawLaws ParameterValueInput.
Proof.
  refine {| accepts t _ := has_tag ParamType.ValueInput t;
            stands_for x _ _ p := x = mkValueInput (value_a p) (value_b p) |};
    from_raw_crush.
Defined.
#[global] Instance ValueOutput_from_raw_laws : FromRawLaws ParameterValueOutput.
Proof.
  refine {| accepts t _ := has_tag ParamType.ValueOutput t;
            stands_for x _ i _ := x = mkValueOutput i |}; from_raw_crush.
Defined.
#[global] Instance ValueInout_from_raw_laws : FromRawLaws ParameterValueInout.
Proof.
  refine {| accepts t _ := has_tag ParamType.ValueInout t;
            stands_for x _ i _ := x = mkValueInout i |}; from_raw_crush.
Defined.

#[global] Instance MemrefInput_from_raw_laws : FromRawLaws ParameterMemrefInput.
Proof.
  refine {| accepts t p := has_tag ParamType.MemrefInput t && has_buffer p;
            stands_for x _ i p := views_slot x i p |}; from_raw_crush.
  split; [done|]. intros w' Hw. cbn. rewrite Hw. by destruct p.
Defined.
#[global] Instance MemrefOutput_from_raw_laws : FromRawLaws ParameterMemrefOutput.
Proof.
  refine {| accepts t p := has_tag ParamType.MemrefOutput t && has_buffer p;
            stands_for x _ i p := views_slot x i p |}; from_raw_crush.
  split; [done|]. intros w' Hw. split; [done|]. exists (word1 p). cbn. rewrite Hw. by destruct p.
Defined.
#[global] Instance MemrefInout_from_raw_laws : FromRawLaws ParameterMemrefInout.
Proof.
  refine {| accepts t p := has_tag ParamType.MemrefInout t && has_buffer p;
            stands_for x _ i p := views_slot x i p |}; from_raw_crush.
  split; [done|]. intros w' Hw. split; [done|]. exists (word1 p). cbn. rewrite Hw. by destruct p.
Defined.

End From_raw.

(** ** [ParameterAny], tuples and the deprecated flags *)

Definition is_memref_tag (t : Z) : bool :=
  has_tag ParamType.MemrefInput t || has_tag ParamType.MemrefInout t
  || has_tag ParamType.MemrefOutput t.

(** The variant follows the tag; the payload is what the typed wrapper of that
    tag stands for. *)
Definition any_stands_for `{!Target} (x : ParameterAny) (t : Z) (i : nat) (p : TEE_Param) : Prop :=
  match x with
  | ParameterAny.None_ => t = TEE_PARAM_TYPE_NONE
  | ParameterAny.ValueInput q => t = TEE_PARAM_TYPE_VALUE_INPUT /\ stands_for q t i p
  | ParameterAny.ValueInout q => t = TEE_PARAM_TYPE_VALUE_INOUT /\ stands_for q t i p
  | ParameterAny.ValueOutput q => t = TEE_PARAM_TYPE_VALUE_OUTPUT /\ stands_for q t i p
  | ParameterAny.MemrefInput q => t = TEE_PARAM_TYPE_MEMREF_INPUT /\ stands_for q t i p
  | ParameterAny.MemrefInout q => t = TEE_PARAM_TYPE_MEMREF_INOUT /\ stands_for q t i p
  | ParameterAny.MemrefOutput q => t = TEE_PARAM_TYPE_MEMREF_OUTPUT /\ stands_for q t i p
  | ParameterAny.Unknown t' i' => t' = t /\ i' = i /\ ParamType.from_u32 t = ParamType.Unknown t
  end.

Section Any.
Context `{!Target}.

Lemma from_u32_unknown t :
  (forall k : ParamType, k ∈ ParamType.variants -> t <> ParamType.into_u32 k) ->
  ParamType.from_u32 t = ParamType.Unknown t.
Proof.
  intros Ht. unfold ParamType.from_u32. rewrite from_primitive_other; [done|].
  intros k Hk Heq. by apply (Ht k).
Qed.

(** Running one branch of [ParameterAny::from_raw]. *)
Lemma any_accept {Q} `{FromRawParameter Q, !FromRawLaws Q} (k : Q -> ParameterAny) t i w p :
  raws w !! i = Some p -> accepts (T:=Q) t p = true ->
  (forall q, stands_for q t i p -> any_stands_for (k q) t i p) ->
  exists x, (let? q := from_raw t i in pret (Ok (k q))) w = Ret (Ok x, w) /\
    any_stands_for x t i p.
Proof.
  intros Hp Ha Hk. destruct (from_raw_accept t i w p Hp Ha) as (q & Hq & Hs).
  exists (k q). split; [|auto]. by erewrite ptry_Ok.
Qed.

Lemma any_reject {Q} `{FromRawParameter Q, !FromRawLaws Q} (k : Q -> ParameterAny) t i w p :
  raws w !! i = Some p -> accepts (T:=Q) t p = false ->
  (let? q := from_raw (T:=Q) t i in pret (Ok (k q))) w = Ret (bail ErrorKind.BadParameters, w).
Proof. intros Hp Ha. eapply ptry_Err. by eapply from_raw_reject. Qed.

#[global] Instance Any_from_raw_laws : FromRawLaws ParameterAny.
Proof.
  refine {| accepts t p := negb (is_memref_tag t) || has_buffer p;
            stands_for := any_stands_for |}.
  - intros t i w p Hp Ha. unfold from_raw, ParameterAny.ParameterAny_from_raw.
    unfold is_memref_tag, has_tag in Ha. cbn [ParamType.into_u32] in Ha.
    repeat (case_if; [subst t;
      first [ eexists; split; [reflexivity|done]
            | eapply any_accept; [exact Hp|exact Ha|by split] ]|]).
    eexists. split; [reflexivity|]. split_and!; [done..|].
    apply from_u32_unknown. intros k Hk. unfold ParamType.variants in Hk.
    repeat (apply elem_of_cons in Hk as [->|Hk]; [done|]). by apply elem_of_nil in Hk.
  - intros t i w p Hp Ha. unfold from_raw, ParameterAny.ParameterAny_from_raw.
    unfold is_memref_tag, has_tag in Ha. cbn [ParamType.into_u32] in Ha.
    apply orb_false_iff in Ha as [Ha Hb]. apply negb_false_iff in Ha.
    repeat (case_if; [subst t; first [ vm_compute in Ha; discriminate Ha
      | eapply any_reject; [exact Hp|exact Hb] ]|]).
    discriminate Ha.
Defined.

End Any.

Section Tuple.
Context `{FromRawParameter A, FromRawParameter B, FromRawParameter C, FromRawParameter D}.
Context `{!FromRawLaws A, !FromRawLaws B, !FromRawLaws C, !FromRawLaws D}.

Definition tuple_accepts (types : Z) (p0 p1 p2 p3 : TEE_Param) : bool :=
  accepts (T:=A) (TEE_PARAM_TYPE_GET types 0) p0 && accepts (T:=B) (TEE_PARAM_TYPE_GET types 1) p1
  && accepts (T:=C) (TEE_PARAM_TYPE_GET types 2) p2
  && accepts (T:=D) (TEE_PARAM_TYPE_GET types 3) p3.

(** C17: the typed conversion of the four parameters succeeds exactly when every
    slot's tag (and, for memory references, its non-null buffer) is what the
    wrapper type expects; it then gives wrappers of the right slots, and
    otherwise [BadParameters].  It never changes the raw parameters and never
    has undefined behaviour. *)
Theorem from_raw_tuple_correct types w p0 p1 p2 p3 :
  raws w = [p0; p1; p2; p3] ->
  (tuple_accepts types p0 p1 p2 p3 = true /\
   exists (x0 : A) (x1 : B) (x2 : C) (x3 : D),
     from_raw_tuple types w = Ret (Ok (x0, x1, x2, x3), w) /\
     stands_for x0 (TEE_PARAM_TYPE_GET types 0) 0 p0 /\
     stands_for x1 (TEE_PARAM_TYPE_GET types 1) 1 p1 /\
     stands_for x2 (TEE_PARAM_TYPE_GET types 2) 2 p2 /\
     stands_for x3 (TEE_PARAM_TYPE_GET types 3) 3 p3)
  \/ (tuple_accepts types p0 p1 p2 p3 = false /\
      from_raw_tuple (A:=A) (B:=B) (C:=C) (D:=D) types w
        = Ret (bail ErrorKind.BadParameters, w)).
Proof.
  intros Hw. unfold tuple_accepts, from_raw_tuple.
  assert (raws w !! 0%nat = Some p0 /\ raws w !! 1%nat = Some p1 /\
          raws w !! 2%nat = Some p2 /\ raws w !! 3%nat = Some p3) as (H0' & H1' & H2' & H3')
    by (by rewrite Hw).
  destruct (accepts _ p0) eqn:Ha0; cbn [andb];
    [|right; split; [done|eapply ptry_Err; by eapply from_raw_reject]].
  destruct (from_raw_accept _ _ _ _ H0' Ha0) as (x0 & E0 & S0). erewrite ptry_Ok by done.
  destruct (accepts _ p1) eqn:Ha1; cbn [andb];
    [|right; split; [done|eapply ptry_Err; by eapply from_raw_reject]].
  destruct (from_raw_accept _ _ _ _ H1' Ha1) as (x1 & E1 & S1). erewrite ptry_Ok by done.
  destruct (accepts _ p2) eqn:Ha2; cbn [andb];
    [|right; split; [done|eapply ptry_Err; by eapply from_raw_reject]].
  destruct (from_raw_accept _ _ _ _ H2' Ha2) as (x2 & E2 & S2). erewrite ptry_Ok by done.
  destruct (accepts _ p3) eqn:Ha3; cbn [andb];
    [|right; split; [done|eapply ptry_Err; by eapply from_raw_reject]].
  destruct (from_raw_accept _ _ _ _ H3' Ha3) as (x3 & E3 & S3). erewrite ptry_Ok by done.
  left. split; [done|]. by exists x0, x1, x2, x3.
Qed.

End Tuple.

(** The deprecated flags read the same four slots as [TEE_PARAM_TYPE_GET]. *)
Lemma into_flags_get types :
  Deprecated.into_flags types =
    (ParamType.from_u32 (TEE_PARAM_TYPE_GET types 0),
     ParamType.from_u32 (TEE_PARAM_TYPE_GET types 1),
     ParamType.from_u32 (TEE_PARAM_TYPE_GET types 2),
     ParamType.from_u32 (TEE_PARAM_TYPE_GET types 3)).
Proof.
  unfold Deprecated.into_flags, TEE_PARAM_TYPE_GET.
  rewrite !Z.shiftr_land, !(Z.land_comm _ (Z.shiftr types _)), (Z.land_comm _ types).
  by rewrite (Z.shiftr_0_r types : Z.shiftr types (0 * 4) = types).
Qed.

(** ** Values: the two halves of the union *)

Section Value_fields.
Context `{!Target, !TargetOk}.

Lemma value_set_a p x :
  param_ok p -> in_u 32 x ->
  value_a (set_value_a p x) = x /\ value_b (set_value_a p x) = value_b p /\
  param_ok (set_value_a p x).
Proof.
  unfold param_ok, in_u, value_a, value_b, set_value_a. intros [Hw0 Hw1] Hx.
  destruct ptr_bits_cases as [Hb|Hb]; rewrite !Hb in *; cbn [Z.eqb word0 word1 Pos.eqb];
    repeat split; Z.to_euclidean_division_equations; lia.
Qed.

Lemma value_set_b p x :
  param_ok p -> in_u 32 x ->
  value_a (set_value_b p x) = value_a p /\ value_b (set_value_b p x) = x /\
  param_ok (set_value_b p x).
Proof.
  unfold param_ok, in_u, value_a, value_b, set_value_b. intros [Hw0 Hw1] Hx.
  destruct ptr_bits_cases as [Hb|Hb]; rewrite !Hb in *; cbn [Z.eqb word0 word1 Pos.eqb];
    repeat split; Z.to_euclidean_division_equations; lia.
Qed.

(** On an in/out value parameter, the fields written with [set_a] and
    [set_b] (in this order) are what [get_a] and [get_b] then read and what the
    host finds in the union; no other slot and no memory changes. *)
Lemma value_inout_write_read (p : ParameterValueInout) (w : world) raw a b :
  raws w !! vio_raw p = Some raw -> param_ok raw -> in_u 32 a -> in_u 32 b ->
  exists raw' w',
    (let* _ := set_a p a in
     let* _ := set_b p b in
     let* x := get_a p in
     let* y := get_b p in
     pret (x, y)) w = Ret ((a, b), w') /\
    w' = mkWorld (wmem w) (<[vio_raw p := raw']> (raws w)) /\
    value_a raw' = a /\ value_b raw' = b.
Proof.
  intros Hp Hok Ha Hb.
  destruct (value_set_a raw a Hok Ha) as (A1 & A2 & A3).
  destruct (value_set_b (set_value_a raw a) b A3 Hb) as (B1 & B2 & _).
  pose proof (lookup_lt_Some _ _ _ Hp) as Hlt.
  exists (set_value_b (set_value_a raw a) b). eexists.
  split; [|split; [reflexivity|by rewrite B1, B2]].
  unfold set_a, set_b, get_a, get_b, ParameterValueInout_write, ParameterValueInout_read.
  unfold pbind, pret, get_raw, put_raw.
  repeat (first [rewrite Hp | rewrite list_lookup_insert_eq by (rewrite ?length_insert; done)];
    cbn [raws wmem]).
  rewrite list_insert_insert_eq.
  by rewrite B1, B2, A1.
Qed.

End Value_fields.

(** ** Interleaving with the normal world

    While the TA works on a writable memory reference, the host can change the
    shared buffer at any time.  [shm_step] is one step of either side. *)

Section Interleaving.
Context `{!Target, !TargetOk, !TeeMemMove, !TeeMemMoveOk}.
Context (p : ParameterMemrefInout) (b c : Z).

Inductive shm_step : world -> world -> Prop :=
| step_host w m :
    same_outside (wmem w) m b c -> mdom m = mdom (wmem w) ->
    shm_step w (mkWorld m (raws w))
| step_read w offset dest r w' :
    0 <= offset -> read_at p offset dest w = Ret (r, w') -> shm_step w w'
| step_write w offset data r w' :
    0 <= offset -> write_at p offset data w = Ret (r, w') -> shm_step w w'
| step_size w n r w' :
    0 <= n -> set_updated_size p n w = Ret (r, w') -> shm_step w w'.

(** What holds at every point: the wrapper still stands for the same buffer,
    the reported size stays within it, and nothing outside the buffer and the
    slot has changed since [w0]. *)
Record shm_inv (w0 w : world) : Prop := {
  inv_view : view p w b c;
  inv_buffer : valid_buffer w b c;
  inv_size : exists n, reported_size w (slot_of p) = Some n /\ 0 <= n <= c;
  inv_mem : same_outside (wmem w0) (wmem w) b c;
  inv_slots : forall j, j <> slot_of p -> raws w !! j = raws w0 !! j;
}.

Lemma same_outside_trans m1 m2 m3 a n a' n' :
  same_outside m1 m2 a n -> same_outside m2 m3 a' n' -> a <= a' -> a' + n' <= a + n ->
  same_outside m1 m3 a n.
Proof. intros H12 H23 ?? x Hx. rewrite H23 by lia. by apply H12. Qed.

Lemma valid_buffer_mem w m r :
  valid_buffer w b c -> mdom m = mdom (wmem w) -> valid_buffer (mkWorld m r) b c.
Proof. intros (? & ? & ? & Hm) Hd. split_and!; try done. by apply (range_mapped_dom (wmem w)). Qed.

Lemma shm_inv_write w0 w m raw n :
  shm_inv w0 w -> raws w !! slot_of p = Some raw -> mdom m = mdom (wmem w) ->
  same_outside (wmem w) m b c -> 0 <= n <= c ->
  view p (written w (slot_of p) raw m n) b c ->
  shm_inv w0 (written w (slot_of p) raw m n).
Proof.
  intros [Hv Hb Hn Hm Hs] Hraw Hd Hsm Hn' Hv'. split; [done| | | |].
  - by apply (valid_buffer_mem w).
  - exists n. split; [|done]. unfold reported_size, written, with_size. cbn.
    by rewrite list_lookup_insert_eq by (by eapply lookup_lt_Some).
  - cbn. apply (same_outside_trans _ (wmem w) _ _ _ b c); done || lia.
  - intros j Hj. cbn. rewrite list_lookup_insert_ne by done. by apply Hs.
Qed.

Lemma shm_inv_step w0 w w' : shm_inv w0 w -> shm_step w w' -> shm_inv w0 w'.
Proof.
  intros Hinv Hstep. pose proof Hinv as [Hv Hb Hn Hm Hs]. pose proof Hb as (? & ? & ? & _).
  destruct Hstep as [w m Hsame Hd|w offset dest r w' Ho Hr|w offset data r w' Ho Hr|w n r w' Ho Hr].
  - split; [done|by apply (valid_buffer_mem w)|done| |done].
    apply (same_outside_trans _ (wmem w) _ _ _ b c); done || lia.
  - destruct (read_at_spec p w b c offset dest Hv Hb Ho) as [[_ E]|[_ (l & E & _)]];
      rewrite E in Hr; prog_inv; done.
  - destruct (Z.lt_ge_cases c (offset + len data)).
    + rewrite (write_at_short p w b c) in Hr by (done || lia). prog_inv. done.
    + destruct (write_at_fits p w b c offset data) as (raw & m & Hraw & E & Hd & _ & Hs' & Hv');
        [done..|]. rewrite E in Hr. prog_inv.
      pose proof (len_nonneg data). apply shm_inv_write; try done; [|lia].
      intros x Hx. apply Hs'. lia.
  - destruct (set_updated_size_spec p w b c n Hv) as [[_ E]|[Hle (raw & Hraw & E & Hv')]];
      rewrite E in Hr; prog_inv; [done|].
    change (with_size w (slot_of p) raw n) with (written w (slot_of p) raw (wmem w) n).
    apply shm_inv_write; done || lia.
Qed.

Lemma shm_inv_reachable w0 w : shm_inv w0 w0 -> rtc shm_step w0 w -> shm_inv w0 w.
Proof.
  intros Hw0. apply (rtc_ind_r (fun w => shm_inv w0 w)); [done|]. intros. by eapply shm_inv_step.
Qed.

End Interleaving.

(** ** Properties *)

Section Properties.
Context `{!Target, !TargetOk, !TeeMemMove, !TeeMemMoveOk}.

Lemma memref_inout_from_raw i w raw :
  raws w !! i = Some raw -> memref_buffer raw <> 0 ->
  from_raw (T:=ParameterMemrefInout) TEE_PARAM_TYPE_MEMREF_INOUT i w
    = Ret (Ok (mkMemrefInout (memref_size raw) i), w).
Proof.
  intros Hraw Hnn. apply Z.eqb_neq in Hnn. cbn. unfold ptry, pbind, get_raw, pret. cbn.
  rewrite Hraw. by rewrite Hnn.
Qed.

Lemma memref_inout_inv0 i w raw :
  raws w !! i = Some raw ->
  valid_buffer w (memref_buffer raw) (memref_size raw) ->
  shm_inv (mkMemrefInout (memref_size raw) i) (memref_buffer raw) (memref_size raw) w w.
Proof.
  intros Hraw Hb. split; [|done| |done|done].
  - cbn. split; [done|]. exists (word1 raw). rewrite Hraw. by destruct raw.
  - exists (memref_size raw). unfold reported_size. cbn. rewrite Hraw.
    split; [done|]. destruct Hb as (_ & ? & _). lia.
Qed.

(** C13: a TA that works on an in/out memory reference stays inside the
    host-supplied buffer whatever the host does to that buffer meanwhile: at
    every point of every interleaving of TA accesses and host writes, memory
    outside the buffer and the other parameter slots are as they were, the size
    reported to the host is at most the buffer's size, and every further access
    returns (no fault, no panic). *)
Theorem memref_interleaving_safe i w0 raw w :
  raws w0 !! i = Some raw -> memref_buffer raw <> 0 ->
  valid_buffer w0 (memref_buffer raw) (memref_size raw) ->
  exists p, from_raw TEE_PARAM_TYPE_MEMREF_INOUT i w0 = Ret (Ok p, w0) /\
  (rtc (shm_step p (memref_buffer raw) (memref_size raw)) w0 w ->
   shm_inv p (memref_buffer raw) (memref_size raw) w0 w /\
   forall offset, 0 <= offset ->
     (forall dest, exists r, read_at p offset dest w = Ret (r, w)) /\
     (forall data, exists r w', write_at p offset data w = Ret (r, w')) /\
     (exists r w', set_updated_size p offset w = Ret (r, w'))).
Proof.
  intros Hraw Hnn Hb. exists (mkMemrefInout (memref_size raw) i).
  split; [by apply memref_inout_from_raw|]. intros Hrtc.
  pose proof (shm_inv_reachable _ _ _ _ _ (memref_inout_inv0 i w0 raw Hraw Hb) Hrtc) as Hinv.
  split; [done|]. destruct Hinv as [Hv Hb' _ _ _]. intros offset Ho. split_and!.
  - intros dest. destruct (read_at_spec _ w _ _ offset dest Hv Hb' Ho)
      as [[_ E]|[_ (l & E & _)]]; eauto.
  - intros data. destruct (Z.lt_ge_cases (memref_size raw) (offset + len data)).
    + eexists _, _. apply (write_at_short _ w _ _ offset data Hv); [|done].
      destruct Hb as (? & ? & ? & _). lia.
    + destruct (write_at_fits _ w _ _ offset data Hv Hb' Ho) as (? & ? & _ & E & _); eauto.
  - destruct (set_updated_size_spec _ w _ _ offset Hv) as [[_ E]|[_ (? & _ & E & _)]]; eauto.
Qed.

(** C28: [write_at] on an in/out memory reference succeeds exactly when
    [offset + data.len()] fits the buffer (an overflowing sum does not).  On
    success the data is in the buffer at [offset], no other byte changed, the
    reported size is [offset + data.len()], the capacity is unchanged, and
    reading the same range back gives the data; otherwise the result is
    [ShortBuffer] and nothing changed. *)
Theorem write_at_correct (p : ParameterMemrefInout) w b c offset data dest :
  view p w b c -> valid_buffer w b c -> 0 <= offset -> len dest = len data ->
  (c < offset + len data /\
   write_at p offset data w = Ret (bail ErrorKind.ShortBuffer, w))
  \/ (offset + len data <= c /\ exists w',
      write_at p offset data w = Ret (Ok tt, w') /\
      holds_at (wmem w') (b + offset) data /\
      same_outside (wmem w) (wmem w') (b + offset) (len data) /\
      reported_size w' (slot_of p) = Some (offset + len data) /\
      buffer_len p w' = Ret (c, w') /\
      read_at p offset dest w' = Ret ((Ok (len data), data), w')).
Proof.
  intros Hv Hb Ho Hd. destruct (Z.lt_ge_cases c (offset + len data)) as [Hlt|Hge].
  - left. split; [done|]. apply (write_at_short p w b c); try done.
    destruct Hb as (? & ? & ? & _). lia.
  - right. split; [done|].
    destruct (write_at_fits p w b c offset data Hv Hb Ho Hge)
      as (raw & m & Hraw & E & Hdom & Hh & Hs & Hv').
    eexists. split; [exact E|]. split_and!; [done|done| |by eapply buffer_len_view|].
    + unfold reported_size, written, with_size. cbn.
      by rewrite list_lookup_insert_eq by (by eapply lookup_lt_Some).
    + assert (valid_buffer (written w (slot_of p) raw m (offset + len data)) b c) as Hb'
        by (by apply (valid_buffer_mem b c w)).
      destruct (read_at_spec p _ b c offset dest Hv' Hb' Ho) as [[? _]|[_ (l & E' & Hl & Hh')]];
        [pose proof (len_nonneg data); lia|].
      assert (l = data) as ->; [|rewrite E', splice_full; [done|congruence]].
      apply (holds_at_inj (wmem (written w (slot_of p) raw m (offset + len data))) (b + offset));
        [lia|done|done].
Qed.

(** An input memory reference with a non-null buffer is read as the host
    left it: [read_to_vec] gives all of its bytes, and [read_at] gives the
    bytes from [offset] on, at most [dest.len()] of them, [Ok(0)] at the end
    and [BadParameters] beyond; reads change nothing. *)
Lemma memref_input_reads i w raw content :
  raws w !! i = Some raw -> memref_buffer raw <> 0 ->
  valid_buffer w (memref_buffer raw) (memref_size raw) ->
  memref_size raw < 2 ^ (ptr_bits - 1) ->
  len content = memref_size raw -> holds_at (wmem w) (memref_buffer raw) content ->
  exists p, from_raw TEE_PARAM_TYPE_MEMREF_INPUT i w = Ret (Ok p, w) /\
    read_to_vec (T:=ParameterMemrefInput) p w = Ret (content, w) /\
    forall offset dest, 0 <= offset ->
      read_at p offset dest w =
        if memref_size raw <? offset then Ret ((bail ErrorKind.BadParameters, dest), w)
        else let n := Z.min (len dest) (memref_size raw - offset) in
             Ret ((Ok n, splice dest 0 (take (Z.to_nat n) (drop (Z.to_nat offset) content))), w).
Proof.
  intros Hraw Hnn Hb Hc Hlen Hh.
  assert (view (mkMemrefInput i) w (memref_buffer raw) (memref_size raw)) as Hv
    by (cbn; rewrite Hraw; by destruct raw).
  exists (mkMemrefInput i). split_and!.
  - apply Z.eqb_neq in Hnn. cbn. unfold ptry, pbind, get_raw, pret. cbn.
    rewrite Hraw. by rewrite Hnn.
  - destruct (read_to_vec_spec (mkMemrefInput i) w _ _ Hv Hb Hc) as (l & E & Hl & Hhl). rewrite E.
    by rewrite (holds_at_inj (wmem w) (memref_buffer raw) l content) by (congruence || done).
  - intros offset dest Ho.
    destruct (read_at_spec _ w _ _ offset dest Hv Hb Ho) as [[? E]|[? (l & E & Hl & Hhl)]];
      rewrite E; decide_if; [done|].
    cbv zeta. pose proof (len_nonneg dest).
    pose proof (holds_at_sub _ _ content offset l Hh Ho ltac:(lia) Hhl) as Hsub.
    rewrite Hl in Hsub. by rewrite Hl, <- Hsub.
Qed.

End Properties.

(** ** Instances of the properties on a concrete invocation *)

Module ParamExamples.

#[local] Instance ex_target : Target := 64.
#[local] Instance ex_target_ok : TargetOk := aarch64_ok.
#[local] Instance ex_memmove : TeeMemMove := plain_memmove.
#[local] Instance ex_memmove_ok : TeeMemMoveOk := plain_memmove_ok.

(** Slot 0 is a buffer of four bytes at [0x1000]; the others are values. *)
Definition ex_raw : TEE_Param := mkParam 0x1000 4.
Definition ex_world : world :=
  mkWorld (buffer_at 0x1000 [1; 2; 3; 4])
          [ex_raw; mkParam 0 0; mkParam (7 + 2 ^ 32 * 8) 0; mkParam 0 0].

Lemma ex_valid : valid_buffer ex_world 0x1000 4.
Proof. split_and!; [done..|]. apply (buffer_at_mapped 0x1000 [1; 2; 3; 4]). Defined.

Lemma ex_holds : holds_at (wmem ex_world) 0x1000 [1; 2; 3; 4].
Proof. intros i Hi. by apply buffer_at_lookup. Defined.

Lemma memref_input_reads_witness :
  exists p, from_raw TEE_PARAM_TYPE_MEMREF_INPUT 0 ex_world = Ret (Ok p, ex_world) /\
    read_to_vec (T:=ParameterMemrefInput) p ex_world = Ret ([1; 2; 3; 4], ex_world) /\
    read_at p 2 [9; 9; 9] ex_world = Ret ((Ok 2, [3; 4; 9]), ex_world).
Proof.
  destruct (memref_input_reads 0 ex_world ex_raw [1; 2; 3; 4]) as (p & Hf & Hr & Ha);
    [done..|exact ex_valid|done|done|exact ex_holds|].
  exists p. split_and!; [done|done|]. rewrite Ha by lia. done.
Defined.

Lemma write_at_correct_witness :
  exists w', write_at (mkMemrefInout 4 0) 1 [8; 9] ex_world = Ret (Ok tt, w') /\
    reported_size w' 0 = Some 3 /\
    read_at (mkMemrefInout 4 0) 1 [0; 0] w' = Ret ((Ok 2, [8; 9]), w').
Proof.
  destruct (write_at_correct (mkMemrefInout 4 0) ex_world 0x1000 4 1 [8; 9] [0; 0])
    as [[Hlt _]|[_ (w' & Hw & _ & _ & Hs & _ & Hr)]];
    [by split; [|exists 4]|exact ex_valid|lia|done|discriminate Hlt|].
  by exists w'.
Defined.

Lemma memref_interleaving_safe_witness :
  exists p, from_raw TEE_PARAM_TYPE_MEMREF_INOUT 0 ex_world = Ret (Ok p, ex_world) /\
    shm_inv p 0x1000 4 ex_world (mkWorld (buffer_at 0x1000 [5; 2; 3; 4]) (raws ex_world)).
Proof.
  destruct (memref_interleaving_safe 0 ex_world ex_raw
              (mkWorld (buffer_at 0x1000 [5; 2; 3; 4]) (raws ex_world))) as (p & Hp & Hs);
    [done|done|exact ex_valid|].
  exists p. split; [done|]. apply Hs. apply rtc_once. apply (step_host p 0x1000 4 ex_world).
  - intros x Hx. cbn in Hx |- *. unfold buffer_at. cbn.
    rewrite !lookup_insert_ne by lia. done.
  - by vm_compute.
Defined.

Lemma value_inout_write_read_witness :
  exists w', (let* _ := set_a (mkValueInout 2) 5 in
     let* _ := set_b (mkValueInout 2) 6 in
     let* x := get_a (mkValueInout 2) in
     let* y := get_b (mkValueInout 2) in
     pret (x, y)) ex_world = Ret ((5, 6), w').
Proof.
  destruct (value_inout_write_read (mkValueInout 2) ex_world (mkParam (7 + 2 ^ 32 * 8) 0) 5 6)
    as (r & w' & Hr & _); [done|by split; vm_compute|by vm_compute|by vm_compute|].
  by exists w'.
Defined.

(** Tags [MEMREF_INPUT, NONE, VALUE_INPUT, NONE]. *)
Lemma from_raw_tuple_correct_witness :
  exists x, from_raw_tuple (A:=ParameterMemrefInput) (B:=ParameterNone)
      (C:=ParameterValueInput) (D:=ParameterAny) (TEE_PARAM_TYPES 5 0 1 0) ex_world
    = Ret (Ok x, ex_world).
Proof.
  destruct (from_raw_tuple_correct (A:=ParameterMemrefInput) (B:=ParameterNone)
      (C:=ParameterValueInput) (D:=ParameterAny) (TEE_PARAM_TYPES 5 0 1 0) ex_world
      ex_raw (mkParam 0 0) (mkParam (7 + 2 ^ 32 * 8) 0) (mkParam 0 0))
    as [[_ (x0 & x1 & x2 & x3 & E & _)]|[Hf _]]; [done| |discriminate Hf].
  by exists (x0, x1, x2, x3).
Defined.

End ParamExamples.
