(* ===== verification/TeeParams.v ===== *)
(** * TeeParams: the parameters a TA passes to another TA

    Models [crates/optee-utee/src/tee_parameter.rs].  A borrowed buffer
    [&[u8]] / [&mut [u8]] is the address and length of the slice; its bytes are
    in the address space.  The four parameters are a list of four, as the
    source's array. *)

From S2P Require Import Prelude TeeDefines UteeError Memory Params.

Record byte_slice : Type := mkSlice { as_ptr : Z; slice_len : Z }.

Module ParamIndex.

Inductive ParamIndex : Type := Arg0 | Arg1 | Arg2 | Arg3.

Definition to_usize (i : ParamIndex) : nat :=
  match i with Arg0 => 0 | Arg1 => 1 | Arg2 => 2 | Arg3 => 3 end.

End ParamIndex.

Abbreviation ParamIndex := ParamIndex.ParamIndex.

Module ParamContent.

Inductive ParamContent : Type :=
| None_
| MemrefInput (buffer : byte_slice)
| MemrefOutput (buffer : byte_slice) (written : Z)
| MemrefInout (buffer : byte_slice) (written : Z)
| ValueInput (a b : Z)
| ValueOutput (a b : Z)
| ValueInout (a b : Z).

End ParamContent.

Abbreviation ParamContent := ParamContent.ParamContent.

(** The raw union built from a [Value]: the bytes the value does not cover are
    not initialised; they are zero here and never read back. *)
Definition value_param `{!Target} (a b : Z) : TEE_Param :=
  if ptr_bits =? 64 then mkParam (a + 2 ^ 32 * b) 0 else mkParam a b.

Module Param.

Record Param : Type := mkParam_ { content : ParamContent }.

Definition new : Param := mkParam_ ParamContent.None_.

(** [&buffer[..written]]. *)
Definition prefix (buffer : byte_slice) (written : Z) : outcome (option byte_slice) :=
  if written <=? slice_len buffer then Ret (Some (mkSlice (as_ptr buffer) written)) else Panic.

Definition written_slice (self : Param) : outcome (option byte_slice) :=
  match content self with
  | ParamContent.MemrefOutput buffer written => prefix buffer written
  | ParamContent.MemrefInout buffer written => prefix buffer written
  | _ => Ret None
  end.

Definition output_value (self : Param) : option (Z * Z) :=
  match content self with
  | ParamContent.ValueOutput a b => Some (a, b)
  | ParamContent.ValueInout a b => Some (a, b)
  | _ => None
  end.

Definition get_type (self : Param) : ParamType :=
  match content self with
  | ParamContent.None_ => ParamType.None_
  | ParamContent.MemrefInput _ => ParamType.MemrefInput
  | ParamContent.MemrefOutput _ _ => ParamType.MemrefOutput
  | ParamContent.MemrefInout _ _ => ParamType.MemrefInout
  | ParamContent.ValueInput _ _ => ParamType.ValueInput
  | ParamContent.ValueOutput _ _ => ParamType.ValueOutput
  | ParamContent.ValueInout _ _ => ParamType.ValueInout
  end.

Definition get_raw_type (self : Param) : Z := ParamType.into_u32 (get_type self).

Section Raw.
Context `{!Target}.

Definition as_raw (self : Param) : TEE_Param :=
  match content self with
  | ParamContent.None_ => mkParam 0 0
  | ParamContent.MemrefInput buffer => mkParam (as_ptr buffer) (slice_len buffer)
  | ParamContent.MemrefOutput buffer _ => mkParam (as_ptr buffer) (slice_len buffer)
  | ParamContent.MemrefInout buffer _ => mkParam (as_ptr buffer) (slice_len buffer)
  | ParamContent.ValueInput a b => value_param a b
  | ParamContent.ValueInout a b => value_param a b
  | ParamContent.ValueOutput a b => value_param a b
  end.

Definition update_size_from_raw (self : Param) (raw : TEE_Param) : Result unit * Param :=
  match content self with
  | ParamContent.MemrefOutput buffer _ =>
      let new_size := memref_size raw in
      if slice_len buffer <? new_size then (bail ErrorKind.BadParameters, self)
      else (Ok tt, mkParam_ (ParamContent.MemrefOutput buffer new_size))
  | ParamContent.MemrefInout buffer _ =>
      let new_size := memref_size raw in
      if slice_len buffer <? new_size then (bail ErrorKind.BadParameters, self)
      else (Ok tt, mkParam_ (ParamContent.MemrefInout buffer new_size))
  | _ => (bail ErrorKind.BadFormat, self)
  end.

Definition update_value_from_raw (self : Param) (raw : TEE_Param) : Param :=
  match content self with
  | ParamContent.ValueInout _ _ => mkParam_ (ParamContent.ValueInout (value_a raw) (value_b raw))
  | ParamContent.ValueOutput _ _ => mkParam_ (ParamContent.ValueOutput (value_a raw) (value_b raw))
  | _ => self
  end.

End Raw.

End Param.

Abbreviation Param := Param.Param.

(** [TeeParams]: the source's array of four. *)
Record TeeParams : Type := mkTeeParams { params : list Param }.

Module TeeParamsOps.

Definition new : TeeParams :=
  mkTeeParams [Param.new; Param.new; Param.new; Param.new].

(** [self[idx].content = c]: the index is at most 3. *)
Definition set_content (self : TeeParams) (idx : ParamIndex) (c : ParamContent) : TeeParams :=
  mkTeeParams (<[ParamIndex.to_usize idx := Param.mkParam_ c]> (params self)).

Definition with_memref_in self idx buffer := set_content self idx (ParamContent.MemrefInput buffer).
Definition with_memref_out self idx buffer :=
  set_content self idx (ParamContent.MemrefOutput buffer 0).
Definition with_memref_inout self idx buffer :=
  set_content self idx (ParamContent.MemrefInout buffer 0).
Definition with_value_in self idx a b := set_content self idx (ParamContent.ValueInput a b).
Definition with_value_out self idx a b := set_content self idx (ParamContent.ValueOutput a b).
Definition with_value_inout self idx a b := set_content self idx (ParamContent.ValueInout a b).

Definition set_memref_in self idx buffer := set_content self idx (ParamContent.MemrefInput buffer).
Definition set_memref_out self idx buffer :=
  set_content self idx (ParamContent.MemrefOutput buffer 0).
Definition set_memref_inout self idx buffer :=
  set_content self idx (ParamContent.MemrefInout buffer 0).
Definition set_value_in self idx a b := set_content self idx (ParamContent.ValueInput a b).
Definition set_value_out self idx a b := set_content self idx (ParamContent.ValueOutput a b).
Definition set_value_inout self idx a b := set_content self idx (ParamContent.ValueInout a b).

(** The loop of [raw_param_types], from index [i] on. *)
Fixpoint raw_param_types_from (i : Z) (acc : Z) (ps : list Param) : Z :=
  match ps with
  | [] => acc
  | p :: ps' =>
      raw_param_types_from (i + 1)
        (Z.lor acc (wrap_u 32 (Z.shiftl (Param.get_raw_type p) (i * 4)))) ps'
  end.

Definition raw_param_types (self : TeeParams) : Z := raw_param_types_from 0 0 (params self).

Definition as_raw `{!Target} (self : TeeParams) : list TEE_Param :=
  map Param.as_raw (params self).

(** One iteration of [update_from_raw]. *)
Definition update_one `{!Target} (p : Param) (raw : TEE_Param) : Result unit * Param :=
  match Param.get_type p with
  | ParamType.MemrefOutput => Param.update_size_from_raw p raw
  | ParamType.MemrefInout => Param.update_size_from_raw p raw
  | ParamType.ValueOutput => (Ok tt, Param.update_value_from_raw p raw)
  | ParamType.ValueInout => (Ok tt, Param.update_value_from_raw p raw)
  | _ => (Ok tt, p)
  end.

(** The loop: the parameters before a failing one keep their update, the
    failing one and those after it are as they were. *)
Fixpoint update_loop `{!Target} (ps : list Param) (raws : list TEE_Param)
    : Result unit * list Param :=
  match ps, raws with
  | p :: ps', raw :: raws' =>
      match update_one p raw with
      | (Ok _, p') => let '(r, ps'') := update_loop ps' raws' in (r, p' :: ps'')
      | (Err e, p') => (Err e, p' :: ps')
      end
  | _, _ => (Ok tt, ps)
  end.

Definition update_from_raw `{!Target} (self : TeeParams) (raws : list TEE_Param)
    : Result unit * TeeParams :=
  let '(r, ps) := update_loop (params self) raws in (r, mkTeeParams ps).

(** [params[idx]]. *)
Definition index (self : TeeParams) (idx : ParamIndex) : option Param :=
  params self !! ParamIndex.to_usize idx.

End TeeParamsOps.
