(* ===== verification/TeeParamsSpec.v ===== *)
(** * TeeParamsSpec: the caller's parameters are what the callee sees, and the
    callee's answer cannot corrupt them *)

From S2P Require Import Prelude TeeDefines UteeError Memory Params ParamsSpec TeeParams.
Import TeeParamsOps.

(** ** Well-formed parameters *)

Section Wf.
Context `{!Target}.

(** A Rust slice: never null (even when empty), inside the address space. *)
Definition slice_ok (s : byte_slice) : Prop :=
  0 < as_ptr s /\ 0 <= slice_len s /\ as_ptr s + slice_len s < 2 ^ ptr_bits.

(** The [written] length never exceeds the buffer. *)
Definition content_ok (c : ParamContent) : Prop :=
  match c with
  | ParamContent.None_ => True
  | ParamContent.MemrefInput s => slice_ok s
  | ParamContent.MemrefOutput s n | ParamContent.MemrefInout s n =>
      slice_ok s /\ 0 <= n <= slice_len s
  | ParamContent.ValueInput a b | ParamContent.ValueOutput a b
  | ParamContent.ValueInout a b => in_u 32 a /\ in_u 32 b
  end.

Definition params_ok (ps : TeeParams) : Prop :=
  length (params ps) = 4%nat /\ Forall (fun p => content_ok (Param.content p)) (params ps).

(** What callers can build: the constructor, the [with_*]/[set_*] family (all
    of them replace the content of a slot) and the updates after a call. *)
Inductive built : TeeParams -> Prop :=
| built_new : built new
| built_set ps idx c :
    built ps -> content_ok c ->
    match c with
    | ParamContent.MemrefOutput _ n | ParamContent.MemrefInout _ n => n = 0
    | _ => True
    end -> built (set_content ps idx c)
| built_update ps raws :
    built ps -> length raws = 4%nat -> Forall param_ok raws ->
    built (snd (update_from_raw ps raws)).

(** The parameter after an accepted answer, and the test for it. *)
Definition answer_fits (p : Param) (raw : TEE_Param) : bool :=
  match Param.content p with
  | ParamContent.MemrefOutput s _ | ParamContent.MemrefInout s _ =>
      memref_size raw <=? slice_len s
  | _ => true
  end.

Definition answered (p : Param) (raw : TEE_Param) : Param :=
  match Param.content p with
  | ParamContent.MemrefOutput s _ => Param.mkParam_ (ParamContent.MemrefOutput s (memref_size raw))
  | ParamContent.MemrefInout s _ => Param.mkParam_ (ParamContent.MemrefInout s (memref_size raw))
  | ParamContent.ValueOutput _ _ =>
      Param.mkParam_ (ParamContent.ValueOutput (value_a raw) (value_b raw))
  | ParamContent.ValueInout _ _ =>
      Param.mkParam_ (ParamContent.ValueInout (value_a raw) (value_b raw))
  | _ => p
  end.

Lemma update_one_spec p raw :
  update_one p raw = if answer_fits p raw then (Ok tt, answered p raw)
                     else (bail ErrorKind.BadParameters, p).
Proof.
  destruct p as [[]]; try done; unfold update_one, answer_fits, answered; cbn;
    rewrite Z.leb_antisym; unfold Param.update_size_from_raw; cbn; by destruct (_ <? _).
Qed.

(** The loop stops at the first answer that does not fit. *)
Lemma update_loop_spec : forall ps raws, length ps = length raws ->
  (update_loop ps raws = (Ok tt, zip_with answered ps raws) /\
   Forall2 (fun p r => answer_fits p r = true) ps raws)
  \/ (exists k p r, ps !! k = Some p /\ raws !! k = Some r /\ answer_fits p r = false /\
        Forall2 (fun p r => answer_fits p r = true) (take k ps) (take k raws) /\
        update_loop ps raws
          = (bail ErrorKind.BadParameters, zip_with answered (take k ps) (take k raws) ++ drop k ps)).
Proof.
  induction ps as [|p ps IH]; intros [|raw raws] Hlen; try discriminate Hlen.
  - left. by split.
  - cbn [update_loop]. rewrite update_one_spec. destruct (answer_fits p raw) eqn:Hf.
    + destruct (IH raws) as [[E Hall]|(k & q & r & Hq & Hr & Hfit & Hall & E)];
        [by injection Hlen| |]; rewrite E.
      * left. split; [done|]. by constructor.
      * right. exists (S k), q, r. split_and!; try done; by constructor.
    + right. exists 0%nat, p, raw. split_and!; try done; by constructor.
Qed.

Lemma update_loop_length ps raws :
  length ps = length raws -> length (update_loop ps raws).2 = length ps.
Proof.
  intros Hlen. destruct (update_loop_spec ps raws Hlen)
    as [[-> _]|(k & p & r & Hp & _ & _ & _ & ->)]; cbn [snd].
  - rewrite length_zip_with. lia.
  - apply lookup_lt_Some in Hp.
    rewrite length_app, length_zip_with, !length_take, length_drop. lia.
Qed.

End Wf.

Section Wf_lemmas.
Context `{!Target, !TargetOk}.

Lemma value_fields_range raw :
  param_ok raw -> in_u 32 (value_a raw) /\ in_u 32 (value_b raw).
Proof.
  unfold param_ok, in_u, value_a, value_b. intros [Hw0 Hw1].
  destruct ptr_bits_cases as [Hb|Hb]; rewrite !Hb in *; cbn [Z.eqb Pos.eqb];
    split; Z.to_euclidean_division_equations; lia.
Qed.

Lemma value_param_fields a b :
  in_u 32 a -> in_u 32 b ->
  value_a (value_param a b) = a /\ value_b (value_param a b) = b.
Proof.
  unfold in_u, value_a, value_b, value_param. intros.
  destruct ptr_bits_cases as [Hb|Hb]; rewrite !Hb; cbn [Z.eqb Pos.eqb word0 word1];
    split; Z.to_euclidean_division_equations; lia.
Qed.

Lemma answered_ok p raw :
  param_ok raw -> content_ok (Param.content p) -> answer_fits p raw = true ->
  content_ok (Param.content (answered p raw)).
Proof.
  intros Hr Hp Hf. pose proof (value_fields_range raw Hr). destruct Hr as [_ [Hs _]].
  destruct p as [[]]; cbn in *; try done; apply Z.leb_le in Hf; unfold memref_size; naive_solver lia.
Qed.

Lemma zip_answered_ok ps : forall raws,
  Forall (fun p => content_ok (Param.content p)) ps -> Forall param_ok raws ->
  Forall2 (fun p r => answer_fits p r = true) ps raws ->
  Forall (fun p => content_ok (Param.content p)) (zip_with answered ps raws).
Proof.
  induction ps as [|p ps IH]; intros raws Hps Hraws Hf; inversion Hf; subst; [done|].
  inversion Hps; inversion Hraws; subst. cbn. constructor; [by apply answered_ok|by apply IH].
Qed.

Lemma update_from_raw_ok ps raws :
  params_ok ps -> length raws = 4%nat -> Forall param_ok raws ->
  params_ok (update_from_raw ps raws).2.
Proof.
  intros [Hlen Hps] Hl Hraws. unfold update_from_raw.
  pose proof (update_loop_length (params ps) raws ltac:(lia)) as Hlen'.
  destruct (update_loop_spec (params ps) raws ltac:(lia))
    as [[E Hall]|(k & p & r & _ & _ & _ & Hall & E)]; rewrite E in *; cbn in *.
  - split; [cbn; lia|]. by apply zip_answered_ok.
  - split; [cbn; lia|]. cbn. apply Forall_app. split; [|by apply Forall_drop].
    apply zip_answered_ok; try done; by apply Forall_take.
Qed.

Lemma built_ok ps : built ps -> params_ok ps.
Proof.
  induction 1 as [|ps idx c _ IH Hc _|ps raws _ IH Hl Hraws].
  - split; [done|]. repeat constructor.
  - destruct IH as [Hlen Hps]. split; cbn; [by rewrite length_insert|].
    by apply Forall_insert.
  - by apply update_from_raw_ok.
Qed.

(** C29: whatever sizes and values the callee reports, the parameters stay well
    formed: every reachable [TeeParams] has four slots, and [written_slice] of
    each never panics and is a prefix of the caller's own buffer. *)
Theorem tee_params_invariant ps :
  built ps ->
  length (params ps) = 4%nat /\
  forall i p, params ps !! i = Some p ->
    Param.written_slice p <> Panic /\
    forall s, Param.written_slice p = Ret (Some s) ->
      exists buf, (exists n, Param.content p = ParamContent.MemrefOutput buf n \/
                             Param.content p = ParamContent.MemrefInout buf n) /\
        as_ptr s = as_ptr buf /\ 0 <= slice_len s <= slice_len buf.
Proof.
  intros [Hlen Hall]%built_ok. split; [done|]. intros i p Hp.
  pose proof (Forall_lookup_1 _ _ _ _ Hall Hp) as Hc. cbn in Hc.
  destruct p as [[]]; cbn in Hc |- *; try done; unfold Param.prefix; cbn;
    destruct Hc as [_ [? ?]]; decide_if; (split; [done|]); intros s [= <-]; eauto 10.
Qed.

End Wf_lemmas.

(** ** The callee's view *)

Section Callee.
Context `{!Target, !TargetOk}.

Lemma get_raw_type_tag p : is_tag (Param.get_raw_type p).
Proof. apply (bool_decide_unpack _). by destruct p as [[]]. Qed.

Lemma raw_param_types_pack p0 p1 p2 p3 :
  raw_param_types (mkTeeParams [p0; p1; p2; p3]) =
    TEE_PARAM_TYPES (Param.get_raw_type p0) (Param.get_raw_type p1)
                    (Param.get_raw_type p2) (Param.get_raw_type p3).
Proof.
  unfold raw_param_types, TEE_PARAM_TYPES. cbn [params raw_param_types_from].
  cbn [Z.add Z.mul]. rewrite Z.lor_0_l, Z.shiftl_0_r.
  pose proof (get_raw_type_tag p0). unfold is_tag, in_u in *.
  rewrite (wrap_u_small 32 (Param.get_raw_type p0)) by (unfold in_u; lia). done.
Qed.

(** What the callee's wrapper of slot [i] should be for a caller's content. *)
Definition callee_sees (c : ParamContent) (i : nat) (w : world) (x : ParameterAny) : Prop :=
  match c, x with
  | ParamContent.None_, ParameterAny.None_ => True
  | ParamContent.MemrefInput s, ParameterAny.MemrefInput q =>
      slot_of q = i /\ view q w (as_ptr s) (slice_len s)
  | ParamContent.MemrefOutput s _, ParameterAny.MemrefOutput q =>
      slot_of q = i /\ view q w (as_ptr s) (slice_len s)
  | ParamContent.MemrefInout s _, ParameterAny.MemrefInout q =>
      slot_of q = i /\ view q w (as_ptr s) (slice_len s)
  | ParamContent.ValueInput a b, ParameterAny.ValueInput q => q = mkValueInput a b
  | ParamContent.ValueOutput _ _, ParameterAny.ValueOutput q => vo_raw q = i
  | ParamContent.ValueInout a b, ParameterAny.ValueInout q =>
      vio_raw q = i /\ get_a q w = Ret (a, w) /\ get_b q w = Ret (b, w)
  | _, _ => False
  end.

Lemma any_accepts_as_raw p :
  content_ok (Param.content p) ->
  accepts (T:=ParameterAny) (Param.get_raw_type p) (Param.as_raw p) = true.
Proof.
  destruct p as [[]]; cbn; intros Hc; try done; unfold has_buffer, memref_buffer, slice_ok in *;
    cbn; apply negb_true_iff, Z.eqb_neq; naive_solver lia.
Qed.

(** The type of a variant, and that it is the tag for a known tag. *)
Definition any_type (x : ParameterAny) : option ParamType :=
  match x with
  | ParameterAny.None_ => Some ParamType.None_
  | ParameterAny.ValueInput _ => Some ParamType.ValueInput
  | ParameterAny.ValueInout _ => Some ParamType.ValueInout
  | ParameterAny.ValueOutput _ => Some ParamType.ValueOutput
  | ParameterAny.MemrefInput _ => Some ParamType.MemrefInput
  | ParameterAny.MemrefInout _ => Some ParamType.MemrefInout
  | ParameterAny.MemrefOutput _ => Some ParamType.MemrefOutput
  | ParameterAny.Unknown _ _ => None
  end.

Lemma any_stands_type x p i raw :
  any_stands_for x (Param.get_raw_type p) i raw -> any_type x = Some (Param.get_type p).
Proof.
  assert (ParamType.from_u32 (Param.get_raw_type p) = Param.get_type p) as Hp
    by (by destruct p as [[]]).
  destruct x; cbn [any_stands_for any_type]; intros Hx;
    repeat match goal with H : _ /\ _ |- _ => destruct H as [? H] end;
    first [ rewrite <- Hp;
            match goal with H : Param.get_raw_type _ = _ |- _ => rewrite H end; reflexivity
          | idtac ].
  destruct p as [[]]; discriminate Hx.
Qed.

Lemma any_sees p i w x :
  content_ok (Param.content p) -> raws w !! i = Some (Param.as_raw p) ->
  any_stands_for x (Param.get_raw_type p) i (Param.as_raw p) ->
  callee_sees (Param.content p) i w x.
Proof.
  intros Hc Hi Hx. pose proof (any_stands_type x p i _ Hx) as Ht. destruct p as [c].
  destruct c; destruct x; try discriminate Ht; clear Ht; cbn in Hc, Hi, Hx |- *.
  - done.
  - destruct Hx as [_ [Hs Hv]]. split; [exact Hs|exact (Hv w Hi)].
  - destruct Hx as [_ [Hs Hv]]. split; [exact Hs|exact (Hv w Hi)].
  - destruct Hx as [_ [Hs Hv]]. split; [exact Hs|exact (Hv w Hi)].
  - destruct Hc as [Ha Hb], Hx as [_ ->].
    by destruct (value_param_fields a b Ha Hb) as [-> ->].
  - destruct Hx as [_ ->]. done.
  - destruct Hc as [Ha Hb], Hx as [_ ->]. cbn. split; [done|].
    unfold pbind. rewrite (get_raw_Some i w (value_param a b) Hi). unfold pret.
    by destruct (value_param_fields a b Ha Hb) as [-> ->].
Qed.

(** C18: the callee of an inter-TA call sees exactly what the caller passed: for
    well-formed [TeeParams], converting the type word and the raw parameters
    back succeeds, each slot gets the variant of the caller's parameter, memory
    references stand for the caller's buffers and input values are the caller's
    values. *)
Theorem callee_sees_caller_params p0 p1 p2 p3 m :
  params_ok (mkTeeParams [p0; p1; p2; p3]) ->
  let ps := mkTeeParams [p0; p1; p2; p3] in
  let w := mkWorld m (as_raw ps) in
  exists x0 x1 x2 x3 : ParameterAny,
    from_raw_tuple (raw_param_types ps) w = Ret (Ok (x0, x1, x2, x3), w) /\
    callee_sees (Param.content p0) 0 w x0 /\ callee_sees (Param.content p1) 1 w x1 /\
    callee_sees (Param.content p2) 2 w x2 /\ callee_sees (Param.content p3) 3 w x3.
Proof.
  intros [_ Hall] ps w. unfold ps. rewrite raw_param_types_pack. cbn [params] in Hall.
  destruct (TEE_PARAM_TYPE_GET_pack _ _ _ _ (get_raw_type_tag p0) (get_raw_type_tag p1)
              (get_raw_type_tag p2) (get_raw_type_tag p3)) as (G0 & G1 & G2 & G3).
  apply Forall_cons_1 in Hall as [C0 Hall]. apply Forall_cons_1 in Hall as [C1 Hall].
  apply Forall_cons_1 in Hall as [C2 Hall]. apply Forall_cons_1 in Hall as [C3 _].
  unfold from_raw_tuple. rewrite G0, G1, G2, G3.
  destruct (from_raw_accept _ 0 w _ eq_refl (any_accepts_as_raw p0 C0)) as (x0 & E0 & S0).
  destruct (from_raw_accept _ 1 w _ eq_refl (any_accepts_as_raw p1 C1)) as (x1 & E1 & S1).
  destruct (from_raw_accept _ 2 w _ eq_refl (any_accepts_as_raw p2 C2)) as (x2 & E2 & S2).
  destruct (from_raw_accept _ 3 w _ eq_refl (any_accepts_as_raw p3 C3)) as (x3 & E3 & S3).
  exists x0, x1, x2, x3. split.
  - erewrite ptry_Ok by done. erewrite ptry_Ok by done. erewrite ptry_Ok by done.
    by erewrite ptry_Ok by done.
  - split_and!; by eapply any_sees.
Qed.

(** The answer of a call is taken over slot by slot: [update_from_raw]
    succeeds exactly when every reported size fits its buffer, and then every
    output slot holds the reported size or values and every other slot is
    unchanged; otherwise the error is [BadParameters], the slots before the
    offending one are updated, and it and the later ones are unchanged. *)
Lemma update_from_raw_correct ps answer :
  length (params ps) = 4%nat -> length answer = 4%nat ->
  (Forall2 (fun p r => answer_fits p r = true) (params ps) answer /\
   update_from_raw ps answer
     = (Ok tt, mkTeeParams (zip_with answered (params ps) answer)))
  \/ (exists k p r, params ps !! k = Some p /\ answer !! k = Some r /\
        answer_fits p r = false /\
        exists ps', update_from_raw ps answer
                      = (bail ErrorKind.BadParameters, mkTeeParams ps') /\
          take k ps' = zip_with answered (take k (params ps)) (take k answer) /\
          drop k ps' = drop k (params ps)).
Proof.
  intros Hl Hl'. unfold update_from_raw.
  destruct (update_loop_spec (params ps) answer ltac:(lia))
    as [[E Hall]|(k & p & r & Hp & Hr & Hf & _ & E)]; rewrite E; [by left|right].
  exists k, p, r. split_and!; try done. eexists. split; [reflexivity|].
  apply lookup_lt_Some in Hp. apply lookup_lt_Some in Hr.
  assert (length (zip_with answered (take k (params ps)) (take k answer)) = k) as Hk
    by (rewrite length_zip_with, !length_take; lia).
  split; [by rewrite take_app_length'|by rewrite drop_app_length'].
Qed.

End Callee.

(** ** Instances of the properties *)

Module TeeParamsExamples.

#[local] Instance ex_target : Target := 64.
#[local] Instance ex_target_ok : TargetOk := aarch64_ok.

Definition ex_slice : byte_slice := mkSlice 0x2000 16.
Definition ex_params : TeeParams :=
  with_value_inout (with_memref_out (with_memref_in new ParamIndex.Arg0 (mkSlice 0x1000 4))
                      ParamIndex.Arg1 ex_slice) ParamIndex.Arg2 3 4.
Definition ex_answer (n : Z) : list TEE_Param :=
  [mkParam 0x1000 4; mkParam 0x2000 n; mkParam 9 0; mkParam 0 0].

Lemma ex_params_built : built ex_params.
Proof.
  unfold ex_params, with_value_inout, with_memref_out, with_memref_in.
  repeat apply built_set; try done; try apply built_new.
Defined.

Lemma tee_params_invariant_witness :
  length (params (update_from_raw ex_params (ex_answer 10)).2) = 4%nat.
Proof.
  apply (tee_params_invariant (update_from_raw ex_params (ex_answer 10)).2).
  apply built_update; [exact ex_params_built|done|].
  repeat constructor; by vm_compute.
Defined.

Lemma callee_sees_caller_params_witness :
  exists x0 x1 x2 x3 : ParameterAny,
    from_raw_tuple (raw_param_types ex_params) (mkWorld ∅ (as_raw ex_params))
    = Ret (Ok (x0, x1, x2, x3), mkWorld ∅ (as_raw ex_params)).
Proof.
  destruct (callee_sees_caller_params (Param.mkParam_ (ParamContent.MemrefInput (mkSlice 0x1000 4)))
    (Param.mkParam_ (ParamContent.MemrefOutput ex_slice 0))
    (Param.mkParam_ (ParamContent.ValueInout 3 4)) Param.new ∅) as (x0 & x1 & x2 & x3 & E & _).
  - apply (built_ok ex_params ex_params_built).
  - by exists x0, x1, x2, x3.
Defined.

(** A reported size of 17 does not fit the 16-byte buffer. *)
Lemma update_from_raw_correct_witness :
  exists ps', update_from_raw ex_params (ex_answer 17) = (bail ErrorKind.BadParameters, ps').
Proof.
  destruct (update_from_raw_correct ex_params (ex_answer 17))
    as [[Hall _]|(k & p & r & _ & _ & _ & ps' & E & _)]; [done|done| |by exists (mkTeeParams ps')].
  exfalso. apply (Forall2_lookup_lr _ _ _ 1 (Param.mkParam_ (ParamContent.MemrefOutput ex_slice 0))
    (mkParam 0x2000 17)) in Hall; done.
Defined.

End TeeParamsExamples.
