(* ===== verification/TeecDefines.v ===== *)
(** * TeecDefines: the constants of the TEE Client API

    Translated from [crates/optee-teec-sys/src/tee_client_api.rs]: parameter
    types, return codes, origins and logins, and the function that packs the
    parameter types. *)

From S2P Require Import Prelude.

(** ** Configuration *)

Definition TEEC_CONFIG_PAYLOAD_REF_COUNT : Z := 4.

(** ** Parameter types *)

Definition TEEC_NONE : Z := 0x00000000.
Definition TEEC_VALUE_INPUT : Z := 0x00000001.
Definition TEEC_VALUE_OUTPUT : Z := 0x00000002.
Definition TEEC_VALUE_INOUT : Z := 0x00000003.
Definition TEEC_MEMREF_TEMP_INPUT : Z := 0x00000005.
Definition TEEC_MEMREF_TEMP_OUTPUT : Z := 0x00000006.
Definition TEEC_MEMREF_TEMP_INOUT : Z := 0x00000007.
Definition TEEC_MEMREF_WHOLE : Z := 0x0000000C.
Definition TEEC_MEMREF_PARTIAL_INPUT : Z := 0x0000000D.
Definition TEEC_MEMREF_PARTIAL_OUTPUT : Z := 0x0000000E.
Definition TEEC_MEMREF_PARTIAL_INOUT : Z := 0x0000000F.

(** ** Shared memory flags *)

Definition TEEC_MEM_INPUT : Z := 0x00000001.
Definition TEEC_MEM_OUTPUT : Z := 0x00000002.

(** ** Return codes *)

Definition TEEC_SUCCESS : Z := 0x00000000.
Definition TEEC_ERROR_GENERIC : Z := 0xFFFF0000.
Definition TEEC_ERROR_ACCESS_DENIED : Z := 0xFFFF0001.
Definition TEEC_ERROR_CANCEL : Z := 0xFFFF0002.
Definition TEEC_ERROR_ACCESS_CONFLICT : Z := 0xFFFF0003.
Definition TEEC_ERROR_EXCESS_DATA : Z := 0xFFFF0004.
Definition TEEC_ERROR_BAD_FORMAT : Z := 0xFFFF0005.
Definition TEEC_ERROR_BAD_PARAMETERS : Z := 0xFFFF0006.
Definition TEEC_ERROR_BAD_STATE : Z := 0xFFFF0007.
Definition TEEC_ERROR_ITEM_NOT_FOUND : Z := 0xFFFF0008.
Definition TEEC_ERROR_NOT_IMPLEMENTED : Z := 0xFFFF0009.
Definition TEEC_ERROR_NOT_SUPPORTED : Z := 0xFFFF000A.
Definition TEEC_ERROR_NO_DATA : Z := 0xFFFF000B.
Definition TEEC_ERROR_OUT_OF_MEMORY : Z := 0xFFFF000C.
Definition TEEC_ERROR_BUSY : Z := 0xFFFF000D.
Definition TEEC_ERROR_COMMUNICATION : Z := 0xFFFF000E.
Definition TEEC_ERROR_SECURITY : Z := 0xFFFF000F.
Definition TEEC_ERROR_SHORT_BUFFER : Z := 0xFFFF0010.
Definition TEEC_ERROR_EXTERNAL_CANCEL : Z := 0xFFFF0011.
Definition TEEC_ERROR_TARGET_DEAD : Z := 0xFFFF3024.

(** ** Origins *)

Definition TEEC_ORIGIN_API : Z := 0x00000001.
Definition TEEC_ORIGIN_COMMS : Z := 0x00000002.
Definition TEEC_ORIGIN_TEE : Z := 0x00000003.
Definition TEEC_ORIGIN_TRUSTED_APP : Z := 0x00000004.

(** ** Logins *)

Definition TEEC_LOGIN_PUBLIC : Z := 0x00000000.
Definition TEEC_LOGIN_USER : Z := 0x00000001.
Definition TEEC_LOGIN_GROUP : Z := 0x00000002.
Definition TEEC_LOGIN_APPLICATION : Z := 0x00000004.
Definition TEEC_LOGIN_USER_APPLICATION : Z := 0x00000005.
Definition TEEC_LOGIN_GROUP_APPLICATION : Z := 0x00000006.
(** ** The parameter-type word *)

Definition TEEC_PARAM_TYPES (p0 p1 p2 p3 : Z) : Z :=
  let tmp := Z.lor (Z.lor (wrap_u 32 (Z.shiftl p1 4)) (wrap_u 32 (Z.shiftl p2 8)))
                   (wrap_u 32 (Z.shiftl p3 12)) in
  Z.lor p0 tmp.
