(* ===== verification/TeecError.v ===== *)
(** * TeecError: the error type of the CA-side API

    Models [crates/optee-teec/src/error.rs]: the kinds of error with their
    codes, the error value with its optional origin, and the two functions that
    turn a [TEEC_Result] into a [Result].  The names are those of the source; a
    file that also uses the TA-side error type qualifies them. *)

From S2P Require Import Prelude TeecDefines.

Module ErrorKind.

Inductive ErrorKind : Type :=
| Generic
| AccessDenied
| Cancel
| AccessConflict
| ExcessData
| BadFormat
| BadParameters
| BadState
| ItemNotFound
| NotImplemented
| NotSupported
| NoData
| OutOfMemory
| Busy
| Communication
| Security
| ShortBuffer
| ExternalCancel
| TargetDead
| Unknown (code : Z).

#[global] Instance TeecErrorKind_eq_dec : EqDecision ErrorKind.
Proof. solve_decision. Defined.

(** [u32::from(kind)]. *)
Definition into_u32 (k : ErrorKind) : Z :=
  match k with
  | Generic => TEEC_ERROR_GENERIC
  | AccessDenied => TEEC_ERROR_ACCESS_DENIED
  | Cancel => TEEC_ERROR_CANCEL
  | AccessConflict => TEEC_ERROR_ACCESS_CONFLICT
  | ExcessData => TEEC_ERROR_EXCESS_DATA
  | BadFormat => TEEC_ERROR_BAD_FORMAT
  | BadParameters => TEEC_ERROR_BAD_PARAMETERS
  | BadState => TEEC_ERROR_BAD_STATE
  | ItemNotFound => TEEC_ERROR_ITEM_NOT_FOUND
  | NotImplemented => TEEC_ERROR_NOT_IMPLEMENTED
  | NotSupported => TEEC_ERROR_NOT_SUPPORTED
  | NoData => TEEC_ERROR_NO_DATA
  | OutOfMemory => TEEC_ERROR_OUT_OF_MEMORY
  | Busy => TEEC_ERROR_BUSY
  | Communication => TEEC_ERROR_COMMUNICATION
  | Security => TEEC_ERROR_SECURITY
  | ShortBuffer => TEEC_ERROR_SHORT_BUFFER
  | ExternalCancel => TEEC_ERROR_EXTERNAL_CANCEL
  | TargetDead => TEEC_ERROR_TARGET_DEAD
  | Unknown code => code
  end.

Definition variants : list ErrorKind :=
  [Generic; AccessDenied; Cancel; AccessConflict;
   ExcessData; BadFormat; BadParameters; BadState;
   ItemNotFound; NotImplemented; NotSupported; NoData;
   OutOfMemory; Busy; Communication; Security;
   ShortBuffer; ExternalCancel; TargetDead].

#[global] Instance TeecErrorKind_num_enum : NumEnum ErrorKind :=
  {| discriminant := into_u32; named := variants; otherwise := Unknown |}.
#[global] Instance TeecErrorKind_num_enum_ok : NumEnumOk ErrorKind.
Proof. num_enum_ok. Qed.
#[global] Instance TeecErrorKind_catch_all : CatchAll ErrorKind.
Proof. done. Qed.

(** [ErrorKind::from(code)]. *)
Definition from_u32 (code : Z) : ErrorKind := from_primitive code.

Definition as_str (k : ErrorKind) : string :=
  (match k with
  | Generic => "Non-specific cause."
  | AccessDenied => "Access privileges are not sufficient."
  | Cancel => "The operation was canceled."
  | AccessConflict => "Concurrent accesses caused conflict."
  | ExcessData =>
      "Too much data for the requested operation was passed."
  | BadFormat => "Input data was of invalid format."
  | BadParameters => "Input parameters were invalid."
  | BadState => "Operation is not valid in the current state."
  | ItemNotFound => "The requested data item is not found."
  | NotImplemented =>
      "The requested operation should exist but is not yet implemented."
  | NotSupported =>
      "The requested operation is valid but is not supported in this implementation."
  | NoData => "Expected data was missing."
  | OutOfMemory => "System ran out of resources."
  | Busy => "The system is busy working on something else."
  | Communication => "Communication with a remote party failed."
  | Security => "A security fault was detected."
  | ShortBuffer =>
      "The supplied buffer is too short for the generated output."
  | ExternalCancel => "Undocumented."
  | TargetDead =>
      "Trusted Application has panicked during the operation."
  | Unknown _ => "Unknown error."
  end)%string.

End ErrorKind.

Abbreviation ErrorKind := ErrorKind.ErrorKind.

Module ErrorOrigin.

Inductive ErrorOrigin : Type := API | COMMS | TEE | TA | UNKNOWN.

#[global] Instance TeecErrorOrigin_eq_dec : EqDecision ErrorOrigin.
Proof. solve_decision. Defined.

(** [UNKNOWN] has no written discriminant: it gets the previous one plus one. *)
Definition into_u32 (o : ErrorOrigin) : Z :=
  match o with
  | API => TEEC_ORIGIN_API
  | COMMS => TEEC_ORIGIN_COMMS
  | TEE => TEEC_ORIGIN_TEE
  | TA => TEEC_ORIGIN_TRUSTED_APP
  | UNKNOWN => TEEC_ORIGIN_TRUSTED_APP + 1
  end.

(** [#[default] UNKNOWN]: the default is also the variant of its own code. *)
#[global] Instance TeecErrorOrigin_num_enum : NumEnum ErrorOrigin :=
  {| discriminant := into_u32; named := [API; COMMS; TEE; TA; UNKNOWN];
     otherwise := fun _ => UNKNOWN |}.
#[global] Instance TeecErrorOrigin_num_enum_ok : NumEnumOk ErrorOrigin.
Proof. num_enum_ok. Qed.

Definition from_u32 (code : Z) : ErrorOrigin := from_primitive code.

End ErrorOrigin.

Abbreviation ErrorOrigin := ErrorOrigin.ErrorOrigin.

Module Error.

Record Error : Type := mkError {
  kind : ErrorKind;
  origin : option ErrorOrigin;
}.

#[global] Instance TeecError_eq_dec : EqDecision Error.
Proof. solve_decision. Defined.

Definition from_kind (k : ErrorKind) : Error := mkError k None.
Definition new (k : ErrorKind) : Error := from_kind k.
Definition from_raw_error (code : Z) : Error := from_kind (ErrorKind.from_u32 code).
Definition with_origin (e : Error) (o : ErrorOrigin) : Error :=
  mkError (kind e) (Some o).
Definition raw_code (e : Error) : Z := ErrorKind.into_u32 (kind e).
Definition message (e : Error) : string := ErrorKind.as_str (kind e).

(** [origin().map(|v| v.into()).unwrap_or(0_u32)]. *)
Definition origin_code (e : Error) : Z :=
  match origin e with Some o => ErrorOrigin.into_u32 o | None => 0 end.

(** [Debug::fmt], and [Display::fmt] which calls it. *)
Definition fmt (e : Error) : string :=
  (message e ++ " (error code 0x" ++ lower_hex (raw_code e)
     ++ ", origin 0x" ++ lower_hex (origin_code e) ++ ")")%string.

End Error.

Abbreviation Error := Error.Error.

Definition Result (T : Type) : Type := result T Error.

Definition teec_check (code : Z) : Result unit :=
  if code =? TEEC_SUCCESS then Ok tt else Err (Error.from_raw_error code).

Definition teec_check_with_origin (code orig : Z) : Result unit :=
  if code =? TEEC_SUCCESS then Ok tt
  else Err (Error.with_origin (Error.from_raw_error code) (ErrorOrigin.from_u32 orig)).

(** ** Properties *)

Lemma teec_raw_error_code code : Error.raw_code (Error.from_raw_error code) = code.
Proof. exact (into_from_primitive (E:=ErrorKind) code). Qed.
