(* ===== verification/Uuids.v ===== *)
(** * UUIDs: [optee-utee/src/uuid.rs], [optee-teec/src/uuid.rs]

    The raw structure, the constructors of both crates and their [Display], over
    the crates [uuid] and [hex]; the canonical string of sixteen bytes, which is
    what both sides print and what names a TA's file. *)

From S2P Require Import Prelude UteeError TeecError.
Local Open Scope string_scope.

(** ** The raw structure

    [TEE_UUID] and [TEEC_UUID] have the same fields. *)
Record TEE_UUID : Type := mkTeeUuid {
  timeLow : Z;
  timeMid : Z;
  timeHiAndVersion : Z;
  clockSeqAndNode : bytes
}.

Definition tee_uuid_wf (u : TEE_UUID) : Prop :=
  in_u 32 (timeLow u) /\ in_u 16 (timeMid u) /\ in_u 16 (timeHiAndVersion u) /\
  length (clockSeqAndNode u) = 8%nat /\ Forall is_byte (clockSeqAndNode u).

(** ** Formatting *)

(** [{:0wx}]: at least [w] digits. *)
Definition pad_hex (w : nat) (x : Z) : string :=
  let s := lower_hex x in
  Nat.iter (w - String.length s) (String.append "0") s.

(** ** The crates [uuid] and [hex]

    A UUID of the crate is its sixteen bytes, most significant field first. *)
Class UuidCrate : Type := {
  crate_parse_str : string -> option bytes;
  crate_from_slice : bytes -> option bytes;
  crate_as_fields : bytes -> Z * Z * Z * bytes;
  crate_from_bytes_le : bytes -> bytes;
  crate_to_string : bytes -> string;
  hex_encode : bytes -> string
}.

(** ** [optee_utee::Uuid] *)
Module Utee.
Section Ops.
Context `{!UuidCrate}.

Record Uuid : Type := mkUuid { raw : TEE_UUID }.

Definition new_raw (time_low time_mid time_hi_and_version : Z) (clock_seq_and_nod : bytes) : Uuid :=
  mkUuid (mkTeeUuid time_low time_mid time_hi_and_version clock_seq_and_nod).

Definition from_bytes (b : bytes) : Uuid :=
  let '(l, m, h, c) := crate_as_fields b in new_raw l m h c.

Definition parse_str (input : string) : UteeError.Result Uuid :=
  match crate_parse_str input with
  | Some b => let '(l, m, h, c) := crate_as_fields b in Ok (new_raw l m h c)
  | None => Err (UteeError.Error.from_kind UteeError.ErrorKind.BadFormat)
  end.

Definition from_slice (b : bytes) : UteeError.Result Uuid :=
  match crate_from_slice b with
  | Some b => let '(l, m, h, c) := crate_as_fields b in Ok (new_raw l m h c)
  | None => Err (UteeError.Error.from_kind UteeError.ErrorKind.BadFormat)
  end.

(** [From<TEE_UUID>] and [as_raw_ptr]. *)
Definition from_raw (u : TEE_UUID) : Uuid := mkUuid u.
Definition as_raw (u : Uuid) : TEE_UUID := raw u.

(** [Display]. *)
Definition fmt (u : Uuid) : string :=
  pad_hex 8 (timeLow (raw u)) +:+ "-" +:+ pad_hex 4 (timeMid (raw u)) +:+ "-"
  +:+ pad_hex 4 (timeHiAndVersion (raw u)) +:+ "-"
  +:+ hex_encode (take 2 (clockSeqAndNode (raw u))) +:+ "-"
  +:+ hex_encode (drop 2 (take 8 (clockSeqAndNode (raw u)))).
End Ops.
End Utee.

(** ** [optee_teec::Uuid] *)
Module Teec.
Section Ops.
Context `{!UuidCrate}.

Record Uuid : Type := mkUuid { raw : TEE_UUID }.

Definition new_raw (time_low time_mid time_hi_and_version : Z) (clock_seq_and_nod : bytes) : Uuid :=
  mkUuid (mkTeeUuid time_low time_mid time_hi_and_version clock_seq_and_nod).

Definition from_bytes (b : bytes) : Uuid :=
  let '(l, m, h, c) := crate_as_fields b in new_raw l m h c.

Definition parse_str (input : string) : TeecError.Result Uuid :=
  match crate_parse_str input with
  | Some b => let '(l, m, h, c) := crate_as_fields b in Ok (new_raw l m h c)
  | None => Err (TeecError.Error.from_kind TeecError.ErrorKind.BadFormat)
  end.

Definition from_slice (b : bytes) : TeecError.Result Uuid :=
  match crate_from_slice b with
  | Some b => let '(l, m, h, c) := crate_as_fields b in Ok (new_raw l m h c)
  | None => Err (TeecError.Error.from_kind TeecError.ErrorKind.BadFormat)
  end.

(** [as_raw_ptr] and [Clone]. *)
Definition as_raw (u : Uuid) : TEE_UUID := raw u.
Definition clone (u : Uuid) : Uuid :=
  new_raw (timeLow (raw u)) (timeMid (raw u)) (timeHiAndVersion (raw u)) (clockSeqAndNode (raw u)).

Definition fmt (u : Uuid) : string :=
  pad_hex 8 (timeLow (raw u)) +:+ "-" +:+ pad_hex 4 (timeMid (raw u)) +:+ "-"
  +:+ pad_hex 4 (timeHiAndVersion (raw u)) +:+ "-"
  +:+ hex_encode (take 2 (clockSeqAndNode (raw u))) +:+ "-"
  +:+ hex_encode (drop 2 (take 8 (clockSeqAndNode (raw u)))).
End Ops.
End Teec.

(** ** The canonical string *)

(** Two digits for a byte. *)
Definition hex_byte (b : Z) : string := hex_digit (b / 16) +:+ hex_digit (b mod 16).
Definition hex_bytes (l : bytes) : string := foldr (fun b s => hex_byte b +:+ s) "" l.

Definition hyphenated (b : bytes) : string :=
  hex_bytes (take 4 b) +:+ "-" +:+ hex_bytes (take 2 (drop 4 b)) +:+ "-"
  +:+ hex_bytes (take 2 (drop 6 b)) +:+ "-" +:+ hex_bytes (take 2 (drop 8 b)) +:+ "-"
  +:+ hex_bytes (drop 10 b).

Definition uuid_bytes (b : bytes) : Prop := length b = 16%nat /\ Forall is_byte b.

(** What is documented of the crates. *)
Class UuidCrateOk `{UuidCrate} : Prop := {
  parse_hyphenated b : uuid_bytes b -> crate_parse_str (hyphenated b) = Some b;
  parse_is_uuid s b : crate_parse_str s = Some b -> uuid_bytes b;
  from_slice_spec b : Forall is_byte b ->
    crate_from_slice b = if decide (length b = 16%nat) then Some b else None;
  as_fields_spec b : uuid_bytes b ->
    crate_as_fields b = (be_combine (take 4 b), be_combine (take 2 (drop 4 b)),
                         be_combine (take 2 (drop 6 b)), drop 8 b);
  from_bytes_le_spec b : uuid_bytes b ->
    crate_from_bytes_le b = (rev (take 4 b) ++ rev (take 2 (drop 4 b)) ++ rev (take 2 (drop 6 b))
                             ++ drop 8 b)%list;
  to_string_spec b : uuid_bytes b -> crate_to_string b = hyphenated b;
  hex_encode_spec l : Forall is_byte l -> hex_encode l = hex_bytes l
}.

(** ** Digits *)

(** Exactly [n] digits. *)
Fixpoint hex_width (n : nat) (x : Z) : string :=
  match n with
  | O => ""
  | S n => hex_width n (x / 16) +:+ hex_digit (x mod 16)
  end.

Lemma app_assoc_str (a b c : string) : (a +:+ b) +:+ c = a +:+ (b +:+ c).
Proof. induction a as [|x a IH]; [done|]. exact (f_equal (String x) IH). Qed.

Lemma app_nil_str (a : string) : a +:+ "" = a.
Proof. induction a as [|x a IH]; [done|]. exact (f_equal (String x) IH). Qed.

Lemma length_app_str (a b : string) :
  String.length (a +:+ b) = (String.length a + String.length b)%nat.
Proof. induction a as [|x a IH]; [done|]. exact (f_equal S IH). Qed.

Lemma hex_digit_length x : 0 <= x < 16 -> String.length (hex_digit x) = 1%nat.
Proof.
  intros Hx. unfold hex_digit. rewrite <-(Z2Nat.id x) in Hx by lia.
  destruct (Z.to_nat x) as [|n]; [done|]. do 15 (destruct n as [|n]; [done|]). lia.
Qed.

Lemma hex_width_length n x : 0 <= x -> String.length (hex_width n x) = n.
Proof.
  revert x. induction n as [|n IH]; intros x Hx; [done|]. cbn [hex_width].
  rewrite length_app_str, IH by (apply Z.div_pos; lia). rewrite hex_digit_length; [lia|].
  apply Z.mod_pos_bound. lia.
Qed.

Lemma hex_width_app n m x y :
  0 <= x -> 0 <= y < 16 ^ Z.of_nat m ->
  hex_width (n + m) (x * 16 ^ Z.of_nat m + y) = hex_width n x +:+ hex_width m y.
Proof.
  revert y. induction m as [|m IH]; intros y Hx Hy.
  - rewrite Nat.add_0_r. cbn [hex_width]. change (16 ^ Z.of_nat 0) with 1 in *.
    replace (x * 1 + y) with (x) by lia. by rewrite app_nil_str.
  - rewrite Nat.add_succ_r. cbn [hex_width]. rewrite Nat2Z.inj_succ, Z.pow_succ_r in * by lia.
    replace (x * (16 * 16 ^ Z.of_nat m) + y) with ((x * 16 ^ Z.of_nat m) * 16 + y) by lia.
    rewrite Z.div_add_l, (Z.add_comm _ y), Z.mod_add by lia.
    rewrite IH, app_assoc_str; [done|done|].
    split; [apply Z.div_pos; lia|]. apply Z.div_lt_upper_bound; lia.
Qed.

Lemma hex_width_zero n : hex_width n 0 = Nat.iter n (String.append "0") "".
Proof.
  induction n as [|n IH]; [done|]. replace (S n) with (1 + n)%nat by lia.
  pose proof (hex_width_app 1 n 0 0) as H. rewrite Z.mul_0_l, Z.add_0_l in H. rewrite H, IH; [done|lia|].
  split; [lia|]. apply Z.pow_pos_nonneg; lia.
Qed.

Lemma iter_zero_app n s : Nat.iter n (String.append "0") "" +:+ s = Nat.iter n (String.append "0") s.
Proof. induction n as [|n IH]; [done|]. exact (f_equal (String.append "0") IH). Qed.

(** What [{:x}] prints: the digits from the first that is not zero. *)
Lemma lower_hex_aux_spec fuel x acc :
  0 <= x < 16 ^ Z.of_nat fuel -> (0 < fuel)%nat ->
  exists d, (0 < d)%nat /\ lower_hex_aux fuel x acc = hex_width d x +:+ acc /\
    x < 16 ^ Z.of_nat d /\ (d = 1%nat \/ 16 ^ (Z.of_nat d - 1) <= x).
Proof.
  revert x acc. induction fuel as [|fuel IH]; intros x acc Hx Hf; [lia|]. cbn [lower_hex_aux].
  destruct (x <? 16)%Z eqn:E; reflect_bool.
  - exists 1%nat. split_and!; [lia| |lia|by left]. cbn [hex_width].
    done.
  - rewrite Nat2Z.inj_succ, Z.pow_succ_r in Hx by lia.
    destruct (IH (x / 16) (hex_digit (x mod 16) +:+ acc)) as (d & Hd & -> & Hlt & Hge).
    + split; [apply Z.div_pos; lia|apply Z.div_lt_upper_bound; lia].
    + destruct fuel; [|lia]. change (16 ^ Z.of_nat 0) with 1 in Hx. lia.
    + exists (S d). split_and!; [lia|cbn [hex_width]; by rewrite app_assoc_str| |right].
      * rewrite Nat2Z.inj_succ, Z.pow_succ_r by lia. pose proof (Z.div_mod x 16 ltac:(lia)); pose proof (Z.mod_pos_bound x 16 ltac:(lia)). lia.
      * rewrite Nat2Z.inj_succ, <-Z.add_1_r, Z.add_simpl_r.
        replace (Z.of_nat d) with (Z.succ (Z.of_nat d - 1)) by lia. rewrite Z.pow_succ_r by lia.
        pose proof (Z.div_mod x 16 ltac:(lia)); pose proof (Z.mod_pos_bound x 16 ltac:(lia)). destruct Hge as [->|Hge]; [|lia].
        change (16 ^ (Z.of_nat 1 - 1)) with 1. lia.
Qed.

Lemma pad_hex_width w x :
  0 <= x < 16 ^ Z.of_nat w -> (0 < w <= 16)%nat -> pad_hex w x = hex_width w x.
Proof.
  intros Hx Hw. unfold pad_hex, lower_hex.
  destruct (lower_hex_aux_spec 16 x "") as (d & Hd & -> & Hlt & Hge);
    [split; [lia|]; eapply Z.lt_le_trans; [apply Hx|]; apply Z.pow_le_mono_r; lia|lia|].
  rewrite app_nil_str, hex_width_length by lia.
  assert (d <= w)%nat as Hdw.
  { destruct Hge as [->|Hge]; [lia|]. destruct (le_lt_dec d w) as [|Hlt']; [done|].
    assert (16 ^ Z.of_nat w <= 16 ^ (Z.of_nat d - 1)); [apply Z.pow_le_mono_r; lia|lia]. }
  rewrite <-iter_zero_app, <-hex_width_zero.
  pose proof (hex_width_app (w - d) d 0 x) as H. rewrite Z.mul_0_l, Z.add_0_l in H. rewrite <-H by lia.
  f_equal; lia.
Qed.

(** The digits of bytes, most significant first. *)
Lemma hex_bytes_app l l' : hex_bytes (l ++ l')%list = hex_bytes l +:+ hex_bytes l'.
Proof.
  induction l as [|b l IH]; [done|]. cbn [app hex_bytes foldr]. fold (hex_bytes (l ++ l')%list).
  fold (hex_bytes l). by rewrite IH, app_assoc_str.
Qed.

Lemma hex_width_bytes l :
  Forall is_byte l -> hex_width (2 * length l) (be_combine l) = hex_bytes l.
Proof.
  induction l as [|b l IH] using rev_ind; [done|]. intros [Hl Hb]%Forall_app.
  rewrite Forall_singleton in Hb. rewrite be_combine_snoc, hex_bytes_app, length_app.
  replace (2 * (length l + length [b]))%nat with (2 * length l + 2)%nat by (cbn; lia).
  change 256 with (16 ^ Z.of_nat 2). rewrite hex_width_app; [|by apply be_combine_range|exact Hb].
  rewrite IH by done. f_equal. cbn [hex_width hex_bytes foldr]. rewrite app_nil_str.
  unfold is_byte, in_u in Hb. rewrite (Z.mod_small (b / 16)); [done|].
  split; [apply Z.div_pos; lia|apply Z.div_lt_upper_bound; lia].
Qed.

Lemma pad_hex_bytes w l :
  Forall is_byte l -> w = (2 * length l)%nat -> (0 < w <= 16)%nat -> pad_hex w (be_combine l) = hex_bytes l.
Proof.
  intros Hl -> Hw. rewrite pad_hex_width, hex_width_bytes; [done..| |done].
  pose proof (be_combine_range l Hl) as H. unfold len in H.
  rewrite Nat2Z.inj_mul, Z.pow_mul_r by lia. exact H.
Qed.

(** ** Both crates *)
Section Agreement.
Context `{UuidCrateOk}.

Lemma uuid_bytes_split b :
  uuid_bytes b ->
  Forall is_byte (take 4 b) /\ Forall is_byte (take 2 (drop 4 b)) /\
  Forall is_byte (take 2 (drop 6 b)) /\ Forall is_byte (drop 8 b) /\
  length (take 4 b) = 4%nat /\ length (take 2 (drop 4 b)) = 2%nat /\
  length (take 2 (drop 6 b)) = 2%nat /\ length (drop 8 b) = 8%nat.
Proof.
  intros [Hl Hb]. rewrite !length_take, !length_drop, Hl.
  split_and!; auto using Forall_take, Forall_drop.
Qed.

(** The fields of sixteen bytes. *)
Definition fields_of (b : bytes) : TEE_UUID :=
  mkTeeUuid (be_combine (take 4 b)) (be_combine (take 2 (drop 4 b)))
    (be_combine (take 2 (drop 6 b))) (drop 8 b).

Lemma fields_wf b : uuid_bytes b -> tee_uuid_wf (fields_of b).
Proof.
  intros Hu. destruct (uuid_bytes_split b Hu) as (H1 & H2 & H3 & H4 & L1 & L2 & L3 & L4).
  pose proof (be_combine_range _ H1) as R1. pose proof (be_combine_range _ H2) as R2.
  pose proof (be_combine_range _ H3) as R3. unfold len in R1, R2, R3. rewrite L1 in R1.
  rewrite L2 in R2. rewrite L3 in R3. by split_and!.
Qed.

Lemma utee_from_bytes b : uuid_bytes b -> Utee.from_bytes b = Utee.mkUuid (fields_of b).
Proof. intros Hu. unfold Utee.from_bytes. by rewrite as_fields_spec. Qed.

Lemma teec_from_bytes b : uuid_bytes b -> Teec.from_bytes b = Teec.mkUuid (fields_of b).
Proof. intros Hu. unfold Teec.from_bytes. by rewrite as_fields_spec. Qed.

(** Printing the fields gives the canonical string. *)
Lemma fmt_fields b : uuid_bytes b -> Utee.fmt (Utee.mkUuid (fields_of b)) = hyphenated b.
Proof.
  intros Hu. destruct (uuid_bytes_split b Hu) as (H1 & H2 & H3 & H4 & L1 & L2 & L3 & L4).
  unfold Utee.fmt, hyphenated, fields_of. cbn [Utee.raw timeLow timeMid timeHiAndVersion clockSeqAndNode].
  rewrite (pad_hex_bytes 8 (take 4 b)), (pad_hex_bytes 4 (take 2 (drop 4 b))),
    (pad_hex_bytes 4 (take 2 (drop 6 b))) by (done || lia).
  rewrite (take_ge (drop 8 b) 8) by lia. rewrite !hex_encode_spec by auto using Forall_take, Forall_drop.
  by rewrite drop_drop.
Qed.

Lemma teec_fmt_fields b : uuid_bytes b -> Teec.fmt (Teec.mkUuid (fields_of b)) = hyphenated b.
Proof. exact (fmt_fields b). Qed.

Lemma utee_parse s :
  Utee.parse_str s
  = match crate_parse_str s with
    | Some b => Ok (Utee.mkUuid (fields_of b))
    | None => Err (UteeError.Error.from_kind UteeError.ErrorKind.BadFormat)
    end.
Proof.
  unfold Utee.parse_str. destruct (crate_parse_str s) as [b|] eqn:E; [|done].
  by rewrite as_fields_spec by by eapply parse_is_uuid.
Qed.

Lemma teec_parse s :
  Teec.parse_str s
  = match crate_parse_str s with
    | Some b => Ok (Teec.mkUuid (fields_of b))
    | None => Err (TeecError.Error.from_kind TeecError.ErrorKind.BadFormat)
    end.
Proof.
  unfold Teec.parse_str. destruct (crate_parse_str s) as [b|] eqn:E; [|done].
  by rewrite as_fields_spec by by eapply parse_is_uuid.
Qed.

(** A UUID means the same on both sides.  A string that one crate parses the
    other does, to the same fields, which are in range; both print the same string,
    which parses back to the same UUID; sixteen bytes are printed as their
    canonical string by both, and a slice is accepted exactly when it has sixteen
    bytes. *)
Lemma uuid_strings_agree :
  (forall s u, Utee.parse_str s = Ok u ->
     tee_uuid_wf (Utee.raw u) /\ Teec.parse_str s = Ok (Teec.mkUuid (Utee.raw u)) /\
     Teec.fmt (Teec.mkUuid (Utee.raw u)) = Utee.fmt u /\ Utee.parse_str (Utee.fmt u) = Ok u) /\
  (forall s u, Teec.parse_str s = Ok u -> Utee.parse_str s = Ok (Utee.mkUuid (Teec.raw u))) /\
  (forall b, uuid_bytes b ->
     Utee.fmt (Utee.from_bytes b) = hyphenated b /\ Teec.fmt (Teec.from_bytes b) = hyphenated b) /\
  (forall b, Forall is_byte b ->
     Utee.from_slice b = if decide (length b = 16%nat) then Ok (Utee.from_bytes b)
                         else Err (UteeError.Error.from_kind UteeError.ErrorKind.BadFormat)).
Proof.
  split_and!.
  - intros s u. rewrite utee_parse, teec_parse. destruct (crate_parse_str s) as [b|] eqn:E; [|done].
    intros [= <-]. apply parse_is_uuid in E. split_and!; [by apply fields_wf|done|done|].
    rewrite fmt_fields, utee_parse by done. by rewrite parse_hyphenated.
  - intros s u. rewrite utee_parse, teec_parse. by destruct (crate_parse_str s); intros [= <-].
  - intros b Hb. rewrite utee_from_bytes, teec_from_bytes, fmt_fields, teec_fmt_fields by done. done.
  - intros b Hb. unfold Utee.from_slice, Utee.from_bytes. rewrite from_slice_spec by done.
    case_decide; [|done]. by destruct (crate_as_fields b) as [[[? ?] ?] ?].
Qed.

End Agreement.

(** ** An instance: the crates, on canonical strings *)
Module PlainUuids.

Definition hex_value (c : Ascii.ascii) : option Z :=
  match list_find (fun d => hex_digit (Z.of_nat d) = String c "") (seq 0 16) with
  | Some (_, d) => Some (Z.of_nat d)
  | None => None
  end.

Fixpoint decode (s : string) : option bytes :=
  match s with
  | "" => Some []
  | String c (String d r) =>
      x ← hex_value c; y ← hex_value d; l ← decode r; Some (16 * x + y :: l)%Z
  | String _ "" => None
  end.

Fixpoint no_hyphens (s : string) : string :=
  match s with
  | "" => ""
  | String c r => if decide (String c "" = "-") then no_hyphens r else String c (no_hyphens r)
  end.

Definition parse (s : string) : option bytes :=
  match decode (no_hyphens s) with
  | Some b => if decide (length b = 16%nat /\ Forall is_byte b) then Some b else None
  | None => None
  end.

#[export] Instance plain_uuids : UuidCrate := {|
  crate_parse_str := parse;
  crate_from_slice b := if decide (length b = 16%nat) then Some b else None;
  crate_as_fields b := (be_combine (take 4 b), be_combine (take 2 (drop 4 b)),
                        be_combine (take 2 (drop 6 b)), drop 8 b);
  crate_from_bytes_le b := rev (take 4 b) ++ rev (take 2 (drop 4 b)) ++ rev (take 2 (drop 6 b))
                           ++ drop 8 b;
  crate_to_string := hyphenated;
  hex_encode := hex_bytes
|}%list.

Lemma no_hyphens_app s t : no_hyphens (s +:+ t) = no_hyphens s +:+ no_hyphens t.
Proof.
  induction s as [|c s IH]; [done|]. change (String c s +:+ t) with (String c (s +:+ t)).
  cbn [no_hyphens]. case_decide; [done|]. rewrite IH. done.
Qed.

Definition plain_byte (b : Z) : bool :=
  match hex_byte b with
  | String c (String d "") =>
      match hex_value c, hex_value d with
      | Some x, Some y =>
          bool_decide (16 * x + y = b)%Z && negb (bool_decide (String c "" = "-"))
          && negb (bool_decide (String d "" = "-"))
      | _, _ => false
      end
  | _ => false
  end.

Lemma all_bytes_plain b : is_byte b -> plain_byte b = true.
Proof.
  intros Hb. unfold is_byte, in_u in Hb. rewrite <-(Z2Nat.id b) by lia.
  assert (forallb (fun n => plain_byte (Z.of_nat n)) (seq 0 256) = true) as Hall by by vm_compute.
  rewrite forallb_forall in Hall. apply Hall. apply in_seq. lia.
Qed.

Lemma decode_hex_bytes l r :
  Forall is_byte l ->
  no_hyphens (hex_bytes l +:+ r) = hex_bytes l +:+ no_hyphens r /\
  decode (hex_bytes l +:+ r) = l' ← decode r; Some (l ++ l')%list.
Proof.
  induction 1 as [|b l Hb _ [IH1 IH2]]; [change (hex_bytes [] +:+ r) with r; split; [done|]|].
  { by destruct (decode r) as [l'|]. }
  cbn [hex_bytes foldr]. fold (hex_bytes l). rewrite !app_assoc_str.
  pose proof (all_bytes_plain b Hb) as Hp. unfold plain_byte in Hp.
  destruct (hex_byte b) as [|c [|d [|? ?]]]; try done.
  destruct (hex_value c) as [x|] eqn:Ex; [|done]. destruct (hex_value d) as [y|] eqn:Ey; [|done].
  apply andb_true_iff in Hp as [[Hxy Hc]%andb_true_iff Hd].
  apply bool_decide_eq_true in Hxy. apply negb_true_iff, bool_decide_eq_false in Hc, Hd.
  change (String c (String d "") +:+ (hex_bytes l +:+ r))
    with (String c (String d (hex_bytes l +:+ r))).
  change (String c (String d "") +:+ (hex_bytes l +:+ no_hyphens r))
    with (String c (String d (hex_bytes l +:+ no_hyphens r))).
  cbn [no_hyphens decode]. rewrite !decide_False, IH1, Ex, Ey, IH2 by done. split; [done|].
  cbn [mbind option_bind]. destruct (decode r); [|done]. cbn. by rewrite Hxy.
Qed.

Lemma parse_canonical b : uuid_bytes b -> parse (hyphenated b) = Some b.
Proof.
  intros Hu. pose proof Hu as [Hl Hb]. unfold parse, hyphenated.
  assert (forall l r, Forall is_byte l -> no_hyphens (hex_bytes l +:+ ("-" +:+ r))
    = hex_bytes l +:+ no_hyphens r) as Hn by (intros l r Hf; by rewrite (proj1 (decode_hex_bytes l _ Hf))).
  rewrite !Hn by auto using Forall_take, Forall_drop.
  rewrite <-(app_nil_str (hex_bytes (drop 10 b))).
  rewrite (proj1 (decode_hex_bytes (drop 10 b) "" (Forall_drop _ _ _ Hb))).
  rewrite !(fun l r Hf => proj2 (decode_hex_bytes l r Hf)) by auto using Forall_take, Forall_drop.
  cbn [decode no_hyphens mbind option_bind]. rewrite app_nil_r.
  assert (take 4 b ++ take 2 (drop 4 b) ++ take 2 (drop 6 b) ++ take 2 (drop 8 b) ++ drop 10 b = b)%list as ->.
  { assert (forall k, take 2 (drop k b) ++ drop (k + 2) b = drop k b)%list as Hk
      by (intros k; rewrite <-drop_drop; apply take_drop).
    pose proof (Hk 8%nat) as H8. pose proof (Hk 6%nat) as H6. pose proof (Hk 4%nat) as H4.
    cbn [Nat.add] in H4, H6, H8. rewrite H8, H6, H4. apply take_drop. }
  by rewrite decide_True.
Qed.

#[export] Instance plain_uuids_ok : UuidCrateOk.
Proof.
  split; try done.
  - exact parse_canonical.
  - cbn. unfold parse. intros s b. destruct (decode (no_hyphens s)) as [l|]; [|done].
    case_decide as Hd; [|done]. by intros [= <-].
Qed.

Lemma uuid_strings_agree_witness :
  exists u, Utee.parse_str "8abcf200-2450-11e4-abe2-0002a5d5c51b" = Ok u /\
    Utee.fmt u = "8abcf200-2450-11e4-abe2-0002a5d5c51b" /\
    Teec.parse_str "8abcf200-2450-11e4-abe2-0002a5d5c51b" = Ok (Teec.mkUuid (Utee.raw u)).
Proof.
  destruct uuid_strings_agree as (Hs & _).
  exists (Utee.mkUuid (mkTeeUuid 0x8abcf200 0x2450 0x11e4 [0xab; 0xe2; 0; 2; 0xa5; 0xd5; 0xc5; 0x1b])).
  assert (Utee.parse_str "8abcf200-2450-11e4-abe2-0002a5d5c51b" = Ok _) as E by (vm_compute; reflexivity).
  split; [exact E|]. split; [by vm_compute|]. by apply (Hs _ _ E).
Defined.

End PlainUuids.
