(* ===== verification/TaSession.v ===== *)
(** * TaSession: sessions from one TA to another

    Models [crates/optee-utee/src/ta_session.rs].  The three TEE calls
    ([TEE_OpenTASession], [TEE_InvokeTACommand], [TEE_CloseTASession]) are an
    interface over the TEE's state, with the set of sessions the TEE holds open
    as its observable part.  [Drop] of a [TaSession] is the definition [session_drop];
    where the source drops a value on an early return, the model calls it. *)

From S2P Require Import Prelude TeeDefines UteeError Memory Params TeeParams TeeParamsSpec Uuids.

(** ** The TEE's side *)

Record open_answer : Type := mkOpenAnswer {
  oa_code : Z; oa_origin : Z; oa_session : Z; oa_params : option (list TEE_Param)
}.
Record invoke_answer : Type := mkInvokeAnswer {
  ia_code : Z; ia_origin : Z; ia_params : list TEE_Param
}.

Class TeeTaApi (St : Type) : Type := {
  TEE_OpenTASession :
    TEE_UUID -> Z -> Z -> option (list TEE_Param) -> St -> open_answer * St;
  TEE_InvokeTACommand :
    Z -> Z -> Z -> Z -> list TEE_Param -> St -> invoke_answer * St;
  TEE_CloseTASession : Z -> St -> outcome St;
  sessions : St -> gset Z;
}.

(** Documented behaviour: a successful open gives a new session, a failed one
    none; an invocation opens and closes nothing; a session that is open can be
    closed; the parameter array is answered in place. *)
Class TeeTaApiOk (St : Type) `{TeeTaApi St} : Prop := {
  open_success uuid t ty ps s :
    oa_code (TEE_OpenTASession uuid t ty ps s).1 = TEE_SUCCESS ->
    (oa_session (TEE_OpenTASession uuid t ty ps s).1 ∉ sessions s) /\
    sessions (TEE_OpenTASession uuid t ty ps s).2
      = {[oa_session (TEE_OpenTASession uuid t ty ps s).1]} ∪ sessions s;
  open_failure uuid t ty ps s :
    oa_code (TEE_OpenTASession uuid t ty ps s).1 <> TEE_SUCCESS ->
    sessions (TEE_OpenTASession uuid t ty ps s).2 = sessions s;
  open_params uuid t ty ps s :
    length <$> oa_params (TEE_OpenTASession uuid t ty ps s).1 = length <$> ps;
  invoke_sessions h t c ty ps s :
    sessions (TEE_InvokeTACommand h t c ty ps s).2 = sessions s;
  invoke_params h t c ty ps s :
    length (ia_params (TEE_InvokeTACommand h t c ty ps s).1) = length ps;
  close_open h s :
    h ∈ sessions s ->
    exists s', TEE_CloseTASession h s = Ret s' /\ sessions s' = sessions s ∖ {[h]};
}.

(** ** The crate's side *)

Record TaSessionBuilder : Type := mkBuilder {
  target_uuid : Utee.Uuid; timeout : Z; bparams : option TeeParams
}.
Record TaSession : Type := mkTaSession { raw : Z }.

Definition builder_new (uuid : Utee.Uuid) : TaSessionBuilder :=
  mkBuilder uuid TEE_TIMEOUT_INFINITE None.
Definition with_timeout (b : TaSessionBuilder) (t : Z) : TaSessionBuilder :=
  mkBuilder (target_uuid b) t (bparams b).
Definition with_params (b : TaSessionBuilder) (ps : TeeParams) : TaSessionBuilder :=
  mkBuilder (target_uuid b) (timeout b) (Some ps).

Section Session.
Context `{!Target} {St : Type} `{!TeeTaApi St}.

(** [impl Drop for TaSession]. *)
Definition session_drop (self : TaSession) : prog St unit :=
  fun s => outcome_bind (TEE_CloseTASession (raw self) s) (fun s' => Ret (tt, s')).

Definition call_open (uuid : TEE_UUID) (t ty : Z) (ps : option (list TEE_Param))
    : prog St open_answer := fun s => Ret (TEE_OpenTASession uuid t ty ps s).
Definition call_invoke (h t c ty : Z) (ps : list TEE_Param)
    : prog St invoke_answer := fun s => Ret (TEE_InvokeTACommand h t c ty ps s).

Definition build (self : TaSessionBuilder) : prog St (Result TaSession) :=
  let raw_param_types :=
    match bparams self with Some ps => TeeParamsOps.raw_param_types ps | None => 0 end in
  let raw_params_opt := TeeParamsOps.as_raw <$> bparams self in
  let* ans := call_open (Utee.as_raw (target_uuid self)) (timeout self) raw_param_types raw_params_opt in
  let? _ := pret (tee_check_with_origin (oa_code ans) (oa_origin ans)) in
  let session := mkTaSession (oa_session ans) in
  match bparams self, oa_params ans with
  | Some ps, Some raw_params =>
      match (TeeParamsOps.update_from_raw ps raw_params).1 with
      | Ok _ => pret (Ok session)
      | Err e => let* _ := session_drop session in pret (Err e)
      end
  | _, _ => pret (Ok session)
  end.

Definition invoke_command_with_timeout (self : TaSession) (command_id : Z)
    (ps : TeeParams) (t : Z) : prog St (Result unit * TeeParams) :=
  let raw_params := TeeParamsOps.as_raw ps in
  let param_types := TeeParamsOps.raw_param_types ps in
  let* ans := call_invoke (raw self) t command_id param_types raw_params in
  match tee_check_with_origin (ia_code ans) (ia_origin ans) with
  | Err e => pret (Err e, ps)
  | Ok _ => pret (TeeParamsOps.update_from_raw ps (ia_params ans))
  end.

Definition invoke_command (self : TaSession) (command_id : Z) (ps : TeeParams)
    : prog St (Result unit * TeeParams) :=
  invoke_command_with_timeout self command_id ps TEE_TIMEOUT_INFINITE.

End Session.

(** ** Sessions are neither leaked nor closed twice *)

(** A client: build a session, invoke commands in turn (each with the
    parameters the previous one left, stopping at nothing), drop it. *)
Fixpoint invoke_all `{!Target, TeeTaApi St} (sess : TaSession) (cmds : list Z)
    (ps : TeeParams) : prog St TeeParams :=
  match cmds with
  | [] => pret ps
  | c :: cmds' => let* r := invoke_command sess c ps in invoke_all sess cmds' r.2
  end.

Definition use_session `{!Target, TeeTaApi St} (b : TaSessionBuilder) (cmds : list Z)
    (ps : TeeParams) : prog St (Result TeeParams) :=
  let? sess := build b in
  let* ps' := invoke_all sess cmds ps in
  let* _ := session_drop sess in
  pret (Ok ps').

Section Session_lemmas.
Context `{!Target} {St : Type} `{!TeeTaApi St, !TeeTaApiOk St}.

Lemma drop_open sess (s : St) :
  raw sess ∈ sessions s ->
  exists s', session_drop sess s = Ret (tt, s') /\ sessions s' = sessions s ∖ {[raw sess]}.
Proof.
  intros Hin. destruct (close_open (raw sess) s Hin) as (s' & E & Hs).
  exists s'. unfold session_drop. by rewrite E.
Qed.

Lemma build_spec b (s : St) :
  exists r s', build b s = Ret (r, s') /\
    match r with
    | Ok sess => (raw sess ∉ sessions s) /\ sessions s' = {[raw sess]} ∪ sessions s
    | Err _ => sessions s' = sessions s
    end.
Proof.
  unfold build, call_open. cbv zeta. unfold pbind at 1.
  match goal with |- context [TEE_OpenTASession ?u ?t ?ty ?ps s] =>
    pose proof (open_success u t ty ps s) as Hok;
    pose proof (open_failure u t ty ps s) as Hko;
    destruct (TEE_OpenTASession u t ty ps s) as [ans s1] end.
  cbn [fst snd] in Hok, Hko. unfold tee_check_with_origin. case_if.
  - destruct (Hok ltac:(done)) as [Hnew Hs1]. erewrite ptry_Ok by done.
    destruct (bparams b) as [ps|]; [|eexists _, _; split; [reflexivity|done]].
    destruct (oa_params ans) as [raws|]; [|eexists _, _; split; [reflexivity|done]].
    destruct ((TeeParamsOps.update_from_raw ps raws).1) as [u|e];
      [eexists _, _; split; [reflexivity|done]|].
    destruct (drop_open (mkTaSession (oa_session ans)) s1) as (s2 & E & Hs2);
      [cbn; rewrite Hs1; set_solver|].
    erewrite pbind_Ret by done. eexists _, _. split; [reflexivity|].
    cbn in Hs2 |- *. rewrite Hs2, Hs1. set_solver.
  - erewrite ptry_Err by done. eexists _, _. split; [reflexivity|]. cbn. by apply Hko.
Qed.

Lemma invoke_command_sessions sess c ps (s : St) :
  exists r s', invoke_command sess c ps s = Ret (r, s') /\ sessions s' = sessions s.
Proof.
  unfold invoke_command, invoke_command_with_timeout, call_invoke. cbv zeta. unfold pbind.
  match goal with |- context [TEE_InvokeTACommand ?h ?t ?c ?ty ?ps s] =>
    pose proof (invoke_sessions h t c ty ps s) as Hs;
    destruct (TEE_InvokeTACommand h t c ty ps s) as [ans s1] end.
  destruct (tee_check_with_origin _ _); eexists _, _; (split; [reflexivity|done]).
Qed.

Lemma invoke_all_sessions sess cmds : forall ps (s : St),
  exists ps' s', invoke_all sess cmds ps s = Ret (ps', s') /\ sessions s' = sessions s.
Proof.
  induction cmds as [|c cmds IH]; intros ps s; cbn [invoke_all]; [eauto|].
  destruct (invoke_command_sessions sess c ps s) as (r & s1 & E & Hs).
  erewrite pbind_Ret by done. destruct (IH r.2 s1) as (ps' & s2 & E2 & Hs2).
  exists ps', s2. split; [done|congruence].
Qed.

(** C19: inter-TA sessions are never leaked and never closed twice.  Building a
    session either fails and leaves the TEE's open sessions as they were (also
    when the callee's answer is rejected after the session was opened), or opens
    exactly one new session; and a client that builds, invokes any sequence of
    commands and drops the session ends with the sessions it started with. *)
Theorem sessions_balanced b cmds ps (s : St) :
  (exists r s', build b s = Ret (r, s') /\
    match r with
    | Ok sess => (raw sess ∉ sessions s) /\ sessions s' = {[raw sess]} ∪ sessions s
    | Err _ => sessions s' = sessions s
    end) /\
  (exists r s', use_session b cmds ps s = Ret (r, s') /\ sessions s' = sessions s).
Proof.
  split; [apply build_spec|].
  destruct (build_spec b s) as (r & s1 & E & Hr). unfold use_session.
  destruct r as [sess|e]; [|by erewrite ptry_Err; eauto].
  erewrite ptry_Ok by done. destruct Hr as [Hnew Hs1].
  destruct (invoke_all_sessions sess cmds ps s1) as (ps' & s2 & E2 & Hs2).
  erewrite pbind_Ret by done.
  destruct (drop_open sess s2) as (s3 & E3 & Hs3); [rewrite Hs2, Hs1; set_solver|].
  erewrite pbind_Ret by done. eexists _, _. split; [reflexivity|].
  rewrite Hs3, Hs2, Hs1. set_solver.
Qed.

(** An invocation reports what the TEE reported: on a TEE error the
    parameters are untouched and the error carries the TEE's code and origin; on
    success the answer is taken over as [update_from_raw] does, so the call
    fails exactly when a reported size does not fit its buffer. *)
Lemma invoke_command_correct sess c ps (s : St) :
  length (params ps) = 4%nat ->
  exists ans s1,
    TEE_InvokeTACommand (raw sess) TEE_TIMEOUT_INFINITE c (TeeParamsOps.raw_param_types ps)
      (TeeParamsOps.as_raw ps) s = (ans, s1) /\
    exists r ps', invoke_command sess c ps s = Ret ((r, ps'), s1) /\
      (ia_code ans <> TEE_SUCCESS ->
         ps' = ps /\ exists e, r = Err e /\ Error.raw_code e = ia_code ans /\
           Error.origin e = Some (ErrorOrigin.from_u32 (ia_origin ans))) /\
      (ia_code ans = TEE_SUCCESS ->
         (r = Ok tt <-> Forall2 (fun p a => answer_fits p a = true) (params ps) (ia_params ans)) /\
         (r = Ok tt -> params ps' = zip_with answered (params ps) (ia_params ans))).
Proof.
  intros Hlen. unfold invoke_command, invoke_command_with_timeout, call_invoke. cbv zeta.
  unfold pbind.
  match goal with |- context [TEE_InvokeTACommand ?h ?t ?c ?ty ?ps s] =>
    pose proof (invoke_params h t c ty ps s) as Hp;
    destruct (TEE_InvokeTACommand h t c ty ps s) as [ans s1] end.
  exists ans, s1. split; [done|]. cbn [fst] in Hp. unfold TeeParamsOps.as_raw in Hp.
  rewrite length_map in Hp. unfold tee_check_with_origin. case_if.
  - destruct (TeeParamsOps.update_from_raw ps (ia_params ans)) as [r ps'] eqn:E.
    exists r, ps'. split; [done|]. split; [done|]. intros _. unfold TeeParamsOps.update_from_raw in E.
    destruct (update_loop_spec (params ps) (ia_params ans) ltac:(done))
      as [[E1 Hall]|(k & p & a & Hk & Ha & Hf & _ & E1)]; rewrite E1 in E;
      injection E as <- <-; [done|].
    split; [|done]. split; [done|]. intros Hall. exfalso.
    pose proof (Forall2_lookup_lr _ _ _ _ _ _ Hall Hk Ha) as Hf'. cbn in Hf'. congruence.
  - eexists _, _. split; [reflexivity|]. split; [|done]. intros _. split; [done|].
    eexists. split; [reflexivity|]. split; [|done]. apply from_raw_error_code.
Qed.

End Session_lemmas.

(** ** A TEE for the properties

    It opens a session under a fresh handle for every UUID but the nil one,
    echoes the parameters, and panics when a session that is not open is
    closed. *)

Module EchoTee.

#[local] Instance echo_target : Target := 64.

Definition echo_uuid (low : Z) : Utee.Uuid := Utee.new_raw low 0 0 (repeat 0 8).

Definition echo_open (uuid : TEE_UUID) (_t _ty : Z) (ps : option (list TEE_Param))
    (s : gset Z) : open_answer * gset Z :=
  if timeLow uuid =? 0 then
    (mkOpenAnswer TEE_ERROR_ITEM_NOT_FOUND TEE_ORIGIN_TEE 0 ps, s)
  else (mkOpenAnswer TEE_SUCCESS 0 (fresh s) ps, {[fresh s]} ∪ s).

#[local] Instance echo_tee : TeeTaApi (gset Z) := {|
  TEE_OpenTASession := echo_open;
  TEE_InvokeTACommand h t c ty ps s := (mkInvokeAnswer TEE_SUCCESS 0 ps, s);
  TEE_CloseTASession h s := if bool_decide (h ∈ s) then Ret (s ∖ {[h]}) else Panic;
  sessions s := s;
|}.

#[local] Instance echo_tee_ok : TeeTaApiOk (gset Z).
Proof.
  split; cbn; unfold echo_open; intros; try (destruct (timeLow _ =? 0)); cbn in *; try done.
  - split; [apply is_fresh|done].
  - rewrite bool_decide_eq_true_2 by done. eauto.
Qed.

Definition echo_params : TeeParams :=
  TeeParamsOps.with_value_inout TeeParamsOps.new ParamIndex.Arg0 1 2.

Lemma sessions_balanced_witness :
  exists r s', use_session (builder_new (echo_uuid 1)) [7; 8] echo_params (∅ : gset Z) = Ret (r, s') /\ s' = ∅.
Proof.
  destruct (sessions_balanced (builder_new (echo_uuid 1)) [7; 8] echo_params (∅ : gset Z))
    as [_ (r & s' & E & Hs)].
  by exists r, s'.
Defined.

Lemma invoke_command_correct_witness :
  exists r ps' s', invoke_command (mkTaSession 5) 7 echo_params ({[5]} : gset Z) = Ret ((r, ps'), s').
Proof.
  destruct (invoke_command_correct (mkTaSession 5) 7 echo_params ({[5]} : gset Z))
    as (ans & s1 & _ & r & ps' & E & _); [done|].
  by exists r, ps', s1.
Defined.

End EchoTee.
