(* ===== verification/EntryPoints.v ===== *)
(** * EntryPoints: the five entry points the attribute macros generate

    Models [crates/optee-utee-macros/src/lib.rs]: the signature checks of the
    macros (over the parts of [syn::ItemFn] they look at), and the entry points
    they generate around the TA author's functions.  The author's functions are
    parameters.  [Box::into_raw]/[Box::from_raw]/[forget]/[drop] of session
    contexts act on a heap of boxes. *)

From S2P Require Import Prelude TeeDefines UteeError Memory Params.

(** ** The macros' checks *)

Module Macros.

(** A type as the macros compare it: its tokens. *)
Inductive ty : Type :=
| TyRef (is_mut : bool) (elem : ty)
| TyOther (tokens : string).

#[global] Instance ty_eq_dec : EqDecision ty.
Proof. solve_decision. Defined.

Inductive FnArg : Type := Receiver | Typed (t : ty).

Record ItemFn : Type := mkItemFn {
  constness : bool;
  vis_inherited : bool;
  abi : bool;
  inputs : list FnArg;
  where_clause : bool;
  variadic : bool;
  output_default : bool;
}.

(** What the macro expands to: a compile error, or an entry point that passes
    no session context ([None]) or one of the given type. *)
Inductive expansion : Type :=
| CompileError (message : string)
| EntryPoint (ctx_type : option ty).

(** The condition all five macros share. *)
Definition plain_fn (f : ItemFn) : bool :=
  negb (constness f) && vis_inherited f && negb (abi f)
  && negb (where_clause f) && negb (variadic f).

Definition extract_fn_arg_mut_ref_type (a : FnArg) : option ty :=
  match a with
  | Typed (TyRef true elem) => Some elem
  | _ => None
  end.

Definition ctx_or_error (a : option FnArg) : expansion :=
  match a with
  | Some a =>
      match extract_fn_arg_mut_ref_type a with
      | Some t => EntryPoint (Some t)
      | None => CompileError "this argument should have signature `_: &mut T`"
      end
  | None => CompileError ""
  end.

Definition ta_create (f : ItemFn) : expansion :=
  if plain_fn f && (length (inputs f) =? 0)%nat then EntryPoint None
  else CompileError "`#[ta_crate]` function must have signature `fn() -> optee_utee::Result<()>`".

Definition ta_destroy (f : ItemFn) : expansion :=
  if plain_fn f && (length (inputs f) =? 0)%nat && output_default f then EntryPoint None
  else CompileError "`#[ta_destroy]` function must have signature `fn()`".

Definition ta_open_session (f : ItemFn) : expansion :=
  if plain_fn f && ((length (inputs f) =? 1)%nat || (length (inputs f) =? 2)%nat) then
    if (length (inputs f) =? 1)%nat then EntryPoint None
    else ctx_or_error (inputs f !! 1%nat)
  else CompileError "`#[ta_open_session]` function must have signature `fn(&mut P) -> Result<()>` or `fn(&mut P, &mut T) -> Result<()>`".

Definition ta_close_session (f : ItemFn) : expansion :=
  if plain_fn f && ((length (inputs f) =? 0)%nat || (length (inputs f) =? 1)%nat)
     && output_default f then
    if (length (inputs f) =? 0)%nat then EntryPoint None
    else ctx_or_error (inputs f !! 0%nat)
  else CompileError "`#[ta_close_session]` function must have signature `fn(&mut T)` or `fn()`".

Definition ta_invoke_command (f : ItemFn) : expansion :=
  if plain_fn f && ((length (inputs f) =? 2)%nat || (length (inputs f) =? 3)%nat) then
    if (length (inputs f) =? 2)%nat then EntryPoint None
    else ctx_or_error (inputs f !! 0%nat)
  else CompileError "`#[ta_invoke_command]` function must have signature `fn(u32, &mut P) -> Result<()>` or `fn(&mut T, u32, &mut P) -> Result<()>`".

(** The associated type [Context] of an entry point ([c_void] without one). *)
Definition context_of (t : option ty) : ty :=
  match t with Some t => t | None => TyOther "core::ffi::c_void" end.

(** The three session functions of a TA compile together: each expands, and the
    bounds [Context = ...] that the invoke and close expansions contain hold. *)
Definition session_fns_compile (open invoke close : ItemFn) : bool :=
  match ta_open_session open, ta_invoke_command invoke, ta_close_session close with
  | EntryPoint o, EntryPoint i, EntryPoint c =>
      bool_decide (context_of i = context_of o) && bool_decide (context_of c = context_of o)
  | _, _, _ => false
  end.

End Macros.

(** ** The generated functions *)

(** The allocator behind [Box::new]: a fresh, non-null address. *)
Class Allocator : Type := alloc_addr : gset Z -> Z.
Class AllocatorOk `{Allocator} : Prop := {
  alloc_fresh d : (alloc_addr d ∉ d);
  alloc_nonnull d : alloc_addr d <> 0;
}.

Section Generated.
Context `{!Allocator}.
(** [G]: the TA's own global state; [P]: the type of its parameters; [Ctx]: its
    session context. *)
Context {G P Ctx : Type}.

(** [FromRawParameters::from_raw] for [P]. *)
Context (from_raws : Z -> prog world (Result P)).
(** [Default::default()] and [Drop] of the session context. *)
Context (ctx_default : prog (G * world) Ctx) (ctx_drop : Ctx -> prog (G * world) unit).

(** The TA author's functions. *)
Context (user_create : prog (G * world) (Result unit)).
Context (user_destroy : prog (G * world) unit).
Context (user_open : P -> Ctx -> prog (G * world) (Result unit * Ctx)).
Context (user_invoke : Ctx -> Z -> P -> prog (G * world) (Result unit * Ctx)).
Context (user_close : Ctx -> prog (G * world) Ctx).
Context (user_open0 : P -> prog (G * world) (Result unit)).
Context (user_invoke0 : Z -> P -> prog (G * world) (Result unit)).
Context (user_close0 : prog (G * world) unit).

Record ta_state : Type := mkTa { eg : G; ew : world; boxes : gmap Z Ctx }.

Definition run_user {A} (m : prog (G * world) A) : prog ta_state A :=
  fun s => match m (eg s, ew s) with
           | Ret (a, (g', w')) => Ret (a, mkTa g' w' (boxes s))
           | Panic => Panic
           | UB => UB
           end.
Definition run_params {A} (m : prog world A) : prog ta_state A :=
  fun s => match m (ew s) with
           | Ret (a, w') => Ret (a, mkTa (eg s) w' (boxes s))
           | Panic => Panic
           | UB => UB
           end.

(** [Box::into_raw(Box::new(ctx))]. *)
Definition box_into_raw (c : Ctx) : prog ta_state Z :=
  fun s => let p := alloc_addr (dom (boxes s)) in
           Ret (p, mkTa (eg s) (ew s) (<[p := c]> (boxes s))).
(** [Box::from_raw(p)]: the box must be live. *)
Definition box_from_raw (p : Z) : prog ta_state Ctx :=
  fun s => match boxes s !! p with Some c => Ret (c, s) | None => UB end.
(** [forget(b)] for the box [b] at [p] with contents [c]. *)
Definition box_forget (p : Z) (c : Ctx) : prog ta_state unit :=
  pmod (fun s => mkTa (eg s) (ew s) (<[p := c]> (boxes s))).
(** [drop(b)], after the destructor of its contents. *)
Definition box_drop (p : Z) : prog ta_state unit :=
  pmod (fun s => mkTa (eg s) (ew s) (delete p (boxes s))).

Definition code_of (r : Result unit) : Z :=
  match r with Ok _ => TEE_SUCCESS | Err e => Error.raw_code e end.

Definition TA_CreateEntryPoint : prog ta_state Z :=
  let* r := run_user user_create in pret (code_of r).

Definition TA_DestroyEntryPoint : prog ta_state unit := run_user user_destroy.

(** Without a session context. *)
Definition TA_OpenSessionEntryPoint0 (param_types : Z) : prog ta_state Z :=
  let* p := run_params (from_raws param_types) in
  match p with
  | Err e => pret (Error.raw_code e)
  | Ok parameters => let* r := run_user (user_open0 parameters) in pret (code_of r)
  end.

Definition TA_InvokeCommandEntryPoint0 (cmd_id param_types : Z) : prog ta_state Z :=
  let* p := run_params (from_raws param_types) in
  match p with
  | Err e => pret (Error.raw_code e)
  | Ok parameters => let* r := run_user (user_invoke0 cmd_id parameters) in pret (code_of r)
  end.

Definition TA_CloseSessionEntryPoint0 : prog ta_state unit := run_user user_close0.

(** With a session context: the code, and the pointer stored in [*sess_ctx]
    ([None] when it is left alone). *)
Definition TA_OpenSessionEntryPoint (param_types : Z) : prog ta_state (Z * option Z) :=
  let* p := run_params (from_raws param_types) in
  match p with
  | Err e => pret (Error.raw_code e, None)
  | Ok parameters =>
      let* ctx := run_user ctx_default in
      let* r := run_user (user_open parameters ctx) in
      match r with
      | (Ok _, ctx) => let* ptr := box_into_raw ctx in pret (TEE_SUCCESS, Some ptr)
      | (Err e, ctx) => let* _ := run_user (ctx_drop ctx) in pret (Error.raw_code e, None)
      end
  end.

Definition TA_InvokeCommandEntryPoint (sess_ctx cmd_id param_types : Z) : prog ta_state Z :=
  if sess_ctx =? 0 then pret TEE_ERROR_SECURITY
  else
    let* p := run_params (from_raws param_types) in
    match p with
    | Err e => pret (Error.raw_code e)
    | Ok parameters =>
        let* b := box_from_raw sess_ctx in
        let* r := run_user (user_invoke b cmd_id parameters) in
        match r with
        | (Ok _, b') => let* _ := box_forget sess_ctx b' in pret TEE_SUCCESS
        | (Err e, b') => let* _ := box_forget sess_ctx b' in pret (Error.raw_code e)
        end
    end.

Definition TA_CloseSessionEntryPoint (sess_ctx : Z) : prog ta_state unit :=
  if sess_ctx =? 0 then plift Panic
  else
    let* b := box_from_raw sess_ctx in
    let* b := run_user (user_close b) in
    let* _ := run_user (ctx_drop b) in
    box_drop sess_ctx.

End Generated.
