(* ===== verification/EntryPointsSpec.v ===== *)
(** * EntryPointsSpec: the life of session contexts

    The TEE framework keeps, for every open session, the pointer the TA stored
    in [*sess_ctx], and calls the entry points one at a time.  The
    specification has no pointers: a map from sessions to context values.  The
    generated entry points implement it, for any sequence of calls, as long as
    the TA author's functions do not return an error whose code is
    [TEE_SUCCESS]. *)

From S2P Require Import Prelude TeeDefines UteeError Memory Params EntryPoints.

(** A call of the framework: the session, the command, the type word, and the
    address space and raw parameters at the time of the call. *)
Inductive ta_call : Type :=
| CallOpen (sid param_types : Z) (w : world)
| CallInvoke (sid cmd_id param_types : Z) (w : world)
| CallClose (sid : Z) (w : world).

Section Lifecycle.
Context `{!Allocator, !AllocatorOk} {G P Ctx : Type}.
Context (from_raws : Z -> prog world (Result P)).
Context (ctx_default : prog (G * world) Ctx) (ctx_drop : Ctx -> prog (G * world) unit).
Context (user_open : P -> Ctx -> prog (G * world) (Result unit * Ctx)).
Context (user_invoke : Ctx -> Z -> P -> prog (G * world) (Result unit * Ctx)).
Context (user_close : Ctx -> prog (G * world) Ctx).

Local Abbreviation ta_state := (@ta_state G Ctx).

(** ** The framework around the generated entry points *)

Record tee_state : Type := mkTee { tas : ta_state; ctxs : gmap Z Z }.

Definition enter (t : tee_state) (w : world) : ta_state :=
  mkTa (eg (tas t)) w (boxes (tas t)).

(** The session is open when the entry point returns [TEE_SUCCESS]; [*sess_ctx]
    is null before the call. *)
Definition tee_call (c : ta_call) : prog tee_state (option Z) :=
  fun t =>
  match c with
  | CallOpen sid types w =>
      match ctxs t !! sid with
      | Some _ => Ret (None, t)
      | None =>
          let! r := TA_OpenSessionEntryPoint from_raws ctx_default ctx_drop user_open types
                    (enter t w) in
          match r with
          | ((code, ptr), s') =>
              Ret (Some code,
                   mkTee s' (if code =? TEE_SUCCESS then <[sid := default 0 ptr]> (ctxs t)
                             else ctxs t))
          end
      end
  | CallInvoke sid cmd types w =>
      match ctxs t !! sid with
      | None => Ret (None, t)
      | Some ptr =>
          let! r := TA_InvokeCommandEntryPoint from_raws user_invoke ptr cmd types (enter t w) in
          Ret (Some r.1, mkTee r.2 (ctxs t))
      end
  | CallClose sid w =>
      match ctxs t !! sid with
      | None => Ret (None, t)
      | Some ptr =>
          let! r := TA_CloseSessionEntryPoint ctx_drop user_close ptr (enter t w) in
          Ret (None, mkTee r.2 (delete sid (ctxs t)))
      end
  end.

(** ** The specification: contexts by session *)

Record spec_state : Type := mkSpec { sg : G; sw : world; sctx : gmap Z Ctx }.

Definition spec_call (c : ta_call) : prog spec_state (option Z) :=
  fun a =>
  match c with
  | CallOpen sid types w =>
      match sctx a !! sid with
      | Some _ => Ret (None, a)
      | None =>
          let! p := from_raws types w in
          match p with
          | (Err e, w1) => Ret (Some (Error.raw_code e), mkSpec (sg a) w1 (sctx a))
          | (Ok ps, w1) =>
              let! d := ctx_default (sg a, w1) in
              let! r := user_open ps d.1 d.2 in
              match r with
              | ((Ok _, ctx), (g', w')) => Ret (Some TEE_SUCCESS, mkSpec g' w' (<[sid := ctx]> (sctx a)))
              | ((Err e, ctx), s) =>
                  let! u := ctx_drop ctx s in
                  Ret (Some (Error.raw_code e), mkSpec u.2.1 u.2.2 (sctx a))
              end
          end
      end
  | CallInvoke sid cmd types w =>
      match sctx a !! sid with
      | None => Ret (None, a)
      | Some ctx =>
          let! p := from_raws types w in
          match p with
          | (Err e, w1) => Ret (Some (Error.raw_code e), mkSpec (sg a) w1 (sctx a))
          | (Ok ps, w1) =>
              let! r := user_invoke ctx cmd ps (sg a, w1) in
              match r with
              | ((r, ctx'), (g', w')) =>
                  Ret (Some (code_of r), mkSpec g' w' (<[sid := ctx']> (sctx a)))
              end
          end
      end
  | CallClose sid w =>
      match sctx a !! sid with
      | None => Ret (None, a)
      | Some ctx =>
          let! r := user_close ctx (sg a, w) in
          let! u := ctx_drop r.1 r.2 in
          Ret (None, mkSpec u.2.1 u.2.2 (delete sid (sctx a)))
      end
  end.

(** ** Abstraction and invariant *)

Definition abs (t : tee_state) : spec_state :=
  mkSpec (eg (tas t)) (ew (tas t)) (omap (fun ptr => boxes (tas t) !! ptr) (ctxs t)).

(** Every open session owns a live box of its own, and every live box belongs
    to an open session. *)
Record ctx_inv (t : tee_state) : Prop := {
  ctx_live sid ptr : ctxs t !! sid = Some ptr -> ptr <> 0 /\ is_Some (boxes (tas t) !! ptr);
  ctx_inj s1 s2 ptr : ctxs t !! s1 = Some ptr -> ctxs t !! s2 = Some ptr -> s1 = s2;
  ctx_owned ptr : is_Some (boxes (tas t) !! ptr) -> exists sid, ctxs t !! sid = Some ptr;
}.

(** What the author's functions must not do: fail with the code of success. *)
Definition honest_errors : Prop :=
  (forall types w e w', from_raws types w = Ret (Err e, w') -> Error.raw_code e <> TEE_SUCCESS) /\
  (forall ps c s e c' s', user_open ps c s = Ret ((Err e, c'), s') -> Error.raw_code e <> TEE_SUCCESS).

Definition result_abs (o : outcome (option Z * tee_state)) : outcome (option Z * spec_state) :=
  let! r := o in Ret (r.1, abs r.2).

Lemma abs_lookup t sid : sctx (abs t) !! sid = ctxs t !! sid ≫= fun ptr => boxes (tas t) !! ptr.
Proof. apply lookup_omap. Qed.

Lemma abs_closed t sid : ctxs t !! sid = None -> sctx (abs t) !! sid = None.
Proof. intros Hs. by rewrite abs_lookup, Hs. Qed.

Lemma abs_open t sid ptr c :
  ctxs t !! sid = Some ptr -> boxes (tas t) !! ptr = Some c -> sctx (abs t) !! sid = Some c.
Proof. intros Hs Hb. rewrite abs_lookup, Hs. done. Qed.

(** *** The three changes of the set of contexts *)

Lemma abs_add (bx : gmap Z Ctx) (cs : gmap Z Z) sid ptr c :
  bx !! ptr = None -> (forall s p, cs !! s = Some p -> is_Some (bx !! p)) ->
  omap (fun p => <[ptr := c]> bx !! p) (<[sid := ptr]> cs)
    = <[sid := c]> (omap (fun p => bx !! p) cs).
Proof.
  intros Hnew Hlive. apply map_eq. intros s. rewrite lookup_omap.
  destruct (decide (s = sid)) as [->|Hne].
  - rewrite !lookup_insert_eq. cbn. by rewrite lookup_insert_eq.
  - rewrite !lookup_insert_ne by done. rewrite lookup_omap.
    destruct (cs !! s) as [p|] eqn:Hs; [cbn|done]. apply lookup_insert_ne.
    intros <-. destruct (Hlive s ptr Hs). congruence.
Qed.

Lemma abs_update (bx : gmap Z Ctx) (cs : gmap Z Z) sid ptr c :
  cs !! sid = Some ptr -> (forall s, cs !! s = Some ptr -> s = sid) ->
  omap (fun p => <[ptr := c]> bx !! p) cs = <[sid := c]> (omap (fun p => bx !! p) cs).
Proof.
  intros Hsid Hinj. apply map_eq. intros s. rewrite lookup_omap.
  destruct (decide (s = sid)) as [->|Hne].
  - rewrite Hsid, lookup_insert_eq. cbn. by rewrite lookup_insert_eq.
  - rewrite lookup_insert_ne by done. rewrite lookup_omap.
    destruct (cs !! s) as [p|] eqn:Hs; [cbn|done]. apply lookup_insert_ne.
    intros <-. by apply Hne, Hinj.
Qed.

Lemma abs_remove (bx : gmap Z Ctx) (cs : gmap Z Z) sid ptr :
  cs !! sid = Some ptr -> (forall s, cs !! s = Some ptr -> s = sid) ->
  omap (fun p => delete ptr bx !! p) (delete sid cs) = delete sid (omap (fun p => bx !! p) cs).
Proof.
  intros Hsid Hinj. apply map_eq. intros s. rewrite lookup_omap.
  destruct (decide (s = sid)) as [->|Hne].
  - by rewrite !lookup_delete_eq.
  - rewrite !lookup_delete_ne by done. rewrite lookup_omap.
    destruct (cs !! s) as [p|] eqn:Hs; [cbn|done]. apply lookup_delete_ne.
    intros <-. by apply Hne, Hinj.
Qed.

Lemma inv_add t g w sid c (ptr := alloc_addr (dom (boxes (tas t)))) :
  ctx_inv t -> ctxs t !! sid = None ->
  ctx_inv (mkTee (mkTa g w (<[ptr := c]> (boxes (tas t)))) (<[sid := ptr]> (ctxs t))).
Proof.
  intros [Hlive Hinj Hown] Hsid.
  assert (boxes (tas t) !! ptr = None) as Hnew by apply not_elem_of_dom, alloc_fresh.
  assert (forall s, ctxs t !! s <> Some ptr) as Hns.
  { intros s Hs. destruct (Hlive s ptr Hs) as [_ [? ?]]. congruence. }
  split; cbn.
  - intros s p [[<- <-]|[? Hp]]%lookup_insert_Some.
    + split; [apply alloc_nonnull|]. rewrite lookup_insert_eq. eauto.
    + destruct (Hlive s p Hp). split; [done|]. rewrite lookup_insert_ne; [done|congruence].
  - intros s1 s2 p [[<- <-]|[? Hp]]%lookup_insert_Some [[<- ?]|[? Hq]]%lookup_insert_Some;
      [done|by destruct (Hns s2)|subst; by destruct (Hns s1)|by eapply Hinj].
  - intros p [v [[<- _]|[Hne Hp]]%lookup_insert_Some].
    + exists sid. apply lookup_insert_eq.
    + destruct (Hown p) as [s Hs]; [eauto|]. exists s. apply lookup_insert_Some.
      right. split; [|done]. congruence.
Qed.

Lemma inv_update t g w sid ptr c :
  ctx_inv t -> ctxs t !! sid = Some ptr ->
  ctx_inv (mkTee (mkTa g w (<[ptr := c]> (boxes (tas t)))) (ctxs t)).
Proof.
  intros [Hlive Hinj Hown] Hsid. split; cbn; [|done|].
  - intros s p Hs. destruct (Hlive s p Hs) as [? Hp]. split; [done|].
    destruct (decide (p = ptr)) as [->|]; [rewrite lookup_insert_eq; eauto|].
    by rewrite lookup_insert_ne.
  - intros p [v [[<- _]|[Hne Hp]]%lookup_insert_Some]; eauto.
Qed.

Lemma inv_remove t g w sid ptr :
  ctx_inv t -> ctxs t !! sid = Some ptr ->
  ctx_inv (mkTee (mkTa g w (delete ptr (boxes (tas t)))) (delete sid (ctxs t))).
Proof.
  intros [Hlive Hinj Hown] Hsid. split; cbn.
  - intros s p [Hne Hs]%lookup_delete_Some. destruct (Hlive s p Hs) as [? Hp]. split; [done|].
    rewrite lookup_delete_ne; [done|]. intros <-. by apply Hne, (Hinj sid s ptr).
  - intros s1 s2 p [_ H1]%lookup_delete_Some [_ H2]%lookup_delete_Some. by eapply Hinj.
  - intros p [v [Hne Hp]%lookup_delete_Some]. destruct (Hown p) as [s Hs]; [eauto|].
    exists s. apply lookup_delete_Some. split; [|done]. congruence.
Qed.

(** Only the box map and the session map matter. *)
Lemma inv_same t g w :
  ctx_inv t -> ctx_inv (mkTee (mkTa g w (boxes (tas t))) (ctxs t)).
Proof. intros [Hlive Hinj Hown]. by split. Qed.

(** ** Refinement, call by call *)

(** A call of the framework answers as the specification does (panics and
    undefined behaviour included) and preserves the invariant. *)
Definition refines (t : tee_state) (c : ta_call) : Prop :=
  spec_call c (abs t) = result_abs (tee_call c t) /\
  forall r t', tee_call c t = Ret (r, t') -> ctx_inv t'.

Lemma refines_open t sid types w :
  honest_errors -> ctx_inv t -> refines t (CallOpen sid types w).
Proof.
  intros [Hp Hu] Hinv. unfold refines, tee_call, spec_call, result_abs.
  destruct (ctxs t !! sid) as [ptr|] eqn:Hsid.
  { destruct (ctx_live t Hinv sid ptr Hsid) as [_ [c Hc]].
    rewrite (abs_open t sid ptr c) by done. cbn. split; [done|]. by intros ?? [= <- <-]. }
  rewrite (abs_closed t sid Hsid).
  unfold TA_OpenSessionEntryPoint, run_params, run_user, box_into_raw, pbind, pret.
  cbn [enter eg ew boxes sg abs tas]. specialize (Hp types w).
  destruct (from_raws types w) as [[[ps|e] w1]| |]; cbn; [|..|done|done].
  - destruct (ctx_default (eg (tas t), w1)) as [[d [g0 w0]]| |]; cbn; [|done|done].
    specialize (Hu ps d (g0, w0)).
    destruct (user_open ps d (g0, w0)) as [[[[[]|e] c] [g' w']]| |]; cbn; [| |done|done].
    + split; [|intros ?? [= <- <-]; by apply inv_add].
      unfold abs. cbn. rewrite abs_add; [done|by apply not_elem_of_dom, alloc_fresh|].
      intros s p Hs. by apply (ctx_live t Hinv s p).
    + destruct (ctx_drop c (g', w')) as [[u [g2 w2]]| |]; cbn; [|done|done].
      rewrite (proj2 (Z.eqb_neq _ _) (Hu e c (g', w') eq_refl)).
      split; [done|]. intros ?? [= <- <-]. by apply inv_same.
  - rewrite (proj2 (Z.eqb_neq _ _) (Hp e w1 eq_refl)).
    split; [done|]. intros ?? [= <- <-]. by apply inv_same.
Qed.

Lemma refines_invoke t sid cmd types w : ctx_inv t -> refines t (CallInvoke sid cmd types w).
Proof.
  intros Hinv. unfold refines, tee_call, spec_call, result_abs.
  destruct (ctxs t !! sid) as [ptr|] eqn:Hsid;
    [|rewrite (abs_closed t sid Hsid); split; [done|by intros ?? [= <- <-]]].
  destruct (ctx_live t Hinv sid ptr Hsid) as [Hnn [c Hc]].
  rewrite (abs_open t sid ptr c) by done. unfold TA_InvokeCommandEntryPoint.
  rewrite (proj2 (Z.eqb_neq _ _) Hnn).
  unfold run_params, run_user, box_from_raw, box_forget, pmod, pbind, pret.
  cbn [enter eg ew boxes sg abs tas].
  destruct (from_raws types w) as [[[ps|e] w1]| |]; cbn; [| |done|done].
  - rewrite Hc. cbn. destruct (user_invoke c cmd ps (eg (tas t), w1)) as [[[r c'] [g' w']]| |];
      cbn; [|done|done].
    destruct r as [[]|e]; cbn; (split;
      [unfold abs; cbn; rewrite (abs_update _ _ sid) by (done || (intros; by eapply (ctx_inj t)));
       done
      |intros ?? [= <- <-]; by eapply inv_update]).
  - split; [done|]. intros ?? [= <- <-]. by apply inv_same.
Qed.

Lemma refines_close t sid w : ctx_inv t -> refines t (CallClose sid w).
Proof.
  intros Hinv. unfold refines, tee_call, spec_call, result_abs.
  destruct (ctxs t !! sid) as [ptr|] eqn:Hsid;
    [|rewrite (abs_closed t sid Hsid); split; [done|by intros ?? [= <- <-]]].
  destruct (ctx_live t Hinv sid ptr Hsid) as [Hnn [c Hc]].
  rewrite (abs_open t sid ptr c) by done. unfold TA_CloseSessionEntryPoint.
  rewrite (proj2 (Z.eqb_neq _ _) Hnn).
  unfold run_user, box_from_raw, box_drop, pmod, pbind. cbn [enter eg ew boxes sg abs tas].
  rewrite Hc. cbn. destruct (user_close c (eg (tas t), w)) as [[c' [g' w']]| |]; cbn; [|done|done].
  destruct (ctx_drop c' (g', w')) as [[u [g2 w2]]| |]; cbn; [|done|done].
  split; [|intros ?? [= <- <-]; by eapply inv_remove].
  unfold abs. cbn. rewrite (abs_remove _ _ sid ptr) by (done || (intros; by eapply (ctx_inj t))).
  done.
Qed.

Lemma refines_call t c : honest_errors -> ctx_inv t -> refines t c.
Proof. destruct c; eauto using refines_open, refines_invoke, refines_close. Qed.

(** ** Sequences of calls *)

Fixpoint run_calls {S} (step : ta_call -> prog S (option Z)) (cs : list ta_call)
    : prog S (list (option Z)) :=
  match cs with
  | [] => pret []
  | c :: cs' => let* r := step c in let* rs := run_calls step cs' in pret (r :: rs)
  end.

Definition fresh_tee (g : G) (w : world) : tee_state := mkTee (mkTa g w ∅) ∅.

Lemma fresh_tee_inv g w : ctx_inv (fresh_tee g w).
Proof.
  split; cbn.
  - intros ?? Hs. by rewrite lookup_empty in Hs.
  - intros ??? Hs. by rewrite lookup_empty in Hs.
  - intros ? [? Hs]. by rewrite lookup_empty in Hs.
Qed.

Lemma run_calls_refine cs : forall t,
  honest_errors -> ctx_inv t ->
  (run_calls spec_call cs (abs t)
     = let! r := run_calls tee_call cs t in Ret (r.1, abs r.2)) /\
  forall rs t', run_calls tee_call cs t = Ret (rs, t') -> ctx_inv t'.
Proof.
  induction cs as [|c cs IH]; intros t Hh Hinv.
  - split; [done|]. by intros ?? [= <- <-].
  - destruct (refines_call t c Hh Hinv) as [Hspec Hinv']. cbn [run_calls].
    unfold pbind. rewrite Hspec. unfold result_abs.
    destruct (tee_call c t) as [[r t1]| |]; cbn; [|done|done].
    destruct (IH t1 Hh (Hinv' r t1 eq_refl)) as [Hcs Hinv1]. rewrite Hcs.
    destruct (run_calls tee_call cs t1) as [[rs t2]| |]; cbn; [|done|done].
    split; [done|]. intros ?? [= <- <-]. by eapply Hinv1.
Qed.

(** C1: the generated entry points implement the pointer-free specification, for a
    TA whose parameter conversion and open handler never fail with an error of code
    0, the code of success. For every sequence of open, invoke and close calls the
    framework can make, starting from a fresh TA, the codes returned (and any panic
    or undefined behaviour, which can then only come from the author's functions)
    are those of the specification in which every session has its own context value,
    made by [Default] when it is opened and dropped when it is closed or opening it
    fails; at every reachable state no context is freed twice, used after free or
    leaked: live boxes and open sessions correspond one to one, so a TA without open
    sessions holds no context. *)
Theorem entry_points_refine_spec g w cs :
  honest_errors ->
  (run_calls spec_call cs (mkSpec g w ∅)
     = let! r := run_calls tee_call cs (fresh_tee g w) in Ret (r.1, abs r.2)) /\
  forall rs t, run_calls tee_call cs (fresh_tee g w) = Ret (rs, t) ->
    ctx_inv t /\ (ctxs t = ∅ -> boxes (tas t) = ∅).
Proof.
  intros Hh. destruct (run_calls_refine cs (fresh_tee g w) Hh (fresh_tee_inv g w)) as [Hs Hi].
  unfold abs in Hs at 1. cbn in Hs. rewrite omap_empty in Hs. split; [exact Hs|].
  intros rs t Hrun. pose proof (Hi rs t Hrun) as Hinv. split; [done|].
  intros He. apply map_eq. intros p. rewrite lookup_empty.
  destruct (boxes (tas t) !! p) eqn:Hp; [|done].
  destruct (ctx_owned t Hinv p) as [sid Hsid]; [eauto|]. by rewrite He, lookup_empty in Hsid.
Qed.

End Lifecycle.

(** ** A TA with a counter per session *)

Module CounterTa.

#[local] Instance fresh_alloc : Allocator := fun d => fresh ({[0]} ∪ d).
#[local] Instance fresh_alloc_ok : AllocatorOk.
Proof.
  split; intros d; unfold alloc_addr, fresh_alloc.
  - intros Hd. apply (is_fresh ({[0]} ∪ d)). set_solver.
  - intros Hd. apply (is_fresh ({[0]} ∪ d)). rewrite Hd. set_solver.
Qed.

Definition no_params (types : Z) : prog world (Result unit) := pret (Ok tt).
Definition zero : prog (unit * world) Z := pret 0.
Definition no_drop (c : Z) : prog (unit * world) unit := pret tt.
Definition open (p : unit) (c : Z) : prog (unit * world) (Result unit * Z) := pret (Ok tt, c).
(** Fails with the raw code 0. *)
Definition open_err0 (p : unit) (c : Z) : prog (unit * world) (Result unit * Z) :=
  pret (Err (Error.from_raw_error TEE_SUCCESS), c).
(** Counts; the counter is the code it fails with. *)
Definition invoke (c cmd : Z) (p : unit) : prog (unit * world) (Result unit * Z) :=
  pret (Err (Error.from_raw_error (c + cmd)), c + cmd).
Definition close (c : Z) : prog (unit * world) Z := pret c.

Definition w0 : world := mkWorld ∅ [].

Lemma counter_honest : honest_errors no_params open.
Proof. split; unfold no_params, open, pret; intros; discriminate. Defined.

(** Two sessions, each with its own counter, opened, used and closed. *)
Lemma entry_points_refine_spec_witness :
  let cs := [CallOpen 1 0 w0; CallOpen 2 0 w0; CallInvoke 1 5 0 w0; CallInvoke 2 7 0 w0;
             CallInvoke 1 5 0 w0; CallClose 1 w0; CallClose 2 w0] in
  exists t, run_calls (tee_call no_params zero no_drop open invoke close) cs (fresh_tee tt w0)
    = Ret ([Some 0; Some 0; Some 5; Some 7; Some 10; None; None], t) /\
    boxes (tas t) = ∅.
Proof.
  intros cs.
  destruct (entry_points_refine_spec no_params zero no_drop open invoke close tt w0 cs counter_honest)
    as [Hs Hi].
  destruct (run_calls (tee_call no_params zero no_drop open invoke close) cs (fresh_tee tt w0))
    as [[rs t]| |] eqn:E; [|vm_compute in E; discriminate E..].
  exists t. destruct (Hi rs t eq_refl) as [_ He]. vm_compute in E. injection E as <- <-.
  split; [done|]. by apply He.
Defined.

End CounterTa.

(** The one way a TA author can break the session protocol of the generated
    code: an [open_session] that fails with an error whose raw code is 0
    ([Error::from_raw_error(0)]) is taken for a success, so the framework
    records a session whose context pointer is null; invoking it then gives
    [TEE_ERROR_SECURITY] and closing it panics the TA. *)
Lemma zero_code_error_opens_null_session :
  let call := @tee_call CounterTa.fresh_alloc unit unit Z CounterTa.no_params CounterTa.zero
                CounterTa.no_drop CounterTa.open_err0 CounterTa.invoke CounterTa.close in
  (exists t, run_calls call [CallOpen 1 0 CounterTa.w0; CallInvoke 1 5 0 CounterTa.w0]
               (fresh_tee tt CounterTa.w0) = Ret ([Some TEE_SUCCESS; Some TEE_ERROR_SECURITY], t) /\
             ctxs t !! 1 = Some 0) /\
  run_calls call [CallOpen 1 0 CounterTa.w0; CallClose 1 CounterTa.w0]
    (fresh_tee tt CounterTa.w0) = Panic.
Proof. split; [eexists|]; vm_compute; done. Qed.

(** ** The signatures the macros accept *)

Module MacroSpec.
Import Macros.

Lemma ctx_or_error_Some a t :
  ctx_or_error (Some a) = EntryPoint t <-> exists t', t = Some t' /\ a = Typed (TyRef true t').
Proof.
  unfold ctx_or_error. destruct a as [|[[] e|s]]; cbn; split;
    try discriminate; try (by intros (t' & _ & [=])).
  - intros [= <-]. by exists e.
  - by intros (t' & -> & [= <-]).
Qed.

Ltac macro_cases f :=
  destruct (plain_fn f) eqn:?; cbn [andb orb];
  destruct (inputs f) as [|a [|b [|c [|d l]]]] eqn:?;
  cbn [length Nat.eqb andb orb lookup list_lookup];
  rewrite ?ctx_or_error_Some; split; intros; naive_solver.

(** The session macros accept exactly the documented signatures (a private,
    safe, non-generic function with 1 or 2, 2 or 3, and 0 or 1 arguments), and
    the generated entry point passes a context exactly when the extra argument
    is present, of the type behind its [&mut]. *)
Lemma session_macros_accept f t :
  (ta_open_session f = EntryPoint t <->
     plain_fn f = true /\
     ((t = None /\ exists p, inputs f = [p]) \/
      (exists p c, t = Some c /\ inputs f = [p; Typed (TyRef true c)]))) /\
  (ta_invoke_command f = EntryPoint t <->
     plain_fn f = true /\
     ((t = None /\ exists n p, inputs f = [n; p]) \/
      (exists c n p, t = Some c /\ inputs f = [Typed (TyRef true c); n; p]))) /\
  (ta_close_session f = EntryPoint t <->
     plain_fn f = true /\ output_default f = true /\
     ((t = None /\ inputs f = []) \/
      (exists c, t = Some c /\ inputs f = [Typed (TyRef true c)]))).
Proof.
  unfold ta_open_session, ta_invoke_command, ta_close_session.
  split_and!; [macro_cases f|macro_cases f|].
  destruct (output_default f); rewrite ?andb_false_r, ?andb_true_r; [macro_cases f|].
  split; [done|]. by intros (_ & [=] & _).
Qed.

End MacroSpec.
