(* ===== verification/Storage.v ===== *)
(** * Storage: persistent objects and their handles

    Models [crates/optee-utee/src/object/]: [object_handle.rs],
    [persistent_object.rs], [object_info.rs], the flags of
    [object_define.rs] and the methods of [generic_object.rs].  The trusted
    storage itself is an interface: the [TEE_*] calls over an abstract state,
    with the stored objects and the open handles as what can be observed.  A
    call succeeds with its documented effect, or fails with a code and leaves the
    objects as they were (which calls fail is up to the storage), or panics the TA: on
    an identifier of more than 64 bytes, a handle that is not open, or one without
    the right.  A call that answers [CorruptObject] may have closed the handle, where
    the property [gpd.ta.doesNotCloseHandleOnCorruptObject] does not hold. *)

From S2P Require Import Prelude TeeDefines UteeError.

(** ** Flags and constants ([object_define.rs]) *)

Module DataFlag.
Definition ACCESS_READ : Z := 0x00000001.
Definition ACCESS_WRITE : Z := 0x00000002.
Definition ACCESS_WRITE_META : Z := 0x00000004.
Definition SHARE_READ : Z := 0x00000010.
Definition SHARE_WRITE : Z := 0x00000020.
Definition OVERWRITE : Z := 0x00000400.
End DataFlag.

Module UsageFlag.
Definition EXTRACTABLE : Z := 0x00000001.
Definition ENCRYPT : Z := 0x00000002.
Definition DECRYPT : Z := 0x00000004.
Definition MAC : Z := 0x00000008.
Definition SIGN : Z := 0x00000010.
Definition VERIFY : Z := 0x00000020.
Definition DERIVE : Z := 0x00000040.
End UsageFlag.

Module HandleFlag.
Definition PERSISTENT : Z := 0x00010000.
Definition INITIALIZED : Z := 0x00020000.
Definition KEY_SET : Z := 0x00040000.
Definition EXPECT_TWO_KEYS : Z := 0x00080000.
End HandleFlag.

Module ObjectStorageConstants.
Inductive ObjectStorageConstants : Type := Private | PrivateRee | PrivateRpmb | IllegalValue.
Definition into_u32 (c : ObjectStorageConstants) : Z :=
  match c with
  | Private => 0x00000001
  | PrivateRee => 0x80000000
  | PrivateRpmb => 0x80000100
  | IllegalValue => 0x7FFFFFFF
  end.
End ObjectStorageConstants.
Abbreviation ObjectStorageConstants := ObjectStorageConstants.ObjectStorageConstants.

Module Whence.
Inductive Whence : Type := DataSeekSet | DataSeekCur | DataSeekEnd.
Definition into_raw (w : Whence) : Z :=
  match w with
  | DataSeekSet => TEE_DATA_SEEK_SET
  | DataSeekCur => TEE_DATA_SEEK_CUR
  | DataSeekEnd => TEE_DATA_SEEK_END
  end.
End Whence.
Abbreviation Whence := Whence.Whence.

(** ** [TEE_ObjectInfo] and [ObjectInfo] *)

Record ObjectInfo : Type := mkObjectInfo {
  objectType : Z; objectSize : Z; maxObjectSize : Z; objectUsage : Z;
  dataSize : Z; dataPosition : Z; handleFlags : Z;
}.

Definition data_size (i : ObjectInfo) : Z := dataSize i.
Definition object_size (i : ObjectInfo) : Z := objectSize i.
Definition object_type (i : ObjectInfo) : Z := objectType i.

(** ** The trusted storage *)

(** The result code of a call, with what it wrote through its out pointers.  A call
    panics the TA where its documentation says so. *)
Class TrustedStorage (St : Type) : Type := {
  TEE_OpenPersistentObject : Z -> bytes -> Z -> prog St (Z * Z);
  TEE_CreatePersistentObject : Z -> bytes -> Z -> Z -> bytes -> prog St (Z * Z);
  TEE_CloseAndDeletePersistentObject1 : Z -> prog St Z;
  TEE_RenamePersistentObject : Z -> bytes -> prog St Z;
  TEE_ReadObjectData : Z -> Z -> prog St (Z * bytes);
  TEE_WriteObjectData : Z -> bytes -> prog St Z;
  TEE_TruncateObjectData : Z -> Z -> prog St Z;
  TEE_SeekObjectData : Z -> Z -> Z -> prog St Z;
  TEE_GetObjectInfo1 : Z -> prog St (Z * ObjectInfo);
  TEE_RestrictObjectUsage1 : Z -> Z -> prog St Z;
  TEE_CloseObject : Z -> St -> outcome St;
  (** The property [gpd.ta.doesNotCloseHandleOnCorruptObject]. *)
  keeps_corrupt : bool;
  (** What is stored: data by storage and object identifier. *)
  objs : St -> gmap (Z * bytes) bytes;
  (** The open handles: the object of each, its flags and its data position. *)
  hnds : St -> gmap Z (Z * bytes * (Z * Z));
}.

Definition unchanged {St} `{TrustedStorage St} (s s' : St) : Prop :=
  objs s' = objs s /\ hnds s' = hnds s.

(** The data seen by a handle. *)
Definition handle_data {St} `{TrustedStorage St} (s : St) (h : Z) : option (bytes * Z) :=
  match hnds s !! h with
  | Some (sid, oid, (_, pos)) => (fun d => (d, pos)) <$> objs s !! (sid, oid)
  | None => None
  end.

(** The flags of the open handles, and whether a handle was opened with a right. *)
Definition rights {St} `{TrustedStorage St} (s : St) : gmap Z Z := (fun x => x.2.1) <$> hnds s.

Definition has_right (fl right : Z) : Prop := Z.land fl right <> 0.

Definition may {St} `{TrustedStorage St} (s : St) (h right : Z) : Prop :=
  exists fl, rights s !! h = Some fl /\ has_right fl right.

(** A TEE without that property closes the handle when it finds the object corrupt. *)
Definition closed_corrupt {St} `{TrustedStorage St} (code : Z) : Prop :=
  keeps_corrupt = false /\ code = TEE_ERROR_CORRUPT_OBJECT.

(** A call on [h] that fails. *)
Definition refused {St} `{TrustedStorage St} (h code : Z) (s s' : St) : Prop :=
  code <> TEE_SUCCESS /\ objs s' = objs s /\
  (hnds s' = hnds s \/ closed_corrupt code /\ hnds s' = delete h (hnds s)).

(** A call on [h] that does not end it, as far as handles are concerned. *)
Definition keeps_open {St} `{TrustedStorage St} (h code : Z) (s s' : St) : Prop :=
  rights s' = rights s \/ closed_corrupt code /\ rights s' = delete h (rights s).

Class TrustedStorageOk (St : Type) `{TrustedStorage St} : Prop := {
  open_long sid oid fl s :
    TEE_OBJECT_ID_MAX_LEN < len oid -> TEE_OpenPersistentObject sid oid fl s = Panic;
  open_spec sid oid fl s :
    len oid <= TEE_OBJECT_ID_MAX_LEN ->
    exists code h s', TEE_OpenPersistentObject sid oid fl s = Ret ((code, h), s') /\
    ((code = TEE_SUCCESS /\ is_Some (objs s !! (sid, oid)) /\ h <> 0 /\ hnds s !! h = None /\
       objs s' = objs s /\ hnds s' = <[h := (sid, oid, (fl, 0))]> (hnds s))
     \/ (code <> TEE_SUCCESS /\ unchanged s s' /\
         (code = TEE_ERROR_ITEM_NOT_FOUND -> objs s !! (sid, oid) = None)));
  create_long sid oid fl attr d s :
    TEE_OBJECT_ID_MAX_LEN < len oid -> TEE_CreatePersistentObject sid oid fl attr d s = Panic;
  (** A pure data object: [attr] is null. *)
  create_spec sid oid fl d s :
    len oid <= TEE_OBJECT_ID_MAX_LEN ->
    exists code h s', TEE_CreatePersistentObject sid oid fl 0 d s = Ret ((code, h), s') /\
    ((code = TEE_SUCCESS /\ h <> 0 /\ hnds s !! h = None /\
       (Z.land fl DataFlag.OVERWRITE = 0 -> objs s !! (sid, oid) = None) /\
       objs s' = <[(sid, oid) := d]> (objs s) /\
       hnds s' = <[h := (sid, oid, (fl, 0))]> (hnds s))
     \/ (code <> TEE_SUCCESS /\ unchanged s s'));
  delete_spec h s sid oid fl pos :
    hnds s !! h = Some (sid, oid, (fl, pos)) -> has_right fl DataFlag.ACCESS_WRITE_META ->
    exists code s', TEE_CloseAndDeletePersistentObject1 h s = Ret (code, s') /\
      hnds s' = delete h (hnds s) /\
      objs s' = if code =? TEE_SUCCESS then delete (sid, oid) (objs s) else objs s;
  read_spec h n s sid oid fl pos d :
    hnds s !! h = Some (sid, oid, (fl, pos)) -> has_right fl DataFlag.ACCESS_READ ->
    objs s !! (sid, oid) = Some d -> 0 <= n ->
    exists code l s', TEE_ReadObjectData h n s = Ret ((code, l), s') /\
    ((code = TEE_SUCCESS /\ l = take (Z.to_nat n) (drop (Z.to_nat pos) d) /\ objs s' = objs s /\
       hnds s' = <[h := (sid, oid, (fl, pos + len l))]> (hnds s))
     \/ refused h code s s');
  info_spec h s d pos :
    handle_data s h = Some (d, pos) ->
    exists code i s', TEE_GetObjectInfo1 h s = Ret ((code, i), s') /\
    ((code = TEE_SUCCESS /\ unchanged s s' /\ dataSize i = len d /\ dataPosition i = pos)
     \/ refused h code s s');
  rename_keeps h oid s :
    may s h DataFlag.ACCESS_WRITE_META -> len oid <= TEE_OBJECT_ID_MAX_LEN ->
    exists code s', TEE_RenamePersistentObject h oid s = Ret (code, s') /\ keeps_open h code s s';
  read_keeps h n s :
    may s h DataFlag.ACCESS_READ -> 0 <= n ->
    exists r s', TEE_ReadObjectData h n s = Ret (r, s') /\ keeps_open h r.1 s s';
  write_keeps h l s :
    may s h DataFlag.ACCESS_WRITE ->
    exists code s', TEE_WriteObjectData h l s = Ret (code, s') /\ keeps_open h code s s';
  truncate_keeps h n s :
    may s h DataFlag.ACCESS_WRITE ->
    exists code s', TEE_TruncateObjectData h n s = Ret (code, s') /\ keeps_open h code s s';
  seek_keeps h o w s :
    is_Some (rights s !! h) ->
    exists code s', TEE_SeekObjectData h o w s = Ret (code, s') /\ keeps_open h code s s';
  info_keeps h s :
    is_Some (rights s !! h) ->
    exists r s', TEE_GetObjectInfo1 h s = Ret (r, s') /\ keeps_open h r.1 s s';
  restrict_keeps h u s :
    is_Some (rights s !! h) ->
    exists code s', TEE_RestrictObjectUsage1 h u s = Ret (code, s') /\ keeps_open h code s s';
  close_spec h s :
    is_Some (hnds s !! h) ->
    exists s', TEE_CloseObject h s = Ret s' /\ objs s' = objs s /\ hnds s' = delete h (hnds s);
}.

(** No handle is open on an object. *)
Definition not_open {St} `{TrustedStorage St} (s : St) (sid : Z) (oid : bytes) : Prop :=
  forall h at_, hnds s !! h <> Some (sid, oid, at_).

(** A storage on which nothing fails that does not have to. *)
Class TrustedStorageReliable (St : Type) `{TrustedStorage St} : Prop := {
  open_reliable sid oid fl s r s' :
    is_Some (objs s !! (sid, oid)) -> not_open s sid oid ->
    TEE_OpenPersistentObject sid oid fl s = Ret (r, s') -> r.1 = TEE_SUCCESS;
  open_absent sid oid fl s r s' :
    objs s !! (sid, oid) = None ->
    TEE_OpenPersistentObject sid oid fl s = Ret (r, s') -> r.1 = TEE_ERROR_ITEM_NOT_FOUND;
  create_reliable sid oid fl attr d s r s' :
    Z.land fl DataFlag.OVERWRITE <> 0 -> not_open s sid oid ->
    TEE_CreatePersistentObject sid oid fl attr d s = Ret (r, s') -> r.1 = TEE_SUCCESS;
  delete_reliable h s code s' :
    is_Some (hnds s !! h) ->
    TEE_CloseAndDeletePersistentObject1 h s = Ret (code, s') -> code = TEE_SUCCESS;
  read_reliable h n s r s' :
    is_Some (handle_data s h) -> TEE_ReadObjectData h n s = Ret (r, s') -> r.1 = TEE_SUCCESS;
  info_reliable h s r s' :
    is_Some (handle_data s h) -> TEE_GetObjectInfo1 h s = Ret (r, s') -> r.1 = TEE_SUCCESS;
}.

(** What writing [l] at position [pos] makes of the data [d]: beyond the end the
    gap is filled with zeros. *)
Definition write_data (d : bytes) (pos : Z) (l : bytes) : bytes :=
  take (Z.to_nat pos) d ++ zeros (pos - len d) ++ l ++ drop (Z.to_nat (pos + len l)) d.

(** A storage that has room for what is written. *)
Class TrustedStorageWrite (St : Type) `{TrustedStorage St} : Prop := {
  write_reliable h l s sid oid fl pos d :
    hnds s !! h = Some (sid, oid, (fl, pos)) -> has_right fl DataFlag.ACCESS_WRITE ->
    objs s !! (sid, oid) = Some d ->
    exists s', TEE_WriteObjectData h l s = Ret (TEE_SUCCESS, s') /\
      objs s' = <[(sid, oid) := write_data d pos l]> (objs s) /\
      hnds s' = <[h := (sid, oid, (fl, pos + len l))]> (hnds s);
}.

(** ** [ObjectHandle] and [PersistentObject] *)

(** Both are a raw handle; [0] is the null handle. *)
Record ObjectHandle : Type := mkObjectHandle { oh_raw : Z }.
Record PersistentObject : Type := mkPersistentObject { po_handle : ObjectHandle }.

Module Handle.

Definition from_raw (h : Z) : Result ObjectHandle :=
  if h =? 0 then bail ErrorKind.BadParameters else Ok (mkObjectHandle h).
Definition new_null : ObjectHandle := mkObjectHandle 0.
Definition is_null (o : ObjectHandle) : bool := oh_raw o =? 0.

Section Drop.
Context {St : Type} `{!TrustedStorage St}.

(** [impl Drop for ObjectHandle]. *)
Definition drop_handle (o : ObjectHandle) : prog St unit :=
  fun s => if negb (is_null o)
           then let! s' := TEE_CloseObject (oh_raw o) s in Ret (tt, s')
           else Ret (tt, s).

(** [forget(self)]: the field is set to null, then [self] is dropped. *)
Definition forget (o : ObjectHandle) : prog St unit := drop_handle new_null.

End Drop.
End Handle.

Module PersistentObjectOps.
Section Ops.
Context `{!Target} {St : Type} `{!TrustedStorage St}.

Definition drop_object (o : PersistentObject) : prog St unit := Handle.drop_handle (po_handle o).
Definition raw_ref (o : PersistentObject) : Z := oh_raw (po_handle o).

Definition open (storage_id : ObjectStorageConstants) (object_id : bytes) (flags : Z)
    : prog St (Result PersistentObject) :=
  let* r := TEE_OpenPersistentObject (ObjectStorageConstants.into_u32 storage_id)
                    object_id flags in
  let? _ := pret (tee_check r.1) in
  pret (result_map mkPersistentObject (Handle.from_raw r.2)).

(** [attributes] is owned: it is dropped when the function returns. *)
Definition create (storage_id : ObjectStorageConstants) (object_id : bytes) (flags : Z)
    (attributes : option ObjectHandle) (initial_data : bytes)
    : prog St (Result PersistentObject) :=
  let attr := match attributes with Some a => oh_raw a | None => 0 end in
  let* r := TEE_CreatePersistentObject (ObjectStorageConstants.into_u32 storage_id)
                    object_id flags attr initial_data in
  let result :=
    try _ := tee_check r.1 in result_map mkPersistentObject (Handle.from_raw r.2) in
  let* _ := match attributes with Some a => Handle.drop_handle a | None => pret tt end in
  pret result.

Definition close_and_delete (self : PersistentObject) : prog St (Result unit) :=
  let* code := TEE_CloseAndDeletePersistentObject1 (raw_ref self) in
  let result := tee_check code in
  let* _ := Handle.forget (po_handle self) in
  pret result.

Definition rename (self : PersistentObject) (new_object_id : bytes) : prog St (Result unit) :=
  let* code := TEE_RenamePersistentObject (raw_ref self) new_object_id in
  pret (tee_check code).

(** [read(buf)]: the count as [u32], and [buf] after the call. *)
Definition read (self : PersistentObject) (buf : bytes) : prog St (Result Z * bytes) :=
  let* r := TEE_ReadObjectData (raw_ref self) (len buf) in
  match tee_check r.1 with
  | Ok _ => pret (Ok (wrap_u 32 (len r.2)), splice buf 0 r.2)
  | Err e => pret (Err e, buf)
  end.

Definition info (self : PersistentObject) : prog St (Result ObjectInfo) :=
  let* r := TEE_GetObjectInfo1 (raw_ref self) in
  let? _ := pret (tee_check r.1) in
  pret (Ok r.2).

Definition restrict_usage (self : PersistentObject) (obj_usage : Z) : prog St (Result unit) :=
  let* code := TEE_RestrictObjectUsage1 (raw_ref self) obj_usage in
  pret (tee_check code).

(** [try_reserve_exact] fails on more than [isize::MAX] bytes. *)
Definition read_remaining_to_vec (self : PersistentObject) : prog St (Result bytes) :=
  let? i := info self in
  let size := Z.max 0 (data_size i - dataPosition i) in
  if negb (size =? 0) then
    if 2 ^ (ptr_bits - 1) <=? size then pret (bail ErrorKind.OutOfMemory)
    else
      let* r := read self (zeros size) in
      match r with
      | (Ok count, data) => pret (Ok (take (Z.to_nat count) data))
      | (Err e, _) => pret (Err e)
      end
  else pret (Ok []).

Definition write (self : PersistentObject) (buf : bytes) : prog St (Result unit) :=
  let* code := TEE_WriteObjectData (raw_ref self) buf in
  pret (tee_check code).

Definition truncate (self : PersistentObject) (size : Z) : prog St (Result unit) :=
  let* code := TEE_TruncateObjectData (raw_ref self) size in
  pret (tee_check code).

Definition seek (self : PersistentObject) (offset : Z) (whence : Whence) : prog St (Result unit) :=
  let* code := TEE_SeekObjectData (raw_ref self) offset (Whence.into_raw whence) in
  pret (tee_check code).

End Ops.
End PersistentObjectOps.
