(* ===== verification/StorageSpec.v ===== *)
(** * StorageSpec: handles are closed exactly once, reads give what is stored *)

From S2P Require Import Prelude TeeDefines UteeError Storage.
Import PersistentObjectOps.

Section Objects.
Context `{!Target, !TargetOk} {St : Type} `{!TrustedStorage St, !TrustedStorageOk St}.

Lemma tee_check_err code e :
  tee_check code = Err e -> code <> TEE_SUCCESS /\ e = Error.from_raw_error code.
Proof. unfold tee_check. case_if; [done|]. by intros [= <-]. Qed.

Lemma tee_check_ok code u : tee_check code = Ok u -> code = TEE_SUCCESS.
Proof. unfold tee_check. by case_if. Qed.

Lemma kind_item_not_found code :
  Error.kind (Error.from_raw_error code) = ErrorKind.ItemNotFound
    <-> code = TEE_ERROR_ITEM_NOT_FOUND.
Proof.
  split; [|by intros ->]. intros Hk. rewrite <- (from_raw_error_code code).
  unfold Error.raw_code. by rewrite Hk.
Qed.

(** A storage on which no call closes the handle of a corrupt object: either the TEE has
    the property [gpd.ta.doesNotCloseHandleOnCorruptObject], or no object is ever corrupt. *)
Definition corrupt_safe : Prop := keeps_corrupt = true \/ TrustedStorageReliable St.

(** [open] gives a handle of its own or changes nothing. *)
Lemma open_object_spec sid oid fl (s : St) :
  let key := (ObjectStorageConstants.into_u32 sid, oid) in
  len oid <= TEE_OBJECT_ID_MAX_LEN ->
  exists r s', open sid oid fl s = Ret (r, s') /\
    match r with
    | Ok o => is_Some (objs s !! key) /\ hnds s !! raw_ref o = None /\ raw_ref o <> 0 /\
        objs s' = objs s /\ hnds s' = <[raw_ref o := (key, (fl, 0))]> (hnds s)
    | Err e => unchanged s s' /\ (Error.kind e = ErrorKind.ItemNotFound -> objs s !! key = None)
    end.
Proof.
  intros key Hlen. unfold open.
  destruct (open_spec (ObjectStorageConstants.into_u32 sid) oid fl s Hlen)
    as (code & h & s' & E & [(-> & Ho & Hh & Hn & Hobj & Hhnd)|(Hc & Hu & Hnf)]);
    erewrite pbind_Ret by done; cbn [fst snd].
  - cbn. unfold pret, ptry, pbind, Handle.from_raw. rewrite (proj2 (Z.eqb_neq h 0) Hh).
    eexists _, _. split; [reflexivity|]. cbn. done.
  - unfold tee_check. rewrite (proj2 (Z.eqb_neq _ _) Hc). eexists _, _. split; [reflexivity|].
    split; [done|]. by rewrite kind_item_not_found.
Qed.

Lemma open_object_long sid oid fl (s : St) :
  TEE_OBJECT_ID_MAX_LEN < len oid -> open sid oid fl s = Panic.
Proof. intros Hl. unfold open, pbind. by rewrite open_long. Qed.

Lemma create_object_spec sid oid fl d (s : St) :
  let key := (ObjectStorageConstants.into_u32 sid, oid) in
  len oid <= TEE_OBJECT_ID_MAX_LEN ->
  exists r s', create sid oid fl None d s = Ret (r, s') /\
    match r with
    | Ok o => hnds s !! raw_ref o = None /\ raw_ref o <> 0 /\
        objs s' = <[key := d]> (objs s) /\ hnds s' = <[raw_ref o := (key, (fl, 0))]> (hnds s)
    | Err e => unchanged s s'
    end.
Proof.
  intros key Hlen. unfold create.
  destruct (create_spec (ObjectStorageConstants.into_u32 sid) oid fl d s Hlen)
    as (code & h & s' & E & [(-> & Hh & Hn & _ & Hobj & Hhnd)|(Hc & Hu)]);
    erewrite pbind_Ret by done; cbn [fst snd].
  - cbn. unfold Handle.from_raw. rewrite (proj2 (Z.eqb_neq h 0) Hh).
    eexists _, _. split; [reflexivity|]. cbn. done.
  - unfold tee_check. rewrite (proj2 (Z.eqb_neq _ _) Hc). eexists _, _. split; [reflexivity|]. done.
Qed.

Lemma create_object_long sid oid fl a d (s : St) :
  TEE_OBJECT_ID_MAX_LEN < len oid -> create sid oid fl a d s = Panic.
Proof. intros Hl. unfold create, pbind. by rewrite create_long. Qed.

Lemma drop_object_spec o (s : St) :
  raw_ref o <> 0 -> is_Some (hnds s !! raw_ref o) ->
  exists s', drop_object o s = Ret (tt, s') /\ objs s' = objs s /\
    hnds s' = delete (raw_ref o) (hnds s).
Proof.
  intros Hnn Ho. unfold drop_object, Handle.drop_handle, Handle.is_null.
  change (oh_raw (po_handle o)) with (raw_ref o).
  rewrite (proj2 (Z.eqb_neq _ _) Hnn). cbn [negb].
  destruct (close_spec (raw_ref o) s Ho) as (s' & E & Hs). rewrite E. by exists s'.
Qed.

(** The handle is gone whatever the TEE answers, and [forget] keeps [Drop] from
    closing it again. *)
Lemma close_and_delete_spec o (s : St) key fl pos :
  hnds s !! raw_ref o = Some (key, (fl, pos)) -> has_right fl DataFlag.ACCESS_WRITE_META ->
  exists r s', close_and_delete o s = Ret (r, s') /\ hnds s' = delete (raw_ref o) (hnds s) /\
    match r with
    | Ok _ => objs s' = delete key (objs s)
    | Err _ => objs s' = objs s
    end.
Proof.
  intros Ho Hr. unfold close_and_delete. destruct key as [sid oid].
  destruct (delete_spec _ _ _ _ _ _ Ho Hr) as (code & s' & E & Hh & Hobj).
  erewrite pbind_Ret by done.
  eexists _, _. split; [reflexivity|]. split; [done|]. unfold tee_check. by destruct (_ =? _).
Qed.

Lemma refused_unchanged h code (s s' : St) :
  refused h code s s' -> keeps_corrupt = true -> unchanged s s'.
Proof. intros (_ & Ho & [Hh|[[Hk _] _]]) Hc; [done|congruence]. Qed.

Lemma info_object_spec o (s : St) d pos :
  corrupt_safe -> handle_data s (raw_ref o) = Some (d, pos) ->
  exists r s', info o s = Ret (r, s') /\ unchanged s s' /\
    match r with
    | Ok i => data_size i = len d /\ dataPosition i = pos
    | Err _ => True
    end.
Proof.
  intros Hsafe Hd. unfold info.
  destruct (info_spec _ _ _ _ Hd) as (code & i & s' & E & Hi). erewrite pbind_Ret by done.
  cbn [fst snd]. unfold tee_check. destruct Hi as [(-> & Hu & Hi)|Hr].
  - eexists _, _. split; [reflexivity|]. done.
  - pose proof Hr as [Hc _]. rewrite (proj2 (Z.eqb_neq _ _) Hc).
    eexists _, _. split; [reflexivity|]. split; [|done].
    destruct Hsafe as [Hk|Hrel]; [by eapply refused_unchanged|].
    destruct Hc. by eapply (info_reliable _ s (code, i)).
Qed.

Lemma handle_data_at (s : St) h d pos :
  handle_data s h = Some (d, pos) ->
  exists sid oid fl, hnds s !! h = Some (sid, oid, (fl, pos)) /\ objs s !! (sid, oid) = Some d.
Proof.
  unfold handle_data. destruct (hnds s !! h) as [[[sid oid] [fl p]]|]; [|done].
  destruct (objs s !! (sid, oid)) eqn:Ho; [|done]. cbn. intros [= <- <-]. by exists sid, oid, fl.
Qed.

Lemma may_right (s : St) h key fl pos right :
  hnds s !! h = Some (key, (fl, pos)) -> may s h right -> has_right fl right.
Proof.
  intros Hh (fl' & Hr & Hright). unfold rights in Hr. rewrite lookup_fmap, Hh in Hr.
  by injection Hr as <-.
Qed.

(** [read] fills a prefix of the buffer with what follows the position. *)
Lemma read_object_spec o (s : St) d pos buf :
  corrupt_safe -> handle_data s (raw_ref o) = Some (d, pos) ->
  may s (raw_ref o) DataFlag.ACCESS_READ ->
  exists r s', read o buf s = Ret (r, s') /\
    match r with
    | (Ok n, buf') => exists l, l = take (length buf) (drop (Z.to_nat pos) d) /\
        n = wrap_u 32 (len l) /\ buf' = splice buf 0 l /\ objs s' = objs s /\
        exists key fl, hnds s !! raw_ref o = Some (key, (fl, pos)) /\
          hnds s' = <[raw_ref o := (key, (fl, pos + len l))]> (hnds s)
    | (Err _, buf') => buf' = buf /\ unchanged s s'
    end.
Proof.
  intros Hsafe Hd Hmay. unfold read.
  destruct (handle_data_at _ _ _ _ Hd) as (sid & oid & fl & Hh & Ho).
  destruct (read_spec _ (len buf) _ _ _ _ _ _ Hh (may_right _ _ _ _ _ _ Hh Hmay) Ho
              (len_nonneg buf)) as (code & l & s' & E & Hr). erewrite pbind_Ret by done.
  cbn [fst snd]. unfold tee_check. destruct Hr as [(-> & Hl & Hobj & Hh')|Hr].
  - eexists _, _. split; [reflexivity|]. exists l.
    replace (Z.to_nat (len buf)) with (length buf) in Hl by (unfold len; lia).
    split_and!; try done. by exists (sid, oid), fl.
  - pose proof Hr as [Hc _]. rewrite (proj2 (Z.eqb_neq _ _) Hc).
    eexists _, _. split; [reflexivity|]. split; [done|].
    destruct Hsafe as [Hk|Hrel]; [by eapply refused_unchanged|].
    destruct Hc. apply (read_reliable (raw_ref o) (len buf) s (code, l) s'); [|done].
    rewrite Hd. eauto.
Qed.

(** ** On a reliable storage the operations do not fail *)

Section Reliable.
Context `{!TrustedStorageReliable St}.

Lemma reliable_safe : corrupt_safe.
Proof. by right. Qed.

Lemma open_not_err sid oid fl (s s' : St) e :
  len oid <= TEE_OBJECT_ID_MAX_LEN ->
  not_open s (ObjectStorageConstants.into_u32 sid) oid ->
  open sid oid fl s = Ret (Err e, s') ->
  objs s !! (ObjectStorageConstants.into_u32 sid, oid) = None /\
  Error.kind e = ErrorKind.ItemNotFound.
Proof.
  intros Hlen Hn Hopen. unfold open in Hopen.
  destruct (open_spec (ObjectStorageConstants.into_u32 sid) oid fl s Hlen)
    as (code & h & s1 & E & Hcase). erewrite pbind_Ret in Hopen by exact E.
  destruct (objs s !! (ObjectStorageConstants.into_u32 sid, oid)) as [d|] eqn:Ho.
  - pose proof (open_reliable _ _ fl s _ _ ltac:(rewrite Ho; eauto) Hn E) as Hc. cbn in Hc.
    subst code. destruct Hcase as [(_ & _ & Hh & _)|[? _]]; [|done]. exfalso.
    cbn in Hopen. unfold pret, ptry, pbind, Handle.from_raw in Hopen.
    by rewrite (proj2 (Z.eqb_neq h 0) Hh) in Hopen.
  - split; [done|]. pose proof (open_absent _ _ fl s _ _ Ho E) as Hc. cbn in Hc. subst code.
    cbn in Hopen. by injection Hopen as <- _.
Qed.

Lemma create_not_err sid oid fl d (s s' : St) e :
  len oid <= TEE_OBJECT_ID_MAX_LEN -> Z.land fl DataFlag.OVERWRITE <> 0 ->
  not_open s (ObjectStorageConstants.into_u32 sid) oid ->
  create sid oid fl None d s <> Ret (Err e, s').
Proof.
  intros Hlen Hf Hn. unfold create.
  destruct (create_spec (ObjectStorageConstants.into_u32 sid) oid fl d s Hlen)
    as (code & h & s1 & E & Hcase). erewrite pbind_Ret by exact E.
  pose proof (create_reliable _ _ fl 0 d s _ _ Hf Hn E) as Hc. cbn in Hc. subst code.
  destruct Hcase as [(_ & Hh & _)|[? _]]; [|done].
  cbn. unfold Handle.from_raw. by rewrite (proj2 (Z.eqb_neq h 0) Hh).
Qed.

Lemma info_not_err o (s s' : St) e :
  is_Some (handle_data s (raw_ref o)) -> info o s <> Ret (Err e, s').
Proof.
  intros [[d pos] Hd]. unfold info. destruct (info_spec _ _ _ _ Hd) as (code & i & s1 & E & _).
  erewrite pbind_Ret by exact E.
  pose proof (info_reliable _ s _ _ ltac:(rewrite Hd; eauto) E) as Hc. cbn in Hc. by subst code.
Qed.

Lemma read_not_err o buf (s s' : St) e b :
  is_Some (handle_data s (raw_ref o)) -> may s (raw_ref o) DataFlag.ACCESS_READ ->
  read o buf s <> Ret ((Err e, b), s').
Proof.
  intros Hd Hmay. unfold read.
  destruct (read_keeps _ (len buf) s Hmay (len_nonneg buf)) as ([code l] & s1 & E & _).
  erewrite pbind_Ret by exact E.
  pose proof (read_reliable _ _ s _ _ Hd E) as Hc. cbn in Hc. by subst code.
Qed.

Lemma close_and_delete_not_err o (s s' : St) e key fl pos :
  hnds s !! raw_ref o = Some (key, (fl, pos)) -> has_right fl DataFlag.ACCESS_WRITE_META ->
  close_and_delete o s <> Ret (Err e, s').
Proof.
  intros Hh Hr. unfold close_and_delete. destruct key as [sid oid].
  destruct (delete_spec _ _ _ _ _ _ Hh Hr) as (code & s1 & E & _).
  erewrite pbind_Ret by exact E.
  pose proof (delete_reliable _ s _ _ ltac:(rewrite Hh; eauto) E) as ->. done.
Qed.

End Reliable.

(** ** The life of a handle *)

(** What a TA can do with an open object besides closing it. *)
Inductive object_op : Type :=
| OpRead (buf : bytes) | OpReadRemaining | OpInfo | OpWrite (buf : bytes) | OpTruncate (n : Z)
| OpSeek (off : Z) (w : Whence) | OpRename (oid : bytes) | OpRestrict (usage : Z).

Definition run_op (o : PersistentObject) (op : object_op) : prog St (Result unit) :=
  match op with
  | OpRead buf => let* r := read o buf in pret (result_map (fun _ => tt) r.1)
  | OpReadRemaining => let? _ := read_remaining_to_vec o in pret (Ok tt)
  | OpInfo => let? _ := info o in pret (Ok tt)
  | OpWrite buf => write o buf
  | OpTruncate n => truncate o n
  | OpSeek off w => seek o off w
  | OpRename oid => rename o oid
  | OpRestrict u => restrict_usage o u
  end.

(** The answers of the operations. *)
Fixpoint run_ops (o : PersistentObject) (ops : list object_op) : prog St (list (Result unit)) :=
  match ops with
  | [] => pret []
  | op :: ops' => let* r := run_op o op in let* rs := run_ops o ops' in pret (r :: rs)
  end.

(** Open, work, and let go of the object, by dropping or by deleting it. *)
Definition use_object sid oid fl ops (delete_it : bool)
    : prog St (Result (list (Result unit) * Result unit)) :=
  let? o := open sid oid fl in
  let* rs := run_ops o ops in
  if delete_it then let* r := close_and_delete o in pret (Ok (rs, r))
  else let* _ := drop_object o in pret (Ok (rs, Ok tt)).

(** What the flags an object is opened with allow: the documented preconditions of
    the calls. *)
Definition op_allowed (fl : Z) (op : object_op) : Prop :=
  match op with
  | OpRead _ | OpReadRemaining => has_right fl DataFlag.ACCESS_READ
  | OpWrite _ | OpTruncate _ => has_right fl DataFlag.ACCESS_WRITE
  | OpRename oid => has_right fl DataFlag.ACCESS_WRITE_META /\ len oid <= TEE_OBJECT_ID_MAX_LEN
  | OpInfo | OpSeek _ _ | OpRestrict _ => True
  end.

Definition corrupt {A} (r : Result A) : Prop :=
  match r with Ok _ => False | Err e => Error.kind e = ErrorKind.CorruptObject end.

(** No operation of a run answers [CorruptObject]. *)
Fixpoint corrupt_free (o : PersistentObject) (ops : list object_op) (s : St) : Prop :=
  match ops with
  | [] => True
  | op :: ops' =>
      forall r s', run_op o op s = Ret (r, s') -> ~ corrupt r /\ corrupt_free o ops' s'
  end.

(** [r], from [s] to [s'], ended no handle but that of a corrupt object. *)
Definition ended {A} (h : Z) (r : Result A) (s s' : St) : Prop :=
  rights s' = rights s \/ (keeps_corrupt = false /\ corrupt r /\ rights s' = delete h (rights s)).

(** While [h] is open with the flags [fl], [m] returns and ends no other handle. *)
Definition keeps {A} (h fl : Z) (m : prog St (Result A)) : Prop :=
  forall s, rights s !! h = Some fl -> exists r s', m s = Ret (r, s') /\ ended h r s s'.

Lemma keeps_pret {A} h fl (r : Result A) : keeps h fl (pret r).
Proof. intros s _. exists r, s. split; [done|by left]. Qed.

Lemma keeps_try {A B} h fl (m : prog St (Result A)) (f : A -> prog St (Result B)) :
  keeps h fl m -> (forall a, keeps h fl (f a)) -> keeps h fl (ptry m f).
Proof.
  intros Hm Hf s Hs. destruct (Hm s Hs) as (r & s1 & E & Hend). destruct r as [a|e].
  - destruct Hend as [Hr|(_ & [] & _)]. destruct (Hf a s1) as (r & s2 & E2 & Hend2);
      [by rewrite Hr|]. erewrite ptry_Ok by exact E. exists r, s2. split; [done|].
    unfold ended in *. by rewrite Hr in Hend2.
  - erewrite ptry_Err by exact E. by exists (Err e), s1.
Qed.

Lemma tee_check_ended h code (s s' : St) : keeps_open h code s s' -> ended h (tee_check code) s s'.
Proof. intros [?|[[? ->] ?]]; [by left|by right]. Qed.

Lemma keeps_code h fl (m : prog St Z) :
  (forall s, rights s !! h = Some fl -> exists code s', m s = Ret (code, s') /\ keeps_open h code s s') ->
  keeps h fl (let* code := m in pret (tee_check code)).
Proof.
  intros Hm s Hs. destruct (Hm s Hs) as (code & s' & E & Hk). erewrite pbind_Ret by exact E.
  exists (tee_check code), s'. split; [done|by apply tee_check_ended].
Qed.

Lemma may_open (s : St) h fl right :
  rights s !! h = Some fl -> has_right fl right -> may s h right.
Proof. intros. by exists fl. Qed.

Lemma keeps_info o fl : keeps (raw_ref o) fl (info o).
Proof.
  intros s Hs. destruct (info_keeps (raw_ref o) s ltac:(rewrite Hs; eauto)) as ([code i] & s' & E & Hk).
  unfold info. erewrite pbind_Ret by exact E. cbn [fst snd] in *.
  apply tee_check_ended in Hk. unfold ptry, pret, pbind. destruct (tee_check code); eauto.
Qed.

(** [read], as a result with the buffer. *)
Lemma read_ended o buf fl (s : St) :
  rights s !! raw_ref o = Some fl -> has_right fl DataFlag.ACCESS_READ ->
  exists r b s', read o buf s = Ret ((r, b), s') /\ ended (raw_ref o) r s s'.
Proof.
  intros Hs Hr. unfold read.
  destruct (read_keeps _ (len buf) s (may_open _ _ _ _ Hs Hr) (len_nonneg buf))
    as ([code l] & s' & E & Hk). erewrite pbind_Ret by exact E. cbn [fst snd] in *.
  apply tee_check_ended in Hk. destruct (tee_check code); eexists _, _, _; (split; [done|]); done.
Qed.

Lemma keeps_read_with {A} o buf fl (f : Z -> bytes -> A) :
  has_right fl DataFlag.ACCESS_READ ->
  keeps (raw_ref o) fl
    (let* r := read o buf in
     match r with (Ok n, b) => pret (Ok (f n b)) | (Err e, _) => pret (Err e) end).
Proof.
  intros Hr s Hs. destruct (read_ended o buf fl s Hs Hr) as (r & b & s' & E & Hend).
  erewrite pbind_Ret by exact E. destruct r; eexists _, _; (split; [done|]); done.
Qed.

Lemma keeps_read_remaining o fl :
  has_right fl DataFlag.ACCESS_READ -> keeps (raw_ref o) fl (read_remaining_to_vec o).
Proof.
  intros Hr. apply keeps_try; [apply keeps_info|]. intros i. cbv zeta.
  repeat case_if; auto using keeps_pret.
  by apply (keeps_read_with o _ fl (fun n b => take (Z.to_nat n) b)).
Qed.

Lemma keeps_run_op o fl op : op_allowed fl op -> keeps (raw_ref o) fl (run_op o op).
Proof.
  destruct op; cbn [run_op op_allowed]; intros Ha.
  - intros s Hs. destruct (read_ended o buf fl s Hs Ha) as (r & b & s' & E & Hend).
    erewrite pbind_Ret by exact E. destruct r; eexists _, _; (split; [done|]); done.
  - apply keeps_try; auto using keeps_read_remaining, keeps_pret.
  - apply keeps_try; auto using keeps_info, keeps_pret.
  - apply keeps_code. intros s Hs. eauto using write_keeps, may_open.
  - apply keeps_code. intros s Hs. eauto using truncate_keeps, may_open.
  - apply keeps_code. intros s Hs. apply seek_keeps. rewrite Hs. eauto.
  - destruct Ha. apply keeps_code. intros s Hs. eauto using rename_keeps, may_open.
  - apply keeps_code. intros s Hs. apply restrict_keeps. rewrite Hs. eauto.
Qed.

Lemma run_ops_keep o fl ops : forall s : St,
  rights s !! raw_ref o = Some fl -> Forall (op_allowed fl) ops ->
  keeps_corrupt = true \/ corrupt_free o ops s ->
  exists rs s', run_ops o ops s = Ret (rs, s') /\ rights s' = rights s.
Proof.
  induction ops as [|op ops IH]; intros s Hs Hops Hsafe; [by exists [], s|].
  apply Forall_cons_1 in Hops as [Hop Hops]. cbn [run_ops].
  destruct (keeps_run_op o fl op Hop s Hs) as (r & s1 & E & Hend). erewrite pbind_Ret by exact E.
  assert (rights s1 = rights s /\ (keeps_corrupt = true \/ corrupt_free o ops s1)) as [Hr1 Hsafe1].
  { destruct Hsafe as [Hk|Hfree].
    - split; [|by left]. destruct Hend as [?|(Hk' & _)]; [done|congruence].
    - destruct (Hfree r s1 E) as [Hn Hfree1]. split; [|by right].
      destruct Hend as [?|(_ & Hc & _)]; [done|by destruct Hn]. }
  destruct (IH s1) as (rs & s2 & E2 & Hr2); [by rewrite Hr1|done|done|].
  erewrite pbind_Ret by exact E2. exists (r :: rs), s2. split; [done|congruence].
Qed.

Lemma dom_rights (s : St) : dom (rights s) = dom (hnds s).
Proof. unfold rights. by rewrite dom_fmap_L. Qed.

(** C22: persistent-object handles are neither leaked nor closed twice: opening
    an object (by an identifier of at most 64 bytes), doing anything with it that
    the flags it was opened with allow (reading, writing, renaming to an identifier of
    at most 64 bytes) and then dropping or deleting it (with the right to) always
    returns, so the TEE is never asked to close a handle that is not open, and ends
    with the handles that were open before, whatever the storage answers, with one
    exception: where the TEE closes the handle of an object it finds corrupt
    ([gpd.ta.doesNotCloseHandleOnCorruptObject] is false), no operation in between
    answers [CorruptObject]. *)
Theorem object_handle_lifecycle sid oid fl ops delete_it (s : St) :
  len oid <= TEE_OBJECT_ID_MAX_LEN -> Forall (op_allowed fl) ops ->
  (delete_it = true -> has_right fl DataFlag.ACCESS_WRITE_META) ->
  keeps_corrupt = true \/
    (forall o s1, open sid oid fl s = Ret (Ok o, s1) -> corrupt_free o ops s1) ->
  exists r s', use_object sid oid fl ops delete_it s = Ret (r, s') /\
    dom (hnds s') = dom (hnds s).
Proof.
  intros Hlen Hops Hdel Hsafe. unfold use_object.
  destruct (open_object_spec sid oid fl s Hlen) as (r & s1 & E & Hr).
  destruct r as [o|e]; [|erewrite ptry_Err by done; eexists _, _; split; [done|];
    destruct Hr as [[_ ->] _]; done].
  erewrite ptry_Ok by done. destruct Hr as (_ & Hnew & Hnn & _ & Hh).
  destruct (run_ops_keep o fl ops s1) as (rs & s2 & E2 & Hr2);
    [unfold rights; by rewrite lookup_fmap, Hh, lookup_insert_eq|done|naive_solver|].
  erewrite pbind_Ret by done.
  assert (rights s2 !! raw_ref o = Some fl) as Hfl
    by (rewrite Hr2; unfold rights; by rewrite lookup_fmap, Hh, lookup_insert_eq).
  unfold rights in Hfl. rewrite lookup_fmap in Hfl.
  apply fmap_Some in Hfl as ([key [fl' pos]] & Ho & ->). cbn in *.
  assert (dom (hnds s2) ∖ {[raw_ref o]} = dom (hnds s)) as Hdom.
  { rewrite <- dom_rights, Hr2, dom_rights, Hh, dom_insert_L.
    apply not_elem_of_dom in Hnew. clear -Hnew. set_solver. }
  destruct delete_it.
  - destruct (close_and_delete_spec o s2 key fl' pos Ho (Hdel eq_refl)) as (r & s3 & E3 & Hh3 & _).
    erewrite pbind_Ret by done. eexists _, s3. split; [done|]. by rewrite Hh3, dom_delete_L.
  - destruct (drop_object_spec o s2 Hnn ltac:(eauto)) as (s3 & E3 & _ & Hh3).
    erewrite pbind_Ret by done. eexists _, s3. split; [done|]. by rewrite Hh3, dom_delete_L.
Qed.

Lemma drop_past {A} (n : nat) (l : list A) : (length l <= n)%nat -> drop n l = [].
Proof. apply drop_ge. Qed.

Lemma unchanged_data (s s' : St) h : unchanged s s' -> handle_data s' h = handle_data s h.
Proof. intros [Ho Hh]. unfold handle_data. by rewrite Ho, Hh. Qed.

Lemma unchanged_may (s s' : St) h right : unchanged s s' -> may s h right -> may s' h right.
Proof. intros [_ Hh]. unfold may, rights. by rewrite Hh. Qed.

(** [read_remaining_to_vec] gives exactly the bytes from the data position
    to the end of the object (none at or beyond the end) and leaves the stored
    objects alone; any other answer is an error of the storage or
    [OutOfMemory], and on a storage that does not fail it always answers. *)
Lemma read_remaining_correct o (s : St) d pos :
  corrupt_safe -> handle_data s (raw_ref o) = Some (d, pos) ->
  may s (raw_ref o) DataFlag.ACCESS_READ -> 0 <= pos -> len d < 2 ^ 32 ->
  exists r s', read_remaining_to_vec o s = Ret (r, s') /\ objs s' = objs s /\
    (forall l, r = Ok l -> l = drop (Z.to_nat pos) d) /\
    (TrustedStorageReliable St -> len d < 2 ^ (ptr_bits - 1) -> r = Ok (drop (Z.to_nat pos) d)).
Proof.
  intros Hsafe Hd Hmay Hpos Hlen. unfold read_remaining_to_vec.
  destruct (info_object_spec o s d pos Hsafe Hd) as (ri & s1 & E & Hu & Hi).
  destruct ri as [i|e].
  2:{ erewrite ptry_Err by done. eexists _, _. split; [reflexivity|]. split; [by destruct Hu|].
      split; [done|]. intros Hrel _. by destruct (info_not_err o s s1 e). }
  erewrite ptry_Ok by done. destruct Hi as [Hsz Hps]. rewrite Hsz, Hps. cbv zeta.
  case_if; [case_if|].
  - eexists _, _. split; [reflexivity|]. split; [by destruct Hu|]. split; [done|].
    intros _ Hlt. lia.
  - rewrite <- (unchanged_data s s1 _ Hu) in Hd.
    apply (unchanged_may s s1 _ _ Hu) in Hmay.
    destruct (read_object_spec o s1 d pos (zeros (Z.max 0 (len d - pos))) Hsafe Hd Hmay)
      as (r & s2 & E2 & Hr). erewrite pbind_Ret by done.
    assert (length (zeros (Z.max 0 (len d - pos))) = length (drop (Z.to_nat pos) d)) as Hz.
    { unfold zeros, len. rewrite length_replicate, length_drop. lia. }
    destruct r as [[n|e] buf].
    + destruct Hr as (l & Hl & -> & -> & Ho & _). rewrite Hz, take_ge in Hl by lia. subst l.
      assert (0 <= len (drop (Z.to_nat pos) d) < 2 ^ 32) as Hr
        by (unfold len in *; rewrite length_drop; lia).
      rewrite wrap_u_small by done. rewrite splice_full by (by apply len_eq).
      rewrite take_ge by (unfold len; lia).
      eexists _, _. split; [reflexivity|]. destruct Hu as [Hu _].
      split; [congruence|]. split; [by intros ? [= <-]|done].
    + destruct Hr as [_ [Ho _]]. eexists _, _. split; [reflexivity|]. destruct Hu as [Hu _].
      split; [congruence|]. split; [done|]. intros Hrel _.
      by destruct (read_not_err o (zeros (Z.max 0 (len d - pos))) s1 s2 e buf).
  - rewrite drop_past by (unfold len in *; lia). eexists _, _. split; [reflexivity|].
    split; [by destruct Hu|]. split; [by intros ? [= <-]|done].
Qed.

End Objects.

(** ** A storage in memory *)

Module RamStorage.

Record ram : Type := mkRam { ro : gmap (Z * bytes) bytes; rh : gmap Z (Z * bytes * (Z * Z)) }.

Definition new_handle (s : ram) : Z := fresh ({[0]} ∪ dom (rh s)).

Definition opened (sid : Z) (oid : bytes) (fl : Z) (s : ram) : (Z * Z) * ram :=
  ((TEE_SUCCESS, new_handle s), mkRam (ro s) (<[new_handle s := (sid, oid, (fl, 0))]> (rh s))).

Definition ram_open (sid : Z) (oid : bytes) (fl : Z) (s : ram) : outcome ((Z * Z) * ram) :=
  if TEE_OBJECT_ID_MAX_LEN <? len oid then Panic
  else match ro s !! (sid, oid) with
       | Some _ => Ret (opened sid oid fl s)
       | None => Ret ((TEE_ERROR_ITEM_NOT_FOUND, 0), s)
       end.

Definition ram_create (sid : Z) (oid : bytes) (fl attr : Z) (d : bytes) (s : ram)
    : outcome ((Z * Z) * ram) :=
  if TEE_OBJECT_ID_MAX_LEN <? len oid then Panic
  else if bool_decide (is_Some (ro s !! (sid, oid))) && (Z.land fl DataFlag.OVERWRITE =? 0)
  then Ret ((TEE_ERROR_ACCESS_CONFLICT, 0), s)
  else let '(r, s') := opened sid oid fl s in
       Ret (r, mkRam (<[(sid, oid) := d]> (ro s')) (rh s')).

(** The object of an open handle that has a right, with its flags and position. *)
Definition with_right {A} (h right : Z) (s : ram) (k : Z * bytes -> Z -> Z -> outcome A) : outcome A :=
  match rh s !! h with
  | Some (key, (fl, pos)) => if Z.land fl right =? 0 then Panic else k key fl pos
  | None => Panic
  end.

Definition ram_delete (h : Z) (s : ram) : outcome (Z * ram) :=
  with_right h DataFlag.ACCESS_WRITE_META s (fun key fl pos =>
    Ret (TEE_SUCCESS, mkRam (delete key (ro s)) (delete h (rh s)))).

Definition ram_rename (h : Z) (oid : bytes) (s : ram) : outcome (Z * ram) :=
  with_right h DataFlag.ACCESS_WRITE_META s (fun key fl pos =>
    if TEE_OBJECT_ID_MAX_LEN <? len oid then Panic else Ret (TEE_ERROR_ACCESS_CONFLICT, s)).

Section Reading.
(** Whether the TEE finds objects corrupt when it reads them; it then closes their
    handles. *)
Context (corrupting : bool).

Definition ram_read (h n : Z) (s : ram) : outcome ((Z * bytes) * ram) :=
  with_right h DataFlag.ACCESS_READ s (fun key fl pos =>
    if corrupting then Ret ((TEE_ERROR_CORRUPT_OBJECT, []), mkRam (ro s) (delete h (rh s)))
    else match ro s !! key with
         | Some d => let l := take (Z.to_nat n) (drop (Z.to_nat pos) d) in
             Ret ((TEE_SUCCESS, l), mkRam (ro s) (<[h := (key, (fl, pos + len l))]> (rh s)))
         | None => Ret ((TEE_ERROR_BAD_STATE, []), s)
         end).

End Reading.

(** Writing beyond the end fills the gap with zeros. *)
Definition ram_write (h : Z) (l : bytes) (s : ram) : outcome (Z * ram) :=
  with_right h DataFlag.ACCESS_WRITE s (fun key fl pos =>
    match ro s !! key with
    | Some d => Ret (TEE_SUCCESS, mkRam (<[key := write_data d pos l]> (ro s))
                                        (<[h := (key, (fl, pos + len l))]> (rh s)))
    | None => Ret (TEE_ERROR_BAD_STATE, s)
    end).

Definition ram_truncate (h n : Z) (s : ram) : outcome (Z * ram) :=
  with_right h DataFlag.ACCESS_WRITE s (fun key fl pos => Ret (TEE_ERROR_STORAGE_NO_SPACE, s)).

Definition ram_info (h : Z) (s : ram) : outcome ((Z * ObjectInfo) * ram) :=
  match rh s !! h with
  | Some (key, (fl, pos)) =>
      match ro s !! key with
      | Some d => Ret ((TEE_SUCCESS, mkObjectInfo 0 0 0 0 (len d) pos 0), s)
      | None => Ret ((TEE_ERROR_BAD_STATE, mkObjectInfo 0 0 0 0 0 0 0), s)
      end
  | None => Panic
  end.

(** A call this storage refuses, on an open handle. *)
Definition ram_refuse (h : Z) (s : ram) : outcome (Z * ram) :=
  if bool_decide (is_Some (rh s !! h)) then Ret (TEE_ERROR_STORAGE_NOT_AVAILABLE, s) else Panic.

Definition ram_storage_of (corrupting : bool) : TrustedStorage ram := {|
  TEE_OpenPersistentObject := ram_open;
  TEE_CreatePersistentObject := ram_create;
  TEE_CloseAndDeletePersistentObject1 := ram_delete;
  TEE_RenamePersistentObject := ram_rename;
  TEE_ReadObjectData := ram_read corrupting;
  TEE_WriteObjectData := ram_write;
  TEE_TruncateObjectData := ram_truncate;
  TEE_SeekObjectData h o w := ram_refuse h;
  TEE_GetObjectInfo1 := ram_info;
  TEE_RestrictObjectUsage1 h u := ram_refuse h;
  TEE_CloseObject h s :=
    if bool_decide (is_Some (rh s !! h)) then Ret (mkRam (ro s) (delete h (rh s))) else Panic;
  keeps_corrupt := negb corrupting;
  objs := ro;
  hnds := rh;
|}.

Lemma new_handle_fresh s : new_handle s <> 0 /\ rh s !! new_handle s = None.
Proof.
  pose proof (is_fresh ({[0]} ∪ dom (rh s))) as Hf. change (fresh _) with (new_handle s) in Hf.
  split; [intros He; apply Hf; rewrite He; set_solver|]. apply not_elem_of_dom. set_solver.
Qed.

Lemma with_right_at {A} h right s (k : Z * bytes -> Z -> Z -> outcome A) key fl pos :
  rh s !! h = Some (key, (fl, pos)) -> has_right fl right -> with_right h right s k = k key fl pos.
Proof. intros Hh Hr. unfold with_right. rewrite Hh. by rewrite (proj2 (Z.eqb_neq _ _) Hr). Qed.

Section Laws.
Context (corrupting : bool).
#[local] Instance laws_storage : TrustedStorage ram := ram_storage_of corrupting.

Lemma may_at (s : ram) h right :
  may s h right -> exists key fl pos, rh s !! h = Some (key, (fl, pos)) /\ has_right fl right.
Proof.
  intros (fl & Hr & Hright). unfold rights in Hr. rewrite lookup_fmap in Hr.
  apply fmap_Some in Hr as ([key [fl' pos]] & Hh & ->). by exists key, fl', pos.
Qed.

Lemma rights_at (s : ram) h : is_Some (rights s !! h) -> is_Some (rh s !! h).
Proof. unfold rights. rewrite lookup_fmap. apply fmap_is_Some. Qed.

Lemma rights_moved (s s' : ram) h key fl pos pos' :
  rh s !! h = Some (key, (fl, pos)) -> rh s' = <[h := (key, (fl, pos'))]> (rh s) ->
  rights s' = rights s.
Proof.
  intros Hh Hs. unfold rights. change (hnds s') with (rh s'). change (hnds s) with (rh s).
  rewrite Hs, fmap_insert. cbn. apply insert_id. by rewrite lookup_fmap, Hh.
Qed.

Lemma ram_refuse_keeps h (s : ram) :
  is_Some (rights s !! h) -> exists code s', ram_refuse h s = Ret (code, s') /\ keeps_open h code s s'.
Proof.
  intros Hh%rights_at. unfold ram_refuse. rewrite bool_decide_eq_true_2 by done.
  eexists _, _. split; [done|by left].
Qed.

Lemma ram_read_keeps h n (s : ram) :
  may s h DataFlag.ACCESS_READ ->
  exists r s', ram_read corrupting h n s = Ret (r, s') /\ keeps_open h r.1 s s'.
Proof.
  intros (key & fl & pos & Hh & Hr)%may_at. unfold ram_read.
  rewrite (with_right_at _ _ _ _ _ _ _ Hh Hr). case_if.
  - eexists _, _. split; [done|]. right. split; [split; [|done]|].
    + cbn. by destruct corrupting.
    + unfold rights. cbn. by rewrite fmap_delete.
  - destruct (ro s !! key); eexists _, _; (split; [done|]); left; [|done].
    by eapply rights_moved.
Qed.

Lemma ram_write_keeps h l (s : ram) :
  may s h DataFlag.ACCESS_WRITE ->
  exists code s', ram_write h l s = Ret (code, s') /\ keeps_open h code s s'.
Proof.
  intros (key & fl & pos & Hh & Hr)%may_at. unfold ram_write.
  rewrite (with_right_at _ _ _ _ _ _ _ Hh Hr).
  destruct (ro s !! key); eexists _, _; (split; [done|]); left; [|done].
  by eapply rights_moved.
Qed.

#[local] Instance laws_storage_ok : TrustedStorageOk ram.
Proof.
  split; cbn -[ram_read ram_write ram_refuse].
  - intros sid oid fl s Hl. unfold ram_open. by rewrite (proj2 (Z.ltb_lt _ _) Hl).
  - intros sid oid fl s Hl. unfold ram_open. rewrite (proj2 (Z.ltb_ge _ _) Hl).
    destruct (new_handle_fresh s). destruct (ro s !! (sid, oid)) eqn:E; eexists _, _, _;
      (split; [reflexivity|]); [left|right; done]. split_and!; eauto.
  - intros sid oid fl attr d s Hl. unfold ram_create. by rewrite (proj2 (Z.ltb_lt _ _) Hl).
  - intros sid oid fl d s Hl. unfold ram_create. rewrite (proj2 (Z.ltb_ge _ _) Hl).
    destruct (new_handle_fresh s). destruct (bool_decide _ && _) eqn:E; eexists _, _, _;
      (split; [reflexivity|]); [right; done|left].
    split_and!; try done. intros Hz. rewrite Hz, Z.eqb_refl, andb_true_r in E.
    apply bool_decide_eq_false in E. by apply eq_None_not_Some.
  - intros h s sid oid fl pos Hh Hr. unfold ram_delete.
    rewrite (with_right_at _ _ _ _ _ _ _ Hh Hr). eexists _, _. by split.
  - intros h n s sid oid fl pos d Hh Hr Ho _. unfold ram_read.
    rewrite (with_right_at _ _ _ _ _ _ _ Hh Hr), Ho. case_if.
    + eexists _, _, _. split; [done|]. right. split; [done|]. split; [done|]. right.
      split; [|done]. split; [|done]. cbn. by destruct corrupting.
    + eexists _, _, _. split; [done|]. by left.
  - intros h s d pos (sid & oid & fl & Hh & Ho)%handle_data_at. unfold ram_info.
    change (hnds s) with (rh s) in Hh. change (objs s) with (ro s) in Ho. rewrite Hh, Ho.
    eexists _, _, _. split; [done|]. by left.
  - intros h oid s (key & fl & pos & Hh & Hr)%may_at Hl. unfold ram_rename.
    rewrite (with_right_at _ _ _ _ _ _ _ Hh Hr), (proj2 (Z.ltb_ge _ _) Hl).
    eexists _, _. split; [done|by left].
  - intros h n s Hm _. by apply ram_read_keeps.
  - intros h l s Hm. by apply ram_write_keeps.
  - intros h n s (key & fl & pos & Hh & Hr)%may_at. unfold ram_truncate.
    rewrite (with_right_at _ _ _ _ _ _ _ Hh Hr). eexists _, _. split; [done|by left].
  - intros h o w s. apply ram_refuse_keeps.
  - intros h s [[key [fl pos]] Hh]%rights_at. unfold ram_info. rewrite Hh.
    destruct (ro s !! key); eexists _, _; (split; [done|by left]).
  - intros h u s. apply ram_refuse_keeps.
  - intros h s Hh. rewrite bool_decide_eq_true_2 by done. eauto.
Qed.

End Laws.

#[global] Instance ram_storage : TrustedStorage ram := ram_storage_of false.
#[global] Instance ram_storage_ok : TrustedStorageOk ram := laws_storage_ok false.

#[global] Instance ram_storage_reliable : TrustedStorageReliable ram.
Proof.
  split; cbn.
  - intros sid oid fl s r s' [d Hd] _. unfold ram_open. rewrite Hd. by case_if; intros [= <- _].
  - intros sid oid fl s r s' Hd. unfold ram_open. rewrite Hd. by case_if; intros [= <- _].
  - intros sid oid fl attr d s r s' Hf _. unfold ram_create.
    rewrite (proj2 (Z.eqb_neq _ _) Hf), andb_false_r. by case_if; intros [= <- _].
  - intros h s code s' [[key [fl pos]] Hh]. unfold ram_delete, with_right. rewrite Hh.
    by case_if; intros [= <- _].
  - intros h n s r s' [[d pos] (sid & oid & fl & Hh & Ho)%handle_data_at].
    unfold ram_read, with_right. change (hnds s) with (rh s) in Hh. change (objs s) with (ro s) in Ho.
    rewrite Hh, Ho. by case_if; intros [= <- _].
  - intros h s r s' [[d pos] (sid & oid & fl & Hh & Ho)%handle_data_at]. unfold ram_info.
    change (hnds s) with (rh s) in Hh. change (objs s) with (ro s) in Ho.
    rewrite Hh, Ho. by intros [= <- _].
Qed.

#[global] Instance ram_storage_write : TrustedStorageWrite ram.
Proof.
  split; cbn. intros h l s sid oid fl pos d Hh Hr Ho. unfold ram_write.
  rewrite (with_right_at _ _ _ _ _ _ _ Hh Hr), Ho. eauto.
Qed.

#[local] Instance ex_target : Target := 64.
#[local] Instance ex_target_ok : TargetOk := aarch64_ok.

Definition ram1 : ram :=
  mkRam {[ (1, [107]) := [10; 11; 12] ]} {[ 5 := (1, [107], (DataFlag.ACCESS_READ, 1)) ]}.

Lemma object_handle_lifecycle_witness :
  exists r s', use_object ObjectStorageConstants.Private [107] DataFlag.ACCESS_READ
                 [OpRead [0; 0]; OpInfo; OpReadRemaining] false ram1 = Ret (r, s') /\
    dom (rh s') = dom (rh ram1).
Proof.
  destruct (object_handle_lifecycle ObjectStorageConstants.Private [107] DataFlag.ACCESS_READ
              [OpRead [0; 0]; OpInfo; OpReadRemaining] false ram1) as (r & s' & E & Hd).
  - done.
  - repeat constructor; done.
  - done.
  - by left.
  - exists r, s'. split; [exact E|exact Hd].
Defined.

(** On a TEE without the property, a read that finds the object corrupt has closed the
    handle, which [Drop] then closes again. *)
Lemma corrupt_object_closed_twice :
  let _ := ram_storage_of true in
  TrustedStorageOk ram /\
  use_object ObjectStorageConstants.Private [107] DataFlag.ACCESS_READ [OpRead [0; 0]] false ram1
    = Panic.
Proof. split; [apply (laws_storage_ok true)|by vm_compute]. Qed.

Lemma read_remaining_correct_witness :
  exists s', read_remaining_to_vec (mkPersistentObject (mkObjectHandle 5)) ram1
               = Ret (Ok [11; 12], s').
Proof.
  destruct (read_remaining_correct (mkPersistentObject (mkObjectHandle 5)) ram1 [10; 11; 12] 1)
    as (r & s' & E & _ & _ & Hr); [by left|done| |lia|done|].
  { exists DataFlag.ACCESS_READ. by vm_compute. }
  exists s'. rewrite E, (Hr ram_storage_reliable ltac:(done)). done.
Defined.

End RamStorage.
