(* ===== verification/SecureDb.v ===== *)
(** * SecureDb: a key-value store over persistent objects

    Models [crates/secure_db/src/]: [backend.rs], [db.rs], [client.rs] and
    [storable.rs].  A Rust [String] is its UTF-8 bytes.  The bincode format is
    not part of the repository: serialisation is an interface whose law is that
    what was serialised deserialises to the same value.  Iterating a hash set
    gives its elements in some order, which is an interface too.  The lock
    around the client's database is not modelled: each operation is one step. *)

From S2P Require Import Prelude TeeDefines UteeError Storage.
Import PersistentObjectOps.

Abbreviation key := (list Z).

(** The errors ([anyhow]), by the message they carry. *)
Inductive db_error : Type :=
| FailedToCreate (e : Error)
| FailedToOpen (e : Error)
| FailedToRead
| TeeError (e : Error)
| BincodeError
| KeyNotFound
| ObjectNotFound
| Wrapped (e : db_error).

Definition DbResult (T : Type) : Type := result T db_error.

(** [bincode::serialize] / [deserialize] at a type [T]. *)
Class Bincode (T : Type) : Type := {
  serialize : T -> DbResult bytes;
  deserialize : bytes -> DbResult T;
}.
(** The output is a [Vec], so at most [isize::MAX] bytes. *)
Class BincodeOk (T : Type) `{!Target, Bincode T} : Prop := {
  deserialize_serialize x b : serialize x = Ok b -> deserialize b = Ok x;
  serialize_len x b : serialize x = Ok b -> len b < 2 ^ (ptr_bits - 1);
}.

(** The order in which a [HashSet] is iterated. *)
Class HashIter : Type := hash_iter : gset key -> list key.
Class HashIterOk `{HashIter} : Prop := hash_iter_perm s : hash_iter s ≡ₚ elements s.

Section Backend.
Context `{!Target} {St : Type} `{!TrustedStorage St}.

(** [|] on data flags. *)
Definition save_flags : Z :=
  Z.lor (Z.lor (Z.lor DataFlag.ACCESS_READ DataFlag.ACCESS_WRITE) DataFlag.ACCESS_WRITE_META)
        DataFlag.OVERWRITE.

(** The object returned by [create] is dropped at once. *)
Definition save_in_secure_storage (obj_id data : bytes) : prog St (DbResult unit) :=
  let* r := create ObjectStorageConstants.Private obj_id save_flags None data in
  match r with
  | Err e => pret (Err (FailedToCreate e))
  | Ok o => let* _ := drop_object o in pret (Ok tt)
  end.

(** The part of [load_from_secure_storage] that works on the open object; the
    object is dropped at every return. *)
Definition load_object (object : PersistentObject) : prog St (DbResult (option bytes)) :=
  let* ri := info object in
  match ri with
  | Err e => pret (Err (TeeError e))
  | Ok obj_info =>
      if 2 ^ (ptr_bits - 1) <=? data_size obj_info then plift Panic
      else
        let* rr := read object (zeros (data_size obj_info)) in
        match rr with
        | (Err e, _) => pret (Err (TeeError e))
        | (Ok read_bytes, buf) =>
            if negb (read_bytes =? wrap_u 32 (data_size obj_info))
            then pret (Err FailedToRead)
            else pret (Ok (Some buf))
        end
  end.

Definition load_from_secure_storage (obj_id : bytes) : prog St (DbResult (option bytes)) :=
  let* r := open ObjectStorageConstants.Private obj_id
              (Z.lor DataFlag.ACCESS_READ DataFlag.SHARE_READ) in
  match r with
  | Err e =>
      if bool_decide (Error.kind e = ErrorKind.ItemNotFound) then pret (Ok None)
      else pret (Err (FailedToOpen e))
  | Ok object =>
      let* res := load_object object in
      let* _ := drop_object object in
      pret res
  end.

Definition delete_from_secure_storage (obj_id : bytes) : prog St (DbResult unit) :=
  let* r := open ObjectStorageConstants.Private obj_id
              (Z.lor DataFlag.ACCESS_READ DataFlag.ACCESS_WRITE_META) in
  match r with
  | Err e => pret (Err (FailedToOpen e))
  | Ok object =>
      let* r := close_and_delete object in
      pret (map_err TeeError r)
  end.

End Backend.

(** ** [SecureStorageDb] *)

Record SecureStorageDb : Type := mkDb { name : key; key_list : gset key }.

Module Db.
Section Db.
Context `{!Target} {St : Type} `{!TrustedStorage St, !Bincode (gset key), !HashIter}.

Definition open (name : key) : prog St (DbResult SecureStorageDb) :=
  let? data := load_from_secure_storage name in
  match data with
  | Some data => pret (result_map (mkDb name) (deserialize data))
  | None => pret (Ok (mkDb name ∅))
  end.

Definition store_key_list (self : SecureStorageDb) : prog St (DbResult unit) :=
  let? key_list := pret (serialize (key_list self)) in
  save_in_secure_storage (name self) key_list.

(** The result, and the database after the call. *)
Definition put (self : SecureStorageDb) (k : key) (value : bytes)
    : prog St (DbResult unit * SecureStorageDb) :=
  let* r := save_in_secure_storage k value in
  match r with
  | Err e => pret (Err (Wrapped e), self)
  | Ok _ =>
      let self' := mkDb (name self) ({[k]} ∪ key_list self) in
      let* r := store_key_list self' in pret (r, self')
  end.

Definition get (self : SecureStorageDb) (k : key) : prog St (DbResult bytes) :=
  if bool_decide (k ∈ key_list self) then
    let* r := load_from_secure_storage k in
    pret (try o := map_err Wrapped r in ok_or o ObjectNotFound)
  else pret (Err KeyNotFound).

Definition delete (self : SecureStorageDb) (k : key)
    : prog St (DbResult unit * SecureStorageDb) :=
  if bool_decide (k ∈ key_list self) then
    let* r := delete_from_secure_storage k in
    match r with
    | Err e => pret (Err (Wrapped e), self)
    | Ok _ =>
        let self' := mkDb (name self) (key_list self ∖ {[k]}) in
        let* r := store_key_list self' in pret (r, self')
    end
  else pret (Err KeyNotFound, self).

(** The loop of [clear], over a copy of the key list. *)
Fixpoint clear_loop (self : SecureStorageDb) (ks : list key)
    : prog St (DbResult unit * SecureStorageDb) :=
  match ks with
  | [] => pret (Ok tt, self)
  | k :: ks' =>
      let* r := delete self k in
      match r with
      | (Ok _, self') => clear_loop self' ks'
      | (Err e, self') => pret (Err e, self')
      end
  end.

Definition clear (self : SecureStorageDb) : prog St (DbResult unit * SecureStorageDb) :=
  clear_loop self (hash_iter (key_list self)).

(** [key.starts_with(prefix)]. *)
Definition starts_with (k prefix : key) : bool := bool_decide (prefix `prefix_of` k).

Fixpoint list_loop (self : SecureStorageDb) (prefix : key) (ks : list key)
    (result : gmap key bytes) : prog St (DbResult (gmap key bytes)) :=
  match ks with
  | [] => pret (Ok result)
  | k :: ks' =>
      if starts_with k prefix then
        let? value := get self k in
        list_loop self prefix ks' (<[k := value]> result)
      else list_loop self prefix ks' result
  end.

Definition list_entries_with_prefix (self : SecureStorageDb) (prefix : key)
    : prog St (DbResult (gmap key bytes)) :=
  list_loop self prefix (hash_iter (key_list self)) ∅.

End Db.
End Db.

(** ** [Storable] and [SecureStorageClient] *)

(** [type_name] is what [std::any::type_name] gives, [key_to_string] the key's
    [to_string]. *)
Class Storable (V : Type) : Type := {
  Key : Type;
  unique_id : V -> Key;
  key_to_string : Key -> key;
  type_name : key;
}.

Definition COLON : Z := 58.
(** "#". *)
Definition CONCAT : key := [35].

(** [s.split("::").last()]: what follows the last separator. *)
Fixpoint last_segment (acc s : key) : key :=
  match s with
  | [] => acc
  | c :: s' =>
      match s' with
      | d :: s'' => if (c =? COLON) && (d =? COLON) then last_segment [] s''
                    else last_segment (acc ++ [c]) s'
      | [] => acc ++ [c]
      end
  end.

Section Client.
Context `{!Target} {St : Type} `{!TrustedStorage St, !Bincode (gset key), !HashIter}.
Context {V : Type} `{!Storable V, !Bincode V}.

Definition table_name : key := last_segment [] (type_name (V:=V)).
Definition concat_key (k : key) : key := table_name ++ CONCAT ++ k.
Definition storage_key (v : V) : key := table_name ++ CONCAT ++ key_to_string (unique_id v).

Definition client_get (db : SecureStorageDb) (k : Key) : prog St (DbResult V) :=
  let? value := Db.get db (concat_key (key_to_string k)) in
  pret (deserialize value).

Definition client_put (db : SecureStorageDb) (v : V)
    : prog St (DbResult unit * SecureStorageDb) :=
  match serialize v with
  | Err e => pret (Err e, db)
  | Ok value => Db.put db (storage_key v) value
  end.

Definition client_delete_entry (db : SecureStorageDb) (k : Key)
    : prog St (DbResult unit * SecureStorageDb) :=
  Db.delete db (concat_key (key_to_string k)).

(** The values of [list_entries], which are then indexed by their own
    [unique_id]. *)
Fixpoint decode_all (l : list (key * bytes)) : DbResult (list (Key * V)) :=
  match l with
  | [] => Ok []
  | (_, b) :: l' =>
      try v := deserialize b in
      try vs := decode_all l' in
      Ok ((unique_id v, v) :: vs)
  end.

Definition client_list_entries (db : SecureStorageDb) : prog St (DbResult (list (Key * V))) :=
  let? map := Db.list_entries_with_prefix db table_name in
  pret (decode_all (map_to_list map)).

End Client.
