(* ===== verification/SecureDbSpec.v ===== *)
(** * SecureDbSpec: the database implements a map, in memory and on storage

    The abstract state is a finite map from keys to values.  [mem_rep] relates
    it to an open database; [disk_rep] to what a later [open] will find.  Both
    are kept apart because a failing write of the key list leaves them
    different. *)

From S2P Require Import Prelude TeeDefines UteeError Storage StorageSpec SecureDb.
Import PersistentObjectOps(raw_ref).

Abbreviation kvmap := (gmap key bytes).

Section Db.
Context `{!Target, !TargetOk} {St : Type} `{!TrustedStorage St, !TrustedStorageOk St}.
Context `{!Bincode (gset key), !BincodeOk (gset key), !HashIter, !HashIterOk}.

(** The objects of the private storage. *)
Definition obj (s : St) (k : key) : option bytes := objs s !! (TEE_STORAGE_PRIVATE, k).

(** No object is larger than a [Vec] can be. *)
Definition sizes_ok (s : St) : Prop := forall k d, obj s k = Some d -> len d < 2 ^ (ptr_bits - 1).

(** No handle is open in the private storage. *)
Definition quiet (s : St) : Prop := forall k, not_open s TEE_STORAGE_PRIVATE k.

(** Only the private object [k] may differ, and no handle does. *)
Definition only_obj (k : key) (s s' : St) : Prop :=
  (forall k', k' <> k -> obj s' k' = obj s k') /\ hnds s' = hnds s.

(** An object identifier the storage takes. *)
Definition short (k : key) : Prop := len k <= TEE_OBJECT_ID_MAX_LEN.

(** ** The backend *)

Lemma save_spec k d (s : St) :
  short k ->
  exists r s', save_in_secure_storage k d s = Ret (r, s') /\ only_obj k s s' /\
    match r with Ok _ => obj s' k = Some d | Err _ => obj s' k = obj s k end /\
    (TrustedStorageReliable St -> quiet s -> r = Ok tt).
Proof.
  intros Hshort. unfold save_in_secure_storage.
  destruct (create_object_spec ObjectStorageConstants.Private k save_flags d s Hshort)
    as (r & s1 & E & Hr). cbn [ObjectStorageConstants.into_u32] in Hr.
  erewrite pbind_Ret by done. destruct r as [o|e].
  - destruct Hr as (Hn & Hnn & Ho & Hh).
    destruct (drop_object_spec o s1) as (s2 & E2 & Ho2 & Hh2);
      [done|rewrite Hh, lookup_insert_eq; eauto|].
    erewrite pbind_Ret by done. eexists _, _. split; [reflexivity|].
    unfold only_obj, obj. rewrite Ho2, Ho, Hh2, Hh. split_and!; try done.
    + intros k' Hk. rewrite lookup_insert_ne by congruence. done.
    + by rewrite delete_insert_id.
    + by rewrite lookup_insert_eq.
  - destruct Hr as [Ho Hh]. eexists _, _. split; [reflexivity|]. unfold only_obj, obj.
    rewrite Ho. split_and!; try done. intros Hrel Hq.
    by destruct (create_not_err ObjectStorageConstants.Private k save_flags d s s1 e).
Qed.

Lemma save_long k d (s : St) : ~ short k -> save_in_secure_storage k d s = Panic.
Proof.
  unfold short. intros Hk. unfold save_in_secure_storage, pbind.
  rewrite create_object_long by lia. done.
Qed.

Lemma load_object_spec o (s : St) d :
  corrupt_safe (St:=St) -> handle_data s (raw_ref o) = Some (d, 0) ->
  may s (raw_ref o) DataFlag.ACCESS_READ -> len d < 2 ^ (ptr_bits - 1) ->
  exists r s', load_object o s = Ret (r, s') /\ objs s' = objs s /\
    (exists x, hnds s' = <[raw_ref o := x]> (hnds s)) /\
    (forall x, r = Ok x -> x = Some d) /\ (TrustedStorageReliable St -> r = Ok (Some d)).
Proof.
  intros Hsafe Hd Hmay Hlen.
  destruct (handle_data_at s _ _ _ Hd) as (sid & oid & fl & Hhk & _). unfold load_object.
  destruct (info_object_spec o s d 0 Hsafe Hd) as (ri & s1 & E & Hu & Hi).
  erewrite pbind_Ret by done. pose proof (unchanged_data s s1 (raw_ref o) Hu) as Hd1.
  apply (unchanged_may s s1 _ _ Hu) in Hmay as Hmay1.
  destruct Hu as [Huo Huh]. destruct ri as [i|e].
  2:{ eexists _, _. split; [reflexivity|]. split_and!; try done.
      - exists (sid, oid, (fl, 0)). by rewrite insert_id.
      - intros Hrel. by destruct (info_not_err o s s1 e). }
  destruct Hi as [-> _]. decide_if. rewrite Hd in Hd1.
  destruct (read_object_spec o s1 d 0 (zeros (len d)) Hsafe Hd1 Hmay1) as (rr & s2 & E2 & Hr).
  erewrite pbind_Ret by done. destruct rr as [[n|e] buf].
  - destruct Hr as (l & Hl & -> & -> & Ho & kk & kfl & _ & Hh).
    unfold zeros in Hl. rewrite length_replicate, drop_0, take_ge in Hl by (unfold len; lia).
    subst l. rewrite splice_full by (by rewrite len_zeros by apply len_nonneg).
    rewrite Z.eqb_refl. cbn [negb]. eexists _, _. split; [reflexivity|]. split; [congruence|].
    split; [rewrite Hh, Huh; eauto|]. split; [by intros x [= <-]|done].
  - destruct Hr as [_ [Ho Hh]]. eexists _, _. split; [reflexivity|]. split; [congruence|].
    split; [exists (sid, oid, (fl, 0)); rewrite Hh, Huh, insert_id; done|]. split; [done|].
    intros Hrel. by destruct (read_not_err o (zeros (len d)) s1 s2 e buf).
Qed.

Lemma load_spec k (s : St) :
  corrupt_safe (St:=St) -> short k -> sizes_ok s ->
  exists r s', load_from_secure_storage k s = Ret (r, s') /\ unchanged s s' /\
    (forall x, r = Ok x -> x = obj s k) /\
    (TrustedStorageReliable St -> quiet s -> r = Ok (obj s k)).
Proof.
  intros Hsafe Hshort Hsz. unfold load_from_secure_storage.
  destruct (open_object_spec ObjectStorageConstants.Private k
    (Z.lor DataFlag.ACCESS_READ DataFlag.SHARE_READ) s Hshort) as (r & s1 & E & Hr).
  cbn [ObjectStorageConstants.into_u32] in Hr. erewrite pbind_Ret by done. destruct r as [o|e].
  - destruct Hr as ([d Hd] & Hn & Hnn & Ho & Hh).
    destruct (load_object_spec o s1 d Hsafe) as (r & s2 & E2 & Ho2 & [x Hh2] & Hok & Hrel).
    { unfold handle_data. rewrite Hh, lookup_insert_eq, Ho. by rewrite Hd. }
    { eexists. unfold rights. by rewrite Hh, fmap_insert, lookup_insert_eq. }
    { by apply (Hsz k). }
    erewrite pbind_Ret by done.
    destruct (drop_object_spec o s2) as (s3 & E3 & Ho3 & Hh3);
      [done|rewrite Hh2, lookup_insert_eq; eauto|].
    erewrite pbind_Ret by done. eexists _, _. split; [reflexivity|]. split; [split; [congruence|]|].
    + rewrite Hh3, Hh2, Hh, insert_insert_eq. by rewrite delete_insert_id.
    + unfold obj, TEE_STORAGE_PRIVATE. rewrite Hd. auto.
  - destruct Hr as [Hu Hnf]. case_bool_decide as Hk.
    + eexists _, _. split; [reflexivity|]. apply Hnf in Hk. unfold obj, TEE_STORAGE_PRIVATE.
      rewrite Hk. split_and!; try done. by intros x [= <-].
    + eexists _, _. split; [reflexivity|]. split_and!; try done. intros Hrel Hq.
      by destruct (open_not_err ObjectStorageConstants.Private k _ _ _ _ Hshort (Hq k) E).
Qed.

Lemma delete_backend_spec k (s : St) :
  short k ->
  exists r s', delete_from_secure_storage k s = Ret (r, s') /\ only_obj k s s' /\
    match r with Ok _ => obj s' k = None | Err _ => obj s' k = obj s k end /\
    (TrustedStorageReliable St -> quiet s -> is_Some (obj s k) -> r = Ok tt).
Proof.
  intros Hshort. unfold delete_from_secure_storage.
  destruct (open_object_spec ObjectStorageConstants.Private k
    (Z.lor DataFlag.ACCESS_READ DataFlag.ACCESS_WRITE_META) s Hshort) as (r & s1 & E & Hr).
  cbn [ObjectStorageConstants.into_u32] in Hr. erewrite pbind_Ret by done. destruct r as [o|e].
  - destruct Hr as (_ & Hn & Hnn & Ho & Hh).
    assert (hnds s1 !! raw_ref o = Some
              (1, k, (Z.lor DataFlag.ACCESS_READ DataFlag.ACCESS_WRITE_META, 0))) as Hat
      by (by rewrite Hh, lookup_insert_eq).
    destruct (close_and_delete_spec o s1 _ _ _ Hat) as (r & s2 & E2 & Hh2 & Hr); [done|].
    erewrite pbind_Ret by done. eexists _, _. split; [reflexivity|].
    unfold only_obj, obj, TEE_STORAGE_PRIVATE. rewrite Hh2, Hh, delete_insert_id by done.
    destruct r as [[]|e]; rewrite Hr, Ho.
    + split_and!; try done; [|by rewrite lookup_delete_eq].
      intros k' Hk. by rewrite lookup_delete_ne by congruence.
    + split_and!; try done. intros Hrel _ _. exfalso.
      by apply (close_and_delete_not_err o s1 s2 e _ _ _ Hat).
  - destruct Hr as [[Ho Hh] Hnf]. eexists _, _. split; [reflexivity|].
    unfold only_obj, obj, TEE_STORAGE_PRIVATE. rewrite Ho. split_and!; try done.
    intros Hrel Hq [d Hs]. exfalso.
    destruct (open_not_err ObjectStorageConstants.Private k _ _ _ _ Hshort (Hq k) E) as [Hnone _]. cbn in Hnone. congruence.
Qed.

(** ** Representation *)

(** The open database [db] stands for [kv].  No identifier is longer than the storage
    allows: storing a longer one panics ([put_long]). *)
Record mem_rep (db : SecureStorageDb) (s : St) (kv : kvmap) : Prop := {
  rep_name : (name db ∉ key_list db);
  rep_keys : dom kv = key_list db;
  rep_vals k v : kv !! k = Some v -> obj s k = Some v;
  rep_short k : k = name db \/ k ∈ key_list db -> short k;
}.

(** Opening [n] will find [kv]. *)
Record disk_rep (n : key) (s : St) (kv : kvmap) : Prop := {
  disk_name : (n ∉ dom kv);
  disk_list : match obj s n with Some b => deserialize b = Ok (dom kv) | None => kv = ∅ end;
  disk_vals k v : kv !! k = Some v -> obj s k = Some v;
  disk_short k : k = n \/ k ∈ dom kv -> short k;
}.

Lemma only_obj_trans k1 k2 (s1 s2 s3 : St) k' :
  only_obj k1 s1 s2 -> only_obj k2 s2 s3 -> k' <> k1 -> k' <> k2 -> obj s3 k' = obj s1 k'.
Proof. intros [H12 _] [H23 _] ??. rewrite H23 by done. by apply H12. Qed.

Lemma store_key_list_spec db (s : St) :
  short (name db) ->
  exists r s', Db.store_key_list db s = Ret (r, s') /\ only_obj (name db) s s' /\
    match r with
    | Ok _ => exists b, serialize (key_list db) = Ok b /\ obj s' (name db) = Some b
    | Err _ => obj s' (name db) = obj s (name db)
    end /\
    (TrustedStorageReliable St -> quiet s -> (exists b, serialize (key_list db) = Ok b) ->
     r = Ok tt).
Proof.
  intros Hshort. unfold Db.store_key_list. destruct (serialize (key_list db)) as [b|e] eqn:Hb.
  - erewrite ptry_Ok by done. destruct (save_spec (name db) b s Hshort) as (r & s' & E & Hu & Hr & Hrel).
    exists r, s'. split; [done|]. split; [done|]. split; [destruct r; eauto|]. auto.
  - erewrite ptry_Err by done. eexists _, _. split; [reflexivity|]. split; [by split|].
    split; [done|]. intros _ _ [b Hb']. discriminate Hb'.
Qed.

Lemma mem_rep_put db (s s' : St) kv k v :
  mem_rep db s kv -> short k -> k <> name db -> obj s' k = Some v ->
  (forall k', k' <> k -> k' <> name db -> obj s' k' = obj s k') ->
  mem_rep (mkDb (name db) ({[k]} ∪ key_list db)) s' (<[k := v]> kv).
Proof.
  intros [Hn Hk Hv Hsh] Hshort Hne Hkv Hs. split; cbn.
  - set_solver.
  - rewrite dom_insert_L. by rewrite Hk.
  - intros k' v' [[<- <-]|[? Hl]]%lookup_insert_Some; [done|].
    rewrite Hs; [by apply Hv|done|]. intros ->. apply elem_of_dom_2 in Hl. set_solver.
  - intros k' [?|[->%elem_of_singleton|?]%elem_of_union]; auto.
Qed.

Lemma mem_rep_delete db (s s' : St) kv k :
  mem_rep db s kv -> (forall k', k' <> k -> k' <> name db -> obj s' k' = obj s k') ->
  mem_rep (mkDb (name db) (key_list db ∖ {[k]})) s' (delete k kv).
Proof.
  intros [Hn Hk Hv Hsh] Hs. split; cbn; cycle 3.
  { intros k' [?|[? _]%elem_of_difference]; auto. }
  - set_solver.
  - rewrite dom_delete_L. by rewrite Hk.
  - intros k' v' [Hne Hl]%lookup_delete_Some. rewrite Hs; [by apply Hv|done|].
    intros ->. apply elem_of_dom_2 in Hl. set_solver.
Qed.

(** Writing the key list makes the open database what [open] will find. *)
Lemma mem_rep_stored db (s : St) kv b :
  mem_rep db s kv -> serialize (key_list db) = Ok b -> obj s (name db) = Some b ->
  disk_rep (name db) s kv.
Proof.
  intros [Hn Hk Hv Hsh] Hb Ho. split; [by rewrite Hk| |done|by rewrite Hk]. rewrite Ho, Hk.
  by apply deserialize_serialize.
Qed.

(** ** The operations *)

(** The value of a key, if the key is there at all. *)
Definition alter_kv (kv : kvmap) (k : key) (v : bytes) : kvmap :=
  if decide (is_Some (kv !! k)) then <[k := v]> kv else kv.

Lemma disk_rep_alter n (s s' : St) kv k v :
  disk_rep n s kv -> k <> n -> only_obj k s s' -> obj s' k = Some v ->
  disk_rep n s' (alter_kv kv k v).
Proof.
  intros [Hn Hl Hv Hsh] Hne [Hu _] Hk. unfold alter_kv. destruct (decide _) as [Hs|Hs].
  - assert (dom (<[k:=v]> kv) = dom kv) as Hd.
    { rewrite dom_insert_L. apply elem_of_dom in Hs. set_solver. }
    split; rewrite ?Hd; [done| | |done].
    + rewrite Hu by done. destruct (obj s n); [done|]. subst kv. by destruct Hs.
    + intros k' v' [[<- <-]|[? Hl']]%lookup_insert_Some; [done|]. rewrite Hu by done. auto.
  - split; [done| | |done].
    + by rewrite Hu by done.
    + intros k' v' Hl'. rewrite Hu; [auto|]. intros ->. apply Hs. eauto.
Qed.

Lemma put_spec db (s : St) kv k v :
  mem_rep db s kv -> short k -> k <> name db ->
  exists r db' s', Db.put db k v s = Ret ((r, db'), s') /\ hnds s' = hnds s /\
    name db' = name db /\
    match r with
    | Ok _ => mem_rep db' s' (<[k := v]> kv) /\ disk_rep (name db) s' (<[k := v]> kv) /\
        (exists b, serialize (key_list db') = Ok b /\ obj s' (name db) = Some b)
    | Err _ =>
        (db' = db /\ (forall k', obj s' k' = obj s k')) \/
        (mem_rep db' s' (<[k := v]> kv) /\
         (disk_rep (name db) s kv -> disk_rep (name db) s' (alter_kv kv k v)))
    end /\
    (forall k', k' <> k -> k' <> name db -> obj s' k' = obj s k') /\
    (TrustedStorageReliable St -> quiet s ->
     (exists b, serialize ({[k]} ∪ key_list db) = Ok b) -> r = Ok tt).
Proof.
  intros Hm Hshort Hne. unfold Db.put.
  destruct (save_spec k v s Hshort) as (r & s1 & E & Hu & Hr & Hrel). erewrite pbind_Ret by done.
  destruct r as [[]|e].
  2:{ eexists _, _, _. split; [reflexivity|]. split; [by destruct Hu|]. split; [done|].
      split; [|split].
      - left. split; [done|]. intros k'. destruct (decide (k' = k)) as [->|]; [done|].
        destruct Hu as [Hu _]. auto.
      - intros k' ? _. destruct Hu as [Hu _]. auto.
      - intros R Q _. discriminate (Hrel R Q). }
  pose (db' := mkDb (name db) ({[k]} ∪ key_list db)).
  destruct (store_key_list_spec db' s1 (rep_short _ _ _ Hm (name db) ltac:(by left)))
    as (r & s2 & E2 & Hu2 & Hr2 & Hrel2).
  assert (forall k', k' <> k -> k' <> name db -> obj s2 k' = obj s k') as Hframe
    by (intros; by eapply only_obj_trans).
  assert (obj s2 k = Some v) as Hk by (destruct Hu2 as [Hu2 _]; by rewrite Hu2).
  pose proof (mem_rep_put db s s2 kv k v Hm Hshort Hne Hk Hframe) as Hm2.
  erewrite pbind_Ret by done. exists r, db', s2. split; [done|].
  split; [destruct Hu as [_ Hu], Hu2 as [_ Hu2]; congruence|]. split; [done|].
  split; [|split; [done|]].
  - destruct r as [[]|e].
    + split; [done|]. destruct Hr2 as (b & Hb & Ho). split; [|eauto].
      by apply (mem_rep_stored db' s2 _ b).
    + right. split; [done|]. intros Hd. apply (disk_rep_alter _ s); try done.
      split; [|destruct Hu as [_ Hu], Hu2 as [_ Hu2]; congruence].
      intros k' Hk'. destruct (decide (k' = name db)) as [->|]; [|by apply Hframe].
      destruct Hu as [Hu _]. cbn in Hr2. rewrite Hr2. by apply Hu.
  - intros R Q Hb. apply Hrel2; try done. intros k' h pos. destruct Hu as [_ ->]. apply Q.
Qed.

(** A longer key panics the TA. *)
Lemma put_long db k v (s : St) : ~ short k -> Db.put db k v s = Panic.
Proof. intros Hk. unfold Db.put, pbind. by rewrite save_long. Qed.

(** Under the database's own name, what is put is overwritten by the list of keys. *)
Lemma put_own_name db db' v (s s' : St) :
  short (name db) -> Db.put db (name db) v s = Ret ((Ok tt, db'), s') ->
  exists b, serialize ({[name db]} ∪ key_list db) = Ok b /\ obj s' (name db) = Some b.
Proof.
  intros Hshort. unfold Db.put.
  destruct (save_spec (name db) v s Hshort) as (r & s1 & E & _). erewrite pbind_Ret by done.
  destruct r as [[]|e]; [|done]. pose (db1 := mkDb (name db) ({[name db]} ∪ key_list db)).
  destruct (store_key_list_spec db1 s1 Hshort) as (r & s2 & E2 & _ & Hr & _).
  erewrite pbind_Ret by done. intros [= -> _ <-]. exact Hr.
Qed.

Lemma delete_spec' db (s : St) kv k :
  mem_rep db s kv ->
  exists r db' s', Db.delete db k s = Ret ((r, db'), s') /\ hnds s' = hnds s /\
    name db' = name db /\
    (kv !! k = None -> r = Err KeyNotFound /\ db' = db /\ s' = s) /\
    (is_Some (kv !! k) ->
     match r with
     | Ok _ => mem_rep db' s' (delete k kv) /\ disk_rep (name db) s' (delete k kv) /\
         obj s' k = None /\
         (exists b, serialize (key_list db') = Ok b /\ obj s' (name db) = Some b)
     | Err _ =>
         (db' = db /\ (forall k', obj s' k' = obj s k')) \/
         (mem_rep db' s' (delete k kv) /\ obj s' k = None /\ obj s' (name db) = obj s (name db))
     end) /\
    (forall k', k' <> k -> k' <> name db -> obj s' k' = obj s k') /\
    (TrustedStorageReliable St -> quiet s -> is_Some (kv !! k) ->
     (exists b, serialize (key_list db ∖ {[k]}) = Ok b) -> r = Ok tt).
Proof.
  intros Hm. unfold Db.delete. case_bool_decide as Hin.
  2:{ assert (kv !! k = None) as Hnone
        by (destruct Hm as [_ Hk _ _]; rewrite <- Hk in Hin; by apply not_elem_of_dom).
      eexists _, _, _. split; [reflexivity|]. split_and!; try done.
      - rewrite Hnone. by intros [].
      - rewrite Hnone. by intros _ _ []. }
  assert (is_Some (kv !! k)) as Hsome
    by (destruct Hm as [_ Hk _ _]; rewrite <- Hk in Hin; by apply elem_of_dom).
  assert (k <> name db) as Hne by (destruct Hm as [Hn _ _ _]; set_solver).
  destruct (delete_backend_spec k s (rep_short _ _ _ Hm k ltac:(by right)))
    as (r & s1 & E & Hu & Hr & Hrel). erewrite pbind_Ret by done.
  assert (is_Some (obj s k)) as Hobj
    by (destruct Hsome as [v Hv], Hm as [_ _ Hvals _]; rewrite (Hvals k v Hv); eauto).
  destruct r as [[]|e].
  2:{ eexists _, _, _. split; [reflexivity|]. split; [by destruct Hu|]. split; [done|].
      split; [intros Hnone; rewrite Hnone in Hsome; by destruct Hsome|].
      split; [|split].
      - intros _. left. split; [done|]. intros k'. destruct (decide (k' = k)) as [->|]; [done|].
        destruct Hu as [Hu _]. auto.
      - intros k' ? _. destruct Hu as [Hu _]. auto.
      - intros R Q _ _. discriminate (Hrel R Q Hobj). }
  pose (db' := mkDb (name db) (key_list db ∖ {[k]})).
  destruct (store_key_list_spec db' s1 (rep_short _ _ _ Hm (name db) ltac:(by left)))
    as (r & s2 & E2 & Hu2 & Hr2 & Hrel2).
  assert (forall k', k' <> k -> k' <> name db -> obj s2 k' = obj s k') as Hframe
    by (intros; by eapply only_obj_trans).
  pose proof (mem_rep_delete db s s2 kv k Hm Hframe) as Hm2.
  erewrite pbind_Ret by done. exists r, db', s2. split; [done|].
  split; [destruct Hu as [_ Hu], Hu2 as [_ Hu2]; congruence|]. split; [done|].
  split; [intros Hnone; rewrite Hnone in Hsome; by destruct Hsome|].
  split; [|split; [done|]].
  - intros _. assert (obj s2 k = None) as Hgone by (destruct Hu2 as [Hu2 _]; by rewrite Hu2).
    destruct r as [[]|e].
    + split; [done|]. destruct Hr2 as (b & Hb & Ho). split; [|eauto].
      by apply (mem_rep_stored db' s2 _ b).
    + right. split; [done|]. split; [done|].
      cbn in Hr2. rewrite Hr2. destruct Hu as [Hu _]. auto.
  - intros R Q _ Hb. apply Hrel2; try done. intros k' h pos. destruct Hu as [_ ->]. apply Q.
Qed.

Lemma unchanged_obj (s s' : St) k : unchanged s s' -> obj s' k = obj s k.
Proof. unfold obj. by intros [-> _]. Qed.

Lemma get_spec db (s : St) kv k :
  corrupt_safe (St:=St) -> mem_rep db s kv -> sizes_ok s ->
  exists r s', Db.get db k s = Ret (r, s') /\ unchanged s s' /\
    match kv !! k with
    | None => r = Err KeyNotFound
    | Some v => (forall x, r = Ok x -> x = v) /\ r <> Err KeyNotFound /\
        (TrustedStorageReliable St -> quiet s -> r = Ok v)
    end.
Proof.
  intros Hsafe [_ Hk Hv Hsh] Hsz. unfold Db.get. case_bool_decide as Hin.
  - pose proof (Hsh k ltac:(by right)) as Hshort. rewrite <- Hk in Hin.
    apply elem_of_dom in Hin as [v Hkv]. rewrite Hkv.
    destruct (load_spec k s Hsafe Hshort Hsz) as (r & s' & E & Hu & Hr & Hrel). erewrite pbind_Ret by done.
    rewrite (Hv k v Hkv) in Hr, Hrel. eexists _, s'. split; [reflexivity|]. split; [done|].
    destruct r as [o|e]; cbn.
    + rewrite (Hr o eq_refl). cbn. split_and!; [by intros x [= <-]|done|done].
    + split_and!; [done|done|]. intros R Q. discriminate (Hrel R Q).
  - rewrite <- Hk in Hin. apply not_elem_of_dom in Hin. rewrite Hin. eexists _, _. split; [reflexivity|]. done.
Qed.

Lemma db_open_spec n (s : St) kv :
  corrupt_safe (St:=St) -> disk_rep n s kv -> sizes_ok s ->
  exists r s', Db.open n s = Ret (r, s') /\ unchanged s s' /\
    (forall db, r = Ok db -> name db = n /\ mem_rep db s' kv) /\
    (TrustedStorageReliable St -> quiet s -> exists db, r = Ok db).
Proof.
  intros Hsafe [Hn Hl Hv Hsh] Hsz. unfold Db.open.
  destruct (load_spec n s Hsafe (Hsh n ltac:(by left)) Hsz) as (r & s' & E & Hu & Hr & Hrel).
  destruct r as [o|e].
  - erewrite ptry_Ok by done. rewrite (Hr o eq_refl). destruct (obj s n) as [b|].
    + rewrite Hl. eexists _, _. split; [reflexivity|]. split; [done|]. split; [|cbn; eauto].
      intros db [= <-]. split; [done|]. split; [done|done| |done].
      intros k v Hkv. rewrite (unchanged_obj s s') by done. auto.
    + subst kv. eexists _, _. split; [reflexivity|]. split; [done|]. split; [|eauto].
      intros db [= <-]. split; [done|]. split; cbn; [set_solver|by rewrite dom_empty_L| |].
      * intros k v Hkv. by rewrite lookup_empty in Hkv.
      * intros k Hk. apply Hsh. by rewrite dom_empty_L.
  - erewrite ptry_Err by done. eexists _, _. split; [reflexivity|]. split; [done|].
    split; [done|]. intros R Q. discriminate (Hrel R Q).
Qed.

(** ** Traces on a reliable storage *)

Inductive db_op : Type :=
| DPut (k : key) (v : bytes) | DGet (k : key) | DDelete (k : key) | DClear
| DList (prefix : key) | DReopen.

Inductive db_reply : Type :=
| RUnit (r : DbResult unit) | RBytes (r : DbResult bytes) | RMap (r : DbResult kvmap).

(** An operation on the concrete database. *)
Definition run_db_op (op : db_op) (db : SecureStorageDb) : prog St (db_reply * SecureStorageDb) :=
  match op with
  | DPut k v => let* r := Db.put db k v in pret (RUnit r.1, r.2)
  | DGet k => let* r := Db.get db k in pret (RBytes r, db)
  | DDelete k => let* r := Db.delete db k in pret (RUnit r.1, r.2)
  | DClear => let* r := Db.clear db in pret (RUnit r.1, r.2)
  | DList prefix => let* r := Db.list_entries_with_prefix db prefix in pret (RMap r, db)
  | DReopen =>
      let* r := Db.open (name db) in
      match r with
      | Ok db' => pret (RUnit (Ok tt), db')
      | Err e => pret (RUnit (Err e), db)
      end
  end.

(** The same operation on the abstract map. *)
Definition spec_db_op (op : db_op) (kv : kvmap) : db_reply * kvmap :=
  match op with
  | DPut k v => (RUnit (Ok tt), <[k := v]> kv)
  | DGet k => (RBytes (ok_or (kv !! k) KeyNotFound), kv)
  | DDelete k =>
      match kv !! k with
      | Some _ => (RUnit (Ok tt), delete k kv)
      | None => (RUnit (Err KeyNotFound), kv)
      end
  | DClear => (RUnit (Ok tt), ∅)
  | DList prefix => (RMap (Ok (filter (fun e => prefix `prefix_of` e.1) kv)), kv)
  | DReopen => (RUnit (Ok tt), kv)
  end.

(** Everything that holds between two operations: the keys are in [K], the
    database is what is stored, nothing is too large or left open. *)
Record db_inv (K : gset key) (db : SecureStorageDb) (s : St) (kv : kvmap) : Prop := {
  di_mem : mem_rep db s kv;
  di_disk : disk_rep (name db) s kv;
  di_sizes : sizes_ok s;
  di_quiet : quiet s;
  di_keys : key_list db ⊆ K;
}.

(** Key lists over [K] can be serialised. *)
Definition ser_total (K : gset key) : Prop :=
  forall ks : gset key, ks ⊆ K -> exists b, serialize ks = Ok b.

Lemma db_inv_unchanged K db (s s' : St) kv :
  db_inv K db s kv -> unchanged s s' -> db_inv K db s' kv.
Proof.
  intros [[Hn Hk Hv Hsh] [Hdn Hl Hdv Hdsh] Hsz Hq HK] Hu.
  assert (forall k, obj s' k = obj s k) as Ho by (intros; by apply unchanged_obj).
  split; [split|split| | |]; try done.
  - intros k v Hkv. rewrite Ho. auto.
  - by rewrite Ho.
  - intros k v Hkv. rewrite Ho. auto.
  - intros k d. rewrite Ho. apply Hsz.
  - intros k h pos. destruct Hu as [_ ->]. apply Hq.
Qed.

Section Trace.
Context `{!TrustedStorageReliable St}.

Lemma inv_put K db (s : St) kv k v :
  ser_total K -> db_inv K db s kv -> short k -> k <> name db -> k ∈ K -> len v < 2 ^ (ptr_bits - 1) ->
  exists db' s', Db.put db k v s = Ret ((Ok tt, db'), s') /\ name db' = name db /\
    db_inv K db' s' (<[k := v]> kv).
Proof.
  intros Hser [Hm Hd Hsz Hq HK] Hshort Hne HkK Hlen.
  destruct (put_spec db s kv k v Hm Hshort Hne) as (r & db' & s' & E & Hh & Hname & Hr & Hfr & Hrel).
  specialize (Hrel _ Hq (Hser ({[k]} ∪ key_list db) ltac:(set_solver))). subst r.
  destruct Hr as (Hm' & Hd' & b & Hb & Ho). exists db', s'. split; [done|]. split; [done|].
  split; [done|by rewrite Hname| | |].
  - intros k' d. destruct (decide (k' = k)) as [->|]; [|destruct (decide (k' = name db)) as [->|]].
    + destruct Hm' as [_ _ Hv' _]. rewrite (Hv' k v) by apply lookup_insert_eq. by intros [= <-].
    + rewrite Ho. intros [= <-]. by eapply serialize_len.
    + rewrite Hfr by done. apply Hsz.
  - intros k' h pos. rewrite Hh. apply Hq.
  - destruct Hm' as [_ Hk' _ _], Hm as [_ Hk _ _]. rewrite <- Hk', dom_insert_L, Hk. set_solver.
Qed.

Lemma inv_delete K db (s : St) kv k :
  ser_total K -> db_inv K db s kv -> is_Some (kv !! k) ->
  exists db' s', Db.delete db k s = Ret ((Ok tt, db'), s') /\ name db' = name db /\
    db_inv K db' s' (delete k kv).
Proof.
  intros Hser [Hm Hd Hsz Hq HK] Hsome.
  destruct (delete_spec' db s kv k Hm) as (r & db' & s' & E & Hh & Hname & _ & Hr & Hfr & Hrel).
  specialize (Hrel _ Hq Hsome (Hser (key_list db ∖ {[k]}) ltac:(set_solver))). subst r.
  destruct (Hr Hsome) as (Hm' & Hd' & Hgone & b & Hb & Ho). exists db', s'. split; [done|]. split; [done|].
  split; [done|by rewrite Hname| | |].
  - intros k' d. destruct (decide (k' = name db)) as [->|];
      [|destruct (decide (k' = k)) as [->|]].
    + rewrite Ho. intros [= <-]. by eapply serialize_len.
    + by rewrite Hgone.
    + rewrite Hfr by done. apply Hsz.
  - intros k' h pos. rewrite Hh. apply Hq.
  - destruct Hm' as [_ Hk' _ _], Hm as [_ Hk _ _]. rewrite <- Hk', dom_delete_L, Hk. set_solver.
Qed.

(** Removing a list of keys. *)
Definition without (kv : kvmap) (ks : list key) : kvmap := foldr delete kv ks.

Lemma without_lookup kv ks k : without kv ks !! k = if decide (k ∈ ks) then None else kv !! k.
Proof.
  unfold without. induction ks as [|k' ks IH]; cbn.
  - by rewrite decide_False by (by apply not_elem_of_nil).
  - destruct (decide (k = k')) as [->|Hne].
    + rewrite lookup_delete_eq, decide_True by (left; done). done.
    + rewrite lookup_delete_ne, IH by done. destruct (decide (k ∈ ks)) as [Hin|Hin].
      * by rewrite decide_True by (by right).
      * rewrite decide_False; [done|]. by rewrite elem_of_cons; intros [?|?].
Qed.

Lemma without_delete kv ks k : without (delete k kv) ks = without kv (k :: ks).
Proof.
  apply map_eq. intros k'. rewrite !without_lookup. destruct (decide (k' ∈ ks)) as [Hin|Hin].
  - by rewrite decide_True by (by right).
  - destruct (decide (k' = k)) as [->|Hne].
    + by rewrite lookup_delete_eq, decide_True by (by left).
    + rewrite lookup_delete_ne by done. rewrite decide_False; [done|].
      by rewrite elem_of_cons; intros [?|?].
Qed.

Lemma clear_loop_spec K ks : forall db (s : St) kv,
  ser_total K -> db_inv K db s kv -> NoDup ks -> (forall k, k ∈ ks -> is_Some (kv !! k)) ->
  exists db' s', Db.clear_loop db ks s = Ret ((Ok tt, db'), s') /\ name db' = name db /\
    db_inv K db' s' (without kv ks).
Proof.
  induction ks as [|k ks IH]; intros db s kv Hser Hinv Hnd Hks.
  - exists db, s. done.
  - apply list.NoDup_cons in Hnd as [Hk Hnd]. cbn [Db.clear_loop].
    destruct (inv_delete K db s kv k Hser Hinv (Hks k ltac:(by left)))
      as (db1 & s1 & E & Hname & Hinv1). erewrite pbind_Ret by done.
    destruct (IH db1 s1 (delete k kv) Hser Hinv1 Hnd) as (db2 & s2 & E2 & Hname2 & Hinv2).
    { intros k' Hk'. rewrite lookup_delete_ne by (by intros ->). apply Hks. by right. }
    exists db2, s2. split; [done|]. split; [congruence|]. by rewrite <- without_delete.
Qed.

Lemma key_list_iter K db (s : St) kv :
  db_inv K db s kv ->
  NoDup (hash_iter (key_list db)) /\
  forall k, k ∈ hash_iter (key_list db) <-> is_Some (kv !! k).
Proof.
  intros [[_ Hk _ _] _ _ _ _]. split.
  - rewrite hash_iter_perm. apply NoDup_elements.
  - intros k. rewrite hash_iter_perm, elem_of_elements, <- Hk. apply elem_of_dom.
Qed.

Lemma inv_clear K db (s : St) kv :
  ser_total K -> db_inv K db s kv ->
  exists db' s', Db.clear db s = Ret ((Ok tt, db'), s') /\ name db' = name db /\ db_inv K db' s' ∅.
Proof.
  intros Hser Hinv. destruct (key_list_iter K db s kv Hinv) as [Hnd Hks].
  destruct (clear_loop_spec K (hash_iter (key_list db)) db s kv Hser Hinv Hnd)
    as (db' & s' & E & Hname & Hinv'); [intros k; apply Hks|].
  exists db', s'. split; [done|]. split; [done|].
  replace (∅ : kvmap) with (without kv (hash_iter (key_list db))); [done|].
  apply map_eq. intros k. rewrite without_lookup, lookup_empty. destruct (decide _) as [|Hn]; [done|].
  rewrite Hks in Hn. by apply eq_None_not_Some.
Qed.

Lemma inv_get K db (s : St) kv k :
  db_inv K db s kv ->
  exists s', Db.get db k s = Ret (ok_or (kv !! k) KeyNotFound, s') /\ db_inv K db s' kv.
Proof.
  intros Hinv. pose proof Hinv as [Hm _ Hsz Hq _].
  destruct (get_spec db s kv k reliable_safe Hm Hsz) as (r & s' & E & Hu & Hr). exists s'.
  split; [|by eapply db_inv_unchanged]. rewrite E. destruct (kv !! k) as [v|]; [|by subst r].
  destruct Hr as (_ & _ & Hrel). by rewrite (Hrel _ Hq).
Qed.

(** Between two clients: nothing is in memory. *)
Record disk_inv (K : gset key) (n : key) (s : St) (kv : kvmap) : Prop := {
  ki_disk : disk_rep n s kv;
  ki_sizes : sizes_ok s;
  ki_quiet : quiet s;
  ki_keys : dom kv ⊆ K;
}.

Lemma disk_inv_empty K n (s : St) :
  short n -> quiet s -> sizes_ok s -> obj s n = None -> disk_inv K n s ∅.
Proof.
  intros Hshort Hq Hsz Hn. split; [|done|done|rewrite dom_empty_L; set_solver].
  split; [rewrite dom_empty_L; set_solver|by rewrite Hn| |].
  - intros k v Hk. by rewrite lookup_empty in Hk.
  - intros k. rewrite dom_empty_L. by intros [->|?%elem_of_empty].
Qed.

Lemma disk_inv_unchanged K n (s s' : St) kv : disk_inv K n s kv -> unchanged s s' -> disk_inv K n s' kv.
Proof.
  intros [[Hn Hl Hv Hsh] Hsz Hq HK] Hu.
  assert (forall k, obj s' k = obj s k) as Ho by (intros; by apply unchanged_obj).
  split; [split| | |done]; [done|by rewrite Ho|intros k v ?; rewrite Ho; auto|done|intros k d; rewrite Ho; apply Hsz|].
  intros k h pos. destruct Hu as [_ ->]. apply Hq.
Qed.

Lemma db_open_inv K n (s : St) kv :
  disk_inv K n s kv ->
  exists db s', Db.open n s = Ret (Ok db, s') /\ name db = n /\ db_inv K db s' kv.
Proof.
  intros Hd. destruct (db_open_spec n s kv reliable_safe (ki_disk _ _ _ _ Hd) (ki_sizes _ _ _ _ Hd))
    as (r & s' & E & Hu & Hok & Hrel).
  destruct (Hrel _ (ki_quiet _ _ _ _ Hd)) as [db ->]. destruct (Hok db eq_refl) as [Hname Hm].
  destruct (disk_inv_unchanged K n s s' kv Hd Hu) as [Hd' Hsz' Hq' HK].
  exists db, s'. split; [done|]. split; [done|]. split; [done|by rewrite Hname|done|done|].
  destruct Hm as [_ Hk _ _]. by rewrite <- Hk.
Qed.

Lemma db_inv_disk K db (s : St) kv : db_inv K db s kv -> disk_inv K (name db) s kv.
Proof. intros [[_ Hk _ _] Hd Hsz Hq HK]. split; [done..|by rewrite Hk]. Qed.

Lemma list_loop_spec K db prefix ks : forall (s : St) kv acc,
  db_inv K db s kv -> (forall k, k ∈ ks -> is_Some (kv !! k)) ->
  exists m s', Db.list_loop db prefix ks acc s = Ret (Ok m, s') /\ db_inv K db s' kv /\
    forall k, m !! k = if decide (k ∈ ks /\ prefix `prefix_of` k) then kv !! k else acc !! k.
Proof.
  induction ks as [|k ks IH]; intros s kv acc Hinv Hks.
  - exists acc, s. split; [done|]. split; [done|]. intros k.
    rewrite decide_False; [done|]. intros [Hk _]. by apply not_elem_of_nil in Hk.
  - cbn [Db.list_loop]. unfold Db.starts_with.
    assert (forall k', k' ∈ ks -> is_Some (kv !! k')) as Hks' by (intros; apply Hks; by right).
    case_bool_decide as Hp.
    + destruct (inv_get K db s kv k Hinv) as (s1 & E & Hinv1).
      destruct (Hks k ltac:(by left)) as [v Hv]. rewrite Hv in E. erewrite ptry_Ok by done.
      destruct (IH s1 kv (<[k := v]> acc) Hinv1 Hks') as (m & s2 & E2 & Hinv2 & Hm).
      exists m, s2. split; [done|]. split; [done|]. intros k'. rewrite Hm.
      destruct (decide (k' = k)) as [->|Hne].
      * rewrite lookup_insert_eq, (decide_True (P:=k ∈ k :: ks /\ _)) by (split; [by left|done]).
        by destruct (decide _).
      * rewrite lookup_insert_ne by done. apply decide_ext. rewrite elem_of_cons. tauto.
    + destruct (IH s kv acc Hinv Hks') as (m & s2 & E2 & Hinv2 & Hm).
      exists m, s2. split; [done|]. split; [done|]. intros k'. rewrite Hm.
      apply decide_ext. rewrite elem_of_cons. split; [tauto|]. intros [[->|?] ?]; tauto.
Qed.

Lemma inv_list K db (s : St) kv prefix :
  db_inv K db s kv ->
  exists s', Db.list_entries_with_prefix db prefix s
      = Ret (Ok (filter (fun e => prefix `prefix_of` e.1) kv), s') /\ db_inv K db s' kv.
Proof.
  intros Hinv. destruct (key_list_iter K db s kv Hinv) as [_ Hks]. unfold Db.list_entries_with_prefix.
  destruct (list_loop_spec K db prefix (hash_iter (key_list db)) s kv ∅ Hinv)
    as (m & s' & E & Hinv' & Hm); [intros k; apply Hks|].
  exists s'. split; [|done]. rewrite E. do 3 f_equal. apply map_eq. intros k. rewrite Hm.
  destruct (decide _) as [[_ Hp]|Hn].
  - destruct (kv !! k) as [v|] eqn:Hkv; symmetry.
    + by apply map_lookup_filter_Some.
    + apply map_lookup_filter_None. by left.
  - rewrite lookup_empty. symmetry. apply map_lookup_filter_None.
    destruct (kv !! k) as [v|] eqn:Hkv; [right|by left]. intros v' Hv' Hp. apply Hn.
    split; [apply Hks; eauto|done].
Qed.

(** What a caller must respect: keys from [K] of at most 64 bytes, other than the
    database's own name, and values that fit a [Vec].  Without it a put panics
    ([put_long]) or is lost ([put_own_name]). *)
Definition op_ok (K : gset key) (n : key) (op : db_op) : Prop :=
  match op with
  | DPut k v => k ∈ K /\ short k /\ k <> n /\ len v < 2 ^ (ptr_bits - 1)
  | _ => True
  end.

Fixpoint run_db (ops : list db_op) (db : SecureStorageDb)
    : prog St (list db_reply * SecureStorageDb) :=
  match ops with
  | [] => pret ([], db)
  | op :: ops' =>
      let* r := run_db_op op db in
      let* rs := run_db ops' r.2 in
      pret (r.1 :: rs.1, rs.2)
  end.

Fixpoint spec_db (ops : list db_op) (kv : kvmap) : list db_reply * kvmap :=
  match ops with
  | [] => ([], kv)
  | op :: ops' =>
      let r := spec_db_op op kv in
      let rs := spec_db ops' r.2 in (r.1 :: rs.1, rs.2)
  end.

Lemma run_db_op_refines K op db (s : St) kv :
  ser_total K -> db_inv K db s kv -> op_ok K (name db) op ->
  exists db' s', run_db_op op db s = Ret (((spec_db_op op kv).1, db'), s') /\
    name db' = name db /\ db_inv K db' s' (spec_db_op op kv).2.
Proof.
  intros Hser Hinv Hop. destruct op as [k v|k|k| |prefix|]; cbn [run_db_op spec_db_op].
  - destruct Hop as (HK & Hshort & Hne & Hlen).
    destruct (inv_put K db s kv k v Hser Hinv Hshort Hne HK Hlen) as (db' & s' & E & Hname & Hinv').
    erewrite pbind_Ret by done. by exists db', s'.
  - destruct (inv_get K db s kv k Hinv) as (s' & E & Hinv'). erewrite pbind_Ret by done.
    by exists db, s'.
  - destruct (kv !! k) as [v|] eqn:Hkv.
    + destruct (inv_delete K db s kv k Hser Hinv ltac:(eauto)) as (db' & s' & E & Hname & Hinv').
      erewrite pbind_Ret by done. by exists db', s'.
    + destruct (delete_spec' db s kv k (di_mem _ _ _ _ Hinv))
        as (r & db' & s' & E & _ & _ & Hnone & _). destruct (Hnone Hkv) as (-> & -> & ->).
      erewrite pbind_Ret by done. by exists db, s.
  - destruct (inv_clear K db s kv Hser Hinv) as (db' & s' & E & Hname & Hinv').
    erewrite pbind_Ret by done. by exists db', s'.
  - destruct (inv_list K db s kv prefix Hinv) as (s' & E & Hinv').
    erewrite pbind_Ret by done. by exists db, s'.
  - pose proof Hinv as [Hm Hd Hsz Hq HK].
    destruct (db_open_spec (name db) s kv reliable_safe Hd Hsz) as (r & s' & E & Hu & Hok & Hrel).
    destruct (Hrel _ Hq) as [db' ->]. erewrite pbind_Ret by done.
    destruct (Hok db' eq_refl) as [Hname Hm']. exists db', s'. split; [done|]. split; [done|].
    destruct (db_inv_unchanged K db s s' kv Hinv Hu) as [_ Hd' Hsz' Hq' _].
    split; try done; [by rewrite Hname|].
    destruct Hm as [_ Hk _ _], Hm' as [_ Hk' _ _]. by rewrite <- Hk', Hk.
Qed.

Lemma run_db_refines K ops : forall db (s : St) kv,
  ser_total K -> db_inv K db s kv -> Forall (op_ok K (name db)) ops ->
  exists db' s', run_db ops db s = Ret (((spec_db ops kv).1, db'), s') /\
    db_inv K db' s' (spec_db ops kv).2.
Proof.
  induction ops as [|op ops IH]; intros db s kv Hser Hinv Hops.
  - by exists db, s.
  - apply Forall_cons_1 in Hops as [Hop Hops]. cbn [run_db spec_db].
    destruct (run_db_op_refines K op db s kv Hser Hinv Hop) as (db1 & s1 & E & Hname & Hinv1).
    erewrite pbind_Ret by done. rewrite <- Hname in Hops.
    destruct (IH db1 s1 _ Hser Hinv1 Hops) as (db2 & s2 & E2 & Hinv2).
    erewrite pbind_Ret by done. by exists db2, s2.
Qed.

(** C2: on a storage on which nothing fails that does not have to, the secure database
    is a map: for a name of at most 64 bytes and every sequence of put, get, delete,
    clear, list and reopen operations whose puts use keys of at most 64 bytes other
    than the database's own name, values that fit a [Vec] and key lists that can be
    serialised, starting from a storage without an object of that name and without
    open handles, every reply is the reply of
    the abstract map (get gives the last value put, deleted and cleared keys are
    not found, listing gives exactly the entries with the prefix), and at the
    end both the open database and what a later open would find stand for the
    abstract map, with no handle left open. *)
Theorem secure_db_refines_map K n ops (s : St) :
  short n -> ser_total K -> quiet s -> sizes_ok s -> obj s n = None -> Forall (op_ok K n) ops ->
  exists db db' s1 s',
    Db.open n s = Ret (Ok db, s1) /\
    run_db ops db s1 = Ret (((spec_db ops ∅).1, db'), s') /\
    mem_rep db' s' (spec_db ops ∅).2 /\ disk_rep (name db') s' (spec_db ops ∅).2 /\ quiet s'.
Proof.
  intros Hshort Hser Hq Hsz Hnone Hops.
  destruct (db_open_inv K n s ∅) as (db & s1 & E & Hname & Hinv); [by apply disk_inv_empty|].
  rewrite <- Hname in Hops.
  destruct (run_db_refines K ops db s1 ∅ Hser Hinv Hops) as (db' & s' & E' & [Hm' Hd' _ Hq' _]).
  by exists db, db', s1, s'.
Qed.

End Trace.

(** C37: on any storage, failing or not, a put or a delete, on an open database that is
    what is stored and for a key of at most 64 bytes other than the database's own
    name, returns; one that reports success
    has taken effect in memory and on storage; one that reports an error has
    either changed nothing, or (the object changed but the key list could not be
    stored) has taken effect in memory while a later open finds the old key
    list: after a put the new key is then missing there, after a delete the key
    is still listed but its object is gone. *)
Theorem secure_db_put_delete_outcomes db (s : St) kv k v :
  mem_rep db s kv -> disk_rep (name db) s kv -> short k -> k <> name db ->
  (exists r db' s', Db.put db k v s = Ret ((r, db'), s') /\
     match r with
     | Ok _ => mem_rep db' s' (<[k := v]> kv) /\ disk_rep (name db) s' (<[k := v]> kv)
     | Err _ => (db' = db /\ mem_rep db s' kv /\ disk_rep (name db) s' kv) \/
                (mem_rep db' s' (<[k := v]> kv) /\ disk_rep (name db) s' (alter_kv kv k v))
     end) /\
  (exists r db' s', Db.delete db k s = Ret ((r, db'), s') /\
     match r with
     | Ok _ => is_Some (kv !! k) /\
         mem_rep db' s' (delete k kv) /\ disk_rep (name db) s' (delete k kv)
     | Err _ => (db' = db /\ mem_rep db s' kv /\ disk_rep (name db) s' kv) \/
                (mem_rep db' s' (delete k kv) /\ obj s' k = None /\
                 obj s' (name db) = obj s (name db))
     end).
Proof.
  intros Hm Hd Hshort Hne.
  assert (forall s', (forall k', obj s' k' = obj s k') -> mem_rep db s' kv /\ disk_rep (name db) s' kv)
    as Hsame.
  { intros s' Ho. destruct Hm as [Hn Hk Hv Hsh], Hd as [Hdn Hl Hdv Hdsh].
    split; split; try done; rewrite ?Ho; try done; intros; rewrite Ho; auto. }
  split.
  - destruct (put_spec db s kv k v Hm Hshort Hne) as (r & db' & s' & E & _ & _ & Hr & _).
    exists r, db', s'. split; [done|]. destruct r as [[]|e]; [naive_solver|].
    destruct Hr as [[-> Ho]|[Hm' Hd']]; [left; split; [done|by apply Hsame]|right; auto].
  - destruct (delete_spec' db s kv k Hm) as (r & db' & s' & E & _ & _ & Hnone & Hr & _).
    exists r, db', s'. split; [done|]. destruct (kv !! k) as [x|] eqn:Hkv.
    + specialize (Hr ltac:(eauto)). destruct r as [[]|e]; [naive_solver|].
      destruct Hr as [[-> Ho]|?]; [left; split; [done|by apply Hsame]|by right].
    + destruct (Hnone eq_refl) as (-> & -> & ->). left. done.
Qed.

End Db.

(** ** Keys of the client *)

Section Client.
Context `{!Target, !TargetOk} {St : Type} `{!TrustedStorage St, !TrustedStorageOk St}.
Context `{!Bincode (gset key), !BincodeOk (gset key), !HashIter, !HashIterOk}.
Context {V : Type} `{!Storable V, !Bincode V, !BincodeOk V}.

Lemma split_at_hash (t1 t2 k1 k2 : key) :
  (35 ∉ t1) -> (35 ∉ t2) -> t1 ++ CONCAT ++ k1 = t2 ++ CONCAT ++ k2 -> t1 = t2 /\ k1 = k2.
Proof.
  revert t2. induction t1 as [|c t1 IH]; intros [|d t2] Ht1 Ht2 Heq; cbn in Heq.
  - injection Heq as ->. done.
  - injection Heq as <- _. destruct Ht2. by left.
  - injection Heq as -> _. destruct Ht1. by left.
  - injection Heq as -> Heq. apply not_elem_of_cons in Ht1 as [_ Ht1], Ht2 as [_ Ht2].
    destruct (IH t2 Ht1 Ht2 Heq) as [-> ->]. done.
Qed.

(** The storable client is a typed round trip: after a successful
    [put(value)], [get] of that value's key gives the value back (on a storage
    that does not fail), and whatever was stored under the keys of another table
    is untouched, for table names without "#". *)
Lemma client_put_get `{!TrustedStorageReliable St} K db (s : St) kv (v : V) :
  ser_total K -> db_inv K db s kv -> short (storage_key v) -> storage_key v <> name db ->
  storage_key v ∈ K ->
  (exists b, serialize v = Ok b) ->
  exists db' s' s'', client_put db v s = Ret ((Ok tt, db'), s') /\
    client_get db' (unique_id v) s' = Ret (Ok v, s'') /\
    (forall t k, (35 ∉ t) -> (35 ∉ table_name (V:=V)) -> t <> table_name (V:=V) ->
       t ++ CONCAT ++ k <> name db ->
       obj s'' (t ++ CONCAT ++ k) = obj s (t ++ CONCAT ++ k)).
Proof.
  intros Hser Hinv Hshort Hne HK [b Hb]. unfold client_put. rewrite Hb.
  pose proof (serialize_len v b Hb) as Hlen.
  destruct (inv_put K db s kv (storage_key v) b Hser Hinv Hshort Hne HK Hlen)
    as (db' & s' & E & Hname & Hinv').
  destruct (inv_get K db' s' _ (storage_key v) Hinv') as (s'' & E' & _).
  destruct (get_spec db' s' _ (storage_key v) reliable_safe (di_mem _ _ _ _ Hinv') (di_sizes _ _ _ _ Hinv'))
    as (r & s3 & E3 & Hu & _). rewrite E' in E3. injection E3 as _ <-.
  rewrite lookup_insert_eq in E'. cbn [ok_or] in E'.
  exists db', s', s''. split; [done|]. split.
  - unfold client_get. erewrite ptry_Ok by exact E'. by rewrite (deserialize_serialize v b).
  - intros t k Ht Htab Hneq Hn. rewrite (unchanged_obj s') by done.
    destruct (put_spec db s kv (storage_key v) b (di_mem _ _ _ _ Hinv) Hshort Hne)
      as (r' & db2 & s2 & E2 & _ & _ & _ & Hframe & _). rewrite E in E2. injection E2 as <- <- <-.
    apply Hframe; [|done]. intros Heq. apply split_at_hash in Heq as [-> _]; done.
Qed.

(** Listing a table by its bare name also lists the tables whose name it is
    a prefix of: an entry of table "FooBar" passes the prefix test of table
    "Foo", because the separator "#" is not part of the prefix. *)
Lemma list_prefix_mixes_tables :
  let foo := [70; 111; 111] in
  let foobar := [70; 111; 111; 66; 97; 114] in
  (forall k, Db.starts_with (foobar ++ CONCAT ++ k) foo = true) /\
  (forall k, Db.starts_with (foobar ++ CONCAT ++ k) (foo ++ CONCAT) = false).
Proof.
  split; intros k.
  - apply bool_decide_eq_true. by exists ([66; 97; 114] ++ CONCAT ++ k).
  - apply bool_decide_eq_false. intros [l Hl]. discriminate Hl.
Qed.

End Client.

(** ** Instances of the properties *)

Module SecureDbExamples.
Import RamStorage.

#[local] Instance ex_target : Target := 64.
#[local] Instance ex_target_ok : TargetOk := aarch64_ok.

(** A key list as length-prefixed keys. *)
Definition encode_keys (l : list key) : bytes := mjoin ((fun k => len k :: k) <$> l).

Fixpoint decode_keys (fuel : nat) (b : bytes) : list key :=
  match fuel, b with
  | S fuel', n :: b' => take (Z.to_nat n) b' :: decode_keys fuel' (drop (Z.to_nat n) b')
  | _, _ => []
  end.

Lemma decode_encode l : forall fuel, (length l <= fuel)%nat -> decode_keys fuel (encode_keys l) = l.
Proof.
  induction l as [|k l IH]; intros [|fuel] Hf; cbn in *; try done; [lia|].
  unfold len. rewrite Nat2Z.id, take_app_length, drop_app_length. f_equal. apply IH. lia.
Qed.

Lemma encode_length l : (length l <= length (encode_keys l))%nat.
Proof.
  induction l as [|k l IH]; [done|].
  change (encode_keys (k :: l)) with (len k :: k ++ encode_keys l).
  cbn [length]. rewrite length_app. lia.
Qed.

#[local] Instance keys_bincode : Bincode (gset key) := {|
  serialize ks := let b := encode_keys (elements ks) in
                  if len b <? 2 ^ (ptr_bits - 1) then Ok b else Err BincodeError;
  deserialize b := Ok (list_to_set (decode_keys (length b) b));
|}.
#[local] Instance keys_bincode_ok : BincodeOk (gset key).
Proof.
  split; cbn; intros ks b; case_if; intros [= <-]; [|done].
  rewrite decode_encode by apply encode_length. by rewrite list_to_set_elements_L.
Qed.
#[local] Instance ex_iter : HashIter := elements.
#[local] Instance ex_iter_ok : HashIterOk.
Proof. intros s. unfold hash_iter, ex_iter. reflexivity. Qed.

Definition k1 : key := [84; 35; 49].
Definition ex_db : SecureStorageDb := mkDb [110] ∅.
Definition ex_ram : ram := mkRam ∅ ∅.

Lemma ex_ser_total : ser_total {[ k1 ]}.
Proof.
  intros ks Hks. destruct (decide (k1 ∈ ks)) as [Hin|Hin].
  - assert (ks = {[ k1 ]}) as -> by set_solver. by eexists.
  - assert (ks = ∅) as -> by set_solver. by eexists.
Qed.

Lemma ex_quiet : quiet ex_ram.
Proof. intros k h pos. cbn. by rewrite lookup_empty. Qed.

Lemma ex_sizes : sizes_ok ex_ram.
Proof. intros k d. unfold obj. cbn. by rewrite lookup_empty. Qed.

Lemma secure_db_refines_map_witness :
  exists db db' s1 s', Db.open [110] ex_ram = Ret (Ok db, s1) /\
    run_db [DPut k1 [7]; DReopen; DGet k1; DClear; DGet k1] db s1
      = Ret (([RUnit (Ok tt); RUnit (Ok tt); RBytes (Ok [7]); RUnit (Ok tt);
               RBytes (Err KeyNotFound)], db'), s').
Proof.
  destruct (secure_db_refines_map {[ k1 ]} [110]
              [DPut k1 [7]; DReopen; DGet k1; DClear; DGet k1] ex_ram)
    as (db & db' & s1 & s' & E & E' & _).
  - done.
  - exact ex_ser_total.
  - exact ex_quiet.
  - exact ex_sizes.
  - done.
  - repeat constructor; try done.
  - by exists db, db', s1, s'.
Defined.

Lemma ex_mem : mem_rep ex_db ex_ram ∅.
Proof.
  split; cbn; [set_solver|by rewrite dom_empty_L| |].
  - intros k v Hk. by rewrite lookup_empty in Hk.
  - by intros k [->|?%elem_of_empty].
Qed.
Lemma ex_disk : disk_rep (name ex_db) ex_ram ∅.
Proof.
  split; cbn; [set_solver|done| |].
  - intros k v Hk. by rewrite lookup_empty in Hk.
  - intros k. rewrite dom_empty_L. by intros [->|?%elem_of_empty].
Qed.

Lemma secure_db_put_delete_outcomes_witness :
  exists r db' s', Db.put ex_db k1 [7] ex_ram = Ret ((r, db'), s').
Proof.
  destruct (secure_db_put_delete_outcomes ex_db ex_ram ∅ k1 [7] ex_mem ex_disk ltac:(done) ltac:(done))
    as [(r & db' & s' & E & _) _].
  by exists r, db', s'.
Defined.

(** Numbers in a table "T", under their decimal digit. *)
#[local] Instance ex_storable : Storable Z :=
  {| Key := Z; unique_id v := v; key_to_string k := [48 + k]; type_name := [99; 58; 58; 84] |}.
#[local] Instance ex_bincode : Bincode Z :=
  {| serialize v := Ok [v]; deserialize b := match b with v :: _ => Ok v | [] => Err BincodeError end |}.
#[local] Instance ex_bincode_ok : BincodeOk Z.
Proof. split; cbn; by intros x b [= <-]. Qed.

Lemma client_put_get_witness :
  exists db' s' s'', client_put ex_db 1 ex_ram = Ret ((Ok tt, db'), s') /\
    client_get db' (unique_id 1) s' = Ret (Ok 1, s'').
Proof.
  destruct (client_put_get {[ k1 ]} ex_db ex_ram ∅ 1) as (db' & s' & s'' & E & E' & _).
  - exact ex_ser_total.
  - split; [exact ex_mem|exact ex_disk|exact ex_sizes|exact ex_quiet|set_solver].
  - done.
  - done.
  - set_solver.
  - by exists [1].
  - exists db', s', s''. split; [exact E|exact E'].
Defined.

End SecureDbExamples.
