(* ===== verification/TeecParams.v ===== *)
(** * TeecParams: the parameters and operations of the CA-side API

    Models [crates/optee-teec/src/parameter.rs] and [operation.rs].  A raw
    [TEEC_Parameter] is a union of three structures (a temporary memory
    reference, a registered memory reference of three words, a pair of [u32]);
    it is kept as three machine words, the first two of which are laid out as
    in the TA-side union.  Bytes that the source leaves unspecified when it
    builds a shorter member of the union are zero here; no theorem depends on
    them. *)

From S2P Require Import Prelude Memory Params TeeParams TeecDefines.

(** ** The raw union and the raw operation *)

Record TEEC_Parameter : Type := mkTeecParam { tp_words : TEE_Param; tp_third : Z }.

#[global] Instance TEEC_Parameter_eq_dec : EqDecision TEEC_Parameter.
Proof. solve_decision. Defined.

Record TEEC_Value : Type := mkTeecValue { tv_a : Z; tv_b : Z }.
Record TEEC_TempMemoryReference : Type := mkTmpRef { tm_buffer : Z; tm_size : Z }.

(** [params] is an array of four; [imp] belongs to libteec. *)
Record TEEC_Operation : Type := mkTeecOperation {
  op_started : Z;
  op_paramTypes : Z;
  op_params : TEEC_Parameter * TEEC_Parameter * TEEC_Parameter * TEEC_Parameter;
  op_imp : Z;
}.

Section Union.
Context `{!Target}.

(** The three members of the union that the crate reads or builds. *)
Definition from_value (v : TEEC_Value) : TEEC_Parameter :=
  mkTeecParam (value_param (tv_a v) (tv_b v)) 0.
Definition as_value (p : TEEC_Parameter) : TEEC_Value :=
  mkTeecValue (value_a (tp_words p)) (value_b (tp_words p)).
Definition from_tmpref (t : TEEC_TempMemoryReference) : TEEC_Parameter :=
  mkTeecParam (mkParam (tm_buffer t) (tm_size t)) 0.
Definition as_tmpref (p : TEEC_Parameter) : TEEC_TempMemoryReference :=
  mkTmpRef (memref_buffer (tp_words p)) (memref_size (tp_words p)).

(** [mem::zeroed()]. *)
Definition zeroed_param : TEEC_Parameter := mkTeecParam (mkParam 0 0) 0.

End Union.

(** ** [ParamType] *)

Module ParamType.

Inductive ParamType : Type :=
| None_
| ValueInput
| ValueOutput
| ValueInout
| MemrefTempInput
| MemrefTempOutput
| MemrefTempInout
| MemrefWhole
| MemrefPartialInput
| MemrefPartialOutput
| MemrefPartialInout.

#[global] Instance TeecParamType_eq_dec : EqDecision ParamType.
Proof. solve_decision. Defined.

(** [t as u32]. *)
Definition as_u32 (t : ParamType) : Z :=
  match t with
  | None_ => 0
  | ValueInput => 1
  | ValueOutput => 2
  | ValueInout => 3
  | MemrefTempInput => 5
  | MemrefTempOutput => 6
  | MemrefTempInout => 7
  | MemrefWhole => 0xC
  | MemrefPartialInput => 0xD
  | MemrefPartialOutput => 0xE
  | MemrefPartialInout => 0xF
  end.

(** [From<u32>]. *)
Definition from_u32 (value : Z) : ParamType :=
  match value with
  | 0 => None_
  | 1 => ValueInput
  | 2 => ValueOutput
  | 3 => ValueInout
  | 5 => MemrefTempInput
  | 6 => MemrefTempOutput
  | 7 => MemrefTempInout
  | 0xC => MemrefWhole
  | 0xD => MemrefPartialInput
  | 0xE => MemrefPartialOutput
  | 0xF => MemrefPartialInout
  | _ => None_
  end.

End ParamType.

Abbreviation ParamType := ParamType.ParamType.

Module ParamTypes.

Record ParamTypes : Type := mkParamTypes { bits : Z }.

Definition new (p0 p1 p2 p3 : ParamType) : ParamTypes :=
  mkParamTypes
    (Z.lor (Z.lor (Z.lor (ParamType.as_u32 p0)
                         (wrap_u 32 (Z.shiftl (ParamType.as_u32 p1) 4)))
                  (wrap_u 32 (Z.shiftl (ParamType.as_u32 p2) 8)))
           (wrap_u 32 (Z.shiftl (ParamType.as_u32 p3) 12))).

Definition into_flags (self : ParamTypes) : ParamType * ParamType * ParamType * ParamType :=
  (ParamType.from_u32 (Z.land 0x000f (bits self)),
   ParamType.from_u32 (Z.shiftr (Z.land 0x00f0 (bits self)) 4),
   ParamType.from_u32 (Z.shiftr (Z.land 0x0f00 (bits self)) 8),
   ParamType.from_u32 (Z.shiftr (Z.land 0xf000 (bits self)) 12)).

Definition from_u32 (value : Z) : ParamTypes := mkParamTypes value.

(** [From<[u32; 4]>]. *)
Definition from_array (t0 t1 t2 t3 : Z) : ParamTypes :=
  mkParamTypes
    (Z.lor (Z.lor (Z.lor t0 (wrap_u 32 (Z.shiftl t1 4))) (wrap_u 32 (Z.shiftl t2 8)))
           (wrap_u 32 (Z.shiftl t3 12))).

Definition into_u32 (self : ParamTypes) : Z := bits self.

End ParamTypes.

(** ** The [Param] trait and its implementations *)

(** [to_raw] takes [&mut self] and changes nothing. *)
Class Param (P : Type) : Type := {
  to_raw : P -> TEEC_Parameter;
  param_type : P -> ParamType;
  param_from_raw : TEEC_Parameter -> ParamType -> P;
}.

Record ParamValue : Type := mkParamValue { pv_raw : TEEC_Value; pv_type : ParamType }.
Inductive ParamNone : Type := mkParamNone.
Record ParamTmpRef : Type := mkParamTmpRef {
  pt_raw : TEEC_TempMemoryReference; pt_type : ParamType
}.

Module ParamValueOps.
Definition new (a b : Z) (t : ParamType) : ParamValue := mkParamValue (mkTeecValue a b) t.
Definition a (self : ParamValue) : Z := tv_a (pv_raw self).
Definition b (self : ParamValue) : Z := tv_b (pv_raw self).
End ParamValueOps.

Module ParamTmpRefOps.
Definition tmpref (buffer : byte_slice) : TEEC_TempMemoryReference :=
  mkTmpRef (as_ptr buffer) (slice_len buffer).
Definition new_input (buffer : byte_slice) : ParamTmpRef :=
  mkParamTmpRef (tmpref buffer) ParamType.MemrefTempInput.
Definition new_output (buffer : byte_slice) : ParamTmpRef :=
  mkParamTmpRef (tmpref buffer) ParamType.MemrefTempOutput.
Definition new_inout (buffer : byte_slice) : ParamTmpRef :=
  mkParamTmpRef (tmpref buffer) ParamType.MemrefTempInout.
Definition updated_size (self : ParamTmpRef) : Z := tm_size (pt_raw self).
End ParamTmpRefOps.

#[global] Instance ParamValue_param `{!Target} : Param ParamValue := {|
  to_raw p := from_value (pv_raw p);
  param_type := pv_type;
  param_from_raw raw t := mkParamValue (as_value raw) t;
|}.

#[global] Instance ParamNone_param : Param ParamNone := {|
  to_raw _ := zeroed_param;
  param_type _ := ParamType.None_;
  param_from_raw _ _ := mkParamNone;
|}.

#[global] Instance ParamTmpRef_param : Param ParamTmpRef := {|
  to_raw p := from_tmpref (pt_raw p);
  param_type := pt_type;
  param_from_raw raw t := mkParamTmpRef (as_tmpref raw) t;
|}.

(** ** [Operation] *)

(** The type parameters are phantom. *)
Record Operation (A B C D : Type) : Type := mkOperation { op_raw : TEEC_Operation }.
Arguments mkOperation {A B C D} op_raw.
Arguments op_raw {A B C D} o.

Module OperationOps.
Section Ops.
Context {A B C D : Type} `{!Param A, !Param B, !Param C, !Param D}.

Definition new (started : Z) (p0 : A) (p1 : B) (p2 : C) (p3 : D) : Operation A B C D :=
  mkOperation
    (mkTeecOperation started
       (ParamTypes.into_u32
          (ParamTypes.new (param_type p0) (param_type p1) (param_type p2) (param_type p3)))
       (to_raw p0, to_raw p1, to_raw p2, to_raw p3)
       0).

Definition parameters (self : Operation A B C D) : A * B * C * D :=
  let '(f0, f1, f2, f3) :=
    ParamTypes.into_flags (ParamTypes.from_u32 (op_paramTypes (op_raw self))) in
  let '(r0, r1, r2, r3) := op_params (op_raw self) in
  (param_from_raw r0 f0, param_from_raw r1 f1, param_from_raw r2 f2, param_from_raw r3 f3).

End Ops.
End OperationOps.
