(* ===== verification/TeecParamsSpec.v ===== *)
(** * TeecParamsSpec: operations round trip, and a request of a CA reaches the TA
    and its answer comes back

    The way from the client to the TA and back (libteec, the kernel driver and
    the TEE core) is an interface, [Transport]: what the Client API and the
    Internal Core API document about parameters, stated slot by slot. *)

From S2P Require Import Prelude TeeDefines UteeError Memory Params ParamsSpec TeeParams.
From S2P Require Import TeeParamsSpec TeecDefines TeecParams.

(** ** The type word *)

Lemma as_u32_tag t : is_tag (ParamType.as_u32 t).
Proof. apply (bool_decide_unpack _). by destruct t. Qed.

Lemma from_as_u32 t : ParamType.from_u32 (ParamType.as_u32 t) = t.
Proof. by destruct t. Qed.

Lemma teec_into_flags_get types :
  ParamTypes.into_flags (ParamTypes.from_u32 types) =
    (ParamType.from_u32 (TEE_PARAM_TYPE_GET types 0),
     ParamType.from_u32 (TEE_PARAM_TYPE_GET types 1),
     ParamType.from_u32 (TEE_PARAM_TYPE_GET types 2),
     ParamType.from_u32 (TEE_PARAM_TYPE_GET types 3)).
Proof.
  unfold ParamTypes.into_flags, ParamTypes.from_u32, TEE_PARAM_TYPE_GET. cbn [ParamTypes.bits].
  by rewrite !Z.shiftr_land, !(Z.land_comm _ (Z.shiftr types _)), (Z.land_comm _ types).
Qed.

(** The word of the Client API is laid out as the word of the Internal API. *)
Lemma teec_new_pack t0 t1 t2 t3 :
  ParamTypes.into_u32 (ParamTypes.new t0 t1 t2 t3) =
    TEE_PARAM_TYPES (ParamType.as_u32 t0) (ParamType.as_u32 t1)
                    (ParamType.as_u32 t2) (ParamType.as_u32 t3).
Proof. done. Qed.

Lemma teec_get_new t0 t1 t2 t3 :
  let types := ParamTypes.into_u32 (ParamTypes.new t0 t1 t2 t3) in
  TEE_PARAM_TYPE_GET types 0 = ParamType.as_u32 t0 /\
  TEE_PARAM_TYPE_GET types 1 = ParamType.as_u32 t1 /\
  TEE_PARAM_TYPE_GET types 2 = ParamType.as_u32 t2 /\
  TEE_PARAM_TYPE_GET types 3 = ParamType.as_u32 t3.
Proof.
  cbv zeta. rewrite teec_new_pack. apply TEE_PARAM_TYPE_GET_pack; apply as_u32_tag.
Qed.

Lemma teec_into_flags_new t0 t1 t2 t3 :
  ParamTypes.into_flags
    (ParamTypes.from_u32 (ParamTypes.into_u32 (ParamTypes.new t0 t1 t2 t3)))
    = (t0, t1, t2, t3).
Proof.
  rewrite teec_into_flags_get. destruct (teec_get_new t0 t1 t2 t3) as (-> & -> & -> & ->).
  by rewrite !from_as_u32.
Qed.

(** ** Operations *)

(** What an implementation of [Param] promises: a parameter is recovered from
    its raw form and its type. *)
Class ParamOk (P : Type) `{Param P} : Type := {
  param_wf : P -> Prop;
  param_from_to p : param_wf p -> param_from_raw (to_raw p) (param_type p) = p;
}.

Section Param_instances.
Context `{!Target, !TargetOk}.

#[global] Instance ParamValue_ok : ParamOk ParamValue.
Proof.
  refine {| param_wf p := in_u 32 (ParamValueOps.a p) /\ in_u 32 (ParamValueOps.b p) |}.
  intros [[a b] t] [Ha Hb]. cbn in *. unfold as_value, from_value. cbn.
  by destruct (value_param_fields a b Ha Hb) as [-> ->].
Defined.

#[global] Instance ParamNone_ok : ParamOk ParamNone.
Proof. refine {| param_wf _ := True |}. by intros []. Defined.

#[global] Instance ParamTmpRef_ok : ParamOk ParamTmpRef.
Proof. refine {| param_wf _ := True |}. by intros [[] ?]. Defined.

End Param_instances.

(** The operation after a call: libteec answers in the parameter array. *)
Definition with_answer (op : TEEC_Operation)
    (ps : TEEC_Parameter * TEEC_Parameter * TEEC_Parameter * TEEC_Parameter) : TEEC_Operation :=
  mkTeecOperation (op_started op) (op_paramTypes op) ps (op_imp op).

Section Operations.
Context {A B C D : Type} `{!Param A, !Param B, !Param C, !Param D}.

(** The flags of an operation are the types it was built with. *)
Lemma op_flags_new started (p0 : A) (p1 : B) (p2 : C) (p3 : D) :
  ParamTypes.into_flags (ParamTypes.from_u32
    (op_paramTypes (op_raw (OperationOps.new started p0 p1 p2 p3))))
  = (param_type p0, param_type p1, param_type p2, param_type p3).
Proof. apply teec_into_flags_new. Qed.

Lemma parameters_answered started (p0 : A) (p1 : B) (p2 : C) (p3 : D) op r0 r1 r2 r3 :
  op_paramTypes op = op_paramTypes (op_raw (OperationOps.new started p0 p1 p2 p3)) ->
  op_params op = (r0, r1, r2, r3) ->
  OperationOps.parameters (A:=A) (B:=B) (C:=C) (D:=D) (mkOperation op)
  = (param_from_raw r0 (param_type p0), param_from_raw r1 (param_type p1),
     param_from_raw r2 (param_type p2), param_from_raw r3 (param_type p3)).
Proof.
  intros Ht Hr. unfold OperationOps.parameters. cbn [op_raw].
  by rewrite Ht, Hr, op_flags_new.
Qed.

(** An operation gives back the parameters it was built from, with their
    types; and after a call it gives the answered words under the types the
    client chose, whatever the TEE wrote into the array. *)
Lemma operation_round_trip `{!ParamOk A, !ParamOk B, !ParamOk C, !ParamOk D} started (p0 : A) (p1 : B) (p2 : C) (p3 : D) :
  param_wf p0 -> param_wf p1 -> param_wf p2 -> param_wf p3 ->
  OperationOps.parameters (OperationOps.new started p0 p1 p2 p3) = (p0, p1, p2, p3) /\
  forall r0 r1 r2 r3,
    OperationOps.parameters (A:=A) (B:=B) (C:=C) (D:=D)
      (mkOperation (with_answer (op_raw (OperationOps.new started p0 p1 p2 p3)) (r0, r1, r2, r3)))
    = (param_from_raw r0 (param_type p0), param_from_raw r1 (param_type p1),
       param_from_raw r2 (param_type p2), param_from_raw r3 (param_type p3)).
Proof.
  intros W0 W1 W2 W3. split.
  - etransitivity; [by apply (parameters_answered started p0 p1 p2 p3)|].
    by rewrite !param_from_to.
  - intros. by apply (parameters_answered started p0 p1 p2 p3).
Qed.

End Operations.

(** ** The way to the TA and back *)

Definition op_slots (op : TEEC_Operation) : list (ParamType * TEEC_Parameter) :=
  let '(f0, f1, f2, f3) := ParamTypes.into_flags (ParamTypes.from_u32 (op_paramTypes op)) in
  let '(r0, r1, r2, r3) := op_params op in
  [(f0, r0); (f1, r1); (f2, r2); (f3, r3)].

Lemma op_slots_answered {A B C D : Type} `{!Param A, !Param B, !Param C, !Param D}
    started (p0 : A) (p1 : B) (p2 : C) (p3 : D) op r0 r1 r2 r3 :
  op_paramTypes op = op_paramTypes (op_raw (OperationOps.new started p0 p1 p2 p3)) ->
  op_params op = (r0, r1, r2, r3) ->
  op_slots op =
    [(param_type p0, r0); (param_type p1, r1); (param_type p2, r2); (param_type p3, r3)].
Proof. intros Ht Hr. unfold op_slots. by rewrite Ht, Hr, op_flags_new. Qed.

Lemma op_slots_new {A B C D : Type} `{!Param A, !Param B, !Param C, !Param D}
    started (p0 : A) (p1 : B) (p2 : C) (p3 : D) :
  op_slots (op_raw (OperationOps.new started p0 p1 p2 p3)) =
    [(param_type p0, to_raw p0); (param_type p1, to_raw p1);
     (param_type p2, to_raw p2); (param_type p3, to_raw p3)].
Proof. by eapply op_slots_answered. Qed.

Definition is_value (t : ParamType) : bool :=
  match t with
  | ParamType.ValueInput | ParamType.ValueOutput | ParamType.ValueInout => true
  | _ => false
  end.
Definition is_temp (t : ParamType) : bool :=
  match t with
  | ParamType.MemrefTempInput | ParamType.MemrefTempOutput | ParamType.MemrefTempInout => true
  | _ => false
  end.
Definition is_input (t : ParamType) : bool :=
  match t with
  | ParamType.ValueInput | ParamType.ValueInout
  | ParamType.MemrefTempInput | ParamType.MemrefTempInout => true
  | _ => false
  end.
Definition is_output (t : ParamType) : bool :=
  match t with
  | ParamType.ValueOutput | ParamType.ValueInout
  | ParamType.MemrefTempOutput | ParamType.MemrefTempInout => true
  | _ => false
  end.

(** The client's buffer of a temporary memory reference. *)
Definition client_buffer (r : TEEC_Parameter) : Z := tm_buffer (as_tmpref r).
Definition client_size (r : TEEC_Parameter) : Z := tm_size (as_tmpref r).

(** The ranges [[b, b+n)] and [[b', b'+n')] do not meet. *)
Definition apart (b n b' n' : Z) : Prop := b + n <= b' \/ b' + n' <= b.

Section Transport.
Context `{!Target}.

(** A parameter the transport can carry: machine words, and a value or nothing,
    or a temporary reference to a mapped buffer of the client.  The crate has no
    constructor for registered shared memory. *)
Definition deliverable (m : mem) (t : ParamType) (r : TEEC_Parameter) : Prop :=
  param_ok (tp_words r) /\
  (t = ParamType.None_ \/ is_value t = true \/
   (is_temp t = true /\ 0 < client_buffer r /\ 0 <= client_size r /\
    client_buffer r + client_size r < 2 ^ ptr_bits /\
    range_mapped m (client_buffer r) (client_size r))).

(** What arrives in the TA's slot. *)
Definition delivered (m : mem) (w : world) (t : ParamType) (r : TEEC_Parameter)
    (p : TEE_Param) : Prop :=
  param_ok p /\
  (is_value t = true -> is_input t = true ->
     value_a p = tv_a (as_value r) /\ value_b p = tv_b (as_value r)) /\
  (is_temp t = true ->
     memref_buffer p <> 0 /\ memref_size p = client_size r /\
     valid_buffer w (memref_buffer p) (memref_size p) /\
     (is_input t = true -> forall l, len l = client_size r ->
        holds_at m (client_buffer r) l -> holds_at (wmem w) (memref_buffer p) l)).

(** What comes back: values and sizes of outputs, and the bytes of an output
    buffer that no other output buffer of the client overlaps. *)
Definition collected (m' : mem) (w : world) (t : ParamType) (r : TEEC_Parameter)
    (p q : TEE_Param) (r' : TEEC_Parameter) (alone : Prop) : Prop :=
  (is_value t = true -> is_output t = true ->
     tv_a (as_value r') = value_a q /\ tv_b (as_value r') = value_b q) /\
  (is_temp t = true -> is_output t = true ->
     client_buffer r' = client_buffer r /\ client_size r' = memref_size q /\
     (memref_size q <= client_size r -> alone -> forall l, len l = memref_size q ->
        holds_at (wmem w) (memref_buffer p) l -> holds_at m' (client_buffer r) l)).

Class Transport : Type := {
  deliver : mem -> TEEC_Operation -> world;
  collect : mem -> TEEC_Operation -> world -> mem * TEEC_Operation;
}.

Class TransportOk `{!Transport} : Prop := {
  deliver_length m op : length (raws (deliver m op)) = 4%nat;
  deliver_slot m op i t r p :
    op_slots op !! i = Some (t, r) -> deliverable m t r ->
    raws (deliver m op) !! i = Some p -> delivered m (deliver m op) t r p;
  collect_types m op w : op_paramTypes (collect m op w).2 = op_paramTypes op;
  collect_slot m op w i t r p q t' r' :
    op_slots op !! i = Some (t, r) -> deliverable m t r ->
    raws (deliver m op) !! i = Some p -> raws w !! i = Some q ->
    op_slots (collect m op w).2 !! i = Some (t', r') ->
    collected (collect m op w).1 w t r p q r'
      (forall j tj rj, j <> i -> op_slots op !! j = Some (tj, rj) ->
         is_temp tj = true -> is_output tj = true ->
         apart (client_buffer r) (client_size r) (client_buffer rj) (client_size rj));
}.

End Transport.

Section Delivery.
Context `{!Target, !TargetOk, !Transport, !TransportOk}.
Context {A B C D : Type} `{Param A, Param B, Param C, Param D}.

(** What the TA's wrapper of slot [i] should be for a client's parameter. *)
Definition ta_sees (m : mem) (t : ParamType) (r : TEEC_Parameter) (i : nat) (w : world)
    (x : ParameterAny) : Prop :=
  let memref {T} `{MemrefView T} (q : T) :=
    slot_of q = i /\ exists b, b <> 0 /\ view q w b (client_size r) /\
      valid_buffer w b (client_size r) /\
      (is_input t = true -> forall l, len l = client_size r ->
         holds_at m (client_buffer r) l -> holds_at (wmem w) b l) in
  match t, x with
  | ParamType.None_, ParameterAny.None_ => True
  | ParamType.ValueInput, ParameterAny.ValueInput q =>
      q = mkValueInput (tv_a (as_value r)) (tv_b (as_value r))
  | ParamType.ValueOutput, ParameterAny.ValueOutput q => vo_raw q = i
  | ParamType.ValueInout, ParameterAny.ValueInout q =>
      vio_raw q = i /\ get_a q w = Ret (tv_a (as_value r), w) /\
      get_b q w = Ret (tv_b (as_value r), w)
  | ParamType.MemrefTempInput, ParameterAny.MemrefInput q => memref q
  | ParamType.MemrefTempOutput, ParameterAny.MemrefOutput q => memref q
  | ParamType.MemrefTempInout, ParameterAny.MemrefInout q => memref q
  | _, _ => False
  end.

Lemma deliverable_accepts m w t r p :
  deliverable m t r -> delivered m w t r p ->
  accepts (T:=ParameterAny) (ParamType.as_u32 t) p = true.
Proof.
  intros [_ Hd] (_ & _ & Hm).
  destruct t; cbn in *; try done; try (by destruct Hd as [|[|[? _]]]);
    destruct Hm as [Hn _]; try done; unfold has_buffer; by apply negb_true_iff, Z.eqb_neq.
Qed.

(** The TA-side type of a tag. *)
Lemma any_type_tag x t i p :
  any_stands_for x t i p ->
  any_type x = match Params.ParamType.from_u32 t with
               | Params.ParamType.Unknown _ => None
               | k => Some k
               end.
Proof.
  destruct x; cbn [any_stands_for any_type]; try (intros ->; reflexivity);
    try (intros [-> _]; reflexivity).
  by intros (-> & _ & ->).
Qed.

Lemma views_sees {T} `{MemrefView T} m w t r p i (q : T) :
  delivered m w t r p -> is_temp t = true -> raws w !! i = Some p -> views_slot q i p ->
  slot_of q = i /\ exists b, b <> 0 /\ view q w b (client_size r) /\
    valid_buffer w b (client_size r) /\
    (is_input t = true -> forall l, len l = client_size r ->
       holds_at m (client_buffer r) l -> holds_at (wmem w) b l).
Proof.
  intros (_ & _ & Hm) Ht Hi [Hsl Hview]. destruct (Hm Ht) as (Hb & Hs & Hvb & Hl).
  split; [done|]. exists (memref_buffer p).
  rewrite <- Hs at 1 2. split_and!; [done|by apply Hview|done|done].
Qed.

Lemma delivered_sees m w t r p i x :
  deliverable m t r -> delivered m w t r p -> raws w !! i = Some p ->
  any_stands_for x (ParamType.as_u32 t) i p -> ta_sees m t r i w x.
Proof.
  intros Hd Hdel Hi Hx. pose proof (any_type_tag _ _ _ _ Hx) as Ht. pose proof Hdel as (_ & Hv & _).
  destruct t; try (by destruct Hd as [_ [|[|[? _]]]]);
    vm_compute in Ht; destruct x; try discriminate Ht; clear Ht;
    cbn [any_stands_for] in Hx; cbn [ta_sees];
    try (eapply views_sees; [done..|exact (proj2 Hx)]).
  - done.
  - destruct (Hv eq_refl eq_refl) as [<- <-]. by destruct Hx as [_ ->].
  - by destruct Hx as [_ ->].
  - destruct (Hv eq_refl eq_refl) as [<- <-]. destruct Hx as [_ ->]. split; [done|].
    cbn [get_a get_b ParameterValueInout_read vio_raw].
    by rewrite !(pbind_Ret _ _ _ _ _ (get_raw_Some i w p Hi)).
Qed.

(** One slot: conversion succeeds and the wrapper is right. *)
Lemma slot_delivered m op i t r :
  op_slots op !! i = Some (t, r) -> deliverable m t r -> (i < 4)%nat ->
  exists p, raws (deliver m op) !! i = Some p /\ delivered m (deliver m op) t r p.
Proof.
  intros Hs Hd Hi. destruct (lookup_lt_is_Some_2 (raws (deliver m op)) i) as [p Hp];
    [by rewrite deliver_length|].
  exists p. split; [done|]. by eapply deliver_slot.
Qed.

Lemma any_from_slot m op i t r :
  op_slots op !! i = Some (t, r) -> deliverable m t r -> (i < 4)%nat ->
  exists x : ParameterAny,
    from_raw (ParamType.as_u32 t) i (deliver m op) = Ret (Ok x, deliver m op) /\
    ta_sees m t r i (deliver m op) x.
Proof.
  intros Hs Hd Hi. destruct (slot_delivered m op i t r Hs Hd Hi) as (p & Hp & Hdel).
  destruct (from_raw_accept _ i _ _ Hp (deliverable_accepts _ _ _ _ _ Hd Hdel)) as (x & E & Hx).
  exists x. split; [exact E|]. by eapply delivered_sees.
Qed.

(** C16: what a client puts into an [Operation] is what the TA finds: the
    type-erased conversion of the delivered type word and parameters succeeds,
    every slot gets the TA-side variant of the client's parameter type, input
    values are the client's values, and memory references stand for a non-null
    valid buffer of the client's size holding the client's input bytes. *)
Theorem ta_sees_ca_operation m started (p0 : A) (p1 : B) (p2 : C) (p3 : D) :
  deliverable m (param_type p0) (to_raw p0) -> deliverable m (param_type p1) (to_raw p1) ->
  deliverable m (param_type p2) (to_raw p2) -> deliverable m (param_type p3) (to_raw p3) ->
  let op := op_raw (OperationOps.new started p0 p1 p2 p3) in
  let w := deliver m op in
  exists x0 x1 x2 x3 : ParameterAny,
    from_raw_tuple (op_paramTypes op) w = Ret (Ok (x0, x1, x2, x3), w) /\
    ta_sees m (param_type p0) (to_raw p0) 0 w x0 /\ ta_sees m (param_type p1) (to_raw p1) 1 w x1 /\
    ta_sees m (param_type p2) (to_raw p2) 2 w x2 /\ ta_sees m (param_type p3) (to_raw p3) 3 w x3.
Proof.
  intros D0 D1 D2 D3 op w. pose proof (op_slots_new started p0 p1 p2 p3) as Hs.
  fold op in Hs.
  destruct (any_from_slot m op 0 _ _ ltac:(by rewrite Hs) D0 ltac:(lia)) as (x0 & E0 & S0).
  destruct (any_from_slot m op 1 _ _ ltac:(by rewrite Hs) D1 ltac:(lia)) as (x1 & E1 & S1).
  destruct (any_from_slot m op 2 _ _ ltac:(by rewrite Hs) D2 ltac:(lia)) as (x2 & E2 & S2).
  destruct (any_from_slot m op 3 _ _ ltac:(by rewrite Hs) D3 ltac:(lia)) as (x3 & E3 & S3).
  exists x0, x1, x2, x3. split; [|done]. unfold from_raw_tuple.
  destruct (teec_get_new (param_type p0) (param_type p1) (param_type p2) (param_type p3))
    as (G0 & G1 & G2 & G3).
  change (op_paramTypes op) with (ParamTypes.into_u32
    (ParamTypes.new (param_type p0) (param_type p1) (param_type p2) (param_type p3))).
  rewrite G0, G1, G2, G3.
  do 3 (erewrite ptry_Ok by done). by erewrite ptry_Ok by done.
Qed.

End Delivery.

(** ** A request and its answer

    The shape of the commands of the example TAs: an in/out buffer carries the
    request and the response, an in/out value two words; the other two slots are
    whatever the client passes. *)

Section Rpc.
Context `{!Target, !TargetOk, !TeeMemMove, !TeeMemMoveOk, !Transport, !TransportOk}.
Context (f : bytes -> Z -> Z -> bytes * Z * Z).

Definition serve (types : Z) : prog world (Result unit) :=
  let? (x0, x1, _, _) := from_raw_tuple
      (A:=ParameterMemrefInout) (B:=ParameterValueInout) (C:=ParameterAny) (D:=ParameterAny)
      types in
  let* req := read_to_vec x0 in
  let* a := get_a x1 in
  let* b := get_b x1 in
  let '(resp, a', b') := f req a b in
  let? _ := set_output x0 resp in
  let* _ := set_a x1 a' in
  let* _ := set_b x1 b' in
  pret (Ok tt).

(** Reading and writing the words of an in/out value. *)
Lemma value_inout_get i w raw :
  raws w !! i = Some raw ->
  get_a (mkValueInout i) w = Ret (value_a raw, w) /\ get_b (mkValueInout i) w = Ret (value_b raw, w).
Proof.
  intros Hi. cbn [get_a get_b ParameterValueInout_read vio_raw].
  by rewrite !(pbind_Ret _ _ _ _ _ (get_raw_Some i w raw Hi)).
Qed.

Lemma value_inout_set i w raw a b :
  raws w !! i = Some raw -> param_ok raw -> in_u 32 a -> in_u 32 b ->
  exists raw', value_a raw' = a /\ value_b raw' = b /\
    (let* _ := set_a (mkValueInout i) a in
     let* _ := set_b (mkValueInout i) b in
     pret (Ok tt : Result unit)) w
    = Ret (Ok tt, mkWorld (wmem w) (<[i := raw']> (raws w))).
Proof.
  intros Hi Hok Ha Hb.
  destruct (value_set_a raw a Hok Ha) as (A1 & A2 & A3).
  destruct (value_set_b (set_value_a raw a) b A3 Hb) as (B1 & B2 & _).
  exists (set_value_b (set_value_a raw a) b). rewrite B1, B2, A1. split_and!; [done..|].
  cbn [set_a set_b ParameterValueInout_write vio_raw]. unfold pbind, pret.
  rewrite (get_raw_Some i w raw Hi), (put_raw_Some i w raw _ Hi).
  pose proof (lookup_lt_Some _ _ _ Hi) as Hlt.
  erewrite get_raw_Some by (cbn; by apply list_lookup_insert_eq).
  erewrite put_raw_Some by (cbn; by apply list_lookup_insert_eq). cbn.
  by rewrite list_insert_insert_eq.
Qed.

Context {C D : Type} `{Param C, Param D}.
Context (m : mem) (started : Z) (buf : byte_slice) (a b : Z) (p2 : C) (p3 : D).

Definition request : TEEC_Operation :=
  op_raw (OperationOps.new started (ParamTmpRefOps.new_inout buf)
            (ParamValueOps.new a b ParamType.ValueInout) p2 p3).

(** The client's part: a valid buffer holding the request, two [u32], and
    parameters 2 and 3 that do not write over the buffer (in Rust the buffer is
    mutably borrowed). *)
Record request_ok (req : bytes) : Prop := {
  rq_buf : slice_ok buf;
  rq_len : len req = slice_len buf;
  rq_max : slice_len buf < 2 ^ (ptr_bits - 1);
  rq_holds : holds_at m (as_ptr buf) req;
  rq_a : in_u 32 a;
  rq_b : in_u 32 b;
  rq_p2 : deliverable m (param_type p2) (to_raw p2);
  rq_p3 : deliverable m (param_type p3) (to_raw p3);
  rq_apart t r :
    (t = param_type p2 /\ r = to_raw p2) \/ (t = param_type p3 /\ r = to_raw p3) ->
    is_temp t = true -> is_output t = true ->
    apart (as_ptr buf) (slice_len buf) (client_buffer r) (client_size r);
}.

Lemma request_slots :
  op_slots request =
    [(ParamType.MemrefTempInout, from_tmpref (ParamTmpRefOps.tmpref buf));
     (ParamType.ValueInout, from_value (mkTeecValue a b));
     (param_type p2, to_raw p2); (param_type p3, to_raw p3)].
Proof.
  exact (op_slots_new started (ParamTmpRefOps.new_inout buf)
           (ParamValueOps.new a b ParamType.ValueInout) p2 p3).
Qed.

Lemma request_memref_deliverable req :
  request_ok req ->
  deliverable m ParamType.MemrefTempInout (from_tmpref (ParamTmpRefOps.tmpref buf)).
Proof.
  intros [(? & ? & ?) Hl _ Hh _ _ _ _ _]. split; [split; cbn; unfold in_u; lia|].
  right; right. cbn. split_and!; try done. rewrite <- Hl. by apply holds_at_mapped.
Qed.

Lemma value_param_ok x y : in_u 32 x -> in_u 32 y -> param_ok (value_param x y).
Proof.
  unfold param_ok, value_param, in_u. intros.
  destruct ptr_bits_cases as [Hb|Hb]; rewrite !Hb; cbn [Z.eqb Pos.eqb word0 word1]; lia.
Qed.

Lemma request_value_deliverable req :
  request_ok req -> deliverable m ParamType.ValueInout (from_value (mkTeecValue a b)).
Proof.
  intros Hok. split; [|by right; left]. by apply value_param_ok; apply Hok.
Qed.

(** The conversion at the start of [serve], and what the first two slots hold. *)
Lemma request_arrives req :
  request_ok req ->
  exists q0 q1 (x2 x3 : ParameterAny),
    raws (deliver m request) !! 0%nat = Some q0 /\ raws (deliver m request) !! 1%nat = Some q1 /\
    delivered m (deliver m request) ParamType.MemrefTempInout
      (from_tmpref (ParamTmpRefOps.tmpref buf)) q0 /\
    delivered m (deliver m request) ParamType.ValueInout (from_value (mkTeecValue a b)) q1 /\
    from_raw_tuple (op_paramTypes request) (deliver m request)
      = Ret (Ok (mkMemrefInout (memref_size q0) 0, mkValueInout 1, x2, x3), deliver m request).
Proof.
  intros Hok. pose proof request_slots as Hs.
  pose proof (request_memref_deliverable req Hok) as D0.
  destruct (slot_delivered m request 0 _ _ ltac:(by rewrite Hs) D0 ltac:(lia)) as (q0 & Hq0 & Hd0).
  destruct (slot_delivered m request 1 _ _ ltac:(by rewrite Hs)
              (request_value_deliverable req Hok) ltac:(lia))
    as (q1 & Hq1 & Hd1).
  destruct (any_from_slot m request 2 _ _ ltac:(by rewrite Hs) (rq_p2 _ Hok) ltac:(lia))
    as (x2 & E2 & _).
  destruct (any_from_slot m request 3 _ _ ltac:(by rewrite Hs) (rq_p3 _ Hok) ltac:(lia))
    as (x3 & E3 & _).
  exists q0, q1, x2, x3. split_and!; [done..|].
  destruct (teec_get_new ParamType.MemrefTempInout ParamType.ValueInout (param_type p2)
              (param_type p3)) as (G0 & G1 & G2 & G3).
  unfold from_raw_tuple. change (op_paramTypes request) with (ParamTypes.into_u32
    (ParamTypes.new ParamType.MemrefTempInout ParamType.ValueInout (param_type p2)
       (param_type p3))).
  rewrite G0, G1, G2, G3.
  erewrite ptry_Ok by (apply memref_inout_from_raw; [done|by apply Hd0]).
  erewrite ptry_Ok by reflexivity. erewrite ptry_Ok by done. by erewrite ptry_Ok by done.
Qed.

(** The bytes the TA reads are the request. *)
Lemma request_read req q0 :
  request_ok req -> raws (deliver m request) !! 0%nat = Some q0 ->
  delivered m (deliver m request) ParamType.MemrefTempInout
    (from_tmpref (ParamTmpRefOps.tmpref buf)) q0 ->
  view (mkMemrefInout (memref_size q0) 0) (deliver m request) (memref_buffer q0) (memref_size q0) /\
  valid_buffer (deliver m request) (memref_buffer q0) (memref_size q0) /\
  memref_size q0 = len req /\
  read_to_vec (mkMemrefInout (memref_size q0) 0) (deliver m request)
    = Ret (req, deliver m request).
Proof.
  intros Hok Hq0 (_ & _ & Hm). destruct (Hm eq_refl) as (Hn & Hsz & Hvb & Hin).
  assert (memref_size q0 = len req) as Hlen by (rewrite Hsz, (rq_len _ Hok); done).
  assert (view (mkMemrefInout (memref_size q0) 0) (deliver m request) (memref_buffer q0)
            (memref_size q0)) as Hv.
  { split; [done|]. exists (word1 q0). destruct q0; exact Hq0. }
  split_and!; [done..|].
  destruct (read_to_vec_spec _ _ _ _ Hv Hvb) as (l & E & Hl & Hh).
  { rewrite Hlen, (rq_len _ Hok). apply (rq_max _ Hok). }
  rewrite E. f_equal. f_equal. eapply holds_at_inj; [|exact Hh|]; [congruence|].
  apply (Hin eq_refl); [rewrite (rq_len _ Hok); done|]. apply (rq_holds _ Hok).
Qed.

(** [serve] up to the point where the response is written. *)
Lemma serve_reads req q0 q1 (x2 x3 : ParameterAny) resp a' b' :
  request_ok req ->
  raws (deliver m request) !! 0%nat = Some q0 -> raws (deliver m request) !! 1%nat = Some q1 ->
  delivered m (deliver m request) ParamType.MemrefTempInout
    (from_tmpref (ParamTmpRefOps.tmpref buf)) q0 ->
  delivered m (deliver m request) ParamType.ValueInout (from_value (mkTeecValue a b)) q1 ->
  from_raw_tuple (op_paramTypes request) (deliver m request)
    = Ret (Ok (mkMemrefInout (memref_size q0) 0, mkValueInout 1, x2, x3), deliver m request) ->
  f req a b = (resp, a', b') ->
  serve (op_paramTypes request) (deliver m request)
    = (let? _ := set_output (mkMemrefInout (memref_size q0) 0) resp in
       let* _ := set_a (mkValueInout 1) a' in
       let* _ := set_b (mkValueInout 1) b' in
       pret (Ok tt)) (deliver m request).
Proof.
  intros Hok Hq0 Hq1 Hd0 Hd1 E Hf. unfold serve. erewrite ptry_Ok by exact E.
  destruct (request_read req q0 Hok Hq0 Hd0) as (_ & _ & _ & Hr).
  erewrite pbind_Ret by exact Hr.
  destruct (value_inout_get 1 _ _ Hq1) as [Ga Gb].
  erewrite pbind_Ret by exact Ga. erewrite pbind_Ret by exact Gb.
  destruct Hd1 as (_ & Hv & _). destruct (Hv eq_refl eq_refl) as [-> ->]. cbn [as_value from_value tp_words tv_a tv_b].
  destruct (value_param_fields a b (rq_a _ Hok) (rq_b _ Hok)) as [-> ->]. by rewrite Hf.
Qed.

Lemma serve_request req resp a' b' :
  request_ok req -> f req a b = (resp, a', b') -> in_u 32 a' -> in_u 32 b' ->
  exists q0 q1,
    raws (deliver m request) !! 0%nat = Some q0 /\ raws (deliver m request) !! 1%nat = Some q1 /\
    (len req < len resp ->
       serve (op_paramTypes request) (deliver m request)
         = Ret (bail ErrorKind.ShortBuffer, deliver m request)) /\
    (len resp <= len req -> exists w' q1',
       serve (op_paramTypes request) (deliver m request) = Ret (Ok tt, w') /\
       raws w' !! 0%nat = Some (set_memref_size q0 (len resp)) /\ raws w' !! 1%nat = Some q1' /\
       value_a q1' = a' /\ value_b q1' = b' /\ holds_at (wmem w') (memref_buffer q0) resp).
Proof.
  intros Hok Hf Ha' Hb'.
  destruct (request_arrives req Hok) as (q0 & q1 & x2 & x3 & Hq0 & Hq1 & Hd0 & Hd1 & E).
  exists q0, q1. split_and!; [done..| |];
    rewrite (serve_reads req q0 q1 x2 x3 resp a' b' Hok Hq0 Hq1 Hd0 Hd1 E Hf); intros Hlt;
    destruct (request_read req q0 Hok Hq0 Hd0) as (Hview & Hvb & Hlen & _).
  - eapply ptry_Err. eapply write_at_short; [exact Hview| |lia]. destruct Hvb as (? & ? & ? & _). lia.
  - destruct (write_at_fits _ _ _ _ 0 resp Hview Hvb ltac:(lia) ltac:(lia))
      as (raw & mm & Hraw & Ew & _ & Hh & _ & _).
    change (slot_of (mkMemrefInout (memref_size q0) 0)) with 0%nat in *.
    assert (raw = q0) as -> by congruence. rewrite Z.add_0_r in Hh.
    erewrite ptry_Ok by exact Ew.
    set (w1 := written (deliver m request) 0 q0 mm (0 + len resp)) in *.
    assert (raws w1 !! 1%nat = Some q1) as Hq1'
      by (unfold w1, written, with_size; cbn [raws]; by rewrite list_lookup_insert_ne).
    destruct (value_inout_set 1 w1 q1 a' b' Hq1' (proj1 Hd1) Ha' Hb') as (raw' & Va & Vb & Es).
    eexists _, raw'. split; [exact Es|]. split_and!; [| |done..].
    + cbn [raws]. rewrite list_lookup_insert_ne by done. unfold w1, written, with_size. cbn [raws].
      apply list_lookup_insert_eq. by eapply lookup_lt_Some.
    + cbn [raws]. apply list_lookup_insert_eq. by eapply lookup_lt_Some.
Qed.

(** What the client finds in the first two slots after the call. *)
Lemma request_answered req w' q0 q1 q0' q1' :
  request_ok req ->
  raws (deliver m request) !! 0%nat = Some q0 -> raws (deliver m request) !! 1%nat = Some q1 ->
  raws w' !! 0%nat = Some q0' -> raws w' !! 1%nat = Some q1' ->
  exists r0 r1 x2 x3,
    OperationOps.parameters (A:=ParamTmpRef) (B:=ParamValue) (C:=C) (D:=D)
      (mkOperation (collect m request w').2)
      = (mkParamTmpRef (as_tmpref r0) ParamType.MemrefTempInout,
         mkParamValue (as_value r1) ParamType.ValueInout, x2, x3) /\
    collected (collect m request w').1 w' ParamType.MemrefTempInout
      (from_tmpref (ParamTmpRefOps.tmpref buf)) q0 q0' r0 True /\
    collected (collect m request w').1 w' ParamType.ValueInout
      (from_value (mkTeecValue a b)) q1 q1' r1 True.
Proof.
  intros Hok Hq0 Hq1 Hw0 Hw1. pose proof request_slots as Hs.
  pose proof (collect_types m request w') as Ht.
  destruct (op_params (collect m request w').2) as [[[r0 r1] r2] r3] eqn:Hr.
  pose proof (op_slots_answered _ _ _ _ _ _ _ _ _ _ Ht Hr) as Hs'.
  pose proof (request_memref_deliverable req Hok) as D0.
  exists r0, r1. do 2 eexists. split; [exact (parameters_answered _ _ _ _ _ _ _ _ _ _ Ht Hr)|].
  destruct (collect_slot m request w' 1 _ _ q1 q1' ParamType.ValueInout r1
    ltac:(by rewrite Hs) (request_value_deliverable req Hok) Hq1 Hw1 ltac:(by rewrite Hs')) as [Cv1 _].
  split; [|by split; [exact Cv1|]].
  destruct (collect_slot m request w' 0 _ _ q0 q0' ParamType.MemrefTempInout r0
    ltac:(by rewrite Hs) D0 Hq0 Hw0 ltac:(by rewrite Hs')) as [Cv Cm].
  split; [exact Cv|]. intros T1 T2. destruct (Cm T1 T2) as (Eb & Esz & Hbytes).
  split_and!; [done..|]. intros Hle _. apply Hbytes; [done|].
  intros j tj rj Hj Hsj. rewrite Hs in Hsj.
  destruct j as [|[|[|[|j]]]]; [done| | | |done]; injection Hsj as <- <-; [done|..];
    apply (rq_apart _ Hok); auto.
Qed.

(** C15: a request travels from the client to the TA and its answer travels
    back.  For a command that takes an in/out buffer and an in/out value (the
    other two slots arbitrary), the TA's handler sees exactly the client's bytes
    and words; if the response fits the buffer, the client's buffer then holds
    the response, [updated_size] is its length and [a] and [b] are the handler's
    answers, under the parameter types the client chose; if it does not fit,
    the handler ends with [ShortBuffer] and nothing was written. *)
Theorem request_round_trip req resp a' b' :
  request_ok req -> f req a b = (resp, a', b') -> in_u 32 a' -> in_u 32 b' ->
  (len req < len resp /\
   serve (op_paramTypes request) (deliver m request)
     = Ret (bail ErrorKind.ShortBuffer, deliver m request))
  \/ (len resp <= len req /\ exists w' q0 q1 q2 q3,
      serve (op_paramTypes request) (deliver m request) = Ret (Ok tt, w') /\
      OperationOps.parameters (A:=ParamTmpRef) (B:=ParamValue) (C:=C) (D:=D)
        (mkOperation (collect m request w').2) = (q0, q1, q2, q3) /\
      ParamTmpRefOps.updated_size q0 = len resp /\ pt_type q0 = ParamType.MemrefTempInout /\
      holds_at (collect m request w').1 (as_ptr buf) resp /\
      ParamValueOps.a q1 = a' /\ ParamValueOps.b q1 = b' /\ pv_type q1 = ParamType.ValueInout).
Proof.
  intros Hok Hf Ha' Hb'.
  destruct (serve_request req resp a' b' Hok Hf Ha' Hb') as (q0 & q1 & Hq0 & Hq1 & Hko & Hgo).
  destruct (Z.lt_ge_cases (len req) (len resp)) as [Hlt|Hge]; [left; by split; [|apply Hko]|].
  right. split; [done|]. destruct (Hgo Hge) as (w' & q1' & Es & Hw0 & Hw1 & Va & Vb & Hh).
  destruct (request_answered req w' _ _ _ _ Hok Hq0 Hq1 Hw0 Hw1)
    as (r0 & r1 & x2 & x3 & Ep & [_ C0] & [C1 _]).
  destruct (C0 eq_refl eq_refl) as (_ & Hsz & Hbytes). destruct (C1 eq_refl eq_refl) as [Ca Cb].
  exists w'. do 4 eexists. split; [exact Es|]. split; [exact Ep|].
  split_and!; [exact Hsz|done| |cbn in *; congruence|cbn in *; congruence|done].
  apply Hbytes; [cbn; rewrite <- (rq_len _ Hok); exact Hge|done|done|exact Hh].
Qed.

End Rpc.

(** ** A transport for the properties

    The TA works on the client's own memory: slots are passed through. *)

Module SharedTransport.

#[local] Instance shared_target : Target := 64.
#[local] Existing Instance plain_memmove.
#[local] Existing Instance plain_memmove_ok.

Definition params_list (op : TEEC_Operation) : list TEEC_Parameter :=
  let '(r0, r1, r2, r3) := op_params op in [r0; r1; r2; r3].

(** Values are taken over, references keep the client's buffer. *)
Definition answer_slot (t : ParamType) (r : TEEC_Parameter) (q : option TEE_Param)
    : TEEC_Parameter :=
  match q with
  | Some q => if is_temp t then mkTeecParam (set_memref_size (tp_words r) (word1 q)) (tp_third r)
              else mkTeecParam q (tp_third r)
  | None => r
  end.

Definition answer_op (op : TEEC_Operation) (w : world) : TEEC_Operation :=
  let '(f0, f1, f2, f3) := ParamTypes.into_flags (ParamTypes.from_u32 (op_paramTypes op)) in
  let '(r0, r1, r2, r3) := op_params op in
  with_answer op (answer_slot f0 r0 (raws w !! 0%nat), answer_slot f1 r1 (raws w !! 1%nat),
                  answer_slot f2 r2 (raws w !! 2%nat), answer_slot f3 r3 (raws w !! 3%nat)).

#[local] Instance shared_transport : Transport := {|
  deliver m op := mkWorld m (map tp_words (params_list op));
  collect m op w := (wmem w, answer_op op w);
|}.

Lemma shared_slot m op i t r p :
  op_slots op !! i = Some (t, r) -> raws (deliver m op) !! i = Some p -> p = tp_words r.
Proof.
  cbn. unfold op_slots, params_list.
  destruct (ParamTypes.into_flags (ParamTypes.from_u32 (op_paramTypes op))) as [[[f0 f1] f2] f3].
  destruct (op_params op) as [[[r0 r1] r2] r3].
  destruct i as [|[|[|[|i]]]]; cbn; naive_solver.
Qed.

Lemma shared_answer op w i t r q t' r' :
  op_slots op !! i = Some (t, r) -> raws w !! i = Some q ->
  op_slots (answer_op op w) !! i = Some (t', r') -> r' = answer_slot t r (Some q).
Proof.
  unfold op_slots, answer_op.
  destruct (ParamTypes.into_flags (ParamTypes.from_u32 (op_paramTypes op))) 
    as [[[f0 f1] f2] f3] eqn:Ef.
  destruct (op_params op) as [[[r0 r1] r2] r3]. cbn [with_answer op_paramTypes op_params].
  rewrite Ef. destruct i as [|[|[|[|i]]]]; intros Hs Hq; rewrite ?Hq; intros Hs'; [..|done];
    injection Hs as <- <-; injection Hs' as _ <-; done.
Qed.

Lemma answer_op_types op w : op_paramTypes (answer_op op w) = op_paramTypes op.
Proof.
  unfold answer_op. destruct (ParamTypes.into_flags (ParamTypes.from_u32 (op_paramTypes op))) as [[[? ?] ?] ?].
  by destruct (op_params op) as [[[? ?] ?] ?].
Qed.

#[local] Instance shared_transport_ok : TransportOk.
Proof.
  split.
  - intros m op. cbn. unfold params_list. by destruct (op_params op) as [[[? ?] ?] ?].
  - intros m op i t r p Hs [Hok Hd] Hp. rewrite (shared_slot _ _ _ _ _ _ Hs Hp) in *.
    split_and!; [done..|]. intros Ht.
    destruct Hd as [->|[Hv|(_ & ? & ? & ? & ?)]]; [done|by destruct t|].
    unfold valid_buffer, client_buffer, client_size, as_tmpref in *. cbn [tm_buffer tm_size] in *.
    split_and!; try done; lia.
  - intros m op w. apply answer_op_types.
  - intros m op w i t r p q t' r' Hs _ Hp Hq Hs'.
    rewrite (shared_slot _ _ _ _ _ _ Hs Hp) in *.
    rewrite (shared_answer _ _ _ _ _ _ _ _ Hs Hq Hs'). unfold answer_slot.
    destruct (is_temp t) eqn:Ht; split; try done; by destruct t.
Qed.

Definition buf : byte_slice := mkSlice 0x1000 4.
Definition memory : mem := buffer_at 0x1000 [1; 2; 3; 4].

(** A handler that answers the first two bytes reversed and adds the words. *)
Definition handler (req : bytes) (a b : Z) : bytes * Z * Z :=
  (rev (take 2 req), wrap_u 32 (a + b), b).

Lemma operation_round_trip_witness :
  OperationOps.parameters (OperationOps.new 0 (ParamTmpRefOps.new_input buf)
      (ParamValueOps.new 5 6 ParamType.ValueInout) mkParamNone mkParamNone)
  = (ParamTmpRefOps.new_input buf, ParamValueOps.new 5 6 ParamType.ValueInout,
     mkParamNone, mkParamNone).
Proof.
  apply (operation_round_trip 0 (ParamTmpRefOps.new_input buf)
           (ParamValueOps.new 5 6 ParamType.ValueInout) mkParamNone mkParamNone); done.
Defined.

Lemma memory_mapped : range_mapped memory 0x1000 4.
Proof. exact (buffer_at_mapped 0x1000 [1; 2; 3; 4]). Qed.

Lemma ta_sees_ca_operation_witness :
  exists x0 x1 x2 x3 : ParameterAny,
    from_raw_tuple 0x35 (mkWorld memory
        [mkParam 0x1000 4; mkParam (5 + 2 ^ 32 * 6) 0; mkParam 0 0; mkParam 0 0])
    = Ret (Ok (x0, x1, x2, x3), mkWorld memory
        [mkParam 0x1000 4; mkParam (5 + 2 ^ 32 * 6) 0; mkParam 0 0; mkParam 0 0]).
Proof.
  destruct (ta_sees_ca_operation memory 0 (ParamTmpRefOps.new_input buf)
    (ParamValueOps.new 5 6 ParamType.ValueInout) mkParamNone mkParamNone)
    as (x0 & x1 & x2 & x3 & E & _); [..|exists x0, x1, x2, x3; exact E].
  - split; [by split|]. right; right. split_and!; try done. exact memory_mapped.
  - split; [by split|]. by right; left.
  - split; [by split|]. by left.
  - split; [by split|]. by left.
Defined.

Lemma request_round_trip_witness :
  exists w', serve handler 0x37 (mkWorld memory
        [mkParam 0x1000 4; mkParam (5 + 2 ^ 32 * 6) 0; mkParam 0 0; mkParam 0 0])
      = Ret (Ok tt, w') /\ holds_at (wmem w') 0x1000 [2; 1].
Proof.
  destruct (request_round_trip handler memory 0 buf 5 6 mkParamNone mkParamNone
              [1; 2; 3; 4] [2; 1] 11 6) as [[Hlt _]|(_ & w' & q0 & q1 & q2 & q3 & E & _ & _ & _ & Hh & _)].
  - split; try done; try (by vm_compute).
    + intros i Hi. by apply buffer_at_lookup.
    + by split; [by split|left].
    + by split; [by split|left].
    + intros t r [[-> ->]|[-> ->]]; done.
  - done.
  - done.
  - done.
  - by vm_compute in Hlt.
  - exists w'. split; [exact E|exact Hh].
Defined.

End SharedTransport.
