(* ===== verification/TeecSession.v ===== *)
(** * TeecSession: contexts and sessions of the CA-side API

    Models [crates/optee-teec/src/context.rs] and [session.rs].  libteec is an
    interface over its own state, with the contexts and sessions it holds as
    observables.  The reference counting the crate relies on is explicit: an
    [Arc<Mutex<InnerContext>>] is a location of the client's heap whose cell has
    a strong count, the raw context and the state of the mutex; [clone] and
    [drop] of an [Arc] are definitions, and so are the destructors of
    [InnerContext] and [Session].  A dereference of a freed cell is undefined
    behaviour, and locking a mutex that is held panics (it would block forever);
    the theorems show that neither happens. *)

From S2P Require Import Prelude Params TeeParams TeecDefines TeecError TeecParams.

(** ** [ConnectionMethods] *)

Module ConnectionMethods.

Inductive ConnectionMethods : Type :=
| LoginPublic
| LoginUser
| LoginGroup
| LoginApplication
| LoginUserApplication
| LoginGroupApplication
| Unknown (code : Z).

#[global] Instance ConnectionMethods_eq_dec : EqDecision ConnectionMethods.
Proof. solve_decision. Defined.

(** [u32::from(login)]. *)
Definition into_u32 (c : ConnectionMethods) : Z :=
  match c with
  | LoginPublic => TEEC_LOGIN_PUBLIC
  | LoginUser => TEEC_LOGIN_USER
  | LoginGroup => TEEC_LOGIN_GROUP
  | LoginApplication => TEEC_LOGIN_APPLICATION
  | LoginUserApplication => TEEC_LOGIN_USER_APPLICATION
  | LoginGroupApplication => TEEC_LOGIN_GROUP_APPLICATION
  | Unknown code => code
  end.

#[global] Instance ConnectionMethods_num_enum : NumEnum ConnectionMethods :=
  {| discriminant := into_u32;
     named := [LoginPublic; LoginUser; LoginGroup; LoginApplication; LoginUserApplication;
               LoginGroupApplication];
     otherwise := Unknown |}.
#[global] Instance ConnectionMethods_num_enum_ok : NumEnumOk ConnectionMethods.
Proof. num_enum_ok. Qed.
#[global] Instance ConnectionMethods_catch_all : CatchAll ConnectionMethods.
Proof. done. Qed.

Definition from_u32 (code : Z) : ConnectionMethods := from_primitive code.

End ConnectionMethods.

Abbreviation ConnectionMethods := ConnectionMethods.ConnectionMethods.

(** ** libteec *)

Record TEEC_UUID : Type := mkTeecUuid {
  timeLow : Z; timeMid : Z; timeHiAndVersion : Z; clockSeqAndNode : bytes
}.

(** A raw context and a raw session are handles. *)
Record open_reply : Type := mkOpenReply {
  or_code : Z; or_origin : Z; or_session : Z; or_operation : option TEEC_Operation
}.
Record invoke_reply : Type := mkInvokeReply {
  ir_code : Z; ir_origin : Z; ir_operation : TEEC_Operation
}.

Class TeecApi (St : Type) : Type := {
  TEEC_InitializeContext : St -> Z * Z * St;
  TEEC_FinalizeContext : Z -> St -> outcome St;
  TEEC_OpenSession : Z -> TEEC_UUID -> Z -> option TEEC_Operation -> St -> open_reply * St;
  TEEC_InvokeCommand : Z -> Z -> TEEC_Operation -> St -> invoke_reply * St;
  TEEC_CloseSession : Z -> St -> outcome St;
  contexts : St -> gset Z;
  sessions_of : St -> gmap Z Z;
}.

(** Documented behaviour.  A context may be finalized only when it has been
    initialized and no session is open within it; a session may be opened only
    in an initialized context, and closed only once. *)
Class TeecApiOk (St : Type) `{TeecApi St} : Prop := {
  initialize_ok s code c s' :
    TEEC_InitializeContext s = (code, c, s') ->
    sessions_of s' = sessions_of s /\
    (code = TEEC_SUCCESS -> (c ∉ contexts s) /\ contexts s' = {[c]} ∪ contexts s) /\
    (code <> TEEC_SUCCESS -> contexts s' = contexts s);
  finalize_ok c s :
    c ∈ contexts s -> (forall h, sessions_of s !! h <> Some c) ->
    exists s', TEEC_FinalizeContext c s = Ret s' /\
      contexts s' = contexts s ∖ {[c]} /\ sessions_of s' = sessions_of s;
  open_ok c u l op s rep s' :
    c ∈ contexts s -> TEEC_OpenSession c u l op s = (rep, s') ->
    contexts s' = contexts s /\
    (or_code rep = TEEC_SUCCESS ->
       sessions_of s !! or_session rep = None /\
       sessions_of s' = <[or_session rep := c]> (sessions_of s)) /\
    (or_code rep <> TEEC_SUCCESS -> sessions_of s' = sessions_of s);
  invoke_ok h cmd op s rep s' :
    TEEC_InvokeCommand h cmd op s = (rep, s') ->
    contexts s' = contexts s /\ sessions_of s' = sessions_of s;
  close_ok h c s :
    sessions_of s !! h = Some c ->
    exists s', TEEC_CloseSession h s = Ret s' /\
      contexts s' = contexts s /\ sessions_of s' = delete h (sessions_of s);
}.

(** ** The client's heap of contexts *)

(** The cell behind an [Arc<Mutex<InnerContext>>]. *)
Record arc_cell : Type := mkCell { strong : Z; inner : Z; locked : bool }.

Record client (St : Type) : Type := mkClient { lib : St; heap : gmap Z arc_cell }.
Arguments mkClient {St} lib heap.
Arguments lib {St} c.
Arguments heap {St} c.

Record Context : Type := mkContext { ctx_raw : Z }.
Record Session : Type := mkSession { sess_raw : Z; sess_ctx : Z }.

Section Teec.
Context {St : Type} `{!TeecApi St}.

(** [Arc::new(Mutex::new(InnerContext(c)))]. *)
Definition arc_new (c : Z) : prog (client St) Z :=
  fun s => let l := fresh (dom (heap s)) in
           Ret (l, mkClient (lib s) (<[l := mkCell 1 c false]> (heap s))).

Definition deref (l : Z) : prog (client St) arc_cell :=
  fun s => match heap s !! l with Some c => Ret (c, s) | None => UB end.
Definition set_cell (l : Z) (c : arc_cell) : prog (client St) unit :=
  fun s => Ret (tt, mkClient (lib s) (<[l := c]> (heap s))).

Definition arc_clone (l : Z) : prog (client St) Z :=
  let* c := deref l in
  let* _ := set_cell l (mkCell (strong c + 1) (inner c) (locked c)) in
  pret l.

(** [impl Drop for InnerContext]. *)
Definition inner_context_drop (c : Z) : prog (client St) unit :=
  fun s => let! s' := TEEC_FinalizeContext c (lib s) in Ret (tt, mkClient s' (heap s)).

(** [drop] of an [Arc]: the last one drops the content and frees the cell. *)
Definition arc_drop (l : Z) : prog (client St) unit :=
  let* c := deref l in
  if strong c =? 1 then
    let* _ := inner_context_drop (inner c) in
    fun s => Ret (tt, mkClient (lib s) (delete l (heap s)))
  else set_cell l (mkCell (strong c - 1) (inner c) (locked c)).

(** [Mutex::lock] and the drop of the guard.  A poisoned mutex is recovered by
    the caller, so poisoning makes no difference. *)
Definition mutex_lock (l : Z) : prog (client St) Z :=
  let* c := deref l in
  if locked c then plift Panic
  else let* _ := set_cell l (mkCell (strong c) (inner c) true) in pret (inner c).
Definition guard_drop (l : Z) : prog (client St) unit :=
  let* c := deref l in set_cell l (mkCell (strong c) (inner c) false).

(** Calls into libteec. *)
Definition call_initialize : prog (client St) (Z * Z) :=
  fun s => let '(code, c, s') := TEEC_InitializeContext (lib s) in
           Ret ((code, c), mkClient s' (heap s)).
Definition call_open (c : Z) (u : TEEC_UUID) (l : Z) (op : option TEEC_Operation)
    : prog (client St) open_reply :=
  fun s => let '(rep, s') := TEEC_OpenSession c u l op (lib s) in Ret (rep, mkClient s' (heap s)).
Definition call_invoke (h cmd : Z) (op : TEEC_Operation) : prog (client St) invoke_reply :=
  fun s => let '(rep, s') := TEEC_InvokeCommand h cmd op (lib s) in Ret (rep, mkClient s' (heap s)).

(** ** [Context] *)

Definition context_new : prog (client St) (Result Context) :=
  let* (code, c) := call_initialize in
  let? _ := pret (teec_check code) in
  let* l := arc_new c in
  pret (Ok (mkContext l)).

Definition inner_context (self : Context) : prog (client St) Z := arc_clone (ctx_raw self).

(** Dropping a [Context] drops its [Arc]. *)
Definition context_drop (self : Context) : prog (client St) unit := arc_drop (ctx_raw self).

(** ** [Session] *)

(** [Session::new]: the result, and the caller's operation after the call.  The
    guard and the local [Arc] are dropped when the function returns, on the
    early return of [?] as well as at the end. *)
Definition session_new (context : Context) (uuid : TEEC_UUID) (login : ConnectionMethods)
    (operation : option TEEC_Operation)
    : prog (client St) (Result Session * option TEEC_Operation) :=
  let* inner_ctx := inner_context context in
  let* raw_ctx := mutex_lock inner_ctx in
  let* rep := call_open raw_ctx uuid (ConnectionMethods.into_u32 login) operation in
  let* r := match teec_check_with_origin (or_code rep) (or_origin rep) with
            | Ok _ => let* l := inner_context context in
                      pret (Ok (mkSession (or_session rep) l))
            | Err e => pret (Err e)
            end in
  let* _ := guard_drop inner_ctx in
  let* _ := arc_drop inner_ctx in
  pret (r, or_operation rep).

(** [invoke_command]: the result, and the operation after the call. *)
Definition invoke_command (self : Session) (command_id : Z) (operation : TEEC_Operation)
    : prog (client St) (Result unit * TEEC_Operation) :=
  let* rep := call_invoke (sess_raw self) command_id operation in
  pret (teec_check_with_origin (ir_code rep) (ir_origin rep), ir_operation rep).

(** [impl Drop for Session], then the drop of its field [_ctx]. *)
Definition session_drop (self : Session) : prog (client St) unit :=
  let* _ := (fun s => let! s' := TEEC_CloseSession (sess_raw self) (lib s) in
                      Ret (tt, mkClient s' (heap s))) in
  arc_drop (sess_ctx self).

(** ** The methods of [Context] that open sessions *)

Definition open_session_with_login (self : Context) (uuid : TEEC_UUID)
    (login : ConnectionMethods) : prog (client St) (Result Session) :=
  let* (r, _) := session_new self uuid login None in pret r.

Definition open_session (self : Context) (uuid : TEEC_UUID) : prog (client St) (Result Session) :=
  open_session_with_login self uuid ConnectionMethods.LoginPublic.

Definition open_session_with_operation (self : Context) (uuid : TEEC_UUID)
    (operation : TEEC_Operation) : prog (client St) (Result Session * option TEEC_Operation) :=
  session_new self uuid ConnectionMethods.LoginPublic (Some operation).

End Teec.
