(* ===== verification/TeecSessionSpec.v ===== *)
(** * TeecSessionSpec: whatever the order in which a client creates and drops
    contexts and sessions, every session is closed once, every context is
    finalized once, and never while a session is open in it *)

From S2P Require Import Prelude Params TeeParams TeecDefines TeecError TeecParams TeecSession.

(** ** Programs of a client

    A client owns contexts and sessions and acts on them in any order.  Rust's
    ownership is what makes an action on a value that is not owned impossible;
    here such an action does nothing. *)

Record owned : Type := mkOwned { ctxs : list Context; sess : list Session }.

Inductive action : Type :=
| NewContext
| OpenSession (k : nat) (u : TEEC_UUID) (l : ConnectionMethods) (op : option TEEC_Operation)
| InvokeCommand (k : nat) (cmd : Z) (op : TEEC_Operation)
| DropContext (k : nat)
| DropSession (k : nat).

Section Run.
Context {St : Type} `{!TeecApi St}.

Definition act (a : action) (o : owned) : prog (client St) owned :=
  match a with
  | NewContext =>
      let* r := context_new in
      pret (match r with Ok c => mkOwned (c :: ctxs o) (sess o) | Err _ => o end)
  | OpenSession k u l op =>
      match ctxs o !! k with
      | Some c =>
          let* (r, _) := session_new c u l op in
          pret (match r with Ok s => mkOwned (ctxs o) (s :: sess o) | Err _ => o end)
      | None => pret o
      end
  | InvokeCommand k cmd op =>
      match sess o !! k with
      | Some s => let* _ := invoke_command s cmd op in pret o
      | None => pret o
      end
  | DropContext k =>
      match ctxs o !! k with
      | Some c => let* _ := context_drop c in pret (mkOwned (delete k (ctxs o)) (sess o))
      | None => pret o
      end
  | DropSession k =>
      match sess o !! k with
      | Some s => let* _ := session_drop s in pret (mkOwned (ctxs o) (delete k (sess o)))
      | None => pret o
      end
  end.

Fixpoint run (acts : list action) (o : owned) : prog (client St) owned :=
  match acts with
  | [] => pret o
  | a :: acts' => let* o' := act a o in run acts' o'
  end.

End Run.

(** ** The invariant *)

(** How many of the live [Arc]s point to [l]. *)
Definition count (l : Z) (hs : list Z) : Z := len (filter (fun x => x = l) hs).

Lemma count_nil l : count l [] = 0.
Proof. done. Qed.

Lemma count_cons l x hs : count l (x :: hs) = (if decide (x = l) then 1 else 0) + count l hs.
Proof.
  unfold count. rewrite filter_cons. case_decide; [by rewrite len_cons|lia].
Qed.

Lemma count_pos l hs : 0 < count l hs <-> l ∈ hs.
Proof.
  induction hs as [|x hs IH]; [rewrite count_nil, elem_of_nil; lia|].
  rewrite count_cons, elem_of_cons, <- IH. pose proof (len_nonneg (filter (fun x => x = l) hs)).
  unfold count. case_decide; [split; [by left|lia]|].
  split; [intros; right; lia|intros [->|]; [done|lia]].
Qed.

#[global] Instance count_perm l : Proper ((≡ₚ) ==> eq) (count l).
Proof. intros h1 h2 Hp. unfold count. apply len_eq. by rewrite Hp. Qed.

Section Invariant.
Context {St : Type} `{!TeecApi St, !TeecApiOk St}.
Context (s0 : St).

(** [hs] are the [Arc]s that are alive (those the client owns through contexts
    and sessions, and local ones), [ss] the sessions that are open, [lk] the
    location whose mutex is held. *)
Record inv (lk : option Z) (hs : list Z) (ss : list Session) (s : client St) : Prop := mkInv {
  inv_cell l c :
    heap s !! l = Some c ->
    strong c = count l hs /\ locked c = bool_decide (lk = Some l) /\ inner c ∉ contexts s0;
  inv_live l : is_Some (heap s !! l) <-> l ∈ hs;
  inv_inj l1 l2 c1 c2 :
    heap s !! l1 = Some c1 -> heap s !! l2 = Some c2 -> inner c1 = inner c2 -> l1 = l2;
  inv_contexts x :
    x ∈ contexts (lib s) <->
      x ∈ contexts s0 \/ exists l c, heap s !! l = Some c /\ inner c = x;
  inv_sessions h x :
    sessions_of (lib s) !! h = Some x <->
      sessions_of s0 !! h = Some x \/
      exists se c, se ∈ ss /\ sess_raw se = h /\ heap s !! sess_ctx se = Some c /\ inner c = x;
  inv_sess se : se ∈ ss -> sess_ctx se ∈ hs /\ sessions_of s0 !! sess_raw se = None;
  inv_nodup : NoDup (map sess_raw ss);
}.

#[global] Instance inv_perm lk : Proper ((≡ₚ) ==> (≡ₚ) ==> eq ==> iff) (inv lk).
Proof.
  assert (forall h1 h2 s1 s2 s, h1 ≡ₚ h2 -> s1 ≡ₚ s2 -> inv lk h1 s1 s -> inv lk h2 s2 s) as Himp.
  { intros h1 h2 s1 s2 s Hh Hs [I1 I2 I3 I4 I5 I6 I7].
    split; try done; intros; rewrite <- ?Hh, <- ?Hs in *; eauto.
    rewrite I5. by setoid_rewrite Hs. }
  intros h1 h2 Hh s1 s2 Hs s ? <-. split; apply Himp; done.
Qed.

(** Replacing a cell by one with the same context keeps what is said about
    contexts and sessions. *)
Lemma inv_set_cell lk lk' hs hs' ss s l c c' :
  inv lk hs ss s -> heap s !! l = Some c -> inner c' = inner c ->
  strong c' = count l hs' -> locked c' = bool_decide (lk' = Some l) ->
  (forall l', l' <> l -> count l' hs' = count l' hs /\
     bool_decide (lk' = Some l') = bool_decide (lk = Some l')) ->
  l ∈ hs' ->
  inv lk' hs' ss (mkClient (lib s) (<[l := c']> (heap s))).
Proof.
  intros [I1 I2 I3 I4 I5 I6 I7] Hl Hin Hst Hlk Hne Hl'.
  assert (forall l1 c1, <[l := c']> (heap s) !! l1 = Some c1 ->
    exists c2, heap s !! l1 = Some c2 /\ inner c1 = inner c2) as Hold.
  { intros l1 c1. destruct (decide (l1 = l)) as [->|].
    - rewrite lookup_insert_eq. intros [= <-]. by exists c.
    - rewrite lookup_insert_ne by done. intros. by exists c1. }
  assert (forall l1 c1, heap s !! l1 = Some c1 ->
    exists c2, <[l := c']> (heap s) !! l1 = Some c2 /\ inner c2 = inner c1) as Hnew.
  { intros l1 c1 H1. destruct (decide (l1 = l)) as [->|].
    - rewrite lookup_insert_eq. exists c'. split; [done|]. congruence.
    - rewrite lookup_insert_ne by done. by exists c1. }
  assert (forall l', l' ∈ hs' <-> l' ∈ hs) as Hhs.
  { intros l'. destruct (decide (l' = l)) as [->|n].
    - split; [|done]. intros _. apply I2. eauto.
    - rewrite <- !count_pos. by destruct (Hne l' n) as [-> _]. }
  split; cbn [lib heap].
  - intros l1 c1 H1. destruct (decide (l1 = l)) as [->|n].
    + rewrite lookup_insert_eq in H1. injection H1 as <-. rewrite Hin. split_and!; [done..|].
      by apply (I1 l).
    + rewrite lookup_insert_ne in H1 by done. destruct (Hne l1 n) as [-> ->]. by apply I1.
  - intros l1. rewrite Hhs, <- I2, lookup_insert_is_Some. split.
    + intros [->|[_ ?]]; [eauto|done].
    + intros. destruct (decide (l = l1)); [by left|by right].
  - intros l1 l2 c1 c2 (d1 & H1 & E1)%Hold (d2 & H2 & E2)%Hold E. apply (I3 l1 l2 d1 d2); congruence.
  - intros x. rewrite I4. apply or_iff_compat_l. split.
    + intros (l1 & c1 & (c2 & H2 & E2)%Hnew & E). exists l1, c2. by rewrite E2.
    + intros (l1 & c1 & (c2 & H2 & E2)%Hold & E). exists l1, c2. by rewrite <- E2.
  - intros h x. rewrite I5. apply or_iff_compat_l. split.
    + intros (se & c1 & Hse & Hr & (c2 & H2 & E2)%Hnew & E). exists se, c2. by rewrite E2.
    + intros (se & c1 & Hse & Hr & (c2 & H2 & E2)%Hold & E). exists se, c2. by rewrite <- E2.
  - intros se Hse. rewrite Hhs. by apply I6.
  - done.
Qed.

Lemma deref_live (s : client St) l c : heap s !! l = Some c -> deref l s = Ret (c, s).
Proof. by unfold deref; intros ->. Qed.

(** ** The operations preserve the invariant *)

Lemma arc_clone_inv lk hs ss s l :
  inv lk hs ss s -> l ∈ hs ->
  exists s', arc_clone l s = Ret (l, s') /\ lib s' = lib s /\ inv lk (l :: hs) ss s'.
Proof.
  intros Hinv Hl. destruct (proj2 (inv_live _ _ _ _ Hinv l) Hl) as [c Hc].
  eexists. unfold arc_clone. erewrite pbind_Ret by (by apply deref_live).
  split; [reflexivity|]. split; [done|].
  destruct (inv_cell _ _ _ _ Hinv l c Hc) as (Hst & Hlk & _).
  eapply (inv_set_cell lk lk hs); [done|done|done| | | |by left].
  - cbn. rewrite count_cons, decide_True by done. lia.
  - done.
  - intros l' Hn. split; [|done]. rewrite count_cons, decide_False by done. lia.
Qed.

Lemma mutex_lock_inv hs ss s l :
  inv None hs ss s -> l ∈ hs ->
  exists s' c, mutex_lock l s = Ret (inner c, s') /\ lib s' = lib s /\
    heap s !! l = Some c /\ inv (Some l) hs ss s'.
Proof.
  intros Hinv Hl. destruct (proj2 (inv_live _ _ _ _ Hinv l) Hl) as [c Hc].
  destruct (inv_cell _ _ _ _ Hinv l c Hc) as (Hst & Hlk & _).
  eexists _, c. unfold mutex_lock. erewrite pbind_Ret by (by apply deref_live).
  rewrite Hlk. cbn [bool_decide]. split; [reflexivity|]. split_and!; [done..|].
  eapply (inv_set_cell None (Some l) hs hs); try done.
  - cbn. by rewrite bool_decide_true.
  - intros l' Hn. split; [done|]. rewrite !bool_decide_false; congruence.
Qed.

Lemma guard_drop_inv hs ss s l :
  inv (Some l) hs ss s -> l ∈ hs ->
  exists s', guard_drop l s = Ret (tt, s') /\ inv None hs ss s'.
Proof.
  intros Hinv Hl. destruct (proj2 (inv_live _ _ _ _ Hinv l) Hl) as [c Hc].
  destruct (inv_cell _ _ _ _ Hinv l c Hc) as (Hst & Hlk & _).
  eexists. unfold guard_drop. erewrite pbind_Ret by (by apply deref_live).
  split; [reflexivity|]. eapply (inv_set_cell (Some l) None hs hs); try done.
  intros l' Hn. split; [done|]. rewrite !bool_decide_false; congruence.
Qed.

(** The last [Arc] of a location: nothing open refers to its context. *)
Lemma last_arc_no_session lk hs ss s l c :
  (forall h x, sessions_of s0 !! h = Some x -> x ∈ contexts s0) ->
  inv lk (l :: hs) ss s -> heap s !! l = Some c -> l ∉ hs ->
  (forall se, se ∈ ss -> sess_ctx se ∈ hs) ->
  forall h, sessions_of (lib s) !! h <> Some (inner c).
Proof.
  intros Hs0 Hinv Hc Hl Hss h Hh. apply (inv_sessions _ _ _ _ Hinv) in Hh as [Hh|Hh].
  - by apply (inv_cell _ _ _ _ Hinv l c Hc), (Hs0 h).
  - destruct Hh as (se & c' & Hse & _ & Hc' & E). apply Hl.
    rewrite <- (inv_inj _ _ _ _ Hinv _ _ _ _ Hc' Hc E). by apply Hss.
Qed.

(** Freeing a cell whose context has been finalized. *)
Lemma inv_free lk hs ss s s' l c :
  inv lk (l :: hs) ss s -> heap s !! l = Some c -> l ∉ hs ->
  (forall se, se ∈ ss -> sess_ctx se ∈ hs) ->
  contexts s' = contexts (lib s) ∖ {[inner c]} -> sessions_of s' = sessions_of (lib s) ->
  inv lk hs ss (mkClient s' (delete l (heap s))).
Proof.
  intros [I1 I2 I3 I4 I5 I6 I7] Hc Hl Hss Hctx Hses.
  assert (forall l1 c1, delete l (heap s) !! l1 = Some c1 <-> l1 <> l /\ heap s !! l1 = Some c1)
    as Hd by (intros; rewrite lookup_delete_Some; naive_solver).
  split; cbn [lib heap].
  - intros l1 c1 [Hn H1]%Hd. destruct (I1 l1 c1 H1) as (Hst & ? & ?). split_and!; [|done..].
    rewrite Hst, count_cons, decide_False by done. lia.
  - intros l1. rewrite lookup_delete_is_Some, I2, elem_of_cons. naive_solver.
  - intros l1 l2 c1 c2 [_ H1]%Hd [_ H2]%Hd. by apply I3.
  - intros x. rewrite Hctx, elem_of_difference, elem_of_singleton, I4. split.
    + intros [[?|(l1 & c1 & H1 & E)] Hx]; [by left|right]. exists l1, c1. rewrite Hd.
      split_and!; try done. intros ->. congruence.
    + intros [Hx|(l1 & c1 & [Hn H1]%Hd & E)].
      * split; [by left|]. intros ->. by apply (I1 l c Hc).
      * split; [right; eauto|]. intros ->. apply Hn. by apply (I3 _ _ c1 c).
  - intros h x. rewrite Hses, I5. apply or_iff_compat_l. split.
    + intros (se & c1 & Hse & Hr & H1 & E). exists se, c1. rewrite Hd. split_and!; try done.
      intros Heq. apply Hl. rewrite <- Heq. by apply Hss.
    + intros (se & c1 & Hse & Hr & [_ H1]%Hd & E). by exists se, c1.
  - intros se Hse. split; [by apply Hss|by apply I6].
  - done.
Qed.

Context (Hs0 : forall h x, sessions_of s0 !! h = Some x -> x ∈ contexts s0).

Lemma arc_drop_inv lk hs ss s l :
  inv lk (l :: hs) ss s -> lk <> Some l -> (forall se, se ∈ ss -> sess_ctx se ∈ hs) ->
  exists s', arc_drop l s = Ret (tt, s') /\ inv lk hs ss s'.
Proof.
  intros Hinv Hlk Hss. destruct (proj2 (inv_live _ _ _ _ Hinv l)) as [c Hc]; [by left|].
  destruct (inv_cell _ _ _ _ Hinv l c Hc) as (Hst & Hlc & Hn0).
  rewrite count_cons, decide_True in Hst by done.
  unfold arc_drop. erewrite pbind_Ret by (by apply deref_live). case_if.
  - assert (l ∉ hs) as Hl by (rewrite <- count_pos; lia).
    destruct (finalize_ok (inner c) (lib s)) as (s' & Ef & Ec & Es).
    { apply (inv_contexts _ _ _ _ Hinv). right; eauto. }
    { exact (last_arc_no_session lk hs ss s l c Hs0 Hinv Hc Hl Hss). }
    eexists. split; [unfold pbind, inner_context_drop; rewrite Ef; reflexivity|].
    exact (inv_free lk hs ss s s' l c Hinv Hc Hl Hss Ec Es).
  - eexists. split; [reflexivity|].
    pose proof (len_nonneg (filter (fun x => x = l) hs)). unfold count in Hst.
    eapply (inv_set_cell lk lk (l :: hs)); try done.
    + cbn. unfold count. lia.
    + intros l' Hn. split; [|done]. rewrite count_cons, decide_False by done. lia.
    + apply count_pos. unfold count. lia.
Qed.

Lemma inv_new_session lk hs ss (s : client St) s' l c h :
  inv lk hs ss s -> heap s !! l = Some c ->
  contexts s' = contexts (lib s) -> sessions_of (lib s) !! h = None ->
  sessions_of s' = <[h := inner c]> (sessions_of (lib s)) ->
  inv lk hs (mkSession h l :: ss) (mkClient s' (heap s)).
Proof.
  intros [I1 I2 I3 I4 I5 I6 I7] Hc Hctx Hnew Hses. split; cbn [lib heap]; try done.
  - intros x. by rewrite Hctx, I4.
  - intros h1 x. rewrite Hses, lookup_insert_Some, I5. split.
    + intros [[<- <-]|[Hn [?|(se & c1 & Hse & ?)]]]; [right|by left|right].
      * exists (mkSession h l), c. split_and!; try done. by left.
      * exists se, c1. split; [by right|done].
    + intros [Hold|(se & c1 & [->|Hse]%elem_of_cons & Hr & H1 & E)].
      * right. split; [|by left]. intros ->. assert (sessions_of (lib s) !! h1 = Some x) by
          (apply I5; by left). congruence.
      * left. cbn in *. split; congruence.
      * right. split; [|right; by exists se, c1]. intros ->.
        assert (sessions_of (lib s) !! h1 = Some x) by (apply I5; right; by exists se, c1).
        congruence.
  - intros se [->|Hse]%elem_of_cons; [|by apply I6]. cbn. split; [apply I2; eauto|].
    destruct (sessions_of s0 !! h) as [x|] eqn:E; [|done].
    assert (sessions_of (lib s) !! h = Some x) by (apply I5; by left). congruence.
  - cbn. apply list.NoDup_cons. split; [|done]. intros Hin.
    apply list_elem_of_fmap in Hin as (se & E & Hse).
    destruct (proj2 (I2 (sess_ctx se)) (proj1 (I6 se Hse))) as [c1 H1].
    assert (sessions_of (lib s) !! h = Some (inner c1)) by (apply I5; right; by exists se, c1).
    congruence.
Qed.

Lemma inv_lib lk hs ss (s : client St) s' :
  inv lk hs ss s -> contexts s' = contexts (lib s) -> sessions_of s' = sessions_of (lib s) ->
  inv lk hs ss (mkClient s' (heap s)).
Proof.
  intros [I1 I2 I3 I4 I5 I6 I7] Hc Hs. split; cbn [lib heap]; try done; intros.
  - by rewrite Hc, I4.
  - by rewrite Hs, I5.
Qed.

Lemma inv_new_cell lk hs ss (s : client St) s' l c :
  inv lk hs ss s -> heap s !! l = None -> lk <> Some l ->
  (c ∉ contexts (lib s)) -> contexts s' = {[c]} ∪ contexts (lib s) ->
  sessions_of s' = sessions_of (lib s) ->
  inv lk (l :: hs) ss (mkClient s' (<[l := mkCell 1 c false]> (heap s))).
Proof.
  intros [I1 I2 I3 I4 I5 I6 I7] Hl Hlk Hc Hctx Hses.
  assert (l ∉ hs) as Hlh by (rewrite <- I2; intros [? ?]; congruence).
  assert (count l hs = 0) as H0c.
  { pose proof (len_nonneg (filter (fun x => x = l) hs)).
    rewrite <- count_pos in Hlh. unfold count in *. lia. }
  assert (c ∉ contexts s0) as Hc0 by (intros ?; apply Hc, I4; by left).
  assert (forall l1 c1, heap s !! l1 = Some c1 -> inner c1 <> c) as Hfresh
    by (intros l1 c1 H1 E; apply Hc, I4; right; eauto).
  split; cbn [lib heap].
  - intros l1 c1 [[<- <-]|[Hn H1]]%lookup_insert_Some; cbn.
    + rewrite count_cons, decide_True, bool_decide_false by done. split_and!; [lia|done..].
    + rewrite count_cons, decide_False by done. by apply I1.
  - intros l1. rewrite lookup_insert_is_Some, elem_of_cons, <- I2.
    destruct (decide (l = l1)); naive_solver.
  - intros l1 l2 c1 c2 [[<- <-]|[Hn1 H1]]%lookup_insert_Some [[<- <-]|[Hn2 H2]]%lookup_insert_Some E;
      try done; [by destruct (Hfresh l2 c2 H2)|by destruct (Hfresh l1 c1 H1)|by apply (I3 _ _ c1 c2)].
  - intros x. rewrite Hctx, elem_of_union, elem_of_singleton, I4. split.
    + intros [->|[?|(l1 & c1 & H1 & E)]]; [right|by left|right].
      * exists l, (mkCell 1 c false). by rewrite lookup_insert_eq.
      * exists l1, c1. split; [|done]. rewrite lookup_insert_ne; [done|]. intros ->. congruence.
    + intros [?|(l1 & c1 & [[<- <-]|[Hn H1]]%lookup_insert_Some & E)]; [auto|by left|].
      right; right; eauto.
  - intros h x. rewrite Hses, I5. apply or_iff_compat_l.
    split; intros (se & c1 & Hse & Hr & H1 & E); exists se, c1; split_and!; try done.
    + rewrite lookup_insert_ne; [done|]. intros Heq. apply Hlh. rewrite Heq. by apply I6.
    + apply lookup_insert_Some in H1 as [[Heq _]|[_ ?]]; [|done].
      exfalso. apply Hlh. rewrite Heq. by apply I6.
  - intros se Hse. split; [right|]; by apply I6.
  - done.
Qed.

Lemma context_new_inv hs ss s :
  inv None hs ss s ->
  exists r s', context_new s = Ret (r, s') /\
    match r with
    | Ok c => inv None (ctx_raw c :: hs) ss s'
    | Err _ => inv None hs ss s'
    end.
Proof.
  intros Hinv. unfold context_new, call_initialize.
  destruct (TEEC_InitializeContext (lib s)) as [[code c] s1] eqn:Ei.
  destruct (initialize_ok _ _ _ _ Ei) as (Hses & Hok & Hko).
  erewrite pbind_Ret by (by rewrite Ei). unfold teec_check. case_if.
  - destruct (Hok ltac:(done)) as [Hc Hctx]. eexists _, _. split; [reflexivity|]. cbn [heap lib ctx_raw].
    eapply inv_new_cell; try done. apply not_elem_of_dom, is_fresh.
  - eexists _, _. split; [reflexivity|]. apply inv_lib; auto.
Qed.

(** The end of [Session::new]: the guard and the local [Arc] are dropped. *)
Lemma release_inv {A} hs ss s l (r : A) :
  inv (Some l) (l :: hs) ss s -> (forall se, se ∈ ss -> sess_ctx se ∈ hs) ->
  exists s', (let* _ := guard_drop l in let* _ := arc_drop l in pret r) s = Ret (r, s') /\
    inv None hs ss s'.
Proof.
  intros Hinv Hss. destruct (guard_drop_inv _ _ _ _ Hinv) as (s1 & E1 & Hinv1); [by left|].
  erewrite pbind_Ret by exact E1.
  destruct (arc_drop_inv _ _ _ _ _ Hinv1) as (s2 & E2 & Hinv2); [done|done|].
  erewrite pbind_Ret by exact E2. by exists s2.
Qed.

(** What a caller of libteec gets to see of its answer. *)
Definition reports (code orig : Z) {T} (t : T) (r : Result T) : Prop :=
  (code = TEEC_SUCCESS -> r = Ok t) /\
  (code <> TEEC_SUCCESS -> exists e, r = Err e /\ Error.raw_code e = code /\
     Error.origin e = Some (ErrorOrigin.from_u32 orig)).

Lemma check_reports code orig {T} (t : T) :
  reports code orig t (match teec_check_with_origin code orig with
                       | Ok _ => Ok t | Err e => Err e end).
Proof.
  unfold reports, teec_check_with_origin. case_if; split; try done. intros _.
  eexists. split; [reflexivity|]. split; [|done]. exact (teec_raw_error_code code).
Qed.

(** The start of [Session::new]: an [Arc] is cloned and the mutex locked. *)
Lemma enter_inv hs ss s l :
  inv None hs ss s -> l ∈ hs ->
  exists s1 s2 cell cell2,
    arc_clone l s = Ret (l, s1) /\ mutex_lock l s1 = Ret (inner cell, s2) /\
    heap s !! l = Some cell /\ heap s2 !! l = Some cell2 /\ inner cell2 = inner cell /\
    lib s2 = lib s /\ inv (Some l) (l :: hs) ss s2.
Proof.
  intros Hinv Hl. destruct (proj2 (inv_live _ _ _ _ Hinv l) Hl) as [cell Hcell].
  destruct (arc_clone_inv _ _ _ _ _ Hinv Hl) as (s1 & E1 & L1 & Hinv1).
  destruct (mutex_lock_inv _ _ _ l Hinv1) as (s2 & cell1 & E2 & L2 & Hcell1 & Hinv2); [by left|].
  assert (inner cell1 = inner cell) as Hsame.
  { unfold arc_clone, pbind, deref in E1. rewrite Hcell in E1. injection E1 as <-. cbn in Hcell1.
    rewrite lookup_insert_eq in Hcell1. by injection Hcell1 as <-. }
  exists s1, s2, cell, (mkCell (strong cell1) (inner cell1) true). rewrite <- Hsame.
  split_and!; try done; [|congruence].
  unfold mutex_lock, pbind, deref in E2. rewrite Hcell1 in E2.
  destruct (locked cell1); [done|]. injection E2 as <-. cbn. apply lookup_insert_eq.
Qed.

Lemma session_new_inv hs ss s c u login op :
  inv None hs ss s -> ctx_raw c ∈ hs ->
  exists cell rep s3 r s', heap s !! ctx_raw c = Some cell /\
    TEEC_OpenSession (inner cell) u (ConnectionMethods.into_u32 login) op (lib s) = (rep, s3) /\
    session_new c u login op s = Ret ((r, or_operation rep), s') /\
    reports (or_code rep) (or_origin rep) (mkSession (or_session rep) (ctx_raw c)) r /\
    match r with
    | Ok se => inv None (sess_ctx se :: hs) (se :: ss) s'
    | Err _ => inv None hs ss s'
    end.
Proof.
  intros Hinv Hc. unfold session_new, inner_context.
  destruct (enter_inv _ _ _ _ Hinv Hc)
    as (s1 & s2 & cell & cell2 & E1 & E2 & Hcell & Hcell2 & Hsame & Hlib & Hinv2).
  erewrite pbind_Ret by exact E1. erewrite pbind_Ret by exact E2.
  exists cell. unfold call_open. rewrite <- Hlib.
  destruct (TEEC_OpenSession (inner cell) u (ConnectionMethods.into_u32 login) op (lib s2))
    as [rep s3] eqn:Eo.
  pose proof (check_reports (or_code rep) (or_origin rep) (mkSession (or_session rep) (ctx_raw c)))
    as Hrep.
  destruct (open_ok (inner cell) u (ConnectionMethods.into_u32 login) op (lib s2) rep s3)
    as (Hctx & Hok & Hko); [|done|].
  { rewrite <- Hsame. apply (inv_contexts _ _ _ _ Hinv2). right; eauto. }
  exists rep, s3. erewrite pbind_Ret by (by rewrite Eo).
  unfold teec_check_with_origin in *. revert Hrep. case_if; intros Hrep.
  - destruct (Hok ltac:(done)) as [Hnew Hses]. rewrite <- Hsame in Hses.
    pose proof (inv_new_session _ _ _ s2 s3 (ctx_raw c) cell2 (or_session rep) Hinv2 Hcell2 Hctx
                  Hnew Hses) as Hinv3.
    destruct (arc_clone_inv _ _ _ _ (ctx_raw c) Hinv3) as (s4 & E4 & _ & Hinv4); [by left|].
    erewrite pbind_Ret by (erewrite pbind_Ret by exact E4; reflexivity).
    destruct (release_inv _ _ _ _ (Ok (mkSession (or_session rep) (ctx_raw c)) : Result Session,
      or_operation rep) Hinv4) as (s5 & E5 & Hinv5); [|by eexists _, s5].
    intros se [->|Hse]%elem_of_cons; [by left|right]. by apply (inv_sess _ _ _ _ Hinv).
  - pose proof (inv_lib _ _ _ _ s3 Hinv2 Hctx (Hko ltac:(done))) as Hinv3.
    erewrite pbind_Ret by reflexivity.
    match goal with |- context [Err ?e] =>
      destruct (release_inv _ _ _ _ (Err e : Result Session, or_operation rep) Hinv3)
        as (s5 & E5 & Hinv5); [|by eexists _, s5] end.
    intros se Hse. by apply (inv_sess _ _ _ _ Hinv).
Qed.

(** Closing an open session. *)
Lemma inv_close_session lk hs ss (s : client St) s' se :
  inv lk hs (se :: ss) s -> contexts s' = contexts (lib s) ->
  sessions_of s' = delete (sess_raw se) (sessions_of (lib s)) ->
  inv lk hs ss (mkClient s' (heap s)).
Proof.
  intros [I1 I2 I3 I4 I5 I6 I7] Hctx Hses. cbn in I7. apply list.NoDup_cons in I7 as [Hni Hnd].
  split; cbn [lib heap]; try done.
  - intros x. by rewrite Hctx, I4.
  - intros h x. rewrite Hses, lookup_delete_Some, I5. split.
    + intros [Hn [?|(se1 & c1 & [->|Hse]%elem_of_cons & Hr & ?)]]; [by left|by destruct Hn|].
      right. by exists se1, c1.
    + intros [Hold|(se1 & c1 & Hse & Hr & Hrest)].
      * split; [|by left]. intros <-. destruct (I6 se ltac:(by left)) as [_ ?]. congruence.
      * split; [|right; exists se1, c1; split; [by right|done]].
        intros Heq. apply Hni. rewrite Heq, <- Hr. by apply list_elem_of_fmap_2.
  - intros se1 Hse. apply I6. by right.
Qed.

Lemma session_drop_inv hs ss s se :
  inv None (sess_ctx se :: hs) (se :: ss) s -> (forall se', se' ∈ ss -> sess_ctx se' ∈ hs) ->
  exists s', session_drop se s = Ret (tt, s') /\ inv None hs ss s'.
Proof.
  intros Hinv Hss. destruct (proj2 (inv_live _ _ _ _ Hinv (sess_ctx se))) as [c Hc]; [by left|].
  destruct (close_ok (sess_raw se) (inner c) (lib s)) as (s1 & E1 & Hctx & Hses).
  { apply (inv_sessions _ _ _ _ Hinv). right. exists se, c. split_and!; try done. by left. }
  unfold session_drop. erewrite pbind_Ret by (by rewrite E1).
  apply arc_drop_inv; [|done|done]. by eapply inv_close_session.
Qed.

Definition handles (o : owned) : list Z := map ctx_raw (ctxs o) ++ map sess_ctx (sess o).

Lemma handles_session o se : se ∈ sess o -> sess_ctx se ∈ handles o.
Proof. intros Hse. apply elem_of_app. right. by apply list_elem_of_fmap_2. Qed.

Lemma act_inv a o s :
  inv None (handles o) (sess o) s ->
  exists o' s', act a o s = Ret (o', s') /\ inv None (handles o') (sess o') s'.
Proof.
  intros Hinv. destruct a as [|k u l op|k cmd op|k|k]; cbn [act].
  - destruct (context_new_inv _ _ _ Hinv) as ([c|e] & s1 & E & Hinv1);
      erewrite pbind_Ret by exact E; eexists _, _; (split; [reflexivity|]); exact Hinv1.
  - destruct (ctxs o !! k) as [c|] eqn:Ek; [|by exists o, s].
    destruct (session_new_inv _ _ _ c u l op Hinv) as (_ & rep & _ & [se|e] & s1 & _ & _ & E & _ & Hinv1).
    { apply elem_of_app. left. apply list_elem_of_fmap_2. by eapply list_elem_of_lookup_2. }
    all: erewrite pbind_Ret by exact E; eexists _, _; (split; [reflexivity|]).
    + unfold handles. cbn [ctxs sess map]. rewrite <- Permutation_middle. exact Hinv1.
    + exact Hinv1.
  - destruct (sess o !! k) as [se|] eqn:Ek; [|by exists o, s]. unfold invoke_command, call_invoke, pbind.
    destruct (TEEC_InvokeCommand (sess_raw se) cmd op (lib s)) as [rep s1] eqn:E.
    destruct (invoke_ok _ _ _ _ _ _ E) as [Hc Hs]. eexists o, _. split; [reflexivity|].
    by apply inv_lib.
  - destruct (ctxs o !! k) as [c|] eqn:Ek; [|by exists o, s].
    destruct (arc_drop_inv None (handles (mkOwned (delete k (ctxs o)) (sess o))) (sess o) s (ctx_raw c))
      as (s1 & E & Hinv1); [|done| |].
    + unfold handles in *. cbn [ctxs sess]. rewrite app_comm_cons.
      rewrite (delete_Permutation _ _ _ Ek) in Hinv. exact Hinv.
    + intros se'. apply (handles_session (mkOwned (delete k (ctxs o)) (sess o))).
    + unfold context_drop. erewrite pbind_Ret by exact E. eexists _, _. by split; [reflexivity|].
  - destruct (sess o !! k) as [se|] eqn:Ek; [|by exists o, s].
    destruct (session_drop_inv (handles (mkOwned (ctxs o) (delete k (sess o)))) (delete k (sess o)) s se)
      as (s1 & E & Hinv1).
    + unfold handles in *. cbn [ctxs sess]. rewrite (delete_Permutation _ _ _ Ek) in Hinv.
      cbn [map] in Hinv. by rewrite <- Permutation_middle in Hinv.
    + intros se'. apply (handles_session (mkOwned (ctxs o) (delete k (sess o)))).
    + erewrite pbind_Ret by exact E. eexists _, _. by split; [reflexivity|].
Qed.

Lemma run_inv acts : forall o s,
  inv None (handles o) (sess o) s ->
  exists o' s', run acts o s = Ret (o', s') /\ inv None (handles o') (sess o') s'.
Proof.
  induction acts as [|a acts IH]; intros o s Hinv; cbn [run]; [by exists o, s|].
  destruct (act_inv a o s Hinv) as (o1 & s1 & E & Hinv1). erewrite pbind_Ret by exact E. by apply IH.
Qed.

Lemma inv_start : inv None [] [] (mkClient s0 ∅).
Proof.
  split; cbn [lib heap].
  - intros l c Hl. by rewrite lookup_empty in Hl.
  - intros l. rewrite lookup_empty, elem_of_nil. split; [by intros [? ?]|done].
  - intros l1 l2 c1 c2 Hl. by rewrite lookup_empty in Hl.
  - intros x. split; [by left|]. intros [?|(l & c & Hl & _)]; [done|]. by rewrite lookup_empty in Hl.
  - intros h x. split; [by left|].
    intros [?|(se & c & Hse & _)]; [done|]. by apply elem_of_nil in Hse.
  - intros se Hse. by apply elem_of_nil in Hse.
  - constructor.
Qed.

(** C14: whatever a client does with the API, in whatever order it creates,
    uses and drops contexts and sessions, no call is undefined, blocks on the
    context's mutex or breaks libteec's rules; every [Session] that is alive is
    open in a context that has not been finalized, the sessions open are exactly
    those that were open before and one per live [Session], and once everything
    has been dropped libteec holds the contexts and sessions it held before. *)
Theorem client_lifecycle_safe acts :
  exists o s, run acts (mkOwned [] []) (mkClient s0 ∅) = Ret (o, s) /\
    (forall h x, sessions_of (lib s) !! h = Some x -> x ∈ contexts (lib s)) /\
    (forall h, is_Some (sessions_of (lib s) !! h) <->
       is_Some (sessions_of s0 !! h) \/ h ∈ map sess_raw (sess o)) /\
    NoDup (map sess_raw (sess o)) /\
    (ctxs o = [] -> sess o = [] ->
       contexts (lib s) = contexts s0 /\ sessions_of (lib s) = sessions_of s0 /\ heap s = ∅).
Proof.
  destruct (run_inv acts (mkOwned [] []) (mkClient s0 ∅) inv_start) as (o & s & E & Hinv).
  exists o, s. split; [exact E|]. pose proof Hinv as [I1 I2 I3 I4 I5 I6 I7]. split_and!.
  - intros h x [Hh|(se & c & _ & _ & Hc & Hx)]%I5; apply I4; [left; by eapply Hs0|right; eauto].
  - intros h. split.
    + intros [x [Hh|(se & c & Hse & <- & _)]%I5]; [left; eauto|right]. by apply list_elem_of_fmap_2.
    + intros [[x Hx]|(se & -> & Hse)%list_elem_of_fmap]; [exists x; apply I5; by left|].
      destruct (proj2 (I2 (sess_ctx se)) (proj1 (I6 se Hse))) as [c Hc].
      exists (inner c). apply I5. right. by exists se, c.
  - done.
  - intros Hc Hs. unfold handles in *. rewrite Hc, Hs in *. cbn in *.
    assert (heap s = ∅) as Hheap.
    { apply map_eq. intros l. rewrite lookup_empty, <- not_elem_of_dom, elem_of_dom, I2. apply not_elem_of_nil. }
    rewrite Hheap in *. split_and!; [| |done].
    + apply set_eq. intros x. rewrite I4. split; [|by left].
      intros [?|(l & c & Hl & _)]; [done|]. by rewrite lookup_empty in Hl.
    + apply map_eq. intros h. apply option_eq. intros x. rewrite I5. split; [|by left].
      intros [?|(se & c & Hse & _)]; [done|]. by apply elem_of_nil in Hse.
Qed.

(** What libteec reports is what the caller gets.  In every state a client
    can reach, opening a session in a context it owns and invoking a command
    call libteec with the raw context or session, the login code and the
    operation the caller gave, and answer with its operation; the result is
    [Ok] exactly on [TEEC_SUCCESS], and otherwise an error with libteec's code
    and origin. *)
Lemma session_calls_report acts k u login op se cmd iop :
  exists o s, run acts (mkOwned [] []) (mkClient s0 ∅) = Ret (o, s) /\
    (forall c, ctxs o !! k = Some c ->
       exists cell rep lib' r s', heap s !! ctx_raw c = Some cell /\
         TEEC_OpenSession (inner cell) u (ConnectionMethods.into_u32 login) op (lib s)
           = (rep, lib') /\
         session_new c u login op s = Ret ((r, or_operation rep), s') /\
         reports (or_code rep) (or_origin rep) (mkSession (or_session rep) (ctx_raw c)) r) /\
    (exists rep lib' r s',
         TEEC_InvokeCommand (sess_raw se) cmd iop (lib s) = (rep, lib') /\
         invoke_command se cmd iop s = Ret ((r, ir_operation rep), s') /\
         reports (ir_code rep) (ir_origin rep) tt r).
Proof.
  destruct (run_inv acts (mkOwned [] []) (mkClient s0 ∅) inv_start) as (o & s & E & Hinv).
  exists o, s. split; [exact E|]. split.
  - intros c Hk. destruct (session_new_inv _ _ _ c u login op Hinv)
      as (cell & rep & s3 & r & s' & ? & ? & ? & ? & _); [|by exists cell, rep, s3, r, s'].
    apply elem_of_app. left. apply list_elem_of_fmap_2. by eapply list_elem_of_lookup_2.
  - destruct (TEEC_InvokeCommand (sess_raw se) cmd iop (lib s)) as [rep s1] eqn:Ei.
    exists rep, s1. unfold invoke_command, call_invoke, pbind. rewrite Ei.
    do 2 eexists. split; [done|]. split; [reflexivity|].
    pose proof (check_reports (ir_code rep) (ir_origin rep) tt) as Hr.
    by destruct (teec_check_with_origin (ir_code rep) (ir_origin rep)) as [[]|].
Qed.

End Invariant.

(** ** A libteec for the properties

    Contexts and sessions are numbered by fresh handles; finalizing a context
    that has sessions or is not initialized, and closing a session that is not
    open, are undefined behaviour. *)

Module CountingTeec.

Record state : Type := mkState { st_contexts : gset Z; st_sessions : gmap Z Z }.

Definition fin (c : Z) (s : state) : outcome state :=
  if bool_decide (c ∈ st_contexts s)
     && bool_decide (map_Forall (fun _ x => x <> c) (st_sessions s))
  then Ret (mkState (st_contexts s ∖ {[c]}) (st_sessions s)) else UB.

(** UUIDs with a zero first field name no TA. *)
Definition opn (c : Z) (u : TEEC_UUID) (_l : Z) (op : option TEEC_Operation) (s : state)
    : open_reply * state :=
  if timeLow u =? 0 then (mkOpenReply TEEC_ERROR_ITEM_NOT_FOUND TEEC_ORIGIN_TEE 0 op, s)
  else let h := fresh (dom (st_sessions s)) in
       (mkOpenReply TEEC_SUCCESS 0 h op, mkState (st_contexts s) (<[h := c]> (st_sessions s))).

#[local] Instance counting_api : TeecApi state := {|
  TEEC_InitializeContext s :=
    (TEEC_SUCCESS, fresh (st_contexts s),
     mkState ({[fresh (st_contexts s)]} ∪ st_contexts s) (st_sessions s));
  TEEC_FinalizeContext := fin;
  TEEC_OpenSession := opn;
  TEEC_InvokeCommand h cmd op s := (mkInvokeReply TEEC_SUCCESS 0 op, s);
  TEEC_CloseSession h s :=
    match st_sessions s !! h with
    | Some _ => Ret (mkState (st_contexts s) (delete h (st_sessions s)))
    | None => UB
    end;
  contexts := st_contexts;
  sessions_of := st_sessions;
|}.

#[local] Instance counting_api_ok : TeecApiOk state.
Proof.
  split; cbn.
  - intros s code c s' [= <- <- <-]. split_and!; [done| |done]. intros _. split; [apply is_fresh|done].
  - intros c s Hc Hs. unfold fin. rewrite !bool_decide_true; [|intros h x Hx ->; by apply (Hs h)|done].
    eexists. by split.
  - intros c u l op s rep s' Hc. unfold opn. case_if; intros [= <- <-]; cbn; split_and!; try done.
    intros _. split; [|done]. apply not_elem_of_dom, is_fresh.
  - intros h cmd op s rep s' [= <- <-]. done.
  - intros h c s ->. eexists. by split.
Qed.

Definition uuid (n : Z) : TEEC_UUID := mkTeecUuid n 0 0 [].

(** Two contexts, a session in each, the first context dropped before its
    session, a refused session, then everything dropped. *)
Definition scenario : list action :=
  [NewContext; OpenSession 0 (uuid 1) ConnectionMethods.LoginPublic None;
   NewContext; OpenSession 0 (uuid 2) ConnectionMethods.LoginUser None;
   OpenSession 1 (uuid 0) ConnectionMethods.LoginPublic None;
   DropContext 1; DropSession 1; DropContext 0; DropSession 0].

Lemma client_lifecycle_safe_witness :
  exists s, run scenario (mkOwned [] []) (mkClient (mkState ∅ ∅) ∅) = Ret (mkOwned [] [], s) /\
    st_contexts (lib s) = ∅ /\ st_sessions (lib s) = ∅.
Proof.
  destruct (client_lifecycle_safe (mkState ∅ ∅)
    ltac:(intros h x Hx; by destruct (lookup_empty_Some h x Hx)) scenario)
    as (o & s & E & _ & _ & _ & Hend).
  assert (o = mkOwned [] []) as Ho.
  { assert (match run scenario (mkOwned [] []) (mkClient (mkState ∅ ∅) ∅) with
            | Ret (o', _) => o' = mkOwned [] [] | _ => False end) as Hr by (by vm_compute).
    by rewrite E in Hr. }
  subst o. destruct (Hend eq_refl eq_refl) as (Hc & Hs & _). exists s. split; [exact E|]. by split.
Defined.

Definition no_operation : TEEC_Operation :=
  op_raw (OperationOps.new 0 mkParamNone mkParamNone mkParamNone mkParamNone).

Lemma session_calls_report_witness :
  exists o s, run [NewContext] (mkOwned [] []) (mkClient (mkState ∅ ∅) ∅) = Ret (o, s).
Proof.
  destruct (session_calls_report (mkState ∅ ∅)
    ltac:(intros h x Hx; by destruct (lookup_empty_Some h x Hx))
    [NewContext] 0 (uuid 0) ConnectionMethods.LoginPublic None (mkSession 0 0) 1 no_operation)
    as (o & s & E & _).
  by exists o, s.
Defined.

End CountingTeec.
