(* ===== verification/ErrorBoundary.v ===== *)
(** * ErrorBoundary: an error of a TA as the client sees it

    The TA-side crate turns the author's error into a [TEE_Result]
    ([Error::raw_code]), the CA-side crate turns the [TEEC_Result] it receives
    into an error again; both enumerations are kept by hand. *)

From S2P Require Import Prelude TeeDefines UteeError TeecDefines TeecError.

(** The client-side kind of the same name, for the kinds both crates have. *)
Definition same_kind (k : UteeError.ErrorKind) : option TeecError.ErrorKind :=
  match k with
  | UteeError.ErrorKind.Generic => Some TeecError.ErrorKind.Generic
  | UteeError.ErrorKind.AccessDenied => Some TeecError.ErrorKind.AccessDenied
  | UteeError.ErrorKind.Cancel => Some TeecError.ErrorKind.Cancel
  | UteeError.ErrorKind.AccessConflict => Some TeecError.ErrorKind.AccessConflict
  | UteeError.ErrorKind.ExcessData => Some TeecError.ErrorKind.ExcessData
  | UteeError.ErrorKind.BadFormat => Some TeecError.ErrorKind.BadFormat
  | UteeError.ErrorKind.BadParameters => Some TeecError.ErrorKind.BadParameters
  | UteeError.ErrorKind.BadState => Some TeecError.ErrorKind.BadState
  | UteeError.ErrorKind.ItemNotFound => Some TeecError.ErrorKind.ItemNotFound
  | UteeError.ErrorKind.NotImplemented => Some TeecError.ErrorKind.NotImplemented
  | UteeError.ErrorKind.NotSupported => Some TeecError.ErrorKind.NotSupported
  | UteeError.ErrorKind.NoData => Some TeecError.ErrorKind.NoData
  | UteeError.ErrorKind.OutOfMemory => Some TeecError.ErrorKind.OutOfMemory
  | UteeError.ErrorKind.Busy => Some TeecError.ErrorKind.Busy
  | UteeError.ErrorKind.Communication => Some TeecError.ErrorKind.Communication
  | UteeError.ErrorKind.Security => Some TeecError.ErrorKind.Security
  | UteeError.ErrorKind.ShortBuffer => Some TeecError.ErrorKind.ShortBuffer
  | UteeError.ErrorKind.ExternalCancel => Some TeecError.ErrorKind.ExternalCancel
  | UteeError.ErrorKind.TargetDead => Some TeecError.ErrorKind.TargetDead
  | _ => None
  end.

(** C20: an error that a TA returns reaches the client under the same kind: the
    code is unchanged, the origin is the TA, a kind both sides name keeps its
    name, and a kind only the TA side names is [Unknown] with its code.  The one
    exception is an error whose code is that of success, which the client takes
    for a success. *)
Theorem ta_error_reaches_client (e : UteeError.Error) :
  let code := UteeError.Error.raw_code e in
  (code = TEE_SUCCESS -> teec_check_with_origin code TEEC_ORIGIN_TRUSTED_APP = Ok tt) /\
  (code <> TEE_SUCCESS -> exists e',
     teec_check_with_origin code TEEC_ORIGIN_TRUSTED_APP = Err e' /\
     TeecError.Error.raw_code e' = code /\
     TeecError.Error.origin e' = Some TeecError.ErrorOrigin.TA /\
     (forall k, same_kind (UteeError.Error.kind e) = Some k -> TeecError.Error.kind e' = k) /\
     (UteeError.Error.kind e ∈ UteeError.ErrorKind.variants ->
      same_kind (UteeError.Error.kind e) = None ->
      TeecError.Error.kind e' = TeecError.ErrorKind.Unknown code)).
Proof.
  intros code. unfold teec_check_with_origin. change TEEC_SUCCESS with TEE_SUCCESS.
  destruct (code =? TEE_SUCCESS) eqn:Hc; reflect_bool; split; try done.
  intros _. eexists. split; [reflexivity|]. split_and!.
  - exact (teec_raw_error_code code).
  - reflexivity.
  - intros k Hk. unfold code, UteeError.Error.raw_code.
    destruct (UteeError.Error.kind e); try discriminate Hk; injection Hk as <-; reflexivity.
  - intros Hn Hs. unfold code, UteeError.Error.raw_code in *.
    destruct (UteeError.Error.kind e); try discriminate Hs; try reflexivity.
    exfalso. by eapply unknown_not_variant.
Qed.
