(* ===== verification/Plugin.v ===== *)
(** * Plugin: the plugins of the tee-supplicant

    Models [crates/optee-teec/src/extension.rs] ([PluginParameters]) and the two
    functions that [crates/optee-teec-macros/src/lib.rs] generates around the
    author's functions, with the macros' signature checks.  The state is the
    memory of the supplicant process: bytes, and the [size_t] cells that
    [out_len] pointers refer to. *)

From S2P Require Import Prelude Memory TeeParams TeecDefines TeecError.

Record pworld : Type := mkPworld { pw_mem : mem; pw_words : gmap Z Z }.

(** [buf] is a mutable slice; [out_len] an optional reference to a cell. *)
Record PluginParameters : Type := mkPlugin {
  cmd : Z; sub_cmd : Z; buf : byte_slice; out_len : option Z
}.

Definition fail {T} (k : ErrorKind) : Result T := Err (Error.from_kind k).

Section Methods.
Context `{!Target, !Profile}.

(** [PluginParameters::from_raw].  The empty slice of the null case is not
    backed by memory; any non-null address stands for it.  Forming a slice
    longer than [isize::MAX] is undefined behaviour. *)
Definition from_raw (c sub b in_len out : Z) : outcome (Result PluginParameters) :=
  if (negb (in_len =? 0) || negb (out =? 0)) && (b =? 0) then
    Ret (fail ErrorKind.BadParameters)
  else
    let out := if out =? 0 then None else Some out in
    if b =? 0 then Ret (Ok (mkPlugin c sub (mkSlice 1 0) out))
    else if 2 ^ (ptr_bits - 1) <=? in_len then UB
    else Ret (Ok (mkPlugin c sub (mkSlice b in_len) out)).

(** [self.buf[pos..dest_len].copy_from_slice(data)]: indexing panics unless
    [pos <= dest_len <= len], the copy panics unless the lengths agree. *)
Definition copy_into (s : byte_slice) (pos dest_len : Z) (data : bytes) : prog pworld unit :=
  fun w =>
    if (pos <=? dest_len) && (dest_len <=? slice_len s) && (dest_len - pos =? len data) then
      match write_range (pw_mem w) (as_ptr s + pos) data with
      | Some m => Ret (tt, mkPworld m (pw_words w))
      | None => UB
      end
    else Panic.

(** [**out_len = v]. *)
Definition store_word (p v : Z) : prog pworld unit :=
  fun w => match pw_words w !! p with
           | Some _ => Ret (tt, mkPworld (pw_mem w) (<[p := v]> (pw_words w)))
           | None => UB
           end.

Definition write_output_at (self : PluginParameters) (pos : Z) (data : bytes)
    : prog pworld (Result unit) :=
  match out_len self with
  | Some out =>
      let* dest_len := plift (add_u ptr_bits pos (len data)) in
      if slice_len (buf self) <? dest_len then pret (fail ErrorKind.ShortBuffer)
      else
        let* _ := copy_into (buf self) pos dest_len data in
        let* _ := store_word out dest_len in
        pret (Ok tt)
  | None => pret (fail ErrorKind.BadState)
  end.

Definition set_buf_from_slice (self : PluginParameters) (sendslice : bytes)
    : prog pworld (Result unit) := write_output_at self 0 sendslice.

(** [get_buffer] and [get_buffer_mut]: the slice. *)
Definition get_buffer (self : PluginParameters) : byte_slice := buf self.

Definition set_out_len (self : PluginParameters) (n : Z) : prog pworld (Result unit) :=
  if slice_len (buf self) <? n then pret (fail ErrorKind.BadParameters)
  else
    let? v := pret (ok_or (out_len self) (Error.from_kind ErrorKind.BadState)) in
    let* _ := store_word v n in
    pret (Ok tt).

(** ** The generated functions *)

(** [match f() { Ok(()) => TEEC_SUCCESS, Err(err) => err.raw_code() }]. *)
Definition result_code (r : Result unit) : Z :=
  match r with Ok _ => TEEC_SUCCESS | Err e => Error.raw_code e end.

Definition plugin_init_fn (f : prog pworld (Result unit)) : prog pworld Z :=
  let* r := f in pret (result_code r).

Definition plugin_invoke_fn (f : PluginParameters -> prog pworld (Result unit))
    (c sub data in_len out : Z) : prog pworld Z :=
  let* r := plift (from_raw c sub data in_len out) in
  match r with
  | Ok parameter => let* r' := f parameter in pret (result_code r')
  | Err err => pret (Error.raw_code err)
  end.

End Methods.

(** ** The macros' checks *)

Module PluginMacros.

(** The types the macros look at: a path, a reference, anything else. *)
Inductive ty : Type :=
| TyPath (segments : list string)
| TyRef (is_mut : bool) (elem : ty)
| TyOther.

Inductive FnArg : Type := Receiver | Typed (t : ty).
Inductive ReturnType : Type := Default | Returns (t : ty).

Record ItemFn : Type := mkItemFn {
  constness : bool; vis_inherited : bool; abi : bool; inputs : list FnArg;
  where_clause : bool; variadic : bool; output : ReturnType
}.

(** [path.segments.iter().zip(&exp[exp.len() - path.segments.len()..])]: the
    subtraction is guarded by the length test of [&&]. *)
Definition check_path_might_match (path exp : list string) : bool :=
  (length path <=? length exp)%nat
  && forallb (fun '(seg, e) => String.eqb seg e)
       (combine path (drop (length exp - length path) exp)).

Definition check_return_type (f : ItemFn) : bool :=
  match output f with
  | Returns (TyPath p) => check_path_might_match p ["optee_teec"; "Result"]%string
  | _ => false
  end.

Definition check_invoke_fn_params (f : ItemFn) : bool :=
  match inputs f with
  | [Typed (TyRef true (TyPath p))] =>
      check_path_might_match p ["optee_teec"; "PluginParameters"]%string
  | _ => false
  end.

Definition plugin_init_accepts (f : ItemFn) : bool :=
  negb (constness f) && vis_inherited f && negb (abi f) && (length (inputs f) =? 0)%nat
  && negb (where_clause f) && negb (variadic f) && check_return_type f.

Definition plugin_invoke_accepts (f : ItemFn) : bool :=
  negb (constness f) && vis_inherited f && negb (abi f) && (length (inputs f) =? 1)%nat
  && negb (where_clause f) && negb (variadic f) && check_return_type f
  && check_invoke_fn_params f.

End PluginMacros.

(** ** Properties *)

Section Plugin_lemmas.
Context `{!Target, !TargetOk, !Profile}.

(** The plugin was called with a valid buffer and a valid length cell. *)
Record plugin_ok (p : PluginParameters) (out : Z) (w : pworld) : Prop := {
  pl_out : out_len p = Some out;
  pl_cell : is_Some (pw_words w !! out);
  pl_mapped : range_mapped (pw_mem w) (as_ptr (buf p)) (slice_len (buf p));
  pl_len : 0 <= slice_len (buf p) < 2 ^ (ptr_bits - 1);
}.

Lemma isize_lt_usize : 2 ^ (ptr_bits - 1) < 2 ^ ptr_bits.
Proof. destruct ptr_bits_cases as [-> | ->]; done. Qed.

Lemma store_word_ok out v w :
  is_Some (pw_words w !! out) ->
  store_word out v w = Ret (tt, mkPworld (pw_mem w) (<[out := v]> (pw_words w))).
Proof. intros [x Hx]. unfold store_word. by rewrite Hx. Qed.

Lemma write_output_fits p out w pos data :
  plugin_ok p out w -> 0 <= pos -> pos + len data <= slice_len (buf p) ->
  exists m, write_output_at p pos data w
      = Ret (Ok tt, mkPworld m (<[out := pos + len data]> (pw_words w))) /\
    mdom m = mdom (pw_mem w) /\ holds_at m (as_ptr (buf p) + pos) data /\
    same_outside (pw_mem w) m (as_ptr (buf p) + pos) (len data).
Proof.
  intros [Ho Hc Hm Hl] Hpos Hfit. pose proof isize_lt_usize. pose proof (len_nonneg data).
  destruct (write_range_spec data (pw_mem w) (as_ptr (buf p) + pos)) as (m & E & Hd & Hh & Hs).
  { apply (range_mapped_sub _ (as_ptr (buf p)) (slice_len (buf p))); lia || done. }
  exists m. split_and!; try done. unfold write_output_at. rewrite Ho. unfold add_u.
  decide_if. erewrite pbind_Ret by reflexivity. decide_if.
  erewrite pbind_Ret; [|unfold copy_into; rewrite (proj2 (Z.leb_le pos (pos + len data))),
    (proj2 (Z.leb_le (pos + len data) _)), (proj2 (Z.eqb_eq (pos + len data - pos) (len data)))
    by lia; cbn [andb]; rewrite E; reflexivity].
  by erewrite pbind_Ret by (by apply store_word_ok).
Qed.

Lemma write_output_short p out w pos data :
  plugin_ok p out w -> 0 <= pos -> slice_len (buf p) < pos + len data < 2 ^ ptr_bits ->
  write_output_at p pos data w = Ret (fail ErrorKind.ShortBuffer, w).
Proof.
  intros [Ho Hc Hm Hl] Hpos Hlt. unfold write_output_at. rewrite Ho. unfold add_u. decide_if.
  erewrite pbind_Ret by reflexivity. by decide_if.
Qed.

(** When [pos + data.len()] does not fit a [usize]: the addition panics, or it
    wraps and the short length check or the slice indexing stops the write. *)
Lemma write_output_overflow p out w pos data :
  plugin_ok p out w -> in_u ptr_bits pos -> len data < 2 ^ (ptr_bits - 1) ->
  2 ^ ptr_bits <= pos + len data ->
  write_output_at p pos data w
    = if overflow_checks || (pos + len data - 2 ^ ptr_bits <=? slice_len (buf p)) then Panic
      else Ret (fail ErrorKind.ShortBuffer, w).
Proof.
  intros [Ho Hc Hm Hl] [Hp0 Hp] Hd Hov. unfold write_output_at. rewrite Ho. unfold add_u.
  pose proof isize_lt_usize. decide_if. destruct overflow_checks; [done|]. cbn [orb].
  replace (wrap_u ptr_bits (pos + len data)) with (pos + len data - 2 ^ ptr_bits)
    by (apply (Z.mod_unique_pos _ _ 1); lia).
  erewrite pbind_Ret by reflexivity. case_if; decide_if; [done|].
  unfold pbind, copy_into. by rewrite (proj2 (Z.leb_gt pos (pos + len data - 2 ^ ptr_bits))) by lia.
Qed.

(** One call of the safe output methods that returned. *)
Inductive plugin_step (p : PluginParameters) : pworld -> pworld -> Prop :=
| step_write w pos data r w' :
    in_u ptr_bits pos -> len data < 2 ^ (ptr_bits - 1) ->
    write_output_at p pos data w = Ret (r, w') -> plugin_step p w w'
| step_set_buf w data r w' :
    len data < 2 ^ (ptr_bits - 1) ->
    set_buf_from_slice p data w = Ret (r, w') -> plugin_step p w w'
| step_set_len w n r w' :
    in_u ptr_bits n -> set_out_len p n w = Ret (r, w') -> plugin_step p w w'.

(** What holds between the call of the plugin and any later point. *)
Record plugin_inv (p : PluginParameters) (out : Z) (w0 w : pworld) : Prop := {
  pi_ok : plugin_ok p out w;
  pi_mem : same_outside (pw_mem w0) (pw_mem w) (as_ptr (buf p)) (slice_len (buf p));
  pi_words a : a <> out -> pw_words w !! a = pw_words w0 !! a;
  pi_out : pw_words w !! out = pw_words w0 !! out \/
           exists n, pw_words w !! out = Some n /\ 0 <= n <= slice_len (buf p);
}.

Lemma plugin_inv_store p out w0 w m n :
  plugin_inv p out w0 w -> mdom m = mdom (pw_mem w) ->
  same_outside (pw_mem w) m (as_ptr (buf p)) (slice_len (buf p)) ->
  0 <= n <= slice_len (buf p) ->
  plugin_inv p out w0 (mkPworld m (<[out := n]> (pw_words w))).
Proof.
  intros [[Ho Hc Hm Hl] Hs Hw _] Hd Hsm Hn. split; cbn [pw_mem pw_words].
  - split; cbn [pw_mem pw_words]; try done.
    + rewrite lookup_insert_eq. eauto.
    + by apply (range_mapped_dom (pw_mem w)).
  - intros x Hx. rewrite Hsm by done. by apply Hs.
  - intros a Ha. rewrite lookup_insert_ne by done. by apply Hw.
  - right. exists n. by rewrite lookup_insert_eq.
Qed.

Lemma plugin_inv_write p out w0 w pos data r w' :
  plugin_inv p out w0 w -> in_u ptr_bits pos -> len data < 2 ^ (ptr_bits - 1) ->
  write_output_at p pos data w = Ret (r, w') -> plugin_inv p out w0 w'.
Proof.
  intros Hinv Hpos Hd E. pose proof (pi_ok _ _ _ _ Hinv) as Hok. pose proof (len_nonneg data).
  destruct (Z.le_gt_cases (pos + len data) (slice_len (buf p))) as [Hle|Hgt].
  - destruct (write_output_fits p out w pos data Hok ltac:(apply Hpos) Hle) as (m & E' & Hdm & _ & Hs).
    rewrite E' in E. injection E as _ <-. apply plugin_inv_store; try done; [|unfold in_u in *; lia].
    intros x Hx. apply Hs. unfold in_u in *. lia.
  - destruct (Z.lt_ge_cases (pos + len data) (2 ^ ptr_bits)).
    + rewrite (write_output_short p out w pos data Hok ltac:(apply Hpos) ltac:(lia)) in E.
      by injection E as _ <-.
    + rewrite (write_output_overflow p out w pos data Hok Hpos Hd) in E by lia.
      destruct (_ || _); [done|]. by injection E as _ <-.
Qed.

Lemma set_out_len_spec p out w n :
  plugin_ok p out w ->
  set_out_len p n w = if slice_len (buf p) <? n then Ret (fail ErrorKind.BadParameters, w)
                      else Ret (Ok tt, mkPworld (pw_mem w) (<[out := n]> (pw_words w))).
Proof.
  intros [Ho Hc _ _]. unfold set_out_len. case_if; [done|]. rewrite Ho. cbn [ok_or].
  erewrite ptry_Ok by done. by erewrite pbind_Ret by (by apply store_word_ok).
Qed.

Lemma plugin_inv_step p out w0 w w' :
  plugin_inv p out w0 w -> plugin_step p w w' -> plugin_inv p out w0 w'.
Proof.
  intros Hinv Hstep. destruct Hstep as [w pos data r w' Hpos Hd E|w data r w' Hd E|w n r w' Hn E].
  - by eapply plugin_inv_write.
  - eapply plugin_inv_write; [done| |done|exact E]. pose proof usize_pos. unfold in_u. lia.
  - rewrite (set_out_len_spec p out w n (pi_ok _ _ _ _ Hinv)) in E. revert E.
    case_if; intros E; injection E as _ <-; [done|].
    apply plugin_inv_store; [done|done|done|unfold in_u in *; lia].
Qed.

(** C38: a plugin that uses the safe output methods, in any order and with any
    arguments, writes nothing but its own buffer and the length cell, and the
    length it leaves there is the one it was called with or at most the size of
    the buffer; so the TA never reads beyond what the supplicant shared. *)
Theorem plugin_output_safe p out w0 w :
  plugin_ok p out w0 -> rtc (plugin_step p) w0 w -> plugin_inv p out w0 w.
Proof.
  intros Hok Hsteps. assert (plugin_inv p out w0 w0) as Hinv by (by split; [..|left]).
  revert Hsteps. apply (rtc_ind_r (fun w => plugin_inv p out w0 w)); [done|].
  intros. by eapply plugin_inv_step.
Qed.

(** [write_output_at] on every input.  If the data fits it is written at the
    position, nothing else changes and the reported length is the new end; if it
    does not fit, the answer is [ShortBuffer] and nothing changes.  The one case
    in which it does not answer is a position so large that the addition
    overflows: with overflow checks it always panics there, without them it
    panics unless the wrapped length is itself too long, although the
    documentation promises [ShortBuffer]; it never writes out of bounds. *)
Lemma write_output_at_correct p out w pos data :
  plugin_ok p out w -> in_u ptr_bits pos -> len data < 2 ^ (ptr_bits - 1) ->
  (pos + len data <= slice_len (buf p) -> exists m,
     write_output_at p pos data w
       = Ret (Ok tt, mkPworld m (<[out := pos + len data]> (pw_words w))) /\
     holds_at m (as_ptr (buf p) + pos) data /\
     same_outside (pw_mem w) m (as_ptr (buf p) + pos) (len data)) /\
  (slice_len (buf p) < pos + len data < 2 ^ ptr_bits ->
     write_output_at p pos data w = Ret (fail ErrorKind.ShortBuffer, w)) /\
  (2 ^ ptr_bits <= pos + len data ->
     write_output_at p pos data w
       = if overflow_checks || (pos + len data - 2 ^ ptr_bits <=? slice_len (buf p)) then Panic
         else Ret (fail ErrorKind.ShortBuffer, w)).
Proof.
  intros Hok Hpos Hd. split_and!.
  - intros Hle. destruct (write_output_fits p out w pos data Hok ltac:(apply Hpos) Hle)
      as (m & E & _ & Hh & Hs). by exists m.
  - intros Hlt. by eapply write_output_short; [|apply Hpos|].
  - intros Hov. by eapply write_output_overflow.
Qed.

(** The generated invoke function answers [TEEC_ERROR_BAD_PARAMETERS],
    without calling the plugin, exactly when it gets no buffer but a length or a
    length cell; otherwise the plugin is called with the buffer, its size and
    the cell, and its result code is the answer. *)
Lemma plugin_invoke_correct f c sub data in_len out w :
  in_u ptr_bits data -> in_u ptr_bits out -> 0 <= in_len < 2 ^ (ptr_bits - 1) ->
  (data = 0 /\ (in_len <> 0 \/ out <> 0) /\
   plugin_invoke_fn f c sub data in_len out w = Ret (TEEC_ERROR_BAD_PARAMETERS, w))
  \/ ((data <> 0 \/ (in_len = 0 /\ out = 0)) /\ exists p,
      cmd p = c /\ sub_cmd p = sub /\ slice_len (buf p) = in_len /\
      (data <> 0 -> as_ptr (buf p) = data) /\
      (out_len p = if out =? 0 then None else Some out) /\
      plugin_invoke_fn f c sub data in_len out w
        = pbind (f p) (fun r => pret (result_code r)) w).
Proof.
  intros Hd Ho Hl. unfold plugin_invoke_fn, from_raw.
  destruct (data =? 0) eqn:Hd0; reflect_bool.
  - subst data. destruct (in_len =? 0) eqn:Hl0; destruct (out =? 0) eqn:Ho0; reflect_bool;
      cbn [negb andb orb]; try (left; by split_and!; [done|auto|done]).
    subst. right. split; [by right|]. by eexists (mkPlugin c sub (mkSlice 1 0) None).
  - right. split; [by left|]. rewrite andb_false_r. decide_if.
    by eexists (mkPlugin c sub (mkSlice data in_len) _).
Qed.

End Plugin_lemmas.

(** ** The macros accept the documented signatures *)

Module PluginMacroSpec.
Import PluginMacros.

Lemma all_equal_combine (p q : list string) :
  length p = length q ->
  forallb (fun '(seg, e) => String.eqb seg e) (combine p q) = true <-> p = q.
Proof.
  revert q. induction p as [|x p IH]; intros [|y q] Hl; try discriminate Hl; [done|].
  cbn [combine forallb]. rewrite andb_true_iff, String.eqb_eq, IH by (by injection Hl).
  split; [by intros [-> ->]|by intros [= -> ->]].
Qed.

(** A path matches when it is a suffix of the expected one. *)
Lemma check_path_suffix p e : check_path_might_match p e = true <-> p `suffix_of` e.
Proof.
  unfold check_path_might_match. rewrite andb_true_iff, Nat.leb_le. split.
  - intros [Hl Ha]. apply all_equal_combine in Ha; [|rewrite length_drop; lia].
    exists (take (length e - length p) e). rewrite Ha at 2. by rewrite take_drop.
  - intros [k ->]. rewrite length_app. split; [lia|].
    replace (length k + length p - length p)%nat with (length k) by lia.
    rewrite drop_app_length. by apply all_equal_combine.
Qed.

(** The plugin macros accept exactly a private, non-const, non-extern,
    non-variadic function without a where clause that returns a path ending as
    [optee_teec::Result] does; [#[plugin_init]] wants no argument, and
    [#[plugin_invoke]] one argument whose type is [&mut] a path ending as
    [optee_teec::PluginParameters] does. *)
Lemma plugin_macros_accept f :
  let plain := constness f = false /\ vis_inherited f = true /\ abi f = false /\
               where_clause f = false /\ variadic f = false in
  let returns := exists q, output f = Returns (TyPath q) /\
                           q `suffix_of` ["optee_teec"; "Result"]%string in
  (plugin_init_accepts f = true <-> plain /\ returns /\ inputs f = []) /\
  (plugin_invoke_accepts f = true <-> plain /\ returns /\
     exists p, inputs f = [Typed (TyRef true (TyPath p))] /\
               p `suffix_of` ["optee_teec"; "PluginParameters"]%string).
Proof.
  intros plain returns.
  assert (check_return_type f = true <-> returns) as Hr.
  { unfold check_return_type, returns. destruct (output f) as [|[q| |]]; try naive_solver.
    rewrite check_path_suffix. naive_solver. }
  assert (check_invoke_fn_params f = true <->
    exists p, inputs f = [Typed (TyRef true (TyPath p))] /\
              p `suffix_of` ["optee_teec"; "PluginParameters"]%string) as Hi.
  { unfold check_invoke_fn_params.
    destruct (inputs f) as [|[|[|[] []|]] []]; try naive_solver.
    rewrite check_path_suffix. naive_solver. }
  unfold plugin_init_accepts, plugin_invoke_accepts, plain.
  rewrite !andb_true_iff, !negb_true_iff, !Nat.eqb_eq, Hr, Hi, length_zero_iff_nil.
  split; [naive_solver|]. split; [naive_solver|].
  intros (Hp & Hret & p & Hin & Hs). rewrite Hin. naive_solver.
Qed.

End PluginMacroSpec.

(** ** Witnesses *)

Module PluginExamples.

#[local] Instance plugin_target : Target := 64.
#[local] Instance plugin_profile : Profile := true.

Definition params : PluginParameters := mkPlugin 1 2 (mkSlice 0x2000 4) (Some 0x10).
Definition start : pworld := mkPworld (buffer_at 0x2000 [9; 9; 9; 9]) {[0x10 := 0]}.

Lemma start_ok : plugin_ok params 0x10 start.
Proof.
  split; [done|by exists 0|exact (buffer_at_mapped 0x2000 [9; 9; 9; 9])|done].
Qed.

Lemma plugin_output_safe_witness :
  exists w, rtc (plugin_step params) start w /\ plugin_inv params 0x10 start w.
Proof.
  destruct (write_output_fits params 0x10 start 1 [7; 8] start_ok) as (m & E & _); [done|done|].
  eexists. split; [|apply (plugin_output_safe params 0x10 start); [exact start_ok|]];
    (apply rtc_once; by apply (step_write params start 1 [7; 8] (Ok tt))).
Defined.

Lemma write_output_at_correct_witness :
  write_output_at params 3 [7; 8] start = Ret (fail ErrorKind.ShortBuffer, start) /\
  write_output_at params (2 ^ 64 - 1) [7; 8] start = Panic.
Proof.
  split; [apply (write_output_at_correct params 0x10 start 3 [7; 8] start_ok); done|].
  destruct (write_output_at_correct params 0x10 start (2 ^ 64 - 1) [7; 8] start_ok) as (_ & _ & E);
    [done..|]. by apply E.
Defined.

Lemma plugin_invoke_correct_witness :
  plugin_invoke_fn (fun _ => pret (Ok tt)) 1 2 0 4 0 start = Ret (TEEC_ERROR_BAD_PARAMETERS, start).
Proof.
  destruct (plugin_invoke_correct (fun _ => pret (Ok tt)) 1 2 0 4 0 start)
    as [(_ & _ & E)|[[?|[? _]] _]]; done.
Defined.

End PluginExamples.
