(* ===== verification/ElfUuid.v ===== *)
(** * ElfUuid: reading the UUID of a TA or plugin from its ELF image

    Models [tools/cargo-optee/src/elf_uuid.rs].  The ELF parser is the crate
    [goblin]: its result is the record [Elf], with the string tables and the
    accessors of a symbol as functions and fields, and [Elf::parse] is a
    parameter; so are [std::fs::read] and [Uuid::from_bytes_le].  Addresses and
    sizes of the file are [u64], offsets into the file [usize]. *)

From S2P Require Import Prelude.

(** ** What the parser gives *)

Definition PT_LOAD : Z := 1.
Definition ET_DYN : Z := 3.
Definition EM_ARM : Z := 40.
Definition EM_AARCH64 : Z := 183.
Definition ELFCLASS32 : Z := 1.
Definition ELFCLASS64 : Z := 2.
Definition STB_GLOBAL : Z := 1.
Definition STB_WEAK : Z := 2.
Definition STT_NOTYPE : Z := 0.
Definition STT_OBJECT : Z := 1.

Record ProgramHeader : Type := mkPh {
  p_type : Z; p_offset : Z; p_vaddr : Z; p_filesz : Z; p_memsz : Z
}.

Record Sym : Type := mkSym {
  st_name : Z; st_bind : Z; st_type : Z; st_shndx : Z; st_value : Z; st_size : Z
}.

Record Elf : Type := mkElf {
  little_endian : bool; e_type : Z; e_machine : Z; e_class : Z; is_64 : bool;
  program_headers : list ProgramHeader;
  dynsyms : list Sym; dynstrtab : Z -> option string;
  syms : list Sym; strtab : Z -> option string;
}.

(** ** Errors: one constructor per message *)

Module ElfError.
Inductive ElfError : Type :=
| FailedToRead
| MissingMagic
| FailedToParse
| UnsupportedEndianness
| UnsupportedType (t : Z)
| UnsupportedTarget (machine class : Z) (is_64 : bool)
| NotExported (name : string)
| NotFound (name : string)
| WrongSymbolType (name : string) (t : Z)
| TooSmall (name : string) (size min_size : Z)
| AddressOverflow (va : Z)
| SegmentOverflow (base size : Z)
| InBss (va : Z)
| OffsetOverflow (va : Z)
| OffsetTooLarge (off : Z)
| FileRangeOverflow (off : Z)
| BeyondFile (off size : Z)
| NotLoaded (va : Z)
| NotSixteenBytes (n : Z).
End ElfError.

Abbreviation ElfError := ElfError.ElfError.

Definition TEE_UUID_SIZE : Z := 16.
Definition elf_magic : bytes := [0x7f; 0x45; 0x4c; 0x46].

Definition is_load (ph : ProgramHeader) : bool := p_type ph =? PT_LOAD.

Section Reader.
Context `{!Target, !Profile}.
Context {Uuid : Type}.
Context (Elf_parse : bytes -> option Elf) (from_bytes_le : bytes -> Uuid).

(** [data.get(a..b)]. *)
Definition get_range (data : bytes) (a b : Z) : option bytes :=
  if (a <=? b) && (b <=? len data)
  then Some (take (Z.to_nat (b - a)) (drop (Z.to_nat a) data)) else None.

(** [usize::try_from] of a [u64]. *)
Definition usize_try_from (x : Z) : option Z := if x <? 2 ^ ptr_bits then Some x else None.

Definition parse_optee_elf (data : bytes) : result Elf ElfError :=
  if negb (bool_decide (take 4 data = elf_magic)) then Err ElfError.MissingMagic
  else
    try elf := ok_or (Elf_parse data) ElfError.FailedToParse in
    if negb (little_endian elf) then Err ElfError.UnsupportedEndianness
    else if negb (e_type elf =? ET_DYN) then Err (ElfError.UnsupportedType (e_type elf))
    else if ((e_machine elf =? EM_AARCH64) && (e_class elf =? ELFCLASS64) && is_64 elf)
         || ((e_machine elf =? EM_ARM) && (e_class elf =? ELFCLASS32) && negb (is_64 elf))
    then Ok elf
    else Err (ElfError.UnsupportedTarget (e_machine elf) (e_class elf) (is_64 elf)).

Definition pointer_width (elf : Elf) : Z := if is_64 elf then 8 else 4.

(** The test of [find] in [exported_symbol]. *)
Definition exports (elf : Elf) (name : string) (s : Sym) : bool :=
  bool_decide (dynstrtab elf (st_name s) = Some name)
  && negb (st_shndx s =? 0)
  && ((st_bind s =? STB_GLOBAL) || (st_bind s =? STB_WEAK)).

Definition exported_symbol (elf : Elf) (name : string) : option Sym :=
  List.find (exports elf name) (dynsyms elf).

Definition has_named_sym (elf : Elf) (name : string) : bool :=
  existsb (fun s => bool_decide (strtab elf (st_name s) = Some name) && negb (st_shndx s =? 0))
    (syms elf).

Definition ensure_object (name : string) (s : Sym) (min_size : Z) : result unit ElfError :=
  if (st_type s =? STT_OBJECT) || (st_type s =? STT_NOTYPE) then
    if negb (st_size s =? 0) then
      if min_size <=? st_size s then Ok tt
      else Err (ElfError.TooSmall name (st_size s) min_size)
    else Ok tt
  else Err (ElfError.WrongSymbolType name (st_type s)).

(** The loop of [bytes_at_va] over the [PT_LOAD] segments. *)
Fixpoint find_bytes (phs : list ProgramHeader) (data : bytes) (va fin size : Z)
    : outcome (result bytes ElfError) :=
  match phs with
  | [] => Ret (Err (ElfError.NotLoaded va))
  | ph :: phs' =>
      otry (Ret (ok_or (checked_add 64 (p_vaddr ph) (p_memsz ph))
                       (ElfError.SegmentOverflow (p_vaddr ph) (p_memsz ph)))) (fun load_end =>
      if (va <? p_vaddr ph) || (load_end <? fin) then find_bytes phs' data va fin size
      else
        otry (Ret (ok_or (checked_add 64 (p_vaddr ph) (p_filesz ph))
                         (ElfError.SegmentOverflow (p_vaddr ph) (p_filesz ph)))) (fun file_end =>
        if negb (fin <=? file_end) then Ret (Err (ElfError.InBss va))
        else
          let! delta := sub_u 64 va (p_vaddr ph) in
          otry (Ret (ok_or (checked_add 64 (p_offset ph) delta)
                           (ElfError.OffsetOverflow va))) (fun off =>
          otry (Ret (ok_or (usize_try_from off) (ElfError.OffsetTooLarge off))) (fun off =>
          otry (Ret (ok_or (checked_add ptr_bits off size)
                           (ElfError.FileRangeOverflow off))) (fun end_off =>
          Ret (ok_or (get_range data off end_off) (ElfError.BeyondFile off size)))))))
  end.

(** [u64::try_from(size)] cannot fail: a [usize] has at most 64 bits. *)
Definition bytes_at_va (elf : Elf) (data : bytes) (va size : Z)
    : outcome (result bytes ElfError) :=
  otry (Ret (ok_or (checked_add 64 va size) (ElfError.AddressOverflow va))) (fun fin =>
  find_bytes (List.filter is_load (program_headers elf)) data va fin size).

Definition tee_uuid (b : bytes) : result Uuid ElfError :=
  if len b =? 16 then Ok (from_bytes_le b) else Err (ElfError.NotSixteenBytes (len b)).

(** The symbol, or the reason why there is none. *)
Definition symbol_or_error (elf : Elf) (name : string) : result Sym ElfError :=
  ok_or (exported_symbol elf name)
    (if has_named_sym elf name then ElfError.NotExported name else ElfError.NotFound name).

Definition read_ta_uuid_from_bytes (data : bytes) : outcome (result Uuid ElfError) :=
  otry (Ret (parse_optee_elf data)) (fun elf =>
  otry (Ret (symbol_or_error elf "ta_head")) (fun s =>
  otry (Ret (ensure_object "ta_head" s TEE_UUID_SIZE)) (fun _ =>
  otry (bytes_at_va elf data (st_value s) TEE_UUID_SIZE) (fun b =>
  Ret (tee_uuid b))))).

(** [uuid_off + TEE_UUID_SIZE as u64] is at most 24. *)
Definition read_plugin_uuid_from_bytes (data : bytes) : outcome (result Uuid ElfError) :=
  otry (Ret (parse_optee_elf data)) (fun elf =>
  otry (Ret (symbol_or_error elf "plugin_method")) (fun s =>
  let uuid_off := pointer_width elf in
  otry (Ret (ensure_object "plugin_method" s (uuid_off + TEE_UUID_SIZE))) (fun _ =>
  otry (Ret (ok_or (checked_add 64 (st_value s) uuid_off)
                   (ElfError.AddressOverflow (st_value s)))) (fun va =>
  otry (bytes_at_va elf data va TEE_UUID_SIZE) (fun b =>
  Ret (tee_uuid b)))))).

(** [read_ta_uuid] and [read_plugin_uuid] on what reading the file gave. *)
Definition read_ta_uuid (file : option bytes) : outcome (result Uuid ElfError) :=
  otry (Ret (ok_or file ElfError.FailedToRead)) read_ta_uuid_from_bytes.
Definition read_plugin_uuid (file : option bytes) : outcome (result Uuid ElfError) :=
  otry (Ret (ok_or file ElfError.FailedToRead)) read_plugin_uuid_from_bytes.

End Reader.

(** ** Specification

    The loader maps a [PT_LOAD] segment's file range to its addresses; the bytes
    of the image at an address are those of the first segment that covers the
    whole range, if they are in its file-backed part. *)

Definition covers (va size : Z) (ph : ProgramHeader) : Prop :=
  p_vaddr ph <= va /\ va + size <= p_vaddr ph + p_memsz ph.

Record image_bytes (loads : list ProgramHeader) (data : bytes) (va size : Z) (l : bytes)
    : Prop := mkImage {
  im_segment : exists pre ph post,
    loads = pre ++ ph :: post /\ Forall (fun q => ~ covers va size q) pre /\
    covers va size ph /\ va + size <= p_vaddr ph + p_filesz ph /\
    p_offset ph + (va - p_vaddr ph) + size <= len data /\
    l = take (Z.to_nat size) (drop (Z.to_nat (p_offset ph + (va - p_vaddr ph))) data);
}.

(** The fields of a program header are [u64]. *)
Definition ph_wf (ph : ProgramHeader) : Prop :=
  in_u 64 (p_offset ph) /\ in_u 64 (p_vaddr ph) /\ in_u 64 (p_filesz ph) /\ in_u 64 (p_memsz ph).

(** A segment does not wrap around the address space. *)
Definition ph_fits (ph : ProgramHeader) : Prop :=
  p_vaddr ph + p_memsz ph < 2 ^ 64 /\ p_vaddr ph + p_filesz ph < 2 ^ 64.

Section Reader_lemmas.
Context `{!Target, !TargetOk, !Profile}.

Lemma usize_le_u64 : 2 ^ ptr_bits <= 2 ^ 64.
Proof. destruct ptr_bits_cases as [-> | ->]; done. Qed.

Lemma get_range_some data a b l :
  get_range data a b = Some l <->
  a <= b <= len data /\ l = take (Z.to_nat (b - a)) (drop (Z.to_nat a) data).
Proof.
  unfold get_range. destruct (a <=? b) eqn:E1; destruct (b <=? len data) eqn:E2; reflect_bool;
    cbn [andb]; (split; [intros Hg|intros [Hg ->]]); try discriminate Hg; try lia; try done.
  by injection Hg as <-.
Qed.

(** An error branch: the specification excludes it. *)
Ltac fails :=
  eexists; split; [reflexivity|]; intros ?; split; [done|intros (? & ? & ? & _); lia].

(** The part of the loop for a covering segment. *)
Lemma find_bytes_covering ph phs data va size :
  ph_wf ph -> in_u 64 va -> 0 <= size -> va + size < 2 ^ 64 -> len data < 2 ^ ptr_bits ->
  covers va size ph -> p_vaddr ph + p_memsz ph < 2 ^ 64 ->
  exists r, find_bytes (ph :: phs) data va (va + size) size = Ret r /\
    (forall l, r = Ok l <->
       p_vaddr ph + p_filesz ph < 2 ^ 64 /\ va + size <= p_vaddr ph + p_filesz ph /\
       p_offset ph + (va - p_vaddr ph) + size <= len data /\
       l = take (Z.to_nat size) (drop (Z.to_nat (p_offset ph + (va - p_vaddr ph))) data)).
Proof.
  intros (Ho & Hv & Hf & Hm) Hva Hsz Hfin Hlen [Hc1 Hc2] Hnw.
  pose proof usize_le_u64. unfold in_u in *. cbn [find_bytes]. unfold checked_add at 1. decide_if.
  cbn [ok_or otry]. rewrite (proj2 (Z.ltb_ge va _)), (proj2 (Z.ltb_ge _ (va + size))) by lia.
  cbn [orb].
  unfold checked_add at 1.
  destruct (p_vaddr ph + p_filesz ph <? 2 ^ 64) eqn:?; reflect_bool; cbn [ok_or otry]; [|fails].
  destruct (va + size <=? p_vaddr ph + p_filesz ph) eqn:?; reflect_bool; cbn [negb]; [|fails].
  unfold sub_u. decide_if. cbn [outcome_bind]. unfold checked_add at 1.
  destruct (p_offset ph + (va - p_vaddr ph) <? 2 ^ 64) eqn:?; reflect_bool; cbn [ok_or otry];
    [|fails].
  unfold usize_try_from.
  destruct (p_offset ph + (va - p_vaddr ph) <? 2 ^ ptr_bits) eqn:?; reflect_bool;
    cbn [ok_or otry]; [|fails].
  unfold checked_add.
  destruct (p_offset ph + (va - p_vaddr ph) + size <? 2 ^ ptr_bits) eqn:?; reflect_bool;
    cbn [ok_or otry]; [|fails].
  eexists. split; [done|]. intros l.
  replace (Z.to_nat size) with (Z.to_nat (p_offset ph + (va - p_vaddr ph) + size
    - (p_offset ph + (va - p_vaddr ph)))) by lia.
  destruct (get_range _ _ _) as [l'|] eqn:E; cbn [ok_or].
  - apply get_range_some in E as [Hr ->]. split; [intros [= <-]; split_and!; lia || done|].
    by intros (_ & _ & _ & ->).
  - split; [done|]. intros (_ & _ & Hle & ->).
    assert (Some (take (Z.to_nat (p_offset ph + (va - p_vaddr ph) + size
      - (p_offset ph + (va - p_vaddr ph)))) (drop (Z.to_nat (p_offset ph + (va - p_vaddr ph))) data))
      = None) as [=]. rewrite <- E. symmetry. apply get_range_some. split; [lia|done].
Qed.

Lemma find_bytes_skip ph phs data va size :
  ph_wf ph -> ~ covers va size ph -> p_vaddr ph + p_memsz ph < 2 ^ 64 ->
  find_bytes (ph :: phs) data va (va + size) size = find_bytes phs data va (va + size) size.
Proof.
  intros _ Hc Hnw. cbn [find_bytes]. unfold checked_add at 1. decide_if. cbn [ok_or otry].
  unfold covers in Hc. destruct (va <? p_vaddr ph) eqn:E1; [done|].
  destruct (_ <? va + size) eqn:E2; [done|]. reflect_bool. lia.
Qed.

Lemma image_skip ph phs data va size l :
  ~ covers va size ph -> image_bytes (ph :: phs) data va size l <-> image_bytes phs data va size l.
Proof.
  intros Hc. split; intros [(pre & q & post & E & Hpre & Hrest)].
  - destruct pre as [|p0 pre]; injection E as -> ->; [by destruct Hrest|].
    apply Forall_cons_1 in Hpre as [_ Hpre]. split. by exists pre, q, post.
  - split. exists (ph :: pre), q, post. rewrite E. split; [done|]. split; [|done].
    by constructor.
Qed.

Lemma image_first ph phs data va size l :
  covers va size ph ->
  image_bytes (ph :: phs) data va size l <->
    va + size <= p_vaddr ph + p_filesz ph /\
    p_offset ph + (va - p_vaddr ph) + size <= len data /\
    l = take (Z.to_nat size) (drop (Z.to_nat (p_offset ph + (va - p_vaddr ph))) data).
Proof.
  intros Hc. split.
  - intros [(pre & q & post & E & Hpre & Hcq & Hrest)].
    destruct pre as [|p0 pre]; injection E as -> ->; [done|].
    by apply Forall_cons_1 in Hpre as [? _].
  - intros Hrest. split. exists [], ph, phs. split_and!; try done; apply Hrest.
Qed.

Lemma find_bytes_spec data va size loads :
  in_u 64 va -> 0 <= size -> va + size < 2 ^ 64 -> len data < 2 ^ ptr_bits ->
  Forall ph_wf loads ->
  exists r, find_bytes loads data va (va + size) size = Ret r /\
    (forall l, r = Ok l -> image_bytes loads data va size l) /\
    (forall l, Forall ph_fits loads -> image_bytes loads data va size l -> r = Ok l).
Proof.
  intros Hva Hsz Hfin Hlen. induction loads as [|ph phs IH]; intros Hwf.
  - eexists. split; [reflexivity|]. split; [done|].
    intros l _ [([|] & q & post & E & _)]; discriminate E.
  - apply Forall_cons_1 in Hwf as [Hph Hphs]. specialize (IH Hphs).
    destruct (Z.lt_ge_cases (p_vaddr ph + p_memsz ph) (2 ^ 64)) as [Hnw|Hw].
    2: { eexists. split; [cbn [find_bytes]; unfold checked_add at 1; decide_if; reflexivity|].
         split; [done|]. intros l [[Hfit _] _]%Forall_cons_1. lia. }
    assert (covers va size ph \/ ~ covers va size ph) as [Hc|Hc] by (unfold covers; lia).
    + destruct (find_bytes_covering ph phs data va size) as (r & E & Hr); try done.
      exists r. rewrite E. split; [done|]. split; intros l; rewrite (image_first ph) by done.
      * intros ->. apply Hr. reflexivity.
      * intros [[_ Hfit] _]%Forall_cons_1 Hl. by apply Hr.
    + rewrite find_bytes_skip by done. destruct IH as (r & E & Hsound & Hcomp). exists r.
      split; [done|]. split; intros l; rewrite image_skip by done; [apply Hsound|].
      intros [_ Hfit]%Forall_cons_1. by apply Hcomp.
Qed.

Definition loads (elf : Elf) : list ProgramHeader := List.filter is_load (program_headers elf).

Lemma bytes_at_va_spec elf data va size :
  in_u 64 va -> 0 <= size -> len data < 2 ^ ptr_bits -> Forall ph_wf (loads elf) ->
  exists r, bytes_at_va elf data va size = Ret r /\
    (forall l, r = Ok l -> va + size < 2 ^ 64 /\ image_bytes (loads elf) data va size l) /\
    (forall l, va + size < 2 ^ 64 -> Forall ph_fits (loads elf) ->
       image_bytes (loads elf) data va size l -> r = Ok l).
Proof.
  intros Hva Hsz Hlen Hwf. unfold bytes_at_va, checked_add. case_if; cbn [ok_or otry].
  - destruct (find_bytes_spec data va size (loads elf)) as (r & E & Hsound & Hcomp); try done.
    exists r. split; [exact E|]. split; [|by intros l _; apply Hcomp]. intros l Hl.
    by split; [|apply Hsound].
  - eexists. split; [done|]. split; [done|]. lia.
Qed.

Lemma image_len loads data va size l :
  0 <= size -> Forall ph_wf loads -> image_bytes loads data va size l -> len l = size.
Proof.
  intros Hsz Hwf [(pre & ph & post & -> & _ & [Hc _] & _ & Hle & ->)].
  apply Forall_app in Hwf as [_ [(Ho & _) _]%Forall_cons_1]. unfold in_u in Ho.
  unfold len in *. rewrite length_take, length_drop. lia.
Qed.

End Reader_lemmas.

Section Uuid_lemmas.
Context `{!Target, !TargetOk, !Profile}.
Context {Uuid : Type}.
Context (Elf_parse : bytes -> option Elf) (from_bytes_le : bytes -> Uuid).

(** The two targets of OP-TEE. *)
Definition optee_target (elf : Elf) : Prop :=
  little_endian elf = true /\ e_type elf = ET_DYN /\
  ((e_machine elf = EM_AARCH64 /\ e_class elf = ELFCLASS64 /\ is_64 elf = true) \/
   (e_machine elf = EM_ARM /\ e_class elf = ELFCLASS32 /\ is_64 elf = false)).

Lemma parse_ok data elf :
  parse_optee_elf Elf_parse data = Ok elf <->
  take 4 data = elf_magic /\ Elf_parse data = Some elf /\ optee_target elf.
Proof.
  unfold parse_optee_elf, optee_target.
  case_bool_decide as Hm; cbn [negb]; [|by split; [|intros [? _]]].
  destruct (Elf_parse data) as [elf'|]; cbn [ok_or result_bind];
    [|by split; [|intros (_ & ? & _)]].
  destruct (little_endian elf') eqn:El; cbn [negb];
    [|split; [done|intros (_ & [= ->] & ? & _); congruence]].
  destruct (e_type elf' =? ET_DYN) eqn:Et; cbn [negb]; reflect_bool;
    [|by split; [done|intros (_ & [= ->] & _ & ? & _)]].
  destruct (_ || _) eqn:Eo.
  - apply orb_true_iff in Eo. rewrite !andb_true_iff, !Z.eqb_eq, negb_true_iff in Eo.
    split; [intros [= <-]; naive_solver|naive_solver].
  - apply orb_false_iff in Eo. rewrite !andb_false_iff, !Z.eqb_neq, negb_false_iff in Eo.
    split; [done|]. intros (_ & [= ->] & _ & _ & Ht). exfalso.
    destruct (is_64 elf); naive_solver.
Qed.

(** The first exported symbol of that name. *)
Definition first_export (elf : Elf) (name : string) (s : Sym) : Prop :=
  exists pre post, dynsyms elf = pre ++ s :: post /\
    Forall (fun t => exports elf name t = false) pre /\ exports elf name s = true.

Lemma find_first {A} (f : A -> bool) (l : list A) x :
  List.find f l = Some x <->
  exists pre post, l = pre ++ x :: post /\ Forall (fun y => f y = false) pre /\ f x = true.
Proof.
  induction l as [|y l IH]; cbn [List.find].
  - split; [done|]. intros ([|] & post & E & _); discriminate E.
  - destruct (f y) eqn:Ey.
    + split; [intros [= <-]; by exists [], l|].
      intros ([|z pre] & post & E & Hp & Hx); injection E as -> ->; [done|].
      apply Forall_cons_1 in Hp as [Hp _]. congruence.
    + rewrite IH. split.
      * intros (pre & post & -> & Hp & Hx). exists (y :: pre), post. split; [done|].
        split; [by constructor|done].
      * intros ([|z pre] & post & E & Hp & Hx); injection E as -> ->; [congruence|].
        apply Forall_cons_1 in Hp as [_ Hp]. by exists pre, post.
Qed.

Lemma symbol_ok elf name s : symbol_or_error elf name = Ok s <-> first_export elf name s.
Proof.
  unfold symbol_or_error, first_export, exported_symbol. rewrite <- find_first.
  destruct (List.find _ _); cbn [ok_or]; naive_solver.
Qed.

(** An object (or a symbol without type) that is large enough, if it says its
    size. *)
Definition holds_object (s : Sym) (n : Z) : Prop :=
  (st_type s = STT_OBJECT \/ st_type s = STT_NOTYPE) /\ (st_size s = 0 \/ n <= st_size s).

Lemma ensure_ok name s n : ensure_object name s n = Ok tt <-> holds_object s n.
Proof.
  unfold ensure_object, holds_object.
  destruct (_ || _) eqn:E.
  - apply orb_true_iff in E. rewrite !Z.eqb_eq in E.
    destruct (st_size s =? 0) eqn:E0; cbn [negb]; reflect_bool; [naive_solver|].
    case_if; naive_solver lia.
  - apply orb_false_iff in E. rewrite !Z.eqb_neq in E. naive_solver.
Qed.

(** The image names [l] as the sixteen bytes [skip] bytes into the object
    [name] it exports. *)
Record names_uuid (data : bytes) (elf : Elf) (name : string) (skip : Z) (l : bytes) : Prop := {
  nu_magic : take 4 data = elf_magic;
  nu_parse : Elf_parse data = Some elf;
  nu_target : optee_target elf;
  nu_symbol : exists s, first_export elf name s /\ holds_object s (skip + TEE_UUID_SIZE) /\
    st_value s + skip + TEE_UUID_SIZE < 2 ^ 64 /\
    image_bytes (loads elf) data (st_value s + skip) TEE_UUID_SIZE l;
}.

(** The fields of what the parser gives are in range. *)
Definition elf_wf (elf : Elf) : Prop :=
  Forall ph_wf (loads elf) /\ Forall (fun s => in_u 64 (st_value s)) (dynsyms elf).

Lemma first_export_value elf name s : elf_wf elf -> first_export elf name s -> in_u 64 (st_value s).
Proof.
  intros [_ Hs] (pre & post & E & _). rewrite E in Hs.
  by apply Forall_app in Hs as [_ [? _]%Forall_cons_1].
Qed.

Lemma uuid_tail elf data va :
  elf_wf elf -> in_u 64 va -> len data < 2 ^ ptr_bits ->
  exists r, otry (bytes_at_va elf data va TEE_UUID_SIZE) (fun b => Ret (tee_uuid from_bytes_le b))
      = Ret r /\
    (forall u, r = Ok u -> va + TEE_UUID_SIZE < 2 ^ 64 /\ exists l,
       image_bytes (loads elf) data va TEE_UUID_SIZE l /\ u = from_bytes_le l) /\
    (forall l, va + TEE_UUID_SIZE < 2 ^ 64 -> Forall ph_fits (loads elf) ->
       image_bytes (loads elf) data va TEE_UUID_SIZE l -> r = Ok (from_bytes_le l)).
Proof.
  intros [Hwf _] Hva Hlen.
  destruct (bytes_at_va_spec elf data va TEE_UUID_SIZE Hva ltac:(done) Hlen Hwf)
    as (r & E & Hs & Hc). rewrite E.
  assert (forall l, image_bytes (loads elf) data va TEE_UUID_SIZE l ->
            tee_uuid from_bytes_le l = Ok (from_bytes_le l)) as Ht.
  { intros l Hl. unfold tee_uuid. by rewrite (image_len _ _ _ TEE_UUID_SIZE _ ltac:(done) Hwf Hl). }
  destruct r as [l|e]; cbn [otry]; eexists; (split; [reflexivity|]); split.
  - intros u Hu. destruct (Hs l eq_refl) as [Hfin Hl]. rewrite (Ht l Hl) in Hu.
    injection Hu as <-. split; [done|by exists l].
  - intros l' Hfin Hf Hl'. specialize (Hc l' Hfin Hf Hl'). injection Hc as ->. by apply Ht.
  - done.
  - intros l' Hfin Hf Hl'. by specialize (Hc l' Hfin Hf Hl').
Qed.

Lemma otry_Ret {A B E} (m : result A E) (f : A -> outcome (result B E)) :
  otry (Ret m) f = match m with Ok a => f a | Err e => Ret (Err e) end.
Proof. by destruct m. Qed.

(** What both readers promise: an answer in every case, only a UUID that the
    image names, and that UUID when no segment wraps around. *)
Definition reads_uuid (data : bytes) (name : string) (skip : Elf -> Z)
    (o : outcome (result Uuid ElfError)) : Prop :=
  exists r, o = Ret r /\
    (forall u, r = Ok u -> exists elf l, names_uuid data elf name (skip elf) l /\
       u = from_bytes_le l) /\
    (forall elf l, names_uuid data elf name (skip elf) l -> Forall ph_fits (loads elf) ->
       r = Ok (from_bytes_le l)).

Lemma reads_uuid_err data name skip e :
  (forall elf l, ~ names_uuid data elf name (skip elf) l) ->
  reads_uuid data name skip (Ret (Err e)).
Proof. intros Hn. exists (Err e). split; [done|]. split; [done|]. intros elf l Hl. by destruct (Hn elf l). Qed.

(** The steps both readers share: parse, find the symbol, check the object. *)
Lemma reads_uuid_steps data name skip k :
  (forall elf, Elf_parse data = Some elf -> elf_wf elf) -> len data < 2 ^ ptr_bits ->
  (forall elf s, elf_wf elf -> in_u 64 (st_value s) ->
     (st_value s + skip elf + TEE_UUID_SIZE < 2 ^ 64 ->
      k elf s = otry (bytes_at_va elf data (st_value s + skip elf) TEE_UUID_SIZE)
                  (fun b => Ret (tee_uuid from_bytes_le b))) /\
     (2 ^ 64 <= st_value s + skip elf + TEE_UUID_SIZE -> exists e, k elf s = Ret (Err e))) ->
  (forall elf, 0 <= skip elf) ->
  reads_uuid data name skip
    (otry (Ret (parse_optee_elf Elf_parse data)) (fun elf =>
     otry (Ret (symbol_or_error elf name)) (fun s =>
     otry (Ret (ensure_object name s (skip elf + TEE_UUID_SIZE))) (fun _ => k elf s)))).
Proof.
  intros Hwf Hlen Hk Hskip. rewrite otry_Ret.
  destruct (parse_optee_elf Elf_parse data) as [elf|e] eqn:Ep.
  2: { apply reads_uuid_err. intros elf l [Hm Hp Ht _].
       assert (parse_optee_elf Elf_parse data = Ok elf) by (by apply parse_ok). congruence. }
  apply parse_ok in Ep as (Hm & Hp & Ht). pose proof (Hwf elf Hp) as Hw. rewrite otry_Ret.
  destruct (symbol_or_error elf name) as [s|e] eqn:Es.
  2: { apply reads_uuid_err. intros elf' l [_ Hp' _ (s & Hs & _)]. assert (elf' = elf) as -> by congruence.
       apply symbol_ok in Hs. congruence. }
  apply symbol_ok in Es. pose proof (first_export_value _ _ _ Hw Es) as Hv. rewrite otry_Ret.
  assert (forall l, names_uuid data elf name (skip elf) l ->
    holds_object s (skip elf + TEE_UUID_SIZE) /\ st_value s + skip elf + TEE_UUID_SIZE < 2 ^ 64 /\
    image_bytes (loads elf) data (st_value s + skip elf) TEE_UUID_SIZE l) as Hnu.
  { intros l [_ _ _ (s' & Hs' & ?)]. apply symbol_ok in Hs', Es. by assert (s' = s) as -> by congruence. }
  destruct (ensure_object name s (skip elf + TEE_UUID_SIZE)) as [[]|e] eqn:Eo.
  2: { apply reads_uuid_err. intros elf' l Hn. assert (elf' = elf) as -> by (destruct Hn; congruence).
       destruct (Hnu l Hn) as [Ho _]. apply (ensure_ok name) in Ho. congruence. }
  apply ensure_ok in Eo. destruct (Hk elf s Hw Hv) as [Hgo Hko].
  destruct (Z.lt_ge_cases (st_value s + skip elf + TEE_UUID_SIZE) (2 ^ 64)) as [Hlt|Hge].
  2: { destruct (Hko Hge) as [e ->]. apply reads_uuid_err. intros elf' l Hn.
       assert (elf' = elf) as -> by (destruct Hn; congruence).
       destruct (Hnu l Hn) as (_ & ? & _). lia. }
  rewrite (Hgo Hlt). specialize (Hskip elf). unfold in_u, TEE_UUID_SIZE in *.
  destruct (uuid_tail elf data (st_value s + skip elf) Hw) as (r & E & Hs & Hc);
    [unfold in_u; lia|done|].
  exists r. split; [exact E|]. split.
  - intros u Hu. destruct (Hs u Hu) as (_ & l & Hl & ->). exists elf, l. split; [|done].
    split; try done. by exists s.
  - intros elf' l Hn Hf. assert (elf' = elf) as -> by (destruct Hn; congruence).
    destruct (Hnu l Hn) as (_ & ? & ?). by apply Hc.
Qed.

Lemma bytes_at_va_overflow elf data va size :
  2 ^ 64 <= va + size -> exists e, bytes_at_va elf data va size = Ret (Err e).
Proof. intros Hge. unfold bytes_at_va, checked_add. decide_if. eexists. reflexivity. Qed.

Lemma read_ta_uuid_spec data :
  (forall elf, Elf_parse data = Some elf -> elf_wf elf) -> len data < 2 ^ ptr_bits ->
  reads_uuid data "ta_head" (fun _ => 0) (read_ta_uuid_from_bytes Elf_parse from_bytes_le data).
Proof.
  intros Hwf Hlen. apply (reads_uuid_steps data "ta_head" (fun _ => 0) (fun elf s =>
      otry (bytes_at_va elf data (st_value s) TEE_UUID_SIZE)
        (fun b => Ret (tee_uuid from_bytes_le b)))); try done.
  intros elf s _ Hv. rewrite Z.add_0_r. split; [done|]. intros Hge.
  destruct (bytes_at_va_overflow elf data _ _ Hge) as [e E]. exists e. by rewrite E.
Qed.

Lemma read_plugin_uuid_spec data :
  (forall elf, Elf_parse data = Some elf -> elf_wf elf) -> len data < 2 ^ ptr_bits ->
  reads_uuid data "plugin_method" pointer_width
    (read_plugin_uuid_from_bytes Elf_parse from_bytes_le data).
Proof.
  intros Hwf Hlen. apply (reads_uuid_steps data "plugin_method" pointer_width (fun elf s =>
      otry (Ret (ok_or (checked_add 64 (st_value s) (pointer_width elf))
                       (ElfError.AddressOverflow (st_value s)))) (fun va =>
      otry (bytes_at_va elf data va TEE_UUID_SIZE)
        (fun b => Ret (tee_uuid from_bytes_le b))))); try done.
  - intros elf s _ Hv. rewrite otry_Ret. unfold checked_add.
    destruct (st_value s + pointer_width elf <? 2 ^ 64) eqn:E; reflect_bool; cbn [ok_or].
    + split; [done|]. intros Hge.
      destruct (bytes_at_va_overflow elf data _ _ Hge) as [e Ee]. exists e. by rewrite Ee.
    + unfold TEE_UUID_SIZE. split; [lia|]. intros _. by eexists.
  - intros elf. unfold pointer_width. by destruct (is_64 elf).
Qed.

(** C36: [cargo optee] reads the UUID of a TA and of a plugin as the loader of
    the device would: on every file the readers answer (no arithmetic of theirs
    overflows or panics), a UUID is the sixteen bytes that the first exported
    [ta_head] object (for a plugin, the [plugin_method] object after its leading
    pointer) has in the mapped image, of an OP-TEE target only; and on an image
    whose segments do not wrap around the address space that UUID is found. *)
Theorem read_uuid_correct data :
  (forall elf, Elf_parse data = Some elf -> elf_wf elf) -> len data < 2 ^ ptr_bits ->
  reads_uuid data "ta_head" (fun _ => 0) (read_ta_uuid_from_bytes Elf_parse from_bytes_le data) /\
  reads_uuid data "plugin_method" pointer_width
    (read_plugin_uuid_from_bytes Elf_parse from_bytes_le data).
Proof.
  intros Hwf Hlen. split; [by apply read_ta_uuid_spec|by apply read_plugin_uuid_spec].
Qed.

End Uuid_lemmas.

(** ** Witness: an image with one segment *)

Module ElfExamples.

#[local] Instance elf_target : Target := 64.
#[local] Instance elf_profile : Profile := true.

Definition ta_head_name (n : Z) : option string := if n =? 1 then Some "ta_head"%string else None.

(** The segment maps the file from offset 4 to address 0x10000. *)
Definition elf : Elf :=
  mkElf true ET_DYN EM_AARCH64 ELFCLASS64 true [mkPh PT_LOAD 4 0x10000 32 64]
    [mkSym 0 0 0 0 0 0; mkSym 1 STB_GLOBAL STT_OBJECT 1 0x10002 48] ta_head_name [] (fun _ => None).

Definition file : bytes := elf_magic ++ [0; 0] ++ map Z.of_nat (seq 1 30).

Lemma read_uuid_correct_witness :
  exists r, read_ta_uuid_from_bytes (fun _ => Some elf) (fun b => b) file = Ret r /\
    r = Ok (map Z.of_nat (seq 1 16)).
Proof.
  destruct (read_uuid_correct (fun _ => Some elf) (fun b => b) file)
    as [(r & E & _ & Hc) _].
  - intros e [= <-]. split; repeat constructor; by vm_compute.
  - done.
  - exists r. split; [exact E|]. apply (Hc elf).
    + split; [done|done|by split; [|split; [|left]]|].
      exists (mkSym 1 STB_GLOBAL STT_OBJECT 1 0x10002 48). split_and!; [| |done|].
      * exists [mkSym 0 0 0 0 0 0], []. split; [done|]. split; [by repeat constructor|done].
      * split; [by left|by right].
      * split. exists [], (mkPh PT_LOAD 4 0x10000 32 64), []. split_and!; done.
    + by repeat constructor.
Defined.

End ElfExamples.
