(* ===== verification/Crypto.v ===== *)
(** * Crypto: cryptographic operations

    Models [crates/optee-utee/src/crypto_op.rs].  The TEE's operations are an
    interface, [TeeCrypto], whose observable part is the set of operations the
    TEE holds; the TEE panics the TA on a programming error, so its calls can
    panic.  An [OperationHandle] is a raw pointer to a box that holds the TEE's
    handle: it is an address in a heap of boxes, and the null handle has address
    0.  [Digest], [Cipher], [Mac], [AE], [Asymmetric] and [DeriveKey] are structs
    around an [OperationHandle]; their methods take it. *)

From S2P Require Import Prelude TeeDefines UteeError EntryPoints.

(** ** Enumerations *)

Module OperationMode.

Inductive OperationMode : Type :=
| Encrypt
| Decrypt
| Sign
| Verify
| Mac
| Digest
| Derive
| IllegalValue.

Definition as_u32 (x : OperationMode) : Z :=
  match x with
  | Encrypt => 0
  | Decrypt => 1
  | Sign => 2
  | Verify => 3
  | Mac => 4
  | Digest => 5
  | Derive => 6
  | IllegalValue => 0x7fffffff
  end.

End OperationMode.

Abbreviation OperationMode := OperationMode.OperationMode.

Module OperationStates.

Inductive OperationStates : Type :=
| Initial
| Active.

Definition as_u32 (x : OperationStates) : Z :=
  match x with
  | Initial => 0x00000000
  | Active => 0x00000001
  end.

End OperationStates.

Abbreviation OperationStates := OperationStates.OperationStates.

Module OperationConstant.

Inductive OperationConstant : Type :=
| Cipher
| Mac
| Ae
| Digest
| AsymmetricCipher
| AsymmetricSignature
| KeyDerivation.

Definition as_u32 (x : OperationConstant) : Z :=
  match x with
  | Cipher => 1
  | Mac => 3
  | Ae => 4
  | Digest => 5
  | AsymmetricCipher => 6
  | AsymmetricSignature => 7
  | KeyDerivation => 8
  end.

End OperationConstant.

Abbreviation OperationConstant := OperationConstant.OperationConstant.

Module AlgorithmId.

Inductive AlgorithmId : Type :=
| AesEcbNopad
| AesCbcNopad
| AesCtr
| AesCts
| AesXts
| AesCbcMacNopad
| AesCbcMacPkcs5
| AesCmac
| AesCcm
| AesGcm
| DesEcbNopad
| DesCbcNopad
| DesCbcMacNopad
| DesCbcMacPkcs5
| Des3EcbNopad
| Des3CbcNopad
| Des3CbcMacNopad
| Des3CbcMacPkcs5
| RsassaPkcs1V15
| RsassaPkcs1V15MD5
| RsassaPkcs1V15Sha1
| RsassaPkcs1V15Sha224
| RsassaPkcs1V15Sha256
| RsassaPkcs1V15Sha384
| RsassaPkcs1V15Sha512
| RsassaPkcs1V15MD5Sha1
| RsassaPkcs1PssMgf1MD5
| RsassaPkcs1PssMgf1Sha1
| RsassaPkcs1PssMgf1Sha224
| RsassaPkcs1PssMgf1Sha256
| RsassaPkcs1PssMgf1Sha384
| RsassaPkcs1PssMgf1Sha512
| RsaesPkcs1V15
| RsaesPkcs1OAepMgf1MD5
| RsaesPkcs1OAepMgf1Sha1
| RsaesPkcs1OAepMgf1Sha224
| RsaesPkcs1OAepMgf1Sha256
| RsaesPkcs1OAepMgf1Sha384
| RsaesPkcs1OAepMgf1Sha512
| RsaNopad
| DSASha1
| DSASha224
| DSASha256
| DhDeriveSharedSecret
| EcDhDeriveSharedSecret
| Pbkdf2HmacSha1
| Pbkdf2HmacSha224
| Pbkdf2HmacSha256
| Pbkdf2HmacSha384
| Pbkdf2HmacSha512
| Pbkdf2HmacSm3
| EcDsaSha1
| EcDsaSha224
| EcDsaSha256
| EcDsaSha384
| EcDsaSha512
| Ed25519
| X25519
| Md5
| Sha1
| Sha224
| Sha256
| Sha384
| Sha512
| Md5Sha1
| HmacMd5
| HmacSha1
| HmacSha224
| HmacSha256
| HmacSha384
| HmacSha512
| IllegalValue.

Definition as_u32 (x : AlgorithmId) : Z :=
  match x with
  | AesEcbNopad => 0x10000010
  | AesCbcNopad => 0x10000110
  | AesCtr => 0x10000210
  | AesCts => 0x10000310
  | AesXts => 0x10000410
  | AesCbcMacNopad => 0x30000110
  | AesCbcMacPkcs5 => 0x30000510
  | AesCmac => 0x30000610
  | AesCcm => 0x40000710
  | AesGcm => 0x40000810
  | DesEcbNopad => 0x10000011
  | DesCbcNopad => 0x10000111
  | DesCbcMacNopad => 0x30000111
  | DesCbcMacPkcs5 => 0x30000511
  | Des3EcbNopad => 0x10000013
  | Des3CbcNopad => 0x10000113
  | Des3CbcMacNopad => 0x30000113
  | Des3CbcMacPkcs5 => 0x30000513
  | RsassaPkcs1V15 => 0xF0000830
  | RsassaPkcs1V15MD5 => 0x70001830
  | RsassaPkcs1V15Sha1 => 0x70002830
  | RsassaPkcs1V15Sha224 => 0x70003830
  | RsassaPkcs1V15Sha256 => 0x70004830
  | RsassaPkcs1V15Sha384 => 0x70005830
  | RsassaPkcs1V15Sha512 => 0x70006830
  | RsassaPkcs1V15MD5Sha1 => 0x7000F830
  | RsassaPkcs1PssMgf1MD5 => 0xF0111930
  | RsassaPkcs1PssMgf1Sha1 => 0x70212930
  | RsassaPkcs1PssMgf1Sha224 => 0x70313930
  | RsassaPkcs1PssMgf1Sha256 => 0x70414930
  | RsassaPkcs1PssMgf1Sha384 => 0x70515930
  | RsassaPkcs1PssMgf1Sha512 => 0x70616930
  | RsaesPkcs1V15 => 0x60000130
  | RsaesPkcs1OAepMgf1MD5 => 0xF0110230
  | RsaesPkcs1OAepMgf1Sha1 => 0x60210230
  | RsaesPkcs1OAepMgf1Sha224 => 0x60310230
  | RsaesPkcs1OAepMgf1Sha256 => 0x60410230
  | RsaesPkcs1OAepMgf1Sha384 => 0x60510230
  | RsaesPkcs1OAepMgf1Sha512 => 0x60610230
  | RsaNopad => 0x60000030
  | DSASha1 => 0x70002131
  | DSASha224 => 0x70003131
  | DSASha256 => 0x70004131
  | DhDeriveSharedSecret => 0x80000032
  | EcDhDeriveSharedSecret => 0x80000042
  | Pbkdf2HmacSha1 => 0x800020C2
  | Pbkdf2HmacSha224 => 0x800030C2
  | Pbkdf2HmacSha256 => 0x800040C2
  | Pbkdf2HmacSha384 => 0x800050C2
  | Pbkdf2HmacSha512 => 0x800060C2
  | Pbkdf2HmacSm3 => 0x800070C2
  | EcDsaSha1 => 0x70001042
  | EcDsaSha224 => 0x70002042
  | EcDsaSha256 => 0x70003042
  | EcDsaSha384 => 0x70004042
  | EcDsaSha512 => 0x70005042
  | Ed25519 => 0x70006043
  | X25519 => 0x80000044
  | Md5 => 0x50000001
  | Sha1 => 0x50000002
  | Sha224 => 0x50000003
  | Sha256 => 0x50000004
  | Sha384 => 0x50000005
  | Sha512 => 0x50000006
  | Md5Sha1 => 0x5000000F
  | HmacMd5 => 0x30000001
  | HmacSha1 => 0x30000002
  | HmacSha224 => 0x30000003
  | HmacSha256 => 0x30000004
  | HmacSha384 => 0x30000005
  | HmacSha512 => 0x30000006
  | IllegalValue => 0xefffffff
  end.

End AlgorithmId.

Abbreviation AlgorithmId := AlgorithmId.AlgorithmId.

Module ElementId.

Inductive ElementId : Type :=
| ElementNone
| EccCurveNistP192
| EccCurveNistP224
| EccCurveNistP256
| EccCurveNistP384
| EccCurveNistP521
| EccCurve25519.

Definition as_u32 (x : ElementId) : Z :=
  match x with
  | ElementNone => 0x00000000
  | EccCurveNistP192 => 0x00000001
  | EccCurveNistP224 => 0x00000002
  | EccCurveNistP256 => 0x00000003
  | EccCurveNistP384 => 0x00000004
  | EccCurveNistP521 => 0x00000005
  | EccCurve25519 => 0x00000300
  end.

End ElementId.

Abbreviation ElementId := ElementId.ElementId.

(** ** [OperationInfo] and [OperationInfoMultiple] *)

Record TEE_OperationInfo : Type := mkRawInfo {
  algorithm : Z; operationClass : Z; mode : Z; digestLength : Z;
  maxKeySize : Z; keySize : Z; requiredKeyUsage : Z; handleState : Z;
}.

Record OperationInfo : Type := mkInfo { info_raw : TEE_OperationInfo }.
Definition key_size (self : OperationInfo) : Z := keySize (info_raw self).
Definition max_key_size (self : OperationInfo) : Z := maxKeySize (info_raw self).

(** A pointer to the buffer the TEE filled, here its contents, and a size. *)
Record OperationInfoMultiple : Type := mkInfoMultiple { im_raw : bytes; im_size : Z }.

(** A raw attribute: the identifier and the two words of its union. *)
Record TEE_Attribute : Type := mkAttribute { attributeID : Z; attr_word0 : Z; attr_word1 : Z }.

(** ** The TEE's operations *)

(** The answer of a call with one output buffer: the code, the size written
    through the size pointer, the buffer after the call.  The size pointer is an
    in/out argument: a call takes the bytes behind the buffer's pointer and the size
    that the method stored behind the size pointer, which bounds what the TEE writes. *)
Record out_answer : Type := mkOut { oa_code : Z; oa_size : Z; oa_buf : bytes }.

Class TeeCrypto (St : Type) : Type := {
  TEE_AllocateOperation : Z -> Z -> Z -> prog St (Z * Z);
  TEE_FreeOperation : Z -> prog St unit;
  TEE_GetOperationInfo : Z -> prog St TEE_OperationInfo;
  TEE_GetOperationInfoMultiple : Z -> bytes -> Z -> prog St out_answer;
  TEE_ResetOperation : Z -> prog St unit;
  TEE_SetOperationKey : Z -> Z -> prog St Z;
  TEE_SetOperationKey2 : Z -> Z -> Z -> prog St Z;
  TEE_CopyOperation : Z -> Z -> prog St unit;
  TEE_IsAlgorithmSupported : Z -> Z -> prog St Z;
  TEE_DigestUpdate : Z -> bytes -> prog St unit;
  TEE_DigestDoFinal : Z -> bytes -> bytes -> Z -> prog St out_answer;
  TEE_CipherInit : Z -> bytes -> prog St unit;
  TEE_CipherUpdate : Z -> bytes -> bytes -> Z -> prog St out_answer;
  TEE_CipherDoFinal : Z -> bytes -> bytes -> Z -> prog St out_answer;
  TEE_MACInit : Z -> bytes -> prog St unit;
  TEE_MACUpdate : Z -> bytes -> prog St unit;
  TEE_MACComputeFinal : Z -> bytes -> bytes -> Z -> prog St out_answer;
  TEE_MACCompareFinal : Z -> bytes -> bytes -> prog St Z;
  TEE_AEInit : Z -> bytes -> Z -> Z -> Z -> prog St Z;
  TEE_AEUpdateAAD : Z -> bytes -> prog St unit;
  TEE_AEUpdate : Z -> bytes -> bytes -> Z -> prog St out_answer;
  TEE_AEEncryptFinal : Z -> bytes -> bytes -> Z -> bytes -> Z -> prog St (out_answer * (Z * bytes));
  TEE_AEDecryptFinal : Z -> bytes -> bytes -> Z -> bytes -> prog St out_answer;
  TEE_AsymmetricEncrypt : Z -> list TEE_Attribute -> bytes -> bytes -> Z -> prog St out_answer;
  TEE_AsymmetricDecrypt : Z -> list TEE_Attribute -> bytes -> bytes -> Z -> prog St out_answer;
  TEE_AsymmetricSignDigest : Z -> list TEE_Attribute -> bytes -> bytes -> Z -> prog St out_answer;
  TEE_AsymmetricVerifyDigest : Z -> list TEE_Attribute -> bytes -> bytes -> prog St Z;
  TEE_DeriveKey : Z -> list TEE_Attribute -> Z -> prog St unit;
  operations : St -> gset Z;
}.

(** ** [OperationHandle] *)

(** The boxes that hold the TEE's handles. *)
Record cstate (St : Type) : Type := mkCstate { tee : St; handle_boxes : gmap Z Z }.
Arguments mkCstate {St} tee handle_boxes.
Arguments tee {St} c.
Arguments handle_boxes {St} c.

Record OperationHandle : Type := mkHandle { oph_raw : Z }.

Module OperationHandleOps.
Section Ops.
Context `{!Target, !Allocator} {St : Type} `{!TeeCrypto St}.

Definition call {A} (m : prog St A) : prog (cstate St) A :=
  fun s => match m (tee s) with
           | Ret (a, t') => Ret (a, mkCstate t' (handle_boxes s))
           | Panic => Panic
           | UB => UB
           end.

Definition null : OperationHandle := mkHandle 0.

(** [*self.raw]: a null or dangling pointer is undefined behaviour. *)
Definition handle (self : OperationHandle) : prog (cstate St) Z :=
  fun s => match handle_boxes s !! oph_raw self with Some h => Ret (h, s) | None => UB end.

(** [Box::into_raw(Box::new(ptr::null_mut()))]. *)
Definition box_new : prog (cstate St) Z :=
  fun s => let p := alloc_addr (dom (handle_boxes s)) in
           Ret (p, mkCstate (tee s) (<[p := 0]> (handle_boxes s))).

(** The TEE writes the handle into the box. *)
Definition box_set (p h : Z) : prog (cstate St) unit :=
  fun s => Ret (tt, mkCstate (tee s) (<[p := h]> (handle_boxes s))).

(** [drop(Box::from_raw(p))]. *)
Definition box_free (p : Z) : prog (cstate St) unit :=
  fun s => match handle_boxes s !! p with
           | Some _ => Ret (tt, mkCstate (tee s) (delete p (handle_boxes s)))
           | None => UB
           end.

(** On the early return the box is not reclaimed. *)
Definition allocate (algo : AlgorithmId) (m : OperationMode) (max : Z)
    : prog (cstate St) (Result OperationHandle) :=
  let* raw_handle := box_new in
  let* (code, h) := call (TEE_AllocateOperation (AlgorithmId.as_u32 algo) (OperationMode.as_u32 m)
                            (wrap_u 32 max)) in
  let* _ := box_set raw_handle h in
  let? _ := pret (tee_check code) in
  pret (Ok (mkHandle raw_handle)).

Definition info (self : OperationHandle) : prog (cstate St) OperationInfo :=
  let* h := handle self in
  let* i := call (TEE_GetOperationInfo h) in
  pret (mkInfo i).

(** The size passed to the TEE is 0.  The result, and the buffer after the
    call. *)
Definition info_multiple (self : OperationHandle) (info_buf : bytes)
    : prog (cstate St) (Result OperationInfoMultiple * bytes) :=
  let* h := handle self in
  let* a := call (TEE_GetOperationInfoMultiple h info_buf 0) in
  pret (match tee_check (oa_code a) with
        | Ok _ => Ok (mkInfoMultiple (oa_buf a) (oa_size a))
        | Err e => Err e
        end, oa_buf a).

Definition reset (self : OperationHandle) : prog (cstate St) unit :=
  let* h := handle self in call (TEE_ResetOperation h).

(** Objects are passed by their raw handle. *)
Definition set_key (self : OperationHandle) (object : Z) : prog (cstate St) (Result unit) :=
  let* h := handle self in
  let* code := call (TEE_SetOperationKey h object) in
  pret (tee_check code).

Definition set_key_2 (self : OperationHandle) (object1 object2 : Z)
    : prog (cstate St) (Result unit) :=
  let* h := handle self in
  let* code := call (TEE_SetOperationKey2 h object1 object2) in
  pret (tee_check code).

Definition copy (self src : OperationHandle) : prog (cstate St) unit :=
  let* h := handle self in
  let* h' := handle src in
  call (TEE_CopyOperation h h').

(** [impl Drop for OperationHandle]. *)
Definition drop_handle (self : OperationHandle) : prog (cstate St) unit :=
  let* _ := (if negb (oph_raw self =? 0) then
               let* h := handle self in call (TEE_FreeOperation h)
             else pret tt) in
  box_free (oph_raw self).

Definition is_algorithm_supported (alg_id element : Z) : prog (cstate St) (Result unit) :=
  let* code := call (TEE_IsAlgorithmSupported alg_id element) in
  pret (tee_check code).

(** What the methods with an output slice share: [let mut size = dest.len()], the
    call on the handle with the slice and the size, and the size or the error as the
    result, with the slice after the call. *)
Definition sized (a : out_answer) : Result Z * bytes :=
  (match tee_check (oa_code a) with Ok _ => Ok (oa_size a) | Err e => Err e end, oa_buf a).

Definition with_output (self : OperationHandle) (dest : bytes)
    (f : Z -> bytes -> Z -> prog St out_answer) : prog (cstate St) (Result Z * bytes) :=
  let size := len dest in
  let* h := handle self in
  let* a := call (f h dest size) in
  pret (sized a).

Definition with_input (self : OperationHandle) (f : Z -> prog St unit) : prog (cstate St) unit :=
  let* h := handle self in call (f h).

End Ops.
End OperationHandleOps.

(** ** The six kinds of operation *)

Import OperationHandleOps.

Module Digest.
Section Ops.
Context `{!Target, !Allocator} {St : Type} `{!TeeCrypto St}.
Definition update (self : OperationHandle) (chunk : bytes) : prog (cstate St) unit :=
  with_input self (fun h => TEE_DigestUpdate h chunk).
Definition do_final (self : OperationHandle) (chunk hash : bytes)
    : prog (cstate St) (Result Z * bytes) :=
  with_output self hash (fun h => TEE_DigestDoFinal h chunk).
Definition allocate (algo : AlgorithmId) : prog (cstate St) (Result OperationHandle) :=
  OperationHandleOps.allocate algo OperationMode.Digest 0.
End Ops.
End Digest.

Module Cipher.
Section Ops.
Context `{!Target, !Allocator} {St : Type} `{!TeeCrypto St}.
Definition init (self : OperationHandle) (iv : bytes) : prog (cstate St) unit :=
  with_input self (fun h => TEE_CipherInit h iv).
Definition update (self : OperationHandle) (src dest : bytes)
    : prog (cstate St) (Result Z * bytes) :=
  with_output self dest (fun h => TEE_CipherUpdate h src).
Definition do_final (self : OperationHandle) (src dest : bytes)
    : prog (cstate St) (Result Z * bytes) :=
  with_output self dest (fun h => TEE_CipherDoFinal h src).
Definition allocate (algo : AlgorithmId) (m : OperationMode) (max : Z)
    : prog (cstate St) (Result OperationHandle) := OperationHandleOps.allocate algo m max.
End Ops.
End Cipher.

Module Mac.
Section Ops.
Context `{!Target, !Allocator} {St : Type} `{!TeeCrypto St}.
Definition init (self : OperationHandle) (iv : bytes) : prog (cstate St) unit :=
  with_input self (fun h => TEE_MACInit h iv).
Definition update (self : OperationHandle) (chunk : bytes) : prog (cstate St) unit :=
  with_input self (fun h => TEE_MACUpdate h chunk).
Definition compute_final (self : OperationHandle) (message mac : bytes)
    : prog (cstate St) (Result Z * bytes) :=
  with_output self mac (fun h => TEE_MACComputeFinal h message).
Definition compare_final (self : OperationHandle) (message mac : bytes)
    : prog (cstate St) (Result unit) :=
  let* h := handle self in
  let* code := call (TEE_MACCompareFinal h message mac) in
  pret (tee_check code).
Definition allocate (algo : AlgorithmId) (max : Z) : prog (cstate St) (Result OperationHandle) :=
  OperationHandleOps.allocate algo OperationMode.Mac max.
End Ops.
End Mac.

Module AE.
Section Ops.
Context `{!Target, !Allocator} {St : Type} `{!TeeCrypto St}.
Definition init (self : OperationHandle) (nonce : bytes) (tag_len aad_len pay_load_len : Z)
    : prog (cstate St) (Result unit) :=
  let* h := handle self in
  let* code := call (TEE_AEInit h nonce (wrap_u 32 tag_len) aad_len pay_load_len) in
  pret (tee_check code).
Definition update_aad (self : OperationHandle) (aad_data : bytes) : prog (cstate St) unit :=
  with_input self (fun h => TEE_AEUpdateAAD h aad_data).
Definition update (self : OperationHandle) (src dest : bytes)
    : prog (cstate St) (Result Z * bytes) :=
  with_output self dest (fun h => TEE_AEUpdate h src).
(** The sizes of data and tag, and both slices after the call. *)
Definition encrypt_final (self : OperationHandle) (src dest tag : bytes)
    : prog (cstate St) (Result (Z * Z) * (bytes * bytes)) :=
  let dest_size := len dest in
  let tag_size := len tag in
  let* h := handle self in
  let* (a, (tag_size, tag')) := call (TEE_AEEncryptFinal h src dest dest_size tag tag_size) in
  pret (match tee_check (oa_code a) with
        | Ok _ => Ok (oa_size a, tag_size)
        | Err e => Err e
        end, (oa_buf a, tag')).
Definition decrypt_final (self : OperationHandle) (src dest tag : bytes)
    : prog (cstate St) (Result Z * bytes) :=
  with_output self dest (fun h dest size => TEE_AEDecryptFinal h src dest size tag).
Definition allocate (algo : AlgorithmId) (m : OperationMode) (max : Z)
    : prog (cstate St) (Result OperationHandle) := OperationHandleOps.allocate algo m max.
End Ops.
End AE.

Module Asymmetric.
Section Ops.
Context `{!Target, !Allocator} {St : Type} `{!TeeCrypto St}.

(** [encrypt] and [decrypt] differ in the TEE's call: the result vector has as
    many bytes as the key has bits, its length is the size passed, and it is truncated
    to the reported size. *)
Definition crypt (f : Z -> list TEE_Attribute -> bytes -> bytes -> Z -> prog St out_answer)
    (self : OperationHandle) (params : list TEE_Attribute) (src : bytes)
    : prog (cstate St) (Result bytes) :=
  let* i := info self in
  let res_size := key_size i in
  let* res_vec := plift (if res_size <? 2 ^ (ptr_bits - 1) then Ret (zeros res_size) else Panic) in
  let* h := handle self in
  let* a := call (f h params src res_vec res_size) in
  let? _ := pret (tee_check (oa_code a)) in
  pret (Ok (take (Z.to_nat (oa_size a)) (oa_buf a))).

Definition encrypt : OperationHandle -> list TEE_Attribute -> bytes ->
    prog (cstate St) (Result bytes) := crypt TEE_AsymmetricEncrypt.
Definition decrypt : OperationHandle -> list TEE_Attribute -> bytes ->
    prog (cstate St) (Result bytes) := crypt TEE_AsymmetricDecrypt.

Definition sign_digest (self : OperationHandle) (params : list TEE_Attribute)
    (digest signature : bytes) : prog (cstate St) (Result Z * bytes) :=
  with_output self signature (fun h => TEE_AsymmetricSignDigest h params digest).
Definition verify_digest (self : OperationHandle) (params : list TEE_Attribute)
    (digest signature : bytes) : prog (cstate St) (Result unit) :=
  let* h := handle self in
  let* code := call (TEE_AsymmetricVerifyDigest h params digest signature) in
  pret (tee_check code).
Definition allocate (algo : AlgorithmId) (m : OperationMode) (max : Z)
    : prog (cstate St) (Result OperationHandle) := OperationHandleOps.allocate algo m max.
End Ops.
End Asymmetric.

Module DeriveKey.
Section Ops.
Context `{!Target, !Allocator} {St : Type} `{!TeeCrypto St}.
Definition derive (self : OperationHandle) (params : list TEE_Attribute) (object : Z)
    : prog (cstate St) unit :=
  let* h := handle self in call (TEE_DeriveKey h params object).
Definition allocate (algo : AlgorithmId) (max : Z) : prog (cstate St) (Result OperationHandle) :=
  OperationHandleOps.allocate algo OperationMode.Derive max.
End Ops.
End DeriveKey.

(** [TEE_GenerateRandom] writes as many bytes as it is asked for. *)
Class TeeRandom (St : Type) : Type := TEE_GenerateRandom : Z -> prog St bytes.

Module Random.
(** The slice is filled. *)
Definition generate {St : Type} `{!TeeRandom St} (res_buffer : bytes) : prog St bytes :=
  TEE_GenerateRandom (len res_buffer).
End Random.
