(* ===== verification/CryptoSpec.v ===== *)
(** * CryptoSpec: operations are freed exactly once, outputs stay in their
    buffers, and what a null handle does *)

From S2P Require Import Prelude TeeDefines UteeError EntryPoints Crypto.
Import OperationHandleOps.

(** ** Documented behaviour of the TEE's operations *)

(** The calls on one operation handle that neither allocate nor free. *)
Inductive on_handle {St} `{!TeeCrypto St} (h : Z) : forall {A}, prog St A -> Prop :=
| oh_info : on_handle h (TEE_GetOperationInfo h)
| oh_info_multiple buf n : on_handle h (TEE_GetOperationInfoMultiple h buf n)
| oh_reset : on_handle h (TEE_ResetOperation h)
| oh_set_key o : on_handle h (TEE_SetOperationKey h o)
| oh_set_key2 o o' : on_handle h (TEE_SetOperationKey2 h o o')
| oh_digest_update l : on_handle h (TEE_DigestUpdate h l)
| oh_cipher_init l : on_handle h (TEE_CipherInit h l)
| oh_mac_init l : on_handle h (TEE_MACInit h l)
| oh_mac_update l : on_handle h (TEE_MACUpdate h l)
| oh_mac_compare l l' : on_handle h (TEE_MACCompareFinal h l l')
| oh_ae_init l a b c : on_handle h (TEE_AEInit h l a b c)
| oh_ae_aad l : on_handle h (TEE_AEUpdateAAD h l)
| oh_ae_encrypt l d n t k :
    0 <= n <= len d -> 0 <= k <= len t -> on_handle h (TEE_AEEncryptFinal h l d n t k)
| oh_verify ps l l' : on_handle h (TEE_AsymmetricVerifyDigest h ps l l')
| oh_derive ps o : on_handle h (TEE_DeriveKey h ps o).

(** Those with one output buffer, and what else they are given. *)
Inductive output : Type :=
| ODigest (l : bytes) | OCipherUpdate (l : bytes) | OCipherFinal (l : bytes) | OMac (l : bytes)
| OAeUpdate (l : bytes) | OAeDecrypt (l t : bytes) | OSign (ps : list TEE_Attribute) (l : bytes)
| OEncrypt (ps : list TEE_Attribute) (l : bytes) | ODecrypt (ps : list TEE_Attribute) (l : bytes).

(** The call, with the buffer and the size behind the size pointer. *)
Definition tee_output {St} `{!TeeCrypto St} (u : output) (h : Z) (dest : bytes) (size : Z)
    : prog St out_answer :=
  match u with
  | ODigest l => TEE_DigestDoFinal h l dest size
  | OCipherUpdate l => TEE_CipherUpdate h l dest size
  | OCipherFinal l => TEE_CipherDoFinal h l dest size
  | OMac l => TEE_MACComputeFinal h l dest size
  | OAeUpdate l => TEE_AEUpdate h l dest size
  | OAeDecrypt l t => TEE_AEDecryptFinal h l dest size t
  | OSign ps l => TEE_AsymmetricSignDigest h ps l dest size
  | OEncrypt ps l => TEE_AsymmetricEncrypt h ps l dest size
  | ODecrypt ps l => TEE_AsymmetricDecrypt h ps l dest size
  end.

(** The call is defined (it may panic the TA) and keeps the operations. *)
Definition keeps {St} `{!TeeCrypto St} {A} (m : prog St A) (s : St) : Prop :=
  m s <> UB /\ forall a s', m s = Ret (a, s') -> operations s' = operations s.

(** Nothing is required of a call whose size is larger than its buffer: the TEE then
    writes behind it. *)
Class TeeCryptoOk (St : Type) `{TeeCrypto St} : Prop := {
  alloc_op_ok al m n s :
    TEE_AllocateOperation al m n s <> UB /\
    forall code h s', TEE_AllocateOperation al m n s = Ret ((code, h), s') ->
      (code = TEE_SUCCESS -> (h ∉ operations s) /\ operations s' = {[h]} ∪ operations s) /\
      (code <> TEE_SUCCESS -> operations s' = operations s);
  free_op_ok h s :
    h ∈ operations s ->
    exists s', TEE_FreeOperation h s = Ret (tt, s') /\ operations s' = operations s ∖ {[h]};
  on_handle_ok {A} h (m : prog St A) s : on_handle h m -> h ∈ operations s -> keeps m s;
  output_ok u h dest size s :
    0 <= size <= len dest -> h ∈ operations s -> keeps (tee_output u h dest size) s;
  (** A key size is a [u32]. *)
  info_key_size h s i s' : TEE_GetOperationInfo h s = Ret (i, s') -> 0 <= keySize i < 2 ^ 32;
  copy_ok h h' s :
    h ∈ operations s -> h' ∈ operations s -> keeps (TEE_CopyOperation h h') s;
  (** A size smaller than the structure is reported as a short buffer. *)
  info_multiple_short h buf s a s' :
    TEE_GetOperationInfoMultiple h buf 0 s = Ret (a, s') -> oa_code a = TEE_ERROR_SHORT_BUFFER;
}.

(** How many bytes the output of a call takes: it is refused as too long for the buffer
    only when the size given is smaller. *)
Class TeeRoom (St : Type) : Type := {
  room : output -> Z -> St -> Z;
  encrypt_room : bytes -> Z -> St -> Z * Z;
}.

(** What a call that was given a buffer and a size does with them: the bytes from the
    size on are not touched; the size reported is that of the output. *)
Definition answers_in (need : Z) (dest : bytes) (size code reported : Z) (buf : bytes) : Prop :=
  len buf = len dest /\
  drop (Z.to_nat size) buf = drop (Z.to_nat size) dest /\
  (code = TEE_SUCCESS ->
     reported = need /\ 0 <= need <= size /\ drop (Z.to_nat need) buf = drop (Z.to_nat need) dest).

Class TeeRoomOk (St : Type) `{TeeCrypto St, TeeRoom St} : Prop := {
  output_within u h dest size s a s' :
    0 <= size <= len dest -> tee_output u h dest size s = Ret (a, s') ->
    answers_in (room u h s) dest size (oa_code a) (oa_size a) (oa_buf a) /\
    (oa_code a = TEE_ERROR_SHORT_BUFFER -> size < room u h s);
  encrypt_within l h dest n tag k s a m tag' s' :
    0 <= n <= len dest -> 0 <= k <= len tag ->
    TEE_AEEncryptFinal h l dest n tag k s = Ret ((a, (m, tag')), s') ->
    answers_in (encrypt_room l h s).1 dest n (oa_code a) (oa_size a) (oa_buf a) /\
    answers_in (encrypt_room l h s).2 tag k (oa_code a) m tag' /\
    (oa_code a = TEE_ERROR_SHORT_BUFFER ->
       n < (encrypt_room l h s).1 \/ k < (encrypt_room l h s).2);
}.

(** ** Programs of a TA *)

(** One method call on an operation. *)
Inductive use : Type :=
| Info | InfoMultiple (buf : bytes) | Reset | SetKey (o : Z) | SetKey2 (o o' : Z)
| DigestUpdate (l : bytes) | DigestFinal (l d : bytes)
| CipherInit (l : bytes) | CipherUpdate (l d : bytes) | CipherFinal (l d : bytes)
| MacInit (l : bytes) | MacUpdate (l : bytes) | MacCompute (l d : bytes) | MacCompare (l l' : bytes)
| AEInit (l : bytes) (a b c : Z) | AEAad (l : bytes) | AEUpdate (l d : bytes)
| AEEncrypt (l d t : bytes) | AEDecrypt (l d t : bytes)
| Encrypt (ps : list TEE_Attribute) (l : bytes) | Decrypt (ps : list TEE_Attribute) (l : bytes)
| SignDigest (ps : list TEE_Attribute) (l d : bytes)
| VerifyDigest (ps : list TEE_Attribute) (l d : bytes)
| Derive (ps : list TEE_Attribute) (o : Z).

Inductive action : Type :=
| Allocate (al : AlgorithmId) (m : OperationMode) (n : Z)
| Use (k : nat) (u : use)
| Copy (k j : nat)
| Drop (k : nat).

Section Programs.
Context `{!Target, !Allocator} {St : Type} `{!TeeCrypto St}.

(** Run and forget the result. *)
Definition discard {A} (m : prog (cstate St) A) : prog (cstate St) unit := let* _ := m in pret tt.

Definition run_use (u : use) (o : OperationHandle) : prog (cstate St) unit :=
  match u with
  | Info => discard (info o)
  | InfoMultiple buf => discard (info_multiple o buf)
  | Reset => reset o
  | SetKey k => discard (set_key o k)
  | SetKey2 k k' => discard (set_key_2 o k k')
  | DigestUpdate l => Digest.update o l
  | DigestFinal l d => discard (Digest.do_final o l d)
  | CipherInit l => Cipher.init o l
  | CipherUpdate l d => discard (Cipher.update o l d)
  | CipherFinal l d => discard (Cipher.do_final o l d)
  | MacInit l => Mac.init o l
  | MacUpdate l => Mac.update o l
  | MacCompute l d => discard (Mac.compute_final o l d)
  | MacCompare l l' => discard (Mac.compare_final o l l')
  | AEInit l a b c => discard (AE.init o l a b c)
  | AEAad l => AE.update_aad o l
  | AEUpdate l d => discard (AE.update o l d)
  | AEEncrypt l d t => discard (AE.encrypt_final o l d t)
  | AEDecrypt l d t => discard (AE.decrypt_final o l d t)
  | Encrypt ps l => discard (Asymmetric.encrypt o ps l)
  | Decrypt ps l => discard (Asymmetric.decrypt o ps l)
  | SignDigest ps l d => discard (Asymmetric.sign_digest o ps l d)
  | VerifyDigest ps l d => discard (Asymmetric.verify_digest o ps l d)
  | Derive ps k => DeriveKey.derive o ps k
  end.

(** The operations a TA owns, and how many allocations have failed. *)
Definition owned : Type := list OperationHandle * nat.

Definition act (a : action) (o : owned) : prog (cstate St) owned :=
  match a with
  | Allocate al m n =>
      let* r := OperationHandleOps.allocate al m n in
      pret (match r with Ok h => (h :: o.1, o.2) | Err _ => (o.1, S o.2) end)
  | Use k u =>
      match o.1 !! k with Some h => let* _ := run_use u h in pret o | None => pret o end
  | Copy k j =>
      match o.1 !! k, o.1 !! j with
      | Some h, Some h' => let* _ := copy h h' in pret o
      | _, _ => pret o
      end
  | Drop k =>
      match o.1 !! k with
      | Some h => let* _ := drop_handle h in pret (delete k o.1, o.2)
      | None => pret o
      end
  end.

Fixpoint run (acts : list action) (o : owned) : prog (cstate St) owned :=
  match acts with
  | [] => pret o
  | a :: acts' => let* o' := act a o in run acts' o'
  end.

End Programs.

(** ** What every step keeps *)

(** Partial correctness that excludes undefined behaviour. *)
Definition safe {S A} (m : prog S A) (s : S) (Q : A -> S -> Prop) : Prop :=
  m s <> UB /\ forall a s', m s = Ret (a, s') -> Q a s'.

Lemma safe_bind {S A B} (m : prog S A) (f : A -> prog S B) s (P : A -> S -> Prop) Q :
  safe m s P -> (forall a s', P a s' -> safe (f a) s' Q) -> safe (pbind m f) s Q.
Proof.
  intros [Hm1 Hm2] Hf. unfold safe, pbind in *. destruct (m s) as [[a s']| |]; try done.
  apply Hf. by apply Hm2.
Qed.

Lemma safe_pret {S A} (a : A) (s : S) (Q : A -> S -> Prop) : Q a s -> safe (pret a) s Q.
Proof. intros HQ. split; [done|]. by intros ? ? [= <- <-]. Qed.

Lemma safe_ret {S A} (m : prog S A) s a s' (Q : A -> S -> Prop) :
  m s = Ret (a, s') -> Q a s' -> safe m s Q.
Proof. intros E HQ. split; rewrite E; [done|]. by intros ? ? [= <- <-]. Qed.

Lemma safe_discard `{!TeeCrypto St} {A} (m : prog (cstate St) A) s (Q : cstate St -> Prop) :
  safe m s (fun _ => Q) -> safe (discard m) s (fun _ => Q).
Proof. intros Hm. eapply safe_bind; [exact Hm|]. intros a s' HQ. by apply safe_pret. Qed.

Section Crypto_lemmas.
Context `{!Target, !TargetOk, !Allocator, !AllocatorOk} {St : Type} `{!TeeCrypto St, !TeeCryptoOk St}.

Definition same (s s' : cstate St) : Prop :=
  handle_boxes s' = handle_boxes s /\ operations (tee s') = operations (tee s).

(** The box of [o] holds an operation of the TEE. *)
Definition live (o : OperationHandle) (h : Z) (s : cstate St) : Prop :=
  handle_boxes s !! oph_raw o = Some h /\ h ∈ operations (tee s).

Lemma same_refl s : same s s.
Proof. done. Qed.

Lemma same_trans s1 s2 s3 : same s1 s2 -> same s2 s3 -> same s1 s3.
Proof. intros [] []. split; congruence. Qed.

Lemma live_same o h s s' : live o h s -> same s s' -> live o h s'.
Proof. intros [? ?] [E1 E2]. split; by rewrite ?E1, ?E2. Qed.

Lemma call_safe {A} (m : prog St A) (s : cstate St) :
  keeps m (tee s) -> safe (call m) s (fun _ => same s).
Proof.
  intros [Hm1 Hm2]. unfold safe, call. destruct (m (tee s)) as [[a t]| |] eqn:E; try done.
  split; [done|]. intros ? ? [= <- <-]. split; [done|]. cbn. by eapply Hm2.
Qed.

(** The shape of every method: read the handle, call the TEE, go on. *)
Lemma on_box_safe {A B} o h (m : Z -> prog St A) (k : A -> prog (cstate St) B) (s : cstate St) :
  live o h s -> keeps (m h) (tee s) -> (forall a s', same s s' -> safe (k a) s' (fun _ => same s)) ->
  safe (let* h := handle o in let* a := call (m h) in k a) s (fun _ => same s).
Proof.
  intros [Hb _] Hm Hk. eapply (safe_bind _ _ _ (fun x s' => x = h /\ s' = s)).
  - eapply safe_ret; [unfold handle; rewrite Hb; reflexivity|done].
  - intros ? ? [-> ->]. eapply safe_bind; [by apply call_safe|]. exact Hk.
Qed.

Lemma on_box_safe_ret {A B} o h (m : Z -> prog St A) (k : A -> B) (s : cstate St) :
  live o h s -> keeps (m h) (tee s) ->
  safe (let* h := handle o in let* a := call (m h) in pret (k a)) s (fun _ => same s).
Proof. intros. eapply on_box_safe; [done..|]. intros. by apply safe_pret. Qed.

Lemma on_box_safe_last o h (m : Z -> prog St unit) (s : cstate St) :
  live o h s -> keeps (m h) (tee s) ->
  safe (let* h := handle o in call (m h)) s (fun _ => same s).
Proof.
  intros [Hb _] Hm. eapply (safe_bind _ _ _ (fun x s' => x = h /\ s' = s)).
  - eapply safe_ret; [unfold handle; rewrite Hb; reflexivity|done].
  - intros ? ? [-> ->]. by apply call_safe.
Qed.

(** The information names a key size that the vector can have. *)
Lemma info_safe o h (s : cstate St) :
  live o h s -> safe (info o) s (fun i s' => same s s' /\ 0 <= key_size i < 2 ^ 32).
Proof.
  intros [Hb Hin]. destruct (on_handle_ok h _ (tee s) (oh_info h) Hin) as [Hu Hk].
  unfold safe, info, handle, call, pbind, pret. rewrite Hb.
  destruct (TEE_GetOperationInfo h (tee s)) as [[i t]| |] eqn:E; try done.
  split; [done|]. intros ? ? [= <- <-]. split; [|by eapply info_key_size].
  split; [done|]. by eapply Hk.
Qed.

Lemma crypt_safe o h f params src u (s : cstate St) :
  (forall h dest size, f h params src dest size = tee_output u h dest size) -> live o h s ->
  safe (Asymmetric.crypt f o params src) s (fun _ => same s).
Proof.
  intros Hf Hl. unfold Asymmetric.crypt.
  eapply (safe_bind _ _ _ (fun i s' => same s s' /\ 0 <= key_size i < 2 ^ 32)); [by eapply info_safe|].
  intros i s1 [Hs1 Hi]. pose proof (live_same _ _ _ _ Hl Hs1) as Hl1.
  eapply (safe_bind _ _ _ (fun v s' => v = zeros (key_size i) /\ s' = s1)).
  - unfold plift. case_if; [eapply safe_ret; [reflexivity|done]|split; done].
  - intros v s2 [-> ->].
    assert (safe (let* h0 := handle o in
        let* a := call (f h0 params src (zeros (key_size i)) (key_size i)) in
        let? _ := pret (tee_check (oa_code a)) in
        pret (Ok (take (Z.to_nat (oa_size a)) (oa_buf a)))) s1 (fun _ => same s1)) as Hs.
    { eapply (on_box_safe o h (fun h0 => f h0 params src (zeros (key_size i)) (key_size i))); [done| |].
      - rewrite Hf. apply output_ok; [rewrite len_zeros; lia|apply Hl1].
      - intros a s' Hs'. unfold ptry. eapply safe_bind; [by apply (safe_pret _ _ (fun _ x => x = s'))|].
        intros [|] ? ->; by apply safe_pret. }
    destruct Hs as [Hu Hp]. split; [exact Hu|]. intros a s' E. eapply same_trans; [done|by eapply Hp].
Qed.

(** A method that fills a slice hands its length to the call. *)
Lemma with_output_safe o h f dest u (s : cstate St) :
  (forall h dest size, f h dest size = tee_output u h dest size) -> live o h s ->
  safe (with_output o dest f) s (fun _ => same s).
Proof.
  intros Hf Hl. unfold with_output.
  eapply (on_box_safe_ret o h (fun h0 => f h0 dest (len dest))); [done|].
  rewrite Hf. apply output_ok; [pose proof (len_nonneg dest); lia|apply Hl].
Qed.

Lemma run_use_safe u o h (s : cstate St) :
  live o h s -> safe (run_use u o) s (fun _ => same s).
Proof.
  intros Hl. pose proof (proj2 Hl) as Hin.
  assert (forall l : bytes, 0 <= len l <= len l) as Hfull by (intros l; pose proof (len_nonneg l); lia).
  destruct u; cbn [run_use]; try apply safe_discard;
    unfold info, info_multiple, reset, set_key, set_key_2, Digest.update,
      Cipher.init, Mac.init, Mac.update, Mac.compare_final, AE.init, AE.update_aad, AE.encrypt_final,
      Asymmetric.encrypt, Asymmetric.decrypt, Asymmetric.verify_digest, DeriveKey.derive, with_input;
    try (first
      [ by apply (with_output_safe o h _ _ (ODigest l)) | by apply (with_output_safe o h _ _ (OCipherUpdate l))
      | by apply (with_output_safe o h _ _ (OCipherFinal l)) | by apply (with_output_safe o h _ _ (OMac l))
      | by apply (with_output_safe o h _ _ (OAeUpdate l)) | by apply (with_output_safe o h _ _ (OAeDecrypt l t))
      | by apply (with_output_safe o h _ _ (OSign ps l))
      | by apply (crypt_safe o h _ _ _ (OEncrypt ps l)) | by apply (crypt_safe o h _ _ _ (ODecrypt ps l)) ]);
    first [ eapply (on_box_safe_last o h); [done|]
          | eapply (on_box_safe_ret o h); [done|]
          | eapply (on_box_safe o h); [done| |by intros [? [? ?]] ? ?; apply safe_pret] ];
    (apply (on_handle_ok h); [by constructor|done]).
Qed.

(** ** Operations and boxes are balanced *)

Context (s0 : cstate St).

(** [o] are the operations the TA owns, [hs] the TEE's handles in their boxes;
    [n] boxes have been leaked by allocations that failed. *)
Record inv (o : list OperationHandle) (hs : list Z) (n : nat) (s : cstate St) : Prop := {
  inv_boxes : Forall2 (fun p h => handle_boxes s !! oph_raw p = Some h) o hs;
  inv_nonnull : Forall (fun p => oph_raw p <> 0) o;
  inv_addrs : NoDup (map oph_raw o);
  inv_handles : NoDup hs;
  inv_new : Forall (fun h => h ∉ operations (tee s0)) hs;
  inv_ops : operations (tee s) = operations (tee s0) ∪ list_to_set hs;
  inv_size : size (handle_boxes s) = (size (handle_boxes s0) + length o + n)%nat;
}.

Lemma inv_keeps o hs n s s' : inv o hs n s -> same s s' -> inv o hs n s'.
Proof. intros [] [E1 E2]. split; rewrite ?E1, ?E2; done. Qed.

Lemma inv_live o hs n s k p :
  inv o hs n s -> o !! k = Some p -> exists h, hs !! k = Some h /\ live p h s.
Proof.
  intros Hinv Hk. destruct (Forall2_lookup_l _ _ _ _ _ (inv_boxes _ _ _ _ Hinv) Hk) as (h & Hh & Hb).
  exists h. split; [done|]. split; [done|]. rewrite (inv_ops _ _ _ _ Hinv).
  apply elem_of_union. right. apply elem_of_list_to_set. by eapply list_elem_of_lookup_2.
Qed.

Lemma boxes_other o hs (b b' : gmap Z Z) :
  Forall2 (fun p h => b !! oph_raw p = Some h) o hs ->
  (forall p, p ∈ o -> b' !! oph_raw p = b !! oph_raw p) ->
  Forall2 (fun p h => b' !! oph_raw p = Some h) o hs.
Proof.
  intros Hf. induction Hf as [|p h o hs Hp _ IH]; intros Hb; constructor.
  - rewrite Hb by (by left). done.
  - apply IH. intros q Hq. apply Hb. by right.
Qed.

Lemma inv_addr_in o hs n s p : inv o hs n s -> p ∈ o -> is_Some (handle_boxes s !! oph_raw p).
Proof.
  intros Hinv Hp. apply list_elem_of_lookup in Hp as [k Hk].
  destruct (inv_live _ _ _ _ _ _ Hinv Hk) as (h & _ & Hb & _). eauto.
Qed.

(** A new box leaves the owned ones alone. *)
Lemma boxes_new o hs n s p h :
  inv o hs n s -> handle_boxes s !! p = None ->
  Forall2 (fun q k => <[p:=h]> (handle_boxes s) !! oph_raw q = Some k) o hs /\
  (p ∉ map oph_raw o) /\
  size (<[p:=h]> (handle_boxes s)) = S (size (handle_boxes s0) + length o + n).
Proof.
  intros Hinv Hp. assert (p ∉ map oph_raw o) as Hno.
  { intros (q & Eq & Hq)%list_elem_of_fmap.
    destruct (inv_addr_in _ _ _ _ _ Hinv Hq) as [x Hx]. congruence. }
  split_and!; [|done|].
  - apply (boxes_other _ _ (handle_boxes s)); [apply Hinv|]. intros q Hq.
    rewrite lookup_insert_ne; [done|]. intros ->. apply Hno. by apply list_elem_of_fmap_2.
  - rewrite map_size_insert_None by done. by rewrite (inv_size _ _ _ _ Hinv).
Qed.

Lemma inv_push o hs n s p h t :
  inv o hs n s -> handle_boxes s !! p = None -> p <> 0 ->
  (h ∉ operations (tee s)) -> operations t = {[h]} ∪ operations (tee s) ->
  inv (mkHandle p :: o) (h :: hs) n (mkCstate t (<[p := h]> (handle_boxes s))).
Proof.
  intros Hinv Hp Hp0 Hnew Hops. destruct (boxes_new _ _ _ _ p h Hinv Hp) as (Hb & Hno & Hsz).
  destruct Hinv as [I1 I2 I3 I4 I5 I6 I7]. rewrite I6 in Hnew.
  split; cbn [tee handle_boxes oph_raw map].
  - constructor; [apply lookup_insert_eq|exact Hb].
  - by constructor.
  - by apply list.NoDup_cons.
  - apply list.NoDup_cons. split; [set_solver|done].
  - constructor; [set_solver|done].
  - rewrite Hops, I6. cbn [list_to_set]. set_solver.
  - rewrite Hsz. cbn [length]. lia.
Qed.

Lemma inv_leak o hs n s p h t :
  inv o hs n s -> handle_boxes s !! p = None -> operations t = operations (tee s) ->
  inv o hs (S n) (mkCstate t (<[p := h]> (handle_boxes s))).
Proof.
  intros Hinv Hp Hops. destruct (boxes_new _ _ _ _ p h Hinv Hp) as (Hb & _ & Hsz).
  destruct Hinv as [I1 I2 I3 I4 I5 I6 I7].
  split; cbn [tee handle_boxes]; try done; [congruence|]. rewrite Hsz. lia.
Qed.

Lemma allocate_safe o hs n s al m mx :
  inv o hs n s ->
  safe (OperationHandleOps.allocate al m mx) s (fun r s' =>
    match r with
    | Ok p => exists h, inv (p :: o) (h :: hs) n s'
    | Err _ => inv o hs (S n) s'
    end).
Proof.
  intros Hinv. unfold OperationHandleOps.allocate, box_new, safe, pbind, call, ptry, pbind.
  cbv beta zeta iota. cbn [tee handle_boxes]. set (p := alloc_addr (dom (handle_boxes s))).
  assert (handle_boxes s !! p = None) as Hp by (apply not_elem_of_dom, alloc_fresh).
  assert (p <> 0) as Hp0 by apply alloc_nonnull. clearbody p.
  destruct (alloc_op_ok (AlgorithmId.as_u32 al) (OperationMode.as_u32 m) (wrap_u 32 mx) (tee s))
    as [Hub Hok].
  destruct (TEE_AllocateOperation _ _ _ (tee s)) as [[[code h] t]| |] eqn:E; try done.
  destruct (Hok code h t eq_refl) as [Hgo Hko]. cbn [box_set pret tee handle_boxes].
  rewrite insert_insert_eq. split; [by destruct (tee_check code)|]. unfold tee_check.
  destruct (code =? TEE_SUCCESS) eqn:Hc; reflect_bool; intros r s' [= <- <-].
  - destruct (Hgo Hc) as [Hnew Hops]. exists h. by apply inv_push.
  - apply inv_leak; auto.
Qed.

Lemma drop_safe o hs n s k p h :
  inv o hs n s -> o !! k = Some p -> hs !! k = Some h ->
  exists s', drop_handle p s = Ret (tt, s') /\ inv (delete k o) (delete k hs) n s'.
Proof.
  intros Hinv Hk Hh. destruct Hinv as [I1 I2 I3 I4 I5 I6 I7].
  pose proof (Forall2_lookup_lr _ _ _ _ _ _ I1 Hk Hh) as Hb. cbn in Hb.
  pose proof (Forall_lookup_1 _ _ _ _ I2 Hk) as Hn. cbn in Hn.
  assert (h ∈ operations (tee s)) as Hin.
  { rewrite I6. apply elem_of_union. right. apply elem_of_list_to_set. by eapply list_elem_of_lookup_2. }
  destruct (free_op_ok h (tee s) Hin) as (t & Ef & Hops).
  exists (mkCstate t (delete (oph_raw p) (handle_boxes s))). split.
  - unfold drop_handle. rewrite (proj2 (Z.eqb_neq _ _) Hn). cbn [negb].
    unfold handle, call, box_free, pbind. rewrite Hb, Ef. cbn [handle_boxes tee]. by rewrite Hb.
  - rewrite (delete_Permutation _ _ _ Hk) in I3. cbn [map] in I3. apply list.NoDup_cons in I3 as [Hp3 I3].
    pose proof I4 as I4'. rewrite (delete_Permutation _ _ _ Hh) in I4'.
    apply list.NoDup_cons in I4' as [Hh4 I4'].
    split; cbn [tee handle_boxes]; try done.
    + apply (boxes_other _ _ (handle_boxes s)); [by apply Forall2_delete|]. intros q Hq.
      rewrite lookup_delete_ne; [done|]. intros Heq. apply Hp3. rewrite Heq.
      by apply list_elem_of_fmap_2.
    + by apply Forall_delete.
    + by apply Forall_delete.
    + pose proof (Forall_lookup_1 _ _ _ _ I5 Hh) as Hn0. cbn in Hn0.
      rewrite Hops, I6, (delete_Permutation _ _ _ Hh) at 1. cbn [list_to_set]. set_solver.
    + rewrite map_size_delete_Some by (by eexists). rewrite length_delete by eauto. apply lookup_lt_Some in Hk. lia.
Qed.

Lemma act_safe a o n s hs :
  inv o hs n s -> safe (act a (o, n)) s (fun r s' => exists hs', inv r.1 hs' r.2 s').
Proof.
  intros Hinv. destruct a as [al m mx|k u|k j|k]; cbn [act fst snd].
  - eapply safe_bind; [by apply allocate_safe|]. intros [p|e] s'.
    + intros [h Hs']. apply safe_pret. by exists (h :: hs).
    + intros Hs'. apply safe_pret. by exists hs.
  - destruct (o !! k) as [p|] eqn:Hk; [|apply safe_pret; by exists hs].
    destruct (inv_live _ _ _ _ _ _ Hinv Hk) as (h & _ & Hl).
    eapply safe_bind; [by eapply run_use_safe|]. intros ? s' Hs'. apply safe_pret.
    exists hs. by eapply inv_keeps.
  - destruct (o !! k) as [p|] eqn:Hk; [|apply safe_pret; by exists hs].
    destruct (o !! j) as [q|] eqn:Hj; [|apply safe_pret; by exists hs].
    destruct (inv_live _ _ _ _ _ _ Hinv Hk) as (h & _ & Hl).
    destruct (inv_live _ _ _ _ _ _ Hinv Hj) as (h' & _ & Hl').
    eapply (safe_bind _ _ _ (fun _ => same s)).
    + unfold copy, pbind, handle. destruct Hl as [Hb Hin], Hl' as [Hb' Hin'].
      unfold safe. rewrite Hb, Hb'. by apply call_safe, copy_ok.
    + intros ? s' Hs'. apply safe_pret. exists hs. by eapply inv_keeps.
  - destruct (o !! k) as [p|] eqn:Hk; [|apply safe_pret; by exists hs].
    destruct (inv_live _ _ _ _ _ _ Hinv Hk) as (h & Hh & _).
    destruct (drop_safe _ _ _ _ _ _ _ Hinv Hk Hh) as (s' & E & Hinv').
    eapply (safe_bind _ _ _ (fun _ x => x = s')); [by eapply safe_ret|].
    intros ? ? ->. apply safe_pret. by exists (delete k hs).
Qed.

Lemma run_safe acts : forall o n s hs,
  inv o hs n s -> safe (run acts (o, n)) s (fun r s' => exists hs', inv r.1 hs' r.2 s').
Proof.
  induction acts as [|a acts IH]; intros o n s hs Hinv; cbn [run]; [apply safe_pret; by exists hs|].
  eapply safe_bind; [by apply (act_safe _ _ _ _ hs)|].
  intros [o' n'] s' [hs' Hinv']. by apply (IH _ _ _ hs').
Qed.

(** C21: whatever a TA does with operations it has allocated, in any order, no
    call is undefined behaviour, and when it returns (the TEE may panic the TA
    on a misuse) the TEE holds exactly the operations it held before and one
    distinct operation per live handle; dropping all handles gives all
    operations back.  The boxes are those from before, one per live handle, and
    one for every allocation that failed: that box is never freed. *)
Theorem operations_balanced acts :
  run acts ([], 0%nat) s0 <> UB /\
  forall o n s, run acts ([], 0%nat) s0 = Ret ((o, n), s) ->
    (exists hs, Forall2 (fun p h => handle_boxes s !! oph_raw p = Some h) o hs /\ NoDup hs /\
       operations (tee s) = operations (tee s0) ∪ list_to_set hs /\
       Forall (fun h => h ∉ operations (tee s0)) hs) /\
    size (handle_boxes s) = (size (handle_boxes s0) + length o + n)%nat /\
    (o = [] -> operations (tee s) = operations (tee s0)).
Proof.
  assert (inv [] [] 0 s0) as Hinv0.
  { split; try done; [constructor|constructor|cbn; set_solver|cbn; lia]. }
  destruct (run_safe acts [] 0%nat s0 [] Hinv0) as [Hub Hret]. split; [exact Hub|].
  intros o n s E. destruct (Hret _ _ E) as [hs [I1 I2 I3 I4 I5 I6 I7]]. cbn [fst snd] in *.
  split_and!; [by exists hs|done|]. intros ->. apply Forall2_nil_inv_l in I1 as ->.
  rewrite I6. cbn. set_solver.
Qed.

End Crypto_lemmas.

(** ** Outputs *)

Section Outputs.
Context `{!Target, !TargetOk, !Allocator, !AllocatorOk}.
Context {St : Type} `{!TeeCrypto St, !TeeCryptoOk St, !TeeRoom St, !TeeRoomOk St}.

(** The methods that fill a caller's slice [dest] and report a size. *)
Inductive fills (o : OperationHandle) (dest : bytes)
    : output -> prog (cstate St) (Result Z * bytes) -> Prop :=
| f_digest l : fills o dest (ODigest l) (Digest.do_final o l dest)
| f_cipher_update l : fills o dest (OCipherUpdate l) (Cipher.update o l dest)
| f_cipher_final l : fills o dest (OCipherFinal l) (Cipher.do_final o l dest)
| f_mac l : fills o dest (OMac l) (Mac.compute_final o l dest)
| f_ae_update l : fills o dest (OAeUpdate l) (AE.update o l dest)
| f_ae_decrypt l t : fills o dest (OAeDecrypt l t) (AE.decrypt_final o l dest t)
| f_sign ps l : fills o dest (OSign ps l) (Asymmetric.sign_digest o ps l dest).

(** Those that return a vector. *)
Inductive returns (o : OperationHandle) : output -> prog (cstate St) (Result bytes) -> Prop :=
| r_encrypt ps l : returns o (OEncrypt ps l) (Asymmetric.encrypt o ps l)
| r_decrypt ps l : returns o (ODecrypt ps l) (Asymmetric.decrypt o ps l).

(** The slice a method was given, an output that needs [need] bytes, and what is left of
    both: the size reported is the output's, and the rest of the slice is the caller's. *)
Definition fits (need : Z) (dest dest' : bytes) (n : Z) : Prop :=
  n = need /\ 0 <= n <= len dest /\ drop (Z.to_nat n) dest' = drop (Z.to_nat n) dest.

(** An error of the TEE, which is a short buffer only if [too_short]. *)
Definition refused (e : Error) (too_short : Prop) : Prop :=
  Error.raw_code e <> TEE_SUCCESS /\ (Error.raw_code e = TEE_ERROR_SHORT_BUFFER -> too_short).

Lemma tee_check_cases c (P : Prop) :
  (c = TEE_ERROR_SHORT_BUFFER -> P) ->
  tee_check c = Ok tt /\ c = TEE_SUCCESS \/ (exists e, tee_check c = Err e /\ refused e P).
Proof.
  intros Hs. unfold tee_check, refused. case_if; [by left|]. right. eexists. split; [reflexivity|].
  by rewrite from_raw_error_code.
Qed.

Lemma fills_inv o dest u m :
  fills o dest u m ->
  exists f, m = with_output o dest f /\ forall h d n, f h d n = tee_output u h d n.
Proof. intros Hm. destruct Hm; eexists; (split; [reflexivity|done]). Qed.

Lemma fills_safe o h dest u m s :
  fills o dest u m -> live o h s -> m s <> UB.
Proof.
  intros (f & -> & Hf)%fills_inv Hl. apply (with_output_safe o h f dest u s Hf Hl).
Qed.

Lemma returns_inv o u m :
  returns o u m ->
  exists f ps src, m = Asymmetric.crypt f o ps src /\
    forall h d n, f h ps src d n = tee_output u h d n.
Proof. intros Hm. destruct Hm; eexists _, _, _; (split; [reflexivity|done]). Qed.

Lemma with_output_inv o h dest f u s r dest' s' :
  (forall h dest size, f h dest size = tee_output u h dest size) ->
  handle_boxes s !! oph_raw o = Some h -> with_output o dest f s = Ret ((r, dest'), s') ->
  exists a t, tee_output u h dest (len dest) (tee s) = Ret (a, t) /\ (r, dest') = sized a.
Proof.
  intros Hf Hb. unfold with_output, pbind, handle, call, pret. rewrite Hb, Hf.
  destruct (tee_output _ _ _ _ _) as [[a t]| |] eqn:E; [|done|done]. intros [= <- <-]. eauto.
Qed.

Lemma fills_bounded o h dest u m s r dest' s' :
  fills o dest u m -> live o h s -> m s = Ret ((r, dest'), s') ->
  len dest' = len dest /\
  match r with
  | Ok n => fits (room u h (tee s)) dest dest' n
  | Err e => refused e (len dest < room u h (tee s))
  end.
Proof.
  intros (f & -> & Hf)%fills_inv [Hb _] E.
  destruct (with_output_inv _ _ _ _ _ _ _ _ _ Hf Hb E) as (a & t & Ea & [= -> ->]).
  pose proof (len_nonneg dest).
  destruct (output_within u h dest (len dest) (tee s) a t ltac:(lia) Ea) as [(Hlen & _ & Hok) Hshort].
  split; [done|].
  destruct (tee_check_cases (oa_code a) _ Hshort) as [[-> Hc]|(e & -> & He)]; [|done].
  destruct (Hok Hc) as (-> & Hr & Hd). by split_and!; [|lia..|].
Qed.

Lemma encrypt_final_bounded o h src dest tag s r dest' tag' s' :
  live o h s -> AE.encrypt_final o src dest tag s = Ret ((r, (dest', tag')), s') ->
  len dest' = len dest /\ len tag' = len tag /\
  match r with
  | Ok (n, k) => fits (encrypt_room src h (tee s)).1 dest dest' n /\
                 fits (encrypt_room src h (tee s)).2 tag tag' k
  | Err e => refused e (len dest < (encrypt_room src h (tee s)).1 \/
                        len tag < (encrypt_room src h (tee s)).2)
  end.
Proof.
  intros [Hb _]. unfold AE.encrypt_final, pbind, handle, call, pret. rewrite Hb.
  destruct (TEE_AEEncryptFinal _ _ _ _ _ _ _) as [[[a [m t]] t']| |] eqn:E; [|done|done].
  intros [= <- <- <- <-]. pose proof (len_nonneg dest). pose proof (len_nonneg tag).
  destruct (encrypt_within src h dest (len dest) tag (len tag) _ _ _ _ _ ltac:(lia) ltac:(lia) E)
    as ((Hl1 & _ & Hok1) & (Hl2 & _ & Hok2) & Hshort).
  split; [done|]. split; [done|].
  destruct (tee_check_cases (oa_code a) _ Hshort) as [[-> Hc]|(e & -> & He)]; [|done].
  destruct (Hok1 Hc) as (-> & Hr1 & Hd1), (Hok2 Hc) as (-> & Hr2 & Hd2).
  unfold fits. split_and!; try done; lia.
Qed.

Lemma crypt_bounded f o h ps src u s r s2 :
  (forall h dest size, f h ps src dest size = tee_output u h dest size) -> live o h s ->
  Asymmetric.crypt f o ps src s = Ret (r, s2) ->
  exists i s1, info o s = Ret (i, s1) /\
    match r with
    | Ok l => len l = room u h (tee s1) /\ len l <= key_size i
    | Err e => refused e (key_size i < room u h (tee s1))
    end.
Proof.
  intros Hf Hl. unfold Asymmetric.crypt. intros (i & s1 & Ei & Ec)%pbind_inv.
  exists i, s1. split; [done|].
  destruct (proj2 (info_safe _ _ _ Hl) _ _ Ei) as [[Hb1 _] Hi].
  apply pbind_inv in Ec as (v & s3 & Ev & Ec).
  unfold plift in Ev. destruct (key_size i <? _); [|done]. injection Ev as <- <-.
  apply pbind_inv in Ec as (h' & s4 & Eh & Ec). unfold handle in Eh.
  rewrite Hb1, (proj1 Hl) in Eh. injection Eh as <- <-.
  apply pbind_inv in Ec as (a & s5 & Ea & Ec). rewrite Hf in Ea.
  unfold call in Ea. destruct (tee_output _ _ _ _ _) as [[a2 t2]| |] eqn:Ef; [|done|done].
  injection Ea as <- <-.
  destruct (output_within u h (zeros (key_size i)) (key_size i) _ _ _ ltac:(rewrite len_zeros; lia) Ef) as [(Hlen & _ & Hok) Hshort].
  unfold ptry in Ec.
  destruct (tee_check_cases (oa_code a2) _ Hshort) as [[Hc Hs]|(e & Hc & He)]; rewrite Hc in Ec;
    injection Ec as <- _; [|done].
  destruct (Hok Hs) as (-> & Hr & _). rewrite len_zeros in Hlen by lia.
  unfold len in *. rewrite length_take. lia.
Qed.

(** C39: on an operation that the TEE holds, for every state of the TEE and every buffer:
    a method that fills a slice hands the TEE the whole slice and no byte more (it is
    never undefined behaviour); it keeps the slice's length; [Ok n] is the size of
    the TEE's output, which the slice can hold, and the bytes from [n] on are the
    caller's; an error carries a code of the TEE, and that of a short buffer only if
    the output is longer than the slice.  The same holds of [AE::encrypt_final] for
    both slices, data and tag; and [encrypt] and [decrypt] return the TEE's output,
    no longer than the operation's key size that their vector was made for, and fail with
    a short buffer only if it is longer. *)
Theorem crypto_outputs_bounded o h s :
  live o h s ->
  (forall dest u m, fills o dest u m ->
     m s <> UB /\
     forall r dest' s', m s = Ret ((r, dest'), s') ->
       len dest' = len dest /\
       match r with
       | Ok n => fits (room u h (tee s)) dest dest' n
       | Err e => refused e (len dest < room u h (tee s))
       end) /\
  (forall src dest tag,
     AE.encrypt_final o src dest tag s <> UB /\
     forall r dest' tag' s', AE.encrypt_final o src dest tag s = Ret ((r, (dest', tag')), s') ->
       len dest' = len dest /\ len tag' = len tag /\
       match r with
       | Ok (n, k) => fits (encrypt_room src h (tee s)).1 dest dest' n /\
                      fits (encrypt_room src h (tee s)).2 tag tag' k
       | Err e => refused e (len dest < (encrypt_room src h (tee s)).1 \/
                             len tag < (encrypt_room src h (tee s)).2)
       end) /\
  (forall u m, returns o u m ->
     m s <> UB /\
     forall r s', m s = Ret (r, s') ->
       exists i s1, info o s = Ret (i, s1) /\
         match r with
         | Ok l => len l = room u h (tee s1) /\ len l <= key_size i
         | Err e => refused e (key_size i < room u h (tee s1))
         end).
Proof.
  intros Hl. split_and!.
  - intros dest u m Hm. split; [by eapply fills_safe|]. intros. by eapply fills_bounded.
  - intros src dest tag. split; [|intros; by eapply encrypt_final_bounded].
    apply (proj1 (on_box_safe _ h (fun h0 => TEE_AEEncryptFinal h0 src dest (len dest) tag (len tag))
      (fun '(a, (k, tag')) => pret (match tee_check (oa_code a) with
         | Ok _ => Ok (oa_size a, k) | Err e => Err e end, (oa_buf a, tag'))) s Hl
      ltac:(apply (on_handle_ok h); [pose proof (len_nonneg dest); pose proof (len_nonneg tag);
        by constructor|apply Hl]) ltac:(by intros [? [? ?]] ? ?; apply safe_pret))).
  - intros u m (f & ps & src & -> & Hf)%returns_inv.
    split; [apply (crypt_safe o h f ps src u s Hf Hl)|]. intros. by eapply crypt_bounded.
Qed.

(** A handle made with [null] is not safe to use: dropping it, and every
    method on it, is undefined behaviour, because the destructor frees the box
    at the null pointer after skipping only the TEE's handle, and the methods
    read the handle through it.  ([null] is a safe function.) *)
Lemma null_handle_undefined (s : cstate St) :
  handle_boxes s !! 0 = None ->
  drop_handle null s = UB /\ info null s = UB /\ reset null s = UB /\
  (forall u m dest, fills null dest u m -> m s = UB).
Proof.
  intros Hnull. unfold drop_handle, info, reset, handle, box_free, pbind, pret, null. cbn [oph_raw Z.eqb negb].
  rewrite Hnull. split_and!; try done. intros u m dest Hm.
  destruct Hm; unfold Digest.do_final, Cipher.update, Cipher.do_final, Mac.compute_final, AE.update,
    AE.decrypt_final, Asymmetric.sign_digest, with_output, handle, pbind, null; cbn [oph_raw];
    by rewrite Hnull.
Qed.

End Outputs.

(** ** A TEE for the properties

    Its state is the set of operations.  It refuses the illegal algorithm; a call
    with an output buffer copies its input there when it fits. *)

Module EchoCrypto.

#[local] Instance echo_crypto_target : Target := 64.
#[local] Instance echo_crypto_alloc : Allocator := fun d => fresh ({[0]} ∪ d).
#[local] Instance echo_crypto_alloc_ok : AllocatorOk.
Proof.
  split; intros d; unfold alloc_addr, echo_crypto_alloc.
  - intros Hd. apply (is_fresh ({[0]} ∪ d)). set_solver.
  - intros Hd. apply (is_fresh ({[0]} ∪ d)). rewrite Hd. set_solver.
Qed.

Definition guarded {A} (h : Z) (a : A) : prog (gset Z) A :=
  fun s => if bool_decide (h ∈ s) then Ret (a, s) else Panic.

Definition echo (l d : bytes) (n : Z) : out_answer :=
  if len l <=? n then mkOut TEE_SUCCESS (len l) (splice d 0 l)
  else mkOut TEE_ERROR_SHORT_BUFFER (len l) d.

(** A size beyond the buffer is written behind it. *)
Definition echoed (h : Z) (l d : bytes) (n : Z) : prog (gset Z) out_answer :=
  if len d <? n then fun _ => UB else guarded h (echo l d n).

#[local] Instance echo_crypto : TeeCrypto (gset Z) := {|
  TEE_AllocateOperation al _ _ s :=
    if al =? AlgorithmId.as_u32 AlgorithmId.IllegalValue then Ret ((TEE_ERROR_NOT_SUPPORTED, 0), s)
    else Ret ((TEE_SUCCESS, fresh s), {[fresh s]} ∪ s);
  TEE_FreeOperation h s := if bool_decide (h ∈ s) then Ret (tt, s ∖ {[h]}) else Panic;
  TEE_GetOperationInfo h := guarded h (mkRawInfo 0 0 0 0 0 16 0 0);
  TEE_GetOperationInfoMultiple h buf n := guarded h (mkOut TEE_ERROR_SHORT_BUFFER 0 buf);
  TEE_ResetOperation h := guarded h tt;
  TEE_SetOperationKey h _ := guarded h TEE_SUCCESS;
  TEE_SetOperationKey2 h _ _ := guarded h TEE_SUCCESS;
  TEE_CopyOperation h h' := guarded h tt;
  TEE_IsAlgorithmSupported _ _ := pret TEE_SUCCESS;
  TEE_DigestUpdate h _ := guarded h tt;
  TEE_DigestDoFinal := echoed;
  TEE_CipherInit h _ := guarded h tt;
  TEE_CipherUpdate := echoed;
  TEE_CipherDoFinal := echoed;
  TEE_MACInit h _ := guarded h tt;
  TEE_MACUpdate h _ := guarded h tt;
  TEE_MACComputeFinal := echoed;
  TEE_MACCompareFinal h _ _ := guarded h TEE_SUCCESS;
  TEE_AEInit h _ _ _ _ := guarded h TEE_SUCCESS;
  TEE_AEUpdateAAD h _ := guarded h tt;
  TEE_AEUpdate := echoed;
  TEE_AEEncryptFinal h l d n t _ :=
    if len d <? n then fun _ => UB else guarded h (echo l d n, (0, t));
  TEE_AEDecryptFinal h l d n _ := echoed h l d n;
  TEE_AsymmetricEncrypt h _ := echoed h;
  TEE_AsymmetricDecrypt h _ := echoed h;
  TEE_AsymmetricSignDigest h _ := echoed h;
  TEE_AsymmetricVerifyDigest h _ _ _ := guarded h TEE_SUCCESS;
  TEE_DeriveKey h _ _ := guarded h tt;
  operations s := s;
|}.

Lemma guarded_keeps {A} h (a : A) s : keeps (guarded h a) s.
Proof.
  unfold keeps, guarded. case_bool_decide; split; try done. by intros ? ? [= _ <-].
Qed.

(** What a call copies. *)
Definition input_of (u : output) : bytes :=
  match u with
  | ODigest l | OCipherUpdate l | OCipherFinal l | OMac l | OAeUpdate l | OAeDecrypt l _
  | OSign _ l | OEncrypt _ l | ODecrypt _ l => l
  end.

#[local] Instance echo_room : TeeRoom (gset Z) := {|
  room u _ _ := len (input_of u);
  encrypt_room l _ _ := (len l, 0);
|}.

Lemma tee_output_echo u h d n : tee_output u h d n = echoed h (input_of u) d n.
Proof. by destruct u. Qed.

Lemma echoed_guarded h l d n : n <= len d -> echoed h l d n = guarded h (echo l d n).
Proof. intros Hn. unfold echoed. case_if; [lia|done]. Qed.

Lemma splice_tail (d l : bytes) n :
  len l <= n -> n <= len d -> drop (Z.to_nat n) (splice d 0 l) = drop (Z.to_nat n) d.
Proof.
  intros Hl Hn. unfold splice. change (Z.to_nat 0) with 0%nat. rewrite take_0. cbn [app Nat.add].
  pose proof (len_nonneg l). unfold len in *. rewrite drop_app_ge by lia. rewrite drop_drop. f_equal. lia.
Qed.

Lemma echo_within l d n :
  0 <= n <= len d ->
  answers_in (len l) d n (oa_code (echo l d n)) (oa_size (echo l d n)) (oa_buf (echo l d n)) /\
  (oa_code (echo l d n) = TEE_ERROR_SHORT_BUFFER -> n < len l).
Proof.
  intros Hn. pose proof (len_nonneg l). unfold echo, answers_in.
  case_if; cbn; [|split_and!; try done; lia]. split; [|done].
  split_and!; [apply len_splice; lia|apply splice_tail; lia|].
  intros _. split_and!; try done; try lia. apply splice_tail; lia.
Qed.

Lemma guarded_inv {A} h (x a : A) s s' : guarded h x s = Ret (a, s') -> a = x.
Proof. unfold guarded. case_bool_decide; [|done]. by intros [= <- _]. Qed.

#[local] Instance echo_crypto_ok : TeeCryptoOk (gset Z).
Proof.
  split; cbn.
  - intros al m n s. case_if; split; try done; intros code h s' [= <- <- <-]; split; try done.
    intros _. split; [apply is_fresh|done].
  - intros h s Hh. rewrite bool_decide_true by done. eauto.
  - intros A h m s Hm _. destruct Hm; try apply guarded_keeps.
    cbn. case_if; [lia|apply guarded_keeps].
  - intros u h d n s Hn _. rewrite tee_output_echo, echoed_guarded by apply Hn. apply guarded_keeps.
  - intros h s i s' E%guarded_inv. by subst i.
  - intros. apply guarded_keeps.
  - intros h buf s a s' E%guarded_inv. by subst a.
Qed.

#[local] Instance echo_room_ok : TeeRoomOk (gset Z).
Proof.
  split.
  - intros u h d n s a s' Hn. rewrite tee_output_echo, echoed_guarded by apply Hn.
    intros E%guarded_inv. subst a. by apply echo_within.
  - intros l h d n t k s a m t' s' Hn Hk. cbn. case_if; [lia|].
    intros E%guarded_inv. injection E as -> -> ->. destruct (echo_within l d n Hn) as [? Hs].
    split; [done|]. split; [|by left; apply Hs].
    split; [done|]. split; [done|]. intros _. split_and!; try done; cbn; lia.
Qed.

Definition start : cstate (gset Z) := mkCstate ∅ ∅.

Lemma null_handle_undefined_witness : drop_handle null start = UB /\ reset null start = UB.
Proof.
  destruct (null_handle_undefined start (lookup_empty 0)) as (Hd & _ & Hr & _). by split.
Defined.

(** One operation in a box at 8: a digest that fits is written in place, one
    that does not is refused. *)
Definition one_op : cstate (gset Z) := mkCstate {[5]} {[8 := 5]}.

Lemma crypto_outputs_bounded_witness :
  Digest.do_final (mkHandle 8) [1; 2] [9; 9; 9] one_op = Ret ((Ok 2, [1; 2; 9]), one_op) /\
  fits 2 [9; 9; 9] [1; 2; 9] 2 /\
  (exists e s', Digest.do_final (mkHandle 8) [1; 2] [0] one_op = Ret ((Err e, [0]), s') /\
     refused e (1 < 2)) /\
  (exists i s1, info (mkHandle 8) one_op = Ret (i, s1) /\ 3 <= key_size i) /\
  Asymmetric.encrypt (mkHandle 8) [] [1; 2; 3] one_op = Ret (Ok [1; 2; 3], one_op).
Proof.
  assert (live (mkHandle 8) 5 one_op) as Hl by (split; [done|by vm_compute; eauto; set_solver]).
  destruct (crypto_outputs_bounded (mkHandle 8) 5 one_op Hl) as (Hf & _ & Hv).
  assert (Digest.do_final (mkHandle 8) [1; 2] [9; 9; 9] one_op = Ret ((Ok 2, [1; 2; 9]), one_op))
    as E by (by vm_compute).
  assert (Asymmetric.encrypt (mkHandle 8) [] [1; 2; 3] one_op = Ret (Ok [1; 2; 3], one_op))
    as E' by (by vm_compute).
  split; [exact E|]. split; [by apply (proj2 (Hf _ _ _ (f_digest _ _ [1; 2])) _ _ _ E)|]. split.
  - destruct (Hf [0] _ _ (f_digest _ _ [1; 2])) as [_ Hs].
    eexists _, one_op. split; [by vm_compute|]. by apply (Hs _ _ _ eq_refl).
  - split; [|exact E']. destruct (proj2 (Hv _ _ (r_encrypt _ [] [1; 2; 3])) _ _ E') as (i & s1 & Ei & _ & Hi).
    exists i, s1. by split.
Defined.

(** One failed allocation, one operation used and dropped: one box is left. *)
Definition session : list action :=
  [Allocate AlgorithmId.IllegalValue OperationMode.Digest 0;
   Allocate AlgorithmId.Sha256 OperationMode.Digest 0;
   Use 0 (DigestUpdate [1; 2]); Use 0 (DigestFinal [3] [0; 0]); Drop 0].

Lemma operations_balanced_witness :
  exists s, run session ([], 0%nat) start = Ret (([], 1%nat), s) /\
    tee s = ∅ /\ size (handle_boxes s) = 1%nat.
Proof.
  destruct (run session ([], 0%nat) start) as [[[o n] s]| |] eqn:E; [|by vm_compute in E..].
  destruct (operations_balanced start session) as [_ Hr].
  destruct (Hr o n s E) as (_ & Hsz & Hops).
  assert (o = [] /\ n = 1%nat) as [-> ->].
  { assert (match run session ([], 0%nat) start with
            | Ret (o', _) => o' = ([], 1%nat) | _ => False end) as Hc by (by vm_compute).
    rewrite E in Hc. by injection Hc. }
  exists s. split_and!; [done|by apply Hops|exact Hsz].
Defined.

End EchoCrypto.
