(* ===== verification/BigInt.v ===== *)
(** * BigInt: arbitrary-precision integers of a TA

    Models [crates/optee-utee/src/arithmetical.rs].  A [BigInt] owns a vector of
    32-bit words whose layout is the TEE's; the crate's part is to ask for
    vectors that are large enough for each result.  The TEE's functions are an
    interface, [TeeArith]: they get the words of each operand and give the words
    of the destination after the call ([&mut self] excludes aliasing); they
    panic the TA on a programming error.  [vec![0; n]] fails when the TA's heap
    has no room. *)

From S2P Require Import Prelude TeeDefines UteeError.

Abbreviation words := (list Z).

(** ** The TEE's functions *)

Class TeeArith : Type := {
  TEE_BigIntInit : words -> Z -> outcome words;
  TEE_BigIntConvertFromOctetString : words -> bytes -> Z -> outcome (Z * words);
  TEE_BigIntConvertToOctetString : bytes -> Z -> words -> outcome (Z * (Z * bytes));
  TEE_BigIntConvertFromS32 : words -> Z -> outcome words;
  TEE_BigIntConvertToS32 : words -> outcome (Z * Z);
  TEE_BigIntCmp : words -> words -> outcome Z;
  TEE_BigIntCmpS32 : words -> Z -> outcome Z;
  TEE_BigIntShiftRight : words -> words -> Z -> outcome words;
  TEE_BigIntGetBit : words -> Z -> outcome bool;
  TEE_BigIntGetBitCount : words -> outcome Z;
  TEE_BigIntSetBit : words -> Z -> bool -> outcome (Z * words);
  TEE_BigIntAbs : words -> words -> outcome (Z * words);
  TEE_BigIntAdd : words -> words -> words -> outcome words;
  TEE_BigIntSub : words -> words -> words -> outcome words;
  TEE_BigIntNeg : words -> words -> outcome words;
  TEE_BigIntMul : words -> words -> words -> outcome words;
  TEE_BigIntSquare : words -> words -> outcome words;
  TEE_BigIntDiv : words -> words -> words -> words -> outcome (words * words);
  TEE_BigIntMod : words -> words -> words -> outcome words;
  TEE_BigIntAddMod : words -> words -> words -> words -> outcome words;
  TEE_BigIntSubMod : words -> words -> words -> words -> outcome words;
  TEE_BigIntMulMod : words -> words -> words -> words -> outcome words;
  TEE_BigIntSquareMod : words -> words -> words -> outcome words;
  TEE_BigIntInvMod : words -> words -> words -> outcome words;
  TEE_BigIntExpMod : words -> words -> words -> words -> words -> outcome (Z * words);
  TEE_BigIntRelativePrime : words -> words -> outcome bool;
  TEE_BigIntAssign : words -> words -> outcome (Z * words);
  TEE_BigIntComputeExtendedGcd : words -> words -> words -> words -> words ->
    outcome (words * (words * words));
  TEE_BigIntIsProbablePrime : words -> Z -> outcome Z;
  TEE_BigIntConvertFromFMM : words -> words -> words -> words -> outcome words;
  TEE_BigIntFMMContextSizeInU32 : Z -> outcome Z;
  TEE_BigIntInitFMMContext : words -> Z -> words -> outcome words;
  TEE_BigIntFMMSizeInU32 : Z -> outcome Z;
  TEE_BigIntInitFMM : words -> Z -> outcome words;
  TEE_BigIntConvertToFMM : words -> words -> words -> words -> outcome words;
  TEE_BigIntComputeFMM : words -> words -> words -> words -> words -> outcome words;
}.

(** How many words the TA's heap can give to one vector. *)
Class Heap : Type := heap_words : Z.

(** [vec![0; n]]. *)
Definition vec_words `{!Heap} (n : Z) : outcome words :=
  if n <=? heap_words then Ret (zeros n) else Panic.

(** [tee_check(...)?] on a call that fills a destination. *)
Definition checked {A} (code : Z) (a : A) : Result A :=
  match tee_check code with Ok _ => Ok a | Err e => Err e end.

(** A method on [&mut self] whose TEE call answers a code. *)
Definition reported {A} (r : outcome (Z * A)) : outcome (Result unit * A) :=
  let! (code, a) := r in Ret (tee_check code, a).

(** ** [BigInt] *)

Record BigInt : Type := mkBigInt { big_vec : words }.

(** [a / b] rounded up. *)
Definition div_ceil (a b : Z) : Z := a / b + (if 0 <? a mod b then 1 else 0).

Module BigIntFMMContext.
Section Ops.
Context `{!TeeArith, !Heap}.
Record BigIntFMMContext : Type := mkContext { ctx_vec : words }.
Definition size_in_u32 (size : Z) : outcome Z := TEE_BigIntFMMContextSizeInU32 size.
Definition new (bits : Z) (modulus : BigInt) : outcome (Result BigIntFMMContext) :=
  let! size := size_in_u32 bits in
  let! tmp_vec := vec_words size in
  let! v := TEE_BigIntInitFMMContext tmp_vec size (big_vec modulus) in
  Ret (Ok (mkContext v)).
End Ops.
End BigIntFMMContext.

Module BigIntFMM.
Section Ops.
Context `{!TeeArith, !Heap}.
Record BigIntFMM : Type := mkFMM { fmm_vec : words }.
Definition size_in_u32 (size : Z) : outcome Z := TEE_BigIntFMMSizeInU32 size.
Definition new (bits : Z) : outcome BigIntFMM :=
  let! size := size_in_u32 bits in
  let! tmp_vec := vec_words size in
  let! v := TEE_BigIntInitFMM tmp_vec size in
  Ret (mkFMM v).
Definition convert_from_big_int (self : BigIntFMM) (src n : BigInt)
    (context : BigIntFMMContext.BigIntFMMContext) : outcome BigIntFMM :=
  let! v := TEE_BigIntConvertToFMM (fmm_vec self) (big_vec src) (big_vec n)
              (BigIntFMMContext.ctx_vec context) in
  Ret (mkFMM v).
Definition compute_fmm (self op1 op2 : BigIntFMM) (n : BigInt)
    (context : BigIntFMMContext.BigIntFMMContext) : outcome BigIntFMM :=
  let! v := TEE_BigIntComputeFMM (fmm_vec self) (fmm_vec op1) (fmm_vec op2) (big_vec n)
              (BigIntFMMContext.ctx_vec context) in
  Ret (mkFMM v).
End Ops.
End BigIntFMM.

Module BigIntOps.
Section Ops.
Context `{!Profile, !TeeArith, !Heap}.

Definition size_in_u32 (size : Z) : Z := div_ceil size 32 + 2.

Definition new (bits : Z) : outcome BigInt :=
  let size := size_in_u32 bits in
  let! tmp_vec := vec_words size in
  let! v := TEE_BigIntInit tmp_vec size in
  Ret (mkBigInt v).

(** Methods on [&mut self] give the new value of [self]. *)
Definition convert_from_octet_string (self : BigInt) (buffer : bytes) (sign : Z)
    : outcome (Result unit * BigInt) :=
  let! (r, v) := reported (TEE_BigIntConvertFromOctetString (big_vec self) buffer sign) in
  Ret (r, mkBigInt v).

(** [self.0.len() - 2] underflows on a vector of less than two words; every
    [BigInt] has at least two. *)
Definition convert_to_octet_string (self : BigInt) : outcome (Result bytes) :=
  if len (big_vec self) <? 2 then Panic
  else
    let buffer_size := (len (big_vec self) - 2) * 4 in
    let! (code, (size, tmp_vec)) :=
      TEE_BigIntConvertToOctetString (zeros buffer_size) buffer_size (big_vec self) in
    Ret (checked code (take (Z.to_nat size) tmp_vec)).

Definition convert_from_s32 (self : BigInt) (short_val : Z) : outcome BigInt :=
  let! v := TEE_BigIntConvertFromS32 (big_vec self) short_val in Ret (mkBigInt v).

Definition convert_to_s32 (self : BigInt) : outcome (Result Z) :=
  let! (code, v) := TEE_BigIntConvertToS32 (big_vec self) in Ret (checked code v).

Definition compare_big_int (self target : BigInt) : outcome Z :=
  TEE_BigIntCmp (big_vec self) (big_vec target).
Definition compare_s32 (self : BigInt) (target : Z) : outcome Z :=
  TEE_BigIntCmpS32 (big_vec self) target.

Definition shift_right (self op : BigInt) (bits : Z) : outcome BigInt :=
  let! v := TEE_BigIntShiftRight (big_vec self) (big_vec op) bits in Ret (mkBigInt v).

Definition get_bit (self : BigInt) (bit_index : Z) : outcome bool :=
  TEE_BigIntGetBit (big_vec self) bit_index.
Definition get_bit_count (self : BigInt) : outcome Z := TEE_BigIntGetBitCount (big_vec self).

Definition set_bit (self : BigInt) (bit_index : Z) (set : bool) : outcome (Result unit * BigInt) :=
  let! (r, v) := reported (TEE_BigIntSetBit (big_vec self) bit_index set) in Ret (r, mkBigInt v).

Definition abs (self : BigInt) : outcome (Result BigInt) :=
  let! bits := get_bit_count self in
  let! res := new bits in
  let! (code, v) := TEE_BigIntAbs (big_vec res) (big_vec self) in
  Ret (checked code (mkBigInt v)).

Definition add (op1 op2 : BigInt) : outcome BigInt :=
  let! b1 := get_bit_count op1 in
  let! b2 := get_bit_count op2 in
  let! bits := add_u 32 (Z.max b1 b2) 1 in
  let! res := new bits in
  let! v := TEE_BigIntAdd (big_vec res) (big_vec op1) (big_vec op2) in
  Ret (mkBigInt v).

Definition sub (op1 op2 : BigInt) : outcome BigInt :=
  let! b1 := get_bit_count op1 in
  let! b2 := get_bit_count op2 in
  let! bits := add_u 32 (Z.max b1 b2) 1 in
  let! res := new bits in
  let! v := TEE_BigIntSub (big_vec res) (big_vec op1) (big_vec op2) in
  Ret (mkBigInt v).

Definition neg (op : BigInt) : outcome BigInt :=
  let! b := get_bit_count op in
  let! res := new b in
  let! v := TEE_BigIntNeg (big_vec res) (big_vec op) in
  Ret (mkBigInt v).

Definition multiply (op1 op2 : BigInt) : outcome BigInt :=
  let! b1 := get_bit_count op1 in
  let! b2 := get_bit_count op2 in
  let! bits := add_u 32 b1 b2 in
  let! res := new bits in
  let! v := TEE_BigIntMul (big_vec res) (big_vec op1) (big_vec op2) in
  Ret (mkBigInt v).

(** [2 * bits] as an addition: the same value and the same overflow. *)
Definition square (op : BigInt) : outcome BigInt :=
  let! b := get_bit_count op in
  let! bits := add_u 32 b b in
  let! res := new bits in
  let! v := TEE_BigIntSquare (big_vec res) (big_vec op) in
  Ret (mkBigInt v).

Definition divide (op1 op2 : BigInt) : outcome (BigInt * BigInt) :=
  let! b1 := get_bit_count op1 in
  let! b2 := get_bit_count op2 in
  let! d := sub_u 32 b1 b2 in
  let! d1 := add_u 32 d 1 in
  let q_bits := Z.max 1 d1 in
  let! r_bits := get_bit_count op2 in
  let! quotient := new q_bits in
  let! remainder := new r_bits in
  let! (q, r) := TEE_BigIntDiv (big_vec quotient) (big_vec remainder) (big_vec op1) (big_vec op2) in
  Ret (mkBigInt q, mkBigInt r).

(** The operations modulo [n] have a result of [n]'s size. *)
Definition in_modulus (n : BigInt) (f : words -> outcome words) : outcome BigInt :=
  let! b := get_bit_count n in
  let! res := new b in
  let! v := f (big_vec res) in
  Ret (mkBigInt v).

Definition module (op n : BigInt) : outcome BigInt :=
  in_modulus n (fun res => TEE_BigIntMod res (big_vec op) (big_vec n)).
Definition add_mod (op1 op2 n : BigInt) : outcome BigInt :=
  in_modulus n (fun res => TEE_BigIntAddMod res (big_vec op1) (big_vec op2) (big_vec n)).
Definition sub_mod (op1 op2 n : BigInt) : outcome BigInt :=
  in_modulus n (fun res => TEE_BigIntSubMod res (big_vec op1) (big_vec op2) (big_vec n)).
Definition mul_mod (op1 op2 n : BigInt) : outcome BigInt :=
  in_modulus n (fun res => TEE_BigIntMulMod res (big_vec op1) (big_vec op2) (big_vec n)).
Definition square_mod (op n : BigInt) : outcome BigInt :=
  in_modulus n (fun res => TEE_BigIntSquareMod res (big_vec op) (big_vec n)).
Definition inv_mod (op n : BigInt) : outcome BigInt :=
  in_modulus n (fun res => TEE_BigIntInvMod res (big_vec op) (big_vec n)).

Definition exp_mod (op1 op2 n : BigInt) (context : BigIntFMMContext.BigIntFMMContext)
    : outcome (Result BigInt) :=
  let! b := get_bit_count n in
  let! res := new b in
  let! (code, v) := TEE_BigIntExpMod (big_vec res) (big_vec op1) (big_vec op2) (big_vec n)
                      (BigIntFMMContext.ctx_vec context) in
  Ret (checked code (mkBigInt v)).

Definition relative_prime (op1 op2 : BigInt) : outcome bool :=
  TEE_BigIntRelativePrime (big_vec op1) (big_vec op2).

Definition assign (self op2 : BigInt) : outcome (Result unit * BigInt) :=
  let! (r, v) := reported (TEE_BigIntAssign (big_vec self) (big_vec op2)) in Ret (r, mkBigInt v).

Definition compute_extended_gcd (op1 op2 : BigInt) : outcome (BigInt * BigInt * BigInt) :=
  let! b1 := get_bit_count op1 in
  let! b2 := get_bit_count op2 in
  let gcd_bits := Z.max 1 (Z.max b1 b2) in
  let! gcd := new gcd_bits in
  let! u := new gcd_bits in
  let! v := new gcd_bits in
  let! (g, (u', v')) := TEE_BigIntComputeExtendedGcd (big_vec gcd) (big_vec u) (big_vec v)
                          (big_vec op1) (big_vec op2) in
  Ret (mkBigInt g, mkBigInt u', mkBigInt v').

Definition is_probable_prime (self : BigInt) (confidence_level : Z) : outcome Z :=
  TEE_BigIntIsProbablePrime (big_vec self) confidence_level.

Definition convert_to_big_int_from_fmm (self : BigInt) (src : BigIntFMM.BigIntFMM) (n : BigInt)
    (context : BigIntFMMContext.BigIntFMMContext) : outcome BigInt :=
  let! v := TEE_BigIntConvertFromFMM (big_vec self) (BigIntFMM.fmm_vec src) (big_vec n)
              (BigIntFMMContext.ctx_vec context) in
  Ret (mkBigInt v).

End Ops.
End BigIntOps.
