(* ===== verification/BigIntSpec.v ===== *)
(** * BigIntSpec: the results of big-number arithmetic fit and are exact

    The vectors the crate asks for are large enough: every expression built
    from its operations evaluates to the integer it denotes.  The one exception
    is a division by a number of more bits than the dividend. *)

From S2P Require Import Prelude TeeDefines UteeError BigInt.
Import BigIntOps.

(** ** Documented behaviour of the TEE's arithmetic *)

(** The number of bits of the magnitude. *)
Definition bit_count (v : Z) : Z := if v =? 0 then 0 else Z.log2 (Z.abs v) + 1.

(** The unsigned big-endian number of an octet string. *)
Definition from_digits (base : Z) (l : list Z) : Z := fold_right (fun d acc => d + base * acc) 0 l.
Definition be_value (l : bytes) : Z := from_digits 256 (reverse l).

(** The bits of magnitude a vector has room for: all words but the two of the
    TEE's header. *)
Definition capacity (l : words) : Z := 32 * (len l - 2).

(** A vector the TEE has initialised, the integer it holds, and the property
    [gpd.tee.arith.maxBigIntSize]. *)
Class ArithView : Type := {
  big_ok : words -> Prop;
  big_value : words -> Z;
  big_max_bits : Z;
}.

Section View.
Context `{!ArithView}.

(** The destination [d] afterwards holds [v]. *)
Definition holds (d d' : words) (v : Z) : Prop :=
  big_ok d' /\ len d' = len d /\ big_value d' = v.
Definition writes (r : outcome words) (d : words) (v : Z) : Prop :=
  exists d', r = Ret d' /\ holds d d' v.
Abbreviation bits l := (bit_count (big_value l)).

Definition residue (n v : Z) : Prop := 0 <= v < n.

(** The GlobalPlatform functions, each with the memory its description asks
    for. *)
Class TeeArithOk `{!TeeArith} : Prop := {
  big_room l : big_ok l -> 2 <= len l /\ bits l <= capacity l /\ in_u 32 (bits l);
  init_ok l : 2 <= len l -> capacity l <= big_max_bits -> writes (TEE_BigIntInit l (len l)) l 0;
  count_ok l : big_ok l -> TEE_BigIntGetBitCount l = Ret (bits l);
  abs_ok d a : big_ok d -> big_ok a -> bits a <= capacity d ->
    exists d', TEE_BigIntAbs d a = Ret (TEE_SUCCESS, d') /\ holds d d' (Z.abs (big_value a));
  add_ok d a b : big_ok d -> big_ok a -> big_ok b -> Z.max (bits a) (bits b) + 1 <= capacity d ->
    writes (TEE_BigIntAdd d a b) d (big_value a + big_value b);
  sub_ok d a b : big_ok d -> big_ok a -> big_ok b -> Z.max (bits a) (bits b) + 1 <= capacity d ->
    writes (TEE_BigIntSub d a b) d (big_value a - big_value b);
  neg_ok d a : big_ok d -> big_ok a -> bits a <= capacity d ->
    writes (TEE_BigIntNeg d a) d (- big_value a);
  mul_ok d a b : big_ok d -> big_ok a -> big_ok b -> bits a + bits b <= capacity d ->
    writes (TEE_BigIntMul d a b) d (big_value a * big_value b);
  square_ok d a : big_ok d -> big_ok a -> 2 * bits a <= capacity d ->
    writes (TEE_BigIntSquare d a) d (big_value a * big_value a);
  div_ok q r a b : big_ok q -> big_ok r -> big_ok a -> big_ok b -> big_value b <> 0 ->
    bits a - bits b + 1 <= capacity q -> bits b <= capacity r ->
    exists q' r', TEE_BigIntDiv q r a b = Ret (q', r') /\
      holds q q' (Z.quot (big_value a) (big_value b)) /\
      holds r r' (Z.rem (big_value a) (big_value b));
  mod_ok d a n : big_ok d -> big_ok a -> big_ok n -> 2 <= big_value n -> bits n <= capacity d ->
    writes (TEE_BigIntMod d a n) d (big_value a mod big_value n);
  add_mod_ok d a b n : big_ok d -> big_ok a -> big_ok b -> big_ok n -> 2 <= big_value n ->
    residue (big_value n) (big_value a) -> residue (big_value n) (big_value b) ->
    bits n <= capacity d ->
    writes (TEE_BigIntAddMod d a b n) d ((big_value a + big_value b) mod big_value n);
  sub_mod_ok d a b n : big_ok d -> big_ok a -> big_ok b -> big_ok n -> 2 <= big_value n ->
    residue (big_value n) (big_value a) -> residue (big_value n) (big_value b) ->
    bits n <= capacity d ->
    writes (TEE_BigIntSubMod d a b n) d ((big_value a - big_value b) mod big_value n);
  mul_mod_ok d a b n : big_ok d -> big_ok a -> big_ok b -> big_ok n -> 2 <= big_value n ->
    residue (big_value n) (big_value a) -> residue (big_value n) (big_value b) ->
    bits n <= capacity d ->
    writes (TEE_BigIntMulMod d a b n) d ((big_value a * big_value b) mod big_value n);
  square_mod_ok d a n : big_ok d -> big_ok a -> big_ok n -> 2 <= big_value n ->
    residue (big_value n) (big_value a) -> bits n <= capacity d ->
    writes (TEE_BigIntSquareMod d a n) d ((big_value a * big_value a) mod big_value n);
  from_octets_ok d buf sign : big_ok d -> Forall is_byte buf ->
    exists code d', TEE_BigIntConvertFromOctetString d buf sign = Ret (code, d') /\
      if bit_count (be_value buf) <=? capacity d
      then code = TEE_SUCCESS /\
           holds d d' (if sign <? 0 then - be_value buf else be_value buf)
      else code = TEE_ERROR_OVERFLOW;
  (** The octet string has no leading zero bytes. *)
  to_octets_ok buf a : big_ok a -> bits a <= 8 * len buf ->
    exists n buf', TEE_BigIntConvertToOctetString buf (len buf) a = Ret (TEE_SUCCESS, (n, buf')) /\
      len buf' = len buf /\ 0 <= n <= len buf /\ n = div_ceil (bits a) 8 /\
      Forall is_byte (take (Z.to_nat n) buf') /\
      be_value (take (Z.to_nat n) buf') = Z.abs (big_value a);
}.

End View.

(** ** Expressions over the crate's operations *)

Inductive expr : Type :=
| Lit (a : BigInt)
| Add (a b : expr) | Sub (a b : expr) | Neg (a : expr) | Abs (a : expr)
| Mul (a b : expr) | Square (a : expr)
| Quot (a b : expr) | Rem (a b : expr)
| Mod (a n : expr) | AddMod (a b n : expr) | SubMod (a b n : expr) | MulMod (a b n : expr)
| SquareMod (a n : expr).

Section Eval.
Context `{!Profile, !TeeArith, !Heap}.

Definition pure (r : outcome BigInt) : outcome (Result BigInt) := let! v := r in Ret (Ok v).

Fixpoint eval (e : expr) : outcome (Result BigInt) :=
  match e with
  | Lit a => Ret (Ok a)
  | Add a b => otry (eval a) (fun x => otry (eval b) (fun y => pure (add x y)))
  | Sub a b => otry (eval a) (fun x => otry (eval b) (fun y => pure (sub x y)))
  | Neg a => otry (eval a) (fun x => pure (neg x))
  | Abs a => otry (eval a) (fun x => abs x)
  | Mul a b => otry (eval a) (fun x => otry (eval b) (fun y => pure (multiply x y)))
  | Square a => otry (eval a) (fun x => pure (square x))
  | Quot a b => otry (eval a) (fun x => otry (eval b) (fun y =>
      let! (q, _) := divide x y in Ret (Ok q)))
  | Rem a b => otry (eval a) (fun x => otry (eval b) (fun y =>
      let! (_, r) := divide x y in Ret (Ok r)))
  | Mod a n => otry (eval a) (fun x => otry (eval n) (fun m => pure (module x m)))
  | AddMod a b n => otry (eval a) (fun x => otry (eval b) (fun y => otry (eval n) (fun m =>
      pure (add_mod x y m))))
  | SubMod a b n => otry (eval a) (fun x => otry (eval b) (fun y => otry (eval n) (fun m =>
      pure (sub_mod x y m))))
  | MulMod a b n => otry (eval a) (fun x => otry (eval b) (fun y => otry (eval n) (fun m =>
      pure (mul_mod x y m))))
  | SquareMod a n => otry (eval a) (fun x => otry (eval n) (fun m => pure (square_mod x m)))
  end.

Context `{!ArithView}.

Fixpoint denote (e : expr) : Z :=
  match e with
  | Lit a => big_value (big_vec a)
  | Add a b => denote a + denote b
  | Sub a b => denote a - denote b
  | Neg a => - denote a
  | Abs a => Z.abs (denote a)
  | Mul a b => denote a * denote b
  | Square a => denote a * denote a
  | Quot a b => Z.quot (denote a) (denote b)
  | Rem a b => Z.rem (denote a) (denote b)
  | Mod a n => denote a mod denote n
  | AddMod a b n => (denote a + denote b) mod denote n
  | SubMod a b n => (denote a - denote b) mod denote n
  | MulMod a b n => (denote a * denote b) mod denote n
  | SquareMod a n => (denote a * denote a) mod denote n
  end.

(** A result of [n] bits: the count is a [u32], the heap has room, and the TEE
    supports the size. *)
Definition room (n : Z) : Prop :=
  n < 2 ^ 32 /\ size_in_u32 n <= heap_words /\ 32 * div_ceil n 32 <= big_max_bits.

(** The TEE's preconditions, and room for every result.  Division asks more:
    the divisor must not have more bits than the dividend. *)
Fixpoint defined (e : expr) : Prop :=
  match e with
  | Lit a => big_ok (big_vec a)
  | Add a b | Sub a b =>
      defined a /\ defined b /\ room (Z.max (bit_count (denote a)) (bit_count (denote b)) + 1)
  | Neg a | Abs a => defined a /\ room (bit_count (denote a))
  | Mul a b => defined a /\ defined b /\ room (bit_count (denote a) + bit_count (denote b))
  | Square a => defined a /\ room (2 * bit_count (denote a))
  | Quot a b | Rem a b =>
      defined a /\ defined b /\ denote b <> 0 /\ bit_count (denote b) <= bit_count (denote a) /\
      room (bit_count (denote a) - bit_count (denote b) + 1) /\ room (bit_count (denote b))
  | Mod a n => defined a /\ defined n /\ 2 <= denote n /\ room (bit_count (denote n))
  | AddMod a b n | SubMod a b n | MulMod a b n =>
      defined a /\ defined b /\ defined n /\ 2 <= denote n /\
      residue (denote n) (denote a) /\ residue (denote n) (denote b) /\
      room (bit_count (denote n))
  | SquareMod a n =>
      defined a /\ defined n /\ 2 <= denote n /\ residue (denote n) (denote a) /\
      room (bit_count (denote n))
  end.

End Eval.

(** ** Sizes *)

Lemma bit_count_nonneg v : 0 <= bit_count v.
Proof. unfold bit_count. case_if; [lia|]. pose proof (Z.log2_nonneg (Z.abs v)). lia. Qed.

(** [bit_count] is the least width: a magnitude below [2 ^ k] has at most [k] bits. *)
Lemma bit_count_le v k : 0 <= k -> (bit_count v <= k <-> Z.abs v < 2 ^ k).
Proof.
  intros Hk. unfold bit_count. case_if.
  - subst v. cbn. split; [|done]. intros _. lia.
  - rewrite Z.log2_lt_pow2 by lia. lia.
Qed.

Lemma div_ceil_bound n : 0 <= n -> n <= 32 * div_ceil n 32 < n + 32.
Proof.
  intros Hn. unfold div_ceil. pose proof (Z.div_mod n 32 ltac:(done)).
  pose proof (Z.mod_pos_bound n 32 ltac:(done)). case_if; lia.
Qed.

Lemma size_in_u32_bound n : 0 <= n -> n <= 32 * (size_in_u32 n - 2) < n + 32.
Proof. unfold size_in_u32. pose proof (div_ceil_bound n). lia. Qed.

Section Arithmetic.
Context `{!Profile, !ArithView, !TeeArith, !TeeArithOk, !Heap}.

(** [new] gives a vector with room for the bits asked for. *)
Lemma new_spec n :
  0 <= n -> room n -> exists a, new n = Ret a /\ big_ok (big_vec a) /\ n <= capacity (big_vec a).
Proof.
  intros Hn (Hlt & Hheap & Hmax). pose proof (size_in_u32_bound n Hn) as Hs.
  unfold new, vec_words. rewrite (proj2 (Z.leb_le _ _) Hheap). cbn [outcome_bind].
  assert (len (zeros (size_in_u32 n)) = size_in_u32 n) as Hl by (apply len_zeros; lia).
  destruct (init_ok (zeros (size_in_u32 n))) as (d & Ed & Hd & Hlen & _).
  - lia.
  - unfold capacity. rewrite Hl. unfold size_in_u32. lia.
  - rewrite Hl in Ed. rewrite Ed. exists (mkBigInt d). split_and!; [done|done|].
    cbn [big_vec]. unfold capacity. rewrite Hlen, Hl. lia.
Qed.

(** What a method promises: a well-formed number of the given value. *)
Definition gives (r : outcome BigInt) (v : Z) : Prop :=
  exists a, r = Ret a /\ big_ok (big_vec a) /\ big_value (big_vec a) = v.

(** The common shape: allocate for [n] bits, let the TEE write. *)
Lemma allocate_write n f v :
  0 <= n -> room n -> (forall d, big_ok d -> n <= capacity d -> writes (f d) d v) ->
  gives (let! res := new n in let! w := f (big_vec res) in Ret (mkBigInt w)) v.
Proof.
  intros Hn Hr Hf. destruct (new_spec n Hn Hr) as (a & -> & Ha & Hc). cbn [outcome_bind].
  destruct (Hf _ Ha Hc) as (d' & -> & Hd' & _ & Hv). by exists (mkBigInt d').
Qed.

Lemma add_u_room x y : room (x + y) -> add_u 32 x y = Ret (x + y).
Proof. intros [Hlt _]. unfold add_u. by rewrite (proj2 (Z.ltb_lt _ _) Hlt). Qed.

Abbreviation ok a := (big_ok (big_vec a)).
Abbreviation val a := (big_value (big_vec a)).
Abbreviation bits a := (bit_count (big_value (big_vec a))).

(** Read the bit counts and add them up; then allocate and write. *)
Ltac counts :=
  unfold get_bit_count; rewrite ?count_ok by done; cbn [outcome_bind];
  rewrite ?add_u_room by done; cbn [outcome_bind].
Ltac writes_to f :=
  apply (allocate_write _ f);
    [pose proof bit_count_nonneg; eauto using Z.add_nonneg_nonneg, Z.le_trans, Z.le_max_l with lia
    |done|intros d Hd Hc].

Lemma add_gives a b : ok a -> ok b -> room (Z.max (bits a) (bits b) + 1) ->
  gives (add a b) (val a + val b).
Proof.
  intros. unfold add. counts. writes_to (fun d => TEE_BigIntAdd d (big_vec a) (big_vec b)).
  by apply add_ok.
Qed.

Lemma sub_gives a b : ok a -> ok b -> room (Z.max (bits a) (bits b) + 1) ->
  gives (sub a b) (val a - val b).
Proof.
  intros. unfold sub. counts. writes_to (fun d => TEE_BigIntSub d (big_vec a) (big_vec b)).
  by apply sub_ok.
Qed.

Lemma neg_gives a : ok a -> room (bits a) -> gives (neg a) (- val a).
Proof.
  intros. unfold neg. counts. writes_to (fun d => TEE_BigIntNeg d (big_vec a)). by apply neg_ok.
Qed.

Lemma multiply_gives a b : ok a -> ok b -> room (bits a + bits b) ->
  gives (multiply a b) (val a * val b).
Proof.
  intros. unfold multiply. counts. writes_to (fun d => TEE_BigIntMul d (big_vec a) (big_vec b)).
  by apply mul_ok.
Qed.

Lemma square_gives a : ok a -> room (2 * bits a) -> gives (square a) (val a * val a).
Proof.
  intros Ha Hr. rewrite <- Z.add_diag in Hr. unfold square. counts.
  writes_to (fun d => TEE_BigIntSquare d (big_vec a)). apply square_ok; [done..|lia].
Qed.

Lemma abs_gives a : ok a -> room (bits a) ->
  exists r, abs a = Ret (Ok r) /\ ok r /\ val r = Z.abs (val a).
Proof.
  intros Ha Hr. unfold abs. counts.
  destruct (new_spec _ (bit_count_nonneg _) Hr) as (d & -> & Hd & Hc). cbn [outcome_bind].
  destruct (abs_ok _ _ Hd Ha Hc) as (d' & -> & Hd' & _ & Hv). by exists (mkBigInt d').
Qed.

Lemma in_modulus_gives n f v : ok n -> room (bits n) ->
  (forall d, big_ok d -> bits n <= capacity d -> writes (f d) d v) -> gives (in_modulus n f) v.
Proof. intros. unfold in_modulus. counts. writes_to f. auto. Qed.

(** The divisor has at most as many bits as the dividend. *)
Lemma divide_gives a b : ok a -> ok b -> val b <> 0 -> bits b <= bits a ->
  room (bits a - bits b + 1) -> room (bits b) ->
  exists q r, divide a b = Ret (q, r) /\ (ok q /\ val q = Z.quot (val a) (val b)) /\
    (ok r /\ val r = Z.rem (val a) (val b)).
Proof.
  intros Ha Hb Hb0 Hle Hq Hr. unfold divide. counts.
  unfold sub_u. rewrite (proj2 (Z.leb_le _ _) Hle). cbn [outcome_bind]. counts.
  replace (Z.max 1 _) with (bits a - bits b + 1) by lia.
  assert (0 <= bits a - bits b + 1) as Hpos by lia.
  destruct (new_spec _ Hpos Hq) as (q & -> & Hqo & Hqc). cbn [outcome_bind].
  destruct (new_spec _ (bit_count_nonneg _) Hr) as (r & -> & Hro & Hrc). cbn [outcome_bind].
  destruct (div_ok (big_vec q) (big_vec r) (big_vec a) (big_vec b)) as (q' & r' & -> & Hq' & Hr');
    [done..|]. destruct Hq' as (? & _ & ?), Hr' as (? & _ & ?).
  by exists (mkBigInt q'), (mkBigInt r').
Qed.

(** ** Expressions evaluate to what they denote *)

Definition evaluates (r : outcome (Result BigInt)) (v : Z) : Prop :=
  exists a, r = Ret (Ok a) /\ ok a /\ val a = v.

Lemma pure_evaluates r v : gives r v -> evaluates (pure r) v.
Proof. intros (a & -> & Ha). by exists a. Qed.

Lemma otry_evaluates r v f w :
  evaluates r v -> (forall x, ok x -> val x = v -> evaluates (f x) w) -> evaluates (otry r f) w.
Proof. intros (a & -> & Ha & Hv) Hf. by apply Hf. Qed.

(** Evaluate a subexpression, and speak of its value from then on. *)
Ltac operand IH :=
  eapply otry_evaluates; [by apply IH|];
  let x := fresh "x" in let Hx := fresh "Hx" in let Ex := fresh "Ex" in
  intros x Hx Ex; rewrite <- Ex in *; clear Ex.

(** A modular operation: its result has the modulus' size. *)
Ltac modular law :=
  apply pure_evaluates, in_modulus_gives; [done|done|]; intros; by apply law.

(** C35: arithmetic with [BigInt]s is exact: every expression built from the
    crate's operations evaluates, without panicking, to a number holding the
    integer the expression denotes, whenever the TEE's preconditions hold
    (divisor not zero, modulus at least 2, reduced operands), every result is
    of a size that the heap and the TEE support, and no dividend has fewer bits
    than its divisor.  So every destination the crate allocates is large enough. *)
Theorem bigint_expressions_exact e : defined e -> evaluates (eval e) (denote e).
Proof.
  induction e as [a|a IHa b IHb|a IHa b IHb|a IHa|a IHa|a IHa b IHb|a IHa|a IHa b IHb|a IHa b IHb
    |a IHa n IHn|a IHa b IHb n IHn|a IHa b IHb n IHn|a IHa b IHb n IHn|a IHa n IHn];
    cbn [eval denote defined]; intros He; repeat destruct He as [? He].
  - by exists a.
  - operand IHa. operand IHb. by apply pure_evaluates, add_gives.
  - operand IHa. operand IHb. by apply pure_evaluates, sub_gives.
  - operand IHa. by apply pure_evaluates, neg_gives.
  - operand IHa. by apply abs_gives.
  - operand IHa. operand IHb. by apply pure_evaluates, multiply_gives.
  - operand IHa. by apply pure_evaluates, square_gives.
  - operand IHa. operand IHb. destruct (divide_gives x x0) as (q & r & -> & Hq & _); [done..|].
    by exists q.
  - operand IHa. operand IHb. destruct (divide_gives x x0) as (q & r & -> & _ & Hr); [done..|].
    by exists r.
  - operand IHa. operand IHn. modular mod_ok.
  - operand IHa. operand IHb. operand IHn. modular add_mod_ok.
  - operand IHa. operand IHb. operand IHn. modular sub_mod_ok.
  - operand IHa. operand IHb. operand IHn. modular mul_mod_ok.
  - operand IHa. operand IHn. modular square_mod_ok.
Qed.

(** Dividing by a number of more bits, whose quotient is simply 0, fails:
    the crate computes the quotient's size as [bits(op1) - bits(op2) + 1] in
    [u32] before taking the maximum with 1.  With overflow checks it panics;
    without them it asks for a vector of more than 2^31 bits, which no heap of
    256 MiB holds, unless the difference is exactly 1 and the sum wraps around
    to 0. *)
Lemma bigint_divide_short_dividend a b :
  ok a -> ok b -> bits a < bits b ->
  Z.quot (val a) (val b) = 0 /\
  (overflow_checks = true -> divide a b = Panic) /\
  (overflow_checks = false -> 1 < bits b - bits a < 2 ^ 31 -> heap_words < 2 ^ 26 ->
     divide a b = Panic) /\
  (overflow_checks = false -> bits b - bits a = 1 -> room 1 -> room (bits b) ->
     exists q r, divide a b = Ret (q, r) /\ val q = 0 /\ val r = val a).
Proof.
  intros Ha Hb Hlt. pose proof (bit_count_nonneg (val a)) as Hpos.
  destruct (big_room _ Hb) as (_ & _ & Hb32). unfold in_u in Hb32.
  assert (Z.abs (val a) < Z.abs (val b)) as Habs.
  { destruct (Z.lt_ge_cases (Z.abs (val a)) (Z.abs (val b))) as [?|Hge]; [done|exfalso].
    assert (bits b <= bits a); [|lia]. apply bit_count_le; [done|].
    eapply Z.le_lt_trans; [exact Hge|]. by apply bit_count_le. }
  assert (Z.quot (val a) (val b) = 0) as Hq0 by (apply Z.quot_small_iff; lia).
  unfold divide. counts. unfold sub_u. rewrite (proj2 (Z.leb_gt _ _) Hlt).
  split_and!; [done|intros ->; done|intros -> Hd Hheap|intros Hoc Hd Hr1 Hrb; rewrite Hoc]; cbn [outcome_bind].
  - unfold wrap_u. rewrite <- (Z.mod_add _ 1), Z.mod_small by lia.
    unfold add_u. case_if; [|lia]. cbn [outcome_bind]. counts.
    match goal with |- context [new ?n] =>
      assert (0 <= n) as Hn by lia; pose proof (size_in_u32_bound n Hn) end.
    unfold new, vec_words. case_if; [lia|done].
  - replace (bits a - bits b) with (-1) by lia.
    unfold add_u at 1. rewrite Hoc. change (if _ <? _ then _ else _) with (Ret (A:=Z) 0). cbn [outcome_bind].
    change (Z.max 1 0) with 1. counts.
    destruct (new_spec 1 ltac:(lia) Hr1) as (q & -> & Hqo & Hqc). cbn [outcome_bind].
    destruct (new_spec _ (bit_count_nonneg _) Hrb) as (r & -> & Hro & Hrc). cbn [outcome_bind].
    destruct (div_ok (big_vec q) (big_vec r) (big_vec a) (big_vec b)) as (q' & r' & -> & Hq' & Hr');
      [done..|intros E; rewrite E in *; lia|lia|done|].
    destruct Hq' as (_ & _ & Hq'), Hr' as (_ & _ & Hr'). exists (mkBigInt q'), (mkBigInt r').
    split_and!; [done|cbn [big_vec]; congruence|]. cbn [big_vec]. rewrite Hr'.
    pose proof (Z.quot_rem' (val a) (val b)). lia.
Qed.

(** Octet strings carry every magnitude: [convert_to_octet_string] always
    has room, gives the shortest big-endian string, and reading that string
    back with the sign gives the number again, in any number with the capacity
    for it; a number that is too small answers [Overflow]. *)
Lemma bigint_octets_round_trip a d sign :
  ok a -> ok d -> (sign < 0 <-> val a < 0) ->
  exists bs, convert_to_octet_string a = Ret (Ok bs) /\
    Forall is_byte bs /\ be_value bs = Z.abs (val a) /\ len bs = div_ceil (bits a) 8 /\
    exists r d', convert_from_octet_string d bs sign = Ret (r, d') /\
      if bits a <=? capacity (big_vec d) then r = Ok tt /\ ok d' /\ val d' = val a
      else exists e, r = Err e /\ Error.kind e = ErrorKind.Overflow.
Proof.
  intros Ha Hd Hs. destruct (big_room _ Ha) as (Hl & Hc & _). unfold convert_to_octet_string.
  rewrite (proj2 (Z.ltb_ge _ _) Hl). unfold capacity in Hc.
  assert (len (zeros ((len (big_vec a) - 2) * 4)) = (len (big_vec a) - 2) * 4) as Hz
    by (apply len_zeros; lia).
  destruct (to_octets_ok (zeros ((len (big_vec a) - 2) * 4)) _ Ha) as
    (n & buf & E & Hb & Hn & Hn8 & Hby & Hv); [lia|].
  rewrite Hz in E. rewrite E. cbn [outcome_bind]. exists (take (Z.to_nat n) buf).
  split_and!; [done|done|done|rewrite len_take; lia|]. unfold convert_from_octet_string, reported.
  destruct (from_octets_ok _ _ sign Hd Hby) as (code & d' & -> & Hif). cbn [outcome_bind].
  eexists _, _. split; [reflexivity|]. rewrite Hv in Hif.
  replace (bit_count (Z.abs (val a))) with (bits a) in Hif
    by (unfold bit_count; rewrite Z.abs_idemp; repeat case_if; lia).
  destruct (bits a <=? capacity (big_vec d)).
  - destruct Hif as (-> & Hd' & _ & Hval). split_and!; [done|done|]. cbn [big_vec].
    rewrite Hval. case_if; lia.
  - subst code. eexists. by split; [reflexivity|].
Qed.

End Arithmetic.

(** ** How many bits results have *)

Lemma bit_count_upper v : Z.abs v < 2 ^ bit_count v.
Proof. apply bit_count_le; [apply bit_count_nonneg|done]. Qed.

Lemma bit_count_lower v : v <> 0 -> 2 ^ (bit_count v - 1) <= Z.abs v.
Proof.
  intros Hv. unfold bit_count. case_if; [done|]. rewrite Z.add_simpl_r.
  apply Z.log2_spec. lia.
Qed.

Lemma bit_count_mono v w : Z.abs v <= Z.abs w -> bit_count v <= bit_count w.
Proof.
  intros. apply bit_count_le; [apply bit_count_nonneg|]. pose proof (bit_count_upper w). lia.
Qed.

Lemma bit_count_sum v a b :
  Z.abs v <= Z.abs a + Z.abs b -> bit_count v <= Z.max (bit_count a) (bit_count b) + 1.
Proof.
  intros Hv. pose proof (bit_count_nonneg a). pose proof (bit_count_nonneg b).
  apply bit_count_le; [lia|]. rewrite Z.pow_add_r by lia.
  pose proof (bit_count_upper a). pose proof (bit_count_upper b).
  pose proof (Z.pow_le_mono_r 2 (bit_count a) (Z.max (bit_count a) (bit_count b)) ltac:(lia) ltac:(lia)).
  pose proof (Z.pow_le_mono_r 2 (bit_count b) (Z.max (bit_count a) (bit_count b)) ltac:(lia) ltac:(lia)).
  lia.
Qed.

Lemma bit_count_mul a b : bit_count (a * b) <= bit_count a + bit_count b.
Proof.
  pose proof (bit_count_nonneg a). pose proof (bit_count_nonneg b).
  apply bit_count_le; [lia|]. rewrite Z.pow_add_r, Z.abs_mul by lia.
  pose proof (bit_count_upper a). pose proof (bit_count_upper b). nia.
Qed.

Lemma bit_count_quot a b k :
  b <> 0 -> 0 <= k -> bit_count a - bit_count b + 1 <= k -> bit_count (Z.quot a b) <= k.
Proof.
  intros Hb Hk Hab. apply bit_count_le; [done|]. rewrite <- Z.quot_abs by done.
  rewrite Z.quot_div_nonneg by lia. apply Z.div_lt_upper_bound; [lia|].
  pose proof (bit_count_lower b Hb). pose proof (bit_count_upper a).
  assert (0 < bit_count b) as Hbc
    by (unfold bit_count; case_if; [done|]; pose proof (Z.log2_nonneg (Z.abs b)); lia).
  eapply Z.lt_le_trans; [done|]. eapply Z.le_trans.
  - apply (Z.pow_le_mono_r 2 _ (bit_count b - 1 + k)); lia.
  - rewrite Z.pow_add_r by lia. apply Z.mul_le_mono_nonneg_r; [by apply Z.pow_nonneg|done].
Qed.

Lemma bit_count_rem a b : b <> 0 -> bit_count (Z.rem a b) <= bit_count b.
Proof. intros Hb. apply bit_count_mono. pose proof (Z.rem_bound_abs a b Hb). lia. Qed.

Lemma bit_count_mod a n : 0 < n -> bit_count (a mod n) <= bit_count n.
Proof. intros Hn. apply bit_count_mono. pose proof (Z.mod_pos_bound a n Hn). lia. Qed.

(** ** A TEE for the properties

    A number is a sign word, an unused word, and its magnitude in 32-bit words,
    least significant first. *)

Fixpoint to_digits (base : Z) (k : nat) (v : Z) : list Z :=
  match k with
  | O => []
  | S k' => v mod base :: to_digits base k' (v / base)
  end.

Lemma to_digits_length base k v : length (to_digits base k v) = k.
Proof. revert v. induction k as [|k IH]; intros v; cbn; [done|by rewrite IH]. Qed.

Lemma from_to_digits base k : 0 < base -> forall v,
  0 <= v < base ^ Z.of_nat k -> from_digits base (to_digits base k v) = v.
Proof.
  intros Hbase. induction k as [|k IH]; intros v Hv.
  - cbn in *. lia.
  - cbn [to_digits from_digits fold_right]. fold (from_digits base (to_digits base k (v / base))).
    rewrite Nat2Z.inj_succ, Z.pow_succ_r in Hv by lia. rewrite IH.
    + pose proof (Z.div_mod v base ltac:(lia)). lia.
    + split; [apply Z.div_pos; lia|]. apply Z.div_lt_upper_bound; lia.
Qed.

Lemma to_digits_range base k v : 0 < base -> Forall (fun d => 0 <= d < base) (to_digits base k v).
Proof.
  intros Hbase. revert v. induction k as [|k IH]; intros v; cbn; constructor; [|done].
  by apply Z.mod_pos_bound.
Qed.

Lemma from_digits_range base l : 0 < base -> Forall (fun d => 0 <= d < base) l ->
  0 <= from_digits base l < base ^ len l.
Proof.
  intros Hbase. induction 1 as [|d l Hd _ IH]; [done|]. rewrite len_cons, Z.pow_add_r by
    (pose proof (len_nonneg l); lia). cbn [from_digits fold_right].
  fold (from_digits base l). rewrite Z.pow_1_r. nia.
Qed.

Module PlainArith.

Definition enc (n : Z) (v : Z) : words :=
  (if v <? 0 then 1 else 0) :: 0 :: to_digits (2 ^ 32) (Z.to_nat (n - 2)) (Z.abs v).

Definition dec (l : words) : Z :=
  match l with
  | s :: _ :: m => if s =? 1 then - from_digits (2 ^ 32) m else from_digits (2 ^ 32) m
  | _ => 0
  end.

#[local] Instance plain_view : ArithView := {|
  big_ok l := 2 <= len l /\ capacity l <= 4096 /\ Forall (in_u 32) (drop 2 l);
  big_value := dec;
  big_max_bits := 4096;
|}.

(** Write [v] to [d] when it fits. *)
Definition put (d : words) (v : Z) : outcome words :=
  if bit_count v <=? capacity d then Ret (enc (len d) v) else Panic.

Definition put_mod (d : words) (v n : words) (f : Z) : outcome words :=
  if dec n <? 2 then Panic else put d (f mod dec n).

#[local] Instance plain_arith : TeeArith := {|
  TEE_BigIntInit l n := if capacity l <=? 4096 then Ret (enc n 0) else Panic;
  TEE_BigIntConvertFromOctetString d buf sign :=
    if bit_count (be_value buf) <=? capacity d
    then Ret (TEE_SUCCESS, enc (len d) (if sign <? 0 then - be_value buf else be_value buf))
    else Ret (TEE_ERROR_OVERFLOW, d);
  TEE_BigIntConvertToOctetString buf n a :=
    let k := div_ceil (bit_count (dec a)) 8 in
    if k <=? n
    then Ret (TEE_SUCCESS, (k, splice buf 0 (reverse (to_digits 256 (Z.to_nat k) (Z.abs (dec a))))))
    else Ret (TEE_ERROR_SHORT_BUFFER, (k, buf));
  TEE_BigIntConvertFromS32 := put;
  TEE_BigIntConvertToS32 a :=
    Ret (if bit_count (dec a) <? 32 then TEE_SUCCESS else TEE_ERROR_OVERFLOW, dec a);
  TEE_BigIntCmp a b := Ret (Z.sgn (dec a - dec b));
  TEE_BigIntCmpS32 a b := Ret (Z.sgn (dec a - b));
  TEE_BigIntShiftRight d a n := put d (Z.sgn (dec a) * Z.shiftr (Z.abs (dec a)) n);
  TEE_BigIntGetBit a i := Ret (Z.testbit (Z.abs (dec a)) i);
  TEE_BigIntGetBitCount a := Ret (bit_count (dec a));
  TEE_BigIntSetBit a i _ := Ret (TEE_ERROR_OVERFLOW, a);
  TEE_BigIntAbs d a :=
    if bit_count (dec a) <=? capacity d then Ret (TEE_SUCCESS, enc (len d) (Z.abs (dec a)))
    else Ret (TEE_ERROR_OVERFLOW, d);
  TEE_BigIntAdd d a b := put d (dec a + dec b);
  TEE_BigIntSub d a b := put d (dec a - dec b);
  TEE_BigIntNeg d a := put d (- dec a);
  TEE_BigIntMul d a b := put d (dec a * dec b);
  TEE_BigIntSquare d a := put d (dec a * dec a);
  TEE_BigIntDiv q r a b :=
    if dec b =? 0 then Panic
    else let! q' := put q (Z.quot (dec a) (dec b)) in
         let! r' := put r (Z.rem (dec a) (dec b)) in Ret (q', r');
  TEE_BigIntMod d a n := put_mod d a n (dec a);
  TEE_BigIntAddMod d a b n := put_mod d a n (dec a + dec b);
  TEE_BigIntSubMod d a b n := put_mod d a n (dec a - dec b);
  TEE_BigIntMulMod d a b n := put_mod d a n (dec a * dec b);
  TEE_BigIntSquareMod d a n := put_mod d a n (dec a * dec a);
  TEE_BigIntInvMod d a n := Panic;
  TEE_BigIntExpMod d a b n c := Panic;
  TEE_BigIntRelativePrime a b := Ret (Z.gcd (dec a) (dec b) =? 1);
  TEE_BigIntAssign d a := Ret (TEE_SUCCESS, a);
  TEE_BigIntComputeExtendedGcd g u v a b := Panic;
  TEE_BigIntIsProbablePrime a _ := Ret 0;
  TEE_BigIntConvertFromFMM d f n c := Panic;
  TEE_BigIntFMMContextSizeInU32 n := Ret 0;
  TEE_BigIntInitFMMContext c n m := Panic;
  TEE_BigIntFMMSizeInU32 n := Ret 0;
  TEE_BigIntInitFMM f n := Panic;
  TEE_BigIntConvertToFMM f a n c := Panic;
  TEE_BigIntComputeFMM f a b n c := Panic;
|}.

Lemma enc_holds d v :
  big_ok d -> bit_count v <= capacity d -> holds d (enc (len d) v) v.
Proof.
  intros (Hl & Hc & _) Hv. unfold capacity in *.
  assert (len (enc (len d) v) = len d) as Hlen.
  { unfold enc. rewrite !len_cons. unfold len at 1. rewrite to_digits_length. lia. }
  split; [split_and!|split; [done|]].
  - lia.
  - unfold capacity. lia.
  - cbn [enc drop]. by apply to_digits_range.
  - cbn [big_value plain_view dec enc]. rewrite from_to_digits; [|done|].
    + destruct (v <? 0) eqn:E; reflect_bool; cbn [Z.eqb Pos.eqb]; lia.
    + split; [lia|]. pose proof (proj1 (bit_count_le v (32 * (len d - 2)) ltac:(lia)) Hv).
      rewrite <- Z.pow_mul_r by lia. by rewrite Z2Nat.id by lia.
Qed.

Lemma put_writes d v : big_ok d -> bit_count v <= capacity d -> writes (put d v) d v.
Proof.
  intros Hd Hv. exists (enc (len d) v). unfold put. rewrite (proj2 (Z.leb_le _ _) Hv).
  split; [done|]. by apply enc_holds.
Qed.

Lemma put_mod_writes d a n v : big_ok d -> 2 <= dec n -> bit_count (dec n) <= capacity d ->
  writes (put_mod d a n v) d (v mod dec n).
Proof.
  intros Hd Hn Hc. unfold put_mod. rewrite (proj2 (Z.ltb_ge _ _) Hn).
  apply put_writes; [done|]. etrans; [apply bit_count_mod; lia|done].
Qed.

Lemma dec_room l : big_ok l -> bit_count (dec l) <= capacity l.
Proof.
  intros (Hl & _ & Hw). apply bit_count_le; unfold capacity; [lia|].
  destruct l as [|s [|x m]]; [done..|]. cbn [dec drop] in *.
  pose proof (from_digits_range (2 ^ 32) m ltac:(done) Hw) as Hm.
  rewrite !len_cons. replace (32 * (1 + (1 + len m) - 2)) with (32 * len m) by lia.
  rewrite Z.pow_mul_r by (try done; apply len_nonneg). case_if; lia.
Qed.

Lemma be_value_digits k v :
  0 <= v < 256 ^ Z.of_nat k -> be_value (reverse (to_digits 256 k v)) = v.
Proof. intros. unfold be_value. rewrite reverse_involutive. by apply from_to_digits. Qed.

#[local] Instance plain_arith_ok : TeeArithOk.
Proof.
  split.
  - intros l Hl. pose proof (dec_room l Hl) as Hb. pose proof (bit_count_nonneg (dec l)).
    destruct Hl as (Hl & Hc & _). unfold in_u. cbn [big_value plain_view]. lia.
  - intros l Hl Hc. cbn in Hc |- *. rewrite (proj2 (Z.leb_le _ _) Hc). eexists. split; [done|].
    assert (bit_count 0 <= capacity (zeros (len l))) as Hz
      by (unfold capacity, bit_count; cbn; rewrite len_zeros; lia).
    destruct (enc_holds (zeros (len l)) 0) as (H1 & H2 & H3); [|done|].
    + split_and!; unfold capacity in *; rewrite ?len_zeros by lia; [lia|lia|].
      apply Forall_drop. by apply Forall_replicate.
    + rewrite len_zeros in H1, H2, H3 by lia. by split_and!.
  - done.
  - intros d a Hd Ha Hc. cbn in *. rewrite (proj2 (Z.leb_le _ _) Hc). eexists. split; [done|].
    apply enc_holds; [done|]. etrans; [apply bit_count_mono|done]. lia.
  - intros d a b Hd Ha Hb Hc. apply put_writes; [done|]. etrans; [|done].
    apply bit_count_sum. cbn. lia.
  - intros d a b Hd Ha Hb Hc. apply put_writes; [done|]. etrans; [|done].
    apply bit_count_sum. cbn. lia.
  - intros d a Hd Ha Hc. apply put_writes; [done|]. etrans; [apply bit_count_mono|done]. cbn. lia.
  - intros d a b Hd Ha Hb Hc. apply put_writes; [done|]. etrans; [apply bit_count_mul|done].
  - intros d a Hd Ha Hc. apply put_writes; [done|]. etrans; [apply bit_count_mul|cbn in *; lia].
  - intros q r a b Hq Hr Ha Hb Hb0 Hqc Hrc. cbn [TEE_BigIntDiv plain_arith big_value plain_view] in *.
    rewrite (proj2 (Z.eqb_neq _ _) Hb0).
    destruct (put_writes q (Z.quot (dec a) (dec b))) as (q' & -> & Hq'); [done| |].
    { apply bit_count_quot; [done| |done]. destruct Hq. unfold capacity. lia. }
    destruct (put_writes r (Z.rem (dec a) (dec b))) as (r' & -> & Hr'); [done| |].
    { etrans; [by apply bit_count_rem|done]. }
    by exists q', r'.
  - intros. by apply put_mod_writes.
  - intros. by apply put_mod_writes.
  - intros. by apply put_mod_writes.
  - intros. by apply put_mod_writes.
  - intros. by apply put_mod_writes.
  - intros d buf sign Hd _. cbn. case_if.
    + eexists _, _. split; [done|]. split; [done|]. apply enc_holds; [done|].
      case_if; [|done]. etrans; [apply bit_count_mono|done]. lia.
    + eexists _, _. by split.
  - intros buf a Ha Hc. cbn [TEE_BigIntConvertToOctetString plain_arith big_value plain_view] in *.
    pose proof (bit_count_nonneg (dec a)) as Hpos.
    set (k := div_ceil (bit_count (dec a)) 8).
    assert (0 <= k /\ bit_count (dec a) <= 8 * k /\ k <= len buf) as (Hk & Hk8 & Hkb).
    { unfold k, div_ceil. pose proof (Z.div_mod (bit_count (dec a)) 8 ltac:(done)).
      pose proof (Z.mod_pos_bound (bit_count (dec a)) 8 ltac:(done)). case_if; lia. }
    rewrite (proj2 (Z.leb_le _ _) Hkb). set (ds := reverse _).
    assert (len ds = k) as Hds
      by (unfold ds, len; rewrite length_reverse, to_digits_length; lia).
    assert (take (Z.to_nat k) (splice buf 0 ds) = ds) as Ht.
    { pose proof (splice_mid buf 0 ds ltac:(lia) ltac:(lia)) as Hm. cbn [drop Z.to_nat] in Hm.
      rewrite drop_0 in Hm. rewrite <- Hm at 2. f_equal. unfold len in Hds. lia. }
    eexists _, _. split; [reflexivity|]. rewrite Ht.
    split_and!; [rewrite len_splice; lia|done|done|done| |].
    + apply Forall_reverse. by apply to_digits_range.
    + apply be_value_digits. split; [lia|]. rewrite Z2Nat.id by done.
      change 256 with (2 ^ 8). rewrite <- Z.pow_mul_r by lia. apply bit_count_le; lia.
Qed.

#[local] Instance small_heap : Heap := 4096.

(** A number in two words of magnitude. *)
Definition num (v : Z) : BigInt := mkBigInt (enc 4 v).

Lemma num_ok v : big_ok (big_vec (num v)).
Proof.
  unfold num. cbn [big_vec big_ok plain_view]. split_and!.
  - done.
  - done.
  - cbn [enc drop]. by apply to_digits_range.
Qed.

(** (2^64 - 1) * -3 / 1000 + 7 mod 10 *)
Definition sample : expr :=
  Add (Quot (Mul (Lit (num (2 ^ 64 - 1))) (Lit (num (-3)))) (Lit (num 1000)))
      (Mod (Lit (num 7)) (Lit (num 10))).

Lemma bigint_expressions_exact_witness :
  exists a, eval (H := true) sample = Ret (Ok a) /\ dec (big_vec a) = -55340232221128647.
Proof.
  destruct (bigint_expressions_exact (H := true) sample) as (a & E & _ & Hv).
  - cbn [defined sample]. unfold room. split_and!; match goal with |- big_ok _ => apply num_ok | _ => by vm_compute end.
  - exists a. split; [exact E|]. etrans; [exact Hv|]. by vm_compute.
Defined.

Lemma bigint_divide_short_dividend_witness :
  divide (H := true) (num 1) (num 2) = Panic /\
  divide (H := false) (num 1) (num 4) = Panic /\
  exists q r, divide (H := false) (num 1) (num 2) = Ret (q, r) /\
    dec (big_vec q) = 0 /\ dec (big_vec r) = 1.
Proof.
  destruct (bigint_divide_short_dividend (H := true) (num 1) (num 2) (num_ok _) (num_ok _))
    as (_ & H1 & _); [by vm_compute|].
  destruct (bigint_divide_short_dividend (H := false) (num 1) (num 4) (num_ok _) (num_ok _))
    as (_ & _ & H2 & _); [by vm_compute|].
  destruct (bigint_divide_short_dividend (H := false) (num 1) (num 2) (num_ok _) (num_ok _))
    as (_ & _ & _ & H3); [by vm_compute|].
  split_and!.
  - by apply H1.
  - apply H2; [done|by vm_compute|by vm_compute].
  - destruct H3 as (q & r & E & Hq & Hr); [done|by vm_compute|unfold room; split_and!; by vm_compute..|].
    exists q, r. split_and!; [exact E|exact Hq|etrans; [exact Hr|by vm_compute]].
Defined.

Lemma bigint_octets_round_trip_witness :
  convert_to_octet_string (num (-0x1234)) = Ret (Ok [0x12; 0x34]) /\
  exists r d, convert_from_octet_string (num 0) [0x12; 0x34] (-1) = Ret (r, d) /\
    dec (big_vec d) = -0x1234.
Proof.
  destruct (bigint_octets_round_trip (num (-0x1234)) (num 0) (-1) (num_ok _) (num_ok _))
    as (bs & E & _ & _ & _ & r & d & Er & Hd); [by vm_compute|].
  assert (convert_to_octet_string (num (-0x1234)) = Ret (Ok [0x12; 0x34])) as E' by (by vm_compute).
  rewrite E' in E. injection E as <-. split; [done|]. exists r, d. split; [exact Er|].
  destruct Hd as (_ & _ & Hv). etrans; [exact Hv|by vm_compute].
Defined.

End PlainArith.
