(* ===== verification/Net.v ===== *)
(** * Net: sockets of a TA

    Models [crates/optee-utee/src/net/] ([error.rs], [socket.rs], [optee.rs],
    [optee_no_std.rs], [optee_std.rs]) and the socket constants of
    [crates/optee-utee-sys/src/tee_isocket.rs].  The TEE's two [TEE_iSocket]
    instances are an interface, [TeeSockets]; its observable part is the set of
    open handles, each of one instance. *)

From S2P Require Import Prelude TeeDefines UteeError.

(** ** Constants and the raw interface *)

Definition TEE_ISOCKET_ERROR_PROTOCOL : Z := 0xF1007001.
Definition TEE_ISOCKET_ERROR_REMOTE_CLOSED : Z := 0xF1007002.
Definition TEE_ISOCKET_ERROR_TIMEOUT : Z := 0xF1007003.
Definition TEE_ISOCKET_ERROR_OUT_OF_RESOURCES : Z := 0xF1007004.
Definition TEE_ISOCKET_ERROR_LARGE_BUFFER : Z := 0xF1007005.
Definition TEE_ISOCKET_WARNING_PROTOCOL : Z := 0xF1007006.
Definition TEE_ISOCKET_ERROR_HOSTNAME : Z := 0xF1007007.

Inductive TEE_ipSocket_ipVersion : Type :=
| TEE_IP_VERSION_DC
| TEE_IP_VERSION_4
| TEE_IP_VERSION_6.

(** The two instances, [TEE_tcpSocket] and [TEE_udpSocket]. *)
Inductive protocol : Type := Tcp | Udp.

#[export] Instance protocol_eq_dec : EqDecision protocol.
Proof. solve_decision. Defined.
#[export] Instance protocol_countable : Countable protocol.
Proof.
  refine (inj_countable' (fun p => match p with Tcp => true | Udp => false end)
    (fun b => if b then Tcp else Udp) _). by intros [].
Defined.

(** [TEE_tcpSocket_Setup] and [TEE_udpSocket_Setup]: the same fields. *)
Record raw_setup : Type := mkRawSetup {
  ipVersion : TEE_ipSocket_ipVersion; server_addr : bytes; server_port : Z
}.

(** The function pointers of an instance.  [open] answers a code, a handle and a
    protocol error; [send] gets the buffer and its [u32] length and answers a
    code and the length; [recv] answers also the buffer's new contents. *)
Class TeeSockets (St : Type) : Type := {
  iopen : protocol -> raw_setup -> prog St (Z * (Z * Z));
  iclose : protocol -> Z -> prog St Z;
  isend : protocol -> Z -> bytes -> Z -> Z -> prog St (Z * Z);
  irecv : protocol -> Z -> bytes -> Z -> Z -> prog St (Z * (Z * bytes));
  ierror : protocol -> Z -> prog St Z;
  open_sockets : St -> gset (protocol * Z);
}.

(** ** [SocketError] *)

Module SocketError.

Inductive SocketError : Type :=
| ErrorProtocol (protocol_error : Z)
| RemoteClosed
| Timeout
| OutOfResource
| WarningProtocol (protocol_error : Z)
| LargeBuffer
| Hostname
| Tee (kind : ErrorKind)
| Unknown (code : Z).

Definition from_raw_error (code protocol_error : Z) : SocketError :=
  if code =? TEE_ISOCKET_ERROR_PROTOCOL then ErrorProtocol protocol_error
  else if code =? TEE_ISOCKET_ERROR_REMOTE_CLOSED then RemoteClosed
  else if code =? TEE_ISOCKET_ERROR_TIMEOUT then Timeout
  else if code =? TEE_ISOCKET_ERROR_OUT_OF_RESOURCES then OutOfResource
  else if code =? TEE_ISOCKET_ERROR_LARGE_BUFFER then LargeBuffer
  else if code =? TEE_ISOCKET_WARNING_PROTOCOL then WarningProtocol protocol_error
  else if code =? TEE_ISOCKET_ERROR_HOSTNAME then Hostname
  else if (code =? TEE_ERROR_CANCEL) || (code =? TEE_ERROR_COMMUNICATION)
       || (code =? TEE_ERROR_OUT_OF_MEMORY) || (code =? TEE_ERROR_BAD_PARAMETERS)
  then Tee (Error.kind (Error.from_raw_error code))
  else Unknown code.

(** [impl From<crate::Error> for SocketError]. *)
Definition from_error (e : Error) : SocketError := Tee (Error.kind e).

End SocketError.

Abbreviation SocketError := SocketError.SocketError.

Definition SResult (T : Type) : Type := result T SocketError.

(** ** [Setup] *)

Record Setup : Type := mkSetup {
  addr : bytes; port : Z; version : TEE_ipSocket_ipVersion
}.

Module SetupOps.

(** [CString::new] refuses a NUL byte and appends one. *)
Definition c_string (s : bytes) : option bytes :=
  if bool_decide (0 ∈ s) then None else Some (s ++ [0]).

Definition new (a : bytes) (p : Z) (v : TEE_ipSocket_ipVersion) : Result Setup :=
  match c_string a with
  | Some c => Ok (mkSetup c p v)
  | None => bail ErrorKind.BadParameters
  end.
Definition new_v4 (a : bytes) (p : Z) : Result Setup := new a p TEE_IP_VERSION_4.
Definition new_v6 (a : bytes) (p : Z) : Result Setup := new a p TEE_IP_VERSION_6.

End SetupOps.

(** ** Adapters: [TcpAdapter] and [UdpAdapter]

    Both adapters are the same code over their own instance, so they are one
    record with the protocol. *)

Record adapter : Type := mkAdapter { instance : protocol; raw_handle : Z }.

Module Adapter.
Section Ops.
Context {St : Type} `{!TeeSockets St}.

Definition handle_socket_operation_error (socket : protocol) (handle code : Z)
    : prog St SocketError :=
  if code =? TEE_ISOCKET_ERROR_PROTOCOL then
    let* protocol_error := ierror socket handle in
    pret (SocketError.ErrorProtocol protocol_error)
  else if code =? TEE_ISOCKET_WARNING_PROTOCOL then
    let* protocol_error := ierror socket handle in
    pret (SocketError.WarningProtocol protocol_error)
  else pret (SocketError.from_raw_error code 0).

Definition open (p : protocol) (setup : Setup) : prog St (SResult adapter) :=
  let* (ret, (handle, protocol_error)) :=
    iopen p (mkRawSetup (version setup) (addr setup) (port setup)) in
  if ret =? TEE_SUCCESS then pret (Ok (mkAdapter p handle))
  else pret (Err (SocketError.from_raw_error ret protocol_error)).

Definition send (h : adapter) (buf : bytes) (timeout : Z) : prog St (SResult Z) :=
  let length := wrap_u 32 (len buf) in
  let* (ret, length) := isend (instance h) (raw_handle h) buf length timeout in
  if ret =? TEE_SUCCESS then pret (Ok length)
  else let* e := handle_socket_operation_error (instance h) (raw_handle h) ret in pret (Err e).

(** The result, and the buffer after the call. *)
Definition recv (h : adapter) (buf : bytes) (timeout : Z) : prog St (SResult Z * bytes) :=
  let length := wrap_u 32 (len buf) in
  let* (ret, (length, buf)) := irecv (instance h) (raw_handle h) buf length timeout in
  if ret =? TEE_SUCCESS then pret (Ok length, buf)
  else let* e := handle_socket_operation_error (instance h) (raw_handle h) ret in
       pret (Err e, buf).

(** [impl Drop]: errors of [close] are ignored. *)
Definition drop_adapter (h : adapter) : prog St unit :=
  let* _ := iclose (instance h) (raw_handle h) in pret tt.

End Ops.
End Adapter.

(** ** [Socket] *)

Record Socket : Type := mkSocket { handle : adapter; recv_timeout : Z; send_timeout : Z }.

(** [core::time::Duration]. *)
Record Duration : Type := mkDuration { secs : Z; nanos : Z }.
Definition as_millis (d : Duration) : Z := secs d * 1000 + nanos d / 1000000.

Definition convert_duration_option_to_timeout (dur : option Duration) : Result Z :=
  match dur with
  | None => Ok TEE_TIMEOUT_INFINITE
  | Some v =>
      let milliseconds := as_millis v in
      if 2 ^ 32 - 1 <? milliseconds then bail ErrorKind.BadParameters else Ok milliseconds
  end.

Module SocketOps.

Definition set_recv_timeout_in_milli (self : Socket) (milliseconds : Z) : Socket :=
  mkSocket (handle self) milliseconds (send_timeout self).
Definition set_send_timeout_in_milli (self : Socket) (milliseconds : Z) : Socket :=
  mkSocket (handle self) (recv_timeout self) milliseconds.
Definition set_recv_timeout (self : Socket) (dur : option Duration) : Result unit * Socket :=
  match convert_duration_option_to_timeout dur with
  | Ok milliseconds => (Ok tt, set_recv_timeout_in_milli self milliseconds)
  | Err e => (Err e, self)
  end.
Definition set_send_timeout (self : Socket) (dur : option Duration) : Result unit * Socket :=
  match convert_duration_option_to_timeout dur with
  | Ok milliseconds => (Ok tt, set_send_timeout_in_milli self milliseconds)
  | Err e => (Err e, self)
  end.

Section Ops.
Context {St : Type} `{!TeeSockets St}.

Definition open (p : protocol) (setup : Setup) : prog St (SResult Socket) :=
  let? h := Adapter.open p setup in
  pret (Ok (mkSocket h TEE_TIMEOUT_INFINITE TEE_TIMEOUT_INFINITE)).
Definition send (self : Socket) (buf : bytes) : prog St (SResult Z) :=
  Adapter.send (handle self) buf (send_timeout self).
Definition recv (self : Socket) (buf : bytes) : prog St (SResult Z * bytes) :=
  Adapter.recv (handle self) buf (recv_timeout self).
(** Dropping a socket drops its adapter. *)
Definition drop_socket (self : Socket) : prog St unit := Adapter.drop_adapter (handle self).

End Ops.
End SocketOps.

(** ** [StdCompatConnect], [StdCompatWrite], [StdCompatRead] *)

Module NoStd.
Section Ops.
Context {St : Type} `{!TeeSockets St}.

(** [Setup::new_v4(...)?] in a function that fails with [SocketError]. *)
Definition connect_with (p : protocol) (setup : Result Setup) : prog St (SResult Socket) :=
  match setup with
  | Ok s => SocketOps.open p s
  | Err e => pret (Err (SocketError.from_error e))
  end.
Definition connect_v4 (p : protocol) (address : bytes) (prt : Z) : prog St (SResult Socket) :=
  connect_with p (SetupOps.new_v4 address prt).
Definition connect_v6 (p : protocol) (address : bytes) (prt : Z) : prog St (SResult Socket) :=
  connect_with p (SetupOps.new_v6 address prt).
Definition connect (p : protocol) (address : bytes) (prt : Z) : prog St (SResult Socket) :=
  connect_v4 p address prt.

Definition write (self : Socket) (buf : bytes) : prog St (SResult Z) := SocketOps.send self buf.
Definition read (self : Socket) (buf : bytes) : prog St (SResult Z * bytes) :=
  SocketOps.recv self buf.

(** [while !buf.is_empty() { ... buf = &buf[n..] }]: the slice panics when the
    TEE reports more than the buffer.  The fuel is the buffer's length; it is
    never exhausted, see [write_all_loop_enough]. *)
Fixpoint write_all_loop (fuel : nat) (self : Socket) (buf : bytes) : prog St (SResult unit) :=
  match buf with
  | [] => pret (Ok tt)
  | _ =>
      let? n := write self buf in
      if n =? 0 then pret (Err (SocketError.Tee ErrorKind.Generic))
      else
        let* rest := plift (slice buf n (len buf)) in
        match fuel with
        | O => plift Panic
        | S fuel' => write_all_loop fuel' self rest
        end
  end.

Definition write_all (self : Socket) (buf : bytes) : prog St (SResult unit) :=
  write_all_loop (length buf) self buf.

(** The result, and the whole buffer after the call: what [buf = &mut buf[n..]]
    has passed is kept in front. *)
Fixpoint read_exact_loop (fuel : nat) (self : Socket) (buf : bytes)
    : prog St (SResult unit * bytes) :=
  match buf with
  | [] => pret (Ok tt, [])
  | _ =>
      let* (r, buf) := read self buf in
      match r with
      | Err e => pret (Err e, buf)
      | Ok n =>
          if n =? 0 then pret (Err (SocketError.Tee ErrorKind.Generic), buf)
          else
            let* rest := plift (slice buf n (len buf)) in
            match fuel with
            | O => plift Panic
            | S fuel' =>
                let* (r, rest) := read_exact_loop fuel' self rest in
                pret (r, take (Z.to_nat n) buf ++ rest)
            end
      end
  end.

Definition read_exact (self : Socket) (buf : bytes) : prog St (SResult unit * bytes) :=
  read_exact_loop (length buf) self buf.

End Ops.
End NoStd.

(** ** The [std::io] traits *)

Module Std.

(** The kinds of [std::io::Error] the conversion uses. *)
Inductive IoErrorKind : Type := Other | ConnectionAborted | TimedOut | OutOfMemory.
Record IoError : Type := mkIoError { io_kind : IoErrorKind; io_message : string }.

(** [{:08X}] on a [u32]: eight upper-case digits. *)
Definition upper_hex_digit (d : Z) : string :=
  match List.nth_error ["0"; "1"; "2"; "3"; "4"; "5"; "6"; "7"; "8"; "9";
                        "A"; "B"; "C"; "D"; "E"; "F"]%string (Z.to_nat d) with
  | Some s => s
  | None => ""%string
  end.
Fixpoint upper_hex (digits : nat) (x : Z) : string :=
  match digits with
  | O => ""%string
  | S d => (upper_hex d (x / 16) +:+ upper_hex_digit (x mod 16))%string
  end.
Definition upper_hex_08 (x : Z) : string := upper_hex 8 x.

(** [impl Into<std::io::Error> for SocketError]. *)
Definition into_io_error (e : SocketError) : IoError :=
  match e with
  | SocketError.ErrorProtocol c =>
      mkIoError Other ("TEE_ISOCKET_ERROR_PROTOCOL: 0x" +:+ upper_hex_08 c)
  | SocketError.RemoteClosed => mkIoError ConnectionAborted "TEE_ISOCKET_ERROR_REMOTE_CLOSED"
  | SocketError.Timeout => mkIoError TimedOut "TEE_ISOCKET_ERROR_TIMEOUT"
  | SocketError.OutOfResource => mkIoError Other "TEE_ISOCKET_ERROR_OUT_OF_RESOURCES"
  | SocketError.LargeBuffer => mkIoError Other "TEE_ISOCKET_ERROR_LARGE_BUFFER"
  | SocketError.WarningProtocol c =>
      mkIoError Other ("TEE_ISOCKET_WARNING_PROTOCOL: 0x" +:+ upper_hex_08 c)
  | SocketError.Hostname => mkIoError Other "TEE_ISOCKET_ERROR_HOSTNAME"
  | SocketError.Tee kind =>
      match kind with
      | ErrorKind.OutOfMemory => mkIoError OutOfMemory "TEE_ERROR_OUT_OF_MEMORY"
      | _ => mkIoError Other (ErrorKind.as_str kind)
      end
  | SocketError.Unknown code => mkIoError Other ("Unknown: " +:+ upper_hex_08 code)
  end%string.

Section Ops.
Context {St : Type} `{!TeeSockets St}.

Definition connect_with_ip_version (p : protocol) (address : bytes) (prt : Z)
    (ip_version : TEE_ipSocket_ipVersion) : prog St (result Socket IoError) :=
  match SetupOps.new address prt ip_version with
  | Err _ => pret (Err (mkIoError Other "Invalid address"))
  | Ok setup =>
      let* r := SocketOps.open p setup in
      pret (map_err into_io_error r)
  end.
Definition connect_v4 (p : protocol) (address : bytes) (prt : Z) : prog St (result Socket IoError) :=
  connect_with_ip_version p address prt TEE_IP_VERSION_4.
Definition connect_v6 (p : protocol) (address : bytes) (prt : Z) : prog St (result Socket IoError) :=
  connect_with_ip_version p address prt TEE_IP_VERSION_6.
Definition connect (p : protocol) (address : bytes) (prt : Z) : prog St (result Socket IoError) :=
  connect_v4 p address prt.

Definition read (self : Socket) (buf : bytes) : prog St (result Z IoError * bytes) :=
  let* (r, buf) := SocketOps.recv self buf in pret (map_err into_io_error r, buf).
Definition write (self : Socket) (buf : bytes) : prog St (result Z IoError) :=
  let* r := SocketOps.send self buf in pret (map_err into_io_error r).
Definition flush (self : Socket) : prog St (result unit IoError) := pret (Ok tt).

End Ops.
End Std.
