(* ===== verification/NetSpec.v ===== *)
(** * NetSpec: sockets are closed once, and the loops over them end

    The interface's laws, the two loops [write_all] and [read_exact] with the
    bytes they carry, and the life cycle of sockets. *)

From S2P Require Import Prelude TeeDefines UteeError Net.
Import NoStd.

(** ** Documented behaviour of the TEE's sockets *)

(** What has gone through a handle so far, in each direction. *)
Class SocketLog (St : Type) : Type := {
  sent : St -> protocol * Z -> bytes;
  received : St -> protocol * Z -> bytes;
}.

Section Laws.
Context {St : Type} `{!TeeSockets St, !SocketLog St}.

(** The handles are the same, and so is what has gone through [h]. *)
Definition quiet (h : protocol * Z) (s s' : St) : Prop :=
  open_sockets s' = open_sockets s /\ sent s' h = sent s h /\ received s' h = received s h.

(** A handle may only be used with the instance that opened it, while it is
    open.  Success reports at most the length that was asked for. *)
Class TeeSocketsOk : Prop := {
  iopen_ok p st s : exists code h e s', iopen p st s = Ret ((code, (h, e)), s') /\
    if code =? TEE_SUCCESS
    then ((p, h) ∉ open_sockets s) /\ open_sockets s' = {[(p, h)]} ∪ open_sockets s
    else open_sockets s' = open_sockets s;
  iclose_ok p h s : (p, h) ∈ open_sockets s -> exists code s',
    iclose p h s = Ret (code, s') /\ open_sockets s' = open_sockets s ∖ {[(p, h)]};
  isend_ok p h buf n t s : (p, h) ∈ open_sockets s -> 0 <= n <= len buf ->
    exists code m s', isend p h buf n t s = Ret ((code, m), s') /\
      if code =? TEE_SUCCESS
      then 0 <= m <= n /\ open_sockets s' = open_sockets s /\
           sent s' (p, h) = sent s (p, h) ++ take (Z.to_nat m) buf /\
           received s' (p, h) = received s (p, h)
      else quiet (p, h) s s';
  irecv_ok p h buf n t s : (p, h) ∈ open_sockets s -> 0 <= n <= len buf ->
    exists code m buf' s', irecv p h buf n t s = Ret ((code, (m, buf')), s') /\
      len buf' = len buf /\
      if code =? TEE_SUCCESS
      then 0 <= m <= n /\ open_sockets s' = open_sockets s /\
           received s' (p, h) = received s (p, h) ++ take (Z.to_nat m) buf' /\
           sent s' (p, h) = sent s (p, h)
      else quiet (p, h) s s';
  ierror_ok p h s : (p, h) ∈ open_sockets s ->
    exists e s', ierror p h s = Ret (e, s') /\ quiet (p, h) s s';
}.

(** A peer that always takes, or gives, some of what is asked for. *)
Definition willing_to_take (h : protocol * Z) : Prop :=
  forall buf n t s, h ∈ open_sockets s -> 0 < n <= len buf ->
    exists m s', isend h.1 h.2 buf n t s = Ret ((TEE_SUCCESS, m), s') /\ 0 < m.
Definition willing_to_give (h : protocol * Z) : Prop :=
  forall buf n t s, h ∈ open_sockets s -> 0 < n <= len buf ->
    exists m buf' s', irecv h.1 h.2 buf n t s = Ret ((TEE_SUCCESS, (m, buf')), s') /\ 0 < m.

End Laws.
Arguments TeeSocketsOk St {_ _}.

Section Loops.
Context {St : Type} `{!TeeSockets St, !SocketLog St, !TeeSocketsOk St}.

Definition key (sk : Socket) : protocol * Z := (instance (handle sk), raw_handle (handle sk)).
Definition live (sk : Socket) (s : St) : Prop := key sk ∈ open_sockets s.

Lemma wrap_len_le (buf : bytes) : 0 <= wrap_u 32 (len buf) <= len buf.
Proof.
  pose proof (len_nonneg buf). pose proof (wrap_u_range 32 (len buf) ltac:(lia)) as Hw.
  unfold in_u in Hw. split; [lia|]. unfold wrap_u. by apply Z.mod_le.
Qed.

Lemma operation_error_quiet p h code (s : St) :
  (p, h) ∈ open_sockets s ->
  exists e s', Adapter.handle_socket_operation_error p h code s = Ret (e, s') /\
    quiet (p, h) s s'.
Proof.
  intros Hin. unfold Adapter.handle_socket_operation_error.
  destruct (ierror_ok p h s Hin) as (e & s' & E & Hq).
  repeat case_if; rewrite ?(pbind_Ret _ _ _ _ _ E); eexists _, _; (split; [reflexivity|done]).
Qed.

(** One [write]. *)
Lemma write_spec sk buf (s : St) :
  live sk s -> exists r s', write sk buf s = Ret (r, s') /\
    open_sockets s' = open_sockets s /\ received s' (key sk) = received s (key sk) /\
    match r with
    | Ok n => 0 <= n <= len buf /\ sent s' (key sk) = sent s (key sk) ++ take (Z.to_nat n) buf
    | Err _ => sent s' (key sk) = sent s (key sk)
    end.
Proof.
  intros Hl. pose proof (wrap_len_le buf) as Hw. unfold write, SocketOps.send, Adapter.send.
  destruct (isend_ok _ _ buf (wrap_u 32 (len buf)) (send_timeout sk) s Hl Hw)
    as (code & m & s1 & E & Hif). rewrite (pbind_Ret _ _ _ _ _ E). case_if.
  - destruct Hif as (Hm & Ho & Hs & Hr). eexists _, _. split; [reflexivity|].
    split_and!; [done..|lia|lia|done].
  - destruct Hif as (Ho & Hs & Hr). unfold live, key in Hl. rewrite <- Ho in Hl.
    destruct (operation_error_quiet _ _ code s1 Hl) as (e & s2 & E2 & Ho2 & Hs2 & Hr2).
    rewrite (pbind_Ret _ _ _ _ _ E2). eexists _, _. split; [reflexivity|].
    unfold key. split_and!; congruence.
Qed.

(** One [read]. *)
Lemma read_spec sk buf (s : St) :
  live sk s -> exists r buf' s', read sk buf s = Ret ((r, buf'), s') /\ len buf' = len buf /\
    open_sockets s' = open_sockets s /\ sent s' (key sk) = sent s (key sk) /\
    match r with
    | Ok n => 0 <= n <= len buf /\
        received s' (key sk) = received s (key sk) ++ take (Z.to_nat n) buf'
    | Err _ => received s' (key sk) = received s (key sk)
    end.
Proof.
  intros Hl. pose proof (wrap_len_le buf) as Hw. unfold read, SocketOps.recv, Adapter.recv.
  destruct (irecv_ok _ _ buf (wrap_u 32 (len buf)) (recv_timeout sk) s Hl Hw)
    as (code & m & buf' & s1 & E & Hlen & Hif). rewrite (pbind_Ret _ _ _ _ _ E). case_if.
  - destruct Hif as (Hm & Ho & Hs & Hr). eexists _, _, _. split; [reflexivity|].
    split_and!; [done..|lia|lia|done].
  - destruct Hif as (Ho & Hs & Hr). unfold live, key in Hl. rewrite <- Ho in Hl.
    destruct (operation_error_quiet _ _ code s1 Hl) as (e & s2 & E2 & Ho2 & Hs2 & Hr2).
    rewrite (pbind_Ret _ _ _ _ _ E2). eexists _, _, _. split; [reflexivity|].
    unfold key. split_and!; congruence.
Qed.

(** A willing peer makes a [write], or a [read], of a [u32] length succeed. *)
Lemma write_willing sk buf (s : St) :
  live sk s -> willing_to_take (St := St) (key sk) -> 0 < len buf < 2 ^ 32 ->
  exists n s', write sk buf s = Ret (Ok n, s') /\ 0 < n.
Proof.
  intros Hl Hw Hb. unfold write, SocketOps.send, Adapter.send. rewrite wrap_u_small by (split; lia).
  destruct (Hw buf (len buf) (send_timeout sk) s Hl ltac:(lia)) as (m & s' & E & Hm).
  rewrite (pbind_Ret _ _ _ _ _ E). by exists m, s'.
Qed.

Lemma read_willing sk buf (s : St) :
  live sk s -> willing_to_give (St := St) (key sk) -> 0 < len buf < 2 ^ 32 ->
  exists n buf' s', read sk buf s = Ret ((Ok n, buf'), s') /\ 0 < n.
Proof.
  intros Hl Hw Hb. unfold read, SocketOps.recv, Adapter.recv. rewrite wrap_u_small by (split; lia).
  destruct (Hw buf (len buf) (recv_timeout sk) s Hl ltac:(lia)) as (m & buf' & s' & E & Hm).
  rewrite (pbind_Ret _ _ _ _ _ E). by exists m, buf', s'.
Qed.

(** [&buf[n..]] for a reported size within the buffer. *)
Lemma slice_rest (buf : bytes) n :
  0 <= n <= len buf -> slice buf n (len buf) = Ret (drop (Z.to_nat n) buf).
Proof.
  intros Hn. unfold slice. rewrite (proj2 (Z.leb_le 0 n)), (proj2 (Z.leb_le n (len buf))) by lia.
  rewrite Z.leb_refl. cbn [andb]. rewrite take_ge; [done|]. rewrite length_drop. unfold len. lia.
Qed.

Lemma len_cons_pos {A} (x : A) l : 0 < len (x :: l).
Proof. rewrite len_cons. pose proof (len_nonneg l). lia. Qed.

Lemma drop_shorter (buf : bytes) n fuel :
  0 < n <= len buf -> (length buf <= S fuel)%nat -> (length (drop (Z.to_nat n) buf) <= fuel)%nat.
Proof. intros Hn Hf. rewrite length_drop. unfold len in Hn. lia. Qed.

(** The outcome of [write_all] from [s]: some prefix of the buffer is sent, all
    of it on success; success when the peer is willing. *)
Definition written (sk : Socket) (buf : bytes) (s : St) (r : SResult unit) (s' : St) : Prop :=
  open_sockets s' = open_sockets s /\ received s' (key sk) = received s (key sk) /\
  exists k, sent s' (key sk) = sent s (key sk) ++ take k buf /\
    (r = Ok tt -> take k buf = buf) /\
    (willing_to_take (St := St) (key sk) -> len buf < 2 ^ 32 -> r = Ok tt).

Lemma written_nothing sk buf (s s' : St) r :
  open_sockets s' = open_sockets s -> received s' (key sk) = received s (key sk) ->
  sent s' (key sk) = sent s (key sk) -> r <> Ok tt \/ buf = [] ->
  (willing_to_take (St := St) (key sk) -> len buf < 2 ^ 32 -> r = Ok tt) ->
  written sk buf s r s'.
Proof.
  intros Ho Hr Hs Hc Hw. split_and!; [done..|]. exists 0%nat.
  rewrite Hs, take_0, app_nil_r. split_and!; [done| |done]. intros ->. by destruct Hc as [ | -> ].
Qed.

Lemma written_more sk buf n (s s1 s2 : St) r :
  0 < n <= len buf -> open_sockets s1 = open_sockets s ->
  received s1 (key sk) = received s (key sk) ->
  sent s1 (key sk) = sent s (key sk) ++ take (Z.to_nat n) buf ->
  written sk (drop (Z.to_nat n) buf) s1 r s2 -> written sk buf s r s2.
Proof.
  intros Hn Ho Hr Hs (Ho2 & Hr2 & k & Hs2 & Hok & Hw). split_and!; [congruence..|].
  exists (Z.to_nat n + k)%nat. split_and!.
  - rewrite Hs2, Hs, <- app_assoc. f_equal. by rewrite take_take_drop.
  - intros Hr3. rewrite <- take_take_drop, (Hok Hr3). apply take_drop.
  - intros ? ?. apply Hw; [done|]. rewrite len_drop; lia.
Qed.

Lemma write_all_loop_spec sk fuel : forall buf (s : St),
  live sk s -> (length buf <= fuel)%nat ->
  exists r s', (forall fuel', (length buf <= fuel')%nat ->
    write_all_loop fuel' sk buf s = Ret (r, s')) /\ written sk buf s r s'.
Proof.
  induction fuel as [|fuel IH]; intros [|b buf0] s Hl Hf; try (cbn in Hf; lia).
  1, 2: exists (Ok tt), s; split; [by intros []|apply written_nothing; auto].
  set (buf := b :: buf0) in *. assert (0 < len buf) as Hpos by apply len_cons_pos.
  destruct (write_spec sk buf s Hl) as (r & s1 & E & Ho & Hr & Hres).
  pose proof (fun Hw Hb => write_willing sk buf s Hl Hw (conj Hpos Hb)) as Hwill.
  rewrite E in Hwill. destruct r as [n|e]; [destruct Hres as [Hn Hs]; destruct (Z.eq_dec n 0) as [->|Hn0]|].
  - eexists _, s1. split.
    + intros [|f] _; cbn [write_all_loop buf]; by rewrite (ptry_Ok _ _ _ _ _ E).
    + apply written_nothing; [done..|rewrite Hs; apply app_nil_r|by left|].
      intros Hw Hb. destruct (Hwill Hw Hb) as (m & s2 & Em & Hm). injection Em. lia.
  - destruct (IH (drop (Z.to_nat n) buf) s1) as (r & s2 & Eloop & Hwr);
      [unfold live; by rewrite Ho|apply drop_shorter; [lia|done]|].
    exists r, s2. split; [|apply (written_more _ _ n _ s1); auto with lia].
    intros [|f] Hf'; [unfold len in Hpos; lia|]. cbn [write_all_loop buf].
    rewrite (ptry_Ok _ _ _ _ _ E). cbv beta. rewrite (proj2 (Z.eqb_neq n 0) Hn0).
    fold buf. rewrite slice_rest by done. apply Eloop, drop_shorter; [lia|done].
  - eexists _, s1. split.
    + intros [|f] _; cbn [write_all_loop buf]; by rewrite (ptry_Err _ _ _ _ _ E).
    + apply written_nothing; [done..|by left|].
      intros Hw Hb. destruct (Hwill Hw Hb) as (m & s2 & ? & _). done.
Qed.

(** The outcome of [read_exact]: some prefix of the buffer has been received,
    all of it on success. *)
Definition filled (sk : Socket) (buf : bytes) (s : St) (r : SResult unit) (buf' : bytes)
    (s' : St) : Prop :=
  len buf' = len buf /\ open_sockets s' = open_sockets s /\
  sent s' (key sk) = sent s (key sk) /\
  exists k, received s' (key sk) = received s (key sk) ++ take k buf' /\
    (r = Ok tt -> take k buf' = buf') /\
    (willing_to_give (St := St) (key sk) -> len buf < 2 ^ 32 -> r = Ok tt).

Lemma filled_nothing sk buf buf' (s s' : St) r :
  len buf' = len buf -> open_sockets s' = open_sockets s -> sent s' (key sk) = sent s (key sk) ->
  received s' (key sk) = received s (key sk) -> r <> Ok tt \/ buf' = [] ->
  (willing_to_give (St := St) (key sk) -> len buf < 2 ^ 32 -> r = Ok tt) ->
  filled sk buf s r buf' s'.
Proof.
  intros Hlen Ho Hs Hr Hc Hw. split_and!; [done..|]. exists 0%nat.
  rewrite Hr, take_0, app_nil_r. split_and!; [done| |done]. intros ->. by destruct Hc as [ | ->].
Qed.

Lemma filled_more sk buf buf1 n rest (s s1 s2 : St) r :
  0 < n <= len buf1 -> len buf1 = len buf -> open_sockets s1 = open_sockets s ->
  sent s1 (key sk) = sent s (key sk) ->
  received s1 (key sk) = received s (key sk) ++ take (Z.to_nat n) buf1 ->
  filled sk (drop (Z.to_nat n) buf1) s1 r rest s2 ->
  filled sk buf s r (take (Z.to_nat n) buf1 ++ rest) s2.
Proof.
  intros Hn Hlen Ho Hs Hr (Hlen2 & Ho2 & Hs2 & k & Hr2 & Hok & Hw).
  rewrite len_drop in Hlen2, Hw by lia.
  assert (length (take (Z.to_nat n) buf1) = Z.to_nat n) as Ht
    by (rewrite length_take; unfold len in *; lia).
  split_and!; [rewrite len_app, len_take; lia|congruence|congruence|].
  exists (Z.to_nat n + k)%nat. rewrite take_app_add' by done. split_and!.
  - by rewrite Hr2, Hr, <- app_assoc.
  - intros Hr3. by rewrite (Hok Hr3).
  - intros ? ?. apply Hw; [done|lia].
Qed.

Lemma read_exact_loop_spec sk fuel : forall buf (s : St),
  live sk s -> (length buf <= fuel)%nat ->
  exists r buf' s', (forall fuel', (length buf <= fuel')%nat ->
    read_exact_loop fuel' sk buf s = Ret ((r, buf'), s')) /\ filled sk buf s r buf' s'.
Proof.
  induction fuel as [|fuel IH]; intros [|b buf0] s Hl Hf; try (cbn in Hf; lia).
  1, 2: exists (Ok tt), [], s; split; [by intros []|apply filled_nothing; auto].
  set (buf := b :: buf0) in *. assert (0 < len buf) as Hpos by apply len_cons_pos.
  destruct (read_spec sk buf s Hl) as (r & buf1 & s1 & E & Hlen & Ho & Hs & Hres).
  pose proof (fun Hw Hb => read_willing sk buf s Hl Hw (conj Hpos Hb)) as Hwill.
  rewrite E in Hwill. destruct r as [n|e]; [destruct Hres as [Hn Hr]; destruct (Z.eq_dec n 0) as [->|Hn0]|].
  - eexists _, buf1, s1. split.
    + intros [|f] _; cbn [read_exact_loop buf]; by rewrite (pbind_Ret _ _ _ _ _ E).
    + apply filled_nothing; [done..|rewrite Hr; apply app_nil_r|by left|].
      intros Hw Hb. destruct (Hwill Hw Hb) as (m & b2 & s2 & Em & Hm). injection Em. lia.
  - destruct (IH (drop (Z.to_nat n) buf1) s1) as (r & rest & s2 & Eloop & Hfl);
      [unfold live; by rewrite Ho|apply drop_shorter; [lia|unfold len in Hlen; lia]|].
    exists r, (take (Z.to_nat n) buf1 ++ rest), s2.
    split; [|apply (filled_more _ _ _ n _ _ s1); auto with lia].
    intros [|f] Hf'; [unfold len in Hpos; lia|]. cbn [read_exact_loop buf].
    rewrite (pbind_Ret _ _ _ _ _ E). cbv beta iota. rewrite (proj2 (Z.eqb_neq n 0) Hn0).
    rewrite slice_rest by lia. cbn [plift]. unfold pbind, plift. cbn [outcome_bind].
    rewrite Eloop; [done|]. apply drop_shorter; [lia|unfold len in Hlen; lia].
  - eexists _, buf1, s1. split.
    + intros [|f] _; cbn [read_exact_loop buf]; by rewrite (pbind_Ret _ _ _ _ _ E).
    + apply filled_nothing; [done..|by left|].
      intros Hw Hb. by destruct (Hwill Hw Hb) as (m & b2 & s2 & ? & _).
Qed.

(** C31: on an open socket [write_all] ends, whatever the peer does: the loop
    runs at most once per byte, so any fuel that covers the buffer gives the
    same result.  Exactly a prefix of the buffer is sent, on [Ok] the whole
    buffer; and when the peer always takes something, a buffer below 4 GiB is
    sent completely. *)
Theorem write_all_terminates sk buf (s : St) :
  live sk s ->
  exists r s', write_all sk buf s = Ret (r, s') /\
    (forall fuel, (length buf <= fuel)%nat -> write_all_loop fuel sk buf s = Ret (r, s')) /\
    open_sockets s' = open_sockets s /\
    exists k, sent s' (key sk) = sent s (key sk) ++ take k buf /\
      (r = Ok tt -> sent s' (key sk) = sent s (key sk) ++ buf) /\
      (willing_to_take (St := St) (key sk) -> len buf < 2 ^ 32 -> r = Ok tt).
Proof.
  intros Hl. destruct (write_all_loop_spec sk _ buf s Hl (le_n _))
    as (r & s' & E & Ho & _ & k & Hs & Hok & Hw).
  exists r, s'. split_and!; [by apply E|done|done|]. exists k. split_and!; [done| |done].
  intros Hr. by rewrite Hs, (Hok Hr).
Qed.

(** C32: on an open socket [read_exact] ends: on [Ok] the buffer holds exactly
    the next bytes received, on an error a prefix of it does; and when the peer
    always gives something, a buffer below 4 GiB is filled. *)
Theorem read_exact_terminates sk buf (s : St) :
  live sk s ->
  exists r buf' s', read_exact sk buf s = Ret ((r, buf'), s') /\
    (forall fuel, (length buf <= fuel)%nat ->
       read_exact_loop fuel sk buf s = Ret ((r, buf'), s')) /\
    len buf' = len buf /\ open_sockets s' = open_sockets s /\
    exists k, received s' (key sk) = received s (key sk) ++ take k buf' /\
      (r = Ok tt -> received s' (key sk) = received s (key sk) ++ buf') /\
      (willing_to_give (St := St) (key sk) -> len buf < 2 ^ 32 -> r = Ok tt).
Proof.
  intros Hl. destruct (read_exact_loop_spec sk _ buf s Hl (le_n _))
    as (r & buf' & s' & E & Hlen & Ho & _ & k & Hr & Hok & Hw).
  exists r, buf', s'. split_and!; [by apply E|done|done|done|]. exists k. split_and!; [done| |done].
  intros Hr1. by rewrite Hr, (Hok Hr1).
Qed.

End Loops.

(** ** The life cycle of sockets *)

Lemma delete_beyond {A} (l : list A) : forall k, l !! k = None -> delete k l = l.
Proof.
  induction l as [|x l IH]; intros [|k] Hk; [done..|]. cbn. f_equal. by apply IH.
Qed.

Lemma remove_owned `{Countable A} (k : A) (X Y : gset A) :
  k ∉ X -> k ∉ Y -> (X ∪ ({[k]} ∪ Y)) ∖ {[k]} = X ∪ Y.
Proof. set_solver. Qed.

(** A TA's calls; [k] is the position of a socket among those it owns. *)
Inductive action : Type :=
| Connect (p : protocol) (address : bytes) (prt : Z)
| ConnectV6 (p : protocol) (address : bytes) (prt : Z)
| SetTimeouts (k : nat) (recv send : option Duration)
| Send (k : nat) (buf : bytes)
| Recv (k : nat) (buf : bytes)
| WriteAll (k : nat) (buf : bytes)
| ReadExact (k : nat) (buf : bytes)
| Close (k : nat).

Section Life_cycle.
Context {St : Type} `{!TeeSockets St}.

(** Run [f] on the [k]-th socket. *)
Definition on_socket {A} (k : nat) (own : list Socket) (f : Socket -> prog St A) : prog St (list Socket) :=
  match own !! k with
  | Some sk => let* _ := f sk in pret own
  | None => pret own
  end.

Definition connected (own : list Socket) (m : prog St (SResult Socket)) : prog St (list Socket) :=
  let* r := m in pret (match r with Ok sk => sk :: own | Err _ => own end).

Definition with_timeouts (recv send : option Duration) (sk : Socket) : Socket :=
  (SocketOps.set_send_timeout (SocketOps.set_recv_timeout sk recv).2 send).2.

Definition act (a : action) (own : list Socket) : prog St (list Socket) :=
  match a with
  | Connect p ad prt => connected own (connect p ad prt)
  | ConnectV6 p ad prt => connected own (connect_v6 p ad prt)
  | SetTimeouts k r t => pret (alter (with_timeouts r t) k own)
  | Send k buf => on_socket k own (fun sk => SocketOps.send sk buf)
  | Recv k buf => on_socket k own (fun sk => SocketOps.recv sk buf)
  | WriteAll k buf => on_socket k own (fun sk => write_all sk buf)
  | ReadExact k buf => on_socket k own (fun sk => read_exact sk buf)
  | Close k => let* own := on_socket k own SocketOps.drop_socket in pret (delete k own)
  end.

Fixpoint run (acts : list action) (own : list Socket) : prog St (list Socket) :=
  match acts with
  | [] => pret own
  | a :: acts' => let* own := act a own in run acts' own
  end.

Context `{!SocketLog St, !TeeSocketsOk St} (s0 : St).

Record inv (own : list Socket) (s : St) : Prop := {
  inv_keys : NoDup (map key own);
  inv_new : Forall (fun h => h ∉ open_sockets s0) (map key own);
  inv_open : open_sockets s = open_sockets s0 ∪ list_to_set (map key own);
}.

Lemma owned_live own s k sk : inv own s -> own !! k = Some sk -> live sk s.
Proof.
  intros [_ _ Ho] Hk. unfold live. rewrite Ho. apply elem_of_union. right.
  apply elem_of_list_to_set. apply (list_elem_of_fmap_2 key). by eapply list_elem_of_lookup_2.
Qed.

Lemma key_with_timeouts r t sk : key (with_timeouts r t sk) = key sk.
Proof.
  unfold with_timeouts, SocketOps.set_send_timeout, SocketOps.set_recv_timeout.
  by destruct (convert_duration_option_to_timeout r), (convert_duration_option_to_timeout t).
Qed.

Lemma keys_alter f k own :
  (forall sk, key (f sk) = key sk) -> map key (alter f k own) = map key own.
Proof.
  intros Hf. revert k. induction own as [|sk own IH]; intros [|k]; cbn; [done..| |].
  - by rewrite Hf.
  - f_equal. apply IH.
Qed.

Lemma inv_alter f k own s :
  (forall sk, key (f sk) = key sk) -> inv own s -> inv (alter f k own) s.
Proof.
  intros Hf [Hk Hn Ho]. by split; rewrite ?keys_alter.
Qed.

(** A call on an owned socket that leaves the open sockets alone. *)
Lemma on_socket_inv {A} k own (f : Socket -> prog St A) s :
  inv own s ->
  (forall sk, live sk s -> exists r s', f sk s = Ret (r, s') /\ open_sockets s' = open_sockets s) ->
  exists s', on_socket k own f s = Ret (own, s') /\ inv own s'.
Proof.
  intros Hinv Hf. unfold on_socket. destruct (own !! k) as [sk|] eqn:Hk; [|by exists s].
  destruct (Hf sk (owned_live _ _ _ _ Hinv Hk)) as (r & s' & E & Ho).
  rewrite (pbind_Ret _ _ _ _ _ E). exists s'. split; [done|].
  destruct Hinv. split; [done..|congruence].
Qed.

Lemma connected_inv own (setup : Result Setup) p s :
  inv own s -> exists own' s', connected own (connect_with p setup) s = Ret (own', s') /\ inv own' s'.
Proof.
  intros Hinv. unfold connected, connect_with. destruct setup as [st|e]; [|by exists own, s].
  unfold SocketOps.open, Adapter.open.
  destruct (iopen_ok p (mkRawSetup (version st) (addr st) (port st)) s) as (code & h & e & s' & E & Hif).
  unfold ptry, pbind. rewrite E. destruct (code =? TEE_SUCCESS); cbn; eexists _, _; (split; [reflexivity|]).
  - destruct Hif as [Hnew Ho], Hinv as [Hk Hn Hop]. rewrite Hop in Hnew. split; cbn [map key handle].
    + apply list.NoDup_cons. split; [|done]. cbn. set_solver.
    + constructor; [cbn; set_solver|done].
    + rewrite Ho, Hop. cbn. set_solver.
  - destruct Hinv. split; [done..|congruence].
Qed.

Lemma close_inv k own s :
  inv own s -> exists own' s', act (Close k) own s = Ret (own', s') /\ inv own' s'.
Proof.
  intros Hinv. cbn [act]. unfold on_socket. destruct (own !! k) as [sk|] eqn:Hk.
  - pose proof (owned_live _ _ _ _ Hinv Hk) as Hl.
    destruct (iclose_ok _ _ s Hl) as (code & s' & E & Ho).
    unfold SocketOps.drop_socket, Adapter.drop_adapter, pbind. rewrite E. cbn.
    eexists _, _. split; [reflexivity|]. destruct Hinv as [Hks Hn Hop].
    assert (map key own ≡ₚ key sk :: map key (delete k own)) as Hp
      by (apply (Permutation_map key (l' := sk :: delete k own)), delete_Permutation; done).
    rewrite Hp in Hks, Hn, Hop. apply list.NoDup_cons in Hks as [Hnot Hks].
    apply list.Forall_cons in Hn as [Hnew Hn]. split; [done..|]. rewrite Ho, Hop. cbn [list_to_set].
    change (instance (handle sk), raw_handle (handle sk)) with (key sk).
    apply remove_owned; [done|]. by rewrite elem_of_list_to_set.
  - exists own, s. split; [|done]. unfold pbind, pret. f_equal. f_equal.
    by apply delete_beyond.
Qed.

Lemma sock_act_inv a own s :
  inv own s -> exists own' s', act a own s = Ret (own', s') /\ inv own' s'.
Proof.
  intros Hinv. destruct a as [p ad prt|p ad prt|k r t|k buf|k buf|k buf|k buf|k].
  - by apply connected_inv.
  - by apply connected_inv.
  - eexists _, s. split; [reflexivity|]. apply inv_alter; [apply key_with_timeouts|done].
  - destruct (on_socket_inv k own (fun sk => SocketOps.send sk buf) s Hinv) as (s' & E & Hi); [|eauto].
    intros sk Hl. destruct (write_spec sk buf s Hl) as (r & s' & E & Ho & _). eauto.
  - destruct (on_socket_inv k own (fun sk => SocketOps.recv sk buf) s Hinv) as (s' & E & Hi); [|eauto].
    intros sk Hl. destruct (read_spec sk buf s Hl) as (r & b & s' & E & _ & Ho & _). eauto.
  - destruct (on_socket_inv k own (fun sk => write_all sk buf) s Hinv) as (s' & E & Hi); [|eauto].
    intros sk Hl. destruct (write_all_loop_spec sk _ buf s Hl (le_n _)) as (r & s' & E & Ho & _).
    eauto.
  - destruct (on_socket_inv k own (fun sk => read_exact sk buf) s Hinv) as (s' & E & Hi); [|eauto].
    intros sk Hl. destruct (read_exact_loop_spec sk _ buf s Hl (le_n _)) as (r & b & s' & E & _ & Ho & _).
    eauto.
  - by apply close_inv.
Qed.

Lemma sock_run_inv acts : forall own s,
  inv own s -> exists own' s', run acts own s = Ret (own', s') /\ inv own' s'.
Proof.
  induction acts as [|a acts IH]; intros own s Hinv; cbn [run]; [by exists own, s|].
  destruct (sock_act_inv a own s Hinv) as (own1 & s1 & E & Hinv1). rewrite (pbind_Ret _ _ _ _ _ E).
  by apply IH.
Qed.

(** C30: whatever a TA does with its sockets, TCP and UDP mixed, connections that
    fail and calls that fail included, every call returns, a handle is only
    used with the instance that opened it, and the TEE has exactly the handles
    of the sockets the TA still owns besides those open before; when all are
    dropped, none is left. *)
Theorem sockets_balanced acts :
  exists own s, run acts [] s0 = Ret (own, s) /\
    NoDup (map key own) /\ Forall (fun h => h ∉ open_sockets s0) (map key own) /\
    open_sockets s = open_sockets s0 ∪ list_to_set (map key own) /\
    (own = [] -> open_sockets s = open_sockets s0).
Proof.
  destruct (sock_run_inv acts [] s0) as (own & s & E & [Hk Hn Ho]).
  { split; [constructor|constructor|cbn; set_solver]. }
  exists own, s. split_and!; [done..|]. intros ->. rewrite Ho. cbn. set_solver.
Qed.

End Life_cycle.

(** ** Peers for the properties

    A TEE whose handles are numbered, and whose peers take and give at most
    three bytes at a time; what they give is the bytes 1, 2, 3. *)

Module SlowPeer.

Record net : Type := mkNet { opened : gset (protocol * Z); sent_to : bytes; got : bytes }.

Definition checked_open {A} (p : protocol) (h : Z) (f : net -> A * net) : prog net A :=
  fun s => if bool_decide ((p, h) ∈ opened s) then Ret (f s) else UB.

#[local] Instance slow_sockets : TeeSockets net := {|
  iopen p st s :=
    if server_port st =? 0 then Ret ((TEE_ISOCKET_ERROR_HOSTNAME, (0, 0)), s)
    else let h := fresh (set_map snd (opened s) : gset Z) in
         Ret ((TEE_SUCCESS, (h, 0)), mkNet ({[(p, h)]} ∪ opened s) (sent_to s) (got s));
  iclose p h := checked_open p h (fun s =>
    (TEE_SUCCESS, mkNet (opened s ∖ {[(p, h)]}) (sent_to s) (got s)));
  isend p h buf n t := checked_open p h (fun s =>
    let m := Z.min 3 n in
    ((TEE_SUCCESS, m), mkNet (opened s) (sent_to s ++ take (Z.to_nat m) buf) (got s)));
  irecv p h buf n t := checked_open p h (fun s =>
    let m := Z.min 3 n in
    let buf' := take (Z.to_nat m) [1; 2; 3] ++ drop (Z.to_nat m) buf in
    ((TEE_SUCCESS, (m, buf')), mkNet (opened s) (sent_to s) (got s ++ take (Z.to_nat m) buf')));
  ierror p h := checked_open p h (fun s => (0, s));
  open_sockets := opened;
|}.

#[local] Instance slow_log : SocketLog net := {|
  sent s _ := sent_to s;
  received s _ := got s;
|}.

Lemma checked_open_ok {A} p h (f : net -> A * net) s :
  (p, h) ∈ opened s -> checked_open p h f s = Ret (f s).
Proof. intros Hin. unfold checked_open. by rewrite bool_decide_true. Qed.

#[local] Instance slow_sockets_ok : TeeSocketsOk net.
Proof.
  split; cbn.
  - intros p st s. case_if; eexists _, _, _, _; (split; [reflexivity|]); cbn; [done|].
    split; [|done]. intros Hin.
    apply (is_fresh (set_map snd (opened s) : gset Z)), elem_of_map.
    eexists (p, _). split; [reflexivity|exact Hin].
  - intros p h s Hin. rewrite checked_open_ok by done. by eexists _, _.
  - intros p h buf n t s Hin Hn. rewrite checked_open_ok by done.
    eexists _, _, _. split; [reflexivity|]. cbn. split_and!; [lia|lia|done..].
  - intros p h buf n t s Hin Hn. rewrite checked_open_ok by done.
    eexists _, _, _, _. split; [reflexivity|].
    assert (length (take (Z.to_nat (Z.min 3 n)) [1; 2; 3]) = Z.to_nat (Z.min 3 n)) as Ht
      by (rewrite length_take; cbn; lia).
    split; [unfold len in *; rewrite length_app, Ht, length_drop; lia|].
    cbn. split_and!; [lia|lia|done..].
  - intros p h s Hin. rewrite checked_open_ok by done. by eexists _, _.
Qed.

Lemma slow_takes h : willing_to_take (St := net) h.
Proof.
  intros buf n t s Hin Hn. destruct h as [p h]. cbn in *. rewrite checked_open_ok by done.
  eexists _, _. split; [reflexivity|]. lia.
Qed.

Lemma slow_gives h : willing_to_give (St := net) h.
Proof.
  intros buf n t s Hin Hn. destruct h as [p h]. cbn in *. rewrite checked_open_ok by done.
  eexists _, _, _. split; [reflexivity|]. lia.
Qed.

Definition sk : Socket := mkSocket (mkAdapter Tcp 7) 0 0.
Definition one_open : net := mkNet {[(Tcp, 7)]} [] [].

Lemma write_all_terminates_witness :
  exists s', write_all sk [5; 6; 7; 8; 9; 10; 11] one_open = Ret (Ok tt, s') /\
    sent_to s' = [5; 6; 7; 8; 9; 10; 11].
Proof.
  destruct (write_all_terminates sk [5; 6; 7; 8; 9; 10; 11] one_open)
    as (r & s' & E & _ & _ & k & _ & Hok & Hw); [by vm_compute|].
  assert (r = Ok tt) as -> by (apply Hw; [apply slow_takes|done]).
  exists s'. split; [exact E|]. exact (Hok eq_refl).
Defined.

Lemma read_exact_terminates_witness :
  exists buf' s', read_exact sk [0; 0; 0; 0; 0] one_open = Ret ((Ok tt, buf'), s') /\
    got s' = buf'.
Proof.
  destruct (read_exact_terminates sk [0; 0; 0; 0; 0] one_open)
    as (r & buf' & s' & E & _ & _ & _ & k & _ & Hok & Hw); [by vm_compute|].
  assert (r = Ok tt) as -> by (apply Hw; [apply slow_gives|done]).
  exists buf', s'. split; [exact E|]. exact (Hok eq_refl).
Defined.

(** A connection that fails, one of each kind, both closed. *)
Definition session : list action :=
  [Connect Tcp [97] 0; Connect Tcp [97] 80; ConnectV6 Udp [97] 53; Connect Udp [0] 1;
   SetTimeouts 0 (Some (mkDuration 1 0)) None; WriteAll 1 [1; 2; 3; 4]; Recv 0 [0; 0];
   Close 1; Close 0].

Lemma sockets_balanced_witness :
  exists s, run session [] (mkNet ∅ [] []) = Ret ([], s) /\ opened s = ∅.
Proof.
  destruct (sockets_balanced (mkNet ∅ [] []) session) as (own & s & E & _ & _ & _ & Hnone).
  assert (match run session [] (mkNet ∅ [] []) with Ret (own', _) => own' = [] | _ => False end)
    as Hown by (by vm_compute).
  rewrite E in Hown. subst own. exists s. split; [exact E|]. exact (Hnone eq_refl).
Defined.

End SlowPeer.
