(* ===== verification/Supplicant.v ===== *)
(** * Supplicant: calling a plugin of the tee-supplicant from a TA

    Models [crates/optee-utee/src/extension.rs] ([LoadablePlugin],
    [LoadablePluginCommand]) and the example plugin
    [examples/ca/supp_plugin-rs-plugin/src/lib.rs].  [tee_invoke_supp_plugin] is
    an interface, [SuppCall]; [delivered] states that such a call reaches the
    function a plugin's macro generates ([Plugin]), with the TA's buffer shared. *)

From S2P Require Import Prelude TeeDefines UteeError Memory TeeParams Uuids.
From S2P Require TeecDefines TeecError Plugin.

(** ** [Vec<u8>]

    The standard library promises a capacity of at least what is asked for; how
    much more is its choice. *)
Class VecPolicy : Type := {
  with_capacity_of : Z -> Z;
  grown_to : Z -> Z -> Z;
}.

Class VecPolicyOk `{!Target, !VecPolicy} : Prop := {
  with_capacity_ok n : 0 <= n < 2 ^ (ptr_bits - 1) -> n <= with_capacity_of n < 2 ^ (ptr_bits - 1);
  grown_ok c n : c < n < 2 ^ (ptr_bits - 1) -> n <= grown_to c n < 2 ^ (ptr_bits - 1);
}.

Record vec : Type := mkVec { vec_data : bytes; vec_capacity : Z }.

Section Vec.
Context `{!Target, !VecPolicy}.

(** More than [isize::MAX] bytes panic. *)
Definition vec_with_capacity (n : Z) : outcome vec :=
  if n <? 2 ^ (ptr_bits - 1) then Ret (mkVec [] (with_capacity_of n)) else Panic.

Definition extend_from_slice (v : vec) (data : bytes) : outcome vec :=
  let n := len (vec_data v) + len data in
  if n <=? vec_capacity v then Ret (mkVec (vec_data v ++ data) (vec_capacity v))
  else if n <? 2 ^ (ptr_bits - 1) then
    Ret (mkVec (vec_data v ++ data) (grown_to (vec_capacity v) n))
  else Panic.

End Vec.

(** [resize(n, 0)] of the contents. *)
Definition resize (l : bytes) (n : Z) : bytes :=
  take (Z.to_nat n) l ++ zeros (n - len l).

(** ** The TEE's call

    It gets the UUID, the command, the sub-command and the buffer, and answers
    the code, the length cell, and the buffer afterwards. *)
Record supp_answer : Type := mkSuppAnswer { sa_code : Z; sa_outlen : Z; sa_buf : bytes }.

Class SuppCall (St : Type) : Type :=
  tee_invoke_supp_plugin : TEE_UUID -> Z -> Z -> bytes -> prog St supp_answer.

(** ** [LoadablePlugin] and [LoadablePluginCommand] *)

Record LoadablePlugin : Type := mkLoadable { uuid : Utee.Uuid }.

(** [LoadablePlugin::new]: the UUID is cloned. *)
Definition new (uuid : Utee.Uuid) : LoadablePlugin := mkLoadable uuid.

Record LoadablePluginCommand : Type := mkCommand {
  plugin : LoadablePlugin; cmd_id : Z; sub_cmd_id : Z; buffer : vec
}.

Section Command.
Context `{!Target, !VecPolicy} {St : Type} `{!SuppCall St}.

Definition new_with_capacity (p : LoadablePlugin) (c sub capacity : Z) : outcome LoadablePluginCommand :=
  let! v := vec_with_capacity capacity in Ret (mkCommand p c sub v).

Definition invoke_with_capacity (self : LoadablePlugin) (c sub capacity : Z)
    : outcome LoadablePluginCommand := new_with_capacity self c sub capacity.

Definition write_body (self : LoadablePluginCommand) (data : bytes)
    : outcome LoadablePluginCommand :=
  let! v := extend_from_slice (buffer self) data in
  Ret (mkCommand (plugin self) (cmd_id self) (sub_cmd_id self) v).

Definition chain_write_body (self : LoadablePluginCommand) (data : bytes)
    : outcome LoadablePluginCommand := write_body self data.

Definition call (self : LoadablePluginCommand) : prog St (Result bytes) :=
  let buf := resize (vec_data (buffer self)) (vec_capacity (buffer self)) in
  let* a := tee_invoke_supp_plugin (Utee.as_raw (uuid (plugin self))) (cmd_id self) (sub_cmd_id self) buf in
  let? _ := pret (tee_check (sa_code a)) in
  if len (sa_buf a) <? sa_outlen a then pret (bail ErrorKind.ShortBuffer)
  else pret (Ok (resize (sa_buf a) (sa_outlen a))).

(** A command with several pieces of body. *)
Fixpoint write_all_body (self : LoadablePluginCommand) (pieces : list bytes)
    : outcome LoadablePluginCommand :=
  match pieces with
  | [] => Ret self
  | d :: ds => let! self' := write_body self d in write_all_body self' ds
  end.

Definition invoke (self : LoadablePlugin) (c sub : Z) (data : bytes) : prog St (Result bytes) :=
  let* command := plift (invoke_with_capacity self c sub (len data)) in
  let* command := plift (chain_write_body command data) in
  call command.

End Command.

(** ** The example plugin

    [invoke] of [supp_plugin-rs-plugin]; the printing is left out. *)
Module PrintPlugin.

(** [PluginCommand] of the example's [proto] crate. *)
Inductive PluginCommand : Type := Print | Unknown.
Definition from_u32 (c : Z) : PluginCommand := if c =? 0 then Print else Unknown.

Definition invoke `{!Target, !Profile} (params : Plugin.PluginParameters)
    : prog Plugin.pworld (TeecError.Result unit) :=
  match from_u32 (Plugin.cmd params) with
  | Print =>
      let send_slice := replicate 9 0x40 in
      let? _ := Plugin.set_buf_from_slice params send_slice in
      pret (Ok tt)
  | Unknown => pret (Plugin.fail TeecError.ErrorKind.BadParameters)
  end.

End PrintPlugin.

(** ** A call reaches the plugin *)

Section Delivery.
Context `{!Target, !Profile} {St : Type} `{!SuppCall St}.

(** From [s], a call for plugin [id] runs the generated function around [f]: the
    supplicant's process has the buffer mapped at some address with the TA's
    contents, and a length cell; the TA gets back the code, the cell and the
    buffer as the plugin leaves them.  A plugin that panics does not answer. *)
Definition delivered (id : TEE_UUID) (f : Plugin.PluginParameters -> prog Plugin.pworld (TeecError.Result unit))
    (s : St) : Prop :=
  forall c sub buf, len buf < 2 ^ (ptr_bits - 1) -> exists w a out,
    0 < a /\ a + len buf < 2 ^ ptr_bits /\ 0 < out < 2 ^ ptr_bits /\
    range_mapped (Plugin.pw_mem w) a (len buf) /\ holds_at (Plugin.pw_mem w) a buf /\
    is_Some (Plugin.pw_words w !! out) /\
    forall code w', Plugin.plugin_invoke_fn f c sub a (len buf) out w = Ret (code, w') ->
      exists n buf' s', tee_invoke_supp_plugin id c sub buf s = Ret (mkSuppAnswer code n buf', s') /\
        Plugin.pw_words w' !! out = Some n /\ len buf' = len buf /\
        holds_at (Plugin.pw_mem w') a buf'.

End Delivery.

(** What a plugin does with a request: an error, or a response that it sets as
    its output. *)
Definition answers `{!Target, !Profile}
    (f : Plugin.PluginParameters -> prog Plugin.pworld (TeecError.Result unit))
    (serve : Z -> Z -> bytes -> TeecError.Result bytes) : Prop :=
  forall p out w request,
    Plugin.plugin_ok p out w -> holds_at (Plugin.pw_mem w) (as_ptr (Plugin.buf p)) request ->
    len request = slice_len (Plugin.buf p) ->
    f p w = match serve (Plugin.cmd p) (Plugin.sub_cmd p) request with
            | Ok response => Plugin.set_buf_from_slice p response w
            | Err e => Ret (Err e, w)
            end.

(** What the TA gets: the response when the shared buffer has room for it. *)
Definition ta_result (shared : Z) (r : TeecError.Result bytes) : Result bytes :=
  match r with
  | Ok response => if len response <=? shared then Ok response else bail ErrorKind.ShortBuffer
  | Err e => Err (Error.from_raw_error (TeecError.Error.raw_code e))
  end.

(** ** Properties *)

Section Supplicant_lemmas.
Context `{!Target, !TargetOk, !Profile, !VecPolicy, !VecPolicyOk} {St : Type} `{!SuppCall St}.

Definition vec_ok (v : vec) : Prop := len (vec_data v) <= vec_capacity v < 2 ^ (ptr_bits - 1).

Lemma resize_grow l n : len l <= n -> resize l n = l ++ zeros (n - len l).
Proof. intros Hn. unfold resize. rewrite take_ge; [done|unfold len in Hn; lia]. Qed.

Lemma resize_shrink l n : 0 <= n <= len l -> resize l n = take (Z.to_nat n) l.
Proof.
  intros Hn. unfold resize, zeros. replace (Z.to_nat (n - len l)) with 0%nat by lia. apply app_nil_r.
Qed.

Lemma len_resize l n : 0 <= n -> len (resize l n) = n.
Proof.
  intros Hn. destruct (Z.le_ge_cases (len l) n).
  - rewrite resize_grow, len_app, len_zeros by lia. lia.
  - rewrite resize_shrink, len_take by lia. done.
Qed.

Lemma with_capacity_spec n :
  0 <= n < 2 ^ (ptr_bits - 1) ->
  exists v, vec_with_capacity n = Ret v /\ vec_ok v /\ vec_data v = [] /\ n <= vec_capacity v.
Proof.
  intros Hn. destruct (with_capacity_ok n Hn). unfold vec_with_capacity.
  rewrite (proj2 (Z.ltb_lt _ _)) by lia. eexists. split; [reflexivity|].
  unfold vec_ok. cbn [vec_data vec_capacity]. rewrite len_nil. split_and!; (done || lia).
Qed.

Lemma extend_spec v data :
  vec_ok v -> len (vec_data v) + len data < 2 ^ (ptr_bits - 1) ->
  exists v', extend_from_slice v data = Ret v' /\ vec_ok v' /\
    vec_data v' = vec_data v ++ data /\ vec_capacity v <= vec_capacity v'.
Proof.
  intros Hv Hlt. unfold vec_ok in *. unfold extend_from_slice. case_if.
  - eexists. split; [reflexivity|]. cbn [vec_data vec_capacity]. rewrite len_app. split_and!; (done || lia).
  - rewrite (proj2 (Z.ltb_lt _ _)) by lia. eexists. split; [reflexivity|].
    cbn [vec_data vec_capacity]. rewrite len_app.
    destruct (grown_ok (vec_capacity v) (len (vec_data v) + len data)); [lia|].
    split_and!; (done || lia).
Qed.

Lemma write_all_body_spec pieces : forall cmd,
  vec_ok (buffer cmd) -> len (vec_data (buffer cmd)) + len (concat pieces) < 2 ^ (ptr_bits - 1) ->
  exists cmd', write_all_body cmd pieces = Ret cmd' /\ vec_ok (buffer cmd') /\
    vec_data (buffer cmd') = vec_data (buffer cmd) ++ concat pieces /\
    vec_capacity (buffer cmd) <= vec_capacity (buffer cmd') /\
    plugin cmd' = plugin cmd /\ cmd_id cmd' = cmd_id cmd /\ sub_cmd_id cmd' = sub_cmd_id cmd.
Proof.
  induction pieces as [|d ds IH]; intros cmd Hv Hlt; cbn [write_all_body concat] in *.
  { exists cmd. rewrite app_nil_r. split_and!; done. }
  rewrite len_app in Hlt. pose proof (len_nonneg (concat ds)).
  destruct (extend_spec (buffer cmd) d Hv) as (v & E & Hv1 & Hd & Hc); [lia|].
  unfold write_body. rewrite E. cbn [outcome_bind].
  destruct (IH (mkCommand (plugin cmd) (cmd_id cmd) (sub_cmd_id cmd) v))
    as (cmd' & E' & Hv' & Hd' & Hc' & Hp); [done|cbn; rewrite Hd, len_app; lia|].
  exists cmd'. split; [done|]. split; [done|]. split; [|split; [cbn in *; lia|exact Hp]].
  rewrite Hd'. cbn. by rewrite Hd, <- app_assoc.
Qed.

(** The generated function calls the plugin with the parameters it was given. *)
Lemma generated_call f p out w :
  Plugin.plugin_ok p out w -> as_ptr (Plugin.buf p) <> 0 -> out <> 0 ->
  Plugin.plugin_invoke_fn f (Plugin.cmd p) (Plugin.sub_cmd p) (as_ptr (Plugin.buf p))
    (slice_len (Plugin.buf p)) out w = pbind (f p) (fun r => pret (Plugin.result_code r)) w.
Proof.
  intros [Ho _ _ Hl] Ha Hout. unfold Plugin.plugin_invoke_fn, Plugin.from_raw, plift, pbind.
  rewrite (proj2 (Z.eqb_neq _ 0) Ha), (proj2 (Z.eqb_neq out 0) Hout), andb_false_r.
  rewrite (proj2 (Z.leb_gt _ _) (proj2 Hl)).
  destruct p as [c sub [a n] o]. cbn in Ho. subst o. done.
Qed.

(** A call of a plugin that answers gives what it answers. *)
Lemma call_spec f serve cmd (s : St) :
  delivered (Utee.as_raw (uuid (plugin cmd))) f s -> answers f serve -> vec_ok (buffer cmd) ->
  let shared := vec_capacity (buffer cmd) in
  let response := serve (cmd_id cmd) (sub_cmd_id cmd) (resize (vec_data (buffer cmd)) shared) in
  (forall e, response = Err e -> TeecError.Error.raw_code e <> TEE_SUCCESS) ->
  (forall l, response = Ok l -> len l < 2 ^ (ptr_bits - 1)) ->
  exists s', call cmd s = Ret (ta_result shared response, s').
Proof.
  intros Hdel Hans Hv shared response Herr Hsmall. unfold call.
  set (request := resize (vec_data (buffer cmd)) shared) in *.
  assert (0 <= shared) as Hsh0 by (unfold vec_ok in Hv; pose proof (len_nonneg (vec_data (buffer cmd))); lia).
  assert (len request = shared) as Hreq by (by apply len_resize).
  destruct (Hdel (cmd_id cmd) (sub_cmd_id cmd) request ltac:(unfold vec_ok in Hv; lia))
    as (w & a & out & Ha & Ha' & Hout & Hmap & Hh & Hcell & Hrun).
  rewrite Hreq in *.
  set (p := Plugin.mkPlugin (cmd_id cmd) (sub_cmd_id cmd) (mkSlice a shared) (Some out)).
  assert (Plugin.plugin_ok p out w) as Hok
    by (split; [done|done|done|unfold vec_ok in Hv; cbn; lia]).
  assert (forall r w', f p w = Ret (r, w') ->
    Plugin.plugin_invoke_fn f (cmd_id cmd) (sub_cmd_id cmd) a shared out w
      = Ret (Plugin.result_code r, w')) as Hgen.
  { intros r w' E. pose proof (generated_call f p out w Hok) as Hg. cbn in Hg.
    rewrite Hg by lia. by rewrite (pbind_Ret _ _ _ _ _ E). }
  pose proof (Hans p out w request Hok Hh Hreq) as Hf. cbn [Plugin.cmd Plugin.sub_cmd p] in Hf.
  fold request response in Hf. destruct response as [l|e] eqn:Hresp.
  - pose proof (Hsmall l eq_refl) as Hl. unfold Plugin.set_buf_from_slice in Hf.
    cbn [ta_result]. destruct (len l <=? shared) eqn:Hfit; reflect_bool.
    + destruct (Plugin.write_output_fits p out w 0 l Hok) as (m & E & _ & Hm & _);
        [done|cbn; lia|]. rewrite E in Hf.
      destruct (Hrun _ _ (Hgen _ _ Hf)) as (n & buf' & s' & Ecall & Hn & Hlen & Hb).
      cbn [Plugin.pw_words Plugin.pw_mem] in Hn, Hb. rewrite lookup_insert_eq in Hn. injection Hn as <-.
      rewrite (pbind_Ret _ _ _ _ _ Ecall). exists s'. cbn [sa_code sa_outlen sa_buf Plugin.result_code].
      erewrite ptry_Ok by reflexivity. cbv beta. pose proof (len_nonneg l).
      rewrite (proj2 (Z.ltb_ge (len buf') (0 + len l))) by lia.
      rewrite resize_shrink by lia. cbn [Plugin.buf p as_ptr] in Hm.
      rewrite (holds_at_sub _ a buf' 0 l Hb) at 2; [done|lia|lia|done].
    + pose proof Plugin.isize_lt_usize.
      rewrite (Plugin.write_output_short p out w 0 l Hok) in Hf by (cbn [Plugin.buf p slice_len]; lia).
      destruct (Hrun _ _ (Hgen _ _ Hf)) as (n & buf' & s' & Ecall & _).
      rewrite (pbind_Ret _ _ _ _ _ Ecall). exists s'. cbn [sa_code]. by erewrite ptry_Err by reflexivity.
  - destruct (Hrun _ _ (Hgen _ _ Hf)) as (n & buf' & s' & Ecall & _).
    rewrite (pbind_Ret _ _ _ _ _ Ecall). exists s'. cbn [sa_code Plugin.result_code ta_result].
    erewrite ptry_Err; [reflexivity|]. unfold tee_check.
    by rewrite (proj2 (Z.eqb_neq _ _) (Herr e eq_refl)).
Qed.

(** C33: a request of a TA reaches the plugin, and the plugin's answer the TA.
    The command can be built piece by piece with any initial capacity below
    [isize::MAX]; the buffer that is shared has at least that capacity and room
    for the body.  The plugin sees the body followed by zeros up to the shared
    size; the TA gets exactly its response when it fits the shared buffer and
    [ShortBuffer] when not; an error of the plugin arrives with its code. *)
Theorem plugin_round_trip f serve p c sub cap pieces (s : St) :
  delivered (Utee.as_raw (uuid p)) f s -> answers f serve ->
  0 <= cap < 2 ^ (ptr_bits - 1) -> len (concat pieces) < 2 ^ (ptr_bits - 1) ->
  (forall req e, serve c sub req = Err e -> TeecError.Error.raw_code e <> TEE_SUCCESS) ->
  (forall req l, serve c sub req = Ok l -> len l < 2 ^ (ptr_bits - 1)) ->
  exists cmd s',
    outcome_bind (invoke_with_capacity p c sub cap) (fun cmd0 => write_all_body cmd0 pieces) = Ret cmd /\
    let shared := vec_capacity (buffer cmd) in
    cap <= shared /\ len (concat pieces) <= shared /\
    call cmd s = Ret (ta_result shared
      (serve c sub (concat pieces ++ zeros (shared - len (concat pieces)))), s').
Proof.
  intros Hdel Hans Hcap Hlen Herr Hsmall. destruct (with_capacity_spec cap Hcap) as (v & E & Hv & Hd & Hc).
  unfold invoke_with_capacity, new_with_capacity. rewrite E. cbn [outcome_bind].
  destruct (write_all_body_spec pieces (mkCommand p c sub v)) as (cmd & E' & Hv' & Hd' & Hc' & Hp & Hci & Hsi);
    [done|cbn; by rewrite Hd|].
  cbn [plugin cmd_id sub_cmd_id buffer] in *. rewrite Hd in Hd'. cbn [app] in Hd'.
  assert (len (concat pieces) <= vec_capacity (buffer cmd)) as Hle
    by (rewrite <- Hd'; unfold vec_ok in Hv'; lia).
  destruct (call_spec f serve cmd s) as (s' & Ecall); rewrite ?Hp, ?Hci, ?Hsi; eauto.
  exists cmd, s'. split; [done|]. cbv zeta. split; [lia|]. split; [done|].
  rewrite Ecall, Hci, Hsi, Hd', resize_grow by done. done.
Qed.

(** [invoke]: the shared buffer has at least the size of the request. *)
Lemma invoke_spec f serve p c sub data (s : St) :
  delivered (Utee.as_raw (uuid p)) f s -> answers f serve -> len data < 2 ^ (ptr_bits - 1) ->
  (forall req e, serve c sub req = Err e -> TeecError.Error.raw_code e <> TEE_SUCCESS) ->
  (forall req l, serve c sub req = Ok l -> len l < 2 ^ (ptr_bits - 1)) ->
  exists shared s', len data <= shared /\
    invoke p c sub data s
      = Ret (ta_result shared (serve c sub (data ++ zeros (shared - len data))), s').
Proof.
  intros Hdel Hans Hlen Herr Hsmall. pose proof (len_nonneg data).
  destruct (with_capacity_spec (len data)) as (v & E & Hv & Hd & Hc); [lia|].
  destruct (extend_spec v data Hv) as (v' & E' & Hv' & Hd' & Hc'); [rewrite Hd, len_nil; lia|].
  rewrite Hd in Hd'. cbn [app] in Hd'.
  destruct (call_spec f serve (mkCommand p c sub v') s) as (s' & Ecall); [done..|eauto|eauto|].
  exists (vec_capacity v'), s'. split; [lia|].
  unfold invoke, invoke_with_capacity, new_with_capacity, chain_write_body, write_body, plift, pbind.
  rewrite E. cbn [outcome_bind buffer]. rewrite E'. cbn [outcome_bind plugin cmd_id sub_cmd_id].
  rewrite Ecall. cbn [cmd_id sub_cmd_id buffer]. rewrite Hd', resize_grow by lia. done.
Qed.

End Supplicant_lemmas.

(** ** What the example plugin answers *)

Definition print_serve (c sub : Z) (request : bytes) : TeecError.Result bytes :=
  if c =? 0 then Ok (replicate 9 0x40) else Plugin.fail TeecError.ErrorKind.BadParameters.

Lemma print_answers `{!Target, !Profile} : answers PrintPlugin.invoke print_serve.
Proof.
  intros p out w request Hok _ _. unfold PrintPlugin.invoke, PrintPlugin.from_u32, print_serve.
  destruct (Plugin.cmd p =? 0); [|done]. unfold ptry, pbind, pret.
  by destruct (Plugin.set_buf_from_slice p _ w) as [[[[]|] ?]| |].
Qed.

(** ** The example plugin behind a supplicant *)

Module PrintExample.

#[local] Instance print_target : Target := 64.
#[local] Instance print_profile : Profile := true.
#[local] Instance exact_vec : VecPolicy := {| with_capacity_of n := n; grown_to _ n := n |}.
#[local] Instance exact_vec_ok : VecPolicyOk.
Proof. split; cbn; lia. Qed.

Definition nil_uuid : Utee.Uuid := Utee.new_raw 0 0 0 (repeat 0 8).

Definition process (buf : bytes) : Plugin.pworld :=
  Plugin.mkPworld (buffer_at 0x2000 buf) {[0x10 := 0]}.

(** The supplicant maps the buffer, runs the plugin, and copies back. *)
#[local] Instance supplicant : SuppCall unit := fun _ c sub buf s =>
  match Plugin.plugin_invoke_fn PrintPlugin.invoke c sub 0x2000 (len buf) 0x10 (process buf) with
  | Ret (code, w) =>
      Ret (mkSuppAnswer code (default 0 (Plugin.pw_words w !! 0x10))
             (default [] (read_range (Plugin.pw_mem w) 0x2000 (length buf))), s)
  | Panic => Panic
  | UB => UB
  end.

Lemma process_ok c sub buf :
  len buf < 2 ^ 63 ->
  Plugin.plugin_ok (Plugin.mkPlugin c sub (mkSlice 0x2000 (len buf)) (Some 0x10)) 0x10 (process buf).
Proof.
  intros Hb. pose proof (len_nonneg buf).
  split; [done|by exists 0|exact (buffer_at_mapped 0x2000 buf)|done].
Qed.

(** Whatever the plugin does, the buffer stays mapped and the cell there. *)
Lemma print_keeps c sub buf code w :
  len buf < 2 ^ 63 ->
  Plugin.plugin_invoke_fn PrintPlugin.invoke c sub 0x2000 (len buf) 0x10 (process buf) = Ret (code, w) ->
  range_mapped (Plugin.pw_mem w) 0x2000 (len buf) /\ is_Some (Plugin.pw_words w !! 0x10).
Proof.
  intros Hb E. pose proof (process_ok c sub buf Hb) as Hok.
  set (p := Plugin.mkPlugin _ _ _ _) in Hok.
  assert (exists r, PrintPlugin.invoke p (process buf) = Ret (r, w)) as [r Er].
  { destruct (PrintPlugin.invoke p (process buf)) as [[r w']| |] eqn:Er;
      (pose proof (generated_call PrintPlugin.invoke p 0x10 (process buf) Hok ltac:(done) ltac:(done)) as Eg;
       cbn in Eg; unfold pbind at 1 in Eg; rewrite Er in Eg; rewrite Eg in E).
    - injection E as _ <-. by exists r.
    - done.
    - done. }
  rewrite (print_answers p 0x10 _ buf Hok) in Er; [|by intros i Hi; apply buffer_at_lookup|done].
  unfold print_serve in Er. destruct (Plugin.cmd p =? 0); [|by injection Er as _ <-; split; apply Hok].
  assert (Plugin.plugin_inv p 0x10 (process buf) w) as [Hfin _ _ _]; [|by split; apply Hfin].
  refine (Plugin.plugin_inv_write p 0x10 _ _ 0 (replicate 9 0x40) r w _ _ _ Er); [|done|done].
  by split; [..|left].
Qed.

Lemma print_delivered id (s : unit) : delivered id PrintPlugin.invoke s.
Proof.
  intros c sub buf Hb. exists (process buf), 0x2000, 0x10. pose proof (len_nonneg buf).
  change (len buf < 2 ^ 63) in Hb.
  split_and!; [done|change (0x2000 + len buf < 2 ^ 64); lia|done|done|exact (buffer_at_mapped 0x2000 buf)| | |].
  - intros i Hi. by apply buffer_at_lookup.
  - by exists 0.
  - intros code w E. destruct (print_keeps c sub buf code w Hb E) as [Hm [n Hn]].
    destruct (read_range_spec (Plugin.pw_mem w) (length buf) 0x2000 Hm) as (l & Er & Hl & Hh).
    exists n, l, s. unfold tee_invoke_supp_plugin, supplicant. by rewrite E, Hn, Er.
Qed.

(** The example TA's [Ping]: a request of 10 bytes is answered with 9 bytes; one
    of 4 bytes shares a buffer too short for the answer. *)
Lemma plugin_round_trip_witness :
  (exists s, call (mkCommand (new nil_uuid) 0 0xFFFFFFFF (mkVec (replicate 10 0x36) 10)) tt
     = Ret (Ok (replicate 9 0x40), s)) /\
  (exists s, call (mkCommand (new nil_uuid) 0 0xFFFFFFFF (mkVec (replicate 4 0x36) 4)) tt
     = Ret (bail ErrorKind.ShortBuffer, s)).
Proof.
  assert (forall req e, print_serve 0 0xFFFFFFFF req = Err e ->
    TeecError.Error.raw_code e <> TEE_SUCCESS) as He by done.
  assert (forall req l, print_serve 0 0xFFFFFFFF req = Ok l -> len l < 2 ^ 63) as Hl
    by (intros req l [= <-]; done).
  split.
  - destruct (plugin_round_trip PrintPlugin.invoke print_serve (new nil_uuid) 0 0xFFFFFFFF 10
      [replicate 10 0x36] tt (print_delivered _ tt) print_answers) as (cmd & s & E & _ & _ & Hc); [done..|].
    vm_compute in E. injection E as <-. exists s. exact Hc.
  - destruct (plugin_round_trip PrintPlugin.invoke print_serve (new nil_uuid) 0 0xFFFFFFFF 4
      [replicate 4 0x36] tt (print_delivered _ tt) print_answers) as (cmd & s & E & _ & _ & Hc); [done..|].
    vm_compute in E. injection E as <-. exists s. exact Hc.
Defined.

End PrintExample.
