(* ===== verification/Transient.v ===== *)
(** * Transient: transient objects, attributes and the object enumerator

    Models [crates/optee-utee/src/object/]: [attribute.rs], [transient_object.rs],
    [enum_handle.rs], and the attribute methods of [generic_object.rs].  The
    TEE's objects are an interface, [TeeObjects]; a reference attribute is a
    pointer into the TA's memory, which the TEE reads when it is used, so the
    calls that take attributes take the memory too. *)

From S2P Require Import Prelude TeeDefines UteeError Memory EntryPoints Storage Crypto.

(** ** Identifiers *)

Module AttributeId.

Inductive AttributeId : Type :=
| SecretValue
| RsaModulus
| RsaPublicExponent
| RsaPrivateExponent
| RsaPrime1
| RsaPrime2
| RsaExponent1
| RsaExponent2
| RsaCoefficient
| DsaPrime
| DsaSubprime
| DsaBase
| DsaPublicValue
| DsaPrivateValue
| DhPrime
| DhSubprime
| DhBase
| DhXBits
| DhPublicValue
| DhPrivateValue
| Pbkdf2Password
| Pbkdf2Salt
| Pbkdf2IterationCount
| Pbkdf2DkmLength
| RsaOaepLabel
| RsaOaepMgf1Hash
| RsaPssSaltLength
| EccPublicValueX
| EccPublicValueY
| EccPrivateValue
| Ed25519PublicValue
| Ed25519PrivateValue
| X25519PublicValue
| X25519PrivateValue
| EccCurve
| BitProtected
| BitValue.

Definition as_u32 (x : AttributeId) : Z :=
  match x with
  | SecretValue => 0xC0000000
  | RsaModulus => 0xD0000130
  | RsaPublicExponent => 0xD0000230
  | RsaPrivateExponent => 0xC0000330
  | RsaPrime1 => 0xC0000430
  | RsaPrime2 => 0xC0000530
  | RsaExponent1 => 0xC0000630
  | RsaExponent2 => 0xC0000730
  | RsaCoefficient => 0xC0000830
  | DsaPrime => 0xD0001031
  | DsaSubprime => 0xD0001131
  | DsaBase => 0xD0001231
  | DsaPublicValue => 0xD0000131
  | DsaPrivateValue => 0xC0000231
  | DhPrime => 0xD0001032
  | DhSubprime => 0xD0001132
  | DhBase => 0xD0001232
  | DhXBits => 0xF0001332
  | DhPublicValue => 0xD0000132
  | DhPrivateValue => 0xC0000232
  | Pbkdf2Password => 0xC00001C2
  | Pbkdf2Salt => 0xD00002C2
  | Pbkdf2IterationCount => 0xF00003C2
  | Pbkdf2DkmLength => 0xF00004C2
  | RsaOaepLabel => 0xD0000930
  | RsaOaepMgf1Hash => 0xD0000931
  | RsaPssSaltLength => 0xF0000A30
  | EccPublicValueX => 0xD0000141
  | EccPublicValueY => 0xD0000241
  | EccPrivateValue => 0xC0000341
  | Ed25519PublicValue => 0xD0000743
  | Ed25519PrivateValue => 0xC0000843
  | X25519PublicValue => 0xD0000944
  | X25519PrivateValue => 0xC0000A44
  | EccCurve => 0xF0000441
  | BitProtected => Z.shiftl 1 28
  | BitValue => Z.shiftl 1 29
  end.

End AttributeId.

Abbreviation AttributeId := AttributeId.AttributeId.

Module TransientObjectType.

Inductive TransientObjectType : Type :=
| Aes
| Des
| Des3
| HmacMd5
| HmacSha1
| HmacSha224
| HmacSha256
| HmacSha384
| HmacSha512
| RsaPublicKey
| RsaKeypair
| DsaPublicKey
| DsaKeypair
| DhKeypair
| Pbkdf2Password
| EcdsaPublicKey
| EcdsaKeypair
| EcdhPublicKey
| EcdhKeypair
| Ed25519PublicKey
| Ed25519Keypair
| X25519PublicKey
| X25519Keypair
| GenericSecret
| CorruptedObject
| Data.

Definition as_u32 (x : TransientObjectType) : Z :=
  match x with
  | Aes => 0xA0000010
  | Des => 0xA0000011
  | Des3 => 0xA0000013
  | HmacMd5 => 0xA0000001
  | HmacSha1 => 0xA0000002
  | HmacSha224 => 0xA0000003
  | HmacSha256 => 0xA0000004
  | HmacSha384 => 0xA0000005
  | HmacSha512 => 0xA0000006
  | RsaPublicKey => 0xA0000030
  | RsaKeypair => 0xA1000030
  | DsaPublicKey => 0xA0000031
  | DsaKeypair => 0xA1000031
  | DhKeypair => 0xA1000032
  | Pbkdf2Password => 0xA10000C2
  | EcdsaPublicKey => 0xA0000041
  | EcdsaKeypair => 0xA1000041
  | EcdhPublicKey => 0xA0000042
  | EcdhKeypair => 0xA1000042
  | Ed25519PublicKey => 0xA0000043
  | Ed25519Keypair => 0xA1000043
  | X25519PublicKey => 0xA0000044
  | X25519Keypair => 0xA1000044
  | GenericSecret => 0xA0000000
  | CorruptedObject => 0xA00000BE
  | Data => 0xA00000BF
  end.

End TransientObjectType.

Abbreviation TransientObjectType := TransientObjectType.TransientObjectType.

(** Bit 29 of an identifier tells values from references; bit 28 marks what is
    not protected. *)
Definition is_value (id : Z) : bool := Z.testbit id 29.
Definition is_public (id : Z) : bool := Z.testbit id 28.

(** The reference attributes that are big numbers; the others are byte strings. *)
Definition bignum_ids : list Z := AttributeId.as_u32 <$>
  [AttributeId.RsaModulus; AttributeId.RsaPublicExponent; AttributeId.RsaPrivateExponent;
   AttributeId.RsaPrime1; AttributeId.RsaPrime2; AttributeId.RsaExponent1; AttributeId.RsaExponent2;
   AttributeId.RsaCoefficient; AttributeId.DsaPrime; AttributeId.DsaSubprime; AttributeId.DsaBase;
   AttributeId.DsaPublicValue; AttributeId.DsaPrivateValue; AttributeId.DhPrime;
   AttributeId.DhSubprime; AttributeId.DhBase; AttributeId.DhPublicValue; AttributeId.DhPrivateValue;
   AttributeId.EccPublicValueX; AttributeId.EccPublicValueY; AttributeId.EccPrivateValue].
Definition is_bignum (id : Z) : bool := bool_decide (id ∈ bignum_ids).

(** What is read of an attribute that was given as [l]: a big number may lose zeros in
    front. *)
Definition same_attribute (id : Z) (l l' : bytes) : Prop :=
  if is_bignum id then be_combine l' = be_combine l /\ len l' <= len l else l' = l.

(** ** The TEE's objects *)

(** What an attribute is worth: bytes or two words. *)
Inductive attr_content : Type := ByRef (l : bytes) | ByValue (a b : Z).

(** The TEE panics the TA on a programming error. *)
Class TeeObjects (St : Type) : Type := {
  TEE_AllocateTransientObject : Z -> Z -> prog St (Z * Z);
  TEE_ResetTransientObject : Z -> prog St unit;
  TEE_PopulateTransientObject : mem -> Z -> list TEE_Attribute -> Z -> prog St Z;
  TEE_CopyObjectAttributes1 : Z -> Z -> prog St Z;
  TEE_GenerateKey : mem -> Z -> Z -> list TEE_Attribute -> Z -> prog St Z;
  TEE_FreeObject : Z -> prog St unit;
  TEE_InitRefAttribute : Z -> Z -> Z -> outcome TEE_Attribute;
  TEE_InitValueAttribute : Z -> Z -> Z -> outcome TEE_Attribute;
  TEE_GetObjectBufferAttribute : Z -> Z -> bytes -> prog St out_answer;
  TEE_GetObjectValueAttribute : Z -> Z -> prog St (Z * (Z * Z));
  TEE_AllocatePersistentObjectEnumerator : prog St (Z * Z);
  TEE_FreePersistentObjectEnumerator : Z -> prog St unit;
  TEE_ResetPersistentObjectEnumerator : Z -> prog St unit;
  TEE_StartPersistentObjectEnumerator : Z -> Z -> prog St Z;
  TEE_GetNextPersistentObject : Z -> bytes -> prog St (out_answer * ObjectInfo);
  (** The transient objects, with their attributes once they are initialised,
      and whether their protected attributes may be read. *)
  transients : St -> gmap Z (option (gmap Z attr_content));
  extractable : St -> Z -> bool;
  (** The open enumerators. *)
  enumerators : St -> gset Z;
}.

(** The TEE, the TA's memory, and the boxes of enumerators. *)
Record oworld (St : Type) : Type := mkOworld { otee : St; omem : mem; enum_boxes : gmap Z Z }.
Arguments mkOworld {St} otee omem enum_boxes.
Arguments otee {St} o.
Arguments omem {St} o.
Arguments enum_boxes {St} o.

Definition on_tee {St A} (m : mem -> prog St A) : prog (oworld St) A :=
  fun w => match m (omem w) (otee w) with
           | Ret (a, t) => Ret (a, mkOworld t (omem w) (enum_boxes w))
           | Panic => Panic
           | UB => UB
           end.

(** The TA frees a buffer. *)
Definition free_buffer {St} (p n : Z) : prog (oworld St) unit :=
  pmod (fun w => mkOworld (otee w) (filter (fun '(a, _) => ~ p <= a < p + n) (omem w)) (enum_boxes w)).

(** ** Attributes *)

Module Attribute.
Section Ops.
Context {St : Type} `{!TeeObjects St}.

(** [AttributeMemref], [AttributeValue] and [Attribute] all hold the raw
    attribute; [Attribute::from] keeps it but not the borrow of the buffer. *)
Definition new_ref : TEE_Attribute := mkAttribute 0 0 0.
Definition new_value : TEE_Attribute := mkAttribute 0 0 0.
Definition from_ref (id : AttributeId) (p n : Z) : outcome TEE_Attribute :=
  TEE_InitRefAttribute (AttributeId.as_u32 id) p n.
Definition from_value (id : AttributeId) (a b : Z) : outcome TEE_Attribute :=
  TEE_InitValueAttribute (AttributeId.as_u32 id) a b.

End Ops.
End Attribute.

(** ** [TransientObject] *)

Record TransientObject : Type := mkTransient { to_handle : ObjectHandle }.

Module TransientOps.
Section Ops.
Context {St : Type} `{!TeeObjects St}.

Definition raw (o : TransientObject) : Z := oh_raw (to_handle o).
Definition null_object : TransientObject := mkTransient Handle.new_null.
Definition is_null_object (o : TransientObject) : bool := Handle.is_null (to_handle o).

Definition allocate (ty : TransientObjectType) (max_object_size : Z)
    : prog (oworld St) (Result TransientObject) :=
  let* (code, handle) := on_tee (fun _ =>
    TEE_AllocateTransientObject (TransientObjectType.as_u32 ty) (wrap_u 32 max_object_size)) in
  let? _ := pret (tee_check code) in
  pret (result_map mkTransient (Handle.from_raw handle)).

Definition reset (o : TransientObject) : prog (oworld St) unit :=
  on_tee (fun _ => TEE_ResetTransientObject (raw o)).

Definition populate (o : TransientObject) (attrs : list TEE_Attribute)
    : prog (oworld St) (Result unit) :=
  let* code := on_tee (fun m => TEE_PopulateTransientObject m (raw o) attrs (wrap_u 32 (len attrs))) in
  pret (tee_check code).

(** The source is any object, given by its raw handle. *)
Definition copy_attribute_from (o : TransientObject) (src_object : Z) : prog (oworld St) (Result unit) :=
  let* code := on_tee (fun _ => TEE_CopyObjectAttributes1 (raw o) src_object) in
  pret (tee_check code).

Definition generate_key (o : TransientObject) (key_size : Z) (params : list TEE_Attribute)
    : prog (oworld St) (Result unit) :=
  let* code := on_tee (fun m =>
    TEE_GenerateKey m (raw o) (wrap_u 32 key_size) params (wrap_u 32 (len params))) in
  pret (tee_check code).

(** [impl Drop for ObjectHandle]; for transient objects [TEE_CloseObject] frees
    the object. *)
Definition drop_transient (o : TransientObject) : prog (oworld St) unit :=
  if negb (is_null_object o) then on_tee (fun _ => TEE_FreeObject (raw o)) else pret tt.

(** [GenericObject::ref_attribute] and [value_attribute]. *)
Definition ref_attribute (o : TransientObject) (id : AttributeId) (buffer : bytes)
    : prog (oworld St) (Result Z * bytes) :=
  let* a := on_tee (fun _ => TEE_GetObjectBufferAttribute (raw o) (AttributeId.as_u32 id) buffer) in
  pret (match tee_check (oa_code a) with Ok _ => Ok (oa_size a) | Err e => Err e end, oa_buf a).

Definition value_attribute (o : TransientObject) (id : Z) : prog (oworld St) (Result (Z * Z)) :=
  let* (code, v) := on_tee (fun _ => TEE_GetObjectValueAttribute (raw o) id) in
  let? _ := pret (tee_check code) in
  pret (Ok v).

End Ops.
End TransientOps.

(** ** [ObjectEnumHandle] *)

(** A pointer to the box of the TEE's handle. *)
Record ObjectEnumHandle : Type := mkEnum { enum_raw : Z }.

Module Enumerator.
Section Ops.
Context `{!Target, !Allocator} {St : Type} `{!TeeObjects St}.

(** [Box::into_raw(Box::new(null))]. *)
Definition box_new : prog (oworld St) Z :=
  fun w => let p := alloc_addr (dom (enum_boxes w)) in
           Ret (p, mkOworld (otee w) (omem w) (<[p := 0]> (enum_boxes w))).

(** [drop(Box::from_raw(p))]. *)
Definition box_free (p : Z) : prog (oworld St) unit :=
  fun w => match enum_boxes w !! p with
           | Some _ => Ret (tt, mkOworld (otee w) (omem w) (delete p (enum_boxes w)))
           | None => UB
           end.

(** [*self.raw]. *)
Definition handle (e : ObjectEnumHandle) : prog (oworld St) Z :=
  fun w => match enum_boxes w !! enum_raw e with Some h => Ret (h, w) | None => UB end.

Definition allocate : prog (oworld St) (Result ObjectEnumHandle) :=
  let* raw_handle := box_new in
  let* (code, h) := on_tee (fun _ => TEE_AllocatePersistentObjectEnumerator) in
  let* _ := pmod (fun w => mkOworld (otee w) (omem w) (<[raw_handle := h]> (enum_boxes w))) in
  if code =? TEE_SUCCESS then pret (Ok (mkEnum raw_handle))
  else
    let* _ := box_free raw_handle in
    pret (Err (Error.from_raw_error code)).

Definition reset (e : ObjectEnumHandle) : prog (oworld St) unit :=
  let* h := handle e in on_tee (fun _ => TEE_ResetPersistentObjectEnumerator h).

Definition start (e : ObjectEnumHandle) (storage_id : Z) : prog (oworld St) (Result unit) :=
  let* h := handle e in
  let* code := on_tee (fun _ => TEE_StartPersistentObjectEnumerator h storage_id) in
  pret (tee_check code).

(** The length of the identifier, the buffer and the information afterwards. *)
Definition get_next (e : ObjectEnumHandle) (object_id : bytes)
    : prog (oworld St) (Result Z * (bytes * ObjectInfo)) :=
  let* h := handle e in
  let* (a, i) := on_tee (fun _ => TEE_GetNextPersistentObject h object_id) in
  pret (match tee_check (oa_code a) with Ok _ => Ok (wrap_u 32 (oa_size a)) | Err e => Err e end,
        (oa_buf a, i)).

(** [impl Drop]. *)
Definition drop_enum (e : ObjectEnumHandle) : prog (oworld St) unit :=
  let* h := handle e in
  let* _ := on_tee (fun _ => TEE_FreePersistentObjectEnumerator h) in
  box_free (enum_raw e).

End Ops.
End Enumerator.
