(* ===== verification/TransientSpec.v ===== *)
(** * TransientSpec: attributes keep their contents, enumerators are freed *)

From S2P Require Import Prelude TeeDefines UteeError Memory EntryPoints Storage Crypto Transient.
Import TransientOps.

(** What a raw attribute stands for, read from the TA's memory. *)
Definition content_at (m : mem) (a : TEE_Attribute) : option attr_content :=
  if is_value (attributeID a) then Some (ByValue (attr_word0 a) (attr_word1 a))
  else ByRef <$> read_range m (attr_word0 a) (Z.to_nat (attr_word1 a)).

(** The attributes as the TEE stores them. *)
Fixpoint contents_at (m : mem) (attrs : list TEE_Attribute) : option (gmap Z attr_content) :=
  match attrs with
  | [] => Some ∅
  | a :: attrs' =>
      match content_at m a, contents_at m attrs' with
      | Some c, Some cs => Some (<[attributeID a := c]> cs)
      | _, _ => None
      end
  end.

(** ** Documented behaviour of the TEE's objects *)

Class TeeObjectsOk (St : Type) `{TeeObjects St} : Prop := {
  init_ref_ok id p n : is_value id = false -> TEE_InitRefAttribute id p n = Ret (mkAttribute id p n);
  init_value_ok id a b : is_value id = true -> TEE_InitValueAttribute id a b = Ret (mkAttribute id a b);
  alloc_transient_defined ty n s : TEE_AllocateTransientObject ty n s <> UB;
  alloc_transient_ok ty n s code h s' :
    TEE_AllocateTransientObject ty n s = Ret ((code, h), s') ->
    if code =? TEE_SUCCESS
    then h <> 0 /\ transients s !! h = None /\ extractable s' h = true /\
         transients s' = <[h := None]> (transients s)
    else transients s' = transients s;
  (** The TEE reads the attributes from the memory: a reference to memory that
      is not there faults.  A failure leaves the object as it was. *)
  populate_ok m h attrs s :
    transients s !! h = Some None ->
    match contents_at m attrs with
    | None => TEE_PopulateTransientObject m h attrs (wrap_u 32 (len attrs)) s = UB
    | Some cs =>
        TEE_PopulateTransientObject m h attrs (wrap_u 32 (len attrs)) s <> UB /\
        forall code s', TEE_PopulateTransientObject m h attrs (wrap_u 32 (len attrs)) s = Ret (code, s') ->
          if code =? TEE_SUCCESS
          then transients s' = <[h := Some cs]> (transients s) /\ extractable s' h = extractable s h
          else transients s' = transients s
    end;
  get_buffer_ok h id buf s cs l :
    transients s !! h = Some (Some cs) -> cs !! id = Some (ByRef l) ->
    is_value id = false -> is_public id = true \/ extractable s h = true ->
    exists a l', TEE_GetObjectBufferAttribute h id buf s = Ret (a, s) /\ same_attribute id l l' /\
      len (oa_buf a) = len buf /\ oa_size a = len l' /\
      if len l' <=? len buf
      then oa_code a = TEE_SUCCESS /\ take (length l') (oa_buf a) = l'
      else oa_code a = TEE_ERROR_SHORT_BUFFER;
  get_value_ok h id s cs a b :
    transients s !! h = Some (Some cs) -> cs !! id = Some (ByValue a b) ->
    is_value id = true -> is_public id = true \/ extractable s h = true ->
    TEE_GetObjectValueAttribute h id s = Ret ((TEE_SUCCESS, (a, b)), s);
  free_transient_ok h s :
    is_Some (transients s !! h) ->
    exists s', TEE_FreeObject h s = Ret (tt, s') /\ transients s' = delete h (transients s);
  alloc_enum_ok s code h s' :
    TEE_AllocatePersistentObjectEnumerator s = Ret ((code, h), s') ->
    if code =? TEE_SUCCESS
    then (h ∉ enumerators s) /\ enumerators s' = {[h]} ∪ enumerators s
    else enumerators s' = enumerators s;
  free_enum_ok h s :
    h ∈ enumerators s ->
    exists s', TEE_FreePersistentObjectEnumerator h s = Ret (tt, s') /\
      enumerators s' = enumerators s ∖ {[h]};
}.

(** ** What goes into an object comes out *)

(** An attribute as a TA gives it: bytes it keeps at an address, or words. *)
Inductive source : Type :=
| Ref (id : AttributeId) (p : Z) (l : bytes)
| Val (id : AttributeId) (a b : Z).

Definition source_id (x : source) : Z :=
  AttributeId.as_u32 (match x with Ref id _ _ => id | Val id _ _ => id end).

Definition source_content (x : source) : attr_content :=
  match x with Ref _ _ l => ByRef l | Val _ a b => ByValue a b end.

(** The kind of the identifier is that of the attribute, and the bytes are there. *)
Definition source_ok (m : mem) (x : source) : Prop :=
  match x with
  | Ref id p l => is_value (AttributeId.as_u32 id) = false /\
      range_mapped m p (len l) /\ holds_at m p l
  | Val id _ _ => is_value (AttributeId.as_u32 id) = true
  end.

Section Objects.
Context {St : Type} `{!TeeObjects St, !TeeObjectsOk St}.

Definition make (x : source) : outcome TEE_Attribute :=
  match x with
  | Ref id p l => Attribute.from_ref id p (len l)
  | Val id a b => Attribute.from_value id a b
  end.

Fixpoint make_all (xs : list source) : outcome (list TEE_Attribute) :=
  match xs with
  | [] => Ret []
  | x :: xs' => let! a := make x in let! l := make_all xs' in Ret (a :: l)
  end.

(** Allocate an object and fill it; on an error it is dropped. *)
Definition new_populated (ty : TransientObjectType) (max : Z) (xs : list source)
    : prog (oworld St) (Result TransientObject) :=
  let? o := allocate ty max in
  let* attrs := plift (make_all xs) in
  let* r := populate o attrs in
  match r with
  | Ok _ => pret (Ok o)
  | Err e => let* _ := drop_transient o in pret (Err e)
  end.

Definition raw_of (x : source) : TEE_Attribute :=
  match x with
  | Ref id p l => mkAttribute (AttributeId.as_u32 id) p (len l)
  | Val id a b => mkAttribute (AttributeId.as_u32 id) a b
  end.

Lemma make_all_spec m xs : Forall (source_ok m) xs -> make_all xs = Ret (map raw_of xs).
Proof.
  induction 1 as [|x xs Hx _ IH]; [done|]. cbn [make_all map]. rewrite IH.
  destruct x as [id p l|id a b]; cbn [make raw_of source_ok] in *.
  - unfold Attribute.from_ref. by rewrite init_ref_ok by apply Hx.
  - unfold Attribute.from_value. by rewrite init_value_ok by apply Hx.
Qed.

Lemma content_raw_of m x : source_ok m x -> content_at m (raw_of x) = Some (source_content x).
Proof.
  destruct x as [id p l|id a b]; cbn [source_ok raw_of source_content]; unfold content_at;
    cbn [attributeID attr_word0 attr_word1].
  - intros (-> & Hm & Hh). unfold len. rewrite Nat2Z.id.
    destruct (read_range_spec m (length l) p Hm) as (l' & -> & Hlen & Hh'). cbn. f_equal. f_equal.
    by apply (holds_at_inj m p).
  - by intros ->.
Qed.

Lemma contents_raw_of m xs :
  Forall (source_ok m) xs -> NoDup (map source_id xs) ->
  exists cs, contents_at m (map raw_of xs) = Some cs /\
    forall x, x ∈ xs -> cs !! source_id x = Some (source_content x).
Proof.
  induction 1 as [|x xs Hx _ IH]; intros Hnd; cbn [map contents_at].
  { exists ∅. split; [done|]. intros x Hx. by apply elem_of_nil in Hx. }
  cbn [map] in Hnd. apply list.NoDup_cons in Hnd as [Hnot Hnd].
  destruct (IH Hnd) as (cs & -> & Hcs). rewrite content_raw_of by done.
  assert (attributeID (raw_of x) = source_id x) as -> by (by destruct x).
  eexists. split; [reflexivity|]. intros y [->|Hy]%elem_of_cons.
  - apply lookup_insert_eq.
  - rewrite lookup_insert_ne; [by apply Hcs|]. intros Heq. apply Hnot. rewrite Heq.
    by apply list_elem_of_fmap_2.
Qed.

Definition readable (x : source) (o : TransientObject) (w : oworld St) : Prop :=
  match x with
  | Ref id _ l => forall buf, exists buf' l', same_attribute (AttributeId.as_u32 id) l l' /\
      ref_attribute o id buf w =
        Ret ((if len l' <=? len buf then Ok (len l') else bail ErrorKind.ShortBuffer, buf'), w) /\
      len buf' = len buf /\ (len l' <= len buf -> take (length l') buf' = l')
  | Val id a b => value_attribute o (AttributeId.as_u32 id) w = Ret (Ok (a, b), w)
  end.

Lemma on_tee_ret {A} (f : mem -> prog St A) (w : oworld St) a t :
  f (omem w) (otee w) = Ret (a, t) ->
  on_tee f w = Ret (a, mkOworld t (omem w) (enum_boxes w)).
Proof. unfold on_tee. by intros ->. Qed.

Lemma populated_readable x o (w : oworld St) m cs :
  transients (otee w) !! raw o = Some (Some cs) -> extractable (otee w) (raw o) = true ->
  source_ok m x -> cs !! source_id x = Some (source_content x) -> readable x o w.
Proof.
  intros Ho He Hx Hc. destruct w as [t mm bx]. cbn [otee] in *.
  destruct x as [id p l|id a b]; cbn [readable source_ok source_id source_content] in *.
  - intros buf. destruct (get_buffer_ok (raw o) (AttributeId.as_u32 id) buf t cs l Ho Hc)
      as (a & l' & E & Hsame & Hlen & Hsz & Hif); [apply Hx|by right|].
    unfold ref_attribute. erewrite pbind_Ret by (apply on_tee_ret; cbn; exact E).
    exists (oa_buf a), l'. split_and!; [done| |done|]; destruct (len l' <=? len buf) eqn:Hfit; reflect_bool.
    + destruct Hif as [-> _]. cbn. by rewrite Hsz.
    + by rewrite Hif.
    + intros _. apply Hif.
    + intros. lia.
  - unfold value_attribute. pose proof (get_value_ok _ _ _ _ _ _ Ho Hc Hx ltac:(by right)) as E.
    by erewrite pbind_Ret by (apply on_tee_ret; cbn; exact E).
Qed.

Lemma allocate_spec ty max (w : oworld St) :
  allocate ty max w <> UB /\
  forall r w', allocate ty max w = Ret (r, w') -> omem w' = omem w /\
    match r with
    | Ok o => transients (otee w) !! raw o = None /\ raw o <> 0 /\
        extractable (otee w') (raw o) = true /\
        transients (otee w') = <[raw o := None]> (transients (otee w))
    | Err _ => transients (otee w') = transients (otee w)
    end.
Proof.
  unfold allocate, on_tee, pbind.
  pose proof (alloc_transient_defined (TransientObjectType.as_u32 ty) (wrap_u 32 max) (otee w)).
  destruct (TEE_AllocateTransientObject _ _ _) as [[[code h] t]| |] eqn:E; [|done|done].
  apply alloc_transient_ok in E. unfold ptry, pbind, pret, tee_check, Handle.from_raw.
  destruct (code =? TEE_SUCCESS); [destruct E as (Hh & E); rewrite (proj2 (Z.eqb_neq h 0) Hh)|];
    (split; [done|]); intros r w' [= <- <-]; cbn; naive_solver.
Qed.

Lemma populate_spec o attrs (w : oworld St) cs :
  transients (otee w) !! raw o = Some None -> contents_at (omem w) attrs = Some cs ->
  populate o attrs w <> UB /\
  forall r w', populate o attrs w = Ret (r, w') -> omem w' = omem w /\
    match r with
    | Ok _ => transients (otee w') = <[raw o := Some cs]> (transients (otee w)) /\
        extractable (otee w') (raw o) = extractable (otee w) (raw o)
    | Err _ => transients (otee w') = transients (otee w)
    end.
Proof.
  intros Ho Hcs. pose proof (populate_ok (omem w) (raw o) attrs (otee w) Ho) as Hp.
  rewrite Hcs in Hp. destruct Hp as [Hub Hp]. unfold populate, on_tee, pbind.
  destruct (TEE_PopulateTransientObject _ _ _ _ _) as [[code t]| |] eqn:E; [|done|done].
  specialize (Hp _ _ eq_refl). split; [done|]. unfold pret, tee_check.
  destruct (code =? TEE_SUCCESS); by intros r w' [= <- <-].
Qed.

Lemma drop_transient_spec o (w : oworld St) :
  is_Some (transients (otee w) !! raw o) -> raw o <> 0 ->
  exists w', drop_transient o w = Ret (tt, w') /\
    transients (otee w') = delete (raw o) (transients (otee w)).
Proof.
  intros Ho Hn. destruct (free_transient_ok _ _ Ho) as (t & E & Ht).
  unfold drop_transient, is_null_object, Handle.is_null. fold (raw o).
  rewrite (proj2 (Z.eqb_neq _ _) Hn). cbn [negb]. erewrite on_tee_ret by exact E. by eexists.
Qed.

(** C34: attributes round-trip through a transient object: when allocating and
    populating an object with attributes of distinct identifiers succeeds, every
    reference attribute reads back byte for byte into any buffer that is large
    enough, with its length, and [ShortBuffer] otherwise, except that a big number
    (of RSA, DSA, DH or ECC) reads back as the same number, in no more bytes: the TEE
    may drop zeros in front; and every value attribute gives its two words; when it fails the TEE is left with the
    objects it had.  Nothing is undefined behaviour (the TEE may panic the TA). *)
Theorem attributes_round_trip ty max xs (w : oworld St) :
  Forall (source_ok (omem w)) xs -> NoDup (map source_id xs) ->
  new_populated ty max xs w <> UB /\
  forall r w', new_populated ty max xs w = Ret (r, w') ->
    match r with
    | Ok o => transients (otee w) !! raw o = None /\ forall x, x ∈ xs -> readable x o w'
    | Err _ => transients (otee w') = transients (otee w)
    end.
Proof.
  intros Hok Hnd. destruct (allocate_spec ty max w) as [Hub Hal].
  destruct (contents_raw_of (omem w) xs Hok Hnd) as (cs & Hcs & Hin).
  unfold new_populated. destruct (allocate ty max w) as [[[o|e] w1]| |] eqn:Ea;
    [| |unfold ptry, pbind; by rewrite Ea|done];
    destruct (Hal _ _ eq_refl) as [Hm1 H1].
  2: { rewrite (ptry_Err _ _ _ _ _ Ea). split; [done|]. by intros r w' [= <- <-]. }
  destruct H1 as (Hnew & Hn & Hex & H1). rewrite (ptry_Ok _ _ _ _ _ Ea). rewrite (make_all_spec _ _ Hok).
  assert (transients (otee w1) !! raw o = Some None) as Ho by (rewrite H1; apply lookup_insert_eq).
  rewrite <- Hm1 in Hcs. destruct (populate_spec o (map raw_of xs) w1 cs Ho Hcs) as [Hub2 Hpo].
  unfold plift, pbind. cbn [outcome_bind].
  destruct (populate o (map raw_of xs) w1) as [[[u|e] w2]| |] eqn:Ep; [| |done|done];
    destruct (Hpo _ _ eq_refl) as [Hm2 H2].
  - split; [done|]. intros r w' [= <- <-]. split; [done|]. intros x Hx.
    apply (populated_readable x o w2 (omem w) cs).
    + rewrite (proj1 H2). apply lookup_insert_eq.
    + rewrite (proj2 H2). exact Hex.
    + by eapply (proj1 (List.Forall_forall _ _) Hok), list_elem_of_In.
    + by apply Hin.
  - destruct (drop_transient_spec o w2) as (w3 & E3 & H3); [rewrite H2; eauto|done|].
    rewrite E3. split; [done|]. intros r w' [= <- <-]. rewrite H3, H2, H1.
    by apply delete_insert_id.
Qed.

(** An attribute made from a buffer can be used after the buffer is gone:
    [Attribute] does not keep the borrow, so safe code can free the buffer first,
    and populating an object then makes the TEE read memory that is not there,
    which is undefined behaviour. *)
Lemma attribute_outlives_buffer id p (l : bytes) o (w : oworld St) :
  is_value (AttributeId.as_u32 id) = false -> l <> [] ->
  transients (otee w) !! raw o = Some None ->
  outcome_bind (Attribute.from_ref id p (len l)) (fun a =>
    pbind (free_buffer p (len l)) (fun _ => populate o [a]) w) = UB.
Proof.
  intros Hid Hl Ho. unfold Attribute.from_ref. rewrite init_ref_ok by done. cbn [outcome_bind].
  unfold free_buffer, pmod, populate, on_tee, pbind. cbn [omem otee].
  match goal with |- context [TEE_PopulateTransientObject ?m ?h ?attrs] =>
    pose proof (populate_ok m h attrs (otee w) Ho) as Hp; set (m' := m) in * end.
  cbn [contents_at] in Hp. unfold content_at in Hp. cbn [attributeID attr_word0 attr_word1] in Hp.
  rewrite Hid in Hp. assert (read_range m' p (Z.to_nat (len l)) = None) as Hnone.
  { destruct l as [|b l]; [done|]. unfold len. rewrite Nat2Z.id. cbn [length read_range].
    assert (m' !! p = None) as ->; [|done]. apply map_lookup_filter_None. right.
    intros x _ Hx. apply Hx. rewrite len_cons. pose proof (len_nonneg l). lia. }
  rewrite Hnone in Hp. cbn in Hp. by rewrite Hp.
Qed.

End Objects.

(** ** Enumerators are freed with their boxes, on failure too *)

Section Enumerators.
Context `{!Target, !Allocator, !AllocatorOk} {St : Type} `{!TeeObjects St, !TeeObjectsOk St}.

Lemma enum_allocate_spec (w : oworld St) r w' :
  Enumerator.allocate w = Ret (r, w') ->
  match r with
  | Ok e => enum_boxes w !! enum_raw e = None /\ exists h, (h ∉ enumerators (otee w)) /\
      enumerators (otee w') = {[h]} ∪ enumerators (otee w) /\
      enum_boxes w' = <[enum_raw e := h]> (enum_boxes w)
  | Err _ => enum_boxes w' = enum_boxes w /\ enumerators (otee w') = enumerators (otee w)
  end.
Proof.
  unfold Enumerator.allocate, Enumerator.box_new, Enumerator.box_free, on_tee, pmod, pbind.
  cbn [otee omem enum_boxes]. set (p := alloc_addr (dom (enum_boxes w))).
  assert (enum_boxes w !! p = None) as Hp by (apply not_elem_of_dom, alloc_fresh). clearbody p.
  destruct (TEE_AllocatePersistentObjectEnumerator (otee w)) as [[[code h] t]| |] eqn:E; [|done|done].
  apply alloc_enum_ok in E. cbn [otee omem enum_boxes]. rewrite insert_insert_eq.
  destruct (code =? TEE_SUCCESS).
  - destruct E as [Hh E]. intros [= <- <-]. split; [done|]. by exists h.
  - cbn [enum_boxes]. rewrite lookup_insert_eq. intros [= <- <-]. cbn [enum_boxes otee].
    split; [by apply delete_insert_id|done].
Qed.

Lemma enum_drop_spec e h (w : oworld St) :
  enum_boxes w !! enum_raw e = Some h -> h ∈ enumerators (otee w) ->
  exists w', Enumerator.drop_enum e w = Ret (tt, w') /\
    enum_boxes w' = delete (enum_raw e) (enum_boxes w) /\
    enumerators (otee w') = enumerators (otee w) ∖ {[h]}.
Proof.
  intros Hb Hh. destruct (free_enum_ok h (otee w) Hh) as (t & E & Ht).
  unfold Enumerator.drop_enum, Enumerator.handle, Enumerator.box_free, on_tee, pbind.
  rewrite Hb, E. cbn [enum_boxes otee omem]. rewrite Hb. by eexists.
Qed.

End Enumerators.

(** ** A TEE for the properties: objects in a map, nothing refused *)

Module RamObjects.

Record ram : Type := mkRam {
  r_objects : gmap Z (option (gmap Z attr_content)); r_enums : gset Z
}.

(** A handle that is not in use and not null. *)
Definition next (d : gset Z) : Z := fresh ({[0]} ∪ d).

Lemma next_fresh d : next d <> 0 /\ next d ∉ d.
Proof. pose proof (is_fresh ({[0]} ∪ d)) as Hf. unfold next. set_solver. Qed.

Definition attribute_of (s : ram) (h id : Z) : option attr_content :=
  match r_objects s !! h with Some (Some cs) => cs !! id | _ => None end.

(** Zeros in front. *)
Fixpoint strip (l : bytes) : bytes :=
  match l with
  | x :: l' => if x =? 0 then strip l' else l
  | [] => []
  end.

Lemma strip_number l : be_combine (strip l) = be_combine l /\ len (strip l) <= len l.
Proof.
  induction l as [|x l [IH1 IH2]]; [done|]. cbn [strip]. case_if; [|done]. reflect_bool. subst x.
  rewrite len_cons. split; [|lia]. rewrite IH1. clear. induction l as [|y l IH] using rev_ind; [done|].
  rewrite app_comm_cons, !be_combine_snoc. lia.
Qed.

#[local] Instance ram_objects : TeeObjects ram := {|
  TEE_AllocateTransientObject _ _ s :=
    let h := next (dom (r_objects s)) in
    Ret ((TEE_SUCCESS, h), mkRam (<[h := None]> (r_objects s)) (r_enums s));
  TEE_ResetTransientObject h s := Ret (tt, mkRam (<[h := None]> (r_objects s)) (r_enums s));
  TEE_PopulateTransientObject m h attrs n s :=
    match contents_at m attrs with
    | Some cs => Ret (TEE_SUCCESS, mkRam (<[h := Some cs]> (r_objects s)) (r_enums s))
    | None => UB
    end;
  TEE_CopyObjectAttributes1 h h' s := Ret (TEE_SUCCESS, s);
  TEE_GenerateKey m h n attrs k s := Ret (TEE_SUCCESS, s);
  TEE_FreeObject h s := Ret (tt, mkRam (delete h (r_objects s)) (r_enums s));
  TEE_InitRefAttribute id p n := if is_value id then Panic else Ret (mkAttribute id p n);
  TEE_InitValueAttribute id a b := if is_value id then Ret (mkAttribute id a b) else Panic;
  TEE_GetObjectBufferAttribute h id buf s :=
    match attribute_of s h id with
    | Some (ByRef l) =>
        let l := if is_bignum id then strip l else l in
        Ret (if len l <=? len buf then mkOut TEE_SUCCESS (len l) (splice buf 0 l)
             else mkOut TEE_ERROR_SHORT_BUFFER (len l) buf, s)
    | _ => Panic
    end;
  TEE_GetObjectValueAttribute h id s :=
    match attribute_of s h id with
    | Some (ByValue a b) => Ret ((TEE_SUCCESS, (a, b)), s)
    | _ => Panic
    end;
  TEE_AllocatePersistentObjectEnumerator s :=
    let h := next (r_enums s) in
    Ret ((TEE_SUCCESS, h), mkRam (r_objects s) ({[h]} ∪ r_enums s));
  TEE_FreePersistentObjectEnumerator h s := Ret (tt, mkRam (r_objects s) (r_enums s ∖ {[h]}));
  TEE_ResetPersistentObjectEnumerator h s := Ret (tt, s);
  TEE_StartPersistentObjectEnumerator h i s := Ret (TEE_SUCCESS, s);
  TEE_GetNextPersistentObject h buf s :=
    Ret ((mkOut TEE_ERROR_ITEM_NOT_FOUND 0 buf, mkObjectInfo 0 0 0 0 0 0 0), s);
  transients := r_objects;
  extractable _ _ := true;
  enumerators := r_enums;
|}.

#[local] Instance ram_objects_ok : TeeObjectsOk ram.
Proof.
  split; cbn.
  - by intros id p n ->.
  - by intros id a b ->.
  - done.
  - intros ty n s code h s' [= <- <- <-]. destruct (next_fresh (dom (r_objects s))) as [H0 Hn].
    cbn. split_and!; [done|by apply not_elem_of_dom|done..].
  - intros m h attrs s Hh. destruct (contents_at m attrs); [|done]. split; [done|].
    by intros code s' [= <- <-].
  - intros h id buf s cs l Hh Hc _ _. unfold attribute_of. rewrite Hh, Hc. eexists.
    exists (if is_bignum id then strip l else l). split; [reflexivity|].
    split; [unfold same_attribute; destruct (is_bignum id); [apply strip_number|done]|].
    set (l' := if is_bignum id then strip l else l). pose proof (len_nonneg l'). case_if; cbn; [|done].
    split_and!; [apply len_splice; lia|done|done|]. apply (splice_mid buf 0 l'); lia.
  - intros h id s cs a b Hh Hc _ _. unfold attribute_of. by rewrite Hh, Hc.
  - intros h s _. by eexists.
  - intros s code h s' [= <- <- <-]. split; [apply next_fresh|done].
  - intros h s _. by eexists.
Qed.

(** A password, a salt and an iteration count. *)
Definition password : list source :=
  [Ref AttributeId.Pbkdf2Password 0x1000 [1; 2; 3]; Ref AttributeId.Pbkdf2Salt 0x1001 [2; 3];
   Val AttributeId.Pbkdf2IterationCount 1000 0].

Definition ta : oworld ram := mkOworld (mkRam ∅ ∅) (buffer_at 0x1000 [1; 2; 3]) ∅.

Lemma holds_here (p : Z) l :
  read_range (omem ta) p (length l) = Some l -> range_mapped (omem ta) p (len l) ->
  holds_at (omem ta) p l.
Proof.
  intros E Hm. destruct (read_range_spec (omem ta) (length l) p Hm) as (l' & E' & _ & Hh).
  rewrite E in E'. by injection E' as ->.
Qed.

Lemma mapped_salt : range_mapped (omem ta) 0x1001 2.
Proof. apply (range_mapped_sub _ 0x1000 3); [exact (buffer_at_mapped 0x1000 [1; 2; 3])|lia|lia]. Qed.

Lemma attributes_round_trip_witness :
  exists o w, new_populated TransientObjectType.Pbkdf2Password 256 password ta = Ret (Ok o, w) /\
    value_attribute o 0xF00003C2 w = Ret (Ok (1000, 0), w) /\
    exists l, ref_attribute o AttributeId.Pbkdf2Password [0; 0; 0; 0] w = Ret ((Ok 3, l), w) /\
      take 3 l = [1; 2; 3].
Proof.
  destruct (attributes_round_trip TransientObjectType.Pbkdf2Password 256 password ta) as [_ Hr].
  - repeat constructor; try done; [exact (buffer_at_mapped 0x1000 [1; 2; 3])| |exact mapped_salt|].
    + apply holds_here; [done|exact (buffer_at_mapped 0x1000 [1; 2; 3])].
    + apply holds_here; [done|exact mapped_salt].
  - by vm_compute; repeat constructor; set_solver.
  - destruct (new_populated TransientObjectType.Pbkdf2Password 256 password ta)
      as [[[o|e] w]| |] eqn:E; [|by vm_compute in E..].
    destruct (Hr _ _ eq_refl) as [_ Hread]. exists o, w. split; [done|].
    split; [by apply (Hread (Val AttributeId.Pbkdf2IterationCount 1000 0)); set_solver|].
    destruct (Hread (Ref AttributeId.Pbkdf2Password 0x1000 [1; 2; 3]) ltac:(set_solver) [0; 0; 0; 0])
      as (l & l' & Hsame & El & _ & Ht).
    assert (l' = [1; 2; 3]) as -> by exact Hsame. exists l. split; [exact El|]. by apply Ht.
Defined.

Lemma attribute_outlives_buffer_witness :
  outcome_bind (Attribute.from_ref (St := ram) AttributeId.SecretValue 0x1000 3) (fun a =>
    pbind (free_buffer 0x1000 3) (fun _ => populate (mkTransient (mkObjectHandle 5)) [a])
      (mkOworld (mkRam {[5 := None]} ∅) (buffer_at 0x1000 [1; 2; 3]) ∅)) = UB.
Proof.
  by apply (attribute_outlives_buffer AttributeId.SecretValue 0x1000 [1; 2; 3]).
Defined.

End RamObjects.
