(* ===== verification/TeeIds.v ===== *)
(** * TeeIds: the identifiers of algorithms, objects and attributes

    Translated from [crates/optee-utee-sys/src/tee_api_defines.rs], and compared with
    the enumerations of [optee-utee/src/crypto_op.rs] and [object/]. *)

From S2P Require Import Prelude TeeDefines Crypto Transient.

(** ** Operation classes and states *)

Definition TEE_OPERATION_CIPHER : Z := 1.
Definition TEE_OPERATION_MAC : Z := 3.
Definition TEE_OPERATION_AE : Z := 4.
Definition TEE_OPERATION_DIGEST : Z := 5.
Definition TEE_OPERATION_ASYMMETRIC_CIPHER : Z := 6.
Definition TEE_OPERATION_ASYMMETRIC_SIGNATURE : Z := 7.
Definition TEE_OPERATION_KEY_DERIVATION : Z := 8.
Definition TEE_OPERATION_STATE_INITIAL : Z := 0x00000000.
Definition TEE_OPERATION_STATE_ACTIVE : Z := 0x00000001.
Definition TEE_OPERATION_STATE_EXTRACTING : Z := 0x00000002.

(** ** Algorithms *)

Definition TEE_ALG_AES_ECB_NOPAD : Z := 0x10000010.
Definition TEE_ALG_AES_CBC_NOPAD : Z := 0x10000110.
Definition TEE_ALG_AES_CTR : Z := 0x10000210.
Definition TEE_ALG_AES_CTS : Z := 0x10000310.
Definition TEE_ALG_AES_XTS : Z := 0x10000410.
Definition TEE_ALG_AES_CBC_MAC_NOPAD : Z := 0x30000110.
Definition TEE_ALG_AES_CBC_MAC_PKCS5 : Z := 0x30000510.
Definition TEE_ALG_AES_CMAC : Z := 0x30000610.
Definition TEE_ALG_AES_CCM : Z := 0x40000710.
Definition TEE_ALG_AES_GCM : Z := 0x40000810.
Definition TEE_ALG_DES_ECB_NOPAD : Z := 0x10000011.
Definition TEE_ALG_DES_CBC_NOPAD : Z := 0x10000111.
Definition TEE_ALG_DES_CBC_MAC_NOPAD : Z := 0x30000111.
Definition TEE_ALG_DES_CBC_MAC_PKCS5 : Z := 0x30000511.
Definition TEE_ALG_DES3_ECB_NOPAD : Z := 0x10000013.
Definition TEE_ALG_DES3_CBC_NOPAD : Z := 0x10000113.
Definition TEE_ALG_DES3_CBC_MAC_NOPAD : Z := 0x30000113.
Definition TEE_ALG_DES3_CBC_MAC_PKCS5 : Z := 0x30000513.
Definition TEE_ALG_SM4_ECB_NOPAD : Z := 0x10000014.
Definition TEE_ALG_SM4_CBC_NOPAD : Z := 0x10000114.
Definition TEE_ALG_SM4_CTR : Z := 0x10000214.
Definition TEE_ALG_RSASSA_PKCS1_V1_5_MD5 : Z := 0x70001830.
Definition TEE_ALG_RSASSA_PKCS1_V1_5_SHA1 : Z := 0x70002830.
Definition TEE_ALG_RSASSA_PKCS1_V1_5_SHA224 : Z := 0x70003830.
Definition TEE_ALG_RSASSA_PKCS1_V1_5_SHA256 : Z := 0x70004830.
Definition TEE_ALG_RSASSA_PKCS1_V1_5_SHA384 : Z := 0x70005830.
Definition TEE_ALG_RSASSA_PKCS1_V1_5_SHA512 : Z := 0x70006830.
Definition TEE_ALG_RSASSA_PKCS1_V1_5_MD5SHA1 : Z := 0x7000F830.
Definition TEE_ALG_RSASSA_PKCS1_PSS_MGF1_SHA1 : Z := 0x70212930.
Definition TEE_ALG_RSASSA_PKCS1_PSS_MGF1_SHA224 : Z := 0x70313930.
Definition TEE_ALG_RSASSA_PKCS1_PSS_MGF1_SHA256 : Z := 0x70414930.
Definition TEE_ALG_RSASSA_PKCS1_PSS_MGF1_SHA384 : Z := 0x70515930.
Definition TEE_ALG_RSASSA_PKCS1_PSS_MGF1_SHA512 : Z := 0x70616930.
Definition TEE_ALG_RSAES_PKCS1_V1_5 : Z := 0x60000130.
Definition TEE_ALG_RSAES_PKCS1_OAEP_MGF1_SHA1 : Z := 0x60210230.
Definition TEE_ALG_RSAES_PKCS1_OAEP_MGF1_SHA224 : Z := 0x60310230.
Definition TEE_ALG_RSAES_PKCS1_OAEP_MGF1_SHA256 : Z := 0x60410230.
Definition TEE_ALG_RSAES_PKCS1_OAEP_MGF1_SHA384 : Z := 0x60510230.
Definition TEE_ALG_RSAES_PKCS1_OAEP_MGF1_SHA512 : Z := 0x60610230.
Definition TEE_ALG_RSA_NOPAD : Z := 0x60000030.
Definition TEE_ALG_DSA_SHA1 : Z := 0x70002131.
Definition TEE_ALG_DSA_SHA224 : Z := 0x70003131.
Definition TEE_ALG_DSA_SHA256 : Z := 0x70004131.
Definition TEE_ALG_SM2_DSA_SM3 : Z := 0x70006045.
Definition TEE_ALG_DH_DERIVE_SHARED_SECRET : Z := 0x80000032.
Definition TEE_ALG_PBKDF2_HMAC_SHA1_DERIVE_KEY : Z := 0x800020C2.
Definition TEE_ALG_PBKDF2_HMAC_SHA224_DERIVE_KEY : Z := 0x800030C2.
Definition TEE_ALG_PBKDF2_HMAC_SHA256_DERIVE_KEY : Z := 0x800040C2.
Definition TEE_ALG_PBKDF2_HMAC_SHA384_DERIVE_KEY : Z := 0x800050C2.
Definition TEE_ALG_PBKDF2_HMAC_SHA512_DERIVE_KEY : Z := 0x800060C2.
Definition TEE_ALG_PBKDF2_HMAC_SM3_DERIVE_KEY : Z := 0x800070C2.
Definition TEE_ALG_SM2_KEP : Z := 0x60000045.
Definition TEE_ALG_MD5 : Z := 0x50000001.
Definition TEE_ALG_SHA1 : Z := 0x50000002.
Definition TEE_ALG_SHA224 : Z := 0x50000003.
Definition TEE_ALG_SHA256 : Z := 0x50000004.
Definition TEE_ALG_SHA384 : Z := 0x50000005.
Definition TEE_ALG_SHA512 : Z := 0x50000006.
Definition TEE_ALG_MD5SHA1 : Z := 0x5000000F.
Definition TEE_ALG_HMAC_MD5 : Z := 0x30000001.
Definition TEE_ALG_HMAC_SHA1 : Z := 0x30000002.
Definition TEE_ALG_HMAC_SHA224 : Z := 0x30000003.
Definition TEE_ALG_HMAC_SHA256 : Z := 0x30000004.
Definition TEE_ALG_HMAC_SHA384 : Z := 0x30000005.
Definition TEE_ALG_HMAC_SHA512 : Z := 0x30000006.
Definition TEE_ALG_HMAC_SM3 : Z := 0x30000007.
Definition TEE_ALG_ECDSA_P192 : Z := 0x70001041.
Definition TEE_ALG_ECDSA_P224 : Z := 0x70002041.
Definition TEE_ALG_ECDSA_P256 : Z := 0x70003041.
Definition TEE_ALG_ECDSA_P384 : Z := 0x70004041.
Definition TEE_ALG_ECDSA_P521 : Z := 0x70005041.
Definition TEE_ALG_ECDH_P192 : Z := 0x80001042.
Definition TEE_ALG_ECDH_P224 : Z := 0x80002042.
Definition TEE_ALG_ECDH_P256 : Z := 0x80003042.
Definition TEE_ALG_ECDH_P384 : Z := 0x80004042.
Definition TEE_ALG_ECDH_P521 : Z := 0x80005042.
Definition TEE_ALG_SM2_PKE : Z := 0x80000045.
Definition TEE_ALG_SM3 : Z := 0x50000007.
Definition TEE_ALG_ILLEGAL_VALUE : Z := 0xEFFFFFFF.

(** ** Object types *)

Definition TEE_TYPE_AES : Z := 0xA0000010.
Definition TEE_TYPE_DES : Z := 0xA0000011.
Definition TEE_TYPE_DES3 : Z := 0xA0000013.
Definition TEE_TYPE_SM4 : Z := 0xA0000014.
Definition TEE_TYPE_HMAC_MD5 : Z := 0xA0000001.
Definition TEE_TYPE_HMAC_SHA1 : Z := 0xA0000002.
Definition TEE_TYPE_HMAC_SHA224 : Z := 0xA0000003.
Definition TEE_TYPE_HMAC_SHA256 : Z := 0xA0000004.
Definition TEE_TYPE_HMAC_SHA384 : Z := 0xA0000005.
Definition TEE_TYPE_HMAC_SHA512 : Z := 0xA0000006.
Definition TEE_TYPE_HMAC_SM3 : Z := 0xA0000007.
Definition TEE_TYPE_RSA_PUBLIC_KEY : Z := 0xA0000030.
Definition TEE_TYPE_RSA_KEYPAIR : Z := 0xA1000030.
Definition TEE_TYPE_DSA_PUBLIC_KEY : Z := 0xA0000031.
Definition TEE_TYPE_DSA_KEYPAIR : Z := 0xA1000031.
Definition TEE_TYPE_DH_KEYPAIR : Z := 0xA1000032.
Definition TEE_TYPE_ECDSA_PUBLIC_KEY : Z := 0xA0000041.
Definition TEE_TYPE_ECDSA_KEYPAIR : Z := 0xA1000041.
Definition TEE_TYPE_ECDH_PUBLIC_KEY : Z := 0xA0000042.
Definition TEE_TYPE_ECDH_KEYPAIR : Z := 0xA1000042.
Definition TEE_TYPE_SM2_DSA_PUBLIC_KEY : Z := 0xA0000045.
Definition TEE_TYPE_SM2_DSA_KEYPAIR : Z := 0xA1000045.
Definition TEE_TYPE_SM2_KEP_PUBLIC_KEY : Z := 0xA0000046.
Definition TEE_TYPE_SM2_KEP_KEYPAIR : Z := 0xA1000046.
Definition TEE_TYPE_SM2_PKE_PUBLIC_KEY : Z := 0xA0000047.
Definition TEE_TYPE_SM2_PKE_KEYPAIR : Z := 0xA1000047.
Definition TEE_TYPE_GENERIC_SECRET : Z := 0xA0000000.
Definition TEE_TYPE_CORRUPTED_OBJECT : Z := 0xA00000BE.
Definition TEE_TYPE_DATA : Z := 0xA00000BF.
Definition TEE_TYPE_PBKDF2_PASSWORD : Z := 0xA10000C2.

(** ** Attributes *)

Definition TEE_ATTR_SECRET_VALUE : Z := 0xC0000000.
Definition TEE_ATTR_RSA_MODULUS : Z := 0xD0000130.
Definition TEE_ATTR_RSA_PUBLIC_EXPONENT : Z := 0xD0000230.
Definition TEE_ATTR_RSA_PRIVATE_EXPONENT : Z := 0xC0000330.
Definition TEE_ATTR_RSA_PRIME1 : Z := 0xC0000430.
Definition TEE_ATTR_RSA_PRIME2 : Z := 0xC0000530.
Definition TEE_ATTR_RSA_EXPONENT1 : Z := 0xC0000630.
Definition TEE_ATTR_RSA_EXPONENT2 : Z := 0xC0000730.
Definition TEE_ATTR_RSA_COEFFICIENT : Z := 0xC0000830.
Definition TEE_ATTR_DSA_PRIME : Z := 0xD0001031.
Definition TEE_ATTR_DSA_SUBPRIME : Z := 0xD0001131.
Definition TEE_ATTR_DSA_BASE : Z := 0xD0001231.
Definition TEE_ATTR_DSA_PUBLIC_VALUE : Z := 0xD0000131.
Definition TEE_ATTR_DSA_PRIVATE_VALUE : Z := 0xC0000231.
Definition TEE_ATTR_DH_PRIME : Z := 0xD0001032.
Definition TEE_ATTR_DH_SUBPRIME : Z := 0xD0001132.
Definition TEE_ATTR_DH_BASE : Z := 0xD0001232.
Definition TEE_ATTR_DH_X_BITS : Z := 0xF0001332.
Definition TEE_ATTR_DH_PUBLIC_VALUE : Z := 0xD0000132.
Definition TEE_ATTR_DH_PRIVATE_VALUE : Z := 0xC0000232.
Definition TEE_ATTR_RSA_OAEP_LABEL : Z := 0xD0000930.
Definition TEE_ATTR_RSA_PSS_SALT_LENGTH : Z := 0xF0000A30.
Definition TEE_ATTR_ECC_PUBLIC_VALUE_X : Z := 0xD0000141.
Definition TEE_ATTR_ECC_PUBLIC_VALUE_Y : Z := 0xD0000241.
Definition TEE_ATTR_ECC_PRIVATE_VALUE : Z := 0xC0000341.
Definition TEE_ATTR_ECC_CURVE : Z := 0xF0000441.
Definition TEE_ATTR_SM2_ID_INITIATOR : Z := 0xD0000446.
Definition TEE_ATTR_SM2_ID_RESPONDER : Z := 0xD0000546.
Definition TEE_ATTR_SM2_KEP_USER : Z := 0xF0000646.
Definition TEE_ATTR_SM2_KEP_CONFIRMATION_IN : Z := 0xD0000746.
Definition TEE_ATTR_SM2_KEP_CONFIRMATION_OUT : Z := 0xD0000846.
Definition TEE_ATTR_ECC_EPHEMERAL_PUBLIC_VALUE_X : Z := 0xD0000946.
Definition TEE_ATTR_ECC_EPHEMERAL_PUBLIC_VALUE_Y : Z := 0xD0000A46.
Definition TEE_ATTR_PBKDF2_PASSWORD : Z := 0xC00001C2.
Definition TEE_ATTR_PBKDF2_SALT : Z := 0xD00002C2.
Definition TEE_ATTR_PBKDF2_ITERATION_COUNT : Z := 0xF00003C2.
Definition TEE_ATTR_PBKDF2_DKM_LENGTH : Z := 0xF00004C2.
Definition TEE_ATTR_FLAG_PUBLIC : Z := Z.shiftl 1 28.
Definition TEE_ATTR_FLAG_VALUE : Z := Z.shiftl 1 29.
Definition TEE_ATTR_BIT_PROTECTED : Z := Z.shiftl 1 28.
Definition TEE_ATTR_BIT_VALUE : Z := Z.shiftl 1 29.

(** ** Elliptic curves *)

Definition TEE_CRYPTO_ELEMENT_NONE : Z := 0x00000000.
Definition TEE_ECC_CURVE_NIST_P192 : Z := 0x00000001.
Definition TEE_ECC_CURVE_NIST_P224 : Z := 0x00000002.
Definition TEE_ECC_CURVE_NIST_P256 : Z := 0x00000003.
Definition TEE_ECC_CURVE_NIST_P384 : Z := 0x00000004.
Definition TEE_ECC_CURVE_NIST_P521 : Z := 0x00000005.
Definition TEE_ECC_CURVE_SM2 : Z := 0x00000300.

(** ** The crate's identifiers and the raw ones of the same name *)

Definition algorithms : list (AlgorithmId * Z) :=
  [(AlgorithmId.AesEcbNopad, TEE_ALG_AES_ECB_NOPAD);
   (AlgorithmId.AesCbcNopad, TEE_ALG_AES_CBC_NOPAD);
   (AlgorithmId.AesCtr, TEE_ALG_AES_CTR);
   (AlgorithmId.AesCts, TEE_ALG_AES_CTS);
   (AlgorithmId.AesXts, TEE_ALG_AES_XTS);
   (AlgorithmId.AesCbcMacNopad, TEE_ALG_AES_CBC_MAC_NOPAD);
   (AlgorithmId.AesCbcMacPkcs5, TEE_ALG_AES_CBC_MAC_PKCS5);
   (AlgorithmId.AesCmac, TEE_ALG_AES_CMAC);
   (AlgorithmId.AesCcm, TEE_ALG_AES_CCM);
   (AlgorithmId.AesGcm, TEE_ALG_AES_GCM);
   (AlgorithmId.DesEcbNopad, TEE_ALG_DES_ECB_NOPAD);
   (AlgorithmId.DesCbcNopad, TEE_ALG_DES_CBC_NOPAD);
   (AlgorithmId.DesCbcMacNopad, TEE_ALG_DES_CBC_MAC_NOPAD);
   (AlgorithmId.DesCbcMacPkcs5, TEE_ALG_DES_CBC_MAC_PKCS5);
   (AlgorithmId.Des3EcbNopad, TEE_ALG_DES3_ECB_NOPAD);
   (AlgorithmId.Des3CbcNopad, TEE_ALG_DES3_CBC_NOPAD);
   (AlgorithmId.Des3CbcMacNopad, TEE_ALG_DES3_CBC_MAC_NOPAD);
   (AlgorithmId.Des3CbcMacPkcs5, TEE_ALG_DES3_CBC_MAC_PKCS5);
   (AlgorithmId.RsassaPkcs1V15MD5, TEE_ALG_RSASSA_PKCS1_V1_5_MD5);
   (AlgorithmId.RsassaPkcs1V15Sha1, TEE_ALG_RSASSA_PKCS1_V1_5_SHA1);
   (AlgorithmId.RsassaPkcs1V15Sha224, TEE_ALG_RSASSA_PKCS1_V1_5_SHA224);
   (AlgorithmId.RsassaPkcs1V15Sha256, TEE_ALG_RSASSA_PKCS1_V1_5_SHA256);
   (AlgorithmId.RsassaPkcs1V15Sha384, TEE_ALG_RSASSA_PKCS1_V1_5_SHA384);
   (AlgorithmId.RsassaPkcs1V15Sha512, TEE_ALG_RSASSA_PKCS1_V1_5_SHA512);
   (AlgorithmId.RsassaPkcs1V15MD5Sha1, TEE_ALG_RSASSA_PKCS1_V1_5_MD5SHA1);
   (AlgorithmId.RsassaPkcs1PssMgf1Sha1, TEE_ALG_RSASSA_PKCS1_PSS_MGF1_SHA1);
   (AlgorithmId.RsassaPkcs1PssMgf1Sha224, TEE_ALG_RSASSA_PKCS1_PSS_MGF1_SHA224);
   (AlgorithmId.RsassaPkcs1PssMgf1Sha256, TEE_ALG_RSASSA_PKCS1_PSS_MGF1_SHA256);
   (AlgorithmId.RsassaPkcs1PssMgf1Sha384, TEE_ALG_RSASSA_PKCS1_PSS_MGF1_SHA384);
   (AlgorithmId.RsassaPkcs1PssMgf1Sha512, TEE_ALG_RSASSA_PKCS1_PSS_MGF1_SHA512);
   (AlgorithmId.RsaesPkcs1V15, TEE_ALG_RSAES_PKCS1_V1_5);
   (AlgorithmId.RsaesPkcs1OAepMgf1Sha1, TEE_ALG_RSAES_PKCS1_OAEP_MGF1_SHA1);
   (AlgorithmId.RsaesPkcs1OAepMgf1Sha224, TEE_ALG_RSAES_PKCS1_OAEP_MGF1_SHA224);
   (AlgorithmId.RsaesPkcs1OAepMgf1Sha256, TEE_ALG_RSAES_PKCS1_OAEP_MGF1_SHA256);
   (AlgorithmId.RsaesPkcs1OAepMgf1Sha384, TEE_ALG_RSAES_PKCS1_OAEP_MGF1_SHA384);
   (AlgorithmId.RsaesPkcs1OAepMgf1Sha512, TEE_ALG_RSAES_PKCS1_OAEP_MGF1_SHA512);
   (AlgorithmId.RsaNopad, TEE_ALG_RSA_NOPAD);
   (AlgorithmId.DSASha1, TEE_ALG_DSA_SHA1);
   (AlgorithmId.DSASha224, TEE_ALG_DSA_SHA224);
   (AlgorithmId.DSASha256, TEE_ALG_DSA_SHA256);
   (AlgorithmId.DhDeriveSharedSecret, TEE_ALG_DH_DERIVE_SHARED_SECRET);
   (AlgorithmId.Pbkdf2HmacSha1, TEE_ALG_PBKDF2_HMAC_SHA1_DERIVE_KEY);
   (AlgorithmId.Pbkdf2HmacSha224, TEE_ALG_PBKDF2_HMAC_SHA224_DERIVE_KEY);
   (AlgorithmId.Pbkdf2HmacSha256, TEE_ALG_PBKDF2_HMAC_SHA256_DERIVE_KEY);
   (AlgorithmId.Pbkdf2HmacSha384, TEE_ALG_PBKDF2_HMAC_SHA384_DERIVE_KEY);
   (AlgorithmId.Pbkdf2HmacSha512, TEE_ALG_PBKDF2_HMAC_SHA512_DERIVE_KEY);
   (AlgorithmId.Pbkdf2HmacSm3, TEE_ALG_PBKDF2_HMAC_SM3_DERIVE_KEY);
   (AlgorithmId.Md5, TEE_ALG_MD5);
   (AlgorithmId.Sha1, TEE_ALG_SHA1);
   (AlgorithmId.Sha224, TEE_ALG_SHA224);
   (AlgorithmId.Sha256, TEE_ALG_SHA256);
   (AlgorithmId.Sha384, TEE_ALG_SHA384);
   (AlgorithmId.Sha512, TEE_ALG_SHA512);
   (AlgorithmId.Md5Sha1, TEE_ALG_MD5SHA1);
   (AlgorithmId.HmacMd5, TEE_ALG_HMAC_MD5);
   (AlgorithmId.HmacSha1, TEE_ALG_HMAC_SHA1);
   (AlgorithmId.HmacSha224, TEE_ALG_HMAC_SHA224);
   (AlgorithmId.HmacSha256, TEE_ALG_HMAC_SHA256);
   (AlgorithmId.HmacSha384, TEE_ALG_HMAC_SHA384);
   (AlgorithmId.HmacSha512, TEE_ALG_HMAC_SHA512);
   (AlgorithmId.IllegalValue, TEE_ALG_ILLEGAL_VALUE)].

Definition object_types : list (TransientObjectType * Z) :=
  [(TransientObjectType.Aes, TEE_TYPE_AES);
   (TransientObjectType.Des, TEE_TYPE_DES);
   (TransientObjectType.Des3, TEE_TYPE_DES3);
   (TransientObjectType.HmacMd5, TEE_TYPE_HMAC_MD5);
   (TransientObjectType.HmacSha1, TEE_TYPE_HMAC_SHA1);
   (TransientObjectType.HmacSha224, TEE_TYPE_HMAC_SHA224);
   (TransientObjectType.HmacSha256, TEE_TYPE_HMAC_SHA256);
   (TransientObjectType.HmacSha384, TEE_TYPE_HMAC_SHA384);
   (TransientObjectType.HmacSha512, TEE_TYPE_HMAC_SHA512);
   (TransientObjectType.RsaPublicKey, TEE_TYPE_RSA_PUBLIC_KEY);
   (TransientObjectType.RsaKeypair, TEE_TYPE_RSA_KEYPAIR);
   (TransientObjectType.DsaPublicKey, TEE_TYPE_DSA_PUBLIC_KEY);
   (TransientObjectType.DsaKeypair, TEE_TYPE_DSA_KEYPAIR);
   (TransientObjectType.DhKeypair, TEE_TYPE_DH_KEYPAIR);
   (TransientObjectType.Pbkdf2Password, TEE_TYPE_PBKDF2_PASSWORD);
   (TransientObjectType.EcdsaPublicKey, TEE_TYPE_ECDSA_PUBLIC_KEY);
   (TransientObjectType.EcdsaKeypair, TEE_TYPE_ECDSA_KEYPAIR);
   (TransientObjectType.EcdhPublicKey, TEE_TYPE_ECDH_PUBLIC_KEY);
   (TransientObjectType.EcdhKeypair, TEE_TYPE_ECDH_KEYPAIR);
   (TransientObjectType.GenericSecret, TEE_TYPE_GENERIC_SECRET);
   (TransientObjectType.CorruptedObject, TEE_TYPE_CORRUPTED_OBJECT);
   (TransientObjectType.Data, TEE_TYPE_DATA)].

Definition attributes : list (AttributeId * Z) :=
  [(AttributeId.SecretValue, TEE_ATTR_SECRET_VALUE);
   (AttributeId.RsaModulus, TEE_ATTR_RSA_MODULUS);
   (AttributeId.RsaPublicExponent, TEE_ATTR_RSA_PUBLIC_EXPONENT);
   (AttributeId.RsaPrivateExponent, TEE_ATTR_RSA_PRIVATE_EXPONENT);
   (AttributeId.RsaPrime1, TEE_ATTR_RSA_PRIME1);
   (AttributeId.RsaPrime2, TEE_ATTR_RSA_PRIME2);
   (AttributeId.RsaExponent1, TEE_ATTR_RSA_EXPONENT1);
   (AttributeId.RsaExponent2, TEE_ATTR_RSA_EXPONENT2);
   (AttributeId.RsaCoefficient, TEE_ATTR_RSA_COEFFICIENT);
   (AttributeId.DsaPrime, TEE_ATTR_DSA_PRIME);
   (AttributeId.DsaSubprime, TEE_ATTR_DSA_SUBPRIME);
   (AttributeId.DsaBase, TEE_ATTR_DSA_BASE);
   (AttributeId.DsaPublicValue, TEE_ATTR_DSA_PUBLIC_VALUE);
   (AttributeId.DsaPrivateValue, TEE_ATTR_DSA_PRIVATE_VALUE);
   (AttributeId.DhPrime, TEE_ATTR_DH_PRIME);
   (AttributeId.DhSubprime, TEE_ATTR_DH_SUBPRIME);
   (AttributeId.DhBase, TEE_ATTR_DH_BASE);
   (AttributeId.DhXBits, TEE_ATTR_DH_X_BITS);
   (AttributeId.DhPublicValue, TEE_ATTR_DH_PUBLIC_VALUE);
   (AttributeId.DhPrivateValue, TEE_ATTR_DH_PRIVATE_VALUE);
   (AttributeId.Pbkdf2Password, TEE_ATTR_PBKDF2_PASSWORD);
   (AttributeId.Pbkdf2Salt, TEE_ATTR_PBKDF2_SALT);
   (AttributeId.Pbkdf2IterationCount, TEE_ATTR_PBKDF2_ITERATION_COUNT);
   (AttributeId.Pbkdf2DkmLength, TEE_ATTR_PBKDF2_DKM_LENGTH);
   (AttributeId.RsaOaepLabel, TEE_ATTR_RSA_OAEP_LABEL);
   (AttributeId.RsaPssSaltLength, TEE_ATTR_RSA_PSS_SALT_LENGTH);
   (AttributeId.EccPublicValueX, TEE_ATTR_ECC_PUBLIC_VALUE_X);
   (AttributeId.EccPublicValueY, TEE_ATTR_ECC_PUBLIC_VALUE_Y);
   (AttributeId.EccPrivateValue, TEE_ATTR_ECC_PRIVATE_VALUE);
   (AttributeId.EccCurve, TEE_ATTR_ECC_CURVE);
   (AttributeId.BitProtected, TEE_ATTR_BIT_PROTECTED);
   (AttributeId.BitValue, TEE_ATTR_BIT_VALUE)].

Definition elements : list (ElementId * Z) :=
  [(ElementId.ElementNone, TEE_CRYPTO_ELEMENT_NONE);
   (ElementId.EccCurveNistP192, TEE_ECC_CURVE_NIST_P192);
   (ElementId.EccCurveNistP224, TEE_ECC_CURVE_NIST_P224);
   (ElementId.EccCurveNistP256, TEE_ECC_CURVE_NIST_P256);
   (ElementId.EccCurveNistP384, TEE_ECC_CURVE_NIST_P384);
   (ElementId.EccCurveNistP521, TEE_ECC_CURVE_NIST_P521)].

(** An identifier of the crate is the raw constant of its name. *)
Lemma identifiers_agree :
  Forall (fun p => AlgorithmId.as_u32 p.1 = p.2) algorithms /\
  Forall (fun p => TransientObjectType.as_u32 p.1 = p.2) object_types /\
  Forall (fun p => AttributeId.as_u32 p.1 = p.2) attributes /\
  Forall (fun p => ElementId.as_u32 p.1 = p.2) elements.
Proof. split_and!; repeat constructor. Qed.

(** Two identifiers never have the same code. *)
Ltac codes := intros a b; destruct a; destruct b; vm_compute; congruence.

Lemma algorithms_distinct a b : AlgorithmId.as_u32 a = AlgorithmId.as_u32 b -> a = b.
Proof. revert a b. codes. Qed.
Lemma object_types_distinct a b :
  TransientObjectType.as_u32 a = TransientObjectType.as_u32 b -> a = b.
Proof. revert a b. codes. Qed.
Lemma attributes_distinct a b : AttributeId.as_u32 a = AttributeId.as_u32 b -> a = b.
Proof. revert a b. codes. Qed.

(** The flags of the header are the bits that [Transient] looks at. *)
Lemma attribute_flags id :
  is_value (AttributeId.as_u32 id)
    = negb (Z.land (AttributeId.as_u32 id) TEE_ATTR_FLAG_VALUE =? 0) /\
  is_public (AttributeId.as_u32 id)
    = negb (Z.land (AttributeId.as_u32 id) TEE_ATTR_FLAG_PUBLIC =? 0).
Proof. by destruct id. Qed.
