(* ===== verification/Host.v ===== *)
(** * The host of the build tools: paths, JSON, commands, the operating system

    What [tools/cargo-optee] uses of the standard library and of its
    dependencies: [std::path] on strings, [serde_json::Value], [Command] as the
    arguments and environment it collects, and, as the interface [Host], the file
    system, the environment, child processes, the [tempfile] crate and the
    messages of cargo.  A string is the sequence of its UTF-8 bytes. *)

From Stdlib Require Import Ascii.
From S2P Require Import Prelude.
Open Scope string_scope.

(** ** Strings *)

(** [str::split] on a character. *)
Fixpoint split_on (c : ascii) (s : string) : list string :=
  match s with
  | "" => [""]
  | String x r =>
      if decide (x = c) then "" :: split_on c r
      else match split_on c r with
           | [] => [String x ""]
           | w :: ws => String x w :: ws
           end
  end.

(** [str::split_once] on a character: also what [find] and [split_at] give. *)
Fixpoint split_once (c : ascii) (s : string) : option (string * string) :=
  match s with
  | "" => None
  | String x r =>
      if decide (x = c) then Some ("", r)
      else '(k, v) ← split_once c r; Some (String x k, v)
  end.

Definition starts_with (p s : string) : bool := String.prefix p s.

Fixpoint ends_with (p s : string) : bool :=
  (s =? p)%string || (match s with "" => false | String _ r => ends_with p r end).

Fixpoint str_contains (p s : string) : bool :=
  starts_with p s || (match s with "" => false | String _ r => str_contains p r end).

(** [str::to_lowercase], on the ASCII letters: a character outside ASCII whose
    lower case is in ASCII is none of those the source compares with. *)
Definition ascii_lower (a : ascii) : ascii :=
  let n := Z.of_N (N_of_ascii a) in
  if ((65 <=? n) && (n <=? 90))%Z then ascii_of_N (Z.to_N (n + 32)) else a.
Fixpoint to_lowercase (s : string) : string :=
  match s with "" => "" | String a r => String (ascii_lower a) (to_lowercase r) end.

Definition utf8 (l : list Z) : string :=
  foldr (fun b s => String (ascii_of_N (Z.to_N b)) s) "" l.

(** The characters with the Unicode property [White_Space], encoded. *)
Definition white_space : list string :=
  map utf8 ([[9]; [10]; [11]; [12]; [13]; [32]; [0xC2; 0x85]; [0xC2; 0xA0]; [0xE1; 0x9A; 0x80]]
    ++ map (fun b => [0xE2; 0x80; b])
         [0x80; 0x81; 0x82; 0x83; 0x84; 0x85; 0x86; 0x87; 0x88; 0x89; 0x8A; 0xA8; 0xA9; 0xAF]
    ++ [[0xE2; 0x81; 0x9F]; [0xE3; 0x80; 0x80]])%list.

(** [str::trim_start] and [trim_end]: the fuel is the length of the string, each
    step removes at least one byte. *)
Fixpoint strip_space (drop_space : string -> option string) (fuel : nat) (s : string) : string :=
  match fuel with
  | O => s
  | S n => match drop_space s with Some r => strip_space drop_space n r | None => s end
  end.
Definition space_before (s : string) : option string :=
  match List.find (fun w => starts_with w s) white_space with
  | Some w => Some (String.substring (String.length w) (String.length s - String.length w) s)
  | None => None
  end.
Definition space_after (s : string) : option string :=
  match List.find (fun w => ends_with w s) white_space with
  | Some w => Some (String.substring 0 (String.length s - String.length w) s)
  | None => None
  end.
Definition trim (s : string) : string :=
  let s := strip_space space_before (String.length s) s in
  strip_space space_after (String.length s) s.

Definition str_is_empty (s : string) : bool := (s =? "")%string.

(** [slice::join] of strings. *)
Definition join_with (sep : string) (l : list string) : string := String.concat sep l.

(** ** [std::path], on Unix *)

Abbreviation path := string.

Definition is_absolute (p : path) : bool := starts_with "/" p.

(** [Path::join], which is [PathBuf::push] on a copy. *)
Definition join (base p : path) : path :=
  if is_absolute p then p
  else if str_is_empty base || ends_with "/" base then base +:+ p
  else base +:+ "/" +:+ p.

Definition has_root (p : path) : bool := is_absolute p.

(** The segments between separators, last first. *)
Definition segments (p : path) : list string :=
  rev (split_on "/" (if has_root p then String.substring 1 (String.length p - 1) p else p)).

(** Empty segments and [.] are not components, except a [.] that begins a
    relative path. *)
Fixpoint trim_segments (rooted : bool) (l : list string) : list string :=
  match l with
  | [] => []
  | s :: r =>
      if str_is_empty s then trim_segments rooted r
      else if (s =? ".")%string && (rooted || (match r with [] => false | _ => true end))
           then trim_segments rooted r
      else l
  end.

Definition components (p : path) : list string := trim_segments (has_root p) (segments p).

(** [Path::file_name]. *)
Definition file_name (p : path) : option string :=
  match components p with
  | s :: _ => if (s =? ".")%string || (s =? "..")%string then None else Some s
  | [] => None
  end.

(** [Path::parent]. *)
Definition parent (p : path) : option path :=
  match components p with
  | [] => None
  | _ :: r => Some ((if has_root p then "/" else "")
                    +:+ join_with "/" (rev (trim_segments (has_root p) r)))
  end.

(** [Path::with_file_name]. *)
Definition with_file_name (p : path) (name : string) : path :=
  match file_name p, parent p with
  | Some _, Some d => join d name
  | _, _ => join p name
  end.

Example parent_examples :
  map parent ["/a/b"; "/a"; "/"; ""; "a"; "a//b/"; "./a"; "."; "/a/./b/."; "a/.."]
  = [Some "/a"; Some "/"; None; None; Some ""; Some "a"; Some "."; Some ""; Some "/a"; Some "a"].
Proof. done. Qed.

Example file_name_examples :
  map file_name ["/a/b"; "/"; ""; "a/"; "a/.."; "./"; "/a/b.so/."]
  = [Some "b"; None; None; Some "a"; None; None; Some "b.so"].
Proof. done. Qed.

(** ** [serde_json::Value] *)

Inductive Value : Type :=
| Null
| Bool (b : bool)
| Number (n : string)
| VString (s : string)
| Array (l : list Value)
| Object (m : list (string * Value)).

(** [Value::get] with a string key. *)
Definition get (v : Value) (key : string) : option Value :=
  match v with
  | Object m => match List.find (fun kv => (kv.1 =? key)%string) m with
                | Some (_, x) => Some x
                | None => None
                end
  | _ => None
  end.

Definition as_str (v : Value) : option string :=
  match v with VString s => Some s | _ => None end.
Definition as_bool (v : Value) : option bool :=
  match v with Bool b => Some b | _ => None end.
Definition as_array (v : Value) : option (list Value) :=
  match v with Array l => Some l | _ => None end.
Definition is_string (v : Value) : bool :=
  match v with VString _ => true | _ => false end.

(** ** [std::process::Command] *)

Record Command : Type := mkCommand {
  program : string;
  args : list string;
  envs : gmap string string;
  cwd : option path
}.

Module Cmd.
Definition new (p : string) : Command := mkCommand p [] ∅ None.
Definition arg (c : Command) (a : string) : Command :=
  mkCommand (program c) (args c ++ [a]) (envs c) (cwd c).
Definition argv (c : Command) (l : list string) : Command :=
  mkCommand (program c) (args c ++ l) (envs c) (cwd c).
(** A later value for a key replaces an earlier one. *)
Definition env (c : Command) (k v : string) : Command :=
  mkCommand (program c) (args c) (<[k := v]> (envs c)) (cwd c).
Definition current_dir (c : Command) (d : path) : Command :=
  mkCommand (program c) (args c) (envs c) (Some d).
End Cmd.

(** An exit code; a child killed by a signal has none. *)
Definition ExitStatus : Type := option Z.
Definition success (st : ExitStatus) : bool :=
  match st with Some c => (c =? 0)%Z | None => false end.

(** ** Messages and metadata of cargo, as [cargo_metadata] gives them

    The fields the source reads. *)

Record Artifact : Type := mkArtifact {
  manifest_of : path;
  target_kind : list string;
  crate_types : list string;
  profile_test : bool;
  filenames : list path;
  executable : option path
}.

Inductive Message : Type :=
| CompilerMessage (rendered : option string)
| TextLine (line : string)
| CompilerArtifact (a : Artifact)
| OtherMessage.

Record Package : Type := mkPackage { package_manifest : path; package_metadata : Value }.
Record Metadata : Type := mkMetadata { root_package : option Package; packages : list Package }.

(** ** The operating system

    An I/O error is its number.  A temporary file or directory is its path; the
    destructor of [NamedTempFile] and [TempDir] removes it. *)

Abbreviation io A := (result A Z).

Class Host (St : Type) : Type := {
  var_os : string -> option string;
  is_unicode : string -> bool;
  os_current_dir : St -> io path;
  canonicalize : path -> St -> io path;
  path_exists : path -> St -> bool;
  is_dir : path -> St -> bool;
  is_file : path -> St -> bool;
  fs_read : path -> St -> io bytes;
  fs_write : path -> string -> St -> io unit * St;
  fs_copy : path -> path -> St -> io unit * St;
  fs_rename : path -> path -> St -> io unit * St;
  fs_set_mode : path -> Z -> St -> io unit * St;
  fs_remove_dir_all : path -> St -> io unit * St;
  os_tempfile_in : path -> string -> string -> St -> io path * St;
  os_tempdir : St -> io path * St;
  (* an error of [keep] gives the file back *)
  os_keep : path -> St -> io unit * St;
  os_drop_temp : path -> St -> St;
  (* run a child to its end *)
  os_status : Command -> St -> io ExitStatus * St;
  (* run a child, reading its output as messages of cargo *)
  os_cargo_json : Command -> St -> io (list (io Message) * io ExitStatus) * St;
  cargo_metadata : path -> St -> io Metadata
}.

(** [env::var]: also fails when the value is not Unicode. *)
Definition env_var `{Host St} (k : string) : option string :=
  match var_os k with Some v => if is_unicode v then Some v else None | None => None end.

(** A call that can change the system, and one that only looks. *)
Definition on_host {St A} (f : St -> A * St) : prog St A := fun s => Ret (f s).
Definition look {St A} (f : St -> A) : prog St A := fun s => Ret (f s, s).

Lemma does_look {S A} (f : S -> A) s (Q : A -> S -> Prop) : Q (f s) s -> does (look f) s Q.
Proof. intros HQ. by exists (f s), s. Qed.

Lemma does_see {S A} (f : S -> A) s : does (look f) s (fun r s' => r = f s /\ s' = s).
Proof. by apply does_look. Qed.

Lemma does_host {S A} (f : S -> A * S) s (Q : A -> S -> Prop) :
  (forall a s', f s = (a, s') -> Q a s') -> does (on_host f) s Q.
Proof. intros HQ. unfold does, on_host. destruct (f s) as [a s'] eqn:E. eauto. Qed.

(** What the theorems assume of the host: which temporary files exist, and which
    commands have been run, as far as the operations of [tempfile], [rename] and
    [Command] determine it.  The temporary names are fresh, and neither a child
    process nor another call touches them. *)
Inductive event : Type :=
| Ran (c : Command) (r : io ExitStatus).

Class HostOk (St : Type) `{Host St} : Type := {
  temps : St -> gset path;
  history : St -> list event;

  tempfile_in_ok d pre suf s r s' :
    os_tempfile_in d pre suf s = (r, s') ->
    history s' = history s /\
    match r with Ok p => (p ∉ temps s) /\ temps s' = {[p]} ∪ temps s | Err _ => temps s' = temps s end;
  tempdir_ok s r s' :
    os_tempdir s = (r, s') ->
    history s' = history s /\
    match r with Ok p => (p ∉ temps s) /\ temps s' = {[p]} ∪ temps s | Err _ => temps s' = temps s end;
  drop_temp_ok p s :
    history (os_drop_temp p s) = history s /\ temps (os_drop_temp p s) = temps s ∖ {[p]};
  keep_ok p s r s' :
    os_keep p s = (r, s') -> history s' = history s /\ temps s' = temps s;
  rename_ok p q s r s' :
    fs_rename p q s = (r, s') ->
    history s' = history s /\
    temps s' = match r with Ok _ => temps s ∖ {[p]} | Err _ => temps s end;
  copy_ok p q s r s' :
    fs_copy p q s = (r, s') -> history s' = history s /\ temps s' = temps s;
  write_ok p d s r s' :
    fs_write p d s = (r, s') -> history s' = history s /\ temps s' = temps s;
  set_mode_ok p m s r s' :
    fs_set_mode p m s = (r, s') -> history s' = history s /\ temps s' = temps s;
  (* a directory that is removed may have had temporary files in it *)
  remove_dir_ok p s r s' :
    fs_remove_dir_all p s = (r, s') -> history s' = history s /\ temps s' ⊆ temps s;
  status_ok c s r s' :
    os_status c s = (r, s') ->
    history s' = (history s ++ [Ran c r])%list /\ temps s' = temps s;
  cargo_json_ok c s r s' :
    os_cargo_json c s = (r, s') ->
    history s' = (history s ++ [Ran c match r with Ok (_, st) => st | Err e => Err e end])%list
    /\ temps s' = temps s
}.
