(* ===== verification/CargoConfig.v ===== *)
(** * Configuration of cargo-optee: [tools/cargo-optee/src/config.rs]

    The settings of a build come from the command line, the package metadata of
    Cargo.toml, the environment and defaults.  With [Arch] of [common.rs] and
    [parse_env_var] of [cli.rs]; the messages of the errors are constructors. *)

From Stdlib Require Import Ascii.
From S2P Require Import Prelude Host ElfUuid.
Open Scope string_scope.

(** ** Errors of the tools

    The messages of [anyhow], one constructor for each; an error that is passed
    on with a context keeps the number of the I/O error. *)
Module Error.
Inductive error : Type :=
| Io (e : Z)
| Context (what : string) (e : Z)
| CargoTomlNotFound (p : path)
| CargoMetadata (e : Z)
| NoPackageForManifest (p : path)
| UuidPathNotSupported (component : string)
| MustBeString (key : string)
| InvalidMetadataArch (s : string)
| MustBeBoolean (key : string)
| TaDevKitDirMissing
| OpteeClientExportMissing
| DoesNotExist (what : string) (p : path)
| NotADirectory (what : string) (p : path)
| NotAFile (what : string) (p : path)
| NoTargetConfiguration
| CommandFailed (what : string) (st : ExitStatus)
| BuildFailed (st : ExitStatus)
| NoArtifact (manifest : path)
| MultipleArtifacts (manifest : path) (l : list path)
| ToolchainNotAvailable
| NoFileName (p : path)
| NoParent (p : path)
| SigningKeyNotFound (p : path)
| InstallDirMissing (p : path)
| NoCargoToml (p : path)
| SrcRootNotSet
| SrcRootMissing (p : path)
| NoBinaryName
| InvalidManifestPath
| Elf (e : ElfError.ElfError).
End Error.
Abbreviation error := Error.error.
Abbreviation Result A := (result A Error.error).

(** [?] on an I/O result, with or without a context. *)
Definition io_err {A} (r : io A) : Result A := map_err Error.Io r.
Definition with_context {A} (what : string) (r : io A) : Result A :=
  map_err (Error.Context what) r.

(** ** [Arch] *)
Module Arch.
Inductive Arch : Type := Aarch64 | Arm.

#[global] Instance Arch_eq_dec : EqDecision Arch.
Proof. solve_decision. Defined.

Definition from_str (s : string) : option Arch :=
  let l := to_lowercase s in
  if (l =? "aarch64")%string || (l =? "arm64")%string then Some Aarch64
  else if (l =? "arm")%string || (l =? "arm32")%string then Some Arm
  else None.
End Arch.
Abbreviation Arch := Arch.Arch.

(** ** [ComponentType] *)
Module ComponentType.
Inductive ComponentType : Type := Ta | Ca | Plugin.

#[global] Instance ComponentType_eq_dec : EqDecision ComponentType.
Proof. solve_decision. Defined.

Definition as_str (c : ComponentType) : string :=
  match c with Ta => "ta" | Ca => "ca" | Plugin => "plugin" end.
End ComponentType.
Abbreviation ComponentType := ComponentType.ComponentType.

Inductive PathType : Type := Directory | File.

(** ** The metadata table *)

Record MetadataConfig : Type := mkMetadataConfig {
  md_arch : Arch;
  md_debug : bool;
  md_std : bool;
  md_ta_dev_kit_dir : option path;
  md_optee_client_export : option path;
  md_signing_key : option path;
  md_env : list (string * string)
}.

Definition metadata_bool (table : Value) (key : string) : Result bool :=
  match get table key with
  | None => Ok false
  | Some v => ok_or (as_bool v) (Error.MustBeBoolean key)
  end.

Definition arch_key (a : Arch) : string :=
  match a with Arch.Aarch64 => "aarch64" | Arch.Arm => "arm" end.

Definition non_empty (o : option string) : option string :=
  s ← o; if str_is_empty s then None else Some s.

(** A path given for the architecture, or one for all of them. *)
Definition arch_path (table : Value) (key : string) (a : Arch) : option path :=
  non_empty (v ← get table key;
             match get v (arch_key a) with
             | Some arch_value => as_str arch_value
             | None => if is_string v then as_str v else None
             end).

Definition metadata_arch (table : Value) (cmd_arch : option Arch) : Result Arch :=
  match cmd_arch with
  | Some a => Ok a
  | None =>
      match get table "arch" with
      | None => Ok Arch.Aarch64
      | Some v =>
          try s := ok_or (as_str v) (Error.MustBeString "arch") in
          ok_or (Arch.from_str s) (Error.InvalidMetadataArch s)
      end
  end.

(** Strings of the list without [=] are dropped, with a warning. *)
Definition metadata_env (table : Value) : list (string * string) :=
  match v ← get table "env"; as_array v with
  | Some l => omap (split_once "="%char) (omap as_str l)
  | None => []
  end.

Definition extract_build_config (metadata : Value) (c : ComponentType) (cmd_arch : option Arch)
    : Result (option MetadataConfig) :=
  match get metadata "optee" with
  | None => Ok None
  | Some optee_metadata =>
      match get optee_metadata (ComponentType.as_str c) with
      | None => Ok None
      | Some table =>
          match get table "uuid-path" with
          | Some _ => Err (Error.UuidPathNotSupported (ComponentType.as_str c))
          | None =>
              try arch := metadata_arch table cmd_arch in
              try debug := metadata_bool table "debug" in
              try std := metadata_bool table "std" in
              let ta_dev_kit_dir :=
                if decide (c = ComponentType.Ta) then arch_path table "ta-dev-kit-dir" arch
                else None in
              let optee_client_export :=
                if decide (c = ComponentType.Ca \/ c = ComponentType.Plugin)
                then arch_path table "optee-client-export" arch else None in
              let signing_key :=
                if decide (c = ComponentType.Ta)
                then non_empty (v ← get table "signing-key"; as_str v) else None in
              Ok (Some (mkMetadataConfig arch debug std ta_dev_kit_dir optee_client_export
                          signing_key (metadata_env table)))
          end
      end
  end.

(** ** Resolution *)
Section Resolve.
Context {St : Type} `{!Host St}.

Definition discover_app_metadata (project_path : path) (s : St) : Result Value :=
  let cargo_toml_path := join project_path "Cargo.toml" in
  if negb (path_exists cargo_toml_path s) then Err (Error.CargoTomlNotFound project_path)
  else
    try metadata := map_err Error.CargoMetadata (cargo_metadata cargo_toml_path s) in
    match root_package metadata with
    | Some root_pkg => Ok (package_metadata root_pkg)
    | None =>
        match List.find (fun pkg => str_contains cargo_toml_path (package_manifest pkg))
                (packages metadata) with
        | Some pkg => Ok (package_metadata pkg)
        | None => Err (Error.NoPackageForManifest cargo_toml_path)
        end
    end.

(** [MetadataConfig::resolve]. *)
Definition metadata_resolve (project_path : path) (c : ComponentType) (cmd_arch : option Arch)
    (s : St) : Result (option MetadataConfig) :=
  try app_metadata := discover_app_metadata project_path s in
  extract_build_config app_metadata c cmd_arch.

(** [Option::or] and [or_else]. *)
Definition or_else {A} (o : option A) (o' : option A) : option A :=
  match o with Some _ => o | None => o' end.
Definition unwrap_or {A} (o : option A) (d : A) : A :=
  match o with Some a => a | None => d end.

Definition resolve_config_path (command_line metadata : option path) (variable : string)
    : option path :=
  or_else (or_else command_line metadata) (var_os variable).

Definition resolve_path_relative_to_project (p project_path : path) (ty : PathType)
    (error_context : string) (s : St) : Result path :=
  let resolved_path := if is_absolute p then p else join project_path p in
  if negb (path_exists resolved_path s) then Err (Error.DoesNotExist error_context resolved_path)
  else
    match ty with
    | Directory => if negb (is_dir resolved_path s)
                   then Err (Error.NotADirectory error_context resolved_path)
                   else Ok resolved_path
    | File => if negb (is_file resolved_path s)
              then Err (Error.NotAFile error_context resolved_path)
              else Ok resolved_path
    end.

Record BuildOverrides : Type := mkOverrides {
  o_arch : option Arch;
  o_debug : option bool;
  o_env : list (string * string);
  o_no_default_features : bool;
  o_features : option string
}.

Record TaBuildConfig : Type := mkTaConfig {
  ta_arch : Arch;
  ta_debug : bool;
  ta_path : path;
  ta_env : list (string * string);
  ta_no_default_features : bool;
  ta_features : option string;
  ta_std : bool;
  ta_dev_kit_dir : path;
  signing_key : path
}.

Record CaBuildConfig : Type := mkCaConfig {
  ca_arch : Arch;
  ca_debug : bool;
  ca_path : path;
  ca_env : list (string * string);
  ca_no_default_features : bool;
  ca_features : option string;
  optee_client_export : path;
  ca_plugin : bool
}.

Definition default_key (kit : path) : path := join (join kit "keys") "default_ta.pem".

(** [TaBuildConfig::resolve]. *)
Definition resolve_ta (project_path : path) (o : BuildOverrides) (cmd_std : option bool)
    (cmd_ta_dev_kit_dir cmd_signing_key : option path) (need_signing_key : bool) (s : St)
    : Result TaBuildConfig :=
  try md := metadata_resolve project_path ComponentType.Ta (o_arch o) s in
  let arch := unwrap_or (or_else (o_arch o) (md_arch <$> md)) Arch.Aarch64 in
  let debug := unwrap_or (or_else (o_debug o) (md_debug <$> md)) false in
  let std := unwrap_or (or_else cmd_std (md_std <$> md)) false in
  try kit_config := ok_or (resolve_config_path cmd_ta_dev_kit_dir (md ≫= md_ta_dev_kit_dir)
                             "TA_DEV_KIT_DIR") Error.TaDevKitDirMissing in
  try kit := resolve_path_relative_to_project kit_config project_path Directory
               "TA development kit directory" s in
  try key := (if need_signing_key then
                let key_config :=
                  unwrap_or (or_else (or_else cmd_signing_key (md ≫= md_signing_key))
                               (var_os "TA_SIGN_KEY"))
                    (default_key kit_config) in
                resolve_path_relative_to_project key_config project_path File "Signing key file" s
              else Ok "") in
  let env := (unwrap_or (md_env <$> md) [] ++ o_env o)%list in
  Ok (mkTaConfig arch debug project_path env (o_no_default_features o) (o_features o) std kit key).

(** [CaBuildConfig::resolve]. *)
Definition resolve_ca (project_path : path) (o : BuildOverrides)
    (cmd_optee_client_export : option path) (plugin : bool) (s : St) : Result CaBuildConfig :=
  let component_type := if plugin then ComponentType.Plugin else ComponentType.Ca in
  try md := metadata_resolve project_path component_type (o_arch o) s in
  let arch := unwrap_or (or_else (o_arch o) (md_arch <$> md)) Arch.Aarch64 in
  let debug := unwrap_or (or_else (o_debug o) (md_debug <$> md)) false in
  try export_config := ok_or (resolve_config_path cmd_optee_client_export
                                (md ≫= md_optee_client_export) "OPTEE_CLIENT_EXPORT")
                         Error.OpteeClientExportMissing in
  try export := resolve_path_relative_to_project export_config project_path Directory
                  "OP-TEE client export directory" s in
  let env := (unwrap_or (md_env <$> md) [] ++ o_env o)%list in
  Ok (mkCaConfig arch debug project_path env (o_no_default_features o) (o_features o) export plugin).

End Resolve.
