(* ===== verification/CargoBuild.v ===== *)
(** * The builders of cargo-optee: [tools/cargo-optee/src/]

    [common.rs], [ta_builder.rs], [ca_builder.rs], [cli.rs] and [main.rs]: the
    commands that are run, with their arguments and environment, the temporary
    files and their destructors, and what is installed.  Progress messages are
    left out. *)

From Stdlib Require Import Ascii.
From S2P Require Import Prelude Host ElfUuid CargoConfig.
Open Scope string_scope.

(** ** [common.rs]: targets *)
Module BuildMode.
Inductive BuildMode : Type := Ca | TaStd | TaNoStd.

#[global] Instance BuildMode_eq_dec : EqDecision BuildMode.
Proof. solve_decision. Defined.
End BuildMode.
Abbreviation BuildMode := BuildMode.BuildMode.

Definition TARGET_CONFIGS : list (Arch * BuildMode * string * string) :=
  [ (Arch.Arm, BuildMode.Ca, "arm-unknown-linux-gnueabihf", "arm-linux-gnueabihf-");
    (Arch.Arm, BuildMode.TaNoStd, "arm-unknown-linux-gnueabihf", "arm-linux-gnueabihf-");
    (Arch.Arm, BuildMode.TaStd, "arm-unknown-optee", "arm-linux-gnueabihf-");
    (Arch.Aarch64, BuildMode.Ca, "aarch64-unknown-linux-gnu", "aarch64-linux-gnu-");
    (Arch.Aarch64, BuildMode.TaNoStd, "aarch64-unknown-linux-gnu", "aarch64-linux-gnu-");
    (Arch.Aarch64, BuildMode.TaStd, "aarch64-unknown-optee", "aarch64-linux-gnu-") ].

Definition get_target_and_cross_compile (arch : Arch) (mode : BuildMode)
    : Result (string * string) :=
  match List.find (fun '(a, m, _, _) => bool_decide (a = arch /\ m = mode)) TARGET_CONFIGS with
  | Some (_, _, target, cross_compile_prefix) => Ok (target, cross_compile_prefix)
  | None => Err Error.NoTargetConfiguration
  end.

Definition resolve_target_and_cross_compile_with (arch : Arch) (mode : BuildMode)
    (cross_compile_override : option string) : Result (string * string) :=
  try (target, default_cc) := get_target_and_cross_compile arch mode in
  Ok (target, unwrap_or cross_compile_override default_cc).

(** ** [common.rs]: choosing the artifact *)
Module CargoArtifactKind.
Inductive CargoArtifactKind : Type := Bin | Cdylib.
End CargoArtifactKind.
Abbreviation CargoArtifactKind := CargoArtifactKind.CargoArtifactKind.

(** [Path] is compared by its components. *)
Definition path_key (p : path) : bool * list string := (has_root p, rev (components p)).
Definition path_eqb (p q : path) : bool := bool_decide (path_key p = path_key q).

Definition component_rank (c : string) : Z :=
  if (c =? ".")%string then 0 else if (c =? "..")%string then 1 else 2.
Definition component_compare (c d : string) : comparison :=
  match (component_rank c ?= component_rank d)%Z with Eq => String.compare c d | r => r end.
Fixpoint components_compare (l l' : list string) : comparison :=
  match l, l' with
  | [], [] => Eq
  | [], _ => Lt
  | _, [] => Gt
  | c :: r, d :: r' => match component_compare c d with Eq => components_compare r r' | x => x end
  end.
(** The root comes before every other component. *)
Definition path_leb (p q : path) : bool :=
  match path_key p, path_key q with
  | (true, l), (true, l') | (false, l), (false, l') =>
      match components_compare l l' with Gt => false | _ => true end
  | (true, _), (false, l') => match l' with [] => false | _ => true end
  | (false, l), (true, _) => match l with [] => true | _ => false end
  end.

(** [Vec::sort] is stable. *)
Fixpoint sort_insert (p : path) (l : list path) : list path :=
  match l with
  | [] => [p]
  | q :: r => if path_leb p q then p :: l else q :: sort_insert p r
  end.
Definition sort (l : list path) : list path := foldr sort_insert [] l.

(** [Vec::dedup]: the first of each run stays. *)
Fixpoint dedup_from (p : path) (l : list path) : list path :=
  match l with
  | [] => []
  | q :: r => if path_eqb q p then dedup_from p r else q :: dedup_from q r
  end.
Definition dedup (l : list path) : list path :=
  match l with [] => [] | p :: r => p :: dedup_from p r end.

Definition unique_cargo_artifact (artifacts : list path) (manifest_path : path) : Result path :=
  let artifacts := dedup (sort artifacts) in
  match artifacts with
  | [p] => Ok p
  | [] => Err (Error.NoArtifact manifest_path)
  | _ => Err (Error.MultipleArtifacts manifest_path artifacts)
  end.

Definition manifest_path (project_dir : path) : path := join project_dir "Cargo.toml".

(** ** [common.rs]: calls of the operating system *)
Section Common.
Context {St : Type} `{!Host St}.

Definition absolute_dir (p : path) : prog St (Result path) :=
  look (fun s => with_context ("project directory " +:+ p) (canonicalize p s)).

Definition absolute_from_cwd (dir : path) : prog St (Result path) :=
  if is_absolute dir then pret (Ok dir)
  else let? cwd := look (fun s => io_err (os_current_dir s)) in pret (Ok (join cwd dir)).

Definition cargo_command : Command := Cmd.new (unwrap_or (var_os "CARGO") "cargo").
Definition cargo_command_in (project_dir : path) : Command :=
  Cmd.current_dir cargo_command project_dir.

Definition resolve_target_and_cross_compile (arch : Arch) (mode : BuildMode)
    : Result (string * string) :=
  resolve_target_and_cross_compile_with arch mode (non_empty (env_var "CROSS_COMPILE")).

Definition run_streaming_command (cmd : Command) (cmd_name : string) : prog St (Result unit) :=
  let* r := on_host (os_status cmd) in
  let? status := pret (with_context ("failed to run " +:+ cmd_name) r) in
  if success status then pret (Ok tt) else pret (Err (Error.CommandFailed cmd_name status)).

Definition check_command_available (program : string) : prog St bool :=
  let* r := on_host (os_status (Cmd.arg (Cmd.new program) "--version")) in
  pret (is_ok r).

(** The file of a message that belongs to the package at [expected]. *)
Definition artifact_files (expected : path) (kind : CargoArtifactKind) (a : Artifact) (s : St)
    : list path :=
  let artifact_manifest := match canonicalize (manifest_of a) s with
                           | Ok p => p
                           | Err _ => manifest_of a
                           end in
  if negb (path_eqb artifact_manifest expected) then []
  else if profile_test a then []
  else if existsb (fun k => (k =? "custom-build")%string) (target_kind a) then []
  else
    match kind with
    | CargoArtifactKind.Bin => match executable a with Some p => [p] | None => [] end
    | CargoArtifactKind.Cdylib =>
        if existsb (fun t => (t =? "cdylib")%string) (crate_types a)
        then List.filter (ends_with ".so") (filenames a) else []
    end.

Fixpoint collect_messages (expected : path) (kind : CargoArtifactKind) (messages : list (io Message))
    (s : St) : Result (list path) :=
  match messages with
  | [] => Ok []
  | Err e :: _ => Err (Error.Io e)
  | Ok m :: r =>
      try l := collect_messages expected kind r s in
      Ok (match m with CompilerArtifact a => artifact_files expected kind a s ++ l | _ => l end)%list
  end.

Definition collect_cargo_artifacts (messages : list (io Message)) (manifest_path : path)
    (kind : CargoArtifactKind) (s : St) : Result (list path) :=
  let expected := match canonicalize manifest_path s with Ok p => p | Err _ => manifest_path end in
  collect_messages expected kind messages s.

Definition run_cargo_build (cmd : Command) (manifest_path : path) (kind : CargoArtifactKind)
    : prog St (Result (list path)) :=
  let* r := on_host (os_cargo_json cmd) in
  let? (messages, r) := pret (with_context ("failed to run " +:+ program cmd) r) in
  let* artifacts := look (collect_cargo_artifacts messages manifest_path kind) in
  let? status := pret (with_context "failed to wait for cargo build" r) in
  if success status then pret artifacts else pret (Err (Error.BuildFailed status)).

(** *** Temporary files *)

(** The destructor of [NamedTempFile] and of [TempDir]. *)
Definition drop_temp (tmp : path) : prog St unit := on_host (fun s => (tt, os_drop_temp tmp s)).

(** Run [m] while [tmp] is alive. *)
Definition with_temp {A} (tmp : path) (m : prog St A) : prog St A :=
  let* r := m in let* _ := drop_temp tmp in pret r.

Definition unique_tempfile_in (parent : path) (prefix suffix : string) : prog St (Result path) :=
  let* r := on_host (os_tempfile_in parent prefix suffix) in
  pret (with_context ("create unique temp in " +:+ parent) r).

Definition publish_tempfile (tmp dest : path) : prog St (Result unit) :=
  let* r := on_host (os_keep tmp) in
  match r with
  | Err e => let* _ := drop_temp tmp in pret (Err (Error.Io e))
  | Ok _ =>
      let* r := on_host (fs_rename tmp dest) in
      pret (with_context ("failed to publish " +:+ tmp +:+ " to " +:+ dest) r)
  end.

(** [0o644] *)
Definition TA_FILE_MODE : Z := 0x1A4.

Definition set_ta_file_permissions (p : path) : prog St (Result unit) :=
  let* r := on_host (fs_set_mode p TA_FILE_MODE) in
  pret (with_context ("set permissions on " +:+ p) r).

Definition apply_clippy_deny_lints (cmd : Command) : Command :=
  Cmd.argv cmd ["--"; "-D"; "warnings"; "-D"; "clippy::unwrap_used"; "-D"; "clippy::expect_used";
                "-D"; "clippy::panic"].

Definition join_and_check (base : path) (segments : list path) (error_context : string)
    : prog St (Result path) :=
  let p := foldl join base segments in
  let* ex := look (path_exists p) in
  if ex then pret (Ok p) else pret (Err (Error.DoesNotExist error_context p)).

Definition clean_project (project_path : path) : prog St (Result unit) :=
  let? project_path := absolute_dir project_path in
  let cmd := Cmd.argv (cargo_command_in project_path)
               ["clean"; "--manifest-path"; manifest_path project_path] in
  let? _ := run_streaming_command cmd "cargo clean" in
  let intermediate_dir := join (join project_path "target") "cargo-optee" in
  let* ex := look (path_exists intermediate_dir) in
  if ex then let* r := on_host (fs_remove_dir_all intermediate_dir) in pret (io_err r)
  else pret (Ok tt).

(** [cargo fmt] of both builders. *)
Definition fmt_command (dir : path) : Command :=
  Cmd.argv (cargo_command_in dir) ["fmt"; "--manifest-path"; manifest_path dir].

End Common.
