(* ===== verification/CargoTool.v ===== *)
(** * The builders and commands of cargo-optee

    [ta_builder.rs], [ca_builder.rs], [cli.rs] and [main.rs] of
    [tools/cargo-optee/src/].  The texts of the two target specifications, the
    ELF parser and the [uuid] crate are parameters. *)

From Stdlib Require Import Ascii.
From S2P Require Import Prelude Host ElfUuid CargoConfig CargoBuild.
Open Scope string_scope.

(** Foreign code: the ELF parser, the [uuid] crate; and the texts of the two
    target specifications that are embedded. *)
Class Crates : Type := {
  Uuid : Type;
  Elf_parse : bytes -> option Elf;
  from_bytes_le : bytes -> Uuid;
  uuid_to_string : Uuid -> string;
  AARCH64_TARGET_JSON : string;
  ARM_TARGET_JSON : string
}.

Section Setup.
Context {St : Type} `{!Host St, !Target, !Profile, !Crates}.

(** [elf_uuid::read_ta_uuid] and [read_plugin_uuid] on a file. *)
Definition read_uuid (read : option bytes -> outcome (result Uuid ElfError.ElfError)) (p : path)
    : prog St (Result Uuid) :=
  let* file := look (fs_read p) in
  let* r := plift (read (match file with Ok data => Some data | Err _ => None end)) in
  pret (map_err Error.Elf r).
Definition read_ta_uuid : path -> prog St (Result Uuid) :=
  read_uuid (ElfUuid.read_ta_uuid Elf_parse from_bytes_le).
Definition read_plugin_uuid : path -> prog St (Result Uuid) :=
  read_uuid (ElfUuid.read_plugin_uuid Elf_parse from_bytes_le).

Record BuildArtifact : Type := mkArtifactFile { uuid : Uuid; artifact_path : path }.

(** The double quote. *)
Definition quote : string := utf8 [34].

Definition linker_args (target cross_compile : string) : list string :=
  ["--config"; "target." +:+ target +:+ ".linker=" +:+ quote +:+ cross_compile +:+ "gcc" +:+ quote;
   "--message-format=json"].

(** ** [ta_builder.rs] *)

Definition build_mode (config : TaBuildConfig) : BuildMode :=
  if ta_std config then BuildMode.TaStd else BuildMode.TaNoStd.

Definition setup_custom_targets : prog St (Result path) :=
  let* r := on_host os_tempdir in
  let? temp_dir := pret (io_err r) in
  let* r := on_host (fs_write (join temp_dir "aarch64-unknown-optee.json") AARCH64_TARGET_JSON) in
  match r with
  | Err e => let* _ := drop_temp temp_dir in pret (Err (Error.Io e))
  | Ok _ =>
      let* r := on_host (fs_write (join temp_dir "arm-unknown-optee.json") ARM_TARGET_JSON) in
      match r with
      | Err e => let* _ := drop_temp temp_dir in pret (Err (Error.Io e))
      | Ok _ => pret (Ok temp_dir)
      end
  end.

Definition custom_feature_list (custom_features : string) : list string :=
  List.filter (fun f => negb (str_is_empty f)) (map trim (split_on "," custom_features)).

Definition feature_list (config : TaBuildConfig) : list string :=
  ((if ta_std config then ["std"] else [])
   ++ match ta_features config with Some f => custom_feature_list f | None => [] end)%list.

Definition rustflags (config : TaBuildConfig) : string :=
  let rustflags := unwrap_or (env_var "RUSTFLAGS") "" in
  let rustflags := if str_is_empty rustflags then rustflags else rustflags +:+ " " in
  let rustflags := rustflags +:+ "-C panic=abort" in
  if ta_std config && negb (str_contains "unstable-options" rustflags)
  then rustflags +:+ " -Z unstable-options" else rustflags.

(** The arguments of the command. *)
Definition build_args (config : TaBuildConfig) (command target : string) : list string :=
  ([command; "--manifest-path"; manifest_path (ta_path config)]
   ++ (if ta_std config then ["-Z"; "build-std=std,panic_abort"; "-Z"; "json-target-spec"] else [])
   ++ ["--target"; target]
   ++ (if ta_no_default_features config then ["--no-default-features"] else [])
   ++ match feature_list config with
      | [] => []
      | features => ["--features"; join_with "," features]
      end)%list.

Definition apply_env (cmd : Command) (env : list (string * string)) : Command :=
  foldl (fun c '(k, v) => Cmd.env c k v) cmd env.

(** Its environment, up to the variables of a std build. *)
Definition build_env (config : TaBuildConfig) (cross_compile : string) (cmd : Command) (s : St)
    : Command :=
  let cmd := Cmd.env cmd "RUSTFLAGS" (rustflags config) in
  let cmd := apply_env cmd (ta_env config) in
  let absolute_ta_dev_kit_dir := match canonicalize (ta_dev_kit_dir config) s with
                                 | Ok p => p
                                 | Err _ => ta_dev_kit_dir config
                                 end in
  let cmd := Cmd.env cmd "TA_DEV_KIT_DIR" absolute_ta_dev_kit_dir in
  Cmd.env cmd "CROSS_COMPILE" cross_compile.

Definition setup_build_command (config : TaBuildConfig) (command : string)
    : prog St (Result (Command * option path)) :=
  let? (target, cross_compile) :=
    pret (resolve_target_and_cross_compile (ta_arch config) (build_mode config)) in
  let? temp_dir := (if ta_std config
                    then let? t := setup_custom_targets in pret (Ok (Some t))
                    else pret (Ok None)) in
  let cmd := Cmd.argv (cargo_command_in (ta_path config)) (build_args config command target) in
  let* cmd := look (build_env config cross_compile cmd) in
  let cmd := match temp_dir with Some t => Cmd.env cmd "RUST_TARGET_PATH" t | None => cmd end in
  if ta_std config then
    let fail e := (let* _ := match temp_dir with Some t => drop_temp t | None => pret tt end in
                   pret (Err e)) in
    match env_var "__CARGO_TESTS_ONLY_SRC_ROOT" with
    | None => fail Error.SrcRootNotSet
    | Some rust_src =>
        let* ex := look (path_exists rust_src) in
        if negb ex then fail (Error.SrcRootMissing rust_src)
        else pret (Ok (Cmd.env cmd "__CARGO_TESTS_ONLY_SRC_ROOT" rust_src, temp_dir))
    end
  else pret (Ok (cmd, temp_dir)).

(** Run [m] while the optional temporary directory is alive. *)
Definition with_temp_dir {A} (temp_dir : option path) (m : prog St A) : prog St A :=
  match temp_dir with Some t => with_temp t m | None => m end.

End Setup.

Module TaBuilder.
Section Ops.
Context {St : Type} `{!Host St, !Target, !Profile, !Crates}.

Definition build_binary (config : TaBuildConfig) : prog St (Result path) :=
  let? (target, cross_compile) :=
    pret (resolve_target_and_cross_compile (ta_arch config) (build_mode config)) in
  let? (build_cmd, temp_dir) := setup_build_command config "build" in
  with_temp_dir temp_dir
    (let build_cmd := if ta_debug config then build_cmd else Cmd.arg build_cmd "--release" in
     let build_cmd := Cmd.argv build_cmd (linker_args target cross_compile) in
     let manifest := manifest_path (ta_path config) in
     let? artifacts := run_cargo_build build_cmd manifest CargoArtifactKind.Bin in
     pret (unique_cargo_artifact artifacts manifest)).

(** [and_then(|n| n.to_str())]: the name must be Unicode. *)
Definition file_name_str (p : path) : option string :=
  match file_name p with Some n => if is_unicode n then Some n else None | None => None end.

Definition strip_binary (config : TaBuildConfig) (binary_path : path) : prog St (Result path) :=
  let? (_, cross_compile) :=
    pret (resolve_target_and_cross_compile (ta_arch config) (build_mode config)) in
  let? name := pret (ok_or (file_name_str binary_path) (Error.NoFileName binary_path)) in
  let? dir := pret (ok_or (parent binary_path) (Error.NoParent binary_path)) in
  let? stripped := unique_tempfile_in dir ("stripped_" +:+ name +:+ ".") "" in
  let objcopy := cross_compile +:+ "objcopy" in
  let strip_cmd := Cmd.argv (Cmd.new objcopy) ["--strip-unneeded"; binary_path; stripped] in
  let* r := run_streaming_command strip_cmd objcopy in
  match r with
  | Err e => let* _ := drop_temp stripped in pret (Err e)
  | Ok _ => pret (Ok stripped)
  end.

Definition sign_ta (config : TaBuildConfig) (stripped_path : path)
    : prog St (Result BuildArtifact) :=
  let? u := read_ta_uuid stripped_path in
  let uuid_str := uuid_to_string u in
  let* ex := look (path_exists (signing_key config)) in
  if negb ex then pret (Err (Error.SigningKeyNotFound (signing_key config)))
  else
    let? sign_script := join_and_check (ta_dev_kit_dir config) ["scripts"; "sign_encrypt.py"]
                          "Sign script" in
    let? dir := pret (ok_or (parent stripped_path) (Error.NoParent stripped_path)) in
    let output_path := join dir (uuid_str +:+ ".ta") in
    let? tmp := unique_tempfile_in dir (uuid_str +:+ ".ta.") ".partial" in
    let sign_cmd := Cmd.argv (Cmd.new "python3")
                      [sign_script; "--uuid"; uuid_str; "--key"; signing_key config;
                       "--in"; stripped_path; "--out"; tmp] in
    let* r := run_streaming_command sign_cmd "sign_encrypt.py" in
    match r with
    | Err e => let* _ := drop_temp tmp in pret (Err e)
    | Ok _ =>
        let? _ := publish_tempfile tmp output_path in
        let? _ := set_ta_file_permissions output_path in
        pret (Ok (mkArtifactFile u output_path))
    end.

Fixpoint available (tools : list string) : prog St bool :=
  match tools with
  | [] => pret true
  | t :: r =>
      let* a := check_command_available t in
      let* b := available r in
      pret (a && b)
  end.

Definition check_toolchain_exists (cross_compile_prefix : string) : prog St (Result unit) :=
  let* ok := available [cross_compile_prefix +:+ "gcc"; cross_compile_prefix +:+ "objcopy"] in
  if ok then pret (Ok tt) else pret (Err Error.ToolchainNotAvailable).

Definition install (install_dir : option path) (artifact : BuildArtifact)
    : prog St (Result unit) :=
  match install_dir with
  | None => pret (Ok tt)
  | Some install_dir =>
      let* ex := look (path_exists install_dir) in
      if negb ex then pret (Err (Error.InstallDirMissing install_dir))
      else
        let dest_path := join install_dir (uuid_to_string (uuid artifact) +:+ ".ta") in
        let* r := on_host (fs_copy (artifact_path artifact) dest_path) in
        let? _ := pret (io_err r) in
        set_ta_file_permissions dest_path
  end.

(** [config.path = absolute_dir(&config.path)?] *)
Definition at_path (config : TaBuildConfig) (p : path) : TaBuildConfig :=
  mkTaConfig (ta_arch config) (ta_debug config) p (ta_env config) (ta_no_default_features config)
    (ta_features config) (ta_std config) (ta_dev_kit_dir config) (signing_key config).

Definition check_manifest (config : TaBuildConfig) : prog St (Result TaBuildConfig) :=
  let? p := absolute_dir (ta_path config) in
  let* ex := look (path_exists (manifest_path p)) in
  if ex then pret (Ok (at_path config p)) else pret (Err (Error.NoCargoToml p)).

Definition build_ta (config : TaBuildConfig) (install_dir : option path)
    : prog St (Result unit) :=
  let? config := check_manifest config in
  let? (_, cross_compile_prefix) :=
    pret (resolve_target_and_cross_compile (ta_arch config) (build_mode config)) in
  let? _ := check_toolchain_exists cross_compile_prefix in
  let? elf_path := build_binary config in
  let? stripped := strip_binary config elf_path in
  with_temp stripped
    (let? artifact := sign_ta config stripped in
     install install_dir artifact).

Definition run_clippy (config : TaBuildConfig) : prog St (Result unit) :=
  let? _ := run_streaming_command (fmt_command (ta_path config)) "cargo fmt" in
  let? (clippy_cmd, temp_dir) := setup_build_command config "clippy" in
  with_temp_dir temp_dir
    (run_streaming_command (apply_clippy_deny_lints clippy_cmd) "cargo clippy").

Definition clippy_ta (config : TaBuildConfig) : prog St (Result unit) :=
  let? config := check_manifest config in
  run_clippy config.

End Ops.
End TaBuilder.

(** ** [ca_builder.rs] *)
Module CaBuilder.
Section Ops.
Context {St : Type} `{!Host St, !Target, !Profile, !Crates}.

Definition setup_ca_cargo_command (config : CaBuildConfig) (command : string) : Result Command :=
  try (target, _) := resolve_target_and_cross_compile (ca_arch config) BuildMode.Ca in
  let cmd := cargo_command_in (ca_path config) in
  let cmd := Cmd.argv cmd
    ([command; "--manifest-path"; manifest_path (ca_path config); "--target"; target]
     ++ (if ca_no_default_features config then ["--no-default-features"] else [])
     ++ match ca_features config with Some f => ["--features"; f] | None => [] end)%list in
  let cmd := Cmd.env cmd "OPTEE_CLIENT_EXPORT" (optee_client_export config) in
  Ok (apply_env cmd (ca_env config)).

Definition build_binary (config : CaBuildConfig) : prog St (Result path) :=
  let? (target, cross_compile) :=
    pret (resolve_target_and_cross_compile (ca_arch config) BuildMode.Ca) in
  let? build_cmd := pret (setup_ca_cargo_command config "build") in
  let build_cmd := if ca_debug config then build_cmd else Cmd.arg build_cmd "--release" in
  let build_cmd := Cmd.argv build_cmd (linker_args target cross_compile) in
  let kind := if ca_plugin config then CargoArtifactKind.Cdylib else CargoArtifactKind.Bin in
  let manifest := manifest_path (ca_path config) in
  let? artifacts := run_cargo_build build_cmd manifest kind in
  pret (unique_cargo_artifact artifacts manifest).

Definition copy_plugin (plugin_src : path) : prog St (Result path) :=
  let? u := read_plugin_uuid plugin_src in
  let plugin_dest := with_file_name plugin_src (uuid_to_string u +:+ ".plugin.so") in
  let? dir := pret (ok_or (parent plugin_src) (Error.NoParent plugin_src)) in
  let? tmp := unique_tempfile_in dir (uuid_to_string u +:+ ".plugin.so.") "" in
  let* r := on_host (fs_copy plugin_src tmp) in
  match r with
  | Err e => let* _ := drop_temp tmp in pret (Err (Error.Io e))
  | Ok _ => let? _ := publish_tempfile tmp plugin_dest in pret (Ok plugin_dest)
  end.

(** Strip in place. *)
Definition strip_binary (config : CaBuildConfig) (binary_path : path) : prog St (Result path) :=
  let? (_, cross_compile) :=
    pret (resolve_target_and_cross_compile (ca_arch config) BuildMode.Ca) in
  let objcopy := cross_compile +:+ "objcopy" in
  let? _ := run_streaming_command
              (Cmd.argv (Cmd.new objcopy) ["--strip-unneeded"; binary_path; binary_path]) objcopy in
  pret (Ok binary_path).

Definition post_build (config : CaBuildConfig) (built_path : path) : prog St (Result path) :=
  if ca_plugin config then copy_plugin built_path else strip_binary config built_path.

Definition install (install_dir : option path) (final_binary : path) : prog St (Result unit) :=
  match install_dir with
  | None => pret (Ok tt)
  | Some install_dir =>
      let* ex := look (path_exists install_dir) in
      if negb ex then pret (Err (Error.InstallDirMissing install_dir))
      else
        let? dest_name := pret (ok_or (file_name final_binary) Error.NoBinaryName) in
        let* r := on_host (fs_copy final_binary (join install_dir dest_name)) in
        pret (io_err r)
  end.

Definition at_path (config : CaBuildConfig) (p : path) : CaBuildConfig :=
  mkCaConfig (ca_arch config) (ca_debug config) p (ca_env config) (ca_no_default_features config)
    (ca_features config) (optee_client_export config) (ca_plugin config).

Definition build_ca (config : CaBuildConfig) (install_dir : option path) : prog St (Result unit) :=
  let? p := absolute_dir (ca_path config) in
  let config := at_path config p in
  let? built_path := build_binary config in
  let? final_binary := post_build config built_path in
  install install_dir final_binary.

Definition run_clippy (config : CaBuildConfig) : prog St (Result unit) :=
  let? _ := run_streaming_command (fmt_command (ca_path config)) "cargo fmt" in
  let? clippy_cmd := pret (setup_ca_cargo_command config "clippy") in
  run_streaming_command (apply_clippy_deny_lints clippy_cmd) "cargo clippy".

Definition clippy_ca (config : CaBuildConfig) : prog St (Result unit) :=
  let? p := absolute_dir (ca_path config) in
  run_clippy (at_path config p).

End Ops.
End CaBuilder.

(** ** [cli.rs] *)
Module Cli.

Inductive UuidKind : Type := UuidTa | UuidPlugin.

Record CommonBuildArgs : Type := mkCommon {
  c_manifest_path : option path;
  c_arch : option Arch;
  c_debug : bool;
  c_env : list (string * string);
  c_no_default_features : bool;
  c_features : option string
}.

Record TABuildArgs : Type := mkTaArgs {
  t_common : CommonBuildArgs;
  t_std : bool;
  t_no_std : bool;
  t_ta_dev_kit_dir : option path;
  t_signing_key : option path
}.

(** Also [PluginBuildArgs], which has the same fields. *)
Record CABuildArgs : Type := mkCaArgs {
  a_common : CommonBuildArgs;
  a_optee_client_export : option path
}.

(** [BuildCommand], [InstallCommand] and [ClippyCommand]. *)
Inductive Component : Type :=
| TA (build_cmd : TABuildArgs)
| CA (build_cmd : CABuildArgs)
| Plugin (build_cmd : CABuildArgs).

Inductive Command : Type :=
| Build (c : Component)
| Install (c : Component) (target_dir : path)
| Clippy (c : Component)
| Clean (manifest_path : option path)
| InspectUuid (kind : UuidKind) (elf : path).

Definition parse_env_var (s : string) : option (string * string) := split_once "="%char s.

End Cli.

(** ** [main.rs] *)
Module Main.
Section Ops.
Context {St : Type} `{!Host St, !Target, !Profile, !Crates}.

(** Only the first [optee] is dropped. *)
Fixpoint filter_args (found_optee : bool) (l : list string) : list string :=
  match l with
  | [] => []
  | x :: r =>
      if found_optee then x :: filter_args true r
      else if (x =? "optee")%string then filter_args true r
      else x :: filter_args false r
  end.

Definition cli_debug_override (debug : bool) : option bool := if debug then Some true else None.

Definition std_mode (b : Cli.TABuildArgs) : option bool :=
  match Cli.t_std b, Cli.t_no_std b with
  | true, false => Some true
  | false, true => Some false
  | _, _ => None
  end.

Definition resolve_project_path (manifest_path : option path) : prog St (Result path) :=
  match manifest_path with
  | Some manifest =>
      let? dir := pret (ok_or (parent manifest) Error.InvalidManifestPath) in
      if str_is_empty dir then look (fun s => io_err (os_current_dir s))
      else look (fun s => map_err (fun _ => Error.InvalidManifestPath) (canonicalize dir s))
  | None => look (fun s => io_err (os_current_dir s))
  end.

Definition overrides (c : Cli.CommonBuildArgs) : BuildOverrides :=
  mkOverrides (Cli.c_arch c) (cli_debug_override (Cli.c_debug c)) (Cli.c_env c)
    (Cli.c_no_default_features c) (Cli.c_features c).

Definition execute_ta_command (common : Cli.CommonBuildArgs) (std : option bool)
    (ta_dev_kit_dir signing_key install_target_dir : option path) (lint_only : bool)
    : prog St (Result unit) :=
  let? project_path := resolve_project_path (Cli.c_manifest_path common) in
  let? ta_config := look (resolve_ta project_path (overrides common) std ta_dev_kit_dir
                            signing_key (negb lint_only)) in
  if lint_only then TaBuilder.clippy_ta ta_config
  else TaBuilder.build_ta ta_config install_target_dir.

Definition execute_ca_command (common : Cli.CommonBuildArgs) (optee_client_export : option path)
    (plugin : bool) (install_target_dir : option path) (lint_only : bool)
    : prog St (Result unit) :=
  let? project_path := resolve_project_path (Cli.c_manifest_path common) in
  let? ca_config := look (resolve_ca project_path (overrides common) optee_client_export plugin) in
  if lint_only then CaBuilder.clippy_ca ca_config
  else CaBuilder.build_ca ca_config install_target_dir.

(** A component's command, with the directory it is installed to. *)
Definition execute_component (c : Cli.Component) (install_target_dir : option path)
    (lint_only : bool) : prog St (Result unit) :=
  match c with
  | Cli.TA b =>
      execute_ta_command (Cli.t_common b) (std_mode b) (Cli.t_ta_dev_kit_dir b)
        (if lint_only then None else Cli.t_signing_key b) install_target_dir lint_only
  | Cli.CA b =>
      execute_ca_command (Cli.a_common b) (Cli.a_optee_client_export b) false
        install_target_dir lint_only
  | Cli.Plugin b =>
      execute_ca_command (Cli.a_common b) (Cli.a_optee_client_export b) true
        install_target_dir lint_only
  end.

(** What is written for the caller to read. *)
Definition inspect_uuid (kind : Cli.UuidKind) (elf : path) : prog St (Result string) :=
  let? u := match kind with
            | Cli.UuidTa => read_ta_uuid elf
            | Cli.UuidPlugin => read_plugin_uuid elf
            end in
  pret (Ok (uuid_to_string u)).

Definition execute_command (cmd : Cli.Command) : prog St (Result string) :=
  let quiet m := (let? _ := m in pret (Ok "")) in
  match cmd with
  | Cli.Build c => quiet (execute_component c None false)
  | Cli.Install c target_dir =>
      quiet (let? d := absolute_from_cwd target_dir in execute_component c (Some d) false)
  | Cli.Clippy c => quiet (execute_component c None true)
  | Cli.Clean manifest_path =>
      quiet (let? project_path := resolve_project_path manifest_path in clean_project project_path)
  | Cli.InspectUuid kind elf => inspect_uuid kind elf
  end.

End Ops.
End Main.
