(* ===== verification/CargoConfigSpec.v ===== *)
(** * The settings of cargo-optee, by priority

    A reference configuration that reads every setting from the sources in their
    order, and the proof that [resolve] computes it. *)

From Stdlib Require Import Ascii.
From S2P Require Import Prelude Host CargoConfig.
Open Scope string_scope.

(** ** Sources

    A source of settings: the command line, a table of Cargo.toml, the
    environment, or the defaults.  The effective value of a setting is that of
    the first source that has it. *)
Record settings : Type := mkSettings {
  s_arch : option Arch;
  s_debug : option bool;
  s_std : option bool;
  s_kit : option path;
  s_export : option path;
  s_key : option path
}.

Definition layered {A} (f : settings -> option A) (sources : list settings) : option A :=
  head (omap f sources).

(** A table entry that must have a type, if it is there. *)
Definition entry_ok {A} (f : Value -> option A) (v : option Value) : bool :=
  match v with Some x => bool_decide (is_Some (f x)) | None => true end.

Section Settings.
Context {St : Type} `{!Host St}.

Definition table_of (metadata : Value) (c : ComponentType) : option Value :=
  o ← get metadata "optee"; get o (ComponentType.as_str c).

(** [uuid-path] is rejected; [debug] and [std] must be booleans; the architecture
    must be one, but is not looked at when the command line gives it. *)
Definition table_ok (table : Value) (cli_arch : option Arch) : bool :=
  bool_decide (get table "uuid-path" = None)
  && match cli_arch with
     | Some _ => true
     | None => entry_ok (fun v => s ← as_str v; Arch.from_str s) (get table "arch")
     end
  && entry_ok as_bool (get table "debug") && entry_ok as_bool (get table "std").

(** What a table sets, when [a] is the architecture that is built for. *)
Definition table_settings (t : option Value) (a : Arch) : settings := {|
  s_arch := t ← t; v ← get t "arch"; s ← as_str v; Arch.from_str s;
  s_debug := t ← t; v ← get t "debug"; as_bool v;
  s_std := t ← t; v ← get t "std"; as_bool v;
  s_kit := t ← t; arch_path t "ta-dev-kit-dir" a;
  s_export := t ← t; arch_path t "optee-client-export" a;
  s_key := t ← t; non_empty (v ← get t "signing-key"; as_str v)
|}.

Definition environment_settings : settings := {|
  s_arch := None; s_debug := None; s_std := None;
  s_kit := var_os "TA_DEV_KIT_DIR";
  s_export := var_os "OPTEE_CLIENT_EXPORT";
  s_key := var_os "TA_SIGN_KEY"
|}.

Definition default_settings (kit : path) : settings := {|
  s_arch := Some Arch.Aarch64; s_debug := Some false; s_std := Some false;
  s_kit := None; s_export := None;
  s_key := Some (default_key kit)
|}.

Definition sources (cli : settings) (t : option Value) (a : Arch) (kit : path) : list settings :=
  [cli; table_settings t a; environment_settings; default_settings kit].

(** A configured path, absolute, if it is there and of the right type. *)
Definition located (p project_path : path) (ty : PathType) (s : St) : option path :=
  let q := if is_absolute p then p else join project_path p in
  if path_exists q s && (match ty with Directory => is_dir q s | File => is_file q s end)
  then Some q else None.

(** The metadata that is used: none of a well-formed table is also fine. *)
Definition project_table (project_path : path) (c : ComponentType) (cli_arch : option Arch) (s : St)
    : option (option Value) :=
  match discover_app_metadata project_path s with
  | Err _ => None
  | Ok md => match table_of md c with
             | Some t => if table_ok t cli_arch then Some (Some t) else None
             | None => Some None
             end
  end.

Definition table_env (t : option Value) : list (string * string) :=
  match t with Some t => metadata_env t | None => [] end.

(** The reference configuration of a TA: every setting comes from the sources in
    their order. *)
Definition ta_reference (project_path : path) (o : BuildOverrides) (cmd_std : option bool)
    (cmd_ta_dev_kit_dir cmd_signing_key : option path) (need_signing_key : bool) (s : St)
    : option TaBuildConfig :=
  t ← project_table project_path ComponentType.Ta (o_arch o) s;
  let cli := mkSettings (o_arch o) (o_debug o) cmd_std cmd_ta_dev_kit_dir None cmd_signing_key in
  arch ← layered s_arch (sources cli t Arch.Aarch64 "");
  debug ← layered s_debug (sources cli t arch "");
  std ← layered s_std (sources cli t arch "");
  kit ← layered s_kit (sources cli t arch "");
  kit_dir ← located kit project_path Directory s;
  key ← (if need_signing_key
         then key ← layered s_key (sources cli t arch kit); located key project_path File s
         else Some "");
  Some (mkTaConfig arch debug project_path (table_env t ++ o_env o)%list
          (o_no_default_features o) (o_features o) std kit_dir key).

(** And of a CA or a plugin. *)
Definition ca_reference (project_path : path) (o : BuildOverrides)
    (cmd_optee_client_export : option path) (plugin : bool) (s : St) : option CaBuildConfig :=
  let c := if plugin then ComponentType.Plugin else ComponentType.Ca in
  t ← project_table project_path c (o_arch o) s;
  let cli := mkSettings (o_arch o) (o_debug o) None None cmd_optee_client_export None in
  arch ← layered s_arch (sources cli t Arch.Aarch64 "");
  debug ← layered s_debug (sources cli t arch "");
  export ← layered s_export (sources cli t arch "");
  export_dir ← located export project_path Directory s;
  Some (mkCaConfig arch debug project_path (table_env t ++ o_env o)%list
          (o_no_default_features o) (o_features o) export_dir plugin).

(** [Result::ok]. *)
Definition to_option {A E} (r : result A E) : option A :=
  match r with Ok a => Some a | Err _ => None end.

(** *** The two agree *)

Lemma located_ok p project_path ty ctx s :
  to_option (resolve_path_relative_to_project p project_path ty ctx s)
  = located p project_path ty s.
Proof.
  unfold resolve_path_relative_to_project, located.
  set (q := if is_absolute p then p else join project_path p). clearbody q.
  destruct (path_exists q s); [|done]. destruct ty; cbn [negb andb].
  - by destruct (is_dir q s).
  - by destruct (is_file q s).
Qed.

Lemma metadata_bool_ok t k :
  to_option (metadata_bool t k)
  = if entry_ok as_bool (get t k) then Some (default false (v ← get t k; as_bool v)) else None.
Proof. unfold metadata_bool, entry_ok. destruct (get t k) as [[]|]; done. Qed.

Lemma metadata_arch_ok t a :
  to_option (metadata_arch t a)
  = match a with
    | Some a => Some a
    | None => if entry_ok (fun v => s ← as_str v; Arch.from_str s) (get t "arch")
              then Some (default Arch.Aarch64 (s_arch (table_settings (Some t) Arch.Aarch64)))
              else None
    end.
Proof.
  unfold metadata_arch, entry_ok, table_settings. destruct a as [a|]; [done|].
  cbn [mbind option_bind s_arch].
  destruct (get t "arch") as [[]|]; try done.
  cbn [as_str ok_or result_bind mbind option_bind]. by destruct (Arch.from_str s).
Qed.

(** The configuration a table stands for. *)
Definition table_config (t : Value) (c : ComponentType) (cli_arch : option Arch) : MetadataConfig :=
  let set := table_settings (Some t) in
  let arch := unwrap_or (or_else cli_arch (s_arch (set Arch.Aarch64))) Arch.Aarch64 in
  let ta := bool_decide (c = ComponentType.Ta) in
  mkMetadataConfig arch (default false (s_debug (set arch))) (default false (s_std (set arch)))
    (if ta then s_kit (set arch) else None) (if ta then None else s_export (set arch))
    (if ta then s_key (set arch) else None) (metadata_env t).

Lemma to_option_bind {A B} (r : Result A) (f : A -> Result B) :
  to_option (try x := r in f x) = x ← to_option r; to_option (f x).
Proof. by destruct r. Qed.

Lemma extract_ok metadata c a :
  to_option (extract_build_config metadata c a)
  = match table_of metadata c with
    | Some t => if table_ok t a then Some (Some (table_config t c a)) else None
    | None => Some None
    end.
Proof.
  unfold extract_build_config, table_of. destruct (get metadata "optee") as [o|]; [|done].
  cbn [mbind option_bind]. destruct (get o (ComponentType.as_str c)) as [t|]; [|done].
  unfold table_ok. destruct (get t "uuid-path") as [u|] eqn:Eu.
  { by rewrite bool_decide_eq_false_2. }
  rewrite bool_decide_eq_true_2 by done. rewrite !to_option_bind, metadata_arch_ok. cbn [andb].
  assert (forall arch, unwrap_or (or_else a (s_arch (table_settings (Some t) Arch.Aarch64)))
    Arch.Aarch64 = arch -> (x ← Some arch; to_option (
      try debug := metadata_bool t "debug" in
      try std := metadata_bool t "std" in
      Ok (Some (mkMetadataConfig x debug std
        (if decide (c = ComponentType.Ta) then arch_path t "ta-dev-kit-dir" x else None)
        (if decide (c = ComponentType.Ca \/ c = ComponentType.Plugin)
         then arch_path t "optee-client-export" x else None)
        (if decide (c = ComponentType.Ta)
         then non_empty (v ← get t "signing-key"; as_str v) else None) (metadata_env t)))))
    = (if entry_ok as_bool (get t "debug") && entry_ok as_bool (get t "std")
       then Some (Some (table_config t c a)) else None)) as Hrest.
  { intros arch <-. cbn [mbind option_bind]. rewrite to_option_bind, metadata_bool_ok.
    destruct (entry_ok as_bool (get t "debug")); [|done]. cbn [mbind option_bind andb].
    rewrite to_option_bind, metadata_bool_ok.
    destruct (entry_ok as_bool (get t "std")); [|done]. cbn [mbind option_bind andb to_option].
    unfold table_config. by destruct c. }
  destruct a as [a|]; [by rewrite (Hrest a)|].
  destruct (entry_ok _ (get t "arch")) eqn:Ea; [|done]. cbn [andb].
  apply Hrest. by destruct (s_arch _).
Qed.

Lemma metadata_resolve_ok project_path c a s :
  to_option (metadata_resolve project_path c a s)
  = t ← project_table project_path c a s; Some (option_map (fun t => table_config t c a) t).
Proof.
  unfold metadata_resolve, project_table. rewrite to_option_bind.
  destruct (discover_app_metadata project_path s) as [md|]; [|done]. cbn [to_option mbind option_bind].
  rewrite extract_ok. destruct (table_of md c) as [t|]; [|done]. by destruct (table_ok t a).
Qed.

Lemma to_option_ok_or {A} (x : option A) e : to_option (ok_or x e : Result A) = x.
Proof. by destruct x. Qed.

(** Reading one setting through the sources. *)
Lemma layered_sources {A} (f : settings -> option A) cli t a kit :
  layered f (sources cli t a kit)
  = or_else (or_else (or_else (f cli) (f (table_settings t a))) (f environment_settings))
      (f (default_settings kit)).
Proof.
  unfold layered, sources. cbn [omap list_omap]. destruct (f cli); [done|].
  destruct (f (table_settings t a)); [done|]. destruct (f environment_settings); [done|].
  by destruct (f (default_settings kit)).
Qed.

(** With the architecture and the flags of the command line and of the table. *)
Lemma flag_layers {A} (f : settings -> option A) (cl : option A) (g : MetadataConfig -> A) t c
    (arch : Arch) (d : A) cli kit ca :
  f cli = cl -> f environment_settings = None -> f (default_settings kit) = Some d ->
  (forall t', t = Some t' -> cl = None -> g (table_config t' c ca) = default d (f (table_settings t arch))) ->
  (t = None -> f (table_settings t arch) = None) ->
  layered f (sources cli t arch kit)
  = Some (unwrap_or (or_else cl (option_map g (option_map (fun t => table_config t c ca) t))) d).
Proof.
  intros Hc He Hd Ht Hn. rewrite layered_sources, Hc, He, Hd. destruct cl as [x|]; [done|].
  destruct t as [t|]; cbn.
  - rewrite (Ht t) by done. by destruct (f (table_settings (Some t) arch)).
  - by rewrite Hn.
Qed.

(** The same for a path, which the table may leave out. *)
Lemma path_layers (f : settings -> option path) cl (g : MetadataConfig -> option path) env t c cli
    (arch : Arch) kit ca :
  f cli = cl -> f environment_settings = env ->
  (forall t', t = Some t' -> g (table_config t' c ca) = f (table_settings t arch)) ->
  (t = None -> f (table_settings t arch) = None) ->
  layered f (sources cli t arch kit)
  = or_else (or_else (or_else cl (option_map (fun t => table_config t c ca) t ≫= g)) env)
      (f (default_settings kit)).
Proof.
  intros Hc He Ht Hn. rewrite layered_sources, Hc, He. destruct t as [t|]; cbn.
  - by rewrite (Ht t).
  - by rewrite Hn.
Qed.

Lemma or_else_None {A} (x : option A) : or_else x None = x.
Proof. by destruct x. Qed.

Lemma or_else_Some {A} (x : option A) y : or_else x (Some y) = Some (unwrap_or x y).
Proof. by destruct x. Qed.

Lemma table_env_layers t c a :
  unwrap_or (option_map md_env (option_map (fun t => table_config t c a) t)) [] = table_env t.
Proof. by destruct t. Qed.

(** Evaluate the architecture, and a flag, of the reference. *)
Ltac read_arch t c o :=
  rewrite (flag_layers s_arch (o_arch o) md_arch t c _ Arch.Aarch64 _ _ (o_arch o))
    by (done || (intros ->; done)
        || (intros t' -> Hn; cbn [table_config md_arch]; rewrite Hn; by destruct (s_arch _)));
  cbn [mbind option_bind].
Ltac read_flag f cl g t c o :=
  rewrite (flag_layers f cl g t c _ false _ _ (o_arch o))
    by (done || (intros ->; done) || (intros ? -> ?; done));
  cbn [mbind option_bind].

Lemma ta_from_layers project_path o cmd_std kit key need_key s :
  to_option (resolve_ta project_path o cmd_std kit key need_key s)
  = ta_reference project_path o cmd_std kit key need_key s.
Proof.
  unfold resolve_ta, ta_reference. rewrite to_option_bind, metadata_resolve_ok.
  destruct (project_table project_path ComponentType.Ta (o_arch o) s) as [t|]; [|done].
  cbn [mbind option_bind]. cbv zeta.
  read_arch t ComponentType.Ta o.
  read_flag s_debug (o_debug o) md_debug t ComponentType.Ta o.
  read_flag s_std cmd_std md_std t ComponentType.Ta o.
  rewrite (path_layers s_kit kit md_ta_dev_kit_dir (var_os "TA_DEV_KIT_DIR") t ComponentType.Ta
    _ _ _ (o_arch o))
    by (done || (intros ->; done) || (intros ? ->; cbn -[arch_path]; by destruct (o_arch o))).
  rewrite to_option_bind, to_option_ok_or. unfold resolve_config_path. cbn [s_kit default_settings].
  rewrite or_else_None. apply option_bind_ext_fun; intros kit_config.
  rewrite to_option_bind, located_ok. apply option_bind_ext_fun; intros kit_dir.
  rewrite to_option_bind. destruct need_key.
  2: { cbn. by rewrite table_env_layers. }
  rewrite (path_layers s_key key md_signing_key (var_os "TA_SIGN_KEY") t ComponentType.Ta
    _ _ _ (o_arch o)) by (done || (intros ->; done) || (intros ? ->; done)).
  cbn [s_key default_settings]. rewrite located_ok, or_else_Some.
  cbn [mbind option_bind]. by rewrite table_env_layers.
Qed.

Lemma ca_from_layers project_path o export plugin s :
  to_option (resolve_ca project_path o export plugin s)
  = ca_reference project_path o export plugin s.
Proof.
  unfold resolve_ca, ca_reference. cbv zeta.
  set (c := if plugin then ComponentType.Plugin else ComponentType.Ca).
  assert (bool_decide (c = ComponentType.Ta) = false) as Hc by (by destruct plugin).
  clearbody c. rewrite to_option_bind, metadata_resolve_ok.
  destruct (project_table project_path c (o_arch o) s) as [t|]; [|done].
  cbn [mbind option_bind]. read_arch t c o. read_flag s_debug (o_debug o) md_debug t c o.
  rewrite (path_layers s_export export md_optee_client_export (var_os "OPTEE_CLIENT_EXPORT") t c
    _ _ _ (o_arch o))
    by (done || (intros ->; done)
        || (intros ? ->; cbn -[arch_path]; rewrite Hc; by destruct (o_arch o))).
  rewrite to_option_bind, to_option_ok_or. unfold resolve_config_path. cbn [s_export default_settings].
  rewrite or_else_None. apply option_bind_ext_fun; intros export_config.
  rewrite to_option_bind, located_ok. apply option_bind_ext_fun; intros export_dir.
  cbn. by rewrite table_env_layers.
Qed.

(** C27: the settings of every build are those of the first source that has them,
    in the order command line, Cargo.toml, environment, default: [resolve]
    computes the reference configuration when there is one and fails when there
    is none (a table that is not well formed, no path for the kit or the client
    export, a path that is not there).  The paths in the table are those of the
    architecture that is finally built for, and the environment variables are
    those of the table followed by those of the command line. *)
Theorem config_from_layers project_path o cmd_std kit key need_key export plugin s :
  to_option (resolve_ta project_path o cmd_std kit key need_key s)
  = ta_reference project_path o cmd_std kit key need_key s /\
  to_option (resolve_ca project_path o export plugin s)
  = ca_reference project_path o export plugin s.
Proof.
  split; [apply ta_from_layers|apply ca_from_layers].
Qed.

(** An empty [TA_DEV_KIT_DIR] counts as a path: it names the project directory
    itself, although an empty path in Cargo.toml and an empty [CROSS_COMPILE] count
    as absent. *)
Lemma empty_variable_is_project project_path s :
  is_absolute project_path = true -> ends_with "/" project_path = false ->
  path_exists (project_path +:+ "/") s = true -> is_dir (project_path +:+ "/") s = true ->
  located "" project_path Directory s = Some (project_path +:+ "/").
Proof.
  intros Ha He Hx Hd. unfold located. change (is_absolute "") with false. cbv iota.
  unfold join. change (is_absolute "") with false. cbv iota. rewrite He.
  assert (str_is_empty project_path = false) as -> by (by destruct project_path).
  cbn [orb]. change ("/" +:+ "") with "/". by rewrite Hx, Hd.
Qed.

End Settings.
