(* ===== verification/CargoToolSpec.v ===== *)
(** * What cargo-optee runs

    The environment and arguments of the commands, their order, the choice of the
    artifact, and what becomes of the temporary files. *)

From Stdlib Require Import Ascii.
From S2P Require Import Prelude Host ElfUuid CargoConfig CargoBuild CargoTool CargoConfigSpec.
Open Scope string_scope.

(** ** The environment and the arguments of cargo *)

(** The last value that a list gives to a variable. *)
Fixpoint last_binding (k : string) (l : list (string * string)) : option string :=
  match l with
  | [] => None
  | (k', v) :: r => or_else (last_binding k r) (if decide (k' = k) then Some v else None)
  end.

Lemma last_binding_app k l l' :
  last_binding k (l ++ l')%list = or_else (last_binding k l') (last_binding k l).
Proof.
  induction l as [|[k' v] l IH]; cbn; [by rewrite or_else_None|].
  rewrite IH. by destruct (last_binding k l').
Qed.

Lemma apply_env_spec l cmd :
  program (apply_env cmd l) = program cmd /\ args (apply_env cmd l) = args cmd /\
  cwd (apply_env cmd l) = cwd cmd /\
  forall k, envs (apply_env cmd l) !! k = or_else (last_binding k l) (envs cmd !! k).
Proof.
  revert cmd. induction l as [|[k' v] l IH]; intros cmd; [done|].
  change (apply_env cmd ((k', v) :: l)) with (apply_env (Cmd.env cmd k' v) l).
  destruct (IH (Cmd.env cmd k' v)) as (-> & -> & -> & He). split_and!; [done..|].
  intros k. rewrite He. cbn [last_binding Cmd.env envs].
  destruct (last_binding k l); [done|]. cbn [or_else]. case_decide as E.
  - subst. by rewrite lookup_insert_eq.
  - by rewrite lookup_insert_ne.
Qed.

(** Every architecture has a target in every mode. *)
Definition target_of (arch : Arch) (mode : BuildMode) : string :=
  match arch, mode with
  | Arch.Arm, BuildMode.TaStd => "arm-unknown-optee"
  | Arch.Arm, _ => "arm-unknown-linux-gnueabihf"
  | Arch.Aarch64, BuildMode.TaStd => "aarch64-unknown-optee"
  | Arch.Aarch64, _ => "aarch64-unknown-linux-gnu"
  end.
Definition default_prefix (arch : Arch) : string :=
  match arch with Arch.Arm => "arm-linux-gnueabihf-" | Arch.Aarch64 => "aarch64-linux-gnu-" end.

Section Commands.
Context {St : Type} {HO : Host St} {TG : Target} {PF : Profile} {CR : Crates}.

(** [CROSS_COMPILE], unless empty, or the prefix of the architecture. *)
Definition prefix_of (arch : Arch) : string :=
  unwrap_or (non_empty (env_var "CROSS_COMPILE")) (default_prefix arch).

Lemma target_known arch mode :
  resolve_target_and_cross_compile arch mode = Ok (target_of arch mode, prefix_of arch).
Proof.
  unfold resolve_target_and_cross_compile, resolve_target_and_cross_compile_with.
  by destruct arch, mode.
Qed.

Lemma resolve_ta_env project_path o cmd_std kit key need_key s config :
  resolve_ta project_path o cmd_std kit key need_key s = Ok config ->
  exists t, project_table project_path ComponentType.Ta (o_arch o) s = Some t /\
    ta_env config = (table_env t ++ o_env o)%list.
Proof.
  intros E. pose proof (ta_from_layers project_path o cmd_std kit key need_key s) as HR.
  rewrite E in HR. unfold ta_reference in HR.
  destruct (project_table project_path ComponentType.Ta (o_arch o) s) as [t|]; [|done].
  exists t. split; [done|]. symmetry in HR. cbn [mbind option_bind to_option] in HR. cbv zeta in HR.
  repeat (apply bind_Some in HR as (? & ? & HR)). by injection HR as <-.
Qed.

Lemma resolve_ca_env project_path o export plugin s config :
  resolve_ca project_path o export plugin s = Ok config ->
  exists t, project_table project_path (if plugin then ComponentType.Plugin else ComponentType.Ca)
    (o_arch o) s = Some t /\
    ca_env config = (table_env t ++ o_env o)%list.
Proof.
  intros E. pose proof (ca_from_layers project_path o export plugin s) as HR.
  rewrite E in HR. unfold ca_reference in HR. cbv zeta in HR.
  destruct (project_table project_path _ (o_arch o) s) as [t|]; [|done].
  exists t. split; [done|]. symmetry in HR. cbn [mbind option_bind to_option] in HR.
  repeat (apply bind_Some in HR as (? & ? & HR)). by injection HR as <-.
Qed.

(** *** Effects

    What happened between two states: the commands run, and the temporary files
    that are there and were not. *)
Context {HK : HostOk St}.

Definition eff (s s' : St) (evs : list event) (left : gset path) : Prop :=
  history s' = (history s ++ evs)%list /\ temps s' = left ∪ temps s /\ left ## temps s.

Lemma eff_refl s : eff s s [] ∅.
Proof. split_and!; [by rewrite app_nil_r|set_solver|set_solver]. Qed.

Lemma eff_trans s s1 s2 e1 e2 l1 l2 :
  eff s s1 e1 l1 -> eff s1 s2 e2 l2 -> eff s s2 (e1 ++ e2)%list (l2 ∪ l1).
Proof.
  intros (H1 & T1 & D1) (H2 & T2 & D2). split_and!.
  - by rewrite H2, H1, (assoc_L (++)%list).
  - rewrite T2, T1. set_solver.
  - set_solver.
Qed.

Lemma eff_same s s' s2 evs left :
  eff s s' evs left -> history s2 = history s' -> temps s2 = temps s' -> eff s s2 evs left.
Proof. intros (H1 & T1 & D1) H2 T2. split_and!; [congruence|congruence|done]. Qed.

Lemma eff_drop s s' evs left p :
  eff s s' evs ({[p]} ∪ left) -> p ∉ left -> eff s (os_drop_temp p s') evs left.
Proof.
  intros (H1 & T1 & D1) Hp. destruct (drop_temp_ok p s') as [H2 T2].
  split_and!; [congruence|rewrite T2, T1; set_solver|set_solver].
Qed.

Lemma eff_create s s1 s2 evs left p :
  eff s s1 evs left -> history s2 = history s1 -> p ∉ temps s1 -> temps s2 = {[p]} ∪ temps s1 ->
  eff s s2 evs ({[p]} ∪ left) /\ p ∉ left.
Proof.
  intros (H1 & T1 & D1) H2 Hp T2. split; [split_and!|].
  - congruence.
  - rewrite T2, T1. set_solver.
  - set_solver.
  - set_solver.
Qed.

Lemma eff_run s s1 s2 evs left e :
  eff s s1 evs left -> history s2 = (history s1 ++ [e])%list -> temps s2 = temps s1 ->
  eff s s2 (evs ++ [e])%list left.
Proof.
  intros (H1 & T1 & D1) H2 T2. split_and!; [by rewrite H2, H1, (assoc_L (++)%list)|congruence|done].
Qed.

(** Steps of a program that has had an effect since [s0]. *)
Section Steps.
Variables (s0 : St) (evs : list event) (left : gset path).

Definition succeeded (e : event) : bool :=
  match e with Ran _ (Ok st) => success st | Ran _ (Err _) => false end.

(** An error that leaves a temporary file behind. *)
Definition publish_failed {A} (r : Result A) (tmp : path) : Prop :=
  exists dest n, r = Err (Error.Context ("failed to publish " +:+ tmp +:+ " to " +:+ dest) n).

Lemma run_streaming_does cmd name s :
  eff s0 s evs left ->
  does (run_streaming_command cmd name) s (fun r s' =>
    exists st, eff s0 s' (evs ++ [Ran cmd st]) left /\
      (is_ok r = true -> succeeded (Ran cmd st) = true)).
Proof.
  intros He. unfold run_streaming_command. apply does_bind with (R := fun r s' =>
    eff s0 s' (evs ++ [Ran cmd r])%list left).
  { apply does_host. intros r s' E. destruct (status_ok _ _ _ _ E). by eapply eff_run. }
  intros r s' He'. apply does_try_pure; [by destruct r; intros ? [=]; exists (Err e); subst|].
  intros status Hr. destruct r as [st|]; [|done]. injection Hr as ->.
  destruct (success status) eqn:Es; apply does_ret; by exists (Ok status).
Qed.

Lemma tempfile_does d pre suf s :
  eff s0 s evs left ->
  does (unique_tempfile_in d pre suf) s (fun r s' =>
    match r with
    | Ok p => eff s0 s' evs ({[p]} ∪ left) /\ p ∉ left
    | Err _ => eff s0 s' evs left
    end).
Proof.
  intros He. unfold unique_tempfile_in. apply does_bind with (R := fun r s' =>
    match r with
    | Ok p => eff s0 s' evs ({[p]} ∪ left) /\ p ∉ left
    | Err _ => eff s0 s' evs left
    end).
  - apply does_host. intros r s' E. destruct (tempfile_in_ok _ _ _ _ _ _ E) as [Hh Ht].
    destruct r as [p|]; [destruct Ht; by eapply eff_create|by eapply eff_same].
  - intros r s' Hr. apply does_ret. by destruct r.
Qed.

Lemma drop_does p s :
  eff s0 s evs ({[p]} ∪ left) -> p ∉ left ->
  does (drop_temp p) s (fun _ s' => eff s0 s' evs left).
Proof. intros. apply does_host. intros a s' [= <- <-]. by apply eff_drop. Qed.

Lemma with_temp_does {A} p (m : prog St A) s (Q : A -> list event -> gset path -> Prop) :
  does m s (fun r s' => exists evs' left', eff s0 s' evs' ({[p]} ∪ left') /\ (p ∉ left') /\
                          Q r evs' left') ->
  does (with_temp p m) s (fun r s' => exists evs' left', eff s0 s' evs' left' /\ Q r evs' left').
Proof.
  intros Hm. unfold with_temp. eapply does_bind; [exact Hm|]. cbn beta.
  intros r s1 (evs' & left' & He & Hp & HQ).
  apply does_bind with (R := fun _ s' => eff s0 s' evs' left').
  - apply does_host. intros a s' [= <- <-]. by apply eff_drop.
  - intros a s2 He2. apply does_ret. eauto.
Qed.

(** A call that neither runs a command nor touches a temporary file. *)
Lemma quiet_does {A} (f : St -> io A * St) s :
  (forall r s', f s = (r, s') -> history s' = history s /\ temps s' = temps s) ->
  eff s0 s evs left -> does (on_host f) s (fun _ s' => eff s0 s' evs left).
Proof.
  intros Hf He. apply does_host. intros r s' E. destruct (Hf _ _ E). by eapply eff_same.
Qed.

Lemma permissions_does p s :
  eff s0 s evs left -> does (set_ta_file_permissions p) s (fun _ s' => eff s0 s' evs left).
Proof.
  intros He. eapply does_bind; [apply quiet_does; [apply set_mode_ok|exact He]|].
  intros r s' Hr. by apply does_ret.
Qed.

Lemma publish_does tmp dest s :
  eff s0 s evs ({[tmp]} ∪ left) -> tmp ∉ left ->
  does (publish_tempfile tmp dest) s (fun r s' =>
    eff s0 s' evs left \/ (eff s0 s' evs ({[tmp]} ∪ left) /\ publish_failed r tmp)).
Proof.
  intros He Hn. unfold publish_tempfile. apply does_bind with (R := fun _ s' =>
    eff s0 s' evs ({[tmp]} ∪ left)).
  { apply does_host. intros r s' E. destruct (keep_ok _ _ _ _ E). by eapply eff_same. }
  intros [[]|e] s1 H1.
  - eapply does_bind; [apply does_host; intros r s' E; exact (rename_ok _ _ _ _ _ E)|].
    cbn beta. intros r s2 [Hh Ht]. apply does_ret. destruct H1 as (Hh1 & Ht1 & Hd).
    destruct r as [[]|n].
    + left. split_and!; [congruence|rewrite Ht, Ht1; set_solver|set_solver].
    + right. split; [split_and!; [congruence|congruence|done]|]. by exists dest, n.
  - eapply does_bind; [by apply drop_does|]. intros a s2 H2. apply does_ret. by left.
Qed.

End Steps.

(** *** The builder of TAs *)

Lemma custom_targets_does s0 evs left s :
  eff s0 s evs left ->
  does setup_custom_targets s (fun r s' =>
    match r with
    | Ok t => eff s0 s' evs ({[t]} ∪ left) /\ t ∉ left
    | Err _ => eff s0 s' evs left
    end).
Proof.
  intros He. unfold setup_custom_targets. eapply does_bind.
  { apply does_host. intros r s' E. exact (tempdir_ok _ _ _ E). }
  cbn beta. intros r s1 [Hh Ht]. apply does_try_pure.
  { intros e Hr. destruct r; [done|]. by eapply eff_same. }
  intros t Hr. destruct r as [t'|]; [|done]. injection Hr as ->. destruct Ht as [Hn Ht].
  destruct (eff_create _ _ _ _ _ _ He Hh Hn Ht) as [H1 Hl].
  eapply does_bind; [apply quiet_does; [apply write_ok|exact H1]|]. cbn beta. intros [[]|e] s2 H2.
  - eapply does_bind; [apply quiet_does; [apply write_ok|exact H2]|]. cbn beta. intros [[]|e] s3 H3.
    + by apply does_ret.
    + eapply does_bind; [by apply drop_does|]. intros a s4 H4. by apply does_ret.
  - eapply does_bind; [by apply drop_does|]. intros a s4 H4. by apply does_ret.
Qed.

(** The variables that the builder of TAs sets after the custom ones. *)
Definition tool_variable (config : TaBuildConfig) (temp : option path) (s : St) (k : string)
    : option string :=
  if ta_std config && (k =? "__CARGO_TESTS_ONLY_SRC_ROOT")%string
  then env_var "__CARGO_TESTS_ONLY_SRC_ROOT"
  else if ta_std config && (k =? "RUST_TARGET_PATH")%string then temp
  else if (k =? "CROSS_COMPILE")%string then Some (prefix_of (ta_arch config))
  else if (k =? "TA_DEV_KIT_DIR")%string
       then Some match canonicalize (ta_dev_kit_dir config) s with
                 | Ok p => p
                 | Err _ => ta_dev_kit_dir config
                 end
  else None.

(** The command that [setup_build_command] makes; [s1] is the state in which the
    path of the kit is resolved. *)
Definition ta_command (config : TaBuildConfig) (command : string) (temp : option path) (s1 : St)
    (cmd : Command) : Prop :=
  program cmd = unwrap_or (var_os "CARGO") "cargo" /\
  args cmd = build_args config command (target_of (ta_arch config) (build_mode config)) /\
  cwd cmd = Some (ta_path config) /\
  forall k, envs cmd !! k
    = or_else (tool_variable config temp s1 k)
        (or_else (last_binding k (ta_env config))
           (if (k =? "RUSTFLAGS")%string then Some (rustflags config) else None)).

Lemma build_env_lookup config cc cmd (s : St) k :
  envs (build_env config cc cmd s) !! k
  = if (k =? "CROSS_COMPILE")%string then Some cc
    else if (k =? "TA_DEV_KIT_DIR")%string
    then Some match canonicalize (ta_dev_kit_dir config) s with
              | Ok p => p
              | Err _ => ta_dev_kit_dir config
              end
    else or_else (last_binding k (ta_env config))
           (if (k =? "RUSTFLAGS")%string then Some (rustflags config) else envs cmd !! k).
Proof.
  unfold build_env. cbv zeta. cbn [Cmd.env envs].
  destruct (String.eqb_spec k "CROSS_COMPILE") as [->|]; [by rewrite lookup_insert_eq|].
  rewrite lookup_insert_ne by done.
  destruct (String.eqb_spec k "TA_DEV_KIT_DIR") as [->|]; [by rewrite lookup_insert_eq|].
  rewrite lookup_insert_ne by done. rewrite (proj2 (proj2 (proj2 (apply_env_spec _ _)))).
  f_equal. cbn [Cmd.env envs].
  destruct (String.eqb_spec k "RUSTFLAGS") as [->|]; [by rewrite lookup_insert_eq|].
  by rewrite lookup_insert_ne.
Qed.

(** The environment of the command, without and with the variables of a std build. *)
Lemma build_env_command config command s1 :
  let cmd := build_env config (prefix_of (ta_arch config))
    (Cmd.argv (cargo_command_in (ta_path config))
       (build_args config command (target_of (ta_arch config) (build_mode config)))) s1 in
  if ta_std config then
    forall t root, env_var "__CARGO_TESTS_ONLY_SRC_ROOT" = Some root ->
      ta_command config command (Some t) s1
        (Cmd.env (Cmd.env cmd "RUST_TARGET_PATH" t) "__CARGO_TESTS_ONLY_SRC_ROOT" root)
  else ta_command config command None s1 cmd.
Proof.
  cbv zeta. set (cmd0 := Cmd.argv _ _).
  destruct (apply_env_spec (ta_env config) (Cmd.env cmd0 "RUSTFLAGS" (rustflags config)))
    as (Hp & Ha & Hc & _).
  assert (forall k, envs (build_env config (prefix_of (ta_arch config)) cmd0 s1) !! k
    = or_else (if (k =? "CROSS_COMPILE")%string then Some (prefix_of (ta_arch config))
               else if (k =? "TA_DEV_KIT_DIR")%string
               then Some match canonicalize (ta_dev_kit_dir config) s1 with
                         | Ok p => p
                         | Err _ => ta_dev_kit_dir config
                         end
               else None)
        (or_else (last_binding k (ta_env config))
           (if (k =? "RUSTFLAGS")%string then Some (rustflags config) else None))) as He.
  { intros k. rewrite build_env_lookup. destruct (k =? "CROSS_COMPILE")%string; [done|].
    destruct (k =? "TA_DEV_KIT_DIR")%string; [done|]. cbn [or_else].
    destruct (last_binding k (ta_env config)); [done|]. by destruct (k =? "RUSTFLAGS")%string. }
  destruct (ta_std config) eqn:Hs.
  - intros t root Hroot. split_and!; [exact Hp|exact Ha|exact Hc|]. intros k.
    unfold tool_variable. rewrite Hs, Hroot. cbn [andb Cmd.env envs].
    destruct (String.eqb_spec k "__CARGO_TESTS_ONLY_SRC_ROOT") as [->|];
      [by rewrite lookup_insert_eq|]. rewrite lookup_insert_ne by done.
    destruct (String.eqb_spec k "RUST_TARGET_PATH") as [->|];
      [by rewrite lookup_insert_eq|]. rewrite lookup_insert_ne by done. apply He.
  - split_and!; [exact Hp|exact Ha|exact Hc|]. intros k. unfold tool_variable. rewrite Hs. apply He.
Qed.

(** Setting up succeeds without std; with it, a directory for the targets is made. *)
Lemma setup_does config command s0 evs left s :
  eff s0 s evs left ->
  does (setup_build_command config command) s (fun r s' =>
    match r with
    | Ok (cmd, temp) =>
        (exists s1, ta_command config command temp s1 cmd /\ (ta_std config = false -> s1 = s)) /\
        match temp with
        | Some t => eff s0 s' evs ({[t]} ∪ left) /\ t ∉ left
        | None => eff s0 s' evs left
        end
    | Err _ => eff s0 s' evs left /\ ta_std config = true
    end).
Proof.
  intros He. unfold setup_build_command. rewrite target_known.
  apply does_try_pure; [done|]. intros [target cc] [= <- <-].
  pose proof (build_env_command config command) as Hcmd. cbv zeta in Hcmd.
  destruct (ta_std config) eqn:Hs.
  - eapply does_try with (R := fun r s' => match r with
      | Ok temp => exists t, temp = Some t /\ eff s0 s' evs ({[t]} ∪ left) /\ t ∉ left
      | Err _ => eff s0 s' evs left
      end); [|done|].
    { eapply does_try; [by apply custom_targets_does|done|]. cbn beta. intros t s1 H1.
      apply does_ret. by exists t. }
    intros temp s1 (t & -> & H1 & Ht). eapply does_bind; [apply does_see|]. cbn beta. intros cmd s2 [-> ->].
    assert (forall e, does (let* _ := drop_temp t in pret (Err e : Result (Command * option path))) s1
      (fun r s' => match r with
         | Ok _ => False | Err _ => eff s0 s' evs left end)) as Hfail.
    { intros e. eapply does_bind; [by apply drop_does|]. intros a s2 H2. by apply does_ret. }
    destruct (env_var "__CARGO_TESTS_ONLY_SRC_ROOT") as [root|] eqn:Er.
    2: { eapply does_mono; [apply Hfail|]. by intros [] ? ?. }
    eapply does_bind; [apply does_see|]. cbn beta. intros ex s2 [Hex ->].
    destruct ex; cbn [negb].
    + apply does_ret. split; [|done]. exists s1. split; [by apply Hcmd|done].
    + eapply does_mono; [apply Hfail|]. by intros [] ? ?.
  - apply does_try with (R := fun r s' => r = Ok None /\ s' = s); [by apply does_ret|by intros ? ? []|].
    intros temp s1 [[= ->] ->]. eapply does_bind; [apply does_see|]. cbn beta. intros cmd s2 [-> ->]. apply does_ret. split; [|done]. exists s. split; [|done].
    apply Hcmd.
Qed.

(** The environment of cargo.  A variable has, in a TA build, the value the
    tool fixes (kit, toolchain prefix, and for std the target path and the
    sources), else the last [--env], else the last entry of Cargo.toml, else for
    [RUSTFLAGS] the inherited flags with the panic strategy: a custom [RUSTFLAGS]
    replaces them.  In a build of a CA or plugin the custom values come first,
    also for [OPTEE_CLIENT_EXPORT].  The arguments are the same for every
    subcommand. *)
Lemma command_environment project_path o cmd_std kit key need_key export plugin command s :
  (forall config s1 cmd temp s2,
     resolve_ta project_path o cmd_std kit key need_key s = Ok config ->
     setup_build_command config command s1 = Ret (Ok (cmd, temp), s2) ->
     exists t s3, project_table project_path ComponentType.Ta (o_arch o) s = Some t /\
       (ta_std config = false -> s3 = s1) /\
       args cmd = build_args config command (target_of (ta_arch config) (build_mode config)) /\
       forall k, envs cmd !! k
         = or_else (tool_variable config temp s3 k)
             (or_else (or_else (last_binding k (o_env o)) (last_binding k (table_env t)))
                (if (k =? "RUSTFLAGS")%string then Some (rustflags config) else None))) /\
  (forall config,
     resolve_ca project_path o export plugin s = Ok config ->
     exists t cmd,
       project_table project_path (if plugin then ComponentType.Plugin else ComponentType.Ca)
         (o_arch o) s = Some t /\
       CaBuilder.setup_ca_cargo_command config command = Ok cmd /\
       args cmd = (command :: "--manifest-path" :: manifest_path (ca_path config) :: "--target"
                   :: target_of (ca_arch config) BuildMode.Ca
                   :: (if ca_no_default_features config then ["--no-default-features"] else [])
                   ++ match ca_features config with Some f => ["--features"; f] | None => [] end)%list /\
       forall k, envs cmd !! k
         = or_else (or_else (last_binding k (o_env o)) (last_binding k (table_env t)))
             (if (k =? "OPTEE_CLIENT_EXPORT")%string then Some (optee_client_export config)
              else None)).
Proof.
  split.
  - intros config s1 cmd temp s2 Hr E.
    destruct (resolve_ta_env _ _ _ _ _ _ _ _ Hr) as (t & Ht & He).
    destruct (setup_does config command s1 [] ∅ s1 (eff_refl s1)) as (r & s' & E' & HQ).
    rewrite E in E'. injection E' as <- <-. destruct HQ as [(s3 & (_ & Ha & _ & Hv) & Hs) _].
    exists t, s3. split_and!; [done..|]. intros k. by rewrite Hv, He, last_binding_app.
  - intros config Hr. destruct (resolve_ca_env _ _ _ _ _ _ Hr) as (t & Ht & He). exists t.
    unfold CaBuilder.setup_ca_cargo_command. rewrite target_known. cbn [result_bind].
    eexists. split; [done|]. split; [reflexivity|].
    destruct (apply_env_spec (ca_env config) (Cmd.env (Cmd.argv (cargo_command_in (ca_path config))
      ([command; "--manifest-path"; manifest_path (ca_path config); "--target";
        target_of (ca_arch config) BuildMode.Ca]
       ++ (if ca_no_default_features config then ["--no-default-features"] else [])
       ++ match ca_features config with Some f => ["--features"; f] | None => [] end)%list)
      "OPTEE_CLIENT_EXPORT" (optee_client_export config))) as (_ & Ha & _ & Hv).
    split; [exact Ha|]. intros k. rewrite Hv, He, last_binding_app. cbn [Cmd.env envs].
    f_equal. destruct (String.eqb_spec k "OPTEE_CLIENT_EXPORT") as [->|];
      [by rewrite lookup_insert_eq|by rewrite lookup_insert_ne].
Qed.

(** *** A TA build *)

(** No command, or one that satisfies [P] and succeeded if the whole did. *)
Definition one_step (evs : list event) (ok : bool) (P : Command -> Prop) : Prop :=
  (evs = [] /\ ok = false) \/
  exists cmd st, evs = [Ran cmd st] /\ P cmd /\ (ok = true -> succeeded (Ran cmd st) = true).

Lemma succeeded_status c st : succeeded (Ran c st) = true -> st = Ok (Some 0%Z).
Proof. destruct st as [[st|]|]; [|done|done]. by intros ->%Z.eqb_eq. Qed.

Lemma run_build_does cmd manifest kind s0 evs left s :
  eff s0 s evs left ->
  does (run_cargo_build cmd manifest kind) s (fun r s' =>
    exists st, eff s0 s' (evs ++ [Ran cmd st]) left /\
      (is_ok r = true -> succeeded (Ran cmd st) = true) /\
      forall l, r = Ok l -> exists msgs, os_cargo_json cmd s = (Ok (msgs, st), s') /\
        collect_cargo_artifacts msgs manifest kind s' = Ok l).
Proof.
  intros He. unfold run_cargo_build. eapply does_bind.
  { apply does_host with (Q := fun r s' => os_cargo_json cmd s = (r, s') /\ eff s0 s'
      (evs ++ [Ran cmd match r with Ok (_, st) => st | Err e => Err e end])%list left).
    intros r s' E. split; [done|]. destruct (cargo_json_ok _ _ _ _ E). by eapply eff_run. }
  cbn beta. intros r s1 [E1 H1]. apply does_try_pure.
  { intros e Hr. destruct r as [|e']; [done|]. by exists (Err e'). }
  intros [msgs st] Hr. destruct r as [[msgs' st']|]; [|done]. injection Hr as -> ->.
  eapply does_bind; [apply does_see|]. cbn beta. intros arts s2 [-> ->].
  apply does_try_pure; [intros e Hr; destruct st as [|e']; [done|by exists (Err e')]|].
  intros st' Hr. destruct st as [st|]; [|done]. injection Hr as ->.
  destruct (success st') eqn:Es; apply does_ret; exists (Ok st'); split_and!; try done.
  intros l Hl. by exists msgs.
Qed.

Definition ta_build_args (config : TaBuildConfig) : list string :=
  (build_args config "build" (target_of (ta_arch config) (build_mode config))
   ++ (if ta_debug config then [] else ["--release"])
   ++ linker_args (target_of (ta_arch config) (build_mode config)) (prefix_of (ta_arch config)))%list.

Lemma with_temp_dir_does {A} temp (m : prog St A) s0 left s (Q : A -> list event -> Prop) :
  match temp with Some t => t ∉ left | None => True end ->
  does m s (fun r s' => exists evs', eff s0 s' evs'
    (match temp with Some t => {[t]} ∪ left | None => left end) /\ Q r evs') ->
  does (with_temp_dir temp m) s (fun r s' => exists evs', eff s0 s' evs' left /\ Q r evs').
Proof.
  intros Ht Hm. destruct temp as [t|]; [|done]. cbn [with_temp_dir].
  eapply does_mono; [apply (with_temp_does s0 t m s (fun r evs' l => Q r evs' /\ l = left))|].
  - eapply does_mono; [exact Hm|]. cbn beta. intros r s' (evs' & He & HQ).
    exists evs', left. by split_and!.
  - cbn beta. intros r s' (evs' & l & He & HQ & ->). eauto.
Qed.

(** The command that builds the crate: cargo in the directory of the project. *)
Definition builds (config : TaBuildConfig) (cmd : Command) : Prop :=
  program cmd = unwrap_or (var_os "CARGO") "cargo" /\ args cmd = ta_build_args config /\
  cwd cmd = Some (ta_path config).

(** [elf] is the executable of the project that this run of cargo reported: the command
    was run when [before] had been, its messages were read to the end, and [elf] is the
    only executable that those of the package at the project's manifest name. *)
Definition reported (config : TaBuildConfig) (cmd : Command) (s0 : St) (before : list event)
    (elf : path) : Prop :=
  exists s s' msgs l,
    history s = (history s0 ++ before)%list /\
    os_cargo_json cmd s = (Ok (msgs, Ok (Some 0%Z)), s') /\
    collect_cargo_artifacts msgs (manifest_path (ta_path config)) CargoArtifactKind.Bin s' = Ok l /\
    unique_cargo_artifact l (manifest_path (ta_path config)) = Ok elf.

Lemma build_binary_does config s0 evs left s :
  eff s0 s evs left ->
  does (TaBuilder.build_binary config) s (fun r s' =>
    exists evs', eff s0 s' evs' left /\ exists new, evs' = (evs ++ new)%list /\
      one_step new (is_ok r) (fun cmd => builds config cmd /\
        forall elf, r = Ok elf -> reported config cmd s0 evs elf)).
Proof.
  intros He. unfold TaBuilder.build_binary. rewrite target_known.
  apply does_try_pure; [done|]. intros [target cc] [= <- <-].
  eapply does_try; [by apply setup_does| |]; cbn beta.
  { intros e s1 [H1 _]. exists evs. split; [done|]. exists []. split; [by rewrite app_nil_r|].
    by left. }
  intros [cmd temp] s1 [(s2 & (Hp & Ha & Hcwd & _) & _) H1].
  set (cmd1 := Cmd.argv _ _).
  assert (builds config cmd1) as Hcmd1.
  { subst cmd1. unfold builds, ta_build_args.
    destruct (ta_debug config); cbn [Cmd.argv Cmd.arg args program cwd];
      rewrite Ha; (split; [exact Hp|split; [|exact Hcwd]]); [done|by rewrite <-(assoc_L (++)%list)]. }
  clearbody cmd1.
  apply with_temp_dir_does; [by destruct temp; [destruct H1|]|].
  assert (eff s0 s1 evs (match temp with Some t => {[t]} ∪ left | None => left end)) as H1'
    by (destruct temp; [apply H1|exact H1]).
  eapply does_try; [by apply run_build_does| |]; cbn beta.
  - intros e s3 (st & H3 & Hok & _). exists (evs ++ [Ran cmd1 st])%list. split; [done|].
    exists [Ran cmd1 st]. split; [done|]. right. exists cmd1, st. by split_and!.
  - intros l s3 (st & H3 & Hok & Hl). apply does_ret. exists (evs ++ [Ran cmd1 st])%list.
    split; [done|]. exists [Ran cmd1 st]. split; [done|]. right. exists cmd1, st.
    split; [done|]. split; [|intros _; by apply Hok]. split; [done|]. intros elf Helf.
    destruct (Hl l eq_refl) as (msgs & E & Hc).
    pose proof (succeeded_status _ _ (Hok eq_refl)) as ->.
    exists s1, s3, msgs, l. split_and!; try done. by destruct H1' as [? _].
Qed.

Lemma strip_does config p s0 evs left s :
  eff s0 s evs left ->
  does (TaBuilder.strip_binary config p) s (fun r s' =>
    exists new, one_step new (is_ok r) (fun cmd =>
        program cmd = prefix_of (ta_arch config) +:+ "objcopy" /\
        exists t, args cmd = ["--strip-unneeded"; p; t] /\ (is_ok r = true -> r = Ok t)) /\
      match r with
      | Ok t => eff s0 s' (evs ++ new) ({[t]} ∪ left) /\ t ∉ left
      | Err _ => eff s0 s' (evs ++ new) left
      end).
Proof.
  intros He. unfold TaBuilder.strip_binary. rewrite target_known.
  assert (forall P, one_step [] false P) as Hnone by by left.
  assert (forall s', eff s0 s' evs left -> eff s0 s' (evs ++ [])%list left) as Hnil
    by (intros s'; by rewrite app_nil_r).
  apply does_try_pure; [done|]. intros [target cc] [= <- <-].
  apply does_try_pure; [intros e _; exists []; auto|]. intros name _.
  apply does_try_pure; [intros e _; exists []; auto|]. intros dir _.
  eapply does_try; [by apply tempfile_does|intros e s1 H1; exists []; auto|].
  cbn beta. intros t s1 [H1 Ht]. set (cmd := Cmd.argv _ _).
  eapply does_bind; [eapply (run_streaming_does s0 evs _ cmd), H1|]. cbn beta.
  intros r s2 (st & H2 & Hok). destruct r as [[]|e].
  - apply does_ret. exists [Ran cmd st]. split; [|done]. right. exists cmd, st. split_and!; try done.
    by exists t.
  - eapply does_bind; [by apply drop_does|]. cbn beta. intros a s3 H3. apply does_ret.
    exists [Ran cmd st]. split; [|done]. right. exists cmd, st. split_and!; try done. by exists t.
Qed.

(** A parsed ELF file has machine-width fields, and a file fits in memory. *)
Class CratesOk : Prop := {
  elf_parse_wf data elf : Elf_parse data = Some elf -> elf_wf elf;
  read_fits p s data : fs_read p s = Ok data -> len data < 2 ^ ptr_bits
}.
Context {TK : TargetOk} {CK : CratesOk}.

(** The UUID that the image at [p] names. *)
Definition file_uuid (name : string) (skip : Elf -> Z) (p : path) (s : St) (u : Uuid) : Prop :=
  exists data elf l, fs_read p s = Ok data /\ names_uuid Elf_parse data elf name (skip elf) l /\
    u = from_bytes_le l.

Lemma read_uuid_does (from : bytes -> outcome (result Uuid ElfError.ElfError)) name skip p s :
  (forall data, len data < 2 ^ ptr_bits ->
     reads_uuid Elf_parse from_bytes_le data name skip (from data)) ->
  does (read_uuid (fun file => otry (Ret (ok_or file ElfError.FailedToRead)) from) p) s
    (fun r s' => s' = s /\ forall u, r = Ok u -> file_uuid name skip p s u).
Proof.
  intros Hf. unfold read_uuid. eapply does_bind; [apply does_see|]. cbn beta.
  intros file s1 [Hfile ->]. destruct file as [data|e]; cbn [ok_or otry].
  - destruct (Hf data) as (r & E & Hu & _); [by eapply read_fits|].
    rewrite E. cbn [plift outcome_bind]. eapply does_bind with (R := fun r' s' => r' = r /\ s' = s).
    { by exists r, s. }
    intros r' s1 [-> ->]. apply does_ret. split; [done|]. intros u Hr.
    destruct r as [u'|]; [|done]. injection Hr as ->. destruct (Hu u eq_refl) as (elf & l & Hn & ->).
    by exists data, elf, l.
  - eapply does_bind with (R := fun r' s' => is_ok r' = false /\ s' = s); [by eexists _, s|].
    intros r' s1 [Hr ->]. apply does_ret. split; [done|]. intros u Hu. by destruct r'.
Qed.

Lemma read_ta_uuid_does p s :
  does (read_ta_uuid p) s
    (fun r s' => s' = s /\ forall u, r = Ok u -> file_uuid "ta_head" (fun _ => 0) p s u).
Proof.
  apply (read_uuid_does (read_ta_uuid_from_bytes Elf_parse from_bytes_le)). intros data Hl.
  apply read_ta_uuid_spec; [apply elf_parse_wf|done].
Qed.

Lemma read_plugin_uuid_does p s :
  does (read_plugin_uuid p) s
    (fun r s' => s' = s /\ forall u, r = Ok u -> file_uuid "plugin_method" pointer_width p s u).
Proof.
  apply (read_uuid_does (read_plugin_uuid_from_bytes Elf_parse from_bytes_le)). intros data Hl.
  apply read_plugin_uuid_spec; [apply elf_parse_wf|done].
Qed.

(** What may be left behind: nothing, or the file that could not be published. *)
Definition leftover {A} (r : Result A) (left : gset path) : Prop :=
  left = ∅ \/ exists tmp, left = {[tmp]} /\ publish_failed r tmp.

Definition sign_command (config : TaBuildConfig) (p tmp : path) (u : Uuid) (cmd : Command) : Prop :=
  program cmd = "python3" /\
  args cmd = [join (join (ta_dev_kit_dir config) "scripts") "sign_encrypt.py";
              "--uuid"; uuid_to_string u; "--key"; signing_key config; "--in"; p; "--out"; tmp].

Lemma publish_failed_err {A B} (r : Result A) tmp e :
  publish_failed r tmp -> r = Err e -> publish_failed (Err e : Result B) tmp.
Proof. intros (d & n & ->) [= <-]. by exists d, n. Qed.

(** The signing command that a run with the result [r] has used, which signs under
    the UUID of the image, and the artifact, when there is one. *)
Definition signs (config : TaBuildConfig) (p : path) (s : St) (r : Result BuildArtifact)
    (left : gset path) (cmd : Command) : Prop :=
  exists u tmp, file_uuid "ta_head" (fun _ => 0) p s u /\ sign_command config p tmp u cmd /\
    forall a, r = Ok a -> uuid a = u /\ left = ∅ /\
      exists dir, parent p = Some dir /\ artifact_path a = join dir (uuid_to_string u +:+ ".ta").

Lemma signs_err config p s e left u tmp cmd st :
  file_uuid "ta_head" (fun _ => 0) p s u -> sign_command config p tmp u cmd ->
  one_step [Ran cmd st] false (signs config p s (Err e) left).
Proof. intros Hu Hc. right. exists cmd, st. split_and!; try done. by exists u, tmp. Qed.

Lemma eff_no_more s0 s evs left : eff s0 s evs left -> eff s0 s evs (∅ ∪ left) /\ ∅ ## left.
Proof. intros He. rewrite (left_id_L ∅ (∪)). split; [done|set_solver]. Qed.

Lemma sign_does config p s0 evs left s :
  eff s0 s evs left ->
  does (TaBuilder.sign_ta config p) s (fun r s' =>
    exists new left', (eff s0 s' (evs ++ new) (left' ∪ left) /\ left' ## left) /\
      leftover r left' /\ one_step new (is_ok r) (signs config p s r left')).
Proof.
  intros He. unfold TaBuilder.sign_ta.
  assert (forall (e : error) s', eff s0 s' evs left -> exists new left',
    (eff s0 s' (evs ++ new) (left' ∪ left) /\ left' ## left) /\
    leftover (Err e : Result BuildArtifact) left' /\
    one_step new false (signs config p s (Err e) left')) as Hend.
  { intros e s' H1. exists [], ∅. rewrite app_nil_r.
    split; [by apply eff_no_more|]. by split; left. }
  eapply does_try; [apply read_ta_uuid_does| |].
  { cbn beta. intros e s1 [-> _]. by apply (Hend e s). }
  cbn beta. intros u s1 [-> Hu]. specialize (Hu u eq_refl).
  eapply does_bind; [apply does_see|]. cbn beta. intros ex s1 [_ ->].
  destruct ex; cbn [negb]; [|apply does_ret; by apply (Hend _ s)].
  eapply does_try with (R := fun r s' => s' = s /\ forall q, r = Ok q ->
    q = join (join (ta_dev_kit_dir config) "scripts") "sign_encrypt.py").
  { unfold join_and_check. eapply does_bind; [apply does_see|]. cbn beta. intros ex s1 [_ ->].
    destruct ex; apply does_ret; (split; [done|]); by intros q [= <-]. }
  { intros e s1 [-> _]. by apply (Hend e s). }
  intros script s1 [-> Hscript]. rewrite (Hscript script eq_refl).
  apply does_try_pure; [intros e _; by apply (Hend e s)|]. intros dir Hdir.
  apply (f_equal to_option) in Hdir. rewrite to_option_ok_or in Hdir. cbn in Hdir.
  eapply does_try; [by apply tempfile_does|cbn beta; intros e s1 H1; by apply (Hend e s1)|].
  cbn beta. intros tmp s1 [H1 Ht]. set (cmd := Cmd.argv _ _).
  assert (sign_command config p tmp u cmd) as Hcmd by done. clearbody cmd.
  eapply does_bind; [eapply (run_streaming_does s0 evs _ cmd), H1|]. cbn beta.
  intros r s2 (st & H2 & Hok). destruct r as [[]|e].
  2: { eapply does_bind; [by apply drop_does|]. cbn beta. intros a s3 H3. apply does_ret.
       exists [Ran cmd st], ∅. split; [by apply eff_no_more|]. split; [by left|].
       by eapply signs_err. }
  assert (succeeded (Ran cmd st) = true) as Hs by by apply Hok.
  eapply does_try; [by eapply publish_does| |]; cbn beta.
  - intros e s3 [H3|[H3 Hp]]; exists [Ran cmd st].
    + exists ∅. split; [by apply eff_no_more|]. split; [by left|by eapply signs_err].
    + exists {[tmp]}. split; [split; [done|set_solver]|]. split; [|by eapply signs_err].
      right. exists tmp. split; [done|]. by eapply publish_failed_err.
  - intros [] s3 [H3|[_ (d & n & [=])]].
    eapply does_try; [by apply permissions_does| |]; cbn beta.
    + intros e s4 H4. exists [Ran cmd st], ∅.
      split; [by apply eff_no_more|]. split; [by left|by eapply signs_err].
    + intros [] s4 H4. apply does_ret. exists [Ran cmd st], ∅.
      split; [by apply eff_no_more|]. split; [by left|].
      right. exists cmd, st. split_and!; [done| |done]. exists u, tmp. split_and!; [done..|].
      intros a [= <-]. split_and!; [done..|]. by exists dir.
Qed.

Lemma install_does inst a s0 evs left s :
  eff s0 s evs left ->
  does (TaBuilder.install inst a) s (fun r s' => eff s0 s' evs left).
Proof.
  intros He. unfold TaBuilder.install. destruct inst as [d|]; [|by apply does_ret].
  eapply does_bind; [apply does_see|]. cbn beta. intros ex s1 [_ ->].
  destruct ex; cbn [negb]; [|by apply does_ret].
  eapply does_bind; [apply quiet_does; [apply copy_ok|exact He]|]. cbn beta. intros r s1 H1.
  apply does_try_pure; [done|]. intros [] _. by apply permissions_does.
Qed.

Definition version_command (program : string) : Command := Cmd.arg (Cmd.new program) "--version".

Lemma available_does name s0 evs left s :
  eff s0 s evs left ->
  does (check_command_available name) s (fun b s' =>
    exists r, eff s0 s' (evs ++ [Ran (version_command name) r]) left /\ b = is_ok r).
Proof.
  intros He. unfold check_command_available. eapply does_bind.
  { apply does_host with (Q := fun r s' => eff s0 s' (evs ++ [Ran (version_command name) r])%list left).
    intros r s' E. destruct (status_ok _ _ _ _ E). by eapply eff_run. }
  cbn beta. intros r s1 H1. apply does_ret. by exists r.
Qed.

(** Both tools are started once; whether they succeed does not matter. *)
Lemma toolchain_does prefix s0 evs left s :
  eff s0 s evs left ->
  does (TaBuilder.check_toolchain_exists prefix) s (fun r s' =>
    exists r1 r2, eff s0 s' (evs ++ [Ran (version_command (prefix +:+ "gcc")) r1;
                                     Ran (version_command (prefix +:+ "objcopy")) r2]) left /\
      is_ok r = is_ok r1 && is_ok r2).
Proof.
  intros He. unfold TaBuilder.check_toolchain_exists.
  eapply does_bind with (R := fun ok s' => exists r1 r2,
    eff s0 s' (evs ++ [Ran (version_command (prefix +:+ "gcc")) r1;
                       Ran (version_command (prefix +:+ "objcopy")) r2])%list left /\
    ok = is_ok r1 && is_ok r2).
  - cbn [TaBuilder.available]. eapply does_bind; [by apply available_does|]. cbn beta.
    intros b1 s1 (r1 & H1 & ->). eapply does_bind.
    + eapply does_bind; [by apply available_does|]. cbn beta. intros b2 s2 (r2 & H2 & ->).
      apply does_bind with (R := fun b s' => b = true /\ s' = s2); [by apply does_ret|].
      intros b s3 [-> ->]. apply does_ret.
      instantiate (1 := fun b s' => exists r2, eff s0 s' (evs ++ [Ran (version_command (prefix +:+ "gcc")) r1;
                       Ran (version_command (prefix +:+ "objcopy")) r2])%list left /\ b = is_ok r2).
      exists r2. cbn beta. rewrite <-(assoc_L (++)%list) in H2. by rewrite andb_true_r.
    + cbn beta. intros b2 s2 (r2 & H2 & ->). apply does_ret. by exists r1, r2.
  - cbn beta. intros ok s1 (r1 & r2 & H1 & ->).
    destruct (is_ok r1 && is_ok r2) eqn:E; apply does_ret; by exists r1, r2.
Qed.

Definition done_with (c : Command) : event := Ran c (Ok (Some 0%Z)).

(** What a build that succeeds has run: cargo, then the strip of the executable that
    cargo reported into a temporary file, then the signature of that file under the UUID that it
    names. *)
Definition built (config : TaBuildConfig) (s0 : St) (evs new : list event) : Prop :=
  exists elf stripped tmp u s1 c1 c2 c3,
    new = [done_with c1; done_with c2; done_with c3] /\
    builds config c1 /\ reported config c1 s0 evs elf /\
    program c2 = prefix_of (ta_arch config) +:+ "objcopy" /\
    args c2 = ["--strip-unneeded"; elf; stripped] /\
    sign_command config stripped tmp u c3 /\
    history s1 = (history s0 ++ evs ++ [done_with c1; done_with c2])%list /\
    file_uuid "ta_head" (fun _ => 0) stripped s1 u.

(** Every command but the last succeeded. *)
Definition stops_at_failure (new : list event) : Prop :=
  Forall (fun e => succeeded e = true) (removelast new).

(** The stages of a build after the checks. *)
Lemma stages_does config inst s0 evs s :
  eff s0 s evs ∅ ->
  does (let? elf_path := TaBuilder.build_binary config in
        let? stripped := TaBuilder.strip_binary config elf_path in
        with_temp stripped
          (let? artifact := TaBuilder.sign_ta config stripped in
           TaBuilder.install inst artifact)) s
    (fun r s' => exists new left, eff s0 s' (evs ++ new) left /\ leftover r left /\
       stops_at_failure new /\ (r = Ok tt -> built config s0 evs new)).
Proof.
  intros He. eapply does_try; [by apply build_binary_does| |]; cbn beta.
  { intros e s1 (evs' & H1 & new & -> & Hstep). exists new, ∅.
    split; [done|]. split; [by left|]. split; [|done].
    by destruct Hstep as [[-> _]|(c & st & -> & _)]; apply Forall_nil. }
  intros elf s1 (evs' & H1 & new & -> & Hstep).
  destruct Hstep as [[_ [=]]|(c1 & st1 & -> & [Ha1 Hrep] & Hs1)]. specialize (Hrep elf eq_refl). specialize (Hs1 eq_refl).
  pose proof (succeeded_status _ _ Hs1) as ->.
  eapply does_try; [by apply strip_does| |]; cbn beta.
  { intros e s2 (new & Hstep & H2). exists ([Ran c1 (Ok (Some 0))] ++ new)%list, ∅.
    rewrite (assoc_L (++)%list). split; [done|]. split; [by left|]. split; [|done].
    destruct Hstep as [[-> _]|(c & st & -> & _)]; [by apply Forall_nil|by apply Forall_singleton]. }
  intros stripped s2 (new & Hstep & H2 & _).
  destruct Hstep as [[_ [=]]|(c2 & st2 & -> & (Hp2 & t & Ha2 & Ht) & Hs2)]. specialize (Hs2 eq_refl).
  pose proof (succeeded_status _ _ Hs2) as ->. injection (Ht eq_refl) as <-.
  set (evs2 := ((evs ++ [Ran c1 (Ok (Some 0))]) ++ [Ran c2 (Ok (Some 0))])%list) in *.
  assert (forall new, (evs2 ++ new = evs ++ ([done_with c1; done_with c2] ++ new))%list) as Hevs
    by (intros; subst evs2; by rewrite <-!(assoc_L (++)%list)).
  eapply does_mono; [apply (with_temp_does s0 stripped _ _ (fun r evs' left =>
    exists new, evs' = (evs ++ new)%list /\ leftover r left /\ stops_at_failure new /\
      (r = Ok tt -> built config s0 evs new)))|].
  2: { cbn beta. intros r s' (evs' & left & H3 & new & -> & Hl & Hst & Hb). by exists new, left. }
  eapply does_try; [by apply sign_does| |]; cbn beta.
  - intros e s3 (new & left & [H3 Hd] & Hl & Hstep).
    exists (evs2 ++ new)%list, left. rewrite (right_id_L ∅ (∪)) in H3, Hd.
    rewrite (comm_L (∪)) in H3. split; [done|]. split; [set_solver|].
    rewrite Hevs. eexists. split; [done|]. split.
    { destruct Hl as [->|(tmp & -> & Hp)]; [by left|right]. exists tmp. split; [done|].
      by eapply publish_failed_err. }
    split; [|done]. destruct Hstep as [[-> _]|(c & st & -> & _)]; by repeat constructor.
  - intros a s3 (new & left & [H3 Hd] & Hl & Hstep).
    destruct Hstep as [[_ [=]]|(c3 & st3 & -> & (u & tmp & Hu & Hc3 & Ha) & Hs3)].
    specialize (Hs3 eq_refl). pose proof (succeeded_status _ _ Hs3) as ->.
    destruct (Ha a eq_refl) as (_ & -> & _).
    eapply does_mono; [eapply install_does, H3|]. cbn beta. intros r s4 H4.
    exists (evs2 ++ [Ran c3 (Ok (Some 0))])%list, ∅. rewrite (left_id_L ∅ (∪)) in H4.
    split; [done|]. split; [set_solver|]. rewrite Hevs. eexists. split; [done|].
    split; [by left|]. split; [by repeat constructor|]. intros _.
    exists elf, stripped, tmp, u, s2, c1, c2, c3. split_and!; try done. subst evs2.
    destruct H2 as (Hh & _). rewrite Hh. by rewrite <-!(assoc_L (++)%list).
Qed.

Lemma check_manifest_does config s :
  does (TaBuilder.check_manifest config) s (fun r s' => s' = s /\
    forall c, r = Ok c -> exists p, canonicalize (ta_path config) s = Ok p /\
                            c = TaBuilder.at_path config p).
Proof.
  unfold TaBuilder.check_manifest, absolute_dir. eapply does_try; [apply does_see| |]; cbn beta.
  - intros e s1 [_ ->]. by split.
  - intros p s1 [Hp ->]. eapply does_bind; [apply does_see|]. cbn beta. intros ex s1 [_ ->].
    destruct ex; apply does_ret; (split; [done|]); intros c [= <-]. exists p. split; [|done].
    by destruct (canonicalize (ta_path config) s); cbn in Hp; congruence.
Qed.

(** C26: a TA build.  It always ends; the commands it runs after the check of the
    toolchain stop at the first that fails; when it succeeds they are cargo in the
    project's directory with the arguments of the configuration, the strip of the only
    executable that this run of cargo reported for the project's manifest, and the
    signature of the stripped file under the UUID that this file names, each of which
    succeeded.  No temporary file is left, except the signed one when it could not be
    renamed. *)
Theorem ta_build_pipeline config inst s :
  exists r s' checks new left,
    TaBuilder.build_ta config inst s = Ret (r, s') /\
    history s' = (history s ++ checks ++ new)%list /\
    temps s' = left ∪ temps s /\ left ## temps s /\ leftover r left /\
    stops_at_failure new /\
    (r = Ok tt -> exists p r1 r2,
       canonicalize (ta_path config) s = Ok p /\
       checks = [Ran (version_command (prefix_of (ta_arch config) +:+ "gcc")) (Ok r1);
                 Ran (version_command (prefix_of (ta_arch config) +:+ "objcopy")) (Ok r2)] /\
       built (TaBuilder.at_path config p) s checks new).
Proof.
  enough (does (TaBuilder.build_ta config inst) s (fun r s' => exists checks new left,
    eff s s' (checks ++ new) left /\ leftover r left /\ stops_at_failure new /\
    (r = Ok tt -> exists p r1 r2,
       canonicalize (ta_path config) s = Ok p /\
       checks = [Ran (version_command (prefix_of (ta_arch config) +:+ "gcc")) (Ok r1);
                 Ran (version_command (prefix_of (ta_arch config) +:+ "objcopy")) (Ok r2)] /\
       built (TaBuilder.at_path config p) s checks new)))
    as (r & s' & E & checks & new & left & (Hh & Ht & Hd) & Hl & Hst & Hok).
  { exists r, s', checks, new, left. by split_and!. }
  unfold TaBuilder.build_ta. eapply does_try; [apply check_manifest_does| |]; cbn beta.
  { intros e s1 [-> _]. exists [], [], ∅. split; [apply eff_refl|]. split; [by left|].
    split; [by apply Forall_nil|done]. }
  intros config' s1 [-> Hc]. destruct (Hc config' eq_refl) as (p & Hp & ->). clear Hc.
  rewrite target_known. apply does_try_pure; [done|]. intros [target cc] [= <- <-].
  eapply does_try; [apply (toolchain_does _ s [] ∅), eff_refl| |]; cbn beta.
  { intros e s1 (r1 & r2 & H1 & _). eexists _, [], ∅. rewrite app_nil_r.
    split; [exact H1|]. split; [by left|]. split; [by apply Forall_nil|done]. }
  intros [] s1 (r1 & r2 & H1 & Hr). symmetry in Hr. apply andb_true_iff in Hr as [Hr1 Hr2].
  destruct r1 as [r1|]; [|done]. destruct r2 as [r2|]; [|done].
  eapply does_mono; [eapply stages_does, H1|]. cbn beta.
  intros r s2 (new & left & H2 & Hl & Hst & Hb). eexists _, new, left. split; [exact H2|].
  split; [done|]. split; [done|]. intros Hok. exists p, r1, r2. split_and!; [done|done|by apply Hb].
Qed.

(** *** Every command *)

(** A program that cleans up after itself, started with nothing to clean. *)
Definition tidy {A} (m : prog St (Result A)) : Prop :=
  forall s0 evs s, eff s0 s evs ∅ ->
  does m s (fun r s' => exists evs' left, eff s0 s' evs' left /\ leftover r left).

Lemma leftover_ok {A} (a : A) left : leftover (Ok a) left -> left = ∅.
Proof. intros [->|(tmp & -> & d & n & [=])]; done. Qed.

Lemma leftover_err {A B} e left : leftover (Err e : Result A) left -> leftover (Err e : Result B) left.
Proof.
  intros [->|(tmp & -> & Hp)]; [by left|right]. exists tmp. split; [done|].
  by eapply publish_failed_err.
Qed.

Lemma tidy_try {A B} (m : prog St (Result A)) (f : A -> prog St (Result B)) :
  tidy m -> (forall a, tidy (f a)) -> tidy (ptry m f).
Proof.
  intros Hm Hf s0 evs s He. eapply does_try; [exact (Hm s0 evs s He)| |]; cbn beta.
  - intros e s1 (evs' & left & H1 & Hl). exists evs', left. split; [done|by eapply leftover_err].
  - intros a s1 (evs' & left & H1 & ->%leftover_ok). exact (Hf a s0 evs' s1 H1).
Qed.

Lemma tidy_ret {A} (r : Result A) : tidy (pret r).
Proof. intros s0 evs s He. apply does_ret. exists evs, ∅. split; [done|by left]. Qed.

Lemma tidy_look {A} (f : St -> Result A) : tidy (look f).
Proof. intros s0 evs s He. apply does_look. exists evs, ∅. split; [done|by left]. Qed.

Lemma tidy_see {A B} (f : St -> A) (k : A -> prog St (Result B)) :
  (forall a, tidy (k a)) -> tidy (pbind (look f) k).
Proof.
  intros Hk s0 evs s He. eapply does_bind; [apply does_see|]. cbn beta. intros a s1 [_ ->].
  exact (Hk a s0 evs s He).
Qed.

Lemma tidy_clean {A} (m : prog St (Result A)) :
  (forall s0 evs s, eff s0 s evs ∅ -> does m s (fun r s' => exists evs', eff s0 s' evs' ∅)) -> tidy m.
Proof.
  intros Hm s0 evs s He. eapply does_mono; [exact (Hm s0 evs s He)|]. cbn beta.
  intros r s' (evs' & H1). exists evs', ∅. split; [done|by left].
Qed.

(** A call of the system, then something that cleans up. *)
Lemma tidy_quiet {A B} (f : St -> io A * St) (k : io A -> prog St (Result B)) :
  (forall s r s', f s = (r, s') -> history s' = history s /\ temps s' = temps s) ->
  (forall r, tidy (k r)) -> tidy (pbind (on_host f) k).
Proof.
  intros Hf Hk s0 evs s He. eapply does_bind; [by eapply quiet_does; [apply Hf|exact He]|].
  cbn beta. intros r s1 H1. exact (Hk r s0 evs s1 H1).
Qed.

Lemma tidy_run cmd name : tidy (run_streaming_command cmd name).
Proof.
  apply tidy_clean. intros s0 evs s He. eapply does_mono; [by apply run_streaming_does|]. cbn beta.
  intros r s' (st & H1 & _). eauto.
Qed.

Lemma tidy_build cmd manifest kind : tidy (run_cargo_build cmd manifest kind).
Proof.
  apply tidy_clean. intros s0 evs s He. eapply does_mono; [by apply run_build_does|]. cbn beta.
  intros r s' (st & H1 & _). eauto.
Qed.

Lemma tidy_copy_plugin p : tidy (CaBuilder.copy_plugin p).
Proof.
  intros s0 evs s He. unfold CaBuilder.copy_plugin.
  assert (forall (e : error) s', eff s0 s' evs ∅ -> exists evs' left,
    eff s0 s' evs' left /\ leftover (Err e : Result path) left) as Hend
    by (intros e s' H1; exists evs, ∅; split; [done|by left]).
  eapply does_try; [apply read_plugin_uuid_does|intros e s1 [-> _]; by apply Hend|].
  cbn beta. intros u s1 [-> _]. apply does_try_pure; [intros e _; by apply Hend|]. intros dir _.
  eapply does_try; [by apply tempfile_does|intros e s1 H1; by apply Hend|].
  cbn beta. intros tmp s1 [H1 Ht].
  eapply does_bind; [apply quiet_does; [apply copy_ok|exact H1]|]. cbn beta. intros [[]|e] s2 H2.
  - eapply does_try; [by eapply publish_does| |]; cbn beta.
    + intros e s3 [H3|[H3 Hp]]; [by apply Hend|]. exists evs, ({[tmp]} ∪ ∅). split; [done|].
      right. exists tmp. split; [set_solver|by eapply publish_failed_err].
    + intros [] s3 [H3|[_ (d & n & [=])]]. apply does_ret. exists evs, ∅. split; [done|by left].
  - eapply does_bind; [by apply drop_does|]. cbn beta. intros a s3 H3. apply does_ret. by apply Hend.
Qed.

Lemma tidy_ca_install inst p : tidy (CaBuilder.install inst p).
Proof.
  unfold CaBuilder.install. destruct inst as [d|]; [|apply tidy_ret]. apply tidy_see. intros [];
    [|apply tidy_ret]. apply tidy_try; [apply tidy_ret|]. intros name.
  apply tidy_quiet; [intros s r s'; apply copy_ok|]. intros r. apply tidy_ret.
Qed.

Lemma tidy_build_ca config inst : tidy (CaBuilder.build_ca config inst).
Proof.
  unfold CaBuilder.build_ca. apply tidy_try; [apply tidy_look|]. intros p. cbv zeta.
  apply tidy_try.
  - unfold CaBuilder.build_binary. apply tidy_try; [apply tidy_ret|]. intros [target cc].
    apply tidy_try; [apply tidy_ret|]. intros cmd. cbv zeta.
    apply tidy_try; [apply tidy_build|]. intros l. apply tidy_ret.
  - intros built_path. apply tidy_try; [|intros; apply tidy_ca_install].
    unfold CaBuilder.post_build. destruct (ca_plugin _); [apply tidy_copy_plugin|].
    unfold CaBuilder.strip_binary. apply tidy_try; [apply tidy_ret|]. intros [target cc].
    apply tidy_try; [apply tidy_run|]. intros []. apply tidy_ret.
Qed.

Lemma tidy_clippy_ca config : tidy (CaBuilder.clippy_ca config).
Proof.
  unfold CaBuilder.clippy_ca, CaBuilder.run_clippy. apply tidy_try; [apply tidy_look|]. intros p.
  apply tidy_try; [apply tidy_run|]. intros []. apply tidy_try; [apply tidy_ret|]. intros cmd.
  apply tidy_run.
Qed.

Lemma tidy_clippy_ta config : tidy (TaBuilder.clippy_ta config).
Proof.
  unfold TaBuilder.clippy_ta, TaBuilder.run_clippy. apply tidy_try.
  { apply tidy_clean. intros s0 evs s He. eapply does_mono; [apply check_manifest_does|]. cbn beta.
    intros r s' [-> _]. eauto. }
  intros c. apply tidy_try; [apply tidy_run|]. intros []. apply tidy_clean. intros s0 evs s He.
  eapply does_try; [by apply setup_does|intros e s1 [H1 _]; eauto|]. cbn beta.
  intros [cmd temp] s1 [_ H1].
  assert (eff s0 s1 evs (match temp with Some t => {[t]} ∪ ∅ | None => ∅ end)) as H1'
    by (destruct temp; [apply H1|exact H1]).
  eapply does_mono; [eapply (with_temp_dir_does temp _ s0 ∅ s1 (fun _ _ => True))|].
  - by destruct temp; [destruct H1|].
  - eapply does_mono; [eapply (run_streaming_does s0 evs), H1'|]. cbn beta.
    intros r s2 (st & H2 & _). eauto.
  - cbn beta. intros r s2 (evs' & H2 & _). eauto.
Qed.

Lemma tidy_build_ta config inst : tidy (TaBuilder.build_ta config inst).
Proof.
  intros s0 evs s He. unfold TaBuilder.build_ta.
  eapply does_try; [apply check_manifest_does| |]; cbn beta.
  { intros e s1 [-> _]. exists evs, ∅. split; [done|by left]. }
  intros c s1 [-> _]. rewrite target_known. apply does_try_pure; [done|]. intros [target cc] _.
  eapply does_try; [by apply toolchain_does| |]; cbn beta.
  { intros e s1 (r1 & r2 & H1 & _). eexists _, ∅. split; [exact H1|by left]. }
  intros [] s1 (r1 & r2 & H1 & _). eapply does_mono; [eapply stages_does, H1|]. cbn beta.
  intros r s2 (new & left & H2 & Hl & _). eauto.
Qed.

Lemma tidy_execute_ta common std kit key inst lint :
  tidy (Main.execute_ta_command common std kit key inst lint).
Proof.
  unfold Main.execute_ta_command, Main.resolve_project_path. apply tidy_try.
  - destruct (Cli.c_manifest_path common); [|apply tidy_look].
    apply tidy_try; [apply tidy_ret|]. intros dir. destruct (str_is_empty dir); apply tidy_look.
  - intros p. apply tidy_try; [apply tidy_look|]. intros config.
    destruct lint; [apply tidy_clippy_ta|apply tidy_build_ta].
Qed.

Lemma tidy_execute_ca common export plugin inst lint :
  tidy (Main.execute_ca_command common export plugin inst lint).
Proof.
  unfold Main.execute_ca_command, Main.resolve_project_path. apply tidy_try.
  - destruct (Cli.c_manifest_path common); [|apply tidy_look].
    apply tidy_try; [apply tidy_ret|]. intros dir. destruct (str_is_empty dir); apply tidy_look.
  - intros p. apply tidy_try; [apply tidy_look|]. intros config.
    destruct lint; [apply tidy_clippy_ca|apply tidy_build_ca].
Qed.

Lemma clean_does p s :
  does (clean_project p) s (fun r s' => leftover r ∅ /\ temps s' ⊆ temps s).
Proof.
  unfold clean_project, absolute_dir. assert (forall r : Result unit, leftover r ∅) as Hl by by left.
  eapply does_try; [apply does_see|cbn beta; by intros e s1 [_ ->]|]. cbn beta. intros d s1 [_ ->].
  cbv zeta. eapply does_try; [apply (run_streaming_does s []), eff_refl| |]; cbn beta.
  { intros e s1 (st & (_ & Ht & _) & _). split; [done|]. rewrite Ht. set_solver. }
  intros [] s1 (st & (_ & Ht & _) & _). rewrite (left_id_L ∅ (∪)) in Ht.
  eapply does_bind; [apply does_see|]. cbn beta. intros ex s2 [_ ->]. rewrite <-Ht.
  destruct ex; [|by apply does_ret].
  eapply does_bind; [apply does_host; intros r s' E; exact (proj2 (remove_dir_ok _ _ _ _ E))|].
  cbn beta. intros r s2 H2. by apply does_ret.
Qed.

(** C40: whatever the command, [cargo optee] ends, and no temporary file or
    directory that it made is left, on every error path too: but for the file that
    was kept and then could not be renamed, which stays in the target directory. *)
Theorem commands_leave_no_temps cmd s :
  exists r s' left,
    Main.execute_command cmd s = Ret (r, s') /\ leftover r left /\ temps s' ⊆ left ∪ temps s /\
    ((forall m, cmd <> Cli.Clean m) -> temps s' = left ∪ temps s /\ left ## temps s).
Proof.
  assert (forall (m : prog St (Result string)), tidy m ->
    exists r s' left, m s = Ret (r, s') /\ leftover r left /\ temps s' ⊆ left ∪ temps s /\
      ((forall m, cmd <> Cli.Clean m) -> temps s' = left ∪ temps s /\ left ## temps s)) as Hgo.
  { intros m Hm. destruct (Hm s [] s (eff_refl s)) as (r & s' & E & evs & left & (_ & Ht & Hd) & Hl).
    exists r, s', left. split_and!; [done|done|set_solver|done]. }
  assert (forall m : prog St (Result unit), tidy m -> tidy (let? _ := m in pret (Ok ""))) as Hq
    by (intros m Hm; apply tidy_try; [done|intros; apply tidy_ret]).
  assert (forall c inst lint, tidy (Main.execute_component c inst lint)) as Hc
    by (intros [] inst lint; [apply tidy_execute_ta|apply tidy_execute_ca|apply tidy_execute_ca]).
  destruct cmd as [c|c d|c|m|kind elf]; cbn [Main.execute_command].
  - apply Hgo, Hq, Hc.
  - apply Hgo, Hq. apply tidy_try; [|intros; apply Hc]. unfold absolute_from_cwd.
    destruct (is_absolute d); [apply tidy_ret|]. apply tidy_try; [apply tidy_look|].
    intros; apply tidy_ret.
  - apply Hgo, Hq, Hc.
  - assert (does (let? _ := (let? p := Main.resolve_project_path m in clean_project p) in
      pret (Ok "")) s (fun r s' => leftover r ∅ /\ temps s' ⊆ temps s)) as (r & s' & E & Hl & Ht).
    { eapply does_try with (R := fun r s' => leftover r ∅ /\ temps s' ⊆ temps s).
      - eapply does_try with (R := fun _ s' => s' = s); [|intros e s1 ->; by split; [left|]|].
        + unfold Main.resolve_project_path. destruct m; [|by apply does_look].
          apply does_try_pure; [done|]. intros dir _. destruct (str_is_empty dir); by apply does_look.
        + intros p s1 ->. apply clean_does.
      - intros e s1 [_ Ht]. split; [by left|done].
      - intros [] s1 [_ Ht]. apply does_ret. split; [by left|done]. }
    exists r, s', ∅. split_and!; [done|done|set_solver|]. intros Hm. by destruct (Hm m).
  - apply Hgo. unfold Main.inspect_uuid. apply tidy_try; [|intros; apply tidy_ret].
    apply tidy_clean. intros s0 evs s1 He. destruct kind;
      (eapply does_mono; [apply read_ta_uuid_does || apply read_plugin_uuid_does|]);
      cbn beta; intros r s2 [-> _]; eauto.
Qed.

End Commands.

(** ** The choice of the artifact *)

Lemma ends_with_spec p s : ends_with p s = true <-> exists pre, s = pre +:+ p.
Proof.
  induction s as [|x s IH]; cbn [ends_with].
  - rewrite orb_false_r, String.eqb_eq. split; [intros <-; by exists ""|].
    intros ([] & E); [done|discriminate].
  - rewrite orb_true_iff, String.eqb_eq, IH. split.
    + intros [<-|(pre & ->)]; [by exists ""|by exists (String x pre)].
    + intros ([|y pre] & E); [by left|]. injection E as -> ->. right. by exists pre.
Qed.

Lemma existsb_mem (x : string) l : existsb (fun k => (k =? x)%string) l = true <-> x ∈ l.
Proof.
  rewrite existsb_exists, list_elem_of_In. split.
  - intros (k & Hk & ->%String.eqb_eq). done.
  - intros Hx. exists x. by rewrite String.eqb_refl.
Qed.

Section Artifacts.
Context {St : Type} {HO : Host St}.
Variables (kind : CargoArtifactKind) (s : St).

Definition canonical (p : path) : path := match canonicalize p s with Ok q => q | Err _ => p end.

(** A file that [a] reports, if it is of the package with the canonical manifest
    [expected], and not of a test or a build script. *)
Definition reports (expected : path) (a : Artifact) (q : path) : Prop :=
  path_eqb (canonical (manifest_of a)) expected = true /\ profile_test a = false /\
  ("custom-build" ∉ target_kind a) /\
  match kind with
  | CargoArtifactKind.Bin => executable a = Some q
  | CargoArtifactKind.Cdylib =>
      "cdylib" ∈ crate_types a /\ q ∈ filenames a /\ exists pre, q = pre +:+ ".so"
  end.

Definition candidate (manifest : path) (messages : list (io Message)) (q : path) : Prop :=
  exists a, Ok (CompilerArtifact a) ∈ messages /\ reports (canonical manifest) a q.

Lemma artifact_files_spec expected a q :
  q ∈ artifact_files expected kind a s <-> reports expected a q.
Proof.
  unfold artifact_files, reports. change (match canonicalize (manifest_of a) s with Ok p => p | Err _ => manifest_of a end)
    with (canonical (manifest_of a)).
  destruct (path_eqb _ expected); cbn [negb]; [|split; [by intros ?%elem_of_nil|by intros [? _]]].
  destruct (profile_test a); [split; [by intros ?%elem_of_nil|by intros (_ & ? & _)]|].
  pose proof (existsb_mem "custom-build" (target_kind a)) as Hcb.
  destruct (existsb _ (target_kind a)).
  { split; [by intros ?%elem_of_nil|]. intros (_ & _ & H & _). by destruct H; apply Hcb. }
  assert ("custom-build" ∉ target_kind a) as Hn by (intros H; by apply Hcb in H).
  destruct kind.
  - destruct (executable a) as [x|].
    + rewrite list_elem_of_singleton. split; [by intros ->|]. by intros (_ & _ & _ & [= ->]).
    + split; [by intros ?%elem_of_nil|by intros (_ & _ & _ & ?)].
  - pose proof (existsb_mem "cdylib" (crate_types a)) as Hcd.
    destruct (existsb _ (crate_types a)).
    + rewrite list_elem_of_In, filter_In, ends_with_spec, <-list_elem_of_In.
      split; [|tauto]. intros [? ?]. split_and!; try done. by apply Hcd.
    + split; [by intros ?%elem_of_nil|]. intros (_ & _ & _ & H & _). by apply Hcd in H.
Qed.

Lemma collect_spec expected messages l :
  collect_messages expected kind messages s = Ok l ->
  Forall (fun m => is_ok m = true) messages /\
  forall q, q ∈ l <-> exists a, Ok (CompilerArtifact a) ∈ messages /\ reports expected a q.
Proof.
  revert l. induction messages as [|[m|e] messages IH]; intros l; cbn [collect_messages]; [|
    destruct (collect_messages expected kind messages s) as [l'|]|done].
  - intros [= <-]. split; [done|]. intros q. split; [by intros ?%elem_of_nil|].
    by intros (a & ?%elem_of_nil & _).
  - cbn [result_bind]. intros [= <-]. destruct (IH l' eq_refl) as [Ho Hq]. split; [by constructor|].
    intros q. setoid_rewrite elem_of_cons.
    destruct m as [| |a|]; try (rewrite Hq; split;
      [intros (b & ? & ?); exists b; auto|intros (b & [[=]|?] & ?); eauto]).
    rewrite elem_of_app, artifact_files_spec, Hq. split.
    + intros [Hr|(b & ? & ?)]; [by exists a; auto|by exists b; auto].
    + intros (b & [[= ->]|Hb] & Hr); [by left|right; by exists b].
  - cbn [result_bind]. done.
Qed.

Lemma collect_total expected messages :
  Forall (fun m => is_ok m = true) messages ->
  exists l, collect_messages expected kind messages s = Ok l.
Proof.
  induction 1 as [|m messages Hm _ [l IH]]; [by exists []|]. destruct m; [|done].
  cbn [collect_messages]. rewrite IH. eauto.
Qed.

(** *** Sorting and removing repetitions *)

Lemma path_eqb_eq p q : path_eqb p q = true <-> path_key p = path_key q.
Proof. apply bool_decide_eq_true. Qed.

Lemma sort_insert_perm p l : sort_insert p l ≡ₚ p :: l.
Proof.
  induction l as [|q l IH]; [done|]. cbn [sort_insert]. destruct (path_leb p q); [done|].
  rewrite IH. constructor.
Qed.

Lemma sort_perm l : sort l ≡ₚ l.
Proof. induction l as [|p l IH]; [done|]. cbn [sort foldr]. rewrite sort_insert_perm. by constructor. Qed.

Lemma dedup_from_nil p l : dedup_from p l = [] <-> forall q, q ∈ l -> path_eqb q p = true.
Proof.
  revert p. induction l as [|q l IH]; intros p; cbn [dedup_from].
  - split; [by intros _ q ?%elem_of_nil|done].
  - setoid_rewrite elem_of_cons. destruct (path_eqb q p) eqn:E.
    + rewrite IH. split; [intros H x [->|Hx]; auto|auto].
    + split; [done|]. intros H. rewrite (H q) in E by auto. done.
Qed.

Lemma unique_spec l manifest p :
  unique_cargo_artifact l manifest = Ok p ->
  p ∈ l /\ forall q, q ∈ l -> path_eqb q p = true.
Proof.
  assert (forall x, x ∈ l <-> x ∈ sort l) as Hs by (intros x; by rewrite sort_perm).
  unfold unique_cargo_artifact. setoid_rewrite Hs. clear Hs.
  destruct (sort l) as [|x r]; [done|]. cbn [dedup].
  destruct (dedup_from x r) eqn:E; [|done]. intros [= <-].
  rewrite dedup_from_nil in E. setoid_rewrite elem_of_cons. split; [by left|].
  intros q [->|Hq]; [by apply path_eqb_eq|auto].
Qed.

Lemma unique_total l manifest q :
  q ∈ l -> (forall x, x ∈ l -> path_eqb x q = true) -> exists p, unique_cargo_artifact l manifest = Ok p.
Proof.
  assert (forall x, x ∈ l <-> x ∈ sort l) as Hs by (intros x; by rewrite sort_perm).
  unfold unique_cargo_artifact. setoid_rewrite Hs. clear Hs.
  destruct (sort l) as [|x r]; [by intros ?%elem_of_nil|]. intros _ H. cbn [dedup].
  assert (dedup_from x r = []) as ->; [|by eexists]. apply dedup_from_nil. intros y Hy.
  rewrite path_eqb_eq. transitivity (path_key q); [|symmetry]; apply path_eqb_eq, H, elem_of_cons; auto.
Qed.

(** The artifact of a build.  A path is chosen exactly when cargo's messages
    were all read and the files that they report for this package (executables, or
    shared objects of a [cdylib]; no tests, no build scripts) are all the same path
    and there is one: it is that path. *)
Lemma artifact_selection messages manifest :
  (forall p,
     (try l := collect_cargo_artifacts messages manifest kind s in unique_cargo_artifact l manifest)
     = Ok p ->
     Forall (fun m => is_ok m = true) messages /\ candidate manifest messages p /\
     forall q, candidate manifest messages q -> path_eqb q p = true) /\
  (forall q,
     Forall (fun m => is_ok m = true) messages -> candidate manifest messages q ->
     (forall x, candidate manifest messages x -> path_eqb x q = true) ->
     exists p, (try l := collect_cargo_artifacts messages manifest kind s in
                unique_cargo_artifact l manifest) = Ok p).
Proof.
  unfold collect_cargo_artifacts, candidate.
  change (match canonicalize manifest s with Ok p => p | Err _ => manifest end)
    with (canonical manifest). split.
  - intros p. destruct (collect_messages _ kind messages s) as [l|] eqn:E; [|done].
    cbn [result_bind]. intros Hu. apply collect_spec in E as [Ho Hq]. apply unique_spec in Hu as [Hp Hu].
    split_and!; [done|by apply Hq|]. intros q Hc. apply Hu. by apply Hq.
  - intros q Ho Hc Hx. destruct (collect_total (canonical manifest) messages Ho) as [l E].
    rewrite E. cbn [result_bind]. apply collect_spec in E as [_ Hq].
    apply (unique_total _ _ q); [by apply Hq|]. intros x Hxl. apply Hx. by apply Hq.
Qed.

End Artifacts.

(** ** An example: a host on which every command succeeds *)
Module CargoExamples.
#[local] Instance host_target : Target := 64.
#[local] Instance host_profile : Profile := true.

(** The temporary files and the log. *)
Record disk : Type := mkDisk { tmp_files : gset path; log : list event }.

Definition metadata : Value :=
  Object [("optee", Object [("ta", Object [
    ("std", Bool true); ("ta-dev-kit-dir", Object [("aarch64", VString "kit")]);
    ("env", Array [VString "A=1"; VString "B=2"])])])].

Definition artifact : Artifact :=
  mkArtifact "/p/Cargo.toml" ["bin"] ["bin"] false ["/p/target/ta"] (Some "/p/target/ta").

Definition new_temp (name : path) (s : disk) : io path * disk :=
  if decide (name ∈ tmp_files s) then (Err 17%Z, s)
  else (Ok name, mkDisk ({[name]} ∪ tmp_files s) (log s)).

Definition variables : list (string * string) :=
  [("RUSTFLAGS", "-g"); ("__CARGO_TESTS_ONLY_SRC_ROOT", "/rust/library"); ("TA_SIGN_KEY", "key.pem")].

#[local] Instance disk_host : Host disk := {|
  var_os k := last_binding k variables;
  is_unicode _ := true;
  os_current_dir _ := Ok "/p";
  canonicalize p _ := Ok p;
  path_exists _ _ := true;
  is_dir _ _ := true;
  is_file _ _ := true;
  fs_read _ _ := Ok ElfExamples.file;
  fs_write _ _ s := (Ok tt, s);
  fs_copy _ _ s := (Ok tt, s);
  fs_rename p _ s := (Ok tt, mkDisk (tmp_files s ∖ {[p]}) (log s));
  fs_set_mode _ _ s := (Ok tt, s);
  fs_remove_dir_all _ s := (Ok tt, s);
  os_tempfile_in d pre suf s := new_temp (join d (pre +:+ "0" +:+ suf)) s;
  os_tempdir s := new_temp "/tmp/0" s;
  os_keep _ s := (Ok tt, s);
  os_drop_temp p s := mkDisk (tmp_files s ∖ {[p]}) (log s);
  os_status c s := (Ok (Some 0%Z), mkDisk (tmp_files s) (log s ++ [Ran c (Ok (Some 0%Z))])%list);
  os_cargo_json c s :=
    (Ok ([Ok (TextLine "Compiling"); Ok (CompilerArtifact artifact)], Ok (Some 0%Z)),
     mkDisk (tmp_files s) (log s ++ [Ran c (Ok (Some 0%Z))])%list);
  cargo_metadata _ _ := Ok (mkMetadata (Some (mkPackage "/p/Cargo.toml" metadata)) [])
|}.

Lemma new_temp_ok name s r s' :
  new_temp name s = (r, s') ->
  log s' = log s /\
  match r with
  | Ok p => (p ∉ tmp_files s) /\ tmp_files s' = {[p]} ∪ tmp_files s
  | Err _ => tmp_files s' = tmp_files s
  end.
Proof. unfold new_temp. case_decide; by intros [= <- <-]. Qed.

#[local] Instance disk_ok : HostOk disk.
Proof.
  refine {| temps := tmp_files; history := log |}.
  - intros d pre suf. apply new_temp_ok.
  - apply new_temp_ok.
  - done.
  - by intros p s r s' [= <- <-].
  - by intros p q s r s' [= <- <-].
  - by intros p q s r s' [= <- <-].
  - by intros p d s r s' [= <- <-].
  - by intros p m s r s' [= <- <-].
  - by intros p s r s' [= <- <-].
  - by intros c s r s' [= <- <-].
  - by intros c s r s' [= <- <-].
Defined.

#[local] Instance crates : Crates := {|
  Uuid := bytes;
  Elf_parse _ := Some ElfExamples.elf;
  from_bytes_le b := b;
  uuid_to_string _ := "u-u-i-d";
  AARCH64_TARGET_JSON := "{}";
  ARM_TARGET_JSON := "{}"
|}.

#[local] Instance crates_ok : CratesOk.
Proof.
  split.
  - intros data elf [= <-]. split; repeat constructor; by vm_compute.
  - by intros p s data [= <-].
Qed.

Definition start : disk := mkDisk {["/tmp/other"]} [].

Definition cli_overrides : BuildOverrides :=
  mkOverrides None None [("B", "3"); ("RUSTFLAGS", "-O")] false None.

Definition config : TaBuildConfig :=
  mkTaConfig Arch.Aarch64 false "/p" [("A", "1"); ("B", "2"); ("B", "3"); ("RUSTFLAGS", "-O")]
    false None true "/p/kit" "/p/key.pem".

Example example_config :
  resolve_ta "/p" cli_overrides None None None true start = Ok config.
Proof. reflexivity. Qed.

(** The last value of [B], and the custom [RUSTFLAGS]. *)
Lemma command_environment_witness :
  exists cmd t s2,
    setup_build_command config "build" start = Ret (Ok (cmd, t), s2) /\
    envs cmd !! "B" = Some "3" /\ envs cmd !! "RUSTFLAGS" = Some "-O" /\
    envs cmd !! "CROSS_COMPILE" = Some "aarch64-linux-gnu-".
Proof.
  assert (is_Some match setup_build_command config "build" start with
                  | Ret (Ok x, s2) => Some (x, s2) | _ => None end) as [[[cmd t] s2] E]
    by (vm_compute; eauto).
  exists cmd, t, s2.
  assert (setup_build_command config "build" start = Ret (Ok (cmd, t), s2)) as E'
    by (destruct (setup_build_command config "build" start) as [[[] ?]| |]; congruence).
  destruct (proj1 (command_environment "/p" cli_overrides None None None true None false "build" start)
    config start cmd t s2 example_config E') as (md & s3 & Hmd & _ & _ & Hv).
  assert (last_binding "B" (table_env md) = Some "2" /\ last_binding "RUSTFLAGS" (table_env md) = None)
    as [HB HR].
  { assert (Some md = project_table "/p" ComponentType.Ta None start) as Hmd' by exact (eq_sym Hmd).
    vm_compute in Hmd'. injection Hmd' as ->. by vm_compute. }
  split; [exact E'|]. rewrite !Hv. cbn [o_env cli_overrides]. rewrite HB, HR. by vm_compute.
Defined.

(** The build succeeds, so it has run the three commands. *)
Lemma ta_build_pipeline_witness :
  exists s' checks new,
    TaBuilder.build_ta config (Some "/shared") start = Ret (Ok tt, s') /\
    log s' = (checks ++ new)%list /\ tmp_files s' = {["/tmp/other"]} /\
    built (TaBuilder.at_path config "/p") start checks new.
Proof.
  destruct (ta_build_pipeline config (Some "/shared") start)
    as (r & s' & checks & new & left & E & Hh & Ht & Hd & Hl & _ & Hok).
  assert (r = Ok tt) as -> by (vm_compute in E; congruence).
  destruct (Hok eq_refl) as (p & r1 & r2 & [= <-] & _ & Hb).
  exists s', checks, new. split; [exact E|]. split; [exact Hh|]. split; [|exact Hb].
  change (temps s' = {["/tmp/other"]}). rewrite Ht.
  destruct Hl as [->|(tmp & _ & d & n & [=])]. by rewrite (left_id_L ∅ (∪)).
Defined.

Lemma commands_leave_no_temps_witness :
  exists s', Main.execute_command (Cli.InspectUuid Cli.UuidTa "/p/target/ta") start
             = Ret (Ok "u-u-i-d", s') /\ tmp_files s' = {["/tmp/other"]}.
Proof.
  destruct (commands_leave_no_temps (Cli.InspectUuid Cli.UuidTa "/p/target/ta") start)
    as (r & s' & left & E & Hl & _ & Ht).
  assert (r = Ok "u-u-i-d") as -> by (vm_compute in E; congruence).
  exists s'. split; [exact E|]. change (temps s' = {["/tmp/other"]}).
  destruct (Ht ltac:(done)) as [-> _].
  destruct Hl as [->|(tmp & _ & d & n & [=])]. by rewrite (left_id_L ∅ (∪)).
Defined.

Lemma artifact_selection_witness :
  exists p, (try l := collect_cargo_artifacts [Ok (TextLine "Compiling"); Ok (CompilerArtifact artifact)]
                        "/p/Cargo.toml" CargoArtifactKind.Bin start in
             unique_cargo_artifact l "/p/Cargo.toml") = Ok p.
Proof.
  apply (proj2 (artifact_selection CargoArtifactKind.Bin start
    [Ok (TextLine "Compiling"); Ok (CompilerArtifact artifact)] "/p/Cargo.toml") "/p/target/ta").
  - by repeat constructor.
  - exists artifact. split; [right; left|]. split_and!; [done|done|decide_closed|done].
  - intros x (a & Ha & (_ & _ & _ & Hx)). apply elem_of_cons in Ha as [[=]|Ha].
    apply list_elem_of_singleton in Ha as [= ->]. by injection Hx as <-.
Defined.

End CargoExamples.
