(* ===== verification/Utf8.v ===== *)
(** * UTF-8

    [str::from_utf8] and [String::from_utf8_lossy], which the crates use on bytes
    they get from the TEE or from a tool.  Strings are their bytes. *)

From S2P Require Import Prelude.

(** A continuation byte. *)
Definition continues (b : Z) : bool := (0x80 <=? b) && (b <=? 0xBF).

(** The second byte of a sequence of three or four is restricted by the first. *)
Definition second_of_three (b c : Z) : bool :=
  ((b =? 0xE0) && (0xA0 <=? c) && (c <=? 0xBF))
  || ((0xE1 <=? b) && (b <=? 0xEC) && continues c)
  || ((b =? 0xED) && (0x80 <=? c) && (c <=? 0x9F))
  || ((0xEE <=? b) && (b <=? 0xEF) && continues c).
Definition second_of_four (b c : Z) : bool :=
  ((b =? 0xF0) && (0x90 <=? c) && (c <=? 0xBF))
  || ((0xF1 <=? b) && (b <=? 0xF3) && continues c)
  || ((b =? 0xF4) && (0x80 <=? c) && (c <=? 0x8F)).

(** The first character: whether it is well formed and how many bytes it has; if
    it is not, how many bytes are replaced as one. *)
Definition first_char (l : bytes) : bool * nat :=
  match l with
  | [] => (false, 1%nat)
  | b :: r =>
      if b <? 0x80 then (true, 1%nat)
      else if (0xC2 <=? b) && (b <=? 0xDF) then
        match r with
        | c :: _ => if continues c then (true, 2%nat) else (false, 1%nat)
        | [] => (false, 1%nat)
        end
      else if (0xE0 <=? b) && (b <=? 0xEF) then
        match r with
        | c :: r => if second_of_three b c then
                      match r with
                      | d :: _ => if continues d then (true, 3%nat) else (false, 2%nat)
                      | [] => (false, 2%nat)
                      end
                    else (false, 1%nat)
        | [] => (false, 1%nat)
        end
      else if (0xF0 <=? b) && (b <=? 0xF4) then
        match r with
        | c :: r => if second_of_four b c then
                      match r with
                      | d :: e :: _ => if continues d then
                                         if continues e then (true, 4%nat) else (false, 3%nat)
                                       else (false, 2%nat)
                      | [d] => if continues d then (false, 3%nat) else (false, 2%nat)
                      | [] => (false, 2%nat)
                      end
                    else (false, 1%nat)
        | [] => (false, 1%nat)
        end
      else (false, 1%nat)
  end.

(** The fuel is the number of bytes: every character has at least one. *)
Fixpoint valid_utf8_aux (fuel : nat) (l : bytes) : bool :=
  match l, fuel with
  | [], _ => true
  | _, O => false
  | _, S fuel => let '(ok, n) := first_char l in ok && valid_utf8_aux fuel (drop n l)
  end.
Definition valid_utf8 (l : bytes) : bool := valid_utf8_aux (length l) l.

Definition from_utf8 (l : bytes) : option bytes := if valid_utf8 l then Some l else None.

Definition replacement_character : bytes := [0xEF; 0xBF; 0xBD].

Fixpoint lossy_aux (fuel : nat) (l : bytes) : bytes :=
  match l, fuel with
  | [], _ | _, O => []
  | _, S fuel =>
      let '(ok, n) := first_char l in
      (if ok then take n l else replacement_character) ++ lossy_aux fuel (drop n l)
  end.
Definition from_utf8_lossy (l : bytes) : bytes := lossy_aux (length l) l.

Example lossy_examples :
  from_utf8_lossy [0x68; 0xC3; 0xA9; 0xE4; 0xB8; 0xAD] = [0x68; 0xC3; 0xA9; 0xE4; 0xB8; 0xAD] /\
  from_utf8_lossy [0xE4; 0xB8; 0x41] = replacement_character ++ [0x41] /\
  from_utf8_lossy [0xFF; 0xFE] = replacement_character ++ replacement_character.
Proof. done. Qed.

(** Well-formed text is left as it is. *)
Lemma lossy_aux_valid fuel l : valid_utf8_aux fuel l = true -> lossy_aux fuel l = l.
Proof.
  revert l. induction fuel as [|fuel IH]; intros [|b l]; try done.
  cbn [valid_utf8_aux lossy_aux]. destruct (first_char (b :: l)) as [[] n]; [|done].
  cbn [andb]. intros Hv. by rewrite IH, take_drop.
Qed.

Lemma from_utf8_lossy_valid l : valid_utf8 l = true -> from_utf8_lossy l = l.
Proof. apply lossy_aux_valid. Qed.

Lemma valid_utf8_ascii l : Forall (fun b => 0 <= b < 0x80) l -> valid_utf8 l = true.
Proof.
  unfold valid_utf8. induction 1 as [|b l Hb _ IH]; [done|].
  cbn [length valid_utf8_aux first_char]. rewrite (proj2 (Z.ltb_lt b 0x80)) by lia. exact IH.
Qed.
