(* ===== verification/Properties.v ===== *)
(** * Properties, identities and time: [optee-utee/src/property.rs],
      [identity.rs], [time.rs]

    A property is read by its set and its name, as one of seven types.  The TEE's
    calls are the interface [TeeProperties]; what is documented of them,
    [TeePropertiesOk], is stated over the table of properties the TEE has.  The
    types a TA reads are the instances of [PropertyValue], as in the source. *)

From S2P Require Import Prelude TeeDefines UteeError Uuids Utf8.

(** ** Raw data *)

(** [TEE_Identity]. *)
Record TEE_Identity : Type := mkTeeIdentity { login : Z; id_uuid : TEE_UUID }.

Definition TEE_PROPSET_TEE_IMPLEMENTATION : Z := 0xFFFFFFFD.
Definition TEE_PROPSET_CURRENT_CLIENT : Z := 0xFFFFFFFE.
Definition TEE_PROPSET_CURRENT_TA : Z := 0xFFFFFFFF.

Definition zero_uuid : TEE_UUID := mkTeeUuid 0 0 0 (replicate 8 0).

(** [CString::new] with the terminator. *)
Definition cstring_new (s : bytes) : option bytes :=
  if bool_decide (0 ∈ s) then None else Some (s ++ [0]).

(** [CStr::from_bytes_with_nul]: exactly one NUL, at the end.  Gives the text. *)
Definition from_bytes_with_nul (l : bytes) : option bytes :=
  match rev l with
  | 0 :: t => if bool_decide (0 ∈ t) then None else Some (rev t)
  | _ => None
  end.

(** ** The TEE's calls

    The string and the binary calls get a buffer (none for a null pointer) and
    the size cell's value, and answer a code, the size cell and the buffer; the
    others get the value of the cell and answer a code and its new value. *)
Class TeeProperties (St : Type) : Type := {
  TEE_GetPropertyAsString : Z -> bytes -> option bytes -> Z -> prog St (Z * (Z * bytes));
  TEE_GetPropertyAsBinaryBlock : Z -> bytes -> option bytes -> Z -> prog St (Z * (Z * bytes));
  TEE_GetPropertyAsBool : Z -> bytes -> bool -> prog St (Z * bool);
  TEE_GetPropertyAsU32 : Z -> bytes -> Z -> prog St (Z * Z);
  TEE_GetPropertyAsU64 : Z -> bytes -> Z -> prog St (Z * Z);
  TEE_GetPropertyAsUUID : Z -> bytes -> TEE_UUID -> prog St (Z * TEE_UUID);
  TEE_GetPropertyAsIdentity : Z -> bytes -> TEE_Identity -> prog St (Z * TEE_Identity)
}.

(** ** [identity.rs] *)

Module LoginType.

Inductive LoginType : Type :=
| Public
| User
| Group
| Application
| ApplicationUser
| ApplicationGroup
| TrustedApp
| Unknown (x : Z).

Definition table : list (LoginType * Z) :=
  [(Public, TEE_LOGIN_PUBLIC); (User, TEE_LOGIN_USER); (Group, TEE_LOGIN_GROUP);
   (Application, TEE_LOGIN_APPLICATION); (ApplicationUser, TEE_LOGIN_APPLICATION_USER);
   (ApplicationGroup, TEE_LOGIN_APPLICATION_GROUP); (TrustedApp, TEE_LOGIN_TRUSTED_APP)].

#[export] Instance login_type_eq_dec : EqDecision LoginType.
Proof. solve_decision. Defined.

(** [FromPrimitive] and [IntoPrimitive], as [num_enum] derives them. *)
Definition from (x : Z) : LoginType :=
  match List.find (fun tx => tx.2 =? x) table with Some (t, _) => t | None => Unknown x end.

Definition into (t : LoginType) : Z :=
  match t with
  | Public => TEE_LOGIN_PUBLIC
  | User => TEE_LOGIN_USER
  | Group => TEE_LOGIN_GROUP
  | Application => TEE_LOGIN_APPLICATION
  | ApplicationUser => TEE_LOGIN_APPLICATION_USER
  | ApplicationGroup => TEE_LOGIN_APPLICATION_GROUP
  | TrustedApp => TEE_LOGIN_TRUSTED_APP
  | Unknown x => x
  end.

(** A login reads back to its number, known or not. *)
Lemma into_from x : into (from x) = x.
Proof.
  unfold from. destruct (List.find _ table) as [[t y]|] eqn:E; [|done].
  apply List.find_some in E as [Hin Hy]. apply Z.eqb_eq in Hy. cbn in Hy. subst y.
  cbn in Hin. by repeat destruct Hin as [[= <- <-]|Hin].
Qed.

End LoginType.

Record Identity : Type := mkIdentity { id_raw : TEE_Identity }.

Module IdentityOps.
Definition login_type (self : Identity) : LoginType.LoginType :=
  LoginType.from (login (id_raw self)).
Definition uuid (self : Identity) : Utee.Uuid := Utee.from_raw (id_uuid (id_raw self)).
Definition from_raw (raw : TEE_Identity) : Identity := mkIdentity raw.
End IdentityOps.

(** ** [PropertySet] *)

Inductive PropertySet : Type := TeeImplementation | CurrentClient | CurrentTa.

Definition set_as_raw (self : PropertySet) : Z :=
  match self with
  | TeeImplementation => TEE_PROPSET_TEE_IMPLEMENTATION
  | CurrentClient => TEE_PROPSET_CURRENT_CLIENT
  | CurrentTa => TEE_PROPSET_CURRENT_TA
  end.

(** ** [PropertyValue] *)

(** The trait: how a type is read from a set by a key (with its terminator). *)
Class PropertyValue (St T : Type) : Type := from_raw : Z -> bytes -> prog St (Result T).

(** The types that are byte strings here are told apart by a wrapper. *)
Record Text : Type := mkText { text : bytes }.

Section Values.
Context {St : Type} `{!TeeProperties St}.

(** [impl PropertyValue for String]. *)
#[export] Instance string_value : PropertyValue St Text := fun set key =>
  let* (res, (out_size, _)) := TEE_GetPropertyAsString set key None 0 in
  if res =? TEE_SUCCESS then
    pret (if out_size =? 0 then Ok (mkText []) else bail ErrorKind.Generic)
  else if res =? TEE_ERROR_SHORT_BUFFER then
    let out_buffer := zeros out_size in
    let* (res, (out_size, out_buffer)) :=
      TEE_GetPropertyAsString set key (Some out_buffer) out_size in
    let? _ := pret (tee_check res) in
    match from_bytes_with_nul out_buffer with
    | None => pret (bail ErrorKind.BadFormat)
    | Some c_str => pret (Ok (mkText (from_utf8_lossy c_str)))
    end
  else pret (Err (Error.from_raw_error res)).

(** [impl PropertyValue for Vec<u8>]. *)
#[export] Instance binary_value : PropertyValue St bytes := fun set key =>
  let* (res, (out_size, _)) := TEE_GetPropertyAsBinaryBlock set key None 0 in
  if res =? TEE_SUCCESS then
    pret (if out_size =? 0 then Ok [] else bail ErrorKind.Generic)
  else if res =? TEE_ERROR_SHORT_BUFFER then
    let buf := zeros out_size in
    let* (res, (out_size, buf)) :=
      TEE_GetPropertyAsBinaryBlock set key (Some buf) out_size in
    let? _ := pret (tee_check res) in
    pret (Ok buf)
  else pret (Err (Error.from_raw_error res)).

#[export] Instance bool_value : PropertyValue St bool := fun set key =>
  let* (res, b) := TEE_GetPropertyAsBool set key false in
  let? _ := pret (tee_check res) in
  pret (Ok b).

(** [u32] and [u64] are both [Z] here, so they are wrapped too. *)
Record U32 : Type := mkU32 { u32 : Z }.
Record U64 : Type := mkU64 { u64 : Z }.

#[export] Instance u32_value : PropertyValue St U32 := fun set key =>
  let* (res, value) := TEE_GetPropertyAsU32 set key 0 in
  let? _ := pret (tee_check res) in
  pret (Ok (mkU32 value)).

#[export] Instance u64_value : PropertyValue St U64 := fun set key =>
  let* (res, value) := TEE_GetPropertyAsU64 set key 0 in
  let? _ := pret (tee_check res) in
  pret (Ok (mkU64 value)).

#[export] Instance uuid_value : PropertyValue St Utee.Uuid := fun set key =>
  let* (res, raw_uuid) := TEE_GetPropertyAsUUID set key zero_uuid in
  let? _ := pret (tee_check res) in
  pret (Ok (Utee.from_raw raw_uuid)).

#[export] Instance identity_value : PropertyValue St Identity := fun set key =>
  let* (res, raw_id) := TEE_GetPropertyAsIdentity set key (mkTeeIdentity 0 zero_uuid) in
  let? _ := pret (tee_check res) in
  pret (Ok (IdentityOps.from_raw raw_id)).

End Values.

(** ** [PropertyKey] *)

Section Keys.
Context {St : Type} `{!TeeProperties St}.

(** The trait [PropertyKey]: the associated type, the set and the key's text. *)
Record PropertyKey : Type := mkPropertyKey {
  Output : Type;
  output_value :: PropertyValue St Output;
  set : PropertySet;
  key_text : string
}.

Definition mkKey (T : Type) `{!PropertyValue St T} (s : PropertySet) (k : string) : PropertyKey :=
  mkPropertyKey T _ s k.

(** [key], by [define_property_key]: a text with a NUL byte gives the empty one. *)
Definition key (self : PropertyKey) : bytes :=
  match cstring_new (str_bytes (key_text self)) with Some c => c | None => [0] end.

Definition get (self : PropertyKey) : prog St (Result (Output self)) :=
  from_raw (set_as_raw (set self)) (key self).

End Keys.
#[global] Arguments PropertyKey St : clear implicits.

(** The keys the crate defines. *)
Module Keys.
Section Table.
Context {St : Type} `{!TeeProperties St}.
Open Scope string_scope.

Definition TaAppId : PropertyKey St := mkKey Utee.Uuid CurrentTa "gpd.ta.appID".
Definition TaSingleInstance : PropertyKey St := mkKey bool CurrentTa "gpd.ta.singleInstance".
Definition TaMultiSession : PropertyKey St := mkKey bool CurrentTa "gpd.ta.multiSession".
Definition TaInstanceKeepAlive : PropertyKey St := mkKey bool CurrentTa "gpd.ta.instanceKeepAlive".
Definition TaInstanceKeepCrashed : PropertyKey St :=
  mkKey bool CurrentTa "gpd.ta.instanceKeepCrashed".
Definition TaDataSize : PropertyKey St := mkKey U32 CurrentTa "gpd.ta.dataSize".
Definition TaStackSize : PropertyKey St := mkKey U32 CurrentTa "gpd.ta.stackSize".
Definition TaVersion : PropertyKey St := mkKey Text CurrentTa "gpd.ta.version".
Definition TaDescription : PropertyKey St := mkKey Text CurrentTa "gpd.ta.description".
Definition TaEndian : PropertyKey St := mkKey U32 CurrentTa "gpd.ta.endian".
Definition TaDoesNotCloseHandleOnCorruptObject : PropertyKey St :=
  mkKey bool CurrentTa "gpd.ta.doesNotCloseHandleOnCorruptObject".
Definition ClientIdentity : PropertyKey St := mkKey Identity CurrentClient "gpd.client.identity".
Definition ClientEndian : PropertyKey St := mkKey U32 CurrentClient "gpd.client.endian".
Definition TeeApiVersion : PropertyKey St := mkKey Text TeeImplementation "gpd.tee.apiversion".
Definition TeeInternalCoreVersion : PropertyKey St :=
  mkKey U32 TeeImplementation "gpd.tee.internalCore.version".
Definition TeeDescription : PropertyKey St := mkKey Text TeeImplementation "gpd.tee.description".
Definition TeeDeviceId : PropertyKey St := mkKey Utee.Uuid TeeImplementation "gpd.tee.deviceID".
Definition TeeSystemTimeProtectionLevel : PropertyKey St :=
  mkKey U32 TeeImplementation "gpd.tee.systemTime.protectionLevel".
Definition TeeTaPersistentTimeProtectionLevel : PropertyKey St :=
  mkKey U32 TeeImplementation "gpd.tee.TAPersistentTime.protectionLevel".
Definition TeeArithMaxBigIntSize : PropertyKey St :=
  mkKey U32 TeeImplementation "gpd.tee.arith.maxBigIntSize".
Definition TeeCryptographyEcc : PropertyKey St :=
  mkKey bool TeeImplementation "gpd.tee.cryptography.ecc".
Definition TeeCryptographyNist : PropertyKey St :=
  mkKey bool TeeImplementation "gpd.tee.cryptography.nist".
Definition TeeCryptographyBsiR : PropertyKey St :=
  mkKey bool TeeImplementation "gpd.tee.cryptography.bsi-r".
Definition TeeCryptographyBsiT : PropertyKey St :=
  mkKey bool TeeImplementation "gpd.tee.cryptography.bsi-t".
Definition TeeCryptographyIetf : PropertyKey St :=
  mkKey bool TeeImplementation "gpd.tee.cryptography.ietf".
Definition TeeCryptographyOcta : PropertyKey St :=
  mkKey bool TeeImplementation "gpd.tee.cryptography.octa".
Definition TeeTrustedStoragePrivateRollbackProtection : PropertyKey St :=
  mkKey U32 TeeImplementation "gpd.tee.trustedStorage.private.rollbackProtection".
Definition TeeTrustedStoragePersoRollbackProtection : PropertyKey St :=
  mkKey U32 TeeImplementation "gpd.tee.trustedStorage.perso.rollbackProtection".
Definition TeeTrustedStorageProtectedRollbackProtection : PropertyKey St :=
  mkKey U32 TeeImplementation "gpd.tee.trustedStorage.protected.rollbackProtection".
Definition TeeTrustedStorageAntiRollbackProtectionLevel : PropertyKey St :=
  mkKey U32 TeeImplementation "gpd.tee.trustedStorage.antiRollback.protectionLevel".
Definition TeeTrustedStorageRollbackDetectionProtectionLevel : PropertyKey St :=
  mkKey U32 TeeImplementation "gpd.tee.trustedStorage.rollbackDetection.protectionLevel".
Definition TeeTrustedOsImplementationVersion : PropertyKey St :=
  mkKey Text TeeImplementation "gpd.tee.trustedos.implementation.version".
Definition TeeTrustedOsImplementationBinaryVersion : PropertyKey St :=
  mkKey U32 TeeImplementation "gpd.tee.trustedos.implementation.binaryversion".
Definition TeeTrustedOsManufacturer : PropertyKey St :=
  mkKey Text TeeImplementation "gpd.tee.trustedos.manufacturer".
Definition TeeFirmwareImplementationVersion : PropertyKey St :=
  mkKey Text TeeImplementation "gpd.tee.firmware.implementation.version".
Definition TeeFirmwareImplementationBinaryVersion : PropertyKey St :=
  mkKey U32 TeeImplementation "gpd.tee.firmware.implementation.binaryversion".
Definition TeeFirmwareManufacturer : PropertyKey St :=
  mkKey Text TeeImplementation "gpd.tee.firmware.manufacturer".
Definition TeeEventMaxSources : PropertyKey St :=
  mkKey U32 TeeImplementation "gpd.tee.event.maxSources".

End Table.
End Keys.

Definition all_keys {St : Type} `{!TeeProperties St} : list (PropertyKey St) :=
  [Keys.TaAppId; Keys.TaSingleInstance; Keys.TaMultiSession; Keys.TaInstanceKeepAlive;
   Keys.TaInstanceKeepCrashed; Keys.TaDataSize; Keys.TaStackSize; Keys.TaVersion;
   Keys.TaDescription; Keys.TaEndian; Keys.TaDoesNotCloseHandleOnCorruptObject;
   Keys.ClientIdentity; Keys.ClientEndian; Keys.TeeApiVersion;
   Keys.TeeInternalCoreVersion; Keys.TeeDescription; Keys.TeeDeviceId;
   Keys.TeeSystemTimeProtectionLevel; Keys.TeeTaPersistentTimeProtectionLevel;
   Keys.TeeArithMaxBigIntSize; Keys.TeeCryptographyEcc; Keys.TeeCryptographyNist;
   Keys.TeeCryptographyBsiR; Keys.TeeCryptographyBsiT; Keys.TeeCryptographyIetf;
   Keys.TeeCryptographyOcta; Keys.TeeTrustedStoragePrivateRollbackProtection;
   Keys.TeeTrustedStoragePersoRollbackProtection;
   Keys.TeeTrustedStorageProtectedRollbackProtection;
   Keys.TeeTrustedStorageAntiRollbackProtectionLevel;
   Keys.TeeTrustedStorageRollbackDetectionProtectionLevel;
   Keys.TeeTrustedOsImplementationVersion; Keys.TeeTrustedOsImplementationBinaryVersion;
   Keys.TeeTrustedOsManufacturer; Keys.TeeFirmwareImplementationVersion;
   Keys.TeeFirmwareImplementationBinaryVersion; Keys.TeeFirmwareManufacturer;
   Keys.TeeEventMaxSources].

(** ** What is documented of the calls

    The TEE has a table of properties, by set and name (without its terminator). *)

Inductive raw_prop : Type :=
| PBool (b : bool)
| PU32 (x : Z)
| PU64 (x : Z)
| PUuid (u : TEE_UUID)
| PIdentity (i : TEE_Identity)
| PString (v : bytes)
| PBinary (v : bytes).

Definition prop_wf (p : raw_prop) : Prop :=
  match p with PString v => 0 ∉ v | _ => True end.

(** A buffer and the value of the size cell that go together. *)
Definition buffer_of_size (buf : option bytes) (n : Z) : Prop :=
  match buf with None => n = 0 | Some b => len b = n end.

(** The answer of a call that copies [data] out. *)
Definition copy_out (data : bytes) (buf : option bytes) (n : Z) : Z * (Z * bytes) :=
  if n <? len data then (TEE_ERROR_SHORT_BUFFER, (len data, default [] buf))
  else (TEE_SUCCESS, (len data, data ++ drop (length data) (default [] buf))).

(** A call is refused with a code. *)
Definition refused {St A} (call : prog St (Z * A)) (s : St) (code : Z) : Prop :=
  exists a, call s = Ret ((code, a), s).

Class TeePropertiesOk (St : Type) `{!TeeProperties St} : Type := {
  property : St -> Z -> bytes -> option raw_prop;

  string_found s h k v buf n :
    property s h k = Some (PString v) -> 0 ∉ k -> buffer_of_size buf n ->
    TEE_GetPropertyAsString h (k ++ [0]) buf n s = Ret (copy_out (v ++ [0]) buf n, s);
  binary_found s h k v buf n :
    property s h k = Some (PBinary v) -> 0 ∉ k -> buffer_of_size buf n ->
    TEE_GetPropertyAsBinaryBlock h (k ++ [0]) buf n s = Ret (copy_out v buf n, s);
  bool_found s h k b x :
    property s h k = Some (PBool b) -> 0 ∉ k ->
    TEE_GetPropertyAsBool h (k ++ [0]) x s = Ret ((TEE_SUCCESS, b), s);
  u32_found s h k y x :
    property s h k = Some (PU32 y) -> 0 ∉ k ->
    TEE_GetPropertyAsU32 h (k ++ [0]) x s = Ret ((TEE_SUCCESS, y), s);
  u64_found s h k y x :
    property s h k = Some (PU64 y) -> 0 ∉ k ->
    TEE_GetPropertyAsU64 h (k ++ [0]) x s = Ret ((TEE_SUCCESS, y), s);
  uuid_found s h k u x :
    property s h k = Some (PUuid u) -> 0 ∉ k ->
    TEE_GetPropertyAsUUID h (k ++ [0]) x s = Ret ((TEE_SUCCESS, u), s);
  identity_found s h k i x :
    property s h k = Some (PIdentity i) -> 0 ∉ k ->
    TEE_GetPropertyAsIdentity h (k ++ [0]) x s = Ret ((TEE_SUCCESS, i), s);

  (* no property of that name *)
  string_absent s h k buf n : property s h k = None -> 0 ∉ k ->
    refused (TEE_GetPropertyAsString h (k ++ [0]) buf n) s TEE_ERROR_ITEM_NOT_FOUND;
  binary_absent s h k buf n : property s h k = None -> 0 ∉ k ->
    refused (TEE_GetPropertyAsBinaryBlock h (k ++ [0]) buf n) s TEE_ERROR_ITEM_NOT_FOUND;
  bool_absent s h k x : property s h k = None -> 0 ∉ k ->
    refused (TEE_GetPropertyAsBool h (k ++ [0]) x) s TEE_ERROR_ITEM_NOT_FOUND;
  u32_absent s h k x : property s h k = None -> 0 ∉ k ->
    refused (TEE_GetPropertyAsU32 h (k ++ [0]) x) s TEE_ERROR_ITEM_NOT_FOUND;
  u64_absent s h k x : property s h k = None -> 0 ∉ k ->
    refused (TEE_GetPropertyAsU64 h (k ++ [0]) x) s TEE_ERROR_ITEM_NOT_FOUND;
  uuid_absent s h k x : property s h k = None -> 0 ∉ k ->
    refused (TEE_GetPropertyAsUUID h (k ++ [0]) x) s TEE_ERROR_ITEM_NOT_FOUND;
  identity_absent s h k x : property s h k = None -> 0 ∉ k ->
    refused (TEE_GetPropertyAsIdentity h (k ++ [0]) x) s TEE_ERROR_ITEM_NOT_FOUND;

  (* a property of another type; a text is given of every property *)
  binary_mismatch s h k p buf n : property s h k = Some p -> 0 ∉ k ->
    (forall v, p <> PBinary v) ->
    refused (TEE_GetPropertyAsBinaryBlock h (k ++ [0]) buf n) s TEE_ERROR_BAD_FORMAT;
  bool_mismatch s h k p x : property s h k = Some p -> 0 ∉ k -> (forall b, p <> PBool b) ->
    refused (TEE_GetPropertyAsBool h (k ++ [0]) x) s TEE_ERROR_BAD_FORMAT;
  u32_mismatch s h k p x : property s h k = Some p -> 0 ∉ k -> (forall y, p <> PU32 y) ->
    refused (TEE_GetPropertyAsU32 h (k ++ [0]) x) s TEE_ERROR_BAD_FORMAT;
  u64_mismatch s h k p x : property s h k = Some p -> 0 ∉ k -> (forall y, p <> PU64 y) ->
    refused (TEE_GetPropertyAsU64 h (k ++ [0]) x) s TEE_ERROR_BAD_FORMAT;
  uuid_mismatch s h k p x : property s h k = Some p -> 0 ∉ k -> (forall u, p <> PUuid u) ->
    refused (TEE_GetPropertyAsUUID h (k ++ [0]) x) s TEE_ERROR_BAD_FORMAT;
  identity_mismatch s h k p x :
    property s h k = Some p -> 0 ∉ k -> (forall i, p <> PIdentity i) ->
    refused (TEE_GetPropertyAsIdentity h (k ++ [0]) x) s TEE_ERROR_BAD_FORMAT
}.

(** ** What [PropertyValue] promises

    [as_value p] is what reading the property [p] gives; [None] where the
    documentation leaves it open (the text of a property that is not a string). *)
Class PropertyValueOk (St T : Type) `{TeePropertiesOk St} {V : PropertyValue St T} : Type := {
  as_value : raw_prop -> option (Result T);
  from_raw_found s h k p r :
    property s h k = Some p -> 0 ∉ k -> prop_wf p -> as_value p = Some r ->
    from_raw h (k ++ [0]) s = Ret (r, s);
  from_raw_absent s h k :
    property s h k = None -> 0 ∉ k ->
    from_raw (T := T) h (k ++ [0]) s
    = Ret (Err (Error.from_raw_error TEE_ERROR_ITEM_NOT_FOUND), s)
}.

Definition expect {T} (o : option T) : option (Result T) :=
  Some (match o with
        | Some t => Ok t
        | None => Err (Error.from_raw_error TEE_ERROR_BAD_FORMAT)
        end).

Lemma with_nul_text v : 0 ∉ v -> from_bytes_with_nul (v ++ [0]) = Some v.
Proof.
  intros Hv. unfold from_bytes_with_nul. rewrite rev_unit. rewrite bool_decide_eq_false_2.
  - by rewrite rev_involutive.
  - by rewrite list_elem_of_In, <-in_rev, <-list_elem_of_In.
Qed.

(** A call on one cell: refused, or answered. *)
Lemma refused_check {St A T} (call : prog St (Z * A)) (f : A -> T) s code :
  refused call s code -> code <> TEE_SUCCESS ->
  (let* (res, x) := call in let? _ := pret (tee_check res) in pret (Ok (f x))) s
  = Ret (Err (Error.from_raw_error code), s).
Proof.
  intros (a & E) Hc. rewrite (pbind_Ret _ _ _ _ _ E). unfold tee_check.
  by rewrite (proj2 (Z.eqb_neq _ _) Hc).
Qed.

Lemma answered_check {St A T} (call : prog St (Z * A)) (f : A -> T) s a :
  call s = Ret ((TEE_SUCCESS, a), s) ->
  (let* (res, x) := call in let? _ := pret (tee_check res) in pret (Ok (f x))) s
  = Ret (Ok (f a), s).
Proof. intros E. by rewrite (pbind_Ret _ _ _ _ _ E). Qed.

(** The two-call protocol: the size, then the bytes. *)
Lemma short_buffer_first data :
  0 < len data -> copy_out data None 0 = (TEE_ERROR_SHORT_BUFFER, (len data, [])).
Proof. intros Hd. unfold copy_out. by rewrite (proj2 (Z.ltb_lt _ _) Hd). Qed.

Lemma exact_buffer_second data :
  copy_out data (Some (zeros (len data))) (len data) = (TEE_SUCCESS, (len data, data)).
Proof.
  unfold copy_out. rewrite Z.ltb_irrefl. cbn [from_option id]. rewrite drop_ge, app_nil_r; [done|].
  unfold zeros, len. by rewrite length_replicate, Nat2Z.id.
Qed.

Lemma zeros_fit (data : bytes) : buffer_of_size (Some (zeros (len data))) (len data).
Proof. apply len_zeros, len_nonneg. Qed.

Section Values_ok.
Context {St : Type} `{TPO : TeePropertiesOk St}.

Definition text_of (p : raw_prop) : option (Result Text) :=
  match p with PString v => Some (Ok (mkText (from_utf8_lossy v))) | _ => None end.
Definition binary_of (p : raw_prop) : option bytes :=
  match p with PBinary v => Some v | _ => None end.
Definition bool_of (p : raw_prop) : option bool :=
  match p with PBool b => Some b | _ => None end.
Definition u32_of (p : raw_prop) : option U32 :=
  match p with PU32 x => Some (mkU32 x) | _ => None end.
Definition u64_of (p : raw_prop) : option U64 :=
  match p with PU64 x => Some (mkU64 x) | _ => None end.
Definition uuid_of (p : raw_prop) : option Utee.Uuid :=
  match p with PUuid u => Some (Utee.from_raw u) | _ => None end.
Definition identity_of (p : raw_prop) : option Identity :=
  match p with PIdentity i => Some (IdentityOps.from_raw i) | _ => None end.

Lemma text_found s h k p r :
  property s h k = Some p -> 0 ∉ k -> prop_wf p -> text_of p = Some r ->
  from_raw h (k ++ [0]) s = Ret (r, s).
Proof.
  intros Hp Hk Hw Hr. destruct p as [| | | | |v|]; try done. injection Hr as <-.
  assert (0 < len (v ++ [0])) as Hl by (rewrite len_app; pose proof (len_nonneg v); change (len [0]) with 1; lia).
  unfold from_raw, string_value.
  rewrite (pbind_Ret _ _ _ _ _ (string_found _ _ _ _ None 0 Hp Hk eq_refl)).
  rewrite short_buffer_first by done. cbn beta iota.
  change (TEE_ERROR_SHORT_BUFFER =? TEE_SUCCESS) with false. rewrite Z.eqb_refl. cbn beta iota zeta.
  rewrite (pbind_Ret _ _ _ _ _ (string_found _ _ _ _ _ _ Hp Hk (zeros_fit (v ++ [0])))),
    exact_buffer_second.
  cbn. by rewrite with_nul_text.
Qed.

Lemma text_absent s h k :
  property s h k = None -> 0 ∉ k ->
  from_raw (T := Text) h (k ++ [0]) s = Ret (Err (Error.from_raw_error TEE_ERROR_ITEM_NOT_FOUND), s).
Proof.
  intros Hp Hk. destruct (string_absent s h k None 0 Hp Hk) as ([n b] & E).
  unfold from_raw, string_value. by rewrite (pbind_Ret _ _ _ _ _ E).
Qed.

#[export] Instance text_ok : PropertyValueOk St Text :=
  {| as_value := text_of; from_raw_found := text_found; from_raw_absent := text_absent |}.

Lemma bytes_found s h k p r :
  property s h k = Some p -> 0 ∉ k -> prop_wf p -> expect (binary_of p) = Some r ->
  from_raw h (k ++ [0]) s = Ret (r, s).
Proof.
  intros Hp Hk _ [= <-]. unfold from_raw, binary_value.
  destruct (binary_of p) as [v|] eqn:Ev.
  - destruct p; try done. injection Ev as ->.
    rewrite (pbind_Ret _ _ _ _ _ (binary_found _ _ _ _ None 0 Hp Hk eq_refl)).
    destruct (decide (v = [])) as [->|Hv]; [done|].
    assert (0 < len v) as Hl by (destruct v; [done|rewrite len_cons; pose proof (len_nonneg v); lia]).
    rewrite short_buffer_first by done. cbn beta iota.
    change (TEE_ERROR_SHORT_BUFFER =? TEE_SUCCESS) with false. rewrite Z.eqb_refl. cbn beta iota zeta.
    by rewrite (pbind_Ret _ _ _ _ _ (binary_found _ _ _ _ _ _ Hp Hk (zeros_fit v))),
      exact_buffer_second.
  - destruct (binary_mismatch s h k p None 0 Hp Hk) as ([n b] & E); [by intros v ->|].
    by rewrite (pbind_Ret _ _ _ _ _ E).
Qed.

Lemma bytes_absent s h k :
  property s h k = None -> 0 ∉ k ->
  from_raw (T := bytes) h (k ++ [0]) s = Ret (Err (Error.from_raw_error TEE_ERROR_ITEM_NOT_FOUND), s).
Proof.
  intros Hp Hk. destruct (binary_absent s h k None 0 Hp Hk) as ([n b] & E).
  unfold from_raw, binary_value. by rewrite (pbind_Ret _ _ _ _ _ E).
Qed.

#[export] Instance binary_ok : PropertyValueOk St bytes :=
  {| as_value p := expect (binary_of p);
     from_raw_found := bytes_found; from_raw_absent := bytes_absent |}.

(** The five types of one cell. *)
#[local] Ltac cell found mismatch absent f g :=
  split with (as_value := fun p => expect (f p));
  [ intros s h k p r Hp Hk _ [= <-]; cbv [from_raw bool_value u32_value u64_value uuid_value identity_value]; destruct p;
    first [ exact (answered_check _ g _ _ (found _ _ _ _ _ Hp Hk))
          | by apply (refused_check _ g _ _ (mismatch _ _ _ _ _ Hp Hk ltac:(done))) ]
  | intros s h k Hp Hk; cbv [from_raw bool_value u32_value u64_value uuid_value identity_value];
    by apply (refused_check _ g _ _ (absent _ _ _ _ Hp Hk)) ].

#[export] Instance bool_ok : PropertyValueOk St bool.
Proof. cell bool_found bool_mismatch bool_absent bool_of (fun b : bool => b). Defined.

#[export] Instance u32_ok : PropertyValueOk St U32.
Proof. cell u32_found u32_mismatch u32_absent u32_of mkU32. Defined.

#[export] Instance u64_ok : PropertyValueOk St U64.
Proof. cell u64_found u64_mismatch u64_absent u64_of mkU64. Defined.

#[export] Instance uuid_ok : PropertyValueOk St Utee.Uuid.
Proof. cell uuid_found uuid_mismatch uuid_absent uuid_of Utee.from_raw. Defined.

#[export] Instance identity_ok : PropertyValueOk St Identity.
Proof.
  cell identity_found identity_mismatch identity_absent identity_of IdentityOps.from_raw.
Defined.

End Values_ok.

(** ** Reading by key *)

Section Get.
Context {St : Type} `{TPO : TeePropertiesOk St}.

Definition key_ok (K : PropertyKey St) : Prop := 0 ∉ str_bytes (key_text K).

Lemma key_bytes (K : PropertyKey St) : key_ok K -> key K = str_bytes (key_text K) ++ [0].
Proof. intros HK. unfold key, cstring_new. by rewrite bool_decide_eq_false_2. Qed.

Lemma get_found (K : PropertyKey St) `{!PropertyValueOk St (Output K)} s p r :
  key_ok K -> property s (set_as_raw (set K)) (str_bytes (key_text K)) = Some p ->
  prop_wf p -> as_value p = Some r -> get K s = Ret (r, s).
Proof. intros HK Hp Hw Hr. unfold get. rewrite key_bytes by done. by eapply from_raw_found. Qed.

Lemma get_absent (K : PropertyKey St) `{!PropertyValueOk St (Output K)} s :
  key_ok K -> property s (set_as_raw (set K)) (str_bytes (key_text K)) = None ->
  get K s = Ret (Err (Error.from_raw_error TEE_ERROR_ITEM_NOT_FOUND), s).
Proof. intros HK Hp. unfold get. rewrite key_bytes by done. by apply from_raw_absent. Qed.

(** The crate's keys: each has the prefix of its set, none has a NUL byte, and no
    two have the same text. *)
Definition set_prefix (p : PropertySet) : string :=
  match p with
  | TeeImplementation => "gpd.tee."
  | CurrentClient => "gpd.client."
  | CurrentTa => "gpd.ta."
  end.

Lemma all_keys_wf :
  Forall (fun K => key_ok K /\ String.prefix (set_prefix (set K)) (key_text K) = true)
    (all_keys (St := St)) /\
  NoDup (map key_text (all_keys (St := St))).
Proof.
  split.
  - repeat constructor; try done; unfold key_ok;
      apply (bool_decide_unpack _); by vm_compute.
  - apply (bool_decide_unpack _). by vm_compute.
Qed.

End Get.

(** ** [time.rs]

    The structure is passed to the TEE by its address, as a [TEE_Time]. *)
Class TeeTime (St : Type) : Type := {
  raw_time : Type := (Z * Z)%type;
  TEE_GetSystemTime : raw_time -> prog St raw_time;
  TEE_Wait : Z -> prog St Z;
  TEE_GetTAPersistentTime : raw_time -> prog St (Z * raw_time);
  TEE_SetTAPersistentTime : raw_time -> prog St Z;
  TEE_GetREETime : raw_time -> prog St raw_time
}.

Record Time : Type := mkTime { seconds : Z; millis : Z }.

Module TimeOps.
Section Ops.
Context {St : Type} `{!TeeTime St}.

Definition as_tee (self : Time) : Z * Z := (seconds self, millis self).
Definition of_tee (t : Z * Z) : Time := mkTime t.1 t.2.

Definition new : Time := mkTime 0 0.

Definition system_time (self : Time) : prog St Time :=
  let* t := TEE_GetSystemTime (as_tee self) in pret (of_tee t).

Definition wait (timeout : Z) : prog St (Result unit) :=
  let* res := TEE_Wait timeout in pret (tee_check res).

(** A method on [&mut self] gives the new structure, on an error too. *)
Definition ta_time (self : Time) : prog St (Result unit * Time) :=
  let* (res, t) := TEE_GetTAPersistentTime (as_tee self) in pret (tee_check res, of_tee t).

Definition set_ta_time (self : Time) : prog St (Result unit) :=
  let* res := TEE_SetTAPersistentTime (as_tee self) in pret (tee_check res).

Definition ree_time (self : Time) : prog St Time :=
  let* t := TEE_GetREETime (as_tee self) in pret (of_tee t).

End Ops.
End TimeOps.

(** ** An instance: a table *)
Module TableProperties.

Definition table : Type := Z -> bytes -> option raw_prop.

(** A call on one cell. *)
Definition cell {A} (f : raw_prop -> option A) (h : Z) (key : bytes) (x : A) : prog table (Z * A) :=
  fun t => Ret (match t h (removelast key) with
                | None => (TEE_ERROR_ITEM_NOT_FOUND, x)
                | Some p => match f p with
                            | Some y => (TEE_SUCCESS, y)
                            | None => (TEE_ERROR_BAD_FORMAT, x)
                            end
                end, t).

Definition copying (f : raw_prop -> option bytes) (h : Z) (key : bytes) (buf : option bytes) (n : Z)
    : prog table (Z * (Z * bytes)) :=
  fun t => Ret (match t h (removelast key) with
                | None => (TEE_ERROR_ITEM_NOT_FOUND, (n, default [] buf))
                | Some p => match f p with
                            | Some v => copy_out v buf n
                            | None => (TEE_ERROR_BAD_FORMAT, (n, default [] buf))
                            end
                end, t).

#[export] Instance table_properties : TeeProperties table := {|
  TEE_GetPropertyAsString :=
    copying (fun p => match p with PString v => Some (v ++ [0]) | _ => None end);
  TEE_GetPropertyAsBinaryBlock := copying (fun p => match p with PBinary v => Some v | _ => None end);
  TEE_GetPropertyAsBool := cell (fun p => match p with PBool b => Some b | _ => None end);
  TEE_GetPropertyAsU32 := cell (fun p => match p with PU32 x => Some x | _ => None end);
  TEE_GetPropertyAsU64 := cell (fun p => match p with PU64 x => Some x | _ => None end);
  TEE_GetPropertyAsUUID := cell (fun p => match p with PUuid u => Some u | _ => None end);
  TEE_GetPropertyAsIdentity := cell (fun p => match p with PIdentity i => Some i | _ => None end)
|}.

#[export] Instance table_properties_ok : TeePropertiesOk table.
Proof.
  split with (property := fun (t : table) h k => t h k);
    intros; unfold refused; cbn; unfold copying, cell; rewrite removelast_last;
    repeat match goal with E : _ = Some ?p |- _ => rewrite E; clear E
                         | E : _ = None |- _ => rewrite E; clear E end;
    try done; try (by eexists);
    match goal with p : raw_prop |- _ => destruct p; naive_solver end.
Defined.

End TableProperties.
