(* ===== verification/TaHeader.v ===== *)
(** * The header of a TA: [optee-utee-build/src/ta_config.rs],
      [code_generator.rs], [error.rs], and [optee-utee-sys/src/user_ta_header.rs]

    The build script of a TA generates a Rust file with the TA's UUID, its flags
    and its properties.  The file is modelled as the items the generator quotes,
    after [quote] and before [syn] and [prettyplease] only print them; the
    constants and statics an item declares are evaluated by [check_file], which
    refuses what rustc would refuse: a name declared twice, a name that is not
    declared before, a type that does not fit. *)

From stdpp Require Import pretty.
From S2P Require Import Prelude Uuids Properties.

(** ** [user_ta_header.rs] *)

Definition TA_FLAG_SINGLE_INSTANCE : Z := Z.shiftl 1 2.
Definition TA_FLAG_MULTI_SESSION : Z := Z.shiftl 1 3.
Definition TA_FLAG_INSTANCE_KEEP_ALIVE : Z := Z.shiftl 1 4.
Definition TA_FLAG_SECURE_DATA_PATH : Z := Z.shiftl 1 5.
Definition TA_FLAG_REMAP_SUPPORT : Z := Z.shiftl 1 6.
Definition TA_FLAG_CACHE_MAINTENANCE : Z := Z.shiftl 1 7.
Definition TA_FLAG_CONCURRENT : Z := Z.shiftl 1 8.
Definition TA_FLAG_DEVICE_ENUM : Z := Z.shiftl 1 9.
Definition TA_FLAG_DEVICE_ENUM_SUPP : Z := Z.shiftl 1 10.
Definition TA_FLAG_DONT_CLOSE_HANDLE_ON_CORRUPT_OBJECT : Z := Z.shiftl 1 11.
Definition TA_FLAG_DEVICE_ENUM_TEE_STORAGE_PRIVATE : Z := Z.shiftl 1 12.
Definition TA_FLAG_INSTANCE_KEEP_CRASHED : Z := Z.shiftl 1 13.
Definition TA_FLAG_EXEC_DDR : Z := 0.
Definition TA_FLAG_USER_MODE : Z := 0.

(** C strings, with their terminator. *)
Definition c_lit (s : string) : bytes := str_bytes s ++ [0].

Definition TA_PROP_STR_SINGLE_INSTANCE : bytes := c_lit "gpd.ta.singleInstance".
Definition TA_PROP_STR_MULTI_SESSION : bytes := c_lit "gpd.ta.multiSession".
Definition TA_PROP_STR_KEEP_ALIVE : bytes := c_lit "gpd.ta.instanceKeepAlive".
Definition TA_PROP_STR_KEEP_CRASHED : bytes := c_lit "gpd.ta.instanceKeepCrashed".
Definition TA_PROP_STR_DATA_SIZE : bytes := c_lit "gpd.ta.dataSize".
Definition TA_PROP_STR_STACK_SIZE : bytes := c_lit "gpd.ta.stackSize".
Definition TA_PROP_STR_VERSION : bytes := c_lit "gpd.ta.version".
Definition TA_PROP_STR_DESCRIPTION : bytes := c_lit "gpd.ta.description".
Definition TA_PROP_STR_ENDIAN : bytes := c_lit "gpd.ta.endian".
Definition TA_PROP_STR_DOES_NOT_CLOSE_HANDLE_ON_CORRUPT_OBJECT : bytes :=
  c_lit "gpd.ta.doesNotCloseHandleOnCorruptObject".

Inductive user_ta_prop_type : Type :=
| USER_TA_PROP_TYPE_BOOL
| USER_TA_PROP_TYPE_U32
| USER_TA_PROP_TYPE_UUID
| USER_TA_PROP_TYPE_IDENTITY
| USER_TA_PROP_TYPE_STRING
| USER_TA_PROP_TYPE_BINARY_BLOCK
| USER_TA_PROP_TYPE_U64
| USER_TA_PROP_TYPE_INVALID.

Record ta_head : Type := mkTaHead {
  head_uuid : TEE_UUID;
  stack_size : Z;
  flags : Z;
  depr_entry : Z
}.

(** ** [error.rs] and [ta_config.rs]

    A [String] is its bytes, the crate's [Uuid] its sixteen bytes. *)

Inductive BuildError : Type :=
| Env (name : string)
| Io (e : Z)
| UuidError
| PropertyNotFound (name : string)
| InvalidVersion (v : string)
| Utf.

Inductive PropertyValue : Type :=
| VBool (b : bool)
| VU32 (x : Z)
| VUuid (u : bytes)
| VIdentity (login : Z) (u : bytes)
| VStr (s : bytes)
| VBinaryBlock (s : bytes)
| VU64 (x : Z).

Record Property : Type := mkProperty { prop_name : bytes; value : PropertyValue }.

Record TaConfig : Type := mkTaConfig {
  uuid : bytes;
  ta_flags : Z;
  ta_data_size : Z;
  ta_stack_size : Z;
  ta_version : bytes;
  ta_description : bytes;
  trace_level : Z;
  trace_ext_prefix : bytes;
  ta_framework_stack_size : Z;
  ext_properties : list Property
}.

Module Config.
Section Ops.
Context `{!UuidCrate}.

Definition new_default (uuid_str : string) (version description : bytes)
    : result TaConfig BuildError :=
  try u := ok_or (crate_parse_str uuid_str) UuidError in
  Ok (mkTaConfig u 0 (32 * 1024) (2 * 1024) version description 4 (str_bytes "TA") 2048 []).

(** With what cargo gives a build script. *)
Definition new_default_with_cargo_env (var : string -> option string) (uuid_str : string)
    : result TaConfig BuildError :=
  try version := ok_or (var "CARGO_PKG_VERSION") (Env "CARGO_PKG_VERSION") in
  try description := ok_or (var "CARGO_PKG_DESCRIPTION") (Env "CARGO_PKG_DESCRIPTION") in
  new_default uuid_str (str_bytes version) (str_bytes description).

End Ops.

Definition with_ta_flags (self : TaConfig) (x : Z) : TaConfig :=
  mkTaConfig (uuid self) x (ta_data_size self) (ta_stack_size self) (ta_version self)
    (ta_description self) (trace_level self) (trace_ext_prefix self)
    (ta_framework_stack_size self) (ext_properties self).
Definition with_ta_stack_size (self : TaConfig) (x : Z) : TaConfig :=
  mkTaConfig (uuid self) (ta_flags self) (ta_data_size self) x (ta_version self)
    (ta_description self) (trace_level self) (trace_ext_prefix self)
    (ta_framework_stack_size self) (ext_properties self).
Definition with_ta_data_size (self : TaConfig) (x : Z) : TaConfig :=
  mkTaConfig (uuid self) (ta_flags self) x (ta_stack_size self) (ta_version self)
    (ta_description self) (trace_level self) (trace_ext_prefix self)
    (ta_framework_stack_size self) (ext_properties self).
Definition with_trace_level (self : TaConfig) (x : Z) : TaConfig :=
  mkTaConfig (uuid self) (ta_flags self) (ta_data_size self) (ta_stack_size self)
    (ta_version self) (ta_description self) x (trace_ext_prefix self)
    (ta_framework_stack_size self) (ext_properties self).
Definition with_trace_ext_prefix (self : TaConfig) (x : bytes) : TaConfig :=
  mkTaConfig (uuid self) (ta_flags self) (ta_data_size self) (ta_stack_size self)
    (ta_version self) (ta_description self) (trace_level self) x
    (ta_framework_stack_size self) (ext_properties self).
Definition with_ta_framework_stack_size (self : TaConfig) (x : Z) : TaConfig :=
  mkTaConfig (uuid self) (ta_flags self) (ta_data_size self) (ta_stack_size self)
    (ta_version self) (ta_description self) (trace_level self) (trace_ext_prefix self) x
    (ext_properties self).
Definition add_ext_property (self : TaConfig) (name : bytes) (v : PropertyValue) : TaConfig :=
  mkTaConfig (uuid self) (ta_flags self) (ta_data_size self) (ta_stack_size self)
    (ta_version self) (ta_description self) (trace_level self) (trace_ext_prefix self)
    (ta_framework_stack_size self) (ext_properties self ++ [mkProperty name v]).

End Config.

(** ** The generated items *)

(** Types as they are written in the header; the heap's is
    [[u8; TA_DATA_SIZE as usize]]. *)
Inductive rust_type : Type :=
| TyU32 | TyU64 | TyUsize | TyCInt | TyBool | TyByteSlice | TyUuid | TyIdentity
| TyProps (n : Z) | TyHead | TyHeap.

#[export] Instance rust_type_eq_dec : EqDecision rust_type.
Proof. solve_decision. Defined.

(** An object: a literal, or what a property points to. *)
Inductive datum : Type :=
| DU32 (x : Z)
| DU64 (x : Z)
| DUsize (x : Z)
| DCInt (x : Z)
| DBool (b : bool)
| DBytes (l : bytes)
| DUuid (u : TEE_UUID)
| DIdentity (i : TEE_Identity).

(** [user_ta_property]: the name, and the object behind [value]. *)
Record user_ta_property : Type := mkUserProperty {
  name : bytes; prop_type : user_ta_prop_type; pointee : datum
}.

(** [&VAR as *const T as _], and [VAR as *const [u8] as _] for a byte string. *)
Inductive pointer : Type :=
| AddrOf (var : string) (t : rust_type)
| SliceOf (var : string).

Record prop_expr : Type := mkPropExpr {
  pe_name : bytes; pe_type : user_ta_prop_type; pe_value : pointer
}.

(** The forms of expression the generator quotes. *)
Inductive expr : Type :=
| Lit (d : datum)
| FlagSet (mask : Z)                (* [(TA_FLAGS & mask) != 0] *)
| PropTable (l : list prop_expr)
| HeadLit (u : TEE_UUID) (stack depr : Z)   (* with [flags: TA_FLAGS] *)
| HeapZeros                         (* [[0; TA_DATA_SIZE as usize]] *)
| HeapSize.                         (* [mem::size_of::<u8>() * TA_DATA_SIZE as usize] *)

(** Statics are [#[unsafe(no_mangle)]]; some have a section, one is [mut]. *)
Inductive item : Type :=
| Use (path : string)
| Const (x : string) (t : rust_type) (e : expr)
| Static (link_section : option string) (is_mut : bool) (x : string) (t : rust_type) (e : expr)
| ExternFn (x : string) (t : rust_type) (reads : string).

(** ** [HeaderFileGenerator] *)

(** [string_to_binary_codes]: the bytes and a NUL, as one literal. *)
Definition string_to_binary_codes (s : bytes) : bytes := s ++ [0].

Module Generator.
Section Ops.
Context `{!UuidCrate, !Profile}.

Definition write_includes (code : list item) : list item :=
  code ++ [Use "core::ffi::*"; Use "core::mem"; Use "core::primitive::u64"].

Definition write_configurations (conf : TaConfig) (code : list item) : list item :=
  code ++
  [Const "TA_FLAGS" TyU32 (Lit (DU32 (ta_flags conf)));
   Const "TA_DATA_SIZE" TyU32 (Lit (DU32 (ta_data_size conf)));
   Const "TA_STACK_SIZE" TyU32 (Lit (DU32 (ta_stack_size conf)));
   Const "TA_VERSION" TyByteSlice (Lit (DBytes (string_to_binary_codes (ta_version conf))));
   Const "TA_DESCRIPTION" TyByteSlice
     (Lit (DBytes (string_to_binary_codes (ta_description conf))))].

Definition write_trace (conf : TaConfig) (code : list item) : list item :=
  code ++
  [Static None true "trace_level" TyCInt (Lit (DCInt (trace_level conf)));
   Static None false "trace_ext_prefix" TyByteSlice
     (Lit (DBytes (string_to_binary_codes (trace_ext_prefix conf))));
   ExternFn "tahead_get_trace_level" TyCInt "trace_level"].

Definition uuid_to_tee_uuid_value_codes (u : bytes) : TEE_UUID :=
  let '(time_low, time_mid, time_hi_and_version, clock_seq_and_node) := crate_as_fields u in
  mkTeeUuid time_low time_mid time_hi_and_version clock_seq_and_node.

Definition identity_to_tee_identity_value_codes (login : Z) (u : bytes) : TEE_Identity :=
  mkTeeIdentity login (uuid_to_tee_uuid_value_codes u).

Definition property_value_data_codes (v : PropertyValue) : datum :=
  match v with
  | VU32 v => DU32 v
  | VU64 v => DU64 v
  | VBool v => DBool v
  | VUuid v => DUuid (uuid_to_tee_uuid_value_codes v)
  | VStr v => DBytes (string_to_binary_codes v)
  | VBinaryBlock v => DBytes (string_to_binary_codes v)
  | VIdentity login uuid => DIdentity (identity_to_tee_identity_value_codes login uuid)
  end.

Definition property_value_rust_type_declaration_codes (v : PropertyValue) : rust_type :=
  match v with
  | VU32 _ => TyU32
  | VU64 _ => TyU64
  | VBool _ => TyBool
  | VUuid _ => TyUuid
  | VStr _ => TyByteSlice
  | VBinaryBlock _ => TyByteSlice
  | VIdentity _ _ => TyIdentity
  end.

Definition property_value_as_utee_value_codes (var_name : string) (v : PropertyValue) : pointer :=
  match v with
  | VU32 _ => AddrOf var_name TyU32
  | VU64 _ => AddrOf var_name TyU64
  | VBool _ => AddrOf var_name TyBool
  | VUuid _ => AddrOf var_name TyUuid
  | VStr _ => SliceOf var_name
  | VBinaryBlock _ => SliceOf var_name
  | VIdentity _ _ => AddrOf var_name TyIdentity
  end.

Definition property_value_utee_type_codes (v : PropertyValue) : user_ta_prop_type :=
  match v with
  | VU32 _ => USER_TA_PROP_TYPE_U32
  | VU64 _ => USER_TA_PROP_TYPE_U64
  | VBool _ => USER_TA_PROP_TYPE_BOOL
  | VUuid _ => USER_TA_PROP_TYPE_UUID
  | VStr _ => USER_TA_PROP_TYPE_STRING
  | VBinaryBlock _ => USER_TA_PROP_TYPE_BINARY_BLOCK
  | VIdentity _ _ => USER_TA_PROP_TYPE_IDENTITY
  end.

(** [format!("EXT_PROP_VALUE_{}", index + 1)]. *)
Definition ext_name (index : nat) : string :=
  "EXT_PROP_VALUE_" +:+ pretty (N.of_nat (index + 1)).

(** The loop of [write_properties]: the constants, and the entries of the table. *)
Fixpoint ext_properties_codes (index : nat) (l : list Property) (code : list item)
    (entries : list prop_expr) : list item * list prop_expr :=
  match l with
  | [] => (code, entries)
  | prop :: l =>
      let var_name := ext_name index in
      let code := code ++ [Const var_name (property_value_rust_type_declaration_codes (value prop))
                             (Lit (property_value_data_codes (value prop)))] in
      let entries := entries ++
        [mkPropExpr (string_to_binary_codes (prop_name prop))
           (property_value_utee_type_codes (value prop))
           (property_value_as_utee_value_codes var_name (value prop))] in
      ext_properties_codes (S index) l code entries
  end.

Definition ORIGIN_PROPERTY_LEN : Z := 10.

Definition origin_properties : list prop_expr :=
  [mkPropExpr TA_PROP_STR_SINGLE_INSTANCE USER_TA_PROP_TYPE_BOOL
     (AddrOf "IS_SINGLE_INSTANCE" TyBool);
   mkPropExpr TA_PROP_STR_MULTI_SESSION USER_TA_PROP_TYPE_BOOL (AddrOf "IS_MULTI_SESSION" TyBool);
   mkPropExpr TA_PROP_STR_KEEP_ALIVE USER_TA_PROP_TYPE_BOOL (AddrOf "IS_KEEP_ALIVE" TyBool);
   mkPropExpr TA_PROP_STR_KEEP_CRASHED USER_TA_PROP_TYPE_BOOL (AddrOf "IS_KEEP_CRASHED" TyBool);
   mkPropExpr TA_PROP_STR_DATA_SIZE USER_TA_PROP_TYPE_U32 (AddrOf "TA_DATA_SIZE" TyU32);
   mkPropExpr TA_PROP_STR_STACK_SIZE USER_TA_PROP_TYPE_U32 (AddrOf "TA_STACK_SIZE" TyU32);
   mkPropExpr TA_PROP_STR_VERSION USER_TA_PROP_TYPE_STRING (SliceOf "TA_VERSION");
   mkPropExpr TA_PROP_STR_DESCRIPTION USER_TA_PROP_TYPE_STRING (SliceOf "TA_DESCRIPTION");
   mkPropExpr TA_PROP_STR_ENDIAN USER_TA_PROP_TYPE_U32 (AddrOf "TA_ENDIAN" TyU32);
   mkPropExpr TA_PROP_STR_DOES_NOT_CLOSE_HANDLE_ON_CORRUPT_OBJECT USER_TA_PROP_TYPE_BOOL
     (AddrOf "DONT_CLOSE_HANDLE_ON_CORRUPT_OBJECT" TyBool)].

Definition write_properties (conf : TaConfig) (code : list item) : list item :=
  let '(code, ext_property_codes) := ext_properties_codes 0 (ext_properties conf) code [] in
  let property_len := ORIGIN_PROPERTY_LEN + len (ext_properties conf) in
  code ++
  [Const "IS_SINGLE_INSTANCE" TyBool (FlagSet TA_FLAG_SINGLE_INSTANCE);
   Const "IS_MULTI_SESSION" TyBool (FlagSet TA_FLAG_MULTI_SESSION);
   Const "IS_KEEP_ALIVE" TyBool (FlagSet TA_FLAG_INSTANCE_KEEP_ALIVE);
   Const "IS_KEEP_CRASHED" TyBool (FlagSet TA_FLAG_INSTANCE_KEEP_CRASHED);
   Const "TA_ENDIAN" TyU32 (Lit (DU32 0));
   Const "DONT_CLOSE_HANDLE_ON_CORRUPT_OBJECT" TyBool
     (FlagSet TA_FLAG_DONT_CLOSE_HANDLE_ON_CORRUPT_OBJECT);
   Static None false "ta_num_props" TyUsize (Lit (DUsize property_len));
   Static None false "ta_props" (TyProps property_len)
     (PropTable (origin_properties ++ ext_property_codes))].

(** The sum of the stack sizes is computed in the build script, in [u32]. *)
Definition write_ta_head (conf : TaConfig) (code : list item) : outcome (list item) :=
  let uuid_value := uuid_to_tee_uuid_value_codes (uuid conf) in
  let! stack_size := add_u 32 (ta_stack_size conf) (ta_framework_stack_size conf) in
  Ret (code ++ [Static (Some ".ta_head") false "ta_head" TyHead
                  (HeadLit uuid_value stack_size (2 ^ 64 - 1))]).

Definition write_ta_heap (code : list item) : list item :=
  code ++ [Static (Some ".bss") false "ta_heap" TyHeap HeapZeros;
           Static None false "ta_heap_size" TyUsize HeapSize].

(** [generate]: none of its steps gives an error. *)
Definition generate (conf : TaConfig) : outcome (result (list item) BuildError) :=
  let code := write_includes [] in
  let code := write_configurations conf code in
  let code := write_trace conf code in
  let code := write_properties conf code in
  let! code := write_ta_head conf code in
  Ret (Ok (write_ta_heap code)).

End Ops.
End Generator.

(** ** What the compiler makes of the items *)

Inductive static_value : Type :=
| SData (d : datum)
| SProps (l : list user_ta_property)
| SHead (h : ta_head)
| SHeap (l : bytes)
| SFn (reads : string).

Definition type_of (d : datum) : rust_type :=
  match d with
  | DU32 _ => TyU32
  | DU64 _ => TyU64
  | DUsize _ => TyUsize
  | DCInt _ => TyCInt
  | DBool _ => TyBool
  | DBytes _ => TyByteSlice
  | DUuid _ => TyUuid
  | DIdentity _ => TyIdentity
  end.

Definition has_type (v : static_value) (t : rust_type) : bool :=
  match v, t with
  | SData d, _ => bool_decide (type_of d = t)
  | SProps l, TyProps n => len l =? n
  | SHead _, TyHead => true
  | SHeap _, TyHeap => true
  | _, _ => false
  end.

(** Literals are in the range of their type. *)
Definition lit_in_range (d : datum) : bool :=
  match d with
  | DU32 x => bool_decide (in_u 32 x)
  | DU64 x => bool_decide (in_u 64 x)
  | DUsize x => bool_decide (0 <= x)
  | DCInt x => bool_decide (-2 ^ 31 <= x < 2 ^ 31)
  | _ => true
  end.

Abbreviation env := (gmap string static_value).

Definition eval_pointer (E : env) (p : pointer) : option datum :=
  match p with
  | AddrOf x t => match E !! x with
                  | Some (SData d) => if decide (type_of d = t) then Some d else None
                  | _ => None
                  end
  | SliceOf x => match E !! x with
                 | Some (SData (DBytes l)) => Some (DBytes l)
                 | _ => None
                 end
  end.

Definition eval_prop (E : env) (p : prop_expr) : option user_ta_property :=
  d ← eval_pointer E (pe_value p); Some (mkUserProperty (pe_name p) (pe_type p) d).

Definition u32_const (E : env) (x : string) : option Z :=
  match E !! x with Some (SData (DU32 v)) => Some v | _ => None end.

Definition eval_expr (E : env) (e : expr) : option static_value :=
  match e with
  | Lit d => if lit_in_range d then Some (SData d) else None
  | FlagSet mask =>
      v ← u32_const E "TA_FLAGS"; Some (SData (DBool (negb (Z.land v mask =? 0))))
  | PropTable l => SProps <$> mapM (eval_prop E) l
  | HeadLit u stack depr => v ← u32_const E "TA_FLAGS"; Some (SHead (mkTaHead u stack v depr))
  | HeapZeros => n ← u32_const E "TA_DATA_SIZE"; Some (SHeap (zeros n))
  | HeapSize => n ← u32_const E "TA_DATA_SIZE"; Some (SData (DUsize (1 * n)))
  end.

Definition declare (E : env) (x : string) (v : static_value) : option env :=
  match E !! x with Some _ => None | None => Some (<[x := v]> E) end.

Definition check_item (E : env) (i : item) : option env :=
  match i with
  | Use _ => Some E
  | Const x t e | Static _ _ x t e =>
      v ← eval_expr E e; if has_type v t then declare E x v else None
  | ExternFn f t x =>
      match E !! x with
      | Some v => if has_type v t then declare E f (SFn x) else None
      | None => None
      end
  end.

Fixpoint check_items (E : env) (l : list item) : option env :=
  match l with
  | [] => Some E
  | i :: l => E' ← check_item E i; check_items E' l
  end.

Definition check_file (l : list item) : option env := check_items ∅ l.

(** ** What the TEE's library reads

    A property's object is read at the type its tag says; a string ends at its
    first NUL; a binary block is decoded from base 64. *)
Fixpoint until_nul (l : bytes) : bytes :=
  match l with
  | [] => []
  | b :: l => if b =? 0 then [] else b :: until_nul l
  end.

Section Loader.
Context (base64_dec : bytes -> option bytes).

Definition read_object (t : user_ta_prop_type) (d : datum) : option raw_prop :=
  match t, d with
  | USER_TA_PROP_TYPE_BOOL, DBool b => Some (PBool b)
  | USER_TA_PROP_TYPE_U32, DU32 x => Some (PU32 x)
  | USER_TA_PROP_TYPE_U64, DU64 x => Some (PU64 x)
  | USER_TA_PROP_TYPE_UUID, DUuid u => Some (PUuid u)
  | USER_TA_PROP_TYPE_IDENTITY, DIdentity i => Some (PIdentity i)
  | USER_TA_PROP_TYPE_STRING, DBytes l => Some (PString (until_nul l))
  | USER_TA_PROP_TYPE_BINARY_BLOCK, DBytes l => PBinary <$> base64_dec (until_nul l)
  | _, _ => None
  end.

(** The first property of the table with a name. *)
Definition find_property (l : list user_ta_property) (k : bytes) : option raw_prop :=
  p ← List.find (fun p => bool_decide (until_nul (name p) = k)) l;
  read_object (prop_type p) (pointee p).

End Loader.
