(* ===== verification/TaHeaderSpec.v ===== *)
(** * TaHeaderSpec: the generated header is accepted, and declares the configuration

    The header of every configuration is well typed; what it declares is what the
    build script asked for; a TA that reads its own properties
    ([Properties]) gets them back, and the UUID of the configuration is the one the
    tools read from the image and the one a client writes. *)

From stdpp Require Import pretty.
From S2P Require Import Prelude UteeError Uuids Utf8 Properties ElfUuid TaHeader.
Import Generator.

(** ** Well-formed configurations: values in the range of their Rust types *)

Definition value_wf (v : PropertyValue) : Prop :=
  match v with
  | VU32 x => in_u 32 x
  | VU64 x => in_u 64 x
  | VUuid u => uuid_bytes u
  | VIdentity l u => in_u 32 l /\ uuid_bytes u
  | VBool _ | VStr _ | VBinaryBlock _ => True
  end.

Record config_wf (conf : TaConfig) : Prop := {
  wf_uuid : uuid_bytes (uuid conf);
  wf_flags : in_u 32 (ta_flags conf);
  wf_data : in_u 32 (ta_data_size conf);
  wf_stack : in_u 32 (ta_stack_size conf);
  wf_framework : in_u 32 (ta_framework_stack_size conf);
  wf_trace : -2 ^ 31 <= trace_level conf < 2 ^ 31;
  wf_ext : Forall (fun p => value_wf (value p)) (ext_properties conf)
}.

Section Header.
Context `{UCO : UuidCrateOk, !Profile}.

(** ** Names *)

Lemma ext_name_inj i j : ext_name i = ext_name j -> i = j.
Proof.
  unfold ext_name. intros E. apply (inj (String.append _)) in E. apply (inj pretty) in E. lia.
Qed.

Lemma ext_name_prefix i : String.prefix "EXT_PROP_VALUE_" (ext_name i) = true.
Proof. by destruct (pretty (N.of_nat (i + 1))) eqn:E; unfold ext_name; rewrite E. Qed.

Lemma not_ext_name x : String.prefix "EXT_PROP_VALUE_" x = false -> forall i, x <> ext_name i.
Proof. intros Hx i ->. by rewrite ext_name_prefix in Hx. Qed.

(** ** Checking items one by one *)

Lemma check_items_app E l1 l2 :
  check_items E (l1 ++ l2) = check_items E l1 ≫= fun E' => check_items E' l2.
Proof.
  revert E. induction l1 as [|i l1 IH]; intros E; [done|]. cbn [app check_items].
  destruct (check_item E i) as [E'|]; [apply IH|done].
Qed.

Lemma check_const E x t e v l :
  E !! x = None -> eval_expr E e = Some v -> has_type v t = true ->
  check_items E (Const x t e :: l) = check_items (<[x := v]> E) l.
Proof. intros Hx He Ht. cbn [check_items check_item]. rewrite He. cbn. unfold declare. by rewrite Ht, Hx. Qed.

Lemma check_static E sec m x t e v l :
  E !! x = None -> eval_expr E e = Some v -> has_type v t = true ->
  check_items E (Static sec m x t e :: l) = check_items (<[x := v]> E) l.
Proof. apply check_const. Qed.

Lemma check_use E p l : check_items E (Use p :: l) = check_items E l.
Proof. done. Qed.

Lemma check_fn E f t x v l :
  E !! f = None -> E !! x = Some v -> has_type v t = true ->
  check_items E (ExternFn f t x :: l) = check_items (<[f := SFn x]> E) l.
Proof.
  intros Hf Hx Ht. cbn [check_items check_item]. rewrite Hx, Ht. unfold declare. by rewrite Hf.
Qed.

(** ** The extension properties *)

(** What a property of the configuration declares. *)
Definition declared (p : Property) : user_ta_property :=
  mkUserProperty (prop_name p ++ [0]) (property_value_utee_type_codes (value p))
    (property_value_data_codes (value p)).

Fixpoint ext_consts (i : nat) (l : list Property) : list item :=
  match l with
  | [] => []
  | p :: l => Const (ext_name i) (property_value_rust_type_declaration_codes (value p))
                (Lit (property_value_data_codes (value p))) :: ext_consts (S i) l
  end.

Fixpoint ext_entries (i : nat) (l : list Property) : list prop_expr :=
  match l with
  | [] => []
  | p :: l => mkPropExpr (prop_name p ++ [0]) (property_value_utee_type_codes (value p))
                (property_value_as_utee_value_codes (ext_name i) (value p)) :: ext_entries (S i) l
  end.

Lemma ext_codes_spec i l code entries :
  ext_properties_codes i l code entries = (code ++ ext_consts i l, entries ++ ext_entries i l).
Proof.
  revert i code entries. induction l as [|p l IH]; intros; cbn [ext_properties_codes ext_consts ext_entries].
  - by rewrite !app_nil_r.
  - by rewrite IH, <-!app_assoc.
Qed.

Lemma data_has_type v : type_of (property_value_data_codes v) = property_value_rust_type_declaration_codes v.
Proof. by destruct v. Qed.

Lemma data_in_range v : value_wf v -> lit_in_range (property_value_data_codes v) = true.
Proof. by destruct v; cbn; intros; try apply bool_decide_eq_true. Qed.

(** The constants of the properties are declared, and nothing else is. *)
Lemma ext_consts_check i l E :
  Forall (fun p => value_wf (value p)) l -> (forall k, (i <= k)%nat -> E !! ext_name k = None) ->
  exists E', check_items E (ext_consts i l) = Some E' /\
    (forall x, (forall k, x <> ext_name k) -> E' !! x = E !! x) /\
    (forall k, (k < i)%nat -> E' !! ext_name k = E !! ext_name k) /\
    forall k p, l !! k = Some p ->
      E' !! ext_name (i + k) = Some (SData (property_value_data_codes (value p))).
Proof.
  revert i E. induction l as [|p l IH]; intros i E Hl HE; [by exists E|].
  inversion_clear Hl as [|? ? Hp Hl']. cbn [ext_consts].
  rewrite (check_const _ _ _ _ (SData (property_value_data_codes (value p))));
    [|by apply HE|cbn; by rewrite data_in_range|by cbn; rewrite data_has_type, bool_decide_eq_true_2].
  destruct (IH (S i) (<[ext_name i := SData (property_value_data_codes (value p))]> E) Hl')
    as (E' & HE' & Ho & Hlow & Hk).
  { intros k Hk. rewrite lookup_insert_ne; [apply HE; lia|]. intros ->%ext_name_inj. lia. }
  exists E'. split_and!; [done| | |].
  - intros x Hx. rewrite Ho, lookup_insert_ne; [done|by intros <-; eapply Hx|done].
  - intros k Hk'. rewrite Hlow, lookup_insert_ne; [done|intros ->%ext_name_inj; lia|lia].
  - intros [|k] q Hq; cbn in Hq.
    + injection Hq as ->. rewrite Nat.add_0_r, Hlow by lia. apply lookup_insert_eq.
    + rewrite <-Nat.add_succ_comm. by apply Hk.
Qed.

(** An entry points to an object of the type its tag says. *)
Lemma eval_ext_pointer E x v :
  E !! x = Some (SData (property_value_data_codes v)) ->
  eval_pointer E (property_value_as_utee_value_codes x v) = Some (property_value_data_codes v).
Proof. intros Hx. destruct v; cbn; rewrite Hx; cbn; done. Qed.

Lemma eval_ext_entries E i l :
  (forall k p, l !! k = Some p ->
     E !! ext_name (i + k) = Some (SData (property_value_data_codes (value p)))) ->
  mapM (eval_prop E) (ext_entries i l) = Some (map declared l).
Proof.
  intros Hl. apply mapM_Some. revert i Hl.
  induction l as [|p l IH]; intros i Hl; cbn [ext_entries map]; constructor.
  - unfold eval_prop. cbn [pe_value pe_name pe_type].
    by rewrite (eval_ext_pointer E (ext_name i) (value p)) by (rewrite <-(Nat.add_0_r i); by apply Hl).
  - apply IH. intros k q Hq. rewrite Nat.add_succ_comm. by apply Hl.
Qed.

(** ** The whole header *)

Definition flag (conf : TaConfig) (mask : Z) : datum := DBool (negb (Z.land (ta_flags conf) mask =? 0)).

(** The ten properties every TA has. *)
Definition origin_declared (conf : TaConfig) : list user_ta_property :=
  [mkUserProperty TA_PROP_STR_SINGLE_INSTANCE USER_TA_PROP_TYPE_BOOL (flag conf TA_FLAG_SINGLE_INSTANCE);
   mkUserProperty TA_PROP_STR_MULTI_SESSION USER_TA_PROP_TYPE_BOOL (flag conf TA_FLAG_MULTI_SESSION);
   mkUserProperty TA_PROP_STR_KEEP_ALIVE USER_TA_PROP_TYPE_BOOL (flag conf TA_FLAG_INSTANCE_KEEP_ALIVE);
   mkUserProperty TA_PROP_STR_KEEP_CRASHED USER_TA_PROP_TYPE_BOOL
     (flag conf TA_FLAG_INSTANCE_KEEP_CRASHED);
   mkUserProperty TA_PROP_STR_DATA_SIZE USER_TA_PROP_TYPE_U32 (DU32 (ta_data_size conf));
   mkUserProperty TA_PROP_STR_STACK_SIZE USER_TA_PROP_TYPE_U32 (DU32 (ta_stack_size conf));
   mkUserProperty TA_PROP_STR_VERSION USER_TA_PROP_TYPE_STRING (DBytes (ta_version conf ++ [0]));
   mkUserProperty TA_PROP_STR_DESCRIPTION USER_TA_PROP_TYPE_STRING
     (DBytes (ta_description conf ++ [0]));
   mkUserProperty TA_PROP_STR_ENDIAN USER_TA_PROP_TYPE_U32 (DU32 0);
   mkUserProperty TA_PROP_STR_DOES_NOT_CLOSE_HANDLE_ON_CORRUPT_OBJECT USER_TA_PROP_TYPE_BOOL
     (flag conf TA_FLAG_DONT_CLOSE_HANDLE_ON_CORRUPT_OBJECT)].

(** What a configuration declares, by the names the loader and the libraries look up. *)
Record declares (conf : TaConfig) (stack : Z) (E : env) : Prop := {
  dec_num : E !! "ta_num_props" = Some (SData (DUsize (len (origin_declared conf ++ map declared (ext_properties conf)))));
  dec_props : E !! "ta_props" = Some (SProps (origin_declared conf ++ map declared (ext_properties conf)));
  dec_head : E !! "ta_head" = Some (SHead (mkTaHead (fields_of (uuid conf)) stack (ta_flags conf) (2 ^ 64 - 1)));
  dec_heap : E !! "ta_heap" = Some (SHeap (zeros (ta_data_size conf)));
  dec_heap_size : E !! "ta_heap_size" = Some (SData (DUsize (ta_data_size conf)));
  dec_trace : E !! "trace_level" = Some (SData (DCInt (trace_level conf)));
  dec_prefix : E !! "trace_ext_prefix" = Some (SData (DBytes (trace_ext_prefix conf ++ [0])));
  dec_get_trace : E !! "tahead_get_trace_level" = Some (SFn "trace_level")
}.

(** The items before and after those of the properties. *)
Definition items_before (conf : TaConfig) : list item :=
  write_trace conf (write_configurations conf (write_includes [])).

Definition items_after (conf : TaConfig) (stack : Z) (entries : list prop_expr) : list item :=
  [Const "IS_SINGLE_INSTANCE" TyBool (FlagSet TA_FLAG_SINGLE_INSTANCE);
   Const "IS_MULTI_SESSION" TyBool (FlagSet TA_FLAG_MULTI_SESSION);
   Const "IS_KEEP_ALIVE" TyBool (FlagSet TA_FLAG_INSTANCE_KEEP_ALIVE);
   Const "IS_KEEP_CRASHED" TyBool (FlagSet TA_FLAG_INSTANCE_KEEP_CRASHED);
   Const "TA_ENDIAN" TyU32 (Lit (DU32 0));
   Const "DONT_CLOSE_HANDLE_ON_CORRUPT_OBJECT" TyBool
     (FlagSet TA_FLAG_DONT_CLOSE_HANDLE_ON_CORRUPT_OBJECT);
   Static None false "ta_num_props" TyUsize
     (Lit (DUsize (ORIGIN_PROPERTY_LEN + len (ext_properties conf))));
   Static None false "ta_props" (TyProps (ORIGIN_PROPERTY_LEN + len (ext_properties conf)))
     (PropTable (origin_properties ++ entries));
   Static (Some ".ta_head") false "ta_head" TyHead
     (HeadLit (fields_of (uuid conf)) stack (2 ^ 64 - 1));
   Static (Some ".bss") false "ta_heap" TyHeap HeapZeros;
   Static None false "ta_heap_size" TyUsize HeapSize].

Lemma generate_items conf stack :
  uuid_bytes (uuid conf) ->
  add_u 32 (ta_stack_size conf) (ta_framework_stack_size conf) = Ret stack ->
  generate conf = Ret (Ok (items_before conf ++ ext_consts 0 (ext_properties conf)
    ++ items_after conf stack (ext_entries 0 (ext_properties conf)))).
Proof.
  intros Hu Hs. unfold generate, write_ta_head, write_properties, uuid_to_tee_uuid_value_codes.
  rewrite ext_codes_spec, as_fields_spec, Hs by done. cbn [outcome_bind].
  unfold write_ta_heap. rewrite <-!app_assoc. done.
Qed.

(** The names before the properties, and what they stand for. *)
Record configured (conf : TaConfig) (E : env) : Prop := {
  con_flags : E !! "TA_FLAGS" = Some (SData (DU32 (ta_flags conf)));
  con_data : E !! "TA_DATA_SIZE" = Some (SData (DU32 (ta_data_size conf)));
  con_stack : E !! "TA_STACK_SIZE" = Some (SData (DU32 (ta_stack_size conf)));
  con_version : E !! "TA_VERSION" = Some (SData (DBytes (ta_version conf ++ [0])));
  con_description : E !! "TA_DESCRIPTION" = Some (SData (DBytes (ta_description conf ++ [0])));
  con_trace : E !! "trace_level" = Some (SData (DCInt (trace_level conf)));
  con_prefix : E !! "trace_ext_prefix" = Some (SData (DBytes (trace_ext_prefix conf ++ [0])));
  con_get_trace : E !! "tahead_get_trace_level" = Some (SFn "trace_level");
  con_fresh : Forall (fun x => E !! x = None)
    ["IS_SINGLE_INSTANCE"; "IS_MULTI_SESSION"; "IS_KEEP_ALIVE"; "IS_KEEP_CRASHED"; "TA_ENDIAN";
     "DONT_CLOSE_HANDLE_ON_CORRUPT_OBJECT"; "ta_num_props"; "ta_props"; "ta_head"; "ta_heap";
     "ta_heap_size"]%string
}.

(** Looking a name up in declarations, and checking the next item. *)
#[local] Ltac look_up :=
  repeat first [ rewrite lookup_insert_eq
               | rewrite lookup_insert_ne by (done || by apply not_ext_name) ];
  (done || eassumption).
#[local] Ltac item lem :=
  erewrite lem; [|look_up|cbn [eval_expr lit_in_range]; by rewrite ?bool_decide_eq_true_2 by done
                 |done].

Lemma before_check conf :
  config_wf conf ->
  exists E, check_items ∅ (items_before conf) = Some E /\ configured conf E /\
    forall k, E !! ext_name k = None.
Proof.
  intros Hw. destruct Hw. unfold items_before, write_trace, write_configurations, write_includes.
  cbn [app]. rewrite !check_use. do 5 item check_const. do 2 item check_static.
  erewrite check_fn; [|look_up|look_up|done]. eexists. split; [reflexivity|]. split.
  - split; try look_up. repeat constructor; look_up.
  - intros k. look_up.
Qed.

Lemma eval_flag E conf mask :
  E !! "TA_FLAGS" = Some (SData (DU32 (ta_flags conf))) ->
  eval_expr E (FlagSet mask) = Some (SData (flag conf mask)).
Proof. intros HE. cbn. unfold u32_const. by rewrite HE. Qed.

Lemma eval_head E u stack depr v :
  E !! "TA_FLAGS" = Some (SData (DU32 v)) ->
  eval_expr E (HeadLit u stack depr) = Some (SHead (mkTaHead u stack v depr)).
Proof. intros HE. cbn. unfold u32_const. by rewrite HE. Qed.

Lemma eval_heap E n :
  E !! "TA_DATA_SIZE" = Some (SData (DU32 n)) -> eval_expr E HeapZeros = Some (SHeap (zeros n)).
Proof. intros HE. cbn. unfold u32_const. by rewrite HE. Qed.

Lemma eval_heap_size E n :
  E !! "TA_DATA_SIZE" = Some (SData (DU32 n)) ->
  eval_expr E HeapSize = Some (SData (DUsize n)).
Proof. intros HE. cbn [eval_expr]. unfold u32_const. rewrite HE. cbn [mbind option_bind]. by rewrite Z.mul_1_l. Qed.

Lemma eval_addr E x t d :
  E !! x = Some (SData d) -> type_of d = t -> eval_pointer E (AddrOf x t) = Some d.
Proof. intros Hx Ht. cbn. by rewrite Hx, decide_True. Qed.

Lemma eval_slice E x l :
  E !! x = Some (SData (DBytes l)) -> eval_pointer E (SliceOf x) = Some (DBytes l).
Proof. intros Hx. cbn. by rewrite Hx. Qed.

Lemma eval_prop_ok E nm t p d :
  eval_pointer E p = Some d -> eval_prop E (mkPropExpr nm t p) = Some (mkUserProperty nm t d).
Proof. intros Hp. unfold eval_prop. cbn. by rewrite Hp. Qed.

Lemma declared_len conf :
  len (origin_declared conf ++ map declared (ext_properties conf))
  = ORIGIN_PROPERTY_LEN + len (ext_properties conf).
Proof. rewrite len_app. unfold len at 2. by rewrite length_map. Qed.

Lemma after_check conf stack E :
  config_wf conf -> configured conf E ->
  (forall k p, ext_properties conf !! k = Some p ->
     E !! ext_name k = Some (SData (property_value_data_codes (value p)))) ->
  exists E', check_items E (items_after conf stack (ext_entries 0 (ext_properties conf))) = Some E' /\
    declares conf stack E'.
Proof.
  intros Hw Hc Hext. destruct Hc. repeat (apply Forall_cons_1 in con_fresh0 as [? con_fresh0]).
  cbn beta in *.
  unfold items_after.
  do 4 (erewrite check_const; [|look_up|apply (eval_flag _ conf); look_up|done]).
  item check_const. erewrite check_const; [|look_up|apply (eval_flag _ conf); look_up|done].
  erewrite check_static;
    [|look_up|cbn [eval_expr lit_in_range]; rewrite bool_decide_eq_true_2;
      [done|pose proof (len_nonneg (ext_properties conf)); unfold ORIGIN_PROPERTY_LEN; lia]|done].
  erewrite check_static with
    (v := SProps (origin_declared conf ++ map declared (ext_properties conf)));
    [|look_up| |cbn [has_type]; by rewrite declared_len, Z.eqb_refl].
  2: { cbn [eval_expr]. apply fmap_Some. eexists. split; [|done].
       apply mapM_Some, Forall2_app.
       - repeat constructor; apply eval_prop_ok; first [apply eval_addr|apply eval_slice];
           first [look_up|done].
       - apply mapM_Some, eval_ext_entries. intros k p Hk. cbn [Nat.add].
         repeat (rewrite lookup_insert_ne by by apply not_ext_name). by apply Hext. }
  erewrite check_static; [|look_up|apply eval_head; look_up|done].
  erewrite check_static; [|look_up|apply eval_heap; look_up|done].
  erewrite check_static; [|look_up|apply eval_heap_size; look_up|done].
  eexists. split; [reflexivity|]. split; try look_up. rewrite declared_len. look_up.
Qed.

(** The type a property's object must have for its tag. *)
Definition tag_type (t : user_ta_prop_type) : option rust_type :=
  match t with
  | USER_TA_PROP_TYPE_BOOL => Some TyBool
  | USER_TA_PROP_TYPE_U32 => Some TyU32
  | USER_TA_PROP_TYPE_U64 => Some TyU64
  | USER_TA_PROP_TYPE_UUID => Some TyUuid
  | USER_TA_PROP_TYPE_IDENTITY => Some TyIdentity
  | USER_TA_PROP_TYPE_STRING | USER_TA_PROP_TYPE_BINARY_BLOCK => Some TyByteSlice
  | USER_TA_PROP_TYPE_INVALID => None
  end.

(** An object fits its tag, and what is read as a C string has a terminator. *)
Definition property_typed (p : user_ta_property) : Prop :=
  tag_type (prop_type p) = Some (type_of (pointee p)) /\ 0 ∈ name p /\
  (forall l, pointee p = DBytes l -> 0 ∈ l).

Lemma nul_at_end (l : bytes) : 0 ∈ l ++ [0].
Proof. set_solver. Qed.

Lemma declared_typed p : property_typed (declared p).
Proof.
  split_and!; [by destruct p as [? []]|apply nul_at_end|].
  intros l. destruct p as [? []]; try done; intros [= <-]; apply nul_at_end.
Qed.

Lemma origin_typed conf : Forall property_typed (origin_declared conf).
Proof.
  repeat constructor; try apply nul_at_end; intros l [= <-]; apply nul_at_end.
Qed.

(** The header of a configuration whose stack sizes have a sum. *)
Lemma header_checks conf stack :
  config_wf conf -> add_u 32 (ta_stack_size conf) (ta_framework_stack_size conf) = Ret stack ->
  exists items E, generate conf = Ret (Ok items) /\ check_file items = Some E /\
    declares conf stack E.
Proof.
  intros Hw Hs. destruct (before_check conf Hw) as (E1 & HE1 & Hc & Hext).
  destruct (ext_consts_check 0 (ext_properties conf) E1 (wf_ext _ Hw) (fun k _ => Hext k))
    as (E2 & HE2 & Ho & _ & Hk).
  assert (configured conf E2) as Hc2.
  { destruct Hc. split; try (by rewrite Ho by by apply not_ext_name).
    rewrite Forall_forall in con_fresh0 |- *. intros x Hx. rewrite Ho; [by apply con_fresh0|].
    apply not_ext_name. cbn in Hx. by repeat destruct Hx as [<-|Hx]. }
  destruct (after_check conf stack E2 Hw Hc2 Hk) as (E3 & HE3 & Hd).
  eexists _, E3. split; [by apply generate_items; [apply wf_uuid|]|]. split; [|done].
  unfold check_file. rewrite check_items_app, HE1. cbn [mbind option_bind].
  rewrite check_items_app, HE2. exact HE3.
Qed.

(** C25: the header generated for a configuration is a well-typed program that
    declares it.  Whatever the texts of the configuration and however many
    properties it adds, the compiler accepts the items (no name is declared twice,
    every name is declared before it is used, every type fits); [ta_num_props] is
    the length of [ta_props], whose entries point to objects of the type their tag
    says, with a terminator where the loader needs one; and [ta_head], the heap and
    the trace settings are those of the configuration.  The generator panics exactly
    when the sum of the two stack sizes overflows with overflow checks on; without,
    the header has the wrapped sum. *)
Theorem header_well_typed conf :
  config_wf conf ->
  let sum := ta_stack_size conf + ta_framework_stack_size conf in
  if overflow_checks && (2 ^ 32 <=? sum) then generate conf = Panic
  else exists items E, generate conf = Ret (Ok items) /\ check_file items = Some E /\
    declares conf (wrap_u 32 sum) E /\
    forall l, E !! "ta_props" = Some (SProps l) ->
      E !! "ta_num_props" = Some (SData (DUsize (len l))) /\ Forall property_typed l.
Proof.
  intros Hw sum. pose proof (wf_stack _ Hw) as H1. pose proof (wf_framework _ Hw) as H2.
  unfold in_u in H1, H2. destruct (overflow_checks && _) eqn:Eo.
  - apply andb_true_iff in Eo as [Hc Hs]. apply Z.leb_le in Hs.
    unfold generate, write_ta_head, add_u. unfold sum in Hs.
    destruct (uuid_to_tee_uuid_value_codes _) as [? ? ? ?]; by rewrite (proj2 (Z.ltb_ge _ _) Hs), Hc.
  - destruct (header_checks conf (wrap_u 32 sum) Hw) as (items & E & Hg & Hk & Hd).
    { unfold add_u. change (ta_stack_size conf + ta_framework_stack_size conf) with sum.
      destruct (sum <? 2 ^ 32) eqn:Es; reflect_bool.
      - rewrite wrap_u_small; [done|]. unfold in_u, sum in *. lia.
      - apply andb_false_iff in Eo as [->|Eo]; [done|]. reflect_bool. lia. }
    exists items, E. split; [done|]. split; [done|]. split; [done|]. intros l Hl.
    assert (l = origin_declared conf ++ map declared (ext_properties conf)) as ->
      by (pose proof (dec_props _ _ _ Hd); congruence).
    split; [apply Hd|].
    apply Forall_app. split; [apply origin_typed|].
    apply Forall_map, Forall_forall. intros p _. apply declared_typed.
Qed.

(** A header that was generated and accepted declares its configuration. *)
Lemma header_declares conf items E :
  config_wf conf -> generate conf = Ret (Ok items) -> check_file items = Some E ->
  exists stack, declares conf stack E.
Proof.
  intros Hw Hg Hk. destruct (add_u 32 (ta_stack_size conf) (ta_framework_stack_size conf)) as [n| |] eqn:Es.
  - destruct (header_checks conf n Hw Es) as (items' & E' & Hg' & Hk' & Hd). exists n.
    assert (items' = items) as -> by congruence. by assert (E' = E) as -> by congruence.
  - unfold generate, write_ta_head in Hg. rewrite Es in Hg. by destruct (uuid_to_tee_uuid_value_codes _).
  - unfold generate, write_ta_head in Hg. rewrite Es in Hg. by destruct (uuid_to_tee_uuid_value_codes _).
Qed.

Lemma declared_table conf items E :
  config_wf conf -> generate conf = Ret (Ok items) -> check_file items = Some E ->
  E !! "ta_props" = Some (SProps (origin_declared conf ++ map declared (ext_properties conf))).
Proof. intros Hw Hg Hk. destruct (header_declares _ _ _ Hw Hg Hk) as [n Hd]. apply Hd. Qed.

Lemma declared_head conf items E h :
  config_wf conf -> generate conf = Ret (Ok items) -> check_file items = Some E ->
  E !! "ta_head" = Some (SHead h) -> head_uuid h = fields_of (uuid conf).
Proof.
  intros Hw Hg Hk Hh. destruct (header_declares _ _ _ Hw Hg Hk) as [n Hd].
  pose proof (dec_head _ _ _ Hd) as Hd'. rewrite Hh in Hd'. by injection Hd' as ->.
Qed.

End Header.

(** ** Reading the properties back *)

Lemma until_nul_app v : until_nul (v ++ [0]) = until_nul v.
Proof. induction v as [|b v IH]; [done|]. cbn. by rewrite IH. Qed.

Lemma until_nul_id v : 0 ∉ v -> until_nul v = v.
Proof.
  induction v as [|b v IH]; [done|]. intros [Hb Hv]%not_elem_of_cons. cbn.
  rewrite (proj2 (Z.eqb_neq b 0)) by done. by rewrite IH.
Qed.

Lemma until_nul_no_nul v : 0 ∉ until_nul v.
Proof.
  induction v as [|b v IH]; cbn; [apply not_elem_of_nil|]. destruct (b =? 0) eqn:E; reflect_bool.
  - apply not_elem_of_nil.
  - by apply not_elem_of_cons.
Qed.

(** A flag is a bit of the word. *)
Lemma flag_bit x k : 0 <= k -> negb (Z.land x (Z.shiftl 1 k) =? 0) = Z.testbit x k.
Proof.
  intros Hk. destruct (Z.testbit x k) eqn:Hb.
  - apply negb_true_iff, Z.eqb_neq. intros E. apply (f_equal (fun y => Z.testbit y k)) in E.
    rewrite Z.land_spec, Hb, Z.shiftl_1_l, Z.pow2_bits_true, Z.bits_0 in E by done. done.
  - apply negb_false_iff, Z.eqb_eq, Z.bits_inj'. intros n Hn.
    rewrite Z.land_spec, Z.bits_0, Z.shiftl_1_l. destruct (decide (n = k)) as [->|Hnk]; [by rewrite Hb|].
    by rewrite Z.pow2_bits_false, andb_false_r.
Qed.

Section ReadBack.
Context `{UCO : UuidCrateOk, !Profile}.
Context (base64_dec : bytes -> option bytes).
Context {St : Type} `{TPO : TeePropertiesOk St}.

(** The TEE reads the properties of the TA from the table its image has. *)
Definition reads_table (E : env) (s : St) : Prop :=
  forall l k p, E !! "ta_props" = Some (SProps l) -> find_property base64_dec l k = Some p ->
    property s TEE_PROPSET_CURRENT_TA k = Some p.

(** The property a value of the configuration stands for. *)
Definition property_of (v : PropertyValue) : option raw_prop :=
  match v with
  | VBool b => Some (PBool b)
  | VU32 x => Some (PU32 x)
  | VU64 x => Some (PU64 x)
  | VUuid u => Some (PUuid (fields_of u))
  | VIdentity l u => Some (PIdentity (mkTeeIdentity l (fields_of u)))
  | VStr t => Some (PString (until_nul t))
  | VBinaryBlock t => PBinary <$> base64_dec (until_nul t)
  end.

Lemma read_declared p : value_wf (value p) ->
  read_object base64_dec (prop_type (declared p)) (pointee (declared p)) = property_of (value p).
Proof.
  destruct p as [n v]. destruct v; cbn; intros Hv; try done;
    unfold string_to_binary_codes; rewrite ?until_nul_app; try done;
    unfold identity_to_tee_identity_value_codes, uuid_to_tee_uuid_value_codes;
    by rewrite as_fields_spec by apply Hv.
Qed.

Lemma property_of_wf v p : property_of v = Some p -> prop_wf p.
Proof.
  destruct v; cbn; intros Hp; try (injection Hp as <-; cbn; done || apply until_nul_no_nul).
  apply fmap_Some in Hp as (? & _ & ->). done.
Qed.

(** The names of the ten. *)
Definition origin_names : list bytes :=
  map str_bytes ["gpd.ta.singleInstance"; "gpd.ta.multiSession"; "gpd.ta.instanceKeepAlive";
    "gpd.ta.instanceKeepCrashed"; "gpd.ta.dataSize"; "gpd.ta.stackSize"; "gpd.ta.version";
    "gpd.ta.description"; "gpd.ta.endian"; "gpd.ta.doesNotCloseHandleOnCorruptObject"]%string.

Lemma origin_declared_names conf : map (fun p => until_nul (name p)) (origin_declared conf) = origin_names.
Proof. done. Qed.

Lemma find_skip {A} (f : A -> bool) l1 l2 :
  Forall (fun x => f x = false) l1 -> List.find f (l1 ++ l2) = List.find f l2.
Proof. induction 1 as [|x l1 Hx _ IH]; [done|]. cbn. by rewrite Hx. Qed.

(** An added property is found when its name is new. *)
Lemma find_ext conf pre p post :
  ext_properties conf = pre ++ p :: post ->
  0 ∉ prop_name p -> prop_name p ∉ origin_names ->
  Forall (fun q => until_nul (prop_name q) <> prop_name p) pre -> value_wf (value p) ->
  find_property base64_dec (origin_declared conf ++ map declared (ext_properties conf)) (prop_name p)
  = property_of (value p).
Proof.
  intros Hext Hn Ho Hpre Hv. unfold find_property. rewrite find_skip.
  - rewrite Hext, map_app, find_skip.
    + cbn [map List.find]. change (name (declared p)) with (prop_name p ++ [0]).
      rewrite (until_nul_app (prop_name p)), until_nul_id, bool_decide_eq_true_2 by done.
      cbn [mbind option_bind]. by apply read_declared.
    + apply Forall_map. revert Hpre. apply Forall_impl. intros q Hq. apply bool_decide_eq_false_2.
      change (name (declared q)) with (prop_name q ++ [0]). by rewrite until_nul_app.
  - rewrite <-(origin_declared_names conf) in Ho. apply Forall_forall. intros q Hq.
    apply bool_decide_eq_false_2. intros E. apply Ho. rewrite <-E.
    apply list_elem_of_In. by apply (in_map (fun p => until_nul (name p))).
Qed.

Lemma find_origin conf l k p :
  find_property base64_dec (origin_declared conf) k = Some p ->
  find_property base64_dec (origin_declared conf ++ l) k = Some p.
Proof.
  unfold find_property. destruct (List.find _ (origin_declared conf)) as [q|] eqn:E; [|done].
  intros <-. generalize dependent (origin_declared conf). intros l0.
  induction l0 as [|x l0 IH]; [done|]. cbn [app List.find]. destruct (bool_decide _); [by intros [= ->]|].
  exact IH.
Qed.

(** Reading one of the ten by its key. *)
#[local] Ltac key Hf :=
  eapply get_found;
  [ apply (bool_decide_unpack _); by vm_compute
  | apply Hf; reflexivity
  | cbn; rewrite ?until_nul_app; try done; apply until_nul_no_nul
  | cbn; rewrite ?until_nul_app, ?until_nul_id, ?from_utf8_lossy_valid by done; done ].

(** C24: a TA reads back what its build script declared, when the version and the
    description are valid UTF-8 without a NUL byte and the TEE reads the properties
    from the table in the image. The keys of the crate give the bits of [ta_flags],
    the two sizes, the version and the description, and the endianness; an added
    property whose name has no NUL byte, is none of the crate's ten and is not that
    of a property added before it is read, at every type, as what that type makes of
    its value (which may be the error BadFormat): of a text up to its first NUL
    byte, of a binary block as the bytes of its text, which must be base64. *)
Theorem declared_properties_read_back conf items E s :
  config_wf conf -> generate conf = Ret (Ok items) -> check_file items = Some E -> reads_table E s ->
  0 ∉ ta_version conf -> 0 ∉ ta_description conf ->
  valid_utf8 (ta_version conf) = true -> valid_utf8 (ta_description conf) = true ->
  (get Keys.TaSingleInstance s = Ret (Ok (Z.testbit (ta_flags conf) 2), s) /\
   get Keys.TaMultiSession s = Ret (Ok (Z.testbit (ta_flags conf) 3), s) /\
   get Keys.TaInstanceKeepAlive s = Ret (Ok (Z.testbit (ta_flags conf) 4), s) /\
   get Keys.TaInstanceKeepCrashed s = Ret (Ok (Z.testbit (ta_flags conf) 13), s) /\
   get Keys.TaDoesNotCloseHandleOnCorruptObject s = Ret (Ok (Z.testbit (ta_flags conf) 11), s)) /\
  (get Keys.TaDataSize s = Ret (Ok (mkU32 (ta_data_size conf)), s) /\
   get Keys.TaStackSize s = Ret (Ok (mkU32 (ta_stack_size conf)), s) /\
   get Keys.TaEndian s = Ret (Ok (mkU32 0), s)) /\
  (get Keys.TaVersion s = Ret (Ok (mkText (ta_version conf)), s) /\
   get Keys.TaDescription s = Ret (Ok (mkText (ta_description conf)), s)) /\
  forall T (V : Properties.PropertyValue St T) (PV : PropertyValueOk St T) pre p post q r,
    ext_properties conf = pre ++ p :: post ->
    0 ∉ prop_name p -> prop_name p ∉ origin_names ->
    Forall (fun q => until_nul (prop_name q) <> prop_name p) pre ->
    property_of (value p) = Some q -> as_value q = Some r ->
    from_raw (T := T) TEE_PROPSET_CURRENT_TA (prop_name p ++ [0]) s = Ret (r, s).
Proof.
  intros Hw Hg Hk Ht Hv Hd Uv Ud.
  assert (E !! "ta_props" = Some (SProps (origin_declared conf ++ map declared (ext_properties conf))))
    as Hp by by eapply declared_table.
  assert (forall K p, find_property base64_dec (origin_declared conf) K = Some p ->
    property s TEE_PROPSET_CURRENT_TA K = Some p) as Hf by (intros; eapply Ht; [exact Hp|by apply find_origin]).
  rewrite <-!flag_bit by done. split; [|split; [|split]].
  - split_and!; key Hf.
  - split_and!; key Hf.
  - split; key Hf.
  - intros T V PV pre p post q r Hext Hn Ho Hpre Hq Hr.
    assert (value_wf (value p)) as Hvw.
    { pose proof (wf_ext _ Hw) as Hx. rewrite Hext in Hx.
      by apply Forall_app in Hx as [_ [Hx _]%Forall_cons_1]. }
    eapply from_raw_found; [|done|by eapply property_of_wf|done].
    eapply Ht; [exact Hp|]. by erewrite find_ext.
Qed.

End ReadBack.

(** ** The UUID of a TA, from the build script to the client *)

(** The bytes of the structure, which is [repr(C)], on the little-endian targets of
    OP-TEE. *)
Definition repr_c (u : TEE_UUID) : bytes :=
  le_split 4 (timeLow u) ++ le_split 2 (timeMid u) ++ le_split 2 (timeHiAndVersion u)
  ++ clockSeqAndNode u.

Lemma repr_fields b :
  uuid_bytes b ->
  repr_c (fields_of b)
  = rev (take 4 b) ++ rev (take 2 (drop 4 b)) ++ rev (take 2 (drop 6 b)) ++ drop 8 b.
Proof.
  intros Hu. destruct (uuid_bytes_split b Hu) as (H1 & H2 & H3 & _ & L1 & L2 & L3 & _).
  unfold repr_c, fields_of. cbn [timeLow timeMid timeHiAndVersion clockSeqAndNode].
  by rewrite !le_split_be.
Qed.

(** Sixteen bytes, named. *)
Lemma sixteen (b : bytes) :
  length b = 16%nat ->
  exists a0 a1 a2 a3 a4 a5 a6 a7 a8 a9 a10 a11 a12 a13 a14 a15,
    b = [a0; a1; a2; a3; a4; a5; a6; a7; a8; a9; a10; a11; a12; a13; a14; a15].
Proof.
  intros Hb. do 16 (destruct b as [|? b]; [done|]). destruct b; [|done]. by repeat eexists.
Qed.

Section Survives.
Context `{UCO : UuidCrateOk, !Profile}.

Lemma read_repr b : uuid_bytes b -> uuid_bytes (repr_c (fields_of b)) /\
  crate_from_bytes_le (repr_c (fields_of b)) = b.
Proof.
  intros Hu. rewrite repr_fields by done. destruct Hu as [Hl Hb].
  destruct (sixteen b Hl) as (a0 & a1 & a2 & a3 & a4 & a5 & a6 & a7 & a8 & a9 & a10 & a11 & a12
    & a13 & a14 & a15 & ->).
  assert (uuid_bytes [a3; a2; a1; a0; a5; a4; a7; a6; a8; a9; a10; a11; a12; a13; a14; a15]) as Hs.
  { split; [done|]. rewrite Forall_forall in Hb |- *. intros x Hx. apply Hb. cbn in *. tauto. }
  split; [exact Hs|]. exact (from_bytes_le_spec _ Hs).
Qed.

(** C23: the UUID a build script is given is the TA's UUID everywhere.  Whatever
    else the configuration is changed to, the header's [ta_head] has the fields a
    client gets from the same string; the image's sixteen bytes at [ta_head], read
    by [cargo optee], are that UUID; and the name the tool gives the TA's file is
    the string the client prints. *)
Theorem uuid_survives_build `{!Target, !TargetOk} (Elf_parse : bytes -> option Elf)
    s version description conf conf' items E h data elf :
  Config.new_default s version description = Ok conf -> uuid conf' = uuid conf -> config_wf conf' ->
  generate conf' = Ret (Ok items) -> check_file items = Some E -> E !! "ta_head"%string = Some (SHead h) ->
  (forall elf, Elf_parse data = Some elf -> elf_wf elf) -> len data < 2 ^ ptr_bits ->
  names_uuid Elf_parse data elf "ta_head" 0 (repr_c (head_uuid h)) -> Forall ph_fits (loads elf) ->
  exists u, Teec.parse_str s = Ok u /\ head_uuid h = Teec.raw u /\
    read_ta_uuid_from_bytes Elf_parse crate_from_bytes_le data = Ret (Ok (uuid conf)) /\
    crate_to_string (uuid conf) = Teec.fmt u.
Proof.
  unfold Config.new_default. destruct (crate_parse_str s) as [b|] eqn:Hs; [|done].
  intros [= <-] Hu Hw Hg Hk Hh Hwf Hlen Hn Hf. cbn [uuid] in *.
  pose proof (parse_is_uuid _ _ Hs) as Hb.
  assert (head_uuid h = fields_of b) as Hhead by (rewrite <-Hu; by eapply declared_head).
  exists (Teec.mkUuid (fields_of b)). split; [by rewrite teec_parse, Hs|]. split; [done|]. split.
  - destruct (read_ta_uuid_spec Elf_parse crate_from_bytes_le data Hwf Hlen) as (r & Hr & _ & Hc).
    rewrite Hr, (Hc elf _ Hn Hf), Hhead. f_equal. f_equal. by apply read_repr.
  - by rewrite teec_fmt_fields, to_string_spec.
Qed.

End Survives.

(** ** Witnesses: a single-instance TA with two properties of its own *)
Module HeaderExamples.
Import PlainUuids TableProperties.
#[local] Instance header_profile : Profile := true.
#[local] Instance header_target : Target := 64.

Definition plain : TaConfig :=
  mkTaConfig [0x26; 0x50; 0x9c; 0xec; 0x4a; 0x2b; 0x49; 0x35; 0x87; 0xab; 0x76; 0x2d; 0x89; 0xfb; 0xf0; 0xb0]
    0 32768 2048 (str_bytes "0.1.0") (str_bytes "test") 4 (str_bytes "TA") 2048 [].

Definition conf : TaConfig :=
  Config.add_ext_property
    (Config.add_ext_property
       (Config.with_ta_data_size (Config.with_ta_flags plain TA_FLAG_SINGLE_INSTANCE) 64)
       (str_bytes "ext.level") (VU32 7))
    (str_bytes "ext.owner") (VStr (str_bytes "nobody")).

Lemma uuid_ok : uuid_bytes (uuid plain).
Proof. by repeat constructor. Qed.

Lemma conf_ok : config_wf conf.
Proof. split; [apply uuid_ok|done..|]. by repeat constructor. Qed.

Definition items : list item := match generate conf with Ret (Ok l) => l | _ => [] end.
Definition header : env := match check_file items with Some E => E | None => ∅ end.

Lemma header_well_typed_witness :
  config_wf conf /\ exists items E, generate conf = Ret (Ok items) /\ check_file items = Some E /\
    declares conf 4096 E.
Proof.
  split; [exact conf_ok|]. destruct (header_well_typed conf conf_ok) as (its & E & Hg & Hk & Hd & _).
  by exists its, E.
Defined.

(** The library's table, with no binary properties. *)
Definition tee : table := fun h k =>
  if h =? TEE_PROPSET_CURRENT_TA then
    match header !! "ta_props"%string with
    | Some (SProps l) => find_property (fun _ => None) l k
    | _ => None
    end
  else None.

Lemma items_checked : check_file items = Some header.
Proof. vm_compute. reflexivity. Qed.

Lemma tee_reads_table : reads_table (fun _ => None) header tee.
Proof. intros l k p Hl Hp. unfold property, table_properties_ok, tee. by rewrite Z.eqb_refl, Hl. Qed.

Lemma no_nul (s : string) : bool_decide (0 ∉ str_bytes s) = true -> 0 ∉ str_bytes s.
Proof. apply bool_decide_eq_true_1. Qed.

Lemma owner_is_new : str_bytes "ext.owner" ∉ origin_names.
Proof. apply (bool_decide_unpack _). by vm_compute. Qed.

Lemma declared_properties_read_back_witness :
  get Keys.TaSingleInstance tee = Ret (Ok true, tee) /\
  get Keys.TaVersion tee = Ret (Ok (mkText (str_bytes "0.1.0")), tee) /\
  from_raw (T := Text) TEE_PROPSET_CURRENT_TA (str_bytes "ext.owner" ++ [0]) tee
  = Ret (Ok (mkText (str_bytes "nobody")), tee).
Proof.
  destruct (declared_properties_read_back (fun _ => None) conf items header tee
    conf_ok eq_refl items_checked tee_reads_table (no_nul "0.1.0" eq_refl) (no_nul "test" eq_refl)
    eq_refl eq_refl) as ((H1 & _) & _ & (H2 & _) & H3).
  split; [exact H1|]. split; [exact H2|].
  apply (H3 Text _ text_ok [mkProperty (str_bytes "ext.level") (VU32 7)]
    (mkProperty (str_bytes "ext.owner") (VStr (str_bytes "nobody"))) []
    (PString (str_bytes "nobody")) (Ok (mkText (str_bytes "nobody")))).
  - done.
  - by apply no_nul.
  - exact owner_is_new.
  - by repeat constructor.
  - done.
  - done.
Defined.

Definition image : bytes :=
  elf_magic ++ [0; 0] ++ repr_c (fields_of (uuid plain)) ++ map Z.of_nat (seq 17 14).

Lemma uuid_survives_build_witness :
  exists u, Teec.parse_str "26509cec-4a2b-4935-87ab-762d89fbf0b0" = Ok u /\
    read_ta_uuid_from_bytes (fun _ => Some ElfExamples.elf) crate_from_bytes_le image
    = Ret (Ok (uuid plain)) /\
    Teec.fmt u = "26509cec-4a2b-4935-87ab-762d89fbf0b0"%string.
Proof.
  destruct (uuid_survives_build (fun _ => Some ElfExamples.elf)
    "26509cec-4a2b-4935-87ab-762d89fbf0b0" (str_bytes "0.1.0") (str_bytes "test") plain conf items header
    (mkTaHead (fields_of (uuid plain)) 4096 4 (2 ^ 64 - 1)) image ElfExamples.elf)
    as (u & Hu & _ & Hr & Hs).
  - vm_compute. reflexivity.
  - done.
  - exact conf_ok.
  - reflexivity.
  - exact items_checked.
  - vm_compute. reflexivity.
  - intros e [= <-]. split; repeat constructor; by vm_compute.
  - done.
  - split; [done|done|by split; [|split; [|left]]|].
    exists (mkSym 1 STB_GLOBAL STT_OBJECT 1 0x10002 48). split_and!; [| |done|].
    + exists [mkSym 0 0 0 0 0 0], []. split; [done|]. split; [by repeat constructor|done].
    + split; [by left|by right].
    + split. exists [], (mkPh PT_LOAD 4 0x10000 32 64), []. split_and!; done.
  - by repeat constructor.
  - exists u. split; [exact Hu|]. split; [exact Hr|]. rewrite <-Hs. vm_compute. reflexivity.
Defined.

End HeaderExamples.
