(* ===== verification/TaLinker.v ===== *)
(** * The build script of a TA: [optee-utee-build/src/linker.rs], [builder.rs],
      [lib.rs]

    The script writes the header of [TaHeader], the linker script and the list of
    dynamic symbols, and tells cargo how to link, by lines on its standard output.
    The host is the interface [Host] with those lines, [File::create], and a
    child's output ([BuildHost]); printing the items ([syn], [prettyplease]) is a
    parameter. *)

From stdpp Require Import pretty.
From S2P Require Import Prelude Uuids Utf8 Properties TaHeader Host.
Local Open Scope string_scope.

(** [println!] also writes the newline.  [fs_create] empties the file it opens;
    [fs_append] is a write to a file that was opened.  [os_output] runs a child and
    gives its exit status and its output. *)
Class BuildHost (St : Type) : Type := {
  build_host :: Host St;
  println : string -> St -> St;
  fs_create : path -> St -> io unit * St;
  fs_append : path -> string -> St -> io unit * St;
  os_output : Command -> St -> io (ExitStatus * bytes) * St
}.

Inductive LinkerType : Type := Cc | Ld.

Record Linker : Type := mkLinker {
  linker_type : LinkerType;
  ftrace_buf_size : option Z
}.

Definition io_error {A} (r : io A) : result A BuildError := map_err Io r.

Module LinkerOps.
Section Ops.
Context {St : Type} `{!BuildHost St}.

Definition say (line : string) : prog St unit := on_host (fun s => (tt, println line s)).

(** [std::env::var(k)?]. *)
Definition var_or_error (k : string) : result string BuildError := ok_or (env_var k) (Env k).

Definition new (t : LinkerType) : Linker := mkLinker t None.

Definition with_ftrace_buf_size (self : Linker) (n : Z) : Linker :=
  mkLinker (linker_type self) (Some n).

Definition auto_detect_linker_type : prog St LinkerType :=
  let* _ := say "cargo:rerun-if-env-changed=RUSTC_LINKER" in
  pret match env_var "RUSTC_LINKER" with
       | Some linker_name =>
           if ends_with "ld" linker_name || ends_with "ld.bfd" linker_name then Ld else Cc
       | None => Cc
       end.

Definition auto : prog St Linker :=
  let* t := auto_detect_linker_type in pret (new t).

Definition link_arg (self : Linker) (arg : string) : prog St unit :=
  match linker_type self with
  | Cc => say ("cargo:rustc-link-arg=-Wl," +:+ arg)
  | Ld => say ("cargo:rustc-link-arg=" +:+ arg)
  end.

Definition change_default_page_size : prog St unit :=
  let* _ := say "cargo:rustc-link-arg=-z" in
  let* _ := say "cargo:rustc-link-arg=max-page-size=0x1000" in
  let* _ := say "cargo:rustc-link-arg=-z" in
  say "cargo:rustc-link-arg=common-page-size=0x1000".

(** The preprocessor's command. *)
Definition arch_args (arch : string) : list string :=
  if arch =? "riscv32" then ["-DRV32=1"]
  else if arch =? "riscv64" then ["-DRV64=1"]
  else if arch =? "arm" then ["-DARM32=1"]
  else if arch =? "aarch64" then ["-DARM64=1"]
  else [].

Definition cc_command (self : Linker) (cc_cmd template arch : string) : Command :=
  let tmp := Cmd.new cc_cmd in
  let tmp := Cmd.argv tmp ["-E"; "-P"; "-x"; "c"; template] in
  let tmp := Cmd.argv tmp (arch_args arch) in
  match ftrace_buf_size self with
  | Some n => Cmd.arg tmp ("-DCFG_FTRACE_BUF_SIZE=" +:+ pretty n)
  | None => tmp
  end.

(** [to_str().expect(..)] cannot fail: the directory came from [env::var]. *)
Definition generate_new_link_script (self : Linker) (ta_dev_kit_dir : path)
    : prog St (result string BuildError) :=
  let template := join ta_dev_kit_dir "src/ta.ld.S" in
  let* _ := say ("cargo:rerun-if-changed=" +:+ template) in
  let* _ := say "cargo:rerun-if-env-changed=CC" in
  let cc_cmd := default "cc" (env_var "CC") in
  let* _ := say "cargo:rerun-if-env-changed=CARGO_CFG_TARGET_ARCH" in
  let? arch := pret (var_or_error "CARGO_CFG_TARGET_ARCH") in
  let* output := on_host (os_output (cc_command self cc_cmd template arch)) in
  let? (_, stdout) := pret (io_error output) in
  pret (match from_utf8 stdout with Some t => Ok (utf8 t) | None => Err Utf end).

Definition write_and_set_linker_script (self : Linker) (out_dir ta_dev_kit_dir : path)
    : prog St (result unit BuildError) :=
  let* _ := say "cargo:rerun-if-env-changed=TARGET" in
  let* _ := (match env_var "TARGET" with
             | Some v => if (v =? "arm-unknown-linux-gnueabihf") || (v =? "arm-unknown-optee")
                         then link_arg self "--no-warn-mismatch" else pret tt
             | None => pret tt
             end) in
  let link_script_dest := join out_dir "ta.lds" in
  let? link_script := generate_new_link_script self ta_dev_kit_dir in
  let* old := look (fs_read link_script_dest) in
  let? _ := (if match old with Ok v => bool_decide (v = str_bytes link_script) | Err _ => false end
             then pret (Ok tt)
             else let* r := on_host (fs_write link_script_dest link_script) in pret (io_error r)) in
  let* _ := change_default_page_size in
  let* _ := say ("cargo:rustc-link-search=" +:+ out_dir) in
  let* _ := say ("cargo:rerun-if-changed=" +:+ link_script_dest) in
  let* _ := say ("cargo:rustc-link-arg=-T" +:+ link_script_dest) in
  pret (Ok tt).

(** The text of [dyn_list], with the newline of [writeln!]. *)
Definition dyn_list_text : string :=
  "{ __elf_phdr_info; trace_ext_prefix; trace_level; ta_head; };"
  +:+ String (Ascii.ascii_of_N 10) "".

Definition link_all (self : Linker) (out_dir : path) : prog St (result unit BuildError) :=
  let* _ := say "cargo:rerun-if-env-changed=TA_DEV_KIT_DIR" in
  let? ta_dev_kit_dir := pret (var_or_error "TA_DEV_KIT_DIR") in
  let? _ := write_and_set_linker_script self out_dir ta_dev_kit_dir in
  let search_path := join ta_dev_kit_dir "lib" in
  let* _ := say ("cargo:rustc-link-search=" +:+ search_path) in
  let* _ := say "cargo:rustc-link-lib=static=utee" in
  let* _ := say "cargo:rustc-link-lib=static=utils" in
  let* _ := link_arg self "-lutee" in
  let* _ := link_arg self "-lutils" in
  let* _ := say "cargo:rustc-link-arg=-e__ta_entry" in
  let* _ := say "cargo:rustc-link-arg=-pie" in
  let* _ := say "cargo:rustc-link-arg=-Os" in
  let* _ := link_arg self "--sort-section=alignment" in
  let dyn_list := join out_dir "dyn_list" in
  let* r := on_host (fs_create dyn_list) in
  let? _ := pret (io_error r) in
  let* r := on_host (fs_append dyn_list dyn_list_text) in
  let? _ := pret (io_error r) in
  let* _ := link_arg self "--dynamic-list=dyn_list" in
  pret (Ok tt).

End Ops.
End LinkerOps.

(** ** [Builder] *)

Record Builder : Type := mkBuilder {
  out_dir : option path;
  header_file_name : option string;
  ta_config : TaConfig;
  b_linker_type : option LinkerType
}.

Module BuilderOps.
Section Ops.
Context `{!UuidCrate, !Profile}.
Context {St : Type} `{!BuildHost St}.
Context (unparse : list item -> string).

Definition DEFAULT_HEADER_FILE_NAME : string := "user_ta_header.rs".

Definition new (conf : TaConfig) : Builder := mkBuilder None None conf None.
Definition with_out_dir (self : Builder) (p : path) : Builder :=
  mkBuilder (Some p) (header_file_name self) (ta_config self) (b_linker_type self).
Definition with_header_file_name (self : Builder) (n : string) : Builder :=
  mkBuilder (out_dir self) (Some n) (ta_config self) (b_linker_type self).
Definition with_linker_type (self : Builder) (t : LinkerType) : Builder :=
  mkBuilder (out_dir self) (header_file_name self) (ta_config self) (Some t).

Definition header_path (self : Builder) (out : path) : path :=
  join out (default DEFAULT_HEADER_FILE_NAME (header_file_name self)).

Definition write_header_file (self : Builder) (out : path) : prog St (result unit BuildError) :=
  let out_header_file_name := header_path self out in
  let* r := on_host (fs_create out_header_file_name) in
  let? _ := pret (io_error r) in
  let* codes := plift (Generator.generate (ta_config self)) in
  let? header_codes := pret codes in
  let* r := on_host (fs_append out_header_file_name (unparse header_codes)) in
  let? _ := pret (io_error r) in
  pret (Ok tt).

Definition link (self : Builder) (out : path) : prog St (result unit BuildError) :=
  let* linker := (match b_linker_type self with
                  | Some v => pret (LinkerOps.new v)
                  | None => LinkerOps.auto
                  end) in
  LinkerOps.link_all linker out.

Definition build (self : Builder) : prog St (result unit BuildError) :=
  let? out := pret (match out_dir self with
                    | Some v => Ok v
                    | None => LinkerOps.var_or_error "OUT_DIR"
                    end) in
  let? _ := write_header_file self out in
  let? _ := link self out in
  pret (Ok tt).

(** [optee_utee_build::build]. *)
Definition build_config (conf : TaConfig) : prog St (result unit BuildError) := build (new conf).

End Ops.
End BuilderOps.
