(* ===== verification/TaLinkerSpec.v ===== *)
(** * TaLinkerSpec: what the build script of a TA leaves behind

    The lines for cargo and the files of a build script, on every path. *)

From S2P Require Import Prelude Uuids Utf8 Properties TaHeader Host TaLinker.
Local Open Scope string_scope.

(** ** What is assumed of the host

    The lines that were printed and the contents of files; paths that differ are
    different files, and the preprocessor writes none. *)
Class BuildHostOk (St : Type) `{!BuildHost St} : Type := {
  out : St -> list string;
  file : path -> St -> option string;
  println_ok l s : out (println l s) = (out s ++ [l])%list /\ forall p, file p (println l s) = file p s;
  read_file_ok p s v : fs_read p s = Ok v -> exists t, file p s = Some t /\ v = str_bytes t;
  write_file_ok p t s r s' : fs_write p t s = (r, s') ->
    out s' = out s /\ (forall q, q <> p -> file q s' = file q s) /\ (r = Ok tt -> file p s' = Some t);
  create_ok p s r s' : fs_create p s = (r, s') ->
    out s' = out s /\ (forall q, q <> p -> file q s' = file q s) /\ (r = Ok tt -> file p s' = Some "");
  append_ok p t s r s' : fs_append p t s = (r, s') ->
    out s' = out s /\ (forall q, q <> p -> file q s' = file q s) /\
    (forall t0, r = Ok tt -> file p s = Some t0 -> file p s' = Some (t0 +:+ t));
  output_ok c s r s' : os_output c s = (r, s') ->
    out s' = out s /\ forall p, file p s' = file p s
}.

(** ** The reference: the lines of a build, as cargo reads them *)

(** An argument for [ld], passed through the compiler driver if that links. *)
Definition for_linker (t : LinkerType) (a : string) : string :=
  "cargo:rustc-link-arg=" +:+ (match t with Cc => "-Wl," | Ld => "" end) +:+ a.

Section Directives.
Context {St : Type} `{!BuildHost St}.

(** The linker of a builder, and the line of detecting it. *)
Definition detected : LinkerType :=
  match env_var "RUSTC_LINKER" with
  | Some l => if ends_with "ld" l || ends_with "ld.bfd" l then Ld else Cc
  | None => Cc
  end.
Definition linker_of (b : Builder) : LinkerType := default detected (b_linker_type b).

Definition arm_target : bool :=
  match env_var "TARGET" with
  | Some v => (v =? "arm-unknown-linux-gnueabihf") || (v =? "arm-unknown-optee")
  | None => false
  end.

(** The lines of one call of [link_all], in the order they are printed: what the
    script depends on, the page size, the script, and the libraries. *)
Definition template_lines (kit : path) : list string :=
  ["cargo:rerun-if-changed=" +:+ join kit "src/ta.ld.S"; "cargo:rerun-if-env-changed=CC";
   "cargo:rerun-if-env-changed=CARGO_CFG_TARGET_ARCH"].

Definition page_lines : list string :=
  ["cargo:rustc-link-arg=-z"; "cargo:rustc-link-arg=max-page-size=0x1000";
   "cargo:rustc-link-arg=-z"; "cargo:rustc-link-arg=common-page-size=0x1000"].

Definition script_lines (od : path) : list string :=
  ["cargo:rustc-link-search=" +:+ od; "cargo:rerun-if-changed=" +:+ join od "ta.lds";
   "cargo:rustc-link-arg=-T" +:+ join od "ta.lds"].

Definition library_lines (t : LinkerType) (kit : path) : list string :=
  ["cargo:rustc-link-search=" +:+ join kit "lib"; "cargo:rustc-link-lib=static=utee";
   "cargo:rustc-link-lib=static=utils"; for_linker t "-lutee"; for_linker t "-lutils";
   "cargo:rustc-link-arg=-e__ta_entry"; "cargo:rustc-link-arg=-pie"; "cargo:rustc-link-arg=-Os";
   for_linker t "--sort-section=alignment"; for_linker t "--dynamic-list=dyn_list"].

Definition mismatch_lines (t : LinkerType) : list string :=
  if arm_target then [for_linker t "--no-warn-mismatch"] else [].

Definition link_lines (t : LinkerType) (kit od : path) : list string :=
  ("cargo:rerun-if-env-changed=TA_DEV_KIT_DIR" :: "cargo:rerun-if-env-changed=TARGET"
  :: mismatch_lines t ++ template_lines kit ++ page_lines ++ script_lines od
  ++ library_lines t kit)%list.

(** All lines of a build. *)
Definition directives (b : Builder) (kit od : path) : list string :=
  ((match b_linker_type b with None => ["cargo:rerun-if-env-changed=RUSTC_LINKER"] | Some _ => [] end)
  ++ link_lines (linker_of b) kit od)%list.

End Directives.

Lemma str_bytes_inj (a b : string) : str_bytes a = str_bytes b -> a = b.
Proof.
  revert b. induction a as [|x a IH]; intros [|y b]; try done. unfold str_bytes. cbn [map String.list_ascii_of_string].
  intros [= Hx Hr]. apply N2Z.inj, (f_equal Ascii.ascii_of_N) in Hx.
  rewrite !Ascii.ascii_N_embedding in Hx. subst y. f_equal. by apply IH.
Qed.

(** ** Following a build

    [at_line s0 D rest F s]: since [s0], the lines of [D] were printed except [rest],
    and the files of [F] have these contents. *)
Section Follow.
Context {St : Type} `{BO : BuildHostOk St}.
Context (s0 : St) (D : list string).

Definition at_line (rest : list string) (F : gmap path string) (s : St) : Prop :=
  (exists printed, D = (printed ++ rest)%list /\ out s = (out s0 ++ printed)%list) /\
  forall p t, F !! p = Some t -> file p s = Some t.

Lemma say_does rest F s line :
  at_line (line :: rest) F s -> does (LinkerOps.say line) s (fun _ s' => at_line rest F s').
Proof.
  intros [(printed & HD & Ho) Hf]. apply does_host. intros a s' [= _ <-].
  destruct (println_ok line s) as [Ho' Hf']. split.
  - exists (printed ++ [line])%list. by rewrite Ho', Ho, <-!app_assoc.
  - intros p t Hp. rewrite Hf'. by apply Hf.
Qed.

Lemma does_say {A} rest F s line (f : unit -> prog St A) Q :
  at_line (line :: rest) F s ->
  (forall s', at_line rest F s' -> does (f tt) s' Q) ->
  does (pbind (LinkerOps.say line) f) s Q.
Proof.
  intros Hs Hn. eapply does_bind; [by apply say_does|]. intros [] s' Hs'. by apply Hn.
Qed.

(** An argument of the linker. *)
Lemma link_arg_does rest F s (self : Linker) a :
  at_line (for_linker (linker_type self) a :: rest) F s ->
  does (LinkerOps.link_arg self a) s (fun _ s' => at_line rest F s').
Proof. intros Hs. unfold LinkerOps.link_arg. destruct (linker_type self); by apply say_does. Qed.

Lemma does_arg {A} rest F s (self : Linker) a (f : unit -> prog St A) Q :
  at_line (for_linker (linker_type self) a :: rest) F s ->
  (forall s', at_line rest F s' -> does (f tt) s' Q) ->
  does (pbind (LinkerOps.link_arg self a) f) s Q.
Proof.
  intros Hs Hn. eapply does_bind; [by apply link_arg_does|]. intros [] s' Hs'. by apply Hn.
Qed.

(** A change of one file. *)
Lemma at_line_file rest F s s' p t :
  at_line rest F s -> out s' = out s -> (forall q, q <> p -> file q s' = file q s) ->
  file p s' = Some t -> at_line rest (<[p := t]> F) s'.
Proof.
  intros [Ho Hf] Ho' Hq Hp. split; [by rewrite Ho'|]. intros q u [[<- <-]|[Hne Hu]]%lookup_insert_Some;
    [done|]. rewrite Hq by done. by apply Hf.
Qed.

Lemma at_line_drop rest F s s' p :
  at_line rest F s -> out s' = out s -> (forall q, q <> p -> file q s' = file q s) ->
  at_line rest (delete p F) s'.
Proof.
  intros [Ho Hf] Ho' Hq. split; [by rewrite Ho'|]. intros q u [Hne Hu]%lookup_delete_Some.
  rewrite Hq by done. by apply Hf.
Qed.

Lemma at_line_same rest F s s' :
  at_line rest F s -> out s' = out s -> (forall q, file q s' = file q s) -> at_line rest F s'.
Proof. intros [Ho Hf] Ho' Hq. split; [by rewrite Ho'|]. intros q u Hu. rewrite Hq. by apply Hf. Qed.

(** The answer of a call on a file, which [io_error] passes on. *)
Lemma does_file {A} (call : St -> io unit * St) rest F p t s (f : unit -> prog St (result A BuildError)) Q :
  at_line rest F s ->
  (forall r s', call s = (r, s') -> out s' = out s /\ (forall q, q <> p -> file q s' = file q s) /\
     (r = Ok tt -> file p s' = Some t)) ->
  (forall e s', at_line rest (delete p F) s' -> Q (Err e) s') ->
  (forall s', at_line rest (<[p := t]> F) s' -> does (f tt) s' Q) ->
  does (let* r := on_host call in let? x := pret (io_error r) in f x) s Q.
Proof.
  intros Hs Hc He Hf. eapply does_bind; [apply does_host; intros r s' E; exact (Hc r s' E)|]. cbn beta.
  intros r s' (Ho & Hq & Hp). apply does_try_pure; destruct r as [[]|e]; cbn; try done.
  - intros e' _. eapply He, at_line_drop; eauto.
  - intros [] _. eapply Hf, at_line_file; eauto.
Qed.

(** An error leaves lines that were not printed. *)
Definition failed (s : St) : Prop := exists rest F, rest <> [] /\ at_line rest F s.

Lemma failed_at rest F s : at_line rest F s -> rest <> [] -> failed s.
Proof. intros Hs Hr. by exists rest, F. Qed.

(** What the compiler's preprocessor gave for the template. *)
Definition preprocessed (self : Linker) (kit : path) (script : string) : Prop :=
  exists arch s1 st o t s2, env_var "CARGO_CFG_TARGET_ARCH" = Some arch /\
    os_output (LinkerOps.cc_command self (default "cc" (env_var "CC")) (join kit "src/ta.ld.S") arch) s1
    = (Ok (st, o), s2) /\ from_utf8 o = Some t /\ script = utf8 t.

Lemma script_does self kit rest F s :
  rest <> [] ->
  at_line (template_lines kit ++ rest)%list F s ->
  does (LinkerOps.generate_new_link_script self kit) s (fun r s' =>
    match r with
    | Ok script => at_line rest F s' /\ preprocessed self kit script
    | Err _ => failed s'
    end).
Proof.
  intros Hr Hs. unfold LinkerOps.generate_new_link_script.
  eapply does_say; [exact Hs|]. intros s1 H1. eapply does_say; [exact H1|]. intros s2 H2.
  eapply does_say; [exact H2|]. intros s3 H3. apply does_try_pure; [intros; by eapply failed_at|].
  intros arch Ha. unfold LinkerOps.var_or_error in Ha.
  destruct (env_var "CARGO_CFG_TARGET_ARCH") as [a|] eqn:Ea; [injection Ha as ->|done].
  eapply does_bind; [apply does_host; intros r s4 E; exact (conj E (output_ok _ _ _ _ E))|]. cbn beta.
  intros r s4 (E & Ho & Hf). assert (at_line rest F s4) as H4 by by eapply at_line_same.
  destruct r as [[st o]|e]; cbn [io_error map_err].
  - apply does_try_pure; [done|]. intros ? [= <-]. apply does_ret.
    destruct (from_utf8 o) as [t|] eqn:Et; [|by eapply failed_at].
    split; [done|]. by exists arch, s3, st, o, t, s4.
  - apply does_try_pure; [intros; by eapply failed_at|done].
Qed.

Lemma page_size_does rest F s :
  at_line (page_lines ++ rest)%list F s ->
  does LinkerOps.change_default_page_size s (fun _ s' => at_line rest F s').
Proof.
  intros Hs. unfold LinkerOps.change_default_page_size.
  do 3 (eapply does_say; [exact Hs|]; clear Hs; intros ? Hs). by apply say_does.
Qed.

(** The line about the target. *)
Lemma mismatch_does self rest F s :
  at_line (mismatch_lines (linker_type self) ++ rest)%list F s ->
  does (match env_var "TARGET" with
        | Some v => if (v =? "arm-unknown-linux-gnueabihf") || (v =? "arm-unknown-optee")
                    then LinkerOps.link_arg self "--no-warn-mismatch" else pret tt
        | None => pret tt
        end) s (fun _ s' => at_line rest F s').
Proof.
  unfold mismatch_lines, arm_target. intros Hs. destruct (env_var "TARGET") as [v|]; [|by apply does_ret].
  destruct (_ || _); [by apply link_arg_does|by apply does_ret].
Qed.

(** The file is written unless it already has the text. *)
Lemma update_does script p rest F s old :
  at_line rest F s -> old = fs_read p s ->
  does (if match old with Ok v => bool_decide (v = str_bytes script) | Err _ => false end
        then pret (Ok tt)
        else let* r := on_host (fs_write p script) in pret (io_error r)) s
    (fun r s' => match r with
                 | Ok _ => at_line rest (<[p := script]> F) s'
                 | Err _ => at_line rest (delete p F) s'
                 end).
Proof.
  intros Hs ->. destruct (match fs_read p s with Ok _ => _ | Err _ => _ end) eqn:Eb.
  - apply does_ret. destruct (fs_read p s) as [v|e] eqn:Er; [|done]. apply bool_decide_eq_true in Eb.
    destruct (read_file_ok p s v Er) as (t & Ht & Hv). rewrite Hv in Eb. apply str_bytes_inj in Eb as ->.
    by eapply at_line_file.
  - eapply does_bind; [apply does_host; intros r s' E; exact (write_file_ok _ _ _ _ _ E)|]. cbn beta.
    intros r s' (Ho & Hq & Hp). apply does_ret. destruct r as [[]|e]; cbn.
    + eapply at_line_file; eauto.
    + eapply at_line_drop; eauto.
Qed.

Lemma set_script_does self od kit rest F s :
  rest <> [] ->
  at_line ("cargo:rerun-if-env-changed=TARGET" :: mismatch_lines (linker_type self)
           ++ template_lines kit ++ page_lines ++ script_lines od ++ rest)%list F s ->
  does (LinkerOps.write_and_set_linker_script self od kit) s (fun r s' =>
    match r with
    | Ok _ => exists script, at_line rest (<[join od "ta.lds" := script]> F) s' /\
                preprocessed self kit script
    | Err _ => failed s'
    end).
Proof.
  intros Hr Hs. unfold LinkerOps.write_and_set_linker_script.
  eapply does_say; [exact Hs|]. clear Hs. intros s1 Hs.
  eapply does_bind; [by apply mismatch_does|]. cbn beta. clear Hs. intros _ s2 Hs.
  eapply does_try; [eapply script_does; [|exact Hs]; by unfold page_lines|by intros|]. cbn beta. clear Hs. intros script s3 [Hs Hp].
  eapply does_bind; [apply does_see|]. cbn beta. intros old s4 [Ho ->].
  eapply does_try; [by apply (update_does script (join od "ta.lds") (page_lines ++ script_lines od ++ rest) F)
    |intros e s' He; apply (failed_at _ _ _ He); by unfold page_lines|].
  cbn beta. clear Hs Ho. intros [] s5 Hs.
  eapply does_bind; [by apply page_size_does|]. cbn beta. clear Hs. intros _ s6 Hs.
  do 3 (eapply does_say; [exact Hs|]; clear Hs; intros ? Hs).
  apply does_ret. by exists script.
Qed.

(** The libraries and the list of dynamic symbols; these are the last lines. *)
Lemma link_all_does self od kit F s :
  env_var "TA_DEV_KIT_DIR" = Some kit \/ env_var "TA_DEV_KIT_DIR" = None ->
  at_line (link_lines (linker_type self) kit od) F s ->
  does (LinkerOps.link_all self od) s (fun r s' =>
    match r with
    | Ok _ => exists script,
        at_line [] (<[join od "dyn_list" := LinkerOps.dyn_list_text]>
                      (<[join od "ta.lds" := script]> F)) s' /\
        env_var "TA_DEV_KIT_DIR" = Some kit /\ preprocessed self kit script
    | Err _ => failed s'
    end).
Proof.
  intros Hk Hs. unfold LinkerOps.link_all. eapply does_say; [exact Hs|]. clear Hs. intros s1 Hs.
  apply does_try_pure; [intros; by eapply failed_at|]. unfold LinkerOps.var_or_error.
  intros kit' Hkit. destruct Hk as [Hk|Hk]; rewrite Hk in Hkit; [injection Hkit as <-|done].
  eapply does_try; [eapply set_script_does; [|exact Hs]; done|by intros|]. cbn beta. clear Hs.
  intros [] s2 (script & Hs & Hp).
  do 3 (eapply does_say; [exact Hs|]; clear Hs; intros ? Hs).
  do 2 (eapply does_arg; [exact Hs|]; clear Hs; intros ? Hs).
  do 3 (eapply does_say; [exact Hs|]; clear Hs; intros ? Hs).
  eapply does_arg; [exact Hs|]; clear Hs; intros s3 Hs.
  eapply does_file; [exact Hs|intros r z E; exact (create_ok _ _ _ _ E)|by intros; eapply failed_at|].
  clear Hs. intros s4 Hs.
  eapply does_file with (t := LinkerOps.dyn_list_text);
    [exact Hs| |by intros; eapply failed_at|].
  { intros r z E. destruct (append_ok _ _ _ _ _ E) as (Ho & Hq & Ha). split_and!; [done|done|].
    intros Hr. apply (Ha ""); [done|]. apply Hs, lookup_insert_eq. }
  clear Hs. intros s5 Hs. eapply does_arg; [exact Hs|]. clear Hs. intros s6 Hs.
  apply does_ret. exists script. by rewrite insert_insert_eq in Hs.
Qed.

(** The header file. *)
Lemma header_does `{!UuidCrate, !Profile} unparse b od rest F s items :
  Generator.generate (ta_config b) = Ret (Ok items) -> rest <> [] -> at_line rest F s ->
  does (BuilderOps.write_header_file unparse b od) s (fun r s' =>
    match r with
    | Ok _ => at_line rest (<[BuilderOps.header_path b od := unparse items]> F) s'
    | Err _ => failed s'
    end).
Proof.
  intros Hg Hr Hs. unfold BuilderOps.write_header_file.
  eapply does_file; [exact Hs|intros r z E; exact (create_ok _ _ _ _ E)|by intros; eapply failed_at|].
  clear Hs. intros s1 Hs. rewrite Hg.
  apply does_bind with (R := fun r s' => r = Ok items /\ s' = s1); [by eexists _, _|].
  intros r s2 [-> ->]. apply does_try_pure; [done|]. intros ? [= <-].
  eapply does_file with (t := unparse items); [exact Hs| |by intros; eapply failed_at|].
  { intros r z E. destruct (append_ok _ _ _ _ _ E) as (Ho & Hq & Ha). split_and!; [done|done|].
    intros Hok. apply (Ha ""); [done|]. apply Hs, lookup_insert_eq. }
  clear Hs. intros s2 Hs. apply does_ret. by rewrite insert_insert_eq in Hs.
Qed.

End Follow.

Lemma join_inj (d a b : path) : is_absolute a = false -> is_absolute b = false -> join d a = join d b -> a = b.
Proof.
  unfold join. intros -> ->. destruct (_ || _); intros E.
  - by apply (inj (String.append d)).
  - by apply (inj (String.append d)), (inj (String.append "/")) in E.
Qed.

Section Build.
Context {St : Type} `{BO : BuildHostOk St}.
Context `{!UuidCrate, !Profile} (unparse : list item -> string).

(** The directory of a build and the development kit, when they are known. *)
Definition build_dir (b : Builder) : option path :=
  match out_dir b with Some d => Some d | None => env_var "OUT_DIR" end.

(** What a TA's build script leaves behind.  For a configuration whose header can
    be generated and goes to a file other than [ta.lds] and [dyn_list], the script always
    ends.  When it succeeds, it has told cargo exactly
    the directives of the reference, every linker argument in the form of the linker
    that is used; the header file has the generated items, [ta.lds] the preprocessor's
    output for the target, also when the file was there before, and [dyn_list] the
    exported symbols.  When it fails, the lines that were printed are a proper prefix
    of the directives, so cargo is never given all of them. *)
Lemma build_script_correct b s items :
  Generator.generate (ta_config b) = Ret (Ok items) ->
  let od := default "" (build_dir b) in
  let kit := default "" (env_var "TA_DEV_KIT_DIR") in
  BuilderOps.header_path b od <> join od "ta.lds" ->
  BuilderOps.header_path b od <> join od "dyn_list" ->
  does (BuilderOps.build unparse b) s (fun r s' =>
    match r with
    | Ok _ =>
        build_dir b = Some od /\ env_var "TA_DEV_KIT_DIR" = Some kit /\
        out s' = (out s ++ directives b kit od)%list /\
        file (BuilderOps.header_path b od) s' = Some (unparse items) /\
        file (join od "dyn_list") s' = Some LinkerOps.dyn_list_text /\
        exists script, file (join od "ta.lds") s' = Some script /\
          preprocessed (LinkerOps.new (linker_of b)) kit script
    | Err _ => exists printed rest, directives b kit od = (printed ++ rest)%list /\ rest <> [] /\
        out s' = (out s ++ printed)%list
    end).
Proof.
  intros Hg od kit H1 H2. set (D := directives b kit od).
  assert (at_line s D D ∅ s) as Hs.
  { split; [exists []; by rewrite app_nil_r|]. intros p t Hp. by rewrite lookup_empty in Hp. }
  assert (D <> []) as HD by (unfold D, directives; by destruct (b_linker_type b)).
  assert (forall s', failed s D s' -> exists printed rest, D = (printed ++ rest)%list /\ rest <> [] /\
    out s' = (out s ++ printed)%list) as Hfail.
  { intros s' (rest & F & Hr & (printed & HD' & Ho) & _). by exists printed, rest. }
  unfold BuilderOps.build. apply does_try_pure; [intros; by eapply Hfail, failed_at|].
  intros od' Hod. assert (build_dir b = Some od' /\ od' = od) as [Hb ->].
  { unfold od, build_dir. unfold LinkerOps.var_or_error in Hod.
    destruct (out_dir b) as [d|]; [by injection Hod as ->|].
    destruct (env_var "OUT_DIR") as [d|]; [by injection Hod as ->|done]. }
  eapply does_try; [exact (header_does s D unparse b od D ∅ s items Hg HD Hs)
    |by intros e s' He; apply Hfail|]. cbn beta. clear Hs.
  intros [] s1 Hs. unfold BuilderOps.link. eapply does_try.
  - eapply does_bind with (R := fun l s' => l = LinkerOps.new (linker_of b) /\
      at_line s D (link_lines (linker_of b) kit od) _ s').
    { unfold D, directives, linker_of in *. destruct (b_linker_type b) as [t|].
      - apply does_ret. split; [done|exact Hs].
      - unfold LinkerOps.auto, LinkerOps.auto_detect_linker_type.
        eapply does_bind with (R := fun t s' => t = detected /\ at_line s _ _ _ s').
        + eapply does_say; [exact Hs|]. intros s2 Hs2. apply does_ret. exact (conj eq_refl Hs2).
        + cbn beta. intros t s2 [-> Hs2]. apply does_ret. by split. }
    cbn beta. intros l s2 [-> Hs2]. eapply link_all_does; [|exact Hs2].
    unfold kit. by destruct (env_var "TA_DEV_KIT_DIR"); [left|right].
  - cbn beta. intros e s2 Hs2. by apply Hfail.
  - cbn beta. intros [] s2 (script & [(printed & HDp & Ho) Hf] & Hkit & Hp). apply does_ret.
    rewrite app_nil_r in HDp. subst printed.
    assert (join od "ta.lds" <> join od "dyn_list") as H3 by (by intros ?%join_inj).
    split_and!; try done.
    + apply Hf. do 2 rewrite lookup_insert_ne by done. by rewrite lookup_insert_eq.
    + apply Hf. by rewrite lookup_insert_eq.
    + exists script. split; [|done]. apply Hf. by rewrite lookup_insert_ne, lookup_insert_eq.
Qed.

End Build.

(** [output] gives the child's output whatever its exit status: a preprocessor that
    fails without writing anything leaves an empty linker script, and the build goes
    on. *)
Lemma failed_preprocessor_empty_script {St} `{BO : BuildHostOk St} (self : Linker) kit arch s s1 code :
  env_var "CARGO_CFG_TARGET_ARCH" = Some arch ->
  os_output (LinkerOps.cc_command self (default "cc" (env_var "CC")) (join kit "src/ta.ld.S") arch)
    (println "cargo:rerun-if-env-changed=CARGO_CFG_TARGET_ARCH"
       (println "cargo:rerun-if-env-changed=CC"
          (println ("cargo:rerun-if-changed=" +:+ join kit "src/ta.ld.S") s)))
  = (Ok (Some code, []), s1) ->
  LinkerOps.generate_new_link_script self kit s = Ret (Ok "", s1).
Proof.
  intros Ha E. unfold LinkerOps.generate_new_link_script, LinkerOps.var_or_error.
  unfold LinkerOps.say. do 3 (erewrite pbind_Ret by reflexivity). rewrite Ha.
  erewrite ptry_Ok by reflexivity. erewrite pbind_Ret; [|unfold on_host; by rewrite E].
  by erewrite ptry_Ok by reflexivity.
Qed.

(** ** Witness: a host that keeps its files in a map *)
Module BuildExamples.
Import PlainUuids.
#[local] Instance build_profile : Profile := true.

Record disk : Type := mkDisk { lines : list string; files : gmap path string }.

Definition store (p : path) (t : string) (s : disk) : disk := mkDisk (lines s) (<[p := t]> (files s)).

Definition variable (k : string) : option string :=
  if k =? "OUT_DIR" then Some "/out"
  else if k =? "TA_DEV_KIT_DIR" then Some "/kit"
  else if k =? "CARGO_CFG_TARGET_ARCH" then Some "arm"
  else if k =? "TARGET" then Some "arm-unknown-optee"
  else None.

#[local] Instance disk_host : BuildHost disk := {|
  build_host := {|
    var_os := variable;
    is_unicode _ := true;
    os_current_dir _ := Ok "/";
    canonicalize p _ := Ok p;
    path_exists _ _ := true;
    is_dir _ _ := true;
    is_file _ _ := true;
    fs_read p s := match files s !! p with Some t => Ok (str_bytes t) | None => Err 2%Z end;
    fs_write p t s := (Ok tt, store p t s);
    fs_copy _ _ s := (Err 1%Z, s);
    fs_rename _ _ s := (Err 1%Z, s);
    fs_set_mode _ _ s := (Err 1%Z, s);
    fs_remove_dir_all _ s := (Err 1%Z, s);
    os_tempfile_in _ _ _ s := (Err 1%Z, s);
    os_tempdir s := (Err 1%Z, s);
    os_keep _ s := (Err 1%Z, s);
    os_drop_temp _ s := s;
    os_status _ s := (Err 1%Z, s);
    os_cargo_json _ s := (Err 1%Z, s);
    cargo_metadata _ _ := Err 1%Z
  |};
  println l s := mkDisk (lines s ++ [l])%list (files s);
  fs_create p s := (Ok tt, store p "" s);
  fs_append p t s := (Ok tt, store p (default "" (files s !! p) +:+ t) s);
  os_output _ s := (Ok (Some 0%Z, str_bytes "SECTIONS {}"), s)
|}.

#[local] Instance disk_ok : BuildHostOk disk.
Proof.
  refine {| out := lines; file p s := files s !! p |}.
  - done.
  - intros p s v. cbn. destruct (files s !! p) as [t|]; [intros [= <-]; by exists t|done].
  - intros p t s r s' [= <- <-]. split_and!; [done| |intros _; apply lookup_insert_eq].
    intros q Hq. by apply lookup_insert_ne.
  - intros p s r s' [= <- <-]. split_and!; [done| |intros _; apply lookup_insert_eq].
    intros q Hq. by apply lookup_insert_ne.
  - intros p t s r s' [= <- <-]. split_and!; [done| |].
    + intros q Hq. by apply lookup_insert_ne.
    + intros t0 _ Ht0. cbn in *. rewrite Ht0. apply lookup_insert_eq.
  - by intros c s r s' [= <- <-].
Defined.

Definition conf : TaConfig :=
  mkTaConfig (repeat 1%Z 16) 0 32768 2048 (str_bytes "0.1.0") (str_bytes "test") 4 (str_bytes "TA") 2048 [].

Lemma build_script_correct_witness :
  exists r s', BuilderOps.build (fun _ => "items") (BuilderOps.new conf) (mkDisk [] ∅) = Ret (r, s') /\
    r = Ok tt /\ out s' = directives (BuilderOps.new conf) "/kit" "/out" /\
    file "/out/user_ta_header.rs" s' = Some "items" /\ file "/out/ta.lds" s' = Some "SECTIONS {}".
Proof.
  destruct (build_script_correct (fun _ => "items") (BuilderOps.new conf) (mkDisk [] ∅)
    match Generator.generate conf with Ret (Ok l) => l | _ => [] end eq_refl)
    as (r & s' & E & HQ); [done|done|].
  exists r, s'. split; [exact E|]. vm_compute in E. injection E as <- <-.
  destruct HQ as (_ & _ & Ho & Hh & _ & script & Hs & _).
  split; [done|]. split; [exact Ho|]. split; [exact Hh|reflexivity].
Defined.

End BuildExamples.
