(* ===== verification/PluginBuild.v ===== *)
(** * The build script of a plugin: [optee-teec-build/src/plugin.rs]

    The configuration of a plugin, the static [PluginMethod] that the generated file
    declares, and writing the file.  The host is that of [TaLinker] with
    [create_dir_all]; printing the items (quote) and the identifiers that
    [format_ident!] takes (proc_macro2) are parameters. *)

From S2P Require Import Prelude UteeError Uuids TaHeader TaHeaderSpec Host TaLinker TaLinkerSpec.
Local Open Scope string_scope.

Definition DEFAULT_INIT_FN_NAME : string := "__plugin_bindgen_init".
Definition DEFAULT_INVOKE_FN_NAME : string := "__plugin_bindgen_invoke".

(** [uuid]: the sixteen bytes of a UUID of the crate. *)
Record PluginConfig : Type := mkPluginConfig {
  name : string;
  uuid : bytes;
  init_fn_name : string;
  invoke_fn_name : string;
  dest : option path
}.

(** The items that are generated: [PLUGIN_NAME], the structure, and the functions
    it names. *)
Record binding : Type := mkBinding {
  PLUGIN_NAME : bytes;
  plugin_uuid : TEE_UUID;
  plugin_init : string;
  plugin_invoke : string
}.

Class PluginHost (St : Type) : Type := {
  plugin_host :: BuildHost St;
  fs_create_dir_all : path -> St -> io unit * St
}.

Module PluginConfigOps.

(** [env!("CARGO_PKG_NAME")] is the name of the crate that is compiled. *)
Definition new (uuid : bytes) : PluginConfig :=
  mkPluginConfig "optee-teec-build" uuid DEFAULT_INIT_FN_NAME DEFAULT_INVOKE_FN_NAME None.
Definition with_name (self : PluginConfig) (n : string) : PluginConfig :=
  mkPluginConfig n (uuid self) (init_fn_name self) (invoke_fn_name self) (dest self).
Definition with_init_fn_name (self : PluginConfig) (n : string) : PluginConfig :=
  mkPluginConfig (name self) (uuid self) n (invoke_fn_name self) (dest self).
Definition with_invoke_fn_name (self : PluginConfig) (n : string) : PluginConfig :=
  mkPluginConfig (name self) (uuid self) (init_fn_name self) n (dest self).
Definition with_dest (self : PluginConfig) (p : path) : PluginConfig :=
  mkPluginConfig (name self) (uuid self) (init_fn_name self) (invoke_fn_name self) (Some p).

Section Ops.
Context `{!UuidCrate}.
Context {St : Type} `{!PluginHost St}.
Context (is_ident : string -> bool) (print : binding -> string).

(** [format_ident!] panics when the name is not an identifier. *)
Definition format_ident (n : string) : outcome string := if is_ident n then Ret n else Panic.

Definition generate_binding (name : string) (uuid : bytes) (init_fn_name invoke_fn_name : string)
    : outcome binding :=
  let '(uuid_f1, uuid_f2, uuid_f3, uuid_f4) := crate_as_fields uuid in
  let name_bytes_with_null := (str_bytes name ++ [0%Z])%list in
  let! init := format_ident init_fn_name in
  let! invoke := format_ident invoke_fn_name in
  Ret (mkBinding name_bytes_with_null (mkTeeUuid uuid_f1 uuid_f2 uuid_f3 uuid_f4) init invoke).

(** Without a destination, a missing [OUT_DIR] is a panic. *)
Definition get_out_path (self : PluginConfig) : outcome path :=
  match dest self with
  | Some p => Ret p
  | None => match env_var "OUT_DIR" with
            | Some d => Ret (join d "plugin_static.rs")
            | None => Panic
            end
  end.

Definition build (self : PluginConfig) : prog St (io unit) :=
  let* b := plift (generate_binding (name self) (uuid self) (init_fn_name self)
                     (invoke_fn_name self)) in
  let codes := print b in
  let* out_path := plift (get_out_path self) in
  let* old := look (fs_read out_path) in
  if (match old with Ok v => bool_decide (v = str_bytes codes) | Err _ => false end)
  then pret (Ok tt)
  else
    let? _ := match parent out_path with
              | Some parent_dir => on_host (fs_create_dir_all parent_dir)
              | None => pret (Ok tt)
              end in
    on_host (fs_write out_path codes).

End Ops.
End PluginConfigOps.

(** ** What the build leaves *)

Class PluginHostOk (St : Type) `{!PluginHost St} : Type := {
  plugin_host_ok :: BuildHostOk St;
  file_read p s t : file p s = Some t -> fs_read p s = Ok (str_bytes t);
  create_dir_ok d s r s' : fs_create_dir_all d s = (r, s') ->
    out s' = out s /\ forall p, file p s' = file p s
}.

Section Spec.
Context `{!UuidCrate}.
Context {St : Type} `{!PluginHost St, !PluginHostOk St}.
Context (is_ident : string -> bool) (print : binding -> string).
Import PluginConfigOps.

(** The items of a configuration whose function names are identifiers. *)
Definition items (self : PluginConfig) : binding :=
  let '(l, m, h, c) := crate_as_fields (uuid self) in
  mkBinding (str_bytes (name self) ++ [0%Z])%list (mkTeeUuid l m h c)
    (init_fn_name self) (invoke_fn_name self).

Definition idents_ok (self : PluginConfig) : bool :=
  is_ident (init_fn_name self) && is_ident (invoke_fn_name self).

Lemma generate_binding_items self :
  generate_binding is_ident (name self) (uuid self) (init_fn_name self) (invoke_fn_name self)
    = if idents_ok self then Ret (items self) else Panic.
Proof.
  unfold generate_binding, items, idents_ok, format_ident.
  destruct (crate_as_fields (uuid self)) as [[[l m] h] c].
  by destruct (is_ident (init_fn_name self)), (is_ident (invoke_fn_name self)).
Qed.

(** The file at [p] is [t], or the build failed; nothing else changed. *)
Definition written (p : path) (t : string) (s : St) (r : io unit) (s' : St) : Prop :=
  out s' = out s /\ (forall q, q <> p -> file q s' = file q s) /\
  (r = Ok tt -> file p s' = Some t).

Lemma write_does p t s : does (on_host (fs_write p t)) s (written p t s).
Proof. apply does_host. intros r s' E. apply (write_file_ok _ _ _ _ _ E). Qed.

(** With the directories above it. *)
Lemma write_new_does p t s :
  does (let? _ := match parent p with
                  | Some d => on_host (fs_create_dir_all d)
                  | None => pret (Ok tt)
                  end in on_host (fs_write p t)) s (written p t s).
Proof.
  destruct (parent p) as [d|]; [|apply does_try_pure; [done|intros; apply write_does]].
  eapply does_try; [apply does_host; intros r s' E; exact (create_dir_ok _ _ _ _ E)|..]; cbn beta.
  - by intros er s' [Ho Hf].
  - intros [] s' [Ho Hf]. eapply does_mono; [apply write_does|].
    intros r s2 (Ho2 & Hf2 & Hw). split; [congruence|]. split; [|done].
    intros q Hq. by rewrite Hf2, Hf.
Qed.

Lemma build_up_to_date self p s :
  idents_ok self = true -> get_out_path self = Ret p ->
  file p s = Some (print (items self)) -> build is_ident print self s = Ret (Ok tt, s).
Proof.
  intros Hi Hp Hf. unfold build. rewrite generate_binding_items, Hi.
  erewrite pbind_Ret by done. rewrite Hp. do 2 (erewrite pbind_Ret by done).
  rewrite (file_read _ _ _ Hf). by rewrite bool_decide_true.
Qed.

Lemma build_does self p s :
  idents_ok self = true -> get_out_path self = Ret p ->
  does (build is_ident print self) s (written p (print (items self)) s).
Proof.
  intros Hi Hp. unfold build. rewrite generate_binding_items, Hi, Hp.
  eapply does_bind; [by apply (does_ret _ _ (fun b s' => b = items self /\ s' = s))|].
  intros b s1 [-> ->]. eapply does_bind; [by apply (does_ret _ _ (fun q s' => q = p /\ s' = s))|].
  intros q s1 [-> ->]. eapply does_bind; [apply does_see|]. cbn beta. intros old s1 [-> ->].
  destruct (fs_read p s) as [v|e] eqn:Er; [case_bool_decide as Ev|].
  - apply does_ret. split; [done|]. split; [done|]. intros _.
    destruct (read_file_ok _ _ _ Er) as (t & Ht & ->). by apply str_bytes_inj in Ev as ->.
  - apply write_new_does.
  - apply write_new_does.
Qed.

(** The build script of a plugin: it panics exactly when a function name is not an
    identifier or there is no place for the file; otherwise it returns, changes no
    other file and prints nothing, and when it succeeds the file declares the
    configured functions, the UUID that the TA and the client get from the same
    string, and a name that C reads as the configured one up to its first NUL; and a
    second run leaves everything as it is. *)
Lemma plugin_build_correct us u self s :
  crate_parse_str us = Some u -> uuid self = u ->
  match idents_ok self, get_out_path self with
  | true, Ret p =>
      exists r s', build is_ident print self s = Ret (r, s') /\
        out s' = out s /\ (forall q, q <> p -> file q s' = file q s) /\
        (r = Ok tt ->
           file p s' = Some (print (items self)) /\
           build is_ident print self s' = Ret (Ok tt, s') /\
           until_nul (PLUGIN_NAME (items self)) = until_nul (str_bytes (name self)) /\
           (plugin_init (items self), plugin_invoke (items self))
             = (init_fn_name self, invoke_fn_name self) /\
           Utee.parse_str us = Ok (Utee.from_raw (plugin_uuid (items self))) /\
           Teec.parse_str us = Ok (Teec.mkUuid (plugin_uuid (items self))))
  | _, _ => build is_ident print self s = Panic
  end.
Proof.
  intros Hu Hself. destruct (idents_ok self) eqn:Hi, (get_out_path self) as [p| |] eqn:Hp.
  2-6: unfold build; rewrite generate_binding_items, Hi, ?Hp; try done.
  - destruct (build_does self p s Hi Hp) as (r & s' & E & Ho & Hf & Hw).
    exists r, s'. split; [exact E|]. split; [done|]. split; [done|]. intros Hr.
    specialize (Hw Hr). split; [done|]. split; [by apply (build_up_to_date self p)|].
    unfold items, Utee.parse_str, Teec.parse_str. rewrite Hu, Hself.
    destruct (crate_as_fields u) as [[[l m] h] c]. cbn [PLUGIN_NAME]. by rewrite until_nul_app.
  - exfalso. unfold get_out_path in Hp. by destruct (dest self), (env_var "OUT_DIR").
Qed.

End Spec.

(** ** The plugin of the examples *)

Module PluginBuildExamples.
Import PlainUuids BuildExamples.
#[local] Existing Instances disk_host disk_ok.

#[local] Instance plugin_disk : PluginHost disk :=
  {| fs_create_dir_all _ s := (Ok tt, s) |}.
#[local] Instance plugin_disk_ok : PluginHostOk disk.
Proof.
  refine {| plugin_host_ok := disk_ok |}.
  - intros p s t Hf. cbn in *. by rewrite Hf.
  - by intros d s r s' [= _ <-].
Defined.

Definition PLUGIN_UUID : string := "ef620757-fa2b-4f19-a1c4-6e51cfe4c0f9".

Definition syslog : PluginConfig :=
  PluginConfigOps.with_name
    (PluginConfigOps.new (default [] (crate_parse_str PLUGIN_UUID))) "syslog".

(** Printing keeps the name of the function that is called. *)
Definition show (b : binding) : string := "invoke: " +:+ plugin_invoke b.

Lemma plugin_build_correct_witness :
  exists s', PluginConfigOps.build (fun _ => true) show syslog (mkDisk [] ∅) = Ret (Ok tt, s') /\
    file "/out/plugin_static.rs" s' = Some "invoke: __plugin_bindgen_invoke" /\
    PluginConfigOps.build (fun _ => true) show syslog s' = Ret (Ok tt, s').
Proof.
  pose proof (plugin_build_correct (fun _ => true) show PLUGIN_UUID
    (default [] (crate_parse_str PLUGIN_UUID)) syslog (mkDisk [] ∅) eq_refl eq_refl) as H.
  destruct H as (r & s' & E & _ & _ & HQ). exists s'. vm_compute in E. injection E as <- <-.
  destruct (HQ eq_refl) as (Hf & Hb & _). split; [reflexivity|]. split; [exact Hf|exact Hb].
Defined.

End PluginBuildExamples.
