(* ===== verification/TaApp.v ===== *)
(** * TaApp: a TA on the library

    What the TAs of the repository share: handlers that work on the TEE and on the
    parameters of the invocation, the buffers a client passes, and a client that
    makes one call after the other. *)

From S2P Require Import Prelude TeeDefines UteeError Memory Params EntryPoints ParamsSpec.

(** ** The TA's state: the TEE, and the parameters of the invocation *)

Definition on_tee {St A} (m : prog St A) : prog (St * world) A :=
  fun s => match m s.1 with
           | Ret (a, t) => Ret (a, (t, s.2))
           | Panic => Panic
           | UB => UB
           end.

Definition on_params {St A} (m : prog world A) : prog (St * world) A :=
  fun s => match m s.2 with
           | Ret (a, w) => Ret (a, (s.1, w))
           | Panic => Panic
           | UB => UB
           end.

Section App.
Context `{!Target, !TargetOk, !TeeMemMove, !TeeMemMoveOk} {St : Type}.

Lemma on_tee_Ret {A} (p : prog St A) s (w : world) a s' :
  p s = Ret (a, s') -> on_tee p (s, w) = Ret (a, (s', w)).
Proof. unfold on_tee. cbn. by intros ->. Qed.

Lemma on_params_Ret {A} (p : prog world A) (s : St) w a w' :
  p w = Ret (a, w') -> on_params p (s, w) = Ret (a, (s, w')).
Proof. unfold on_params. cbn. by intros ->. Qed.

Lemma ptr_bits_31 : 2 ^ 31 <= 2 ^ (ptr_bits - 1).
Proof. destruct ptr_bits_cases as [-> | ->]; done. Qed.

(** ** Buffers *)

(** Slot [i] is a buffer that holds [l]. *)
Definition in_buffer (w : world) (i : nat) (l : bytes) : Prop :=
  exists b, raws w !! i = Some (mkParam b (len l)) /\ b <> 0 /\ valid_buffer w b (len l) /\
    len l < 2 ^ 31 /\ holds_at (wmem w) b l.

(** Slot [i] is a buffer of [c] bytes to fill. *)
Definition out_buffer (w : world) (i : nat) (c : Z) : Prop :=
  exists b, raws w !! i = Some (mkParam b c) /\ b <> 0 /\ valid_buffer w b c.

Lemma typed_input i w l :
  in_buffer w i l ->
  from_raw (T:=ParameterMemrefInput) TEE_PARAM_TYPE_MEMREF_INPUT i w = Ret (Ok (mkMemrefInput i), w).
Proof.
  intros (b & Hi & Hb & _). apply Z.eqb_neq in Hb. cbn. unfold ptry, pbind, pret, get_raw. cbn.
  rewrite Hi. cbn. by rewrite Hb.
Qed.

Lemma typed_output i w c :
  out_buffer w i c ->
  from_raw (T:=ParameterMemrefOutput) TEE_PARAM_TYPE_MEMREF_OUTPUT i w
    = Ret (Ok (mkMemrefOutput c i), w).
Proof.
  intros (b & Hi & Hb & _). apply Z.eqb_neq in Hb. cbn. unfold ptry, pbind, pret, get_raw. cbn.
  rewrite Hi. cbn. by rewrite Hb.
Qed.

Lemma any_input i w l :
  in_buffer w i l ->
  from_raw (T:=ParameterAny) TEE_PARAM_TYPE_MEMREF_INPUT i w
    = Ret (Ok (ParameterAny.MemrefInput (mkMemrefInput i)), w).
Proof.
  intros Hi. transitivity
    ((let? p := from_raw TEE_PARAM_TYPE_MEMREF_INPUT i in pret (Ok (ParameterAny.MemrefInput p))) w);
    [done|]. erewrite ptry_Ok; [done|by eapply typed_input].
Qed.

Lemma any_output i w c :
  out_buffer w i c ->
  from_raw (T:=ParameterAny) TEE_PARAM_TYPE_MEMREF_OUTPUT i w
    = Ret (Ok (ParameterAny.MemrefOutput (mkMemrefOutput c i)), w).
Proof.
  intros Hi. transitivity
    ((let? p := from_raw TEE_PARAM_TYPE_MEMREF_OUTPUT i in pret (Ok (ParameterAny.MemrefOutput p))) w);
    [done|]. erewrite ptry_Ok; [done|by apply typed_output].
Qed.

(** The four conversions. *)
Lemma any_tuple4 t0 t1 t2 t3 w p0 p1 p2 p3 :
  t0 = TEE_PARAM_TYPE_GET (TEE_PARAM_TYPES t0 t1 t2 t3) 0 ->
  t1 = TEE_PARAM_TYPE_GET (TEE_PARAM_TYPES t0 t1 t2 t3) 1 ->
  t2 = TEE_PARAM_TYPE_GET (TEE_PARAM_TYPES t0 t1 t2 t3) 2 ->
  t3 = TEE_PARAM_TYPE_GET (TEE_PARAM_TYPES t0 t1 t2 t3) 3 ->
  from_raw (T:=ParameterAny) t0 0 w = Ret (Ok p0, w) ->
  from_raw (T:=ParameterAny) t1 1 w = Ret (Ok p1, w) ->
  from_raw (T:=ParameterAny) t2 2 w = Ret (Ok p2, w) ->
  from_raw (T:=ParameterAny) t3 3 w = Ret (Ok p3, w) ->
  from_raw_tuple (A:=ParameterAny) (B:=ParameterAny) (C:=ParameterAny) (D:=ParameterAny)
      (TEE_PARAM_TYPES t0 t1 t2 t3) w = Ret (Ok (p0, p1, p2, p3), w).
Proof.
  intros H0' H1' H2' H3' E0 E1 E2 E3. unfold from_raw_tuple.
  rewrite <- H0', <- H1', <- H2', <- H3'.
  do 3 (erewrite ptry_Ok by done). by erewrite ptry_Ok by done.
Qed.

(** Given the first two, when the others carry nothing. *)
Lemma any_tuple t0 t1 w p0 p1 :
  t0 = TEE_PARAM_TYPE_GET (TEE_PARAM_TYPES t0 t1 0 0) 0 ->
  t1 = TEE_PARAM_TYPE_GET (TEE_PARAM_TYPES t0 t1 0 0) 1 ->
  TEE_PARAM_TYPE_GET (TEE_PARAM_TYPES t0 t1 0 0) 2 = 0 ->
  TEE_PARAM_TYPE_GET (TEE_PARAM_TYPES t0 t1 0 0) 3 = 0 ->
  from_raw (T:=ParameterAny) t0 0 w = Ret (Ok p0, w) ->
  from_raw (T:=ParameterAny) t1 1 w = Ret (Ok p1, w) ->
  from_raw_tuple (A:=ParameterAny) (B:=ParameterAny) (C:=ParameterAny) (D:=ParameterAny)
      (TEE_PARAM_TYPES t0 t1 0 0) w
    = Ret (Ok (p0, p1, ParameterAny.None_, ParameterAny.None_), w).
Proof. intros. by apply any_tuple4. Qed.

(** An input buffer is read as the host wrote it. *)
Lemma read_input_spec i (s : St) w l :
  in_buffer w i l ->
  on_params (read_to_vec (mkMemrefInput i)) (s, w) = Ret (l, (s, w)).
Proof.
  intros (b & Hi & Hb & Hv & Hl & Hh). pose proof ptr_bits_31.
  destruct (read_to_vec_spec (mkMemrefInput i) w b (len l)) as (l' & E & Hlen & Hh'); [done|done|lia|].
  rewrite (holds_at_inj (wmem w) b l' l) in E by done. by apply on_params_Ret.
Qed.

(** [w'] is [w] with [d] in the output buffer of slot [i], and its size. *)
Definition outputs (i : nat) (d : bytes) (w w' : world) : Prop :=
  reported_size w' i = Some (len d) /\
  exists raw, raws w !! i = Some raw /\ holds_at (wmem w') (memref_buffer raw) d /\
    same_outside (wmem w) (wmem w') (memref_buffer raw) (len d) /\
    forall j, j <> i -> raws w' !! j = raws w !! j.

Lemma output_spec (s : St) w i c b n d :
  raws w !! i = Some (mkParam b n) -> valid_buffer w b c -> len d <= c ->
  exists w', on_params (set_output (mkMemrefOutput c i) d) (s, w) = Ret (Ok tt, (s, w')) /\
    outputs i d w w'.
Proof.
  intros Hi Hv Hle.
  destruct (write_at_fits (mkMemrefOutput c i) w b c 0 d) as (raw & mm & Hraw & E & _ & Hh & Hs & _);
    [by split; [done|exists n]|done|done|done|].
  eexists. split; [apply on_params_Ret; exact E|].
  cbn in Hraw. rewrite Hi in Hraw. injection Hraw as <-. rewrite Z.add_0_l, Z.add_0_r in *.
  split; [|exists (mkParam b n); split_and!; [done..|];
    intros j Hj; cbn; by rewrite list_lookup_insert_ne].
  unfold reported_size. cbn. by rewrite list_lookup_insert_eq by (by eapply lookup_lt_Some).
Qed.

(** A value to return. *)
Lemma set_a_spec i (s : St) w p v :
  raws w !! i = Some p ->
  on_params (set_a (mkValueOutput i) v) (s, w)
    = Ret (tt, (s, mkWorld (wmem w) (<[i := set_value_a p v]> (raws w)))).
Proof.
  intros Hp. apply on_params_Ret. unfold set_a, ParameterValueOutput_write. cbn [vo_raw].
  erewrite pbind_Ret by (by apply get_raw_Some). by erewrite put_raw_Some.
Qed.

(** ** One call after the other *)

(** A session: every call comes with parameters of its own. *)
Fixpoint serve (entry : Z -> Z -> prog ta_state Z) (calls : list (Z * Z * world)) (s : St)
    : outcome (list (Z * world) * St) :=
  match calls with
  | [] => Ret ([], s)
  | (cmd, types, w) :: calls' =>
      let! r := entry cmd types (mkTa (Ctx:=unit) s w ∅) in
      let! rs := serve entry calls' (eg r.2) in
      Ret ((r.1, ew r.2) :: rs.1, rs.2)
  end.

End App.
