(* ===== verification/StorageTa.v ===== *)
(** * StorageTa: the secure-storage example, a TA on [Params] and [Storage]

    Models [examples/ta/secure_storage-rs/src/main.rs] and its commands
    ([examples/ta/proto/src/secure_storage.rs]): the functions the entry points of
    [EntryPoints] call, over a trusted storage and the raw parameters. *)

From S2P Require Import Prelude TeeDefines UteeError Memory Params EntryPoints Storage TaApp.
Import PersistentObjectOps.

(** ** [proto::secure_storage::Command] *)

Module Command.

Inductive Command : Type := Read | Write | Delete | Unknown.

(** [FromPrimitive], with [Unknown] as the default. *)
Definition from (x : Z) : Command :=
  if x =? 0 then Read else if x =? 1 then Write else if x =? 2 then Delete else Unknown.

Definition into (c : Command) : Z :=
  match c with Read => 0 | Write => 1 | Delete => 2 | Unknown => 3 end.

End Command.

Section Ta.
Context `{!Target, !TeeMemMove} {St : Type} `{!TrustedStorage St}.

Definition Parameters4 : Type := ParameterAny * ParameterAny * ParameterAny * ParameterAny.

(** A block that owns [object]: it is dropped when the block is left. *)
Definition owning {A} (object : PersistentObject) (body : prog (St * world) (Result A))
    : prog (St * world) (Result A) :=
  let* r := body in
  let* _ := on_tee (drop_object object) in
  pret r.

Definition read_id (p : ParameterAny) : prog (St * world) (Result bytes) :=
  let? p := pret (ParameterAny.as_memref_input p) in
  let* v := on_params (read_to_vec p) in
  pret (Ok v).

Definition delete_object (params : Parameters4) : prog (St * world) (Result unit) :=
  let '(p0, _, _, _) := params in
  let? obj_id := read_id p0 in
  let* r := on_tee (open ObjectStorageConstants.Private obj_id
                      (Z.lor DataFlag.ACCESS_READ DataFlag.ACCESS_WRITE_META)) in
  match r with
  | Err e => pret (Err e)
  | Ok object => let? _ := on_tee (close_and_delete object) in pret (Ok tt)
  end.

(** When the write fails, [close_and_delete] takes the object. *)
Definition create_raw_object (params : Parameters4) : prog (St * world) (Result unit) :=
  let '(p0, p1, _, _) := params in
  let? obj_id := read_id p0 in
  let? data_buffer := read_id p1 in
  let obj_data_flag :=
    Z.lor (Z.lor (Z.lor DataFlag.ACCESS_READ DataFlag.ACCESS_WRITE) DataFlag.ACCESS_WRITE_META)
      DataFlag.OVERWRITE in
  let? object := on_tee (create ObjectStorageConstants.Private obj_id obj_data_flag None []) in
  let* r := on_tee (write object data_buffer) in
  match r with
  | Ok _ => let* _ := on_tee (drop_object object) in pret (Ok tt)
  | Err e_write => let? _ := on_tee (close_and_delete object) in pret (Err e_write)
  end.

Definition read_raw_object (params : Parameters4) : prog (St * world) (Result unit) :=
  let '(p0, p1, _, _) := params in
  let? obj_id := read_id p0 in
  let? p1 := pret (ParameterAny.as_memref_output p1) in
  let? object := on_tee (open ObjectStorageConstants.Private obj_id
                           (Z.lor DataFlag.ACCESS_READ DataFlag.SHARE_READ)) in
  owning object
    (let? obj_info := on_tee (info object) in
     let data_size := data_size obj_info in
     let* n := on_params (buffer_len p1) in
     if n <? data_size then pret (bail ErrorKind.ShortBuffer)
     else
       let? data := on_tee (read_remaining_to_vec object) in
       if negb (len data =? data_size) then pret (bail ErrorKind.ExcessData)
       else
         let? _ := on_params (set_output p1 data) in
         pret (Ok tt)).

Definition invoke_command (cmd_id : Z) (params : Parameters4) : prog (St * world) (Result unit) :=
  match Command.from cmd_id with
  | Command.Write => create_raw_object params
  | Command.Read => read_raw_object params
  | Command.Delete => delete_object params
  | Command.Unknown => pret (bail ErrorKind.NotSupported)
  end.

(** [#[ta_create]] and the functions of sessions. *)
Definition create : prog (St * world) (Result unit) := pret (Ok tt).
Definition open_session (_params : ParameterNone * ParameterNone * ParameterNone * ParameterNone)
    : prog (St * world) (Result unit) := pret (Ok tt).
Definition close_session : prog (St * world) unit := pret tt.
Definition destroy : prog (St * world) unit := pret tt.

(** The TA: its functions in the generated entry point. *)
Definition entry (cmd_id param_types : Z) : prog ta_state Z :=
  TA_InvokeCommandEntryPoint0 (Ctx := unit) from_raw_tuple invoke_command cmd_id param_types.

End Ta.
