(* ===== verification/StorageTaSpec.v ===== *)
(** * StorageTaSpec: the secure-storage example keeps a map of objects *)

From S2P Require Import Prelude TeeDefines UteeError Memory Params EntryPoints Storage.
From S2P Require Import ParamsSpec StorageSpec TaApp StorageTa.
Import PersistentObjectOps.

(** ** What the TA promises: a map from identifiers to data *)

Inductive request : Type :=
| ReqWrite (oid data : bytes)
| ReqRead (oid : bytes) (capacity : Z)
| ReqDelete (oid : bytes)
| ReqOther (cmd : Z).

Inductive reply : Type := Done | Data (d : bytes) | Refused (k : ErrorKind).

Definition answer (r : request) (m : gmap bytes bytes) : reply * gmap bytes bytes :=
  match r with
  | ReqWrite oid data => (Done, <[oid := data]> m)
  | ReqRead oid capacity =>
      match m !! oid with
      | None => (Refused ErrorKind.ItemNotFound, m)
      | Some d => (if capacity <? len d then Refused ErrorKind.ShortBuffer else Data d, m)
      end
  | ReqDelete oid =>
      match m !! oid with
      | None => (Refused ErrorKind.ItemNotFound, m)
      | Some _ => (Done, delete oid m)
      end
  | ReqOther _ => (Refused ErrorKind.NotSupported, m)
  end.

(** The object a request names. *)
Definition named (r : request) : option bytes :=
  match r with
  | ReqWrite oid _ | ReqRead oid _ | ReqDelete oid => Some oid
  | ReqOther _ => None
  end.

(** The TA hands the client's identifier to the storage as it is, which panics the TA
    when it is too long. *)
Definition panics (r : request) : bool :=
  match named r with Some oid => TEE_OBJECT_ID_MAX_LEN <? len oid | None => false end.

(** ** How requests and replies travel in the parameters *)

Section Refinement.
Context `{!Target, !TargetOk, !TeeMemMove, !TeeMemMoveOk}.
Context {St : Type} `{!TrustedStorage St, !TrustedStorageOk St}.
Context `{!TrustedStorageReliable St, !TrustedStorageWrite St}.

Definition carries (r : request) (cmd types : Z) (w : world) : Prop :=
  length (raws w) = 4%nat /\
  match r with
  | ReqWrite oid data =>
      cmd = Command.into Command.Write /\
      types = TEE_PARAM_TYPES TEE_PARAM_TYPE_MEMREF_INPUT TEE_PARAM_TYPE_MEMREF_INPUT 0 0 /\
      in_buffer w 0 oid /\ in_buffer w 1 data
  | ReqRead oid capacity =>
      cmd = Command.into Command.Read /\
      types = TEE_PARAM_TYPES TEE_PARAM_TYPE_MEMREF_INPUT TEE_PARAM_TYPE_MEMREF_OUTPUT 0 0 /\
      in_buffer w 0 oid /\ out_buffer w 1 capacity
  | ReqDelete oid =>
      cmd = Command.into Command.Delete /\
      types = TEE_PARAM_TYPES TEE_PARAM_TYPE_MEMREF_INPUT 0 0 0 /\ in_buffer w 0 oid
  | ReqOther c => cmd = c /\ types = TEE_PARAM_TYPES 0 0 0 0 /\ 3 <= c
  end.

Definition gives (rp : reply) (w w' : world) (code : Z) : Prop :=
  match rp with
  | Done => code = TEE_SUCCESS /\ w' = w
  | Refused k => code = Error.raw_code (Error.from_kind k) /\ w' = w
  | Data d => code = TEE_SUCCESS /\ outputs 1 d w w'
  end.

(** Storage [s] holds [m], and no handle is open. *)
Record represents (m : gmap bytes bytes) (s : St) : Prop := {
  rep_objs oid : objs s !! (1, oid) = m !! oid;
  rep_hnds : hnds s = ∅;
  rep_small oid d : m !! oid = Some d -> len d < 2 ^ 31;
}.

(** ** Running the pieces *)

(** The identifier and the data are read as the host wrote them. *)
Lemma read_id_spec i (s : St) w l :
  in_buffer w i l ->
  read_id (ParameterAny.MemrefInput (mkMemrefInput i)) (s, w) = Ret (Ok l, (s, w)).
Proof.
  intros Hin. unfold read_id. erewrite ptry_Ok by done.
  by erewrite pbind_Ret by (by apply read_input_spec).
Qed.

Lemma not_open_none (m : gmap bytes bytes) s sid oid : represents m s -> not_open s sid oid.
Proof. intros [_ Hh _] h pos. rewrite Hh. by rewrite lookup_empty. Qed.

Lemma hnds_closed (f : Z * bytes * (Z * Z)) h (hs : gmap Z (Z * bytes * (Z * Z))) :
  hs = ∅ -> delete h (<[h := f]> hs) = ∅.
Proof. intros ->. by rewrite delete_insert_eq. Qed.

Lemma write_data_empty l : write_data [] 0 l = l.
Proof.
  unfold write_data. rewrite drop_nil, app_nil_r. done.
Qed.

(** [open] on the objects of the TA. *)
Lemma open_private m (s : St) oid fl :
  represents m s -> len oid <= TEE_OBJECT_ID_MAX_LEN ->
  match m !! oid with
  | None => exists e s', open ObjectStorageConstants.Private oid fl s = Ret (Err e, s') /\
      Error.kind e = ErrorKind.ItemNotFound /\ represents m s'
  | Some d => exists o s', open ObjectStorageConstants.Private oid fl s = Ret (Ok o, s') /\
      raw_ref o <> 0 /\ objs s' = objs s /\ objs s' !! (1, oid) = Some d /\
      hnds s' = <[raw_ref o := (1, oid, (fl, 0))]> ∅
  end.
Proof.
  intros Hr Hl. pose proof (rep_objs _ _ Hr oid) as Ho.
  destruct (open_object_spec ObjectStorageConstants.Private oid fl s Hl) as (r & s' & E & Hs).
  destruct (m !! oid) as [d|] eqn:Em.
  - destruct r as [o|e].
    + destruct Hs as (_ & _ & Hn & Hob & Hh). rewrite (rep_hnds _ _ Hr) in Hh.
      exists o, s'. by rewrite Hob.
    + exfalso. destruct (open_not_err _ _ _ _ _ _ Hl (not_open_none _ _ _ oid Hr) E) as [Hnone _].
      cbn in Hnone. congruence.
  - destruct r as [o|e]; [destruct Hs as ([? ?] & _); cbn in *; congruence|].
    destruct Hs as [[Hob Hh] _].
    destruct (open_not_err _ _ _ _ _ _ Hl (not_open_none _ _ _ oid Hr) E) as [_ Hk].
    exists e, s'. split; [done|]. split; [done|].
    destruct Hr as [? ? ?]. split; [by intros ?; rewrite Hob|congruence|done].
Qed.

(** ** The handlers *)

(** Running [h] answers with [rp] and leaves [m] in the storage. *)
Definition handles (h : prog (St * world) (Result unit)) (s : St) (w : world)
    (rp : reply) (m : gmap bytes bytes) : Prop :=
  exists r s' w', h (s, w) = Ret (r, (s', w')) /\ gives rp w w' (code_of r) /\ represents m s'.

Lemma gives_err e k w :
  Error.kind e = k -> gives (Refused k) w w (code_of (Err e)).
Proof. intros <-. done. Qed.

Lemma represents_insert m (s s' : St) oid d :
  represents m s -> objs s' = <[(1, oid) := d]> (objs s) -> hnds s' = ∅ -> len d < 2 ^ 31 ->
  represents (<[oid := d]> m) s'.
Proof.
  intros [Ho _ Hl] Ho' Hh' Hd. split; [|done|].
  - intros oid'. rewrite Ho'. destruct (decide (oid' = oid)) as [->|Hne].
    + by rewrite !lookup_insert_eq.
    + rewrite !lookup_insert_ne by congruence. apply Ho.
  - intros oid' d'. destruct (decide (oid' = oid)) as [->|Hne].
    + rewrite lookup_insert_eq. by intros [= <-].
    + rewrite lookup_insert_ne by done. apply Hl.
Qed.

Lemma represents_delete m (s s' : St) oid :
  represents m s -> objs s' = delete (1, oid) (objs s) -> hnds s' = ∅ ->
  represents (delete oid m) s'.
Proof.
  intros [Ho _ Hl] Ho' Hh'. split; [|done|].
  - intros oid'. rewrite Ho'. destruct (decide (oid' = oid)) as [->|Hne].
    + by rewrite !lookup_delete_eq.
    + rewrite !lookup_delete_ne by congruence. apply Ho.
  - intros oid' d' [_ Hs]%lookup_delete_Some. by eapply Hl.
Qed.

Lemma delete_handles m s w oid p1 p2 p3 :
  represents m s -> in_buffer w 0 oid -> len oid <= TEE_OBJECT_ID_MAX_LEN ->
  handles (delete_object (ParameterAny.MemrefInput (mkMemrefInput 0), p1, p2, p3)) s w
    (answer (ReqDelete oid) m).1 (answer (ReqDelete oid) m).2.
Proof.
  intros Hr Hin Hlen. unfold handles, delete_object. erewrite ptry_Ok by (by apply read_id_spec).
  pose proof (open_private m s oid (Z.lor DataFlag.ACCESS_READ DataFlag.ACCESS_WRITE_META) Hr Hlen) as Ho.
  cbn [answer]. destruct (m !! oid) as [d|] eqn:Em; cbn [fst snd].
  - destruct Ho as (o & s1 & E & Hn & Hob & _ & Hh).
    erewrite pbind_Ret by (by apply on_tee_Ret).
    assert (hnds s1 !! raw_ref o = Some
              (1, oid, (Z.lor DataFlag.ACCESS_READ DataFlag.ACCESS_WRITE_META, 0))) as Ho1
      by (by rewrite Hh, lookup_insert_eq).
    destruct (close_and_delete_spec o s1 _ _ _ Ho1) as (r & s2 & E2 & Hh2 & Ho2); [done|].
    destruct r as [[]|e]; [|by destruct (close_and_delete_not_err o s1 s2 e _ _ _ Ho1)].
    erewrite ptry_Ok by (by apply on_tee_Ret). eexists _, s2, w. split; [done|]. split; [done|].
    apply (represents_delete m s); [done|by rewrite Ho2, Hob|].
    rewrite Hh2, Hh. by apply hnds_closed.
  - destruct Ho as (e & s1 & E & Hk & Hr1).
    erewrite pbind_Ret by (by apply on_tee_Ret). eexists _, s1, w. split; [done|].
    split; [by apply gives_err|done].
Qed.

Lemma create_handles m s w oid data p2 p3 :
  represents m s -> in_buffer w 0 oid -> in_buffer w 1 data ->
  len oid <= TEE_OBJECT_ID_MAX_LEN ->
  handles (create_raw_object (ParameterAny.MemrefInput (mkMemrefInput 0),
             ParameterAny.MemrefInput (mkMemrefInput 1), p2, p3)) s w
    (answer (ReqWrite oid data) m).1 (answer (ReqWrite oid data) m).2.
Proof.
  intros Hr Hin Hin1 Hlen. unfold handles, create_raw_object.
  erewrite ptry_Ok by (by apply read_id_spec). erewrite ptry_Ok by (by apply read_id_spec).
  set (fl := Z.lor _ DataFlag.OVERWRITE).
  destruct (create_object_spec ObjectStorageConstants.Private oid fl [] s Hlen) as (r & s1 & E & Hs).
  destruct r as [o|e].
  2:{ destruct (create_not_err ObjectStorageConstants.Private oid fl [] s s1 e); [done|done| |done].
      by eapply not_open_none. }
  destruct Hs as (_ & Hn & Hob & Hh). erewrite ptry_Ok by (by apply on_tee_Ret).
  rewrite (rep_hnds _ _ Hr) in Hh. change (ObjectStorageConstants.into_u32 _) with 1 in *.
  destruct (write_reliable (raw_ref o) data s1 1 oid fl 0 []) as (s2 & E2 & Hob2 & Hh2);
    [by rewrite Hh, lookup_insert_eq|done|by rewrite Hob, lookup_insert_eq|].
  assert (write o data s1 = Ret (Ok tt, s2)) as Ew by (unfold write, pbind; by rewrite E2).
  erewrite pbind_Ret by (by apply on_tee_Ret).
  destruct (drop_object_spec o s2 Hn) as (s3 & E3 & Hob3 & Hh3).
  { rewrite Hh2, lookup_insert_eq. eauto. }
  erewrite pbind_Ret by (by apply on_tee_Ret). eexists _, s3, w. split; [done|]. split; [done|].
  apply (represents_insert m s); [done| | |by destruct Hin1 as (? & _ & _ & _ & ? & _)].
  - by rewrite Hob3, Hob2, Hob, write_data_empty, insert_insert_eq.
  - rewrite Hh3, Hh2, Hh, insert_insert_eq. by apply hnds_closed.
Qed.

(** What is left of the object, with the set of open handles as it was. *)
Lemma read_remaining_all o (s : St) d :
  handle_data s (raw_ref o) = Some (d, 0) -> may s (raw_ref o) DataFlag.ACCESS_READ ->
  len d < 2 ^ 31 ->
  exists s', read_remaining_to_vec o s = Ret (Ok d, s') /\ objs s' = objs s /\
    dom (hnds s') = dom (hnds s).
Proof.
  intros Hd Hmay Hl. pose proof ptr_bits_31.
  destruct (read_remaining_correct o s d 0 reliable_safe Hd Hmay) as (r & s' & E & Ho & _ & Hr); [done|lia|].
  rewrite Hr in E by (done || lia). exists s'. split_and!; [done..|].
  destruct Hmay as (fl & Hfl & Hright).
  destruct (keeps_read_remaining o fl Hright s Hfl) as (r' & s1 & E1 & Hend).
  rewrite E in E1. injection E1 as <- <-. destruct Hend as [Hrights|(_ & [] & _)].
  by rewrite <- !dom_rights, Hrights.
Qed.

(** Leaving the block closes the one handle that is open. *)
Lemma drop_last o m (s s' : St) :
  represents m s -> raw_ref o <> 0 -> objs s' = objs s -> dom (hnds s') = {[raw_ref o]} ->
  exists s'', drop_object o s' = Ret (tt, s'') /\ represents m s''.
Proof.
  intros [Ho _ Hl] Hn Hob Hdom.
  destruct (drop_object_spec o s' Hn) as (s'' & E & Hob' & Hh).
  { apply elem_of_dom. rewrite Hdom. set_solver. }
  exists s''. split; [done|]. split; [intros ?; by rewrite Hob', Hob| |done].
  apply dom_empty_inv_L. rewrite Hh, dom_delete_L, Hdom. set_solver.
Qed.

Lemma owning_handles o body m s (s1 : St) w rp :
  represents m s -> raw_ref o <> 0 ->
  (exists r s2 w2, body (s1, w) = Ret (r, (s2, w2)) /\ gives rp w w2 (code_of r) /\
     objs s2 = objs s /\ dom (hnds s2) = {[raw_ref o]}) ->
  exists r s2 w2, owning o body (s1, w) = Ret (r, (s2, w2)) /\ gives rp w w2 (code_of r) /\
    represents m s2.
Proof.
  intros Hr Hn (r & s2 & w2 & E & Hg & Hob & Hdom). unfold owning. erewrite pbind_Ret by done.
  destruct (drop_last o m s s2 Hr Hn Hob Hdom) as (s3 & E3 & Hr3).
  erewrite pbind_Ret by (by apply on_tee_Ret). by exists r, s3, w2.
Qed.

Lemma read_handles m s w oid c p2 p3 :
  represents m s -> in_buffer w 0 oid -> out_buffer w 1 c -> len oid <= TEE_OBJECT_ID_MAX_LEN ->
  handles (read_raw_object (ParameterAny.MemrefInput (mkMemrefInput 0),
             ParameterAny.MemrefOutput (mkMemrefOutput c 1), p2, p3)) s w
    (answer (ReqRead oid c) m).1 (answer (ReqRead oid c) m).2.
Proof.
  intros Hr Hin (b & Hi & Hb & Hv) Hlen. unfold handles, read_raw_object.
  erewrite ptry_Ok by (by apply read_id_spec). erewrite ptry_Ok by done.
  pose proof (open_private m s oid (Z.lor DataFlag.ACCESS_READ DataFlag.SHARE_READ) Hr Hlen) as Ho.
  cbn [answer]. destruct (m !! oid) as [d|] eqn:Em; cbn [fst snd].
  2:{ destruct Ho as (e & s1 & E & Hk & Hr1).
      erewrite ptry_Err by (by apply on_tee_Ret). eexists _, s1, w. split; [done|].
      split; [by apply gives_err|done]. }
  destruct Ho as (o & s1 & E & Hn & Hob & Hd & Hh).
  erewrite ptry_Ok by (by apply on_tee_Ret).
  assert (handle_data s1 (raw_ref o) = Some (d, 0)) as Hdata
    by (unfold handle_data; by rewrite Hh, lookup_insert_eq, Hd).
  assert (may s1 (raw_ref o) DataFlag.ACCESS_READ) as Hmay
    by (eexists; unfold rights; by rewrite Hh, fmap_insert, lookup_insert_eq).
  pose proof (rep_small _ _ Hr _ _ Em) as Hl.
  apply (owning_handles o _ m s); [done..|].
  destruct (info_object_spec o s1 d 0 reliable_safe Hdata) as (r & s2 & E2 & Hu & Hi2).
  destruct r as [i|e]; [|by destruct (info_not_err o s1 s2 e); [eauto|]].
  destruct Hi2 as [Hsz _]. erewrite ptry_Ok by (by apply on_tee_Ret). cbv zeta.
  rewrite Hsz. rewrite <- (unchanged_data s1 s2 _ Hu) in Hdata.
  apply (unchanged_may s1 s2 _ _ Hu) in Hmay. destruct Hu as [Hob2 Hh2].
  assert (dom (hnds s2) = {[raw_ref o]}) as Hdom
    by (rewrite Hh2, Hh, dom_insert_L, dom_empty_L; by rewrite (right_id_L ∅ (∪))).
  erewrite pbind_Ret by (by apply on_params_Ret).
  cbn [mo_capacity]. destruct (c <? len d) eqn:Hc.
  - eexists _, s2, w. split; [done|]. split; [by apply gives_err|]. by rewrite Hob2, Hob.
  - apply Z.ltb_ge in Hc. destruct (read_remaining_all o s2 d Hdata Hmay Hl) as (s3 & E3 & Hob3 & Hdom3).
    erewrite ptry_Ok by (by apply on_tee_Ret). rewrite Z.eqb_refl. cbn [negb].
    destruct (output_spec s3 w 1 c b c d Hi Hv Hc) as (w' & E4 & Hg).
    erewrite ptry_Ok by done. eexists _, s3, w'. split; [done|]. split; [done|].
    by rewrite Hob3, Hob2, Hob, Hdom3.
Qed.

(** ** The entry point *)

Lemma entry_handles cmd types (s : St) w boxes params rp m :
  from_raw_tuple types w = Ret (Ok params, w) ->
  handles (invoke_command cmd params) s w rp m ->
  exists code s' w', entry cmd types (mkTa s w boxes) = Ret (code, mkTa s' w' boxes) /\
    gives rp w w' code /\ represents m s'.
Proof.
  intros Ep (r & s' & w' & E & Hg & Hr). exists (code_of r), s', w'. split; [|done].
  unfold entry, TA_InvokeCommandEntryPoint0, run_params, run_user, pbind. cbn.
  rewrite Ep. cbn. by rewrite E.
Qed.

(** One request through the generated entry point. *)
Lemma invocation_refines r cmd types w m (s : St) boxes :
  represents m s -> carries r cmd types w -> panics r = false ->
  exists code s' w', entry cmd types (mkTa s w boxes) = Ret (code, mkTa s' w' boxes) /\
    gives (answer r m).1 w w' code /\ represents (answer r m).2 s'.
Proof.
  intros Hr [_ Hc] Hp. unfold panics in Hp.
  destruct r as [oid data|oid c|oid|c]; cbn [carries named] in Hc, Hp; reflect_bool.
  - destruct Hc as (-> & -> & H0' & H1'). eapply entry_handles.
    + apply any_tuple; [done..|by eapply any_input|by eapply any_input].
    + by apply create_handles.
  - destruct Hc as (-> & -> & H0' & H1'). eapply entry_handles.
    + apply any_tuple; [done..|by eapply any_input|by eapply any_output].
    + by apply read_handles.
  - destruct Hc as (-> & -> & H0'). eapply entry_handles.
    + apply any_tuple; [done..|by eapply any_input|done].
    + by apply delete_handles.
  - destruct Hc as (-> & -> & Hc). eapply entry_handles; [by apply any_tuple|].
    assert (Command.from c = Command.Unknown) as Hu
      by (unfold Command.from; by rewrite !(proj2 (Z.eqb_neq _ _)) by lia).
    exists (bail ErrorKind.NotSupported), s, w. unfold invoke_command. by rewrite Hu.
Qed.

(** An identifier that is too long reaches the storage, and the TA panics. *)
Lemma invocation_panics r cmd types w (s : St) boxes :
  carries r cmd types w -> panics r = true -> entry cmd types (mkTa s w boxes) = Panic.
Proof.
  intros [_ Hc] Hp. unfold panics in Hp.
  assert (forall params, from_raw_tuple types w = Ret (Ok params, w) ->
    invoke_command cmd params (s, w) = Panic -> entry cmd types (mkTa s w boxes) = Panic) as Hentry.
  { intros params Ep E. unfold entry, TA_InvokeCommandEntryPoint0, run_params, run_user, pbind. cbn.
    rewrite Ep. cbn. by rewrite E. }
  destruct r as [oid data|oid c|oid|c]; cbn [carries named] in Hc, Hp; reflect_bool; [..|done].
  - destruct Hc as (-> & -> & Ha & Hb). eapply Hentry.
    + apply any_tuple; [done..|by eapply any_input|by eapply any_input].
    + cbn. unfold create_raw_object. erewrite ptry_Ok by (by apply read_id_spec).
      erewrite ptry_Ok by (by apply read_id_spec). unfold ptry, pbind, on_tee.
      by rewrite create_object_long.
  - destruct Hc as (-> & -> & Ha & Hb). eapply Hentry.
    + apply any_tuple; [done..|by eapply any_input|by eapply any_output].
    + cbn. unfold read_raw_object. erewrite ptry_Ok by (by apply read_id_spec).
      erewrite ptry_Ok by done. unfold ptry, pbind, on_tee. by rewrite open_object_long.
  - destruct Hc as (-> & -> & Ha). eapply Hentry.
    + apply any_tuple; [done..|by eapply any_input|done].
    + cbn. unfold delete_object. erewrite ptry_Ok by (by apply read_id_spec).
      unfold pbind, on_tee. by rewrite open_object_long.
Qed.

(** What the abstract map answers to a list of requests, unless the TA panics. *)
Fixpoint answers (rs : list request) (m : gmap bytes bytes)
    : option (list reply * gmap bytes bytes) :=
  match rs with
  | [] => Some ([], m)
  | r :: rs' =>
      if panics r then None
      else '(rps, m') ← answers rs' (answer r m).2; Some ((answer r m).1 :: rps, m')
  end.

Definition carries_call (r : request) (call : Z * Z * world) : Prop :=
  carries r call.1.1 call.1.2 call.2.

Definition gives_call (rp : reply) (call : Z * Z * world) (res : Z * world) : Prop :=
  gives rp call.2 res.2 res.1.

(** C3: the secure-storage TA is a map from identifiers to data: on a storage
    on which nothing fails that does not have to, any sequence of write, read, delete
    and unknown requests sent through the generated entry point is answered as the
    abstract map answers it, up to a request whose identifier has more than 64 bytes:
    the TA passes it on unchecked, and the storage panics the TA.  A read puts exactly
    the stored bytes and their number in the output buffer, touches nothing else, and
    refuses a buffer that is too short with [ShortBuffer]; a missing object is
    [ItemNotFound], an unknown command [NotSupported].  No other request panics, and
    none leaves a handle open. *)
Theorem secure_storage_refines_map reqs calls m (s : St) :
  represents m s -> Forall2 carries_call reqs calls ->
  match answers reqs m with
  | Some (replies, m') =>
      exists results s', serve entry calls s = Ret (results, s') /\
        Forall3 gives_call replies calls results /\ represents m' s'
  | None => serve entry calls s = Panic
  end.
Proof.
  intros Hr Hc. revert m s Hr.
  induction Hc as [|r [[cmd types] w] reqs calls Hc _ IH]; intros m s Hr.
  - exists [], s. split; [done|]. split; [constructor|done].
  - cbn [answers serve]. destruct (panics r) eqn:Hp; [by erewrite invocation_panics|].
    destruct (invocation_refines r cmd types w m s ∅ Hr Hc Hp) as (code & s1 & w' & E & Hg & Hr1).
    rewrite E. cbn. specialize (IH _ _ Hr1).
    destruct (answers reqs (answer r m).2) as [[replies m']|]; cbn; [|by rewrite IH].
    destruct IH as (results & s2 & E2 & Hgs & Hr2). rewrite E2. cbn.
    exists ((code, w') :: results), s2. split; [done|]. split; [by constructor|done].
Qed.

End Refinement.

(** ** A session on the storage in memory *)

Module StorageTaExamples.
Import RamStorage ParamExamples.

#[local] Instance ex_target : Target := 64.
#[local] Instance ex_target_ok : TargetOk := aarch64_ok.
#[local] Instance ex_memmove : TeeMemMove := plain_memmove.
#[local] Instance ex_memmove_ok : TeeMemMoveOk := plain_memmove_ok.

(** Identifier [1; 2; 3; 4] in slot 0; four bytes to write, or to fill, in slot 1. *)
Definition two_buffers : world :=
  mkWorld (buffer_at 0x1000 [1; 2; 3; 4; 9; 8; 7; 6])
          [mkParam 0x1000 4; mkParam 0x1004 4; mkParam 0 0; mkParam 0 0].

Lemma two_mapped a : 0x1000 <= a -> a + 4 <= 0x1008 -> valid_buffer two_buffers a 4.
Proof.
  intros. split_and!; [lia|lia|change ptr_bits with 64; lia|].
  apply (range_mapped_sub _ 0x1000 8); [|lia|lia].
  apply (buffer_at_mapped 0x1000 [1; 2; 3; 4; 9; 8; 7; 6]).
Qed.

Lemma two_holds i b l :
  raws two_buffers !! i = Some (mkParam b 4) -> 0x1000 <= b -> b + 4 <= 0x1008 -> len l = 4 ->
  read_range (wmem two_buffers) b 4 = Some l -> in_buffer two_buffers i l.
Proof.
  intros Hi H1' H2' Hl Hh. exists b. rewrite Hl. split_and!; [done|lia|by apply two_mapped|lia|].
  destruct (read_range_spec (wmem two_buffers) 4 b) as (l' & E & _ & Hl');
    [by apply two_mapped|]. rewrite Hh in E. by injection E as ->.
Qed.

Definition session : list request :=
  [ReqWrite [1; 2; 3; 4] [9; 8; 7; 6]; ReqRead [1; 2; 3; 4] 4; ReqDelete [1; 2; 3; 4];
   ReqRead [1; 2; 3; 4] 4; ReqOther 7].

Definition session_calls : list (Z * Z * world) :=
  [(1, TEE_PARAM_TYPES 5 5 0 0, two_buffers); (0, TEE_PARAM_TYPES 5 6 0 0, two_buffers);
   (2, TEE_PARAM_TYPES 5 0 0 0, two_buffers); (0, TEE_PARAM_TYPES 5 6 0 0, two_buffers);
   (7, TEE_PARAM_TYPES 0 0 0 0, two_buffers)].

Lemma session_carried : Forall2 carries_call session session_calls.
Proof.
  assert (in_buffer two_buffers 0 [1; 2; 3; 4]) by (by apply (two_holds 0 0x1000)).
  assert (in_buffer two_buffers 1 [9; 8; 7; 6]) by (by apply (two_holds 1 0x1004)).
  assert (out_buffer two_buffers 1 4) by (exists 0x1004; split_and!; [done..|by apply two_mapped]).
  repeat constructor; try done.
Qed.

Lemma represents_empty : represents (St:=ram) ∅ (mkRam ∅ ∅).
Proof. by split. Defined.

Lemma secure_storage_refines_map_witness :
  exists results s', serve entry session_calls (mkRam ∅ ∅) = Ret (results, s') /\
    Forall3 gives_call
      [Done; Data [9; 8; 7; 6]; Done; Refused ErrorKind.ItemNotFound;
       Refused ErrorKind.NotSupported] session_calls results /\
    represents ∅ s'.
Proof.
  exact (secure_storage_refines_map session session_calls ∅ (mkRam ∅ ∅)
           represents_empty session_carried).
Defined.

End StorageTaExamples.
