(* ===== verification/Wallet.v ===== *)
(** * Wallet: the Ethereum wallet TA

    Models [projects/web3/eth_wallet/]: [proto/src/] (the commands and their
    messages), [ta/src/wallet.rs], [ta/src/hash.rs] and [ta/src/main.rs], on
    [SecureDb] and the raw parameters.  The crates [uuid], [bip32], [secp256k1],
    [sha3] and [ethereum_tx_sign] are not part of the repository: they are an
    interface.  Error values are [anyhow] errors, kept by their cause; their
    [Debug] text, which the TA sends to the client, is part of the interface. *)

From S2P Require Import Prelude TeeDefines UteeError Memory Params EntryPoints Storage SecureDb.
From S2P Require Import Crypto TaApp.

(** ** Messages ([proto/src/in_out.rs], [proto/src/lib.rs]) *)

Module Command.

Inductive Command : Type := CreateWallet | RemoveWallet | DeriveAddress | SignTransaction | Unknown.

Definition from (x : Z) : Command :=
  if x =? 0 then CreateWallet else if x =? 1 then RemoveWallet
  else if x =? 2 then DeriveAddress else if x =? 3 then SignTransaction else Unknown.

Definition into (c : Command) : Z :=
  match c with
  | CreateWallet => 0 | RemoveWallet => 1 | DeriveAddress => 2 | SignTransaction => 3
  | Unknown => 4
  end.

End Command.
Abbreviation Command := Command.Command.

(** [chain_id: u64], the amounts [u128]; an address is twenty bytes. *)
Record EthTransaction : Type := mkEthTransaction {
  chain_id : Z; nonce : Z; to : option bytes; value : Z; gas_price : Z; gas : Z; data : bytes
}.

(** [ethereum_tx_sign::LegacyTransaction]. *)
Record LegacyTransaction : Type := mkLegacyTransaction {
  lt_chain : Z; lt_nonce : Z; lt_gas_price : Z; lt_gas : Z; lt_to : option bytes; lt_value : Z;
  lt_data : bytes
}.

(** ** The crates *)

Class EthCrates : Type := {
  (** [uuid] *)
  Uuid : Type;
  #[global] uuid_eq_dec :: EqDecision Uuid;
  #[global] uuid_countable :: Countable Uuid;
  from_random_bytes : bytes -> Uuid;
  uuid_to_string : Uuid -> key;
  (** The errors of the crates below. *)
  crate_error : Type;
  (** [bip32] *)
  Mnemonic : Type;
  from_entropy : bytes -> Mnemonic;
  phrase : Mnemonic -> bytes;
  to_seed : Mnemonic -> bytes -> bytes;
  DerivationPath : Type;
  parse_path : bytes -> result DerivationPath crate_error;
  XPrv : Type;
  derive_from_path : bytes -> DerivationPath -> result XPrv crate_error;
  xprv_to_bytes : XPrv -> bytes;
  xprv_public_key : XPrv -> bytes;
  (** [secp256k1] *)
  PublicKey : Type;
  public_key_from_slice : bytes -> result PublicKey crate_error;
  serialize_uncompressed : PublicKey -> bytes;
  (** [sha3] *)
  Keccak256 : bytes -> bytes;
  (** [ethereum_tx_sign] *)
  EcdsaSig : Type;
  tx_ecdsa : LegacyTransaction -> bytes -> result EcdsaSig crate_error;
  tx_sign : LegacyTransaction -> EcdsaSig -> bytes;
}.

Section Wallet.
Context `{!EthCrates}.

Record CreateWalletInput : Type := mkCreateWalletInput {}.
Record CreateWalletOutput : Type := mkCreateWalletOutput {
  co_wallet_id : Uuid; co_mnemonic : bytes
}.
Record RemoveWalletInput : Type := mkRemoveWalletInput { ri_wallet_id : Uuid }.
Record RemoveWalletOutput : Type := mkRemoveWalletOutput {}.
Record DeriveAddressInput : Type := mkDeriveAddressInput {
  di_wallet_id : Uuid; di_hd_path : bytes
}.
Record DeriveAddressOutput : Type := mkDeriveAddressOutput {
  do_address : bytes; do_public_key : bytes
}.
Record SignTransactionInput : Type := mkSignTransactionInput {
  si_wallet_id : Uuid; si_hd_path : bytes; si_transaction : EthTransaction
}.
Record SignTransactionOutput : Type := mkSignTransactionOutput { so_signature : bytes }.

(** ** Errors *)

Inductive error : Type :=
| FromCrate (e : crate_error)
| FromDb (e : db_error)
| FromTryFromSlice
| Message (text : string)
| MessageOf (text : string) (cause : error).

Abbreviation EthResult T := (result T error).

(** [&l[n..]]. *)
Definition slice_from (n : Z) (l : bytes) : outcome bytes :=
  if n <=? len l then Ret (drop (Z.to_nat n) l) else Panic.

(** [<[u8; n]>::try_from]. *)
Definition try_into_array (n : Z) (l : bytes) : EthResult bytes :=
  if len l =? n then Ok l else Err FromTryFromSlice.

(** ** [hash.rs] *)

Definition keccak_hash_to_bytes (data : bytes) : bytes := Keccak256 data.

(** ** [wallet.rs] *)

Record Wallet : Type := mkWallet { id : Uuid; entropy : bytes }.

Definition get_id (self : Wallet) : Uuid := id self.

Definition get_mnemonic (self : Wallet) : EthResult bytes :=
  try e := try_into_array 32 (entropy self) in
  Ok (phrase (from_entropy e)).

Definition get_seed (self : Wallet) : EthResult bytes :=
  try e := try_into_array 32 (entropy self) in
  Ok (to_seed (from_entropy e) []).

Definition derive_xprv (self : Wallet) (hd_path : bytes) : EthResult XPrv :=
  try path := map_err FromCrate (parse_path hd_path) in
  try seed := get_seed self in
  map_err FromCrate (derive_from_path seed path).

Definition derive_prv_key (self : Wallet) (hd_path : bytes) : EthResult bytes :=
  try child_xprv := derive_xprv self hd_path in
  Ok (xprv_to_bytes child_xprv).

Definition derive_pub_key (self : Wallet) (hd_path : bytes) : EthResult bytes :=
  try child_xprv := derive_xprv self hd_path in
  Ok (xprv_public_key child_xprv).

Definition derive_address (self : Wallet) (hd_path : bytes) : outcome (EthResult (bytes * bytes)) :=
  otry (Ret (derive_pub_key self hd_path)) (fun public_key_bytes =>
  otry (Ret (map_err FromCrate (public_key_from_slice public_key_bytes))) (fun public_key =>
  let! uncompressed_public_key := slice_from 1 (serialize_uncompressed public_key) in
  let! address := slice_from 12 (keccak_hash_to_bytes uncompressed_public_key) in
  Ret (try a := try_into_array 20 address in Ok (a, public_key_bytes)))).

Definition sign_transaction (self : Wallet) (hd_path : bytes) (transaction : EthTransaction)
    : EthResult bytes :=
  try xprv := derive_prv_key self hd_path in
  let legacy_transaction :=
    mkLegacyTransaction (chain_id transaction) (nonce transaction) (gas_price transaction)
      (gas transaction) (to transaction) (value transaction) (data transaction) in
  try ecdsa := map_err FromCrate (tx_ecdsa legacy_transaction xprv) in
  Ok (tx_sign legacy_transaction ecdsa).

(** What [std::any::type_name] gives is up to the compiler. *)
Context (wallet_type_name : key).

#[local] Instance wallet_storable : Storable Wallet := {|
  Key := Uuid;
  unique_id := id;
  key_to_string := uuid_to_string;
  type_name := wallet_type_name;
|}.

(** ** [main.rs] *)

Definition DB_NAME : key := str_bytes "eth_wallet_db"%string.

Context `{!Target, !TeeMemMove} {St : Type} `{!TrustedStorage St, !TeeRandom St}.
Context `{!Bincode (gset key), !HashIter, !Bincode Wallet}.
Context `{!Bincode CreateWalletInput, !Bincode CreateWalletOutput}.
Context `{!Bincode RemoveWalletInput, !Bincode RemoveWalletOutput}.
Context `{!Bincode DeriveAddressInput, !Bincode DeriveAddressOutput}.
Context `{!Bincode SignTransactionInput, !Bincode SignTransactionOutput}.
(** [format!("{:?}", e)]. *)
Context (debug : error -> bytes).

(** [?] on an error of [secure_db] or of [bincode]. *)
Definition from_db {A} (m : prog St (DbResult A)) : prog St (EthResult A) :=
  let* r := m in pret (map_err FromDb r).

Definition new : prog St (EthResult Wallet) :=
  let* entropy := Random.generate (zeros 32) in
  let* random_bytes := Random.generate (zeros 16) in
  let? b := pret (map_err (fun _ => Message "[-] Wallet::new(): invalid random bytes"%string)
                    (try_into_array 16 random_bytes)) in
  pret (Ok (mkWallet (from_random_bytes b) entropy)).

(** [TryFrom] in both directions. *)
Definition wallet_into_vec (wallet : Wallet) : EthResult bytes :=
  map_err (fun e => MessageOf "[-] Wallet::try_into(): "%string (FromDb e)) (serialize wallet).
Definition wallet_from_vec (data : bytes) : EthResult Wallet :=
  map_err (fun e => MessageOf "[-] Wallet::try_from(): "%string (FromDb e)) (deserialize data).

(** The database client is dropped at the end of each handler. *)
Definition create_wallet (_input : CreateWalletInput) : prog St (EthResult CreateWalletOutput) :=
  let? wallet := new in
  let wallet_id := get_id wallet in
  let? mnemonic := pret (get_mnemonic wallet) in
  let? db_client := from_db (Db.open DB_NAME) in
  let* r := client_put db_client wallet in
  let? _ := pret (map_err FromDb r.1) in
  pret (Ok (mkCreateWalletOutput wallet_id mnemonic)).

Definition remove_wallet (input : RemoveWalletInput) : prog St (EthResult RemoveWalletOutput) :=
  let? db_client := from_db (Db.open DB_NAME) in
  let* r := client_delete_entry (V := Wallet) db_client (ri_wallet_id input) in
  let? _ := pret (map_err FromDb r.1) in
  pret (Ok mkRemoveWalletOutput).

(** [get::<Wallet>(&input.wallet_id).map_err(|e| anyhow!("..: {:?}", e))]. *)
Definition load_wallet (text : string) (wallet_id : Uuid) : prog St (EthResult Wallet) :=
  let? db_client := from_db (Db.open DB_NAME) in
  let* r := client_get (V := Wallet) db_client wallet_id in
  pret (map_err (fun e => MessageOf text (FromDb e)) r).

Definition derive_address_cmd (input : DeriveAddressInput)
    : prog St (EthResult DeriveAddressOutput) :=
  let? wallet := load_wallet "[+] Deriving address: error: wallet not found: "%string
                   (di_wallet_id input) in
  let? r := plift (derive_address wallet (di_hd_path input)) in
  pret (Ok (mkDeriveAddressOutput r.1 r.2)).

Definition sign_transaction_cmd (input : SignTransactionInput)
    : prog St (EthResult SignTransactionOutput) :=
  let? wallet := load_wallet "[+] Sign transaction: error: wallet not found: "%string
                   (si_wallet_id input) in
  let? signature :=
    pret (sign_transaction wallet (si_hd_path input) (si_transaction input)) in
  pret (Ok (mkSignTransactionOutput signature)).

(** The inner function of [handle_invoke]. *)
Definition process {T U} `{!Bincode T, !Bincode U} (serialized_input : bytes)
    (handler : T -> prog St (EthResult U)) : prog St (EthResult bytes) :=
  let? input := pret (map_err FromDb (deserialize serialized_input)) in
  let? output := handler input in
  pret (map_err FromDb (serialize output)).

Definition handle_invoke (command : Command) (serialized_input : bytes)
    : prog St (EthResult bytes) :=
  match command with
  | Command.CreateWallet => process serialized_input create_wallet
  | Command.RemoveWallet => process serialized_input remove_wallet
  | Command.DeriveAddress => process serialized_input derive_address_cmd
  | Command.SignTransaction => process serialized_input sign_transaction_cmd
  | Command.Unknown => pret (Err (Message "Unsupported command"%string))
  end.

(** [(ParameterMemrefInput, ParameterMemrefOutput, ParameterNone, ParameterNone)]. *)
Definition WalletParameters : Type :=
  ParameterMemrefInput * ParameterMemrefOutput * ParameterNone * ParameterNone.

Definition invoke_command (cmd_id : Z) (params : WalletParameters)
    : prog (St * world) (Result unit) :=
  let '(p0, p1, _, _) := params in
  let? _ := on_params (set_updated_size p1 0) in
  let* input := on_params (read_to_vec p0) in
  let* r := on_tee (handle_invoke (Command.from cmd_id) input) in
  match r with
  | Err e =>
      let? _ := on_params (set_output p1 (debug e)) in
      pret (bail ErrorKind.BadParameters)
  | Ok output_vec =>
      let? _ := on_params (set_output p1 output_vec) in
      pret (Ok tt)
  end.

(** [#[ta_create]] and the functions of sessions. *)
Definition create : prog (St * world) (Result unit) := pret (Ok tt).
Definition open_session (_params : ParameterNone * ParameterNone * ParameterNone * ParameterNone)
    : prog (St * world) (Result unit) := pret (Ok tt).
Definition close_session : prog (St * world) unit := pret tt.
Definition destroy : prog (St * world) unit := pret tt.

Definition entry (cmd_id param_types : Z) : prog ta_state Z :=
  TA_InvokeCommandEntryPoint0 (Ctx := unit) from_raw_tuple invoke_command cmd_id param_types.

End Wallet.
