(* ===== verification/WalletSpec.v ===== *)
(** * WalletSpec: the wallet TA keeps a map from identifiers to seeds *)

From S2P Require Import Prelude TeeDefines UteeError Memory Params EntryPoints Storage SecureDb.
From S2P Require Import Crypto ParamsSpec StorageSpec SecureDbSpec TaApp Wallet.

(** What is documented of the crates and of the TEE. *)
Class EthCratesOk `{EthCrates} : Prop := {
  uuid_to_string_inj i j : uuid_to_string i = uuid_to_string j -> i = j;
  serialize_uncompressed_len pk : len (serialize_uncompressed pk) = 65;
  Keccak256_len d : len (Keccak256 d) = 32;
}.

Class TeeRandomOk (St : Type) `{!TeeRandom St, !TrustedStorage St} : Prop :=
  random_spec n s : 0 <= n ->
    exists l s', TEE_GenerateRandom n s = Ret (l, s') /\ len l = n /\ unchanged s s'.

(** ** Reference functions of a wallet's entropy *)

Section Reference.
Context `{!EthCrates, !EthCratesOk}.

Definition xprv_of (ent path : bytes) : result XPrv error :=
  try p := map_err FromCrate (parse_path path) in
  map_err FromCrate (derive_from_path (to_seed (from_entropy ent) []) p).

(** The last twenty bytes of the hash of the public key, without its first byte. *)
Definition address_of (ent path : bytes) : result (bytes * bytes) error :=
  try x := xprv_of ent path in
  try pk := map_err FromCrate (public_key_from_slice (xprv_public_key x)) in
  Ok (drop 12 (Keccak256 (drop 1 (serialize_uncompressed pk))), xprv_public_key x).

Definition signature_of (ent path : bytes) (t : EthTransaction) : result bytes error :=
  try x := xprv_of ent path in
  let tx := mkLegacyTransaction (chain_id t) (nonce t) (gas_price t) (gas t) (to t) (value t) (data t) in
  try sig := map_err FromCrate (tx_ecdsa tx (xprv_to_bytes x)) in
  Ok (tx_sign tx sig).

Lemma array_32 ent : len ent = 32 -> try_into_array 32 ent = Ok ent.
Proof. intros He. unfold try_into_array. by rewrite He. Qed.

Lemma derive_xprv_of i ent path :
  len ent = 32 -> derive_xprv (mkWallet i ent) path = xprv_of ent path.
Proof.
  intros He. unfold derive_xprv, xprv_of, get_seed. cbn [entropy]. rewrite array_32 by done.
  by destruct (parse_path path).
Qed.

Lemma slice_from_ok n l : n <= len l -> slice_from n l = Ret (drop (Z.to_nat n) l).
Proof. intros Hn. unfold slice_from. by rewrite (proj2 (Z.leb_le _ _) Hn). Qed.

Lemma derive_address_of i ent path :
  len ent = 32 -> derive_address (mkWallet i ent) path = Ret (address_of ent path).
Proof.
  intros He. unfold derive_address, derive_pub_key, address_of. rewrite derive_xprv_of by done.
  destruct (xprv_of ent path) as [x|e]; [|done]. cbn [result_bind otry].
  destruct (public_key_from_slice _) as [pk|e]; [|done]. cbn [map_err otry result_bind].
  rewrite slice_from_ok by (rewrite serialize_uncompressed_len; done). cbn [outcome_bind].
  rewrite slice_from_ok by (unfold keccak_hash_to_bytes; rewrite Keccak256_len; done).
  cbn [outcome_bind]. unfold try_into_array, keccak_hash_to_bytes.
  rewrite (proj2 (Z.eqb_eq _ 20)); [done|].
  pose proof (Keccak256_len (drop (Z.to_nat 1) (serialize_uncompressed pk))).
  unfold len in *. rewrite length_drop. lia.
Qed.

Lemma sign_transaction_of i ent path t :
  len ent = 32 -> sign_transaction (mkWallet i ent) path t = signature_of ent path t.
Proof.
  intros He. unfold sign_transaction, derive_prv_key, signature_of. rewrite derive_xprv_of by done.
  by destruct (xprv_of ent path).
Qed.

End Reference.

(** ** The wallets in the storage *)

Section Store.
Context `{!EthCrates, !EthCratesOk, !Target, !TargetOk, !TeeMemMove, !TeeMemMoveOk}.
Context {St : Type} `{!TrustedStorage St, !TrustedStorageOk St, !TrustedStorageReliable St}.
Context `{!TeeRandom St, !TeeRandomOk St}.
Context `{!Bincode (gset key), !BincodeOk (gset key), !HashIter, !HashIterOk}.
Context `{!Bincode Wallet, !BincodeOk Wallet}.
Context `{!Bincode CreateWalletInput, !Bincode CreateWalletOutput}.
Context `{!Bincode RemoveWalletInput, !Bincode RemoveWalletOutput}.
Context `{!Bincode DeriveAddressInput, !Bincode DeriveAddressOutput}.
Context `{!Bincode SignTransactionInput, !Bincode SignTransactionOutput}.
Context (wallet_type_name : key) (debug : error -> bytes).

#[local] Instance storable : Storable Wallet := wallet_storable wallet_type_name.

(** The key of a wallet in the database. *)
Definition wallet_key (i : Uuid) : key := concat_key (V := Wallet) (uuid_to_string i).

#[local] Arguments wallet_key : simpl never.

(** The keys of the wallets that are created are in [K] and no longer than the storage
    allows (they are "Wallet#" and the 36 characters of a UUID); key lists over [K] and
    wallets can be serialised. *)
Context (K : gset key) (keys_fit : ser_total K) (keys_short : forall k, k ∈ K -> short k).
Context (ids_in_K : forall (s : St) l s',
  TEE_GenerateRandom 16 s = Ret (l, s') -> wallet_key (from_random_bytes l) ∈ K).
Context (wallets_fit : forall i ent, len ent = 32 -> exists b, serialize (mkWallet i ent) = Ok b).

Lemma wallet_key_inj i j : wallet_key i = wallet_key j -> i = j.
Proof.
  unfold wallet_key, concat_key. intros Hk%app_inv_head%app_inv_head.
  by apply uuid_to_string_inj.
Qed.

(** A key has a "#", the name of the database does not. *)
Lemma wallet_key_not_name i : wallet_key i <> DB_NAME.
Proof.
  intros Hk. assert (35 ∈ DB_NAME) as Hin.
  { rewrite <- Hk. unfold wallet_key, concat_key. rewrite !elem_of_app. right; left. by left. }
  revert Hin. apply (bool_decide_eq_false_1 (35 ∈ DB_NAME)). by vm_compute.
Qed.

(** The database holds the wallets of [m], each under its key. *)
Record wallets (m : gmap Uuid bytes) (kv : kvmap) : Prop := {
  wallets_some i ent : m !! i = Some ent ->
    len ent = 32 /\ exists b, serialize (mkWallet i ent) = Ok b /\ kv !! wallet_key i = Some b;
  wallets_none i : m !! i = None -> kv !! wallet_key i = None;
}.

(** Between two invocations. *)
Definition holds (m : gmap Uuid bytes) (s : St) : Prop :=
  exists kv, disk_inv K DB_NAME s kv /\ wallets m kv.

(** During one, with a client of the database. *)
Definition holds_open (m : gmap Uuid bytes) (db : SecureStorageDb) (s : St) : Prop :=
  exists kv, name db = DB_NAME /\ db_inv K db s kv /\ wallets m kv.

Lemma holds_unchanged m s s' : holds m s -> unchanged s s' -> holds m s'.
Proof. intros (kv & Hd & Hw) Hu. exists kv. split; [by eapply disk_inv_unchanged|done]. Qed.

Lemma holds_close m db s : holds_open m db s -> holds m s.
Proof. intros (kv & Hn & Hi & Hw). exists kv. rewrite <- Hn. split; [by apply db_inv_disk|done]. Qed.

Lemma open_holds m s :
  holds m s ->
  exists db s', from_db (Db.open DB_NAME) s = Ret (Ok db, s') /\ holds_open m db s'.
Proof.
  intros (kv & Hd & Hw). destruct (db_open_inv K DB_NAME s kv Hd) as (db & s' & E & Hn & Hi).
  exists db, s'. split; [unfold from_db; by erewrite pbind_Ret by done|]. by exists kv.
Qed.

Lemma put_holds m db s i ent :
  holds_open m db s -> wallet_key i ∈ K -> len ent = 32 ->
  exists db' s', client_put db (mkWallet i ent) s = Ret ((Ok tt, db'), s') /\
    holds (<[i := ent]> m) s'.
Proof.
  intros (kv & Hn & Hi & [Hs Hnone]) HK Hl. destruct (wallets_fit i ent Hl) as [b Hb].
  assert (wallet_key i <> name db) as Hne by (rewrite Hn; apply wallet_key_not_name).
  destruct (inv_put K db s kv (wallet_key i) b keys_fit Hi (keys_short _ HK) Hne HK)
    as (db' & s' & E & Hn' & Hi'); [by eapply serialize_len|].
  exists db', s'. split; [unfold client_put; by rewrite Hb|].
  apply (holds_close _ db'). exists (<[wallet_key i := b]> kv).
  split; [congruence|]. split; [done|]. split; intros j.
  - intros ent' Hj. destruct (decide (j = i)) as [->|Hne'].
    + rewrite lookup_insert_eq in Hj. injection Hj as <-. split; [done|]. exists b.
      by rewrite lookup_insert_eq.
    + rewrite lookup_insert_ne in Hj by done. destruct (Hs j ent' Hj) as [Hl' (b' & Hb' & Hk')].
      split; [done|]. exists b'. rewrite lookup_insert_ne; [done|]. by intros ?%wallet_key_inj.
  - intros Hj. destruct (decide (j = i)) as [->|Hne']; [by rewrite lookup_insert_eq in Hj|].
    rewrite lookup_insert_ne in Hj by done. rewrite lookup_insert_ne; [by apply Hnone|].
    by intros ?%wallet_key_inj.
Qed.

Lemma delete_holds m db s (i : Uuid) :
  holds_open m db s ->
  exists db' s', client_delete_entry (V := Wallet) db i s
      = Ret ((match m !! i with Some _ => Ok tt | None => Err KeyNotFound end, db'), s') /\
    holds (delete i m) s'.
Proof.
  intros (kv & Hn & Hi & [Hs Hnone]).
  assert (client_delete_entry (V := Wallet) db i = Db.delete db (wallet_key i)) as -> by done.
  pose proof (run_db_op_refines K (DDelete (wallet_key i)) db s kv keys_fit Hi I)
    as (db' & s' & E & Hn' & Hi'). cbn [run_db_op spec_db_op] in E, Hi'.
  apply pbind_inv in E as ([r db1] & s1 & E1 & E2). injection E2 as Hr <- <-. cbn in Hr.
  exists db1, s1. rewrite E1. split.
  - destruct (m !! i) as [ent|] eqn:Hm.
    + destruct (Hs i ent Hm) as [_ (b & _ & Hk)]. rewrite Hk in Hr. by injection Hr as ->.
    + rewrite (Hnone i Hm) in Hr. by injection Hr as ->.
  - apply (holds_close _ db1).
    assert (holds_open (delete i m) db1 s1); [|done].
    exists (delete (wallet_key i) kv). split; [cbn in Hn'; congruence|]. split.
    { destruct (kv !! wallet_key i) eqn:Hk; [done|]. by rewrite delete_id. }
    split; intros j.
    + intros ent [Hne Hj]%lookup_delete_Some. destruct (Hs j ent Hj) as [Hl (b & Hb & Hk)].
      split; [done|]. exists b. rewrite lookup_delete_ne; [done|]. by intros ?%wallet_key_inj.
    + intros Hj. destruct (decide (j = i)) as [->|Hne]; [by rewrite lookup_delete_eq|].
      rewrite lookup_delete_ne in Hj by done. rewrite lookup_delete_ne; [by apply Hnone|].
      by intros ?%wallet_key_inj.
Qed.

Lemma get_holds m db s (i : Uuid) :
  holds_open m db s ->
  exists s', client_get (V := Wallet) db i s
      = Ret (match m !! i with
             | Some ent => Ok (mkWallet i ent)
             | None => Err KeyNotFound
             end, s') /\ holds m s'.
Proof.
  intros (kv & Hn & Hi & [Hs Hnone]).
  assert (client_get (V := Wallet) db i
    = let? v := Db.get db (wallet_key i) in pret (deserialize v)) as -> by done.
  destruct (inv_get K db s kv (wallet_key i) Hi) as (s' & E & Hi'). exists s'.
  split; [|apply (holds_close _ db); by exists kv].
  destruct (m !! i) as [ent|] eqn:Hm.
  - destruct (Hs i ent Hm) as [_ (b & Hb & Hk)]. rewrite Hk in E. erewrite ptry_Ok by exact E.
    by rewrite (deserialize_serialize _ _ Hb).
  - rewrite (Hnone i Hm) in E. by erewrite ptry_Err by exact E.
Qed.

(** ** What the TA answers *)

Definition reply_of {U} `{!Bincode U} (r : result U error) : result bytes error :=
  try u := r in map_err FromDb (serialize u).

(** A command whose input does not decode changes nothing. *)
Definition on_input {T U} `{!Bincode T, !Bincode U} (input : bytes) (m : gmap Uuid bytes)
    (f : T -> result U error * gmap Uuid bytes) : result bytes error * gmap Uuid bytes :=
  match deserialize input with
  | Err e => (Err (FromDb e), m)
  | Ok i => (reply_of (f i).1, (f i).2)
  end.

Definition spec_create (ent rnd : bytes) (m : gmap Uuid bytes) (_ : CreateWalletInput)
    : result CreateWalletOutput error * gmap Uuid bytes :=
  let i := from_random_bytes rnd in
  (Ok (mkCreateWalletOutput i (phrase (from_entropy ent))), <[i := ent]> m).

Definition spec_remove (m : gmap Uuid bytes) (i : RemoveWalletInput)
    : result RemoveWalletOutput error * gmap Uuid bytes :=
  (match m !! ri_wallet_id i with
   | Some _ => Ok mkRemoveWalletOutput
   | None => Err (FromDb KeyNotFound)
   end, delete (ri_wallet_id i) m).

Definition find_wallet (text : string) (m : gmap Uuid bytes) (i : Uuid) : result bytes error :=
  ok_or (m !! i) (MessageOf text (FromDb KeyNotFound)).

Definition spec_derive (m : gmap Uuid bytes) (i : DeriveAddressInput)
    : result DeriveAddressOutput error * gmap Uuid bytes :=
  (try ent := find_wallet "[+] Deriving address: error: wallet not found: " m (di_wallet_id i) in
   try r := address_of ent (di_hd_path i) in
   Ok (mkDeriveAddressOutput r.1 r.2), m).

Definition spec_sign (m : gmap Uuid bytes) (i : SignTransactionInput)
    : result SignTransactionOutput error * gmap Uuid bytes :=
  (try ent := find_wallet "[+] Sign transaction: error: wallet not found: " m (si_wallet_id i) in
   try r := signature_of ent (si_hd_path i) (si_transaction i) in
   Ok (mkSignTransactionOutput r), m).

(** [ent] and [rnd] are what the random source gives, should a wallet be created. *)
Definition answer (ent rnd : bytes) (c : Command) (input : bytes) (m : gmap Uuid bytes)
    : result bytes error * gmap Uuid bytes :=
  match c with
  | Command.CreateWallet => on_input input m (spec_create ent rnd m)
  | Command.RemoveWallet => on_input input m (spec_remove m)
  | Command.DeriveAddress => on_input input m (spec_derive m)
  | Command.SignTransaction => on_input input m (spec_sign m)
  | Command.Unknown => (Err (Message "Unsupported command"), m)
  end.

(** [h] answers [r] and leaves [m] in the storage. *)
Definition yields {U} (h : prog St (result U error)) (s : St)
    (r : result U error * gmap Uuid bytes) : Prop :=
  exists s', h s = Ret (r.1, s') /\ holds r.2 s'.

(** ** The handlers *)

Lemma new_wallet_spec s :
  exists ent rnd s', new s = Ret (Ok (mkWallet (from_random_bytes rnd) ent), s') /\
    len ent = 32 /\ len rnd = 16 /\ wallet_key (from_random_bytes rnd) ∈ K /\ unchanged s s'.
Proof.
  unfold new, Random.generate. rewrite !len_zeros by done.
  destruct (random_spec 32 s) as (ent & s1 & E1 & Hl1 & Hu1); [done|].
  destruct (random_spec 16 s1) as (rnd & s2 & E2 & Hl2 & Hu2); [done|].
  erewrite pbind_Ret by done. erewrite pbind_Ret by done. unfold try_into_array. rewrite Hl2.
  exists ent, rnd, s2. split_and!; [done..|by eapply ids_in_K|].
  destruct Hu1 as [H1' H2'], Hu2 as [H3' H4']. split; congruence.
Qed.

Lemma create_spec m s :
  holds m s -> exists ent rnd, len ent = 32 /\ len rnd = 16 /\
    forall i, yields (create_wallet wallet_type_name i) s (spec_create ent rnd m i).
Proof.
  intros Hs. destruct (new_wallet_spec s) as (ent & rnd & s1 & E1 & Hl & Hr & HK & Hu).
  exists ent, rnd. split; [done|]. split; [done|]. intros i. unfold yields, create_wallet.
  erewrite ptry_Ok by done. unfold get_mnemonic. cbn [entropy]. rewrite array_32 by done.
  erewrite ptry_Ok by done. destruct (open_holds m s1) as (db & s2 & E2 & Ho);
    [by eapply holds_unchanged|]. erewrite ptry_Ok by done.
  destruct (put_holds m db s2 (from_random_bytes rnd) ent Ho HK Hl) as (db' & s3 & E3 & Hs3).
  erewrite pbind_Ret by exact E3. by exists s3.
Qed.

Lemma remove_spec m s i :
  holds m s -> yields (remove_wallet wallet_type_name i) s (spec_remove m i).
Proof.
  intros Hs. unfold yields, remove_wallet.
  destruct (open_holds m s Hs) as (db & s1 & E1 & Ho). erewrite ptry_Ok by done.
  destruct (delete_holds m db s1 (ri_wallet_id i) Ho) as (db' & s2 & E2 & Hs2).
  erewrite pbind_Ret by exact E2. exists s2. cbn [spec_remove fst snd].
  by destruct (m !! ri_wallet_id i).
Qed.

Lemma load_wallet_spec text m s i :
  holds m s -> exists s', holds m s' /\
    load_wallet wallet_type_name text i s
      = Ret (result_map (mkWallet i) (find_wallet text m i), s') .
Proof.
  intros Hs. unfold load_wallet.
  destruct (open_holds m s Hs) as (db & s1 & E1 & Ho). erewrite ptry_Ok by done.
  destruct (get_holds m db s1 i Ho) as (s2 & E2 & Hs2). erewrite pbind_Ret by exact E2.
  exists s2. split; [done|]. unfold find_wallet. by destruct (m !! i).
Qed.

(** The seeds that are stored have the length of a seed. *)
Lemma holds_len m s i ent : holds m s -> m !! i = Some ent -> len ent = 32.
Proof. intros (kv & _ & [Hs _]) Hm. by destruct (Hs i ent Hm). Qed.

Lemma derive_spec m s i :
  holds m s -> yields (derive_address_cmd wallet_type_name i) s (spec_derive m i).
Proof.
  intros Hs. unfold yields, derive_address_cmd.
  destruct (load_wallet_spec "[+] Deriving address: error: wallet not found: " m s (di_wallet_id i) Hs)
    as (s1 & Hs1 & E). exists s1. split; [|done]. unfold spec_derive, find_wallet in *. cbn [fst].
  destruct (m !! di_wallet_id i) as [ent|] eqn:Hm; [|by erewrite ptry_Err by exact E].
  erewrite ptry_Ok by exact E. cbn [ok_or result_bind].
  rewrite derive_address_of by (by eapply holds_len). by destruct (address_of ent _).
Qed.

Lemma sign_spec m s i :
  holds m s -> yields (sign_transaction_cmd wallet_type_name i) s (spec_sign m i).
Proof.
  intros Hs. unfold yields, sign_transaction_cmd.
  destruct (load_wallet_spec "[+] Sign transaction: error: wallet not found: " m s (si_wallet_id i) Hs)
    as (s1 & Hs1 & E). exists s1. split; [|done]. unfold spec_sign, find_wallet in *. cbn [fst].
  destruct (m !! si_wallet_id i) as [ent|] eqn:Hm; [|by erewrite ptry_Err by exact E].
  erewrite ptry_Ok by exact E. cbn [ok_or result_bind].
  rewrite sign_transaction_of by (by eapply holds_len). by destruct (signature_of ent _ _).
Qed.

Lemma process_spec {T U} `{!Bincode T, !Bincode U} (handler : T -> prog St (result U error))
    input m s f :
  holds m s -> (forall i, yields (handler i) s (f i)) ->
  yields (process input handler) s (on_input input m f).
Proof.
  intros Hs Hf. unfold yields, process, on_input. destruct (deserialize input) as [i|e].
  - erewrite ptry_Ok by done. destruct (Hf i) as (s' & E & Hs'). exists s'. split; [|done].
    unfold reply_of. cbn [fst]. destruct (f i).1 as [u|e].
    + by erewrite ptry_Ok by exact E.
    + by erewrite ptry_Err by exact E.
  - exists s. by erewrite ptry_Err by done.
Qed.

(** What the random source gives for one command. *)
Definition draw_ok (d : bytes * bytes) : Prop := len d.1 = 32 /\ len d.2 = 16.

Lemma handle_spec m s c input :
  holds m s -> exists d, draw_ok d /\
    yields (handle_invoke wallet_type_name c input) s (answer d.1 d.2 c input m).
Proof.
  intros Hs. destruct (create_spec m s Hs) as (ent & rnd & Hl & Hr & Hc).
  exists (ent, rnd). split; [done|]. destruct c; cbn [handle_invoke answer fst snd].
  - by apply process_spec.
  - apply process_spec; [done|]. intros i. by apply remove_spec.
  - apply process_spec; [done|]. intros i. by apply derive_spec.
  - apply process_spec; [done|]. intros i. by apply sign_spec.
  - by exists s.
Qed.

(** ** Invocations *)

Record request : Type := mkRequest { rq_cmd : Z; rq_input : bytes; rq_capacity : Z }.

Definition carries (r : request) (call : Z * Z * world) : Prop :=
  let '(cmd, types, w) := call in
  length (raws w) = 4%nat /\ cmd = rq_cmd r /\
  types = TEE_PARAM_TYPES TEE_PARAM_TYPE_MEMREF_INPUT TEE_PARAM_TYPE_MEMREF_OUTPUT 0 0 /\
  in_buffer w 0 (rq_input r) /\ out_buffer w 1 (rq_capacity r).

(** The text of an error goes where the output would. *)
Definition sent (r : result bytes error) : bytes :=
  match r with Ok out => out | Err e => debug e end.

(** What the client gets back.  An answer that does not fit is dropped (what the
    command did stays done), with a reported size of zero. *)
Definition gives (cap : Z) (r : result bytes error) (call : Z * Z * world) (res : Z * world)
    : Prop :=
  let w := call.2 in let '(code, w') := res in
  if cap <? len (sent r) then
    code = TEE_ERROR_SHORT_BUFFER /\ wmem w' = wmem w /\ reported_size w' 1 = Some 0
  else
    code = (match r with Ok _ => TEE_SUCCESS | Err _ => TEE_ERROR_BAD_PARAMETERS end) /\
    outputs 1 (sent r) w w'.

(** The world after [set_updated_size(0)]. *)
Lemma cleared_spec (s : St) w c b :
  raws w !! 1%nat = Some (mkParam b c) -> valid_buffer w b c ->
  exists w0, on_params (set_updated_size (mkMemrefOutput c 1) 0) (s, w) = Ret (Ok tt, (s, w0)) /\
    wmem w0 = wmem w /\ raws w0 !! 1%nat = Some (mkParam b 0) /\
    (forall i, i <> 1%nat -> raws w0 !! i = raws w !! i).
Proof.
  intros Hi (_ & Hc & _).
  destruct (set_updated_size_spec (mkMemrefOutput c 1) w b c 0) as [[? _]|[_ (raw & Hr & E & _)]];
    [by split; [done|exists c]|lia|].
  cbn in Hr. rewrite Hi in Hr. injection Hr as <-.
  eexists. split; [apply on_params_Ret; exact E|]. split_and!; [done| |].
  - cbn. by rewrite list_lookup_insert_eq by (by eapply lookup_lt_Some).
  - intros i Hne. cbn. by rewrite list_lookup_insert_ne.
Qed.

Lemma send_spec (s : St) w w0 c b l :
  wmem w0 = wmem w -> raws w !! 1%nat = Some (mkParam b c) ->
  raws w0 !! 1%nat = Some (mkParam b 0) ->
  (forall i, i <> 1%nat -> raws w0 !! i = raws w !! i) -> valid_buffer w b c ->
  if c <? len l
  then on_params (set_output (mkMemrefOutput c 1) l) (s, w0) = Ret (bail ErrorKind.ShortBuffer, (s, w0))
  else exists w', on_params (set_output (mkMemrefOutput c 1) l) (s, w0) = Ret (Ok tt, (s, w')) /\
    outputs 1 l w w'.
Proof.
  intros Hm Hi Hi0 Hne Hv. assert (valid_buffer w0 b c) as Hv0 by (unfold valid_buffer; by rewrite Hm).
  case_if.
  - apply on_params_Ret. apply (write_at_short _ w0 b c 0 l); [by split; [done|exists 0]| |lia].
    by destruct Hv as (? & ? & ? & _); lia.
  - destruct (output_spec s w0 1 c b 0 l Hi0 Hv0) as (w' & E & Hr & raw & Hraw & Hh & Hs & Hj); [lia|].
    exists w'. split; [done|]. split; [done|]. exists (mkParam b c).
    rewrite Hi0 in Hraw. injection Hraw as <-. rewrite <- Hm. split_and!; [done..|].
    intros j Hj1. by rewrite Hj, Hne.
Qed.

(** The typed parameters of the entry point. *)
Lemma wallet_params w l c :
  in_buffer w 0 l -> out_buffer w 1 c ->
  from_raw_tuple (A := ParameterMemrefInput) (B := ParameterMemrefOutput) (C := ParameterNone)
      (D := ParameterNone)
      (TEE_PARAM_TYPES TEE_PARAM_TYPE_MEMREF_INPUT TEE_PARAM_TYPE_MEMREF_OUTPUT 0 0) w
    = Ret (Ok (mkMemrefInput 0, mkMemrefOutput c 1, mkParameterNone, mkParameterNone), w).
Proof.
  intros Hi Ho. unfold from_raw_tuple. erewrite ptry_Ok by (by eapply typed_input).
  by erewrite ptry_Ok by (by apply typed_output).
Qed.

(** One request through the generated entry point. *)
Lemma wallet_invocation r cmd types w m s boxes :
  holds m s -> carries r (cmd, types, w) ->
  exists d code s' w', draw_ok d /\
    entry wallet_type_name debug cmd types (mkTa s w boxes) = Ret (code, mkTa s' w' boxes) /\
    gives (rq_capacity r) (answer d.1 d.2 (Command.from (rq_cmd r)) (rq_input r) m).1
      (cmd, types, w) (code, w') /\
    holds (answer d.1 d.2 (Command.from (rq_cmd r)) (rq_input r) m).2 s'.
Proof.
  intros Hs (_ & -> & -> & Hin & (b & Hi & Hb & Hv)).
  destruct (handle_spec m s (Command.from (rq_cmd r)) (rq_input r) Hs) as (d & Hd & s1 & E & Hs1).
  set (a := answer _ _ _ _ _) in *.
  destruct (cleared_spec s w (rq_capacity r) b Hi Hv) as (w0 & E0 & Hm & Hi0 & Hne).
  assert (in_buffer w0 0 (rq_input r)) as Hin0.
  { destruct Hin as (b' & Hi' & Hb' & Hv' & Hl' & Hh'). exists b'. rewrite Hne by done.
    unfold valid_buffer. by rewrite Hm. }
  pose proof (send_spec s1 w w0 (rq_capacity r) b (sent a.1) Hm Hi Hi0 Hne Hv) as Hsend.
  enough (exists res w', invoke_command wallet_type_name debug (rq_cmd r)
      (mkMemrefInput 0, mkMemrefOutput (rq_capacity r) 1, mkParameterNone, mkParameterNone) (s, w)
      = Ret (res, (s1, w')) /\
    gives (rq_capacity r) a.1 (rq_cmd r, TEE_PARAM_TYPES 5 6 0 0, w) (code_of res, w'))
    as (res & w' & Ei & Hg).
  { exists d, (code_of res), s1, w'. split; [done|]. split; [|done].
    unfold entry, TA_InvokeCommandEntryPoint0, run_params, run_user, pbind. cbn [ew eg].
    erewrite wallet_params; [|exact Hin|by exists b]. cbn -[invoke_command]. by rewrite Ei. }
  unfold invoke_command. erewrite ptry_Ok by exact E0.
  erewrite pbind_Ret by (by apply read_input_spec). erewrite pbind_Ret by (by apply on_tee_Ret).
  unfold gives. cbn [snd]. destruct (rq_capacity r <? len (sent a.1)) eqn:Hc.
  - exists (bail ErrorKind.ShortBuffer), w0.
    destruct a.1 as [out|e]; cbn [sent] in Hsend; erewrite ptry_Err by exact Hsend;
      (split; [done|split_and!; [done|done|unfold reported_size; by rewrite Hi0]]).
  - destruct Hsend as (w' & Es & Ho).
    destruct a.1 as [out|e]; cbn [sent] in Es, Ho; erewrite ptry_Ok by exact Es; by eexists _, w'.
Qed.

(** The wallets and the answers of a list of requests, given what is drawn. *)
Fixpoint answers (ds : list (bytes * bytes)) (rs : list request) (m : gmap Uuid bytes)
    : list (result bytes error) * gmap Uuid bytes :=
  match ds, rs with
  | d :: ds', r :: rs' =>
      let a := answer d.1 d.2 (Command.from (rq_cmd r)) (rq_input r) m in
      let rest := answers ds' rs' a.2 in (a.1 :: rest.1, rest.2)
  | _, _ => ([], m)
  end.

(** What the client gets for each request. *)
Fixpoint all_given (rs : list request) (calls : list (Z * Z * world))
    (answers : list (result bytes error)) (results : list (Z * world)) : Prop :=
  match rs, calls, answers, results with
  | r :: rs', call :: calls', a :: answers', res :: results' =>
      gives (rq_capacity r) a call res /\ all_given rs' calls' answers' results'
  | [], [], [], [] => True
  | _, _, _, _ => False
  end.

(** C4: the wallet TA keeps a map from wallet identifiers to seeds, on a storage on
    which nothing fails that does not have to, and for keys of at most 64 bytes and
    key lists and wallets that can be serialised: any sequence of requests sent
    through the generated entry point (creating, removing, deriving an address,
    signing, unknown commands, inputs that do not decode) is answered as the map
    answers it, for the random values drawn. A created wallet's mnemonic, every
    address and every signature are the reference functions of the seed stored at
    creation, until the wallet is removed; then, and for identifiers never created,
    the answer is the error. The answer, or the error's text with [BadParameters],
    is in the client's buffer with its size; when it does not fit, the code is
    [ShortBuffer] and the reported size zero, while a created wallet stays and a
    removed one is gone. No request panics. *)
Theorem eth_wallet_refines_map reqs calls m s :
  holds m s -> Forall2 carries reqs calls ->
  exists ds results s', length ds = length reqs /\ Forall draw_ok ds /\
    serve (entry wallet_type_name debug) calls s = Ret (results, s') /\
    all_given reqs calls (answers ds reqs m).1 results /\
    holds (answers ds reqs m).2 s'.
Proof.
  intros Hs Hc. revert m s Hs.
  induction Hc as [|r [[cmd types] w] reqs calls Hc _ IH]; intros m s Hs.
  - exists [], [], s. by split_and!.
  - destruct (wallet_invocation r cmd types w m s ∅ Hs Hc)
      as (d & code & s1 & w' & Hd & E & Hg & Hs1).
    destruct (IH _ _ Hs1) as (ds & results & s2 & Hl & Hds & E2 & Hgs & Hs2).
    exists (d :: ds), ((code, w') :: results), s2. split; [cbn; congruence|].
    split; [by constructor|]. cbn [serve]. rewrite E. cbn [outcome_bind eg ew fst snd].
    rewrite E2. done.
Qed.

End Store.

(** ** A session on the storage in memory *)

Module WalletExamples.
Import RamStorage SecureDbExamples.

#[local] Instance ex_target : Target := 64.
#[local] Instance ex_target_ok : TargetOk := aarch64_ok.
#[local] Instance ex_memmove : TeeMemMove := plain_memmove.
#[local] Instance ex_memmove_ok : TeeMemMoveOk := plain_memmove_ok.
#[local] Existing Instances keys_bincode keys_bincode_ok ex_iter ex_iter_ok.

(** Identifiers are numbers; the "cryptography" keeps what the laws ask for. *)
#[local] Instance ex_crates : EthCrates := {|
  Uuid := Z;
  from_random_bytes l := default 0 (head l);
  uuid_to_string i := [i];
  crate_error := unit;
  Mnemonic := bytes;
  from_entropy e := e;
  phrase m := rev m;
  to_seed m pw := (m ++ pw)%list;
  DerivationPath := bytes;
  parse_path p := match p with 109 :: p' => Ok p' | _ => Err tt end;
  XPrv := bytes;
  derive_from_path s p := Ok (s ++ p)%list;
  xprv_to_bytes x := x;
  xprv_public_key x := take 4 (rev x);
  PublicKey := bytes;
  public_key_from_slice k := Ok k;
  serialize_uncompressed k := take 65 (4 :: k ++ zeros 64)%list;
  Keccak256 d := take 32 (d ++ zeros 32)%list;
  EcdsaSig := bytes;
  tx_ecdsa t k := Ok (lt_nonce t :: take 1 k)%list;
  tx_sign t s := s;
|}.

#[local] Instance ex_crates_ok : EthCratesOk.
Proof.
  split.
  - intros i j Hij. by injection Hij.
  - intros pk. unfold serialize_uncompressed. cbn -[take zeros]. unfold len.
    rewrite length_take. cbn [length]. rewrite length_app. unfold zeros. rewrite length_replicate. lia.
  - intros d. unfold Keccak256. cbn -[take zeros]. unfold len.
    rewrite length_take, length_app. unfold zeros. rewrite length_replicate. lia.
Qed.

#[local] Instance ex_random : TeeRandom ram := fun n s => Ret (replicate (Z.to_nat n) 7, s).
#[local] Instance ex_random_ok : TeeRandomOk ram.
Proof.
  intros n s Hn. eexists _, s. split; [done|]. split; [|done].
  unfold len. rewrite length_replicate. lia.
Qed.

#[local] Instance ex_wallet_bincode : Bincode Wallet := {|
  serialize w := let b : bytes := (id w : Z) :: entropy w in
                 if len b <? 2 ^ (ptr_bits - 1) then Ok b else Err BincodeError;
  deserialize b := match b with i :: e => Ok (mkWallet i e) | [] => Err BincodeError end;
|}.
#[local] Instance ex_wallet_bincode_ok : BincodeOk Wallet.
Proof.
  split; intros [i e] b; unfold serialize, ex_wallet_bincode; case_if; intros [= <-]; done.
Qed.

#[local] Instance ex_create_in : Bincode CreateWalletInput :=
  {| serialize _ := Ok []; deserialize _ := Ok mkCreateWalletInput |}.
#[local] Instance ex_create_out : Bincode CreateWalletOutput :=
  {| serialize o := Ok (co_wallet_id o :: co_mnemonic o); deserialize _ := Err BincodeError |}.
#[local] Instance ex_remove_in : Bincode RemoveWalletInput := {|
  serialize i := Ok [ri_wallet_id i];
  deserialize b := match b with i :: _ => Ok (mkRemoveWalletInput i) | [] => Err BincodeError end |}.
#[local] Instance ex_remove_out : Bincode RemoveWalletOutput :=
  {| serialize _ := Ok []; deserialize _ := Ok mkRemoveWalletOutput |}.
#[local] Instance ex_derive_in : Bincode DeriveAddressInput := {|
  serialize i := Ok (di_wallet_id i :: di_hd_path i);
  deserialize b := match b with i :: p => Ok (mkDeriveAddressInput i p) | [] => Err BincodeError end |}.
#[local] Instance ex_derive_out : Bincode DeriveAddressOutput :=
  {| serialize o := Ok (do_address o ++ do_public_key o)%list; deserialize _ := Err BincodeError |}.
#[local] Instance ex_sign_in : Bincode SignTransactionInput :=
  {| serialize i := Ok []; deserialize b := Err BincodeError |}.
#[local] Instance ex_sign_out : Bincode SignTransactionOutput :=
  {| serialize o := Ok (so_signature o); deserialize _ := Err BincodeError |}.

Definition ex_debug (e : error) : bytes := [69].
Definition ex_type : key := [119; 58; 58; 87].
Definition ex_key : key := wallet_key ex_type (from_random_bytes [7]).
Definition ex_keys : gset key := {[ ex_key ]}.

Lemma ex_keys_fit : ser_total ex_keys.
Proof.
  intros ks Hks. destruct (decide (ex_key ∈ ks)) as [Hin|Hin].
  - assert (ks = ex_keys) as -> by (unfold ex_keys in *; set_solver). by eexists.
  - assert (ks = ∅) as -> by (unfold ex_keys in *; set_solver). by eexists.
Qed.

Lemma ex_keys_short k : k ∈ ex_keys -> short k.
Proof. by intros ->%elem_of_singleton. Qed.

Lemma ex_ids (s : ram) l s' :
  TEE_GenerateRandom 16 s = Ret (l, s') -> wallet_key ex_type (from_random_bytes l) ∈ ex_keys.
Proof. intros [= <- <-]. unfold ex_keys. cbn. set_solver. Qed.

Lemma ex_wallets_fit i ent : len ent = 32 -> exists b, serialize (mkWallet i ent) = Ok b.
Proof.
  intros Hl. assert (len (A := Z) ((i : Z) :: ent) = 33) as Hc by (unfold len in *; cbn [length]; lia).
  unfold serialize, ex_wallet_bincode. cbn [id entropy]. cbv zeta. rewrite Hc. by eexists.
Qed.

(** [input] in slot 0, and 64 bytes to fill behind it. *)
Definition call_world (input : bytes) : world :=
  mkWorld (buffer_at 0x1000 (input ++ zeros 64))
          [mkParam 0x1000 (len input); mkParam (0x1000 + len input) 64; mkParam 0 0; mkParam 0 0].

Lemma call_carried cmd input :
  len input < 2 ^ 31 ->
  carries (mkRequest cmd input 64) (cmd, TEE_PARAM_TYPES 5 6 0 0, call_world input).
Proof.
  intros Hl. pose proof (len_nonneg input) as Hn.
  assert (range_mapped (buffer_at 0x1000 (input ++ zeros 64)) 0x1000 (len input + 64)) as Hm.
  { pose proof (buffer_at_mapped 0x1000 (input ++ zeros 64)) as Hm. unfold len in *.
    rewrite length_app in Hm. unfold zeros in Hm. rewrite length_replicate in Hm.
    by rewrite Nat2Z.inj_add in Hm. }
  split; [done|]. split; [done|]. split; [done|]. cbn [rq_input rq_capacity]. split.
  - exists 0x1000. split; [done|]. split; [done|]. split; [|split; [done|]].
    + split_and!; [done|done|change ptr_bits with 64; lia|].
      by apply (range_mapped_sub _ 0x1000 (len input + 64)); [done|lia|lia].
    + intros k Hk. cbn [wmem call_world]. rewrite buffer_at_lookup.
      * rewrite lookup_app_l; [done|]. unfold len in *. lia.
      * unfold len in *. rewrite length_app. lia.
  - exists (0x1000 + len input). split; [done|]. split; [lia|].
    split_and!; [lia|done|change ptr_bits with 64; lia|].
    apply (range_mapped_sub _ 0x1000 (len input + 64)); [done|lia|lia].
Qed.

(** Create a wallet, derive an address, remove the wallet, try again. *)
Definition ex_session : list request :=
  [mkRequest 0 [] 64; mkRequest 2 [7; 109; 1] 64; mkRequest 1 [7] 64; mkRequest 2 [7; 109; 1] 64].
Definition ex_calls : list (Z * Z * world) :=
  (fun r => (rq_cmd r, TEE_PARAM_TYPES 5 6 0 0, call_world (rq_input r))) <$> ex_session.

Lemma ex_carried : Forall2 carries ex_session ex_calls.
Proof. repeat (constructor; [by apply call_carried|]). constructor. Qed.

Lemma no_wallets : holds ex_type ex_keys ∅ (mkRam ∅ ∅).
Proof.
  exists ∅. split.
  - apply disk_inv_empty; [done|exact ex_quiet|exact ex_sizes|done].
  - split; intros i; [intros ent Hi; by rewrite lookup_empty in Hi|by rewrite lookup_empty].
Qed.

Lemma eth_wallet_refines_map_witness :
  exists ds results s', Forall draw_ok ds /\
    serve (entry ex_type ex_debug) ex_calls (mkRam ∅ ∅) = Ret (results, s') /\
    all_given ex_debug ex_session ex_calls (answers ds ex_session ∅).1 results.
Proof.
  destruct (eth_wallet_refines_map ex_type ex_debug ex_keys ex_keys_fit ex_keys_short ex_ids ex_wallets_fit
              ex_session ex_calls ∅ (mkRam ∅ ∅) no_wallets ex_carried)
    as (ds & results & s' & _ & Hds & E & Hg & _).
  exists ds, results, s'. split_and!; [exact Hds|exact E|exact Hg].
Defined.

End WalletExamples.
