(* ===== verification/SessionTa.v ===== *)
(** * SessionTa: a session of a TA, from its opening to its end

    A client opens a session, makes one call after the other, and closes it, all
    through the generated entry points.  When every call does what a step of a
    specification says, the session does what the specification's run says. *)

From S2P Require Import Prelude TeeDefines UteeError Memory Params EntryPoints.

(** ** The specification *)

(** A step relates a request and a state to a reply and the next state, or to [None] when
    the TA panics.  There may be several: what a TEE that runs out of memory answers is up
    to it. *)
Section Run.
Context {Req Reply A : Type} (spec_step : Req -> A -> option (Reply * A) -> Prop).

Inductive spec_run : list Req -> A -> option (list Reply * A) -> Prop :=
| run_done a : spec_run [] a (Some ([], a))
| run_panics r rs a : spec_step r a None -> spec_run (r :: rs) a None
| run_step r rs a rp a' out :
    spec_step r a (Some (rp, a')) -> spec_run rs a' out ->
    spec_run (r :: rs) a ((fun x => (rp :: x.1, x.2)) <$> out).

(** When the steps are those of a function, so is the run. *)
Fixpoint answers (step : Req -> A -> option (Reply * A)) (rs : list Req) (a : A)
    : option (list Reply * A) :=
  match rs with
  | [] => Some ([], a)
  | r :: rs' => x ← step r a; (fun y => (x.1 :: y.1, y.2)) <$> answers step rs' x.2
  end.

Lemma run_answers step rs a out :
  (forall r a out, spec_step r a out -> out = step r a) ->
  spec_run rs a out -> out = answers step rs a.
Proof.
  intros Hs. induction 1 as [a|r rs a Hn|r rs a rp a' out Hr _ IH]; cbn [answers]; [done| |].
  - by rewrite <- (Hs _ _ _ Hn).
  - rewrite <- (Hs _ _ _ Hr). cbn. by rewrite IH.
Qed.

End Run.

Section Session.
Context `{!Allocator, !AllocatorOk}.
Context {G P0 P Ctx : Type}.
Context (open_raws : Z -> prog world (Result P0)) (from_raws : Z -> prog world (Result P)).
Context (ctx_default : prog (G * world) Ctx) (ctx_drop : Ctx -> prog (G * world) unit).
Context (user_open : P0 -> Ctx -> prog (G * world) (Result unit * Ctx)).
Context (user_invoke : Ctx -> Z -> P -> prog (G * world) (Result unit * Ctx)).
Context (user_close : Ctx -> prog (G * world) Ctx).

(** ** The session *)

(** Every call comes with parameters of its own.  The results, and the TEE and the
    boxes of contexts afterwards. *)
Fixpoint invoke_all (sess : Z) (calls : list (Z * Z * world)) (g : G) (bs : gmap Z Ctx)
    : outcome (list (Z * world) * (G * gmap Z Ctx)) :=
  match calls with
  | [] => Ret ([], (g, bs))
  | (cmd, types, w) :: calls' =>
      let! r := TA_InvokeCommandEntryPoint from_raws user_invoke sess cmd types (mkTa g w bs) in
      let! rs := invoke_all sess calls' (eg r.2) (boxes r.2) in
      Ret ((r.1, ew r.2) :: rs.1, rs.2)
  end.

(** A session opened with the types [types0]; [None] when it is not opened. *)
Definition session (types0 : Z) (w0 : world) (calls : list (Z * Z * world)) (w1 : world)
    (g : G) (bs : gmap Z Ctx) : outcome (option (list (Z * world)) * (G * gmap Z Ctx)) :=
  let! r := TA_OpenSessionEntryPoint open_raws ctx_default ctx_drop user_open types0
              (mkTa g w0 bs) in
  match r.1 with
  | (_, Some sess) =>
      let! rs := invoke_all sess calls (eg r.2) (boxes r.2) in
      let! c := TA_CloseSessionEntryPoint ctx_drop user_close sess (mkTa rs.2.1 w1 rs.2.2) in
      Ret (Some rs.1, (eg c.2, boxes c.2))
  | (_, None) => Ret (None, (eg r.2, boxes r.2))
  end.

(** ** What the client sees *)

Context {Req Reply A : Type} (spec_step : Req -> A -> option (Reply * A) -> Prop).
(** The request a call carries, and how a reply is found in the parameters. *)
Context (carries : Req -> Z * Z * world -> Prop).
Context (gives : Reply -> world -> world -> Z -> Prop).

Definition all_given : list Reply -> list (Z * Z * world) -> list (Z * world) -> Prop :=
  Forall3 (fun rp call result => gives rp call.2 result.2 result.1).

(** The context and the TEE stand for an abstract state. *)
Context (rep : Ctx -> G -> A -> Prop).

(** A handler that does a step of [r]. *)
Definition steps (h : prog (G * world) (Result unit * Ctx)) (r : Req) (a : A) (g : G) (w : world)
    : Prop :=
  exists out, spec_step r a out /\
  match out with
  | None => h (g, w) = Panic
  | Some (rp, a') =>
      exists res ctx' g' w', h (g, w) = Ret ((res, ctx'), (g', w')) /\
        gives rp w w' (code_of res) /\ rep ctx' g' a'
  end.

Definition invoke_refines : Prop :=
  forall ctx g a r cmd types w, rep ctx g a -> carries r (cmd, types, w) ->
  exists ps, from_raws types w = Ret (Ok ps, w) /\ steps (user_invoke ctx cmd ps) r a g w.

Lemma invoke_steps r a g w cmd types bs sess ctx :
  invoke_refines -> rep ctx g a -> carries r (cmd, types, w) -> sess <> 0 ->
  bs !! sess = Some ctx ->
  exists out, spec_step r a out /\
  match out with
  | None =>
      TA_InvokeCommandEntryPoint from_raws user_invoke sess cmd types (mkTa g w bs) = Panic
  | Some (rp, a') =>
      exists code ctx' g' w',
        TA_InvokeCommandEntryPoint from_raws user_invoke sess cmd types (mkTa g w bs)
          = Ret (code, mkTa g' w' (<[sess := ctx']> bs)) /\
        gives rp w w' code /\ rep ctx' g' a'
  end.
Proof.
  intros Hr Hrep Hc Hs Hb. destruct (Hr ctx g a r cmd types w Hrep Hc) as (ps & Ep & Hstep).
  unfold TA_InvokeCommandEntryPoint. rewrite (proj2 (Z.eqb_neq _ _) Hs).
  erewrite pbind_Ret by (unfold run_params; cbn [ew eg]; by rewrite Ep). cbv iota.
  erewrite pbind_Ret by (unfold box_from_raw; cbn [EntryPoints.boxes]; by rewrite Hb).
  destruct Hstep as (out & Hstep & Hout). exists out. split; [done|].
  destruct out as [[rp a']|].
  - destruct Hout as (res & ctx' & g' & w' & E & Hg & Hrep').
    erewrite pbind_Ret by (unfold run_user; cbn [ew eg]; by rewrite E).
    exists (code_of res), ctx', g', w'. split; [|done]. by destruct res.
  - unfold pbind at 1. unfold run_user. cbn [ew eg]. by rewrite Hout.
Qed.

Lemma invoke_all_steps sess rs calls :
  invoke_refines -> sess <> 0 -> Forall2 carries rs calls ->
  forall ctx g a bs, rep ctx g a -> bs !! sess = Some ctx ->
  exists out, spec_run spec_step rs a out /\
  match out with
  | None => invoke_all sess calls g bs = Panic
  | Some (rps, a') =>
      exists results ctx' g', invoke_all sess calls g bs
          = Ret (results, (g', <[sess := ctx']> bs)) /\
        all_given rps calls results /\ rep ctx' g' a'
  end.
Proof.
  intros Hr Hs Hall.
  induction Hall as [|r [[cmd types] w] rs calls Hc _ IH]; intros ctx g a bs Hrep Hb.
  - exists (Some ([], a)). split; [constructor|]. exists [], ctx, g.
    split; [cbn; by rewrite insert_id|]. split; [constructor|done].
  - cbn [invoke_all].
    destruct (invoke_steps r a g w cmd types bs sess ctx Hr Hrep Hc Hs Hb) as (out & Hst & Hi).
    destruct out as [[rp a1]|]; [|exists None; split; [by constructor|by rewrite Hi]].
    destruct Hi as (code & ctx1 & g1 & w1 & -> & Hg & Hrep1).
    cbn [outcome_bind eg ew boxes fst snd].
    destruct (IH ctx1 g1 a1 (<[sess := ctx1]> bs) Hrep1 (lookup_insert_eq _ _ _)) as (out & Hrun & Ho).
    eexists. split; [by eapply run_step|]. destruct out as [[rps a2]|]; cbn; [|by rewrite Ho].
    destruct Ho as (results & ctx2 & g2 & -> & Hgs & Hrep2).
    exists ((code, w1) :: results), ctx2, g2. cbn [outcome_bind fst snd].
    rewrite insert_insert_eq. split; [done|]. split; [by constructor|done].
Qed.

(** Opening makes a context that stands for [a0]. *)
Definition opens (types0 : Z) (w0 : world) (g g0 : G) (a0 : A) : Prop :=
  exists ps ctx ctx' g1, open_raws types0 w0 = Ret (Ok ps, w0) /\
    ctx_default (g, w0) = Ret (ctx, (g1, w0)) /\
    user_open ps ctx (g1, w0) = Ret ((Ok tt, ctx'), (g0, w0)) /\ rep ctx' g0 a0.

(** Closing a context ends in a state with [Q]. *)
Definition closes (ctx : Ctx) (g : G) (w1 : world) (Q : G -> Prop) : Prop :=
  exists ctx' g1 g2, user_close ctx (g, w1) = Ret (ctx', (g1, w1)) /\
    ctx_drop ctx' (g1, w1) = Ret (tt, (g2, w1)) /\ Q g2.

Lemma session_steps types0 w0 rs calls w1 g g0 a0 bs (Q : G -> Prop) :
  invoke_refines -> Forall2 carries rs calls -> opens types0 w0 g g0 a0 ->
  (forall ctx g' a, rep ctx g' a -> closes ctx g' w1 Q) ->
  exists out, spec_run spec_step rs a0 out /\
  match out with
  | None => session types0 w0 calls w1 g bs = Panic
  | Some (rps, _) =>
      exists results g', session types0 w0 calls w1 g bs = Ret (Some results, (g', bs)) /\
        all_given rps calls results /\ Q g'
  end.
Proof.
  intros Hr Hall (ps & ctx & ctx' & g1 & Ep & Ed & Eo & Hrep) Hclose.
  unfold session, TA_OpenSessionEntryPoint.
  erewrite pbind_Ret by (unfold run_params; cbn [ew eg]; by rewrite Ep). cbv iota.
  erewrite pbind_Ret by (unfold run_user; cbn [ew eg]; by rewrite Ed).
  erewrite pbind_Ret by (unfold run_user; cbn [ew eg boxes]; by rewrite Eo). cbv iota.
  cbn [outcome_bind fst snd eg boxes box_into_raw pbind pret].
  set (sess := alloc_addr (dom bs)).
  assert (sess <> 0) as Hs by apply alloc_nonnull.
  assert (bs !! sess = None) as Hf by (apply not_elem_of_dom, alloc_fresh). clearbody sess.
  destruct (invoke_all_steps sess rs calls Hr Hs Hall ctx' g0 a0 (<[sess := ctx']> bs)
    Hrep (lookup_insert_eq _ _ _)) as (out & Hrun & Hi).
  exists out. split; [done|]. destruct out as [[rps a]|]; [|by rewrite Hi].
  destruct Hi as (results & ctx2 & g2 & -> & Hg & Hrep2). cbn [outcome_bind fst snd].
  destruct (Hclose ctx2 g2 a Hrep2) as (ctx3 & g3 & g4 & Ec & Edr & HQ).
  unfold TA_CloseSessionEntryPoint. rewrite (proj2 (Z.eqb_neq _ _) Hs).
  erewrite pbind_Ret by (unfold box_from_raw; cbn [boxes]; by rewrite lookup_insert_eq).
  erewrite pbind_Ret by (unfold run_user; cbn [ew eg boxes]; by rewrite Ec).
  erewrite pbind_Ret by (unfold run_user; cbn [ew eg boxes]; by rewrite Edr).
  cbn [box_drop pmod outcome_bind fst snd eg ew boxes]. exists results, g4.
  by rewrite !insert_insert_eq, delete_insert_id by done.
Qed.

End Session.
