(* ===== verification/TaState.v ===== *)
(** * TaState: a TA that uses every part of the library

    The components of [optee_utee] keep different parts of a TA's state: the TEE's
    operations in boxes ([Crypto]), objects and enumerators over the TA's memory
    ([Transient]), the raw parameters and the memory they point to ([Params]).  This
    file puts them into one state, runs each component's programs on its part, and
    gives a handler the buffers ([Vec]) and the scopes (drop at the end of a block)
    that it needs. *)

From S2P Require Import Prelude TeeDefines UteeError Memory Params EntryPoints Storage Crypto.
From S2P Require Import Transient.

(** The TEE, the boxes of operation handles and those of enumerators. *)
Record side (St : Type) : Type := mkSide {
  sd_tee : St; sd_boxes : gmap Z Z; sd_enums : gmap Z Z
}.
Arguments mkSide {St} _ _ _.
Arguments sd_tee {St} _.
Arguments sd_boxes {St} _.
Arguments sd_enums {St} _.

(** An allocator of buffers that does not run out: an address whose range is free. *)
Class VecAlloc : Type := vec_addr : mem -> Z -> Z.
Class VecAllocOk `{!VecAlloc} : Prop := {
  vec_addr_nonnull m n : 0 < vec_addr m n;
  vec_addr_free m n x : vec_addr m n <= x < vec_addr m n + n -> m !! x = None;
}.

Section State.
Context {St : Type}.

Abbreviation app A := (prog (side St * world) A).

Definition on_crypto {A} (m : prog (cstate St) A) : app A :=
  fun '(s, w) =>
    match m (mkCstate (sd_tee s) (sd_boxes s)) with
    | Ret (a, c) => Ret (a, (mkSide (tee c) (handle_boxes c) (sd_enums s), w))
    | Panic => Panic
    | UB => UB
    end.

Definition on_objects {A} (m : prog (oworld St) A) : app A :=
  fun '(s, w) =>
    match m (mkOworld (sd_tee s) (wmem w) (sd_enums s)) with
    | Ret (a, o) =>
        Ret (a, (mkSide (otee o) (sd_boxes s) (enum_boxes o), mkWorld (omem o) (raws w)))
    | Panic => Panic
    | UB => UB
    end.

(** A block that owns an operation, or an object: it is dropped when the block is
    left. *)
Definition with_operation `{!TeeCrypto St} {A} (o : OperationHandle) (body : app A) : app A :=
  let* r := body in
  let* _ := on_crypto (OperationHandleOps.drop_handle o) in
  pret r.

Definition with_object `{!TeeObjects St} {A} (o : TransientObject) (body : app A) : app A :=
  let* r := body in
  let* _ := on_objects (TransientOps.drop_transient o) in
  pret r.

(** A block that owns a buffer with the bytes [l]. *)
Definition with_vec `{!VecAlloc} {A} (l : bytes) (body : Z -> app A) : app A :=
  fun '(s, w) =>
    let p := vec_addr (wmem w) (len l) in
    (let* r := body p in
     let* _ := on_objects (free_buffer p (len l)) in
     pret r) (s, mkWorld (buffer_at p l ∪ wmem w) (raws w)).

End State.

(** ** Reasoning about the parts *)

Section Laws.
Context {St : Type} `{!VecAlloc, !VecAllocOk}.

Lemma union_holds_at p l (m : mem) o n :
  0 <= o -> 0 <= n -> o + n <= len l ->
  read_range (buffer_at p l ∪ m) (p + o) (Z.to_nat n)
    = Some (take (Z.to_nat n) (drop (Z.to_nat o) l)).
Proof.
  intros Ho Hn Hle.
  assert (forall i, 0 <= i < n ->
    (buffer_at p l ∪ m) !! (p + o + i) = drop (Z.to_nat o) l !! Z.to_nat i) as Hl.
  { intros i Hi. destruct (lookup_lt_is_Some_2 l (Z.to_nat (o + i))) as [v Hv];
      [unfold len in Hle; lia|].
    rewrite lookup_drop, <- Z2Nat.inj_add, Hv by lia. apply lookup_union_Some_l.
    replace (p + o + i) with (p + (o + i)) by lia. rewrite buffer_at_lookup by lia. done. }
  destruct (read_range_spec (buffer_at p l ∪ m) (Z.to_nat n) (p + o)) as (r & E & Hlen & Hh).
  { intros x Hx. replace x with (p + o + (x - (p + o))) by lia. rewrite Hl by lia.
    apply lookup_lt_is_Some_2. rewrite length_drop. unfold len in Hle. lia. }
  rewrite E. f_equal. apply (holds_at_inj (buffer_at p l ∪ m) (p + o)); [|done|].
  - unfold len in *. rewrite length_take, length_drop. lia.
  - intros i Hi. unfold len in Hi. rewrite length_take, length_drop in Hi. rewrite Hl by lia.
    by rewrite lookup_take_lt by lia.
Qed.

Lemma union_holds p l (m : mem) n :
  0 <= n <= len l -> read_range (buffer_at p l ∪ m) p (Z.to_nat n) = Some (take (Z.to_nat n) l).
Proof.
  intros Hn. pose proof (union_holds_at p l m 0 n) as E. rewrite Z.add_0_r, drop_0 in E.
  apply E; lia.
Qed.

Lemma on_crypto_Ret {A} (m : prog (cstate St) A) t b e w a t' b' :
  m (mkCstate t b) = Ret (a, mkCstate t' b') ->
  on_crypto m (mkSide t b e, w) = Ret (a, (mkSide t' b' e, w)).
Proof. intros E. unfold on_crypto. cbn. by rewrite E. Qed.

Lemma on_objects_Ret {A} (m : prog (oworld St) A) t b e mm r a t' mm' e' :
  m (mkOworld t mm e) = Ret (a, mkOworld t' mm' e') ->
  on_objects m (mkSide t b e, mkWorld mm r) = Ret (a, (mkSide t' b e', mkWorld mm' r)).
Proof. intros E. unfold on_objects. cbn. by rewrite E. Qed.

(** A call on the operation in the box [p]. *)
Lemma boxed {A B} p h (f : Z -> prog St A) (g : A -> B) t b a t' :
  b !! p = Some h -> f h t = Ret (a, t') ->
  (let* h := OperationHandleOps.handle (mkHandle p) in
   let* x := OperationHandleOps.call (f h) in pret (g x)) (mkCstate t b)
    = Ret (g a, mkCstate t' b).
Proof.
  intros Hp E. unfold OperationHandleOps.handle, OperationHandleOps.call, pbind. cbn.
  rewrite Hp. cbn. by rewrite E.
Qed.

Lemma boxed_input p h (f : Z -> prog St unit) t b t' :
  b !! p = Some h -> f h t = Ret (tt, t') ->
  OperationHandleOps.with_input (mkHandle p) f (mkCstate t b) = Ret (tt, mkCstate t' b).
Proof.
  intros Hp E. unfold OperationHandleOps.with_input, OperationHandleOps.handle,
    OperationHandleOps.call, pbind. cbn. rewrite Hp. cbn. by rewrite E.
Qed.

(** A block with a buffer, when the block leaves the memory alone. *)
Lemma with_vec_Ret {A} l (body : Z -> prog (side St * world) A) t b e mm r (Q : A -> side St -> Prop) :
  (forall p, 0 < p -> (forall x, p <= x < p + len l -> mm !! x = None) ->
     exists a s', body p (mkSide t b e, mkWorld (buffer_at p l ∪ mm) r)
       = Ret (a, (s', mkWorld (buffer_at p l ∪ mm) r)) /\ Q a s') ->
  exists a s', with_vec l body (mkSide t b e, mkWorld mm r) = Ret (a, (s', mkWorld mm r)) /\ Q a s'.
Proof.
  intros Hbody. unfold with_vec. cbn [wmem raws].
  pose proof (vec_addr_free mm (len l)) as Hf. pose proof (vec_addr_nonnull mm (len l)) as Hp.
  set (p := vec_addr mm (len l)) in *. clearbody p.
  destruct (Hbody p Hp Hf) as (a & [t' b' e'] & E & HQ). exists a, (mkSide t' b' e').
  split; [|done]. erewrite pbind_Ret by done. unfold free_buffer, pmod.
  erewrite pbind_Ret by (by apply on_objects_Ret). cbn [otee omem enum_boxes].
  by rewrite filter_buffer.
Qed.

(** A fresh box for an operation, and its end.  When the TEE has no operation, the box
    stays. *)
Lemma op_allocate_answer `{!Allocator, !TeeCrypto St} al m n t b code h t' :
  in_u 32 n ->
  TEE_AllocateOperation (AlgorithmId.as_u32 al) (OperationMode.as_u32 m) n t
    = Ret ((code, h), t') ->
  OperationHandleOps.allocate al m n (mkCstate t b)
    = Ret (result_map (fun _ => mkHandle (alloc_addr (dom b))) (tee_check code),
           mkCstate t' (<[alloc_addr (dom b) := h]> b)).
Proof.
  intros Hn E. unfold OperationHandleOps.allocate, OperationHandleOps.box_new,
    OperationHandleOps.box_set, OperationHandleOps.call, ptry, pbind. cbn [tee handle_boxes].
  rewrite (wrap_u_small 32 n) by done. rewrite E. cbn. rewrite insert_insert_eq.
  by destruct (tee_check code).
Qed.

Lemma op_allocate_Ret `{!Allocator, !TeeCrypto St} al m n t b h t' :
  in_u 32 n ->
  TEE_AllocateOperation (AlgorithmId.as_u32 al) (OperationMode.as_u32 m) n t
    = Ret ((TEE_SUCCESS, h), t') ->
  OperationHandleOps.allocate al m n (mkCstate t b)
    = Ret (Ok (mkHandle (alloc_addr (dom b))), mkCstate t' (<[alloc_addr (dom b) := h]> b)).
Proof. intros Hn E. by rewrite (op_allocate_answer _ _ _ _ _ _ _ _ Hn E). Qed.

Lemma op_drop_Ret `{!TeeCrypto St} p h t b t' :
  p <> 0 -> b !! p = Some h -> TEE_FreeOperation h t = Ret (tt, t') ->
  OperationHandleOps.drop_handle (mkHandle p) (mkCstate t b) = Ret (tt, mkCstate t' (delete p b)).
Proof.
  intros Hp Hb E. unfold OperationHandleOps.drop_handle. cbn [oph_raw].
  rewrite (proj2 (Z.eqb_neq _ _) Hp).
  unfold OperationHandleOps.handle, OperationHandleOps.call, OperationHandleOps.box_free, pbind.
  cbn. rewrite Hb. cbn. rewrite E. cbn. by rewrite Hb.
Qed.

End Laws.
