(* ===== verification/Hotp.v ===== *)
(** * Hotp: the one-time-password TA

    Models [examples/ta/hotp-rs/src/main.rs] and [examples/ta/proto/src/hotp.rs]: the
    session context with the counter and the key, the two commands, the HMAC through
    the library's [Mac] and [TransientObject], and the truncation. *)

From S2P Require Import Prelude TeeDefines UteeError Memory Params EntryPoints Storage Crypto.
From S2P Require Import Transient TaApp SessionTa TaState.

Definition SHA1_HASH_SIZE : Z := 20.
Definition MAX_KEY_SIZE : Z := 64.
Definition MIN_KEY_SIZE : Z := 10.
Definition DBC2_MODULO : Z := 1000000.

(** ** [proto::hotp::Command] *)

Module Command.

Inductive Command : Type := RegisterSharedKey | GetHOTP | Unknown.

Definition from (x : Z) : Command :=
  if x =? 0 then RegisterSharedKey else if x =? 1 then GetHOTP else Unknown.

Definition into (c : Command) : Z :=
  match c with RegisterSharedKey => 0 | GetHOTP => 1 | Unknown => 2 end.

End Command.

(** ** The session context *)

Record HmacOtp : Type := mkHmacOtp { counter : bytes; key : bytes; key_len : Z }.

Definition default : HmacOtp := mkHmacOtp (zeros 8) (zeros MAX_KEY_SIZE) 0.

(** ** [truncate] *)

(** [hmac_result[19] & 0xf], then four bytes from there. *)
Definition truncate (hmac_result : bytes) : outcome Z :=
  let! last := index hmac_result 19 in
  let offset := Z.land last 0xf in
  let! b0 := index hmac_result offset in
  let! b1 := index hmac_result (offset + 1) in
  let! b2 := index hmac_result (offset + 2) in
  let! b3 := index hmac_result (offset + 3) in
  let bin_code :=
    Z.lor (Z.lor (Z.lor (Z.shiftl (Z.land b0 0x7f) 24) (Z.shiftl b1 16)) (Z.shiftl b2 8)) b3 in
  Ret (bin_code mod DBC2_MODULO).

(** ** The counter *)

(** [for i in (0..counter.len()).rev()]. *)
Fixpoint increment_loop `{Profile} (is_ : list nat) (counter : bytes) : outcome bytes :=
  match is_ with
  | [] => Ret counter
  | i :: is' =>
      let! x := index counter (Z.of_nat i) in
      let! x' := add_u 8 x 1 in
      let counter' := <[i := x']> counter in
      if 0 <? x' then Ret counter' else increment_loop is' counter'
  end.

Definition increment `{Profile} (counter : bytes) : outcome bytes :=
  increment_loop (rev (seq 0 (length counter))) counter.

Section Ta.
Context `{!Target, !Profile, !TeeMemMove, !Allocator, !VecAlloc}.
Context {St : Type} `{!TeeCrypto St, !TeeObjects St}.

Definition Parameters4 : Type := ParameterAny * ParameterAny * ParameterAny * ParameterAny.

(** The result of a handler and the context it leaves. *)
Abbreviation handler := (prog (side St * world) (Result unit * HmacOtp)).

(** [hotp.key[..n].copy_from_slice(&buffer)] panics when the lengths differ. *)
Definition register_shared_key (hotp : HmacOtp) (params : Parameters4) : handler :=
  let '(p0, _, _, _) := params in
  match ParameterAny.as_memref_input p0 with
  | Err e => pret (Err e, hotp)
  | Ok p0 =>
      let* buffer := on_params (read_to_vec p0) in
      if (len buffer <? MIN_KEY_SIZE) || (MAX_KEY_SIZE <? len buffer)
      then pret (bail ErrorKind.BadParameters, hotp)
      else if len (key hotp) <? len buffer then plift Panic
      else pret (Ok tt, mkHmacOtp (counter hotp) (splice (key hotp) 0 buffer) (len buffer))
  end.

(** [tmp_key] has the bytes of the whole array; its length is cut to that of the
    key.  The result, and [out] after the call. *)
Definition hmac_sha1 (hotp : HmacOtp) (out : bytes)
    : prog (side St * world) (Result Z * bytes) :=
  if (key_len hotp <? MIN_KEY_SIZE) || (MAX_KEY_SIZE <? key_len hotp)
  then pret (bail ErrorKind.BadParameters, out)
  else
    let* rm := on_crypto (Mac.allocate AlgorithmId.HmacSha1 (key_len hotp * 8)) in
    match rm with
    | Err e => pret (Err e, out)
    | Ok mac => with_operation mac (
        let* ro := on_objects (TransientOps.allocate TransientObjectType.HmacSha1
                                 (key_len hotp * 8)) in
        match ro with
        | Err e => pret (Err e, out)
        | Ok key_object => with_object key_object (with_vec (key hotp) (fun tmp_key =>
            let* attr := plift (Attribute.from_ref AttributeId.SecretValue tmp_key
                                  (key_len hotp)) in
            let* rp := on_objects (TransientOps.populate key_object [attr]) in
            match rp with
            | Err e => pret (Err e, out)
            | Ok _ =>
                let* rk := on_crypto (OperationHandleOps.set_key mac
                                        (TransientOps.raw key_object)) in
                match rk with
                | Err e => pret (Err e, out)
                | Ok _ =>
                    let* _ := on_crypto (Mac.init mac []) in
                    let* _ := on_crypto (Mac.update mac (counter hotp)) in
                    on_crypto (Mac.compute_final mac [] out)
                end
            end))
        end)
    end.

Definition get_hotp (hotp : HmacOtp) (params : Parameters4) : handler :=
  let '(p0, _, _, _) := params in
  let* r := hmac_sha1 hotp (zeros SHA1_HASH_SIZE) in
  match r with
  | (Err e, _) => pret (Err e, hotp)
  | (Ok _, mac) =>
      let* counter' := plift (increment (counter hotp)) in
      let hotp' := mkHmacOtp counter' (key hotp) (key_len hotp) in
      let* hotp_val := plift (truncate mac) in
      match ParameterAny.as_value_output p0 with
      | Err e => pret (Err e, hotp')
      | Ok p0 => let* _ := on_params (set_a p0 hotp_val) in pret (Ok tt, hotp')
      end
  end.

Definition invoke_command (sess_ctx : HmacOtp) (cmd_id : Z) (params : Parameters4) : handler :=
  match Command.from cmd_id with
  | Command.RegisterSharedKey => register_shared_key sess_ctx params
  | Command.GetHOTP => get_hotp sess_ctx params
  | Command.Unknown => pret (bail ErrorKind.BadParameters, sess_ctx)
  end.

Definition create : prog (side St * world) (Result unit) := pret (Ok tt).
Definition open_session (_params : ParameterNone * ParameterNone * ParameterNone * ParameterNone)
    (ctx : HmacOtp) : handler := pret (Ok tt, ctx).
Definition close_session (ctx : HmacOtp) : prog (side St * world) HmacOtp := pret ctx.
Definition destroy : prog (side St * world) unit := pret tt.

(** The TA's functions in the generated entry points; dropping a context does nothing. *)
Definition hotp_session : world -> list (Z * Z * world) -> world -> side St -> gmap Z HmacOtp ->
    outcome (option (list (Z * world)) * (side St * gmap Z HmacOtp)) :=
  session from_raw_tuple from_raw_tuple (pret default) (fun _ => pret tt)
    open_session invoke_command close_session (TEE_PARAM_TYPES 0 0 0 0).

End Ta.
