(* ===== verification/HotpSpec.v ===== *)
(** * HotpSpec: the one-time-password TA implements RFC 4226 *)

From S2P Require Import Prelude TeeDefines UteeError Memory Params EntryPoints Storage Crypto.
From S2P Require Import Transient ParamsSpec TransientSpec TaApp SessionTa TaState Hotp.

(** ** Dynamic truncation *)

(** RFC 4226, 5.3: the low four bits of the last byte choose four bytes, whose
    low 31 bits are the number; six digits of it are the code. *)
Definition rfc_truncate (mac : bytes) : Z :=
  let offset := be_combine (drop 19 mac) mod 16 in
  (be_combine (take 4 (drop (Z.to_nat offset) mac)) mod 2 ^ 31) mod 10 ^ 6.

Lemma index_ok (l : bytes) i : 0 <= i < len l -> exists x, index l i = Ret x /\ l !! Z.to_nat i = Some x.
Proof.
  intros Hi. unfold index. rewrite (proj2 (Z.leb_le 0 i)) by lia.
  destruct (lookup_lt_is_Some_2 l (Z.to_nat i)) as [x Hx]; [unfold len in Hi; lia|].
  exists x. by rewrite Hx.
Qed.

(** Four consecutive bytes, by their indices. *)
Lemma four_bytes (l : bytes) i b0 b1 b2 b3 :
  l !! i = Some b0 -> l !! (i + 1)%nat = Some b1 -> l !! (i + 2)%nat = Some b2 ->
  l !! (i + 3)%nat = Some b3 -> take 4 (drop i l) = [b0; b1; b2; b3].
Proof.
  intros H0 H1 H2 H3. rewrite (drop_S l b0 i) by done.
  rewrite (drop_S l b1 (S i)) by (by rewrite <- Nat.add_1_r).
  rewrite (drop_S l b2 (S (S i))) by (by replace (S (S i)) with (i + 2)%nat by lia).
  rewrite (drop_S l b3 (S (S (S i)))) by (by replace (S (S (S i))) with (i + 3)%nat by lia).
  done.
Qed.

Lemma lor_rev x y z t : Z.lor (Z.lor (Z.lor x y) z) t = Z.lor (Z.lor (Z.lor t z) y) x.
Proof.
  apply Z.bits_inj. intros n. rewrite !Z.lor_spec.
  by destruct (Z.testbit x n), (Z.testbit y n), (Z.testbit z n), (Z.testbit t n).
Qed.

Lemma bin_code_value b0 b1 b2 b3 :
  is_byte b0 -> is_byte b1 -> is_byte b2 -> is_byte b3 ->
  Z.lor (Z.lor (Z.lor (Z.shiftl (Z.land b0 0x7f) 24) (Z.shiftl b1 16)) (Z.shiftl b2 8)) b3
    = be_combine [b0; b1; b2; b3] mod 2 ^ 31.
Proof.
  unfold is_byte, in_u. intros H0 H1 H2 H3. change 0x7f with (Z.ones 7). rewrite Z.land_ones by lia.
  pose proof (Z.mod_pos_bound b0 (2 ^ 7) ltac:(lia)) as Hm.
  assert (be_combine [b0; b1; b2; b3] = b0 * 2 ^ 24 + b1 * 2 ^ 16 + b2 * 2 ^ 8 + b3) as ->
    by (unfold be_combine; cbn; lia).
  rewrite lor_rev, (lor_shiftl_add b3 b2 8) by lia.
  rewrite (lor_shiftl_add _ b1 16) by (rewrite ?Z.shiftl_mul_pow2; lia).
  rewrite (lor_shiftl_add _ _ 24) by (rewrite ?Z.shiftl_mul_pow2; lia).
  rewrite !Z.shiftl_mul_pow2 by lia.
  rewrite (Z.div_mod b0 (2 ^ 7)) at 2 by lia.
  replace ((2 ^ 7 * (b0 / 2 ^ 7) + b0 mod 2 ^ 7) * 2 ^ 24 + b1 * 2 ^ 16 + b2 * 2 ^ 8 + b3)
    with (b3 + b2 * 2 ^ 8 + b1 * 2 ^ 16 + (b0 mod 2 ^ 7) * 2 ^ 24 + (b0 / 2 ^ 7) * 2 ^ 31) by lia.
  set (q := b0 / 2 ^ 7). set (r := b0 mod 2 ^ 7) in *. clearbody q r.
  rewrite Z.mod_add, Z.mod_small by lia. lia.
Qed.

(** The truncation never reads outside the twenty bytes, and is that of the RFC. *)
Lemma truncate_rfc mac :
  length mac = 20%nat -> Forall is_byte mac -> truncate mac = Ret (rfc_truncate mac).
Proof.
  intros Hl Hb. unfold truncate, rfc_truncate.
  destruct (index_ok mac 19) as (last & -> & H19); [unfold len; lia|]. cbn [outcome_bind].
  change (Z.to_nat 19) with 19%nat in H19.
  assert (be_combine (drop 19 mac) = last) as ->.
  { rewrite (drop_S mac last 19) by done. rewrite (drop_ge mac) by lia. unfold be_combine. cbn. lia. }
  change 0xf with (Z.ones 4). rewrite Z.land_ones by lia. change (2 ^ 4) with 16.
  pose proof (Z.mod_pos_bound last 16 ltac:(lia)) as Ho. set (offset := last mod 16) in *.
  clearbody offset. unfold len in *.
  destruct (index_ok mac offset) as (b0 & -> & H0); [unfold len; lia|].
  destruct (index_ok mac (offset + 1)) as (b1 & -> & H1); [unfold len; lia|].
  destruct (index_ok mac (offset + 2)) as (b2 & -> & H2); [unfold len; lia|].
  destruct (index_ok mac (offset + 3)) as (b3 & -> & H3); [unfold len; lia|].
  cbn [outcome_bind]. rewrite Z2Nat.inj_add in H1, H2, H3 by lia.
  rewrite (four_bytes mac (Z.to_nat offset) b0 b1 b2 b3) by done.
  pose proof (Forall_lookup_1 _ _ _ _ Hb H0). pose proof (Forall_lookup_1 _ _ _ _ Hb H1).
  pose proof (Forall_lookup_1 _ _ _ _ Hb H2). pose proof (Forall_lookup_1 _ _ _ _ Hb H3).
  by rewrite bin_code_value.
Qed.

(** ** The counter *)

(** Eight bytes, most significant first. *)
Definition counts (c : bytes) (n : Z) : Prop :=
  length c = 8%nat /\ Forall is_byte c /\ be_combine c = n.

Lemma insert_mid {A} (a z : list A) b x : <[length a := x]> (a ++ b :: z) = a ++ x :: z.
Proof. by rewrite insert_app_r_alt, Nat.sub_diag by lia. Qed.

Lemma index_mid (a z : bytes) b : index (a ++ b :: z) (Z.of_nat (length a)) = Ret b.
Proof.
  unfold index. rewrite (proj2 (Z.leb_le 0 _)) by lia. rewrite Nat2Z.id.
  by rewrite list_lookup_middle.
Qed.

(** Without overflow checks the carry goes through. *)
Lemma increment_wraps (P : Profile) a :
  overflow_checks = false -> Forall is_byte a -> forall z,
  exists a', increment_loop (rev (seq 0 (length a))) (a ++ z) = Ret (a' ++ z) /\
    length a' = length a /\ Forall is_byte a' /\
    be_combine a' = (be_combine a + 1) mod 256 ^ len a.
Proof.
  intros HP. induction a as [|b a IH] using rev_ind; intros Hb z.
  - exists []. split_and!; done.
  - apply Forall_app in Hb as [Ha Hb]. rewrite Forall_singleton in Hb.
    rewrite length_app, Nat.add_1_r, seq_S, rev_unit, Nat.add_0_l. cbn [increment_loop].
    rewrite <- app_assoc. cbn [app]. rewrite index_mid. cbn [outcome_bind]. unfold add_u.
    rewrite HP. unfold is_byte, in_u in Hb.
    pose proof (be_combine_range a Ha) as Hr. rewrite be_combine_snoc.
    unfold len. rewrite length_app, Nat.add_1_r, Nat2Z.inj_succ, Z.pow_succ_r by lia.
    destruct (b + 1 <? 2 ^ 8) eqn:Hlt; reflect_bool; cbn [outcome_bind]; cbv zeta; rewrite insert_mid.
    + rewrite (proj2 (Z.ltb_lt 0 _)) by lia. exists (a ++ [b + 1]).
      rewrite <- app_assoc. split; [done|]. rewrite length_app, be_combine_snoc, Nat.add_1_r.
      split; [done|]. split; [apply Forall_app_2, Forall_singleton; unfold is_byte, in_u; done || lia|].
      unfold len in Hr. rewrite Z.mod_small by lia. lia.
    + assert (b = 255) as -> by lia. change (wrap_u 8 (255 + 1)) with 0. cbn [Z.ltb Z.compare].
      destruct (IH Ha (0 :: z)) as (a' & E & Hl & Hb' & Hv). exists (a' ++ [0]).
      rewrite E, <- app_assoc. split; [done|]. rewrite length_app, be_combine_snoc, Hl, Hv, Nat.add_1_r.
      split; [done|]. split; [apply Forall_app_2, Forall_singleton; done|]. unfold len.
      replace (be_combine a * 256 + 255 + 1) with (256 * (be_combine a + 1)) by lia.
      rewrite Z.mul_mod_distr_l by lia. lia.
Qed.

(** With them, the last byte must not be full. *)
Lemma increment_checked (P : Profile) a b :
  overflow_checks = true -> is_byte b ->
  increment (a ++ [b]) = if b =? 255 then Panic else Ret (a ++ [b + 1]).
Proof.
  unfold is_byte, in_u. intros HP Hb. unfold increment.
  rewrite length_app, Nat.add_1_r, seq_S, rev_unit, Nat.add_0_l. cbn [increment_loop].
  rewrite index_mid. cbn [outcome_bind]. unfold add_u. rewrite HP.
  destruct (b =? 255) eqn:E; reflect_bool.
  - subst b. done.
  - rewrite (proj2 (Z.ltb_lt _ (2 ^ 8))) by lia. cbn [outcome_bind]. cbv zeta.
    rewrite (proj2 (Z.ltb_lt 0 _)) by lia. by rewrite insert_mid.
Qed.

(** What [get_hotp] makes of the counter: the next number, or a panic. *)
Definition next `{Profile} (n : Z) : option Z :=
  if overflow_checks && (n mod 256 =? 255) then None else Some ((n + 1) mod 2 ^ 64).

Lemma increment_counts `{Profile} c n :
  counts c n ->
  match next n with
  | None => increment c = Panic
  | Some n' => exists c', increment c = Ret c' /\ counts c' n'
  end.
Proof.
  intros (Hl & Hb & <-). unfold next. destruct overflow_checks eqn:HP; cbn [andb].
  - destruct c as [|b a _] using rev_ind; [done|]. rewrite length_app in Hl. cbn in Hl.
    apply Forall_app in Hb as [Ha Hb]. rewrite Forall_singleton in Hb.
    rewrite be_combine_snoc, (increment_checked _ a b HP Hb).
    unfold is_byte, in_u in Hb.
    replace (be_combine a * 256 + b) with (b + be_combine a * 256) by lia.
    rewrite Z.mod_add, (Z.mod_small b) by lia. destruct (b =? 255) eqn:E; [done|]. reflect_bool.
    exists (a ++ [b + 1]). split; [done|]. split; [rewrite length_app; cbn; lia|].
    split; [apply Forall_app_2, Forall_singleton; unfold is_byte, in_u; done || lia|].
    rewrite be_combine_snoc. pose proof (be_combine_range a Ha) as Hr.
    assert (len a = 7) as Ha7 by (unfold len; lia). rewrite Ha7 in Hr.
    rewrite Z.mod_small by (change (2 ^ 64) with (256 ^ 7 * 256); lia). lia.
  - destruct (increment_wraps _ c HP Hb []) as (c' & E & Hl' & Hb' & Hv).
    rewrite !app_nil_r in E. exists c'. split; [exact E|]. split; [lia|]. split; [done|].
    rewrite Hv. f_equal. unfold len. by rewrite Hl.
Qed.

(** ** Documented behaviour of a TEE that computes HMAC-SHA1 *)

(** An operation: without a key, with one, or with a message begun. *)
Inductive mac_op : Type := MacNew | MacKeyed (k : bytes) | MacRunning (k msg : bytes).

Class MacTee (St : Type) `{TeeCrypto St, TeeObjects St} : Type := {
  HMAC_SHA1 : bytes -> bytes -> bytes;
  macs : St -> gmap Z mac_op;
}.

Definition secret_id : Z := AttributeId.as_u32 AttributeId.SecretValue.

(** Sizes of HMAC-SHA1 keys, in bits. *)
Definition mac_key_bits (n : Z) : Prop := 80 <= n <= 512.

(** Allocating an operation or an object, filling an object and setting a key may fail. *)
Class MacTeeOk (St : Type) `{MacTee St} : Prop := {
  hmac_length k m : length (HMAC_SHA1 k m) = 20%nat;
  hmac_bytes k m : Forall is_byte (HMAC_SHA1 k m);
  mac_allocate n s : mac_key_bits n ->
    exists code h s', TEE_AllocateOperation (AlgorithmId.as_u32 AlgorithmId.HmacSha1)
        (OperationMode.as_u32 OperationMode.Mac) n s = Ret ((code, h), s') /\
      transients s' = transients s /\
      (code = TEE_SUCCESS /\ macs s !! h = None /\ macs s' = <[h := MacNew]> (macs s) \/
       code <> TEE_SUCCESS /\ macs s' = macs s);
  mac_set_key h o k cs s :
    macs s !! h = Some MacNew -> transients s !! o = Some (Some cs) ->
    cs !! secret_id = Some (ByRef k) ->
    exists code s', TEE_SetOperationKey h o s = Ret (code, s') /\ transients s' = transients s /\
      (code = TEE_SUCCESS /\ macs s' = <[h := MacKeyed k]> (macs s) \/
       code <> TEE_SUCCESS /\ macs s' = macs s);
  mac_init h k s : macs s !! h = Some (MacKeyed k) ->
    exists s', TEE_MACInit h [] s = Ret (tt, s') /\
      macs s' = <[h := MacRunning k []]> (macs s) /\ transients s' = transients s;
  mac_update h k msg l s : macs s !! h = Some (MacRunning k msg) ->
    exists s', TEE_MACUpdate h l s = Ret (tt, s') /\
      macs s' = <[h := MacRunning k (msg ++ l)]> (macs s) /\ transients s' = transients s;
  (* the size behind the pointer counts, which is at most the buffer's *)
  mac_final h k msg l dest size s :
    macs s !! h = Some (MacRunning k msg) -> 20 <= size <= len dest ->
    exists s', TEE_MACComputeFinal h l dest size s
        = Ret (mkOut TEE_SUCCESS 20 (splice dest 0 (HMAC_SHA1 k (msg ++ l))), s') /\
      macs s' = <[h := MacKeyed k]> (macs s) /\ transients s' = transients s;
  mac_free h s : is_Some (macs s !! h) ->
    exists s', TEE_FreeOperation h s = Ret (tt, s') /\
      macs s' = delete h (macs s) /\ transients s' = transients s;
  key_allocate n s : mac_key_bits n ->
    exists code h s', TEE_AllocateTransientObject
        (TransientObjectType.as_u32 TransientObjectType.HmacSha1) n s = Ret ((code, h), s') /\
      macs s' = macs s /\
      (code = TEE_SUCCESS /\ h <> 0 /\ transients s !! h = None /\
         transients s' = <[h := None]> (transients s) \/
       code <> TEE_SUCCESS /\ transients s' = transients s);
  key_init p n : TEE_InitRefAttribute secret_id p n = Ret (mkAttribute secret_id p n);
  key_populate m o attrs cs s :
    transients s !! o = Some None -> contents_at m attrs = Some cs ->
    exists code s', TEE_PopulateTransientObject m o attrs (wrap_u 32 (len attrs)) s = Ret (code, s') /\
      macs s' = macs s /\
      (code = TEE_SUCCESS /\ transients s' = <[o := Some cs]> (transients s) \/
       code <> TEE_SUCCESS /\ transients s' = transients s);
  key_free o s : is_Some (transients s !! o) ->
    exists s', TEE_FreeObject o s = Ret (tt, s') /\
      transients s' = delete o (transients s) /\ macs s' = macs s;
}.

(** A TEE that has the memory and the algorithm: none of those calls fails. *)
Class MacTeeReliable (St : Type) `{MacTee St} : Prop := {
  mac_allocate_reliable n s r s' :
    TEE_AllocateOperation (AlgorithmId.as_u32 AlgorithmId.HmacSha1)
      (OperationMode.as_u32 OperationMode.Mac) n s = Ret (r, s') -> r.1 = TEE_SUCCESS;
  mac_set_key_reliable h o s code s' :
    TEE_SetOperationKey h o s = Ret (code, s') -> code = TEE_SUCCESS;
  key_allocate_reliable n s r s' :
    TEE_AllocateTransientObject (TransientObjectType.as_u32 TransientObjectType.HmacSha1) n s
      = Ret (r, s') -> r.1 = TEE_SUCCESS;
  key_populate_reliable m o attrs n s code s' :
    TEE_PopulateTransientObject m o attrs n s = Ret (code, s') -> code = TEE_SUCCESS;
}.

(** RFC 4226, 5.3: the code of a key and a counter, as eight bytes. *)
Definition HOTP {St} `{MacTee St} (k : bytes) (c : bytes) : Z := rfc_truncate (HMAC_SHA1 k c).

(** ** The HMAC through the library *)

Section Hmac.
Context `{!Target, !TargetOk, !TeeMemMove, !TeeMemMoveOk, !Allocator, !AllocatorOk}.
Context `{!VecAlloc, !VecAllocOk}.
Context {St : Type} `{!TeeCrypto St, !TeeObjects St, !MacTee St, !MacTeeOk St}.

(** The TEE's operations and objects, and the boxes, are as they were, but for the boxes
    that [OperationHandle::allocate] leaks when the TEE has no operation
    ([CryptoSpec.operations_balanced]). *)
Definition restored (s s' : side St) : Prop :=
  macs (sd_tee s') = macs (sd_tee s) /\ transients (sd_tee s') = transients (sd_tee s) /\
  sd_enums s' = sd_enums s /\ sd_boxes s ⊆ sd_boxes s' /\
  (MacTeeReliable St -> sd_boxes s' = sd_boxes s).

Lemma restored_refl s : restored s s.
Proof. done. Qed.

Lemma restored_trans s1 s2 s3 : restored s1 s2 -> restored s2 s3 -> restored s1 s3.
Proof.
  unfold restored. intros (Hm1&Ht1&He1&Hb1&Hr1) (Hm2&Ht2&He2&Hb2&Hr2).
  split_and!; [congruence..|by etrans|]. intros Hrel. by rewrite Hr2, Hr1.
Qed.

(** A call that failed: its error has the code, which is not zero. *)
Definition failed (e : Error) : Prop :=
  ~ MacTeeReliable St /\ Error.raw_code e <> TEE_SUCCESS.

Lemma tee_failed code :
  code <> TEE_SUCCESS -> (MacTeeReliable St -> code = TEE_SUCCESS) ->
  exists e, tee_check code = Err e /\ failed e.
Proof.
  intros Hc Hrel. exists (Error.from_raw_error code). unfold tee_check.
  rewrite (proj2 (Z.eqb_neq _ _) Hc). split; [done|]. split; [by intros ?%Hrel|].
  by rewrite from_raw_error_code.
Qed.

Lemma mac_allocated n t b :
  mac_key_bits n ->
  exists r t' b', Mac.allocate AlgorithmId.HmacSha1 n (mkCstate t b) = Ret (r, mkCstate t' b') /\
    transients t' = transients t /\
    match r with
    | Ok mac => exists p h, mac = mkHandle p /\ b' = <[p := h]> b /\ p <> 0 /\ b !! p = None /\
        macs t !! h = None /\ macs t' = <[h := MacNew]> (macs t)
    | Err e => failed e /\ macs t' = macs t /\ b ⊆ b'
    end.
Proof.
  intros Hn. destruct (mac_allocate n t Hn) as (code & h & t' & E & Ht & Hcase).
  assert (b !! alloc_addr (dom b) = None) as Hf by (apply not_elem_of_dom, alloc_fresh).
  eexists _, t', _. split; [|split; [exact Ht|]].
  - apply (op_allocate_answer _ _ _ _ _ code h); [|exact E].
    unfold mac_key_bits in Hn; unfold in_u; lia.
  - destruct Hcase as [(-> & Hh & Hm)|[Hc Hm]].
    + eexists _, h. split; [done|]. split; [done|]. split; [apply alloc_nonnull|done].
    + destruct (tee_failed code Hc) as (e & -> & He);
        [intros Hrel; exact (mac_allocate_reliable _ _ _ _ E)|].
      split; [done|]. split; [done|]. by apply insert_subseteq.
Qed.

Lemma operation_dropped p h t b :
  p <> 0 -> b !! p = None -> is_Some (macs t !! h) ->
  exists t', OperationHandleOps.drop_handle (mkHandle p) (mkCstate t (<[p := h]> b))
      = Ret (tt, mkCstate t' b) /\
    macs t' = delete h (macs t) /\ transients t' = transients t.
Proof.
  intros Hp Hb Hm. destruct (mac_free h t Hm) as (t' & E & Hf). exists t'. split; [|done].
  rewrite (op_drop_Ret p h t _ t') by (done || apply lookup_insert_eq).
  by rewrite delete_insert_id.
Qed.

Lemma key_allocated n t mm e :
  mac_key_bits n ->
  exists r t', TransientOps.allocate TransientObjectType.HmacSha1 n (mkOworld t mm e)
      = Ret (r, mkOworld t' mm e) /\ macs t' = macs t /\
    match r with
    | Ok key => exists o, key = mkTransient (mkObjectHandle o) /\ o <> 0 /\
        transients t !! o = None /\ transients t' = <[o := None]> (transients t)
    | Err err => failed err /\ transients t' = transients t
    end.
Proof.
  intros Hn. destruct (key_allocate n t Hn) as (code & o & t' & E & Hm & Hcase).
  unfold TransientOps.allocate, Transient.on_tee, ptry, pbind. cbn [omem otee].
  unfold mac_key_bits in Hn. rewrite (wrap_u_small 32 n) by (unfold in_u; lia). rewrite E.
  destruct Hcase as [(-> & Ho & Hf & Ht)|[Hc Ht]].
  - cbn. unfold Handle.from_raw. rewrite (proj2 (Z.eqb_neq _ _) Ho). eexists _, t'.
    split; [reflexivity|]. split; [done|]. by exists o.
  - destruct (tee_failed code Hc) as (err & Herr & He);
      [intros Hrel; exact (key_allocate_reliable _ _ _ _ E)|].
    cbn. rewrite Herr. eexists _, t'. split; [reflexivity|]. done.
Qed.

Lemma key_populated o attr cs t mm e :
  transients t !! o = Some None -> contents_at mm [attr] = Some cs ->
  exists r t', TransientOps.populate (mkTransient (mkObjectHandle o)) [attr] (mkOworld t mm e)
      = Ret (r, mkOworld t' mm e) /\ macs t' = macs t /\
    match r with
    | Ok _ => transients t' = <[o := Some cs]> (transients t)
    | Err err => failed err /\ transients t' = transients t
    end.
Proof.
  intros Ho Hc. destruct (key_populate mm o [attr] cs t Ho Hc) as (code & t' & E & Hm & Hcase).
  unfold TransientOps.populate, Transient.on_tee, pbind, TransientOps.raw.
  cbn [omem otee to_handle oh_raw]. rewrite E. eexists _, t'. split; [reflexivity|].
  split; [done|]. destruct Hcase as [[-> Ht]|[Hcode Ht]]; [done|].
  destruct (tee_failed code Hcode) as (err & -> & He); [|done].
  intros Hrel. exact (key_populate_reliable _ _ _ _ _ _ _ E).
Qed.

Lemma key_set p h o k cs t b e w :
  b !! p = Some h -> macs t !! h = Some MacNew -> transients t !! o = Some (Some cs) ->
  cs !! secret_id = Some (ByRef k) ->
  exists r t', on_crypto (OperationHandleOps.set_key (mkHandle p) o) (mkSide t b e, w)
      = Ret (r, (mkSide t' b e, w)) /\ transients t' = transients t /\
    match r with
    | Ok _ => macs t' = <[h := MacKeyed k]> (macs t)
    | Err err => failed err /\ macs t' = macs t
    end.
Proof.
  intros Hp Hm Ho Hk. destruct (mac_set_key h o k cs t Hm Ho Hk) as (code & t' & E & Ht & Hcase).
  exists (tee_check code), t'. split; [|split; [done|]].
  - apply on_crypto_Ret. by apply (boxed p h (fun h => TEE_SetOperationKey h o) tee_check t b).
  - destruct Hcase as [[-> Hm']|[Hc Hm']]; [done|].
    destruct (tee_failed code Hc) as (err & -> & He); [|done].
    intros Hrel. exact (mac_set_key_reliable _ _ _ _ _ E).
Qed.

Lemma key_dropped o t mm e :
  o <> 0 -> is_Some (transients t !! o) ->
  exists t', TransientOps.drop_transient (mkTransient (mkObjectHandle o)) (mkOworld t mm e)
      = Ret (tt, mkOworld t' mm e) /\
    transients t' = delete o (transients t) /\ macs t' = macs t.
Proof.
  intros Hn Ho. destruct (key_free o t Ho) as (t' & E & Ht). exists t'. split; [|done].
  unfold TransientOps.drop_transient, TransientOps.is_null_object, Handle.is_null, TransientOps.raw.
  cbn [to_handle oh_raw]. rewrite (proj2 (Z.eqb_neq _ _) Hn). unfold Transient.on_tee. cbn.
  by rewrite E.
Qed.

(** The block of [hmac_sha1] once everything is allocated. *)
Definition mac_body (hotp : HmacOtp) (out : bytes) (mac : OperationHandle)
    (key_object : TransientObject) (tmp_key : Z) : prog (side St * world) (Result Z * bytes) :=
  let* attr := plift (Attribute.from_ref AttributeId.SecretValue tmp_key (key_len hotp)) in
  let* rp := on_objects (TransientOps.populate key_object [attr]) in
  match rp with
  | Err e => pret (Err e, out)
  | Ok _ =>
      let* rk := on_crypto (OperationHandleOps.set_key mac (TransientOps.raw key_object)) in
      match rk with
      | Err e => pret (Err e, out)
      | Ok _ =>
          let* _ := on_crypto (Mac.init mac []) in
          let* _ := on_crypto (Mac.update mac (counter hotp)) in
          on_crypto (Mac.compute_final mac [] out)
      end
  end.

(** The result of [hmac_sha1] under the key [k]. *)
Definition mac_result (hotp : HmacOtp) (k : bytes) (r : Result Z * bytes) : Prop :=
  r = (Ok 20, HMAC_SHA1 k (counter hotp)) \/ exists e b, r = (Err e, b) /\ failed e.

Lemma mac_computed hotp out p h k t b e w :
  b !! p = Some h -> macs t !! h = Some (MacKeyed k) -> len out = 20 ->
  exists t' op,
    (let* _ := on_crypto (Mac.init (mkHandle p) []) in
     let* _ := on_crypto (Mac.update (mkHandle p) (counter hotp)) in
     on_crypto (Mac.compute_final (mkHandle p) [] out)) (mkSide t b e, w)
      = Ret ((Ok 20, HMAC_SHA1 k (counter hotp)), (mkSide t' b e, w)) /\
    macs t' = <[h := op]> (macs t) /\ transients t' = transients t.
Proof.
  intros Hp Hm Hout. destruct (mac_init h k t Hm) as (t3 & E3 & Hm3 & Ht3).
  erewrite pbind_Ret by (apply on_crypto_Ret; by apply (boxed_input p h)).
  destruct (mac_update h k [] (counter hotp) t3) as (t4 & E4 & Hm4 & Ht4);
    [by rewrite Hm3, lookup_insert_eq|].
  erewrite pbind_Ret by (apply on_crypto_Ret; by apply (boxed_input p h)).
  destruct (mac_final h k (counter hotp) [] out (len out) t4) as (t5 & E5 & Hm5 & Ht5);
    [by rewrite Hm4, lookup_insert_eq|lia|].
  exists t5, (MacKeyed k). split; [|split].
  - erewrite (on_crypto_Ret _ t4 b e);
      [|apply (boxed p h (fun h => TEE_MACComputeFinal h [] out (len out)) OperationHandleOps.sized t4 b); done].
    cbn. rewrite app_nil_r, splice_full; [done|].
    rewrite Hout. unfold len. by rewrite hmac_length.
  - by rewrite Hm5, Hm4, Hm3, !insert_insert_eq.
  - by rewrite Ht5, Ht4, Ht3.
Qed.

Lemma mac_body_spec hotp out p h o k t b e mm r pv :
  b !! p = Some h -> macs t !! h = Some MacNew -> transients t !! o = Some None ->
  read_range mm pv (Z.to_nat (key_len hotp)) = Some k -> len out = 20 ->
  exists a t' op cs,
    mac_body hotp out (mkHandle p) (mkTransient (mkObjectHandle o)) pv (mkSide t b e, mkWorld mm r)
      = Ret (a, (mkSide t' b e, mkWorld mm r)) /\ mac_result hotp k a /\
    macs t' = <[h := op]> (macs t) /\ transients t' = <[o := cs]> (transients t).
Proof.
  intros Hp Hm Ho Hk Hout. unfold mac_body.
  erewrite pbind_Ret by (unfold plift, Attribute.from_ref; fold secret_id; by rewrite key_init).
  assert (contents_at mm [mkAttribute secret_id pv (key_len hotp)] = Some {[secret_id := ByRef k]})
    as Hc.
  { cbn [contents_at]. unfold content_at. cbn [attributeID attr_word0 attr_word1].
    change (is_value secret_id) with false. cbv iota. rewrite Hk. done. }
  destruct (key_populated o _ _ t mm e Ho Hc) as (rp & t1 & E1 & Hm1 & Ht1).
  erewrite pbind_Ret by (by apply on_objects_Ret). destruct rp as [u1|err].
  2:{ destruct Ht1 as [He Ht1]. eexists _, t1, MacNew, None. split; [done|].
      split; [right; by eexists _, _|]. by rewrite Hm1, Ht1, !insert_id. }
  rewrite <- Hm1 in Hm.
  destruct (key_set p h o k {[secret_id := ByRef k]} t1 b e (mkWorld mm r) Hp Hm)
    as (rk & t2 & E2 & Ht2 & Hm2); [by rewrite Ht1, lookup_insert_eq|by rewrite lookup_singleton_eq|].
  erewrite pbind_Ret by exact E2. destruct rk as [u2|err].
  2:{ destruct Hm2 as [He Hm2]. eexists _, t2, MacNew, _. split; [done|].
      split; [right; by eexists _, _|]. rewrite Hm2, Ht2, Ht1.
      split; [rewrite Hm1, insert_id; [done|]; by rewrite <- Hm1|done]. }
  destruct (mac_computed hotp out p h k t2 b e (mkWorld mm r) Hp) as (t3 & op & E3 & Hm3 & Ht3);
    [by rewrite Hm2, lookup_insert_eq|done|].
  eexists _, t3, op, _. split; [exact E3|]. split; [by left|].
  rewrite Hm3, Hm2, Hm1, insert_insert_eq. split; [done|]. by rewrite Ht3, Ht2.
Qed.

Lemma with_operation_Ret {A} p h (body : prog (side St * world) A) s1 w w' (a : A) t b e :
  p <> 0 -> b !! p = None -> body (s1, w) = Ret (a, (mkSide t (<[p := h]> b) e, w')) ->
  is_Some (macs t !! h) ->
  exists t', with_operation (mkHandle p) body (s1, w) = Ret (a, (mkSide t' b e, w')) /\
    macs t' = delete h (macs t) /\ transients t' = transients t.
Proof.
  intros Hp Hb E Hh. destruct (operation_dropped p h t b Hp Hb Hh) as (t' & Ed & Hf).
  exists t'. split; [|done]. unfold with_operation. erewrite pbind_Ret by done.
  by erewrite pbind_Ret by (by apply on_crypto_Ret).
Qed.

Lemma with_object_Ret {A} o (body : prog (side St * world) A) s1 w w' (a : A) t b e :
  o <> 0 -> body (s1, w) = Ret (a, (mkSide t b e, w')) -> is_Some (transients t !! o) ->
  exists t', with_object (mkTransient (mkObjectHandle o)) body (s1, w)
      = Ret (a, (mkSide t' b e, w')) /\
    transients t' = delete o (transients t) /\ macs t' = macs t.
Proof.
  intros Ho E Hh. destruct w' as [mm r].
  destruct (key_dropped o t mm e Ho Hh) as (t' & Ed & Hf).
  exists t'. split; [|done]. unfold with_object. erewrite pbind_Ret by done.
  by erewrite pbind_Ret by (by apply on_objects_Ret).
Qed.

(** The key of a session. *)
Definition key_of (hotp : HmacOtp) : bytes := take (Z.to_nat (key_len hotp)) (key hotp).

Definition key_ok (hotp : HmacOtp) : Prop :=
  len (key hotp) = MAX_KEY_SIZE /\ MIN_KEY_SIZE <= key_len hotp <= MAX_KEY_SIZE.

(** The part of [hmac_sha1] that owns the key object. *)
Lemma key_block_spec hotp out p h t b e w :
  key_ok hotp -> len out = 20 -> b !! p = Some h -> macs t !! h = Some MacNew ->
  exists a t' op,
    (let* ro := on_objects (TransientOps.allocate TransientObjectType.HmacSha1
                              (key_len hotp * 8)) in
     match ro with
     | Err err => pret (Err err, out)
     | Ok key_object =>
         with_object key_object (with_vec (key hotp) (mac_body hotp out (mkHandle p) key_object))
     end) (mkSide t b e, w)
      = Ret (a, (mkSide t' b e, w)) /\ mac_result hotp (key_of hotp) a /\
    macs t' = <[h := op]> (macs t) /\ transients t' = transients t.
Proof.
  unfold key_ok, MAX_KEY_SIZE, MIN_KEY_SIZE. intros [Hk Hn] Hout Hb Hm. destruct w as [mm r].
  assert (mac_key_bits (key_len hotp * 8)) as Hbits by (unfold mac_key_bits; lia).
  destruct (key_allocated (key_len hotp * 8) t mm e Hbits) as (ro & t1 & E1 & Hm1 & Hro).
  erewrite pbind_Ret by (by apply on_objects_Ret). destruct ro as [key_object|err].
  2:{ destruct Hro as [He Ht1]. eexists _, t1, MacNew. split; [done|].
      split; [right; by eexists _, _|]. split; [by rewrite Hm1, insert_id|done]. }
  destruct Hro as (o & -> & Ho & Hoo & Ht1).
  assert (transients t1 !! o = Some None) as Ho1 by (by rewrite Ht1, lookup_insert_eq).
  rewrite <- Hm1 in Hm.
  destruct (with_vec_Ret (key hotp) (mac_body hotp out (mkHandle p) (mkTransient (mkObjectHandle o)))
    t1 b e mm r (fun a s' => mac_result hotp (key_of hotp) a /\
      exists t' op cs, s' = mkSide t' b e /\ macs t' = <[h := op]> (macs t1) /\
        transients t' = <[o := cs]> (transients t1)))
    as (a & s2 & E2 & Ha & t2 & op & cs & -> & Hm2 & Ht2).
  { intros pv _ _. destruct (mac_body_spec hotp out p h o (key_of hotp) t1 b e
      (buffer_at pv (key hotp) ∪ mm) r pv) as (a & t' & op & cs & E & Ha & Hf); [done..| |done|].
    - apply union_holds. rewrite Hk. lia.
    - eexists _, _. split; [exact E|]. split; [done|]. by exists t', op, cs. }
  destruct (with_object_Ret o _ _ _ _ _ _ _ _ Ho E2) as (t3 & E3 & Ht3 & Hm3).
  { rewrite Ht2, lookup_insert_eq. eauto. }
  exists a, t3, op. split; [exact E3|]. split; [done|]. split; [by rewrite Hm3, Hm2, Hm1|].
  by rewrite Ht3, Ht2, delete_insert_eq, Ht1, delete_insert_id.
Qed.

(** [hmac_sha1] computes the HMAC of the counter, or fails with the TEE, and leaves
    nothing behind. *)
Lemma hmac_sha1_spec hotp out s w :
  key_ok hotp -> len out = 20 ->
  exists a s', hmac_sha1 hotp out (s, w) = Ret (a, (s', w)) /\
    mac_result hotp (key_of hotp) a /\ restored s s'.
Proof.
  intros Hkey Hout. pose proof Hkey as [_ Hn]. unfold MAX_KEY_SIZE, MIN_KEY_SIZE in Hn.
  destruct s as [t b e]. unfold hmac_sha1, MAX_KEY_SIZE, MIN_KEY_SIZE.
  rewrite (proj2 (Z.ltb_ge _ _)), (proj2 (Z.ltb_ge _ _)) by lia. cbn [orb].
  assert (mac_key_bits (key_len hotp * 8)) as Hbits by (unfold mac_key_bits; lia).
  destruct (mac_allocated (key_len hotp * 8) t b Hbits) as (rm & t1 & b1 & E1 & Ht1 & Hrm).
  erewrite pbind_Ret by (by apply on_crypto_Ret). destruct rm as [mac|err].
  2:{ destruct Hrm as (He & Hm1 & Hb1). eexists _, (mkSide t1 b1 e). split; [done|].
      split; [right; by eexists _, _|]. split_and!; try done. intros Hrel. by destruct He. }
  destruct Hrm as (p & h & -> & -> & Hp & Hb & Hh & Hm1).
  destruct (key_block_spec hotp out p h t1 (<[p := h]> b) e w Hkey Hout)
    as (a & t2 & op & E2 & Ha & Hm2 & Ht2);
    [by rewrite lookup_insert_eq|by rewrite Hm1, lookup_insert_eq|].
  destruct (with_operation_Ret p h _ _ _ _ _ _ _ _ Hp Hb E2) as (t3 & E3 & Hm3 & Ht3).
  { rewrite Hm2, lookup_insert_eq. eauto. }
  exists a, (mkSide t3 b e). split; [exact E3|]. split; [done|].
  unfold restored. cbn [sd_tee sd_boxes sd_enums].
  rewrite Hm3, Hm2, Hm1, insert_insert_eq, delete_insert_id by done. by rewrite Ht3, Ht2.
Qed.

(** ** Sessions *)

(** The commands, with parameters of the types they expect or of others. *)
Inductive request : Type :=
| Register (k : bytes) | RegisterMistyped | Get | GetMistyped | Other (cmd : Z).
Inductive reply : Type := Accepted | Code (v : Z) | Refused | Failed (code : Z).

(** The key, once there is one, and the counter. *)
Abbreviation astate := (option bytes * Z)%type.

Definition counter_bytes (n : Z) : bytes := rev (le_split 8 n).

(** The code of the counter, in the session's next state; [None] is a panic: the counter's
    addition overflows a byte. *)
Definition counted `{!Profile} (k : bytes) (n : Z) (rp : reply) : option (reply * astate) :=
  (fun n' => (rp, (Some k, n'))) <$> next n.

(** What a TEE with the memory answers.  A request for a code whose parameter has another
    type is refused after the counter has moved. *)
Definition answer `{!Profile} (r : request) (a : astate) : option (reply * astate) :=
  match r with
  | Register k =>
      Some (if (MIN_KEY_SIZE <=? len k) && (len k <=? MAX_KEY_SIZE)
            then (Accepted, (Some k, a.2)) else (Refused, a))
  | Get =>
      match a.1 with
      | None => Some (Refused, a)
      | Some k => counted k a.2 (Code (HOTP k (counter_bytes a.2)))
      end
  | GetMistyped =>
      match a.1 with None => Some (Refused, a) | Some k => counted k a.2 Refused end
  | RegisterMistyped | Other _ => Some (Refused, a)
  end.

(** Computing a code may fail with the TEE, which changes nothing. *)
Definition spec_step `{!Profile} (r : request) (a : astate) (out : option (reply * astate)) : Prop :=
  out = answer r a \/
  ~ MacTeeReliable St /\ (r = Get \/ r = GetMistyped) /\ is_Some a.1 /\
    exists code, code <> TEE_SUCCESS /\ out = Some (Failed code, a).

(** Every call whose raw parameters convert: the entry point refuses the others. *)
Definition carries (r : request) (call : Z * Z * world) : Prop :=
  let '(cmd, types, w) := call in
  exists p0 p1 p2 p3,
    from_raw_tuple (A:=ParameterAny) (B:=ParameterAny) (C:=ParameterAny) (D:=ParameterAny) types w
      = Ret (Ok (p0, p1, p2, p3), w) /\
    match r with
    | Register k =>
        cmd = Command.into Command.RegisterSharedKey /\
        p0 = ParameterAny.MemrefInput (mkMemrefInput 0) /\ in_buffer w 0 k
    | RegisterMistyped =>
        cmd = Command.into Command.RegisterSharedKey /\
        ParameterAny.as_memref_input p0 = bail ErrorKind.BadParameters
    | Get =>
        cmd = Command.into Command.GetHOTP /\
        p0 = ParameterAny.ValueOutput (mkValueOutput 0) /\
        exists p, raws w !! 0%nat = Some p /\ param_ok p
    | GetMistyped =>
        cmd = Command.into Command.GetHOTP /\
        ParameterAny.as_value_output p0 = bail ErrorKind.BadParameters
    | Other c => cmd = c /\ Command.from c = Command.Unknown
    end.

(** A code is the first value of slot 0, and nothing else changes. *)
Definition gives (rp : reply) (w w' : world) (code : Z) : Prop :=
  match rp with
  | Accepted => code = TEE_SUCCESS /\ w' = w
  | Refused => code = TEE_ERROR_BAD_PARAMETERS /\ w' = w
  | Failed c => code = c /\ w' = w
  | Code v =>
      code = TEE_SUCCESS /\ wmem w' = wmem w /\
      exists q, param_ok q /\ value_a q = v /\ raws w' = <[0%nat := q]> (raws w)
  end.

(** The context of a session stands for an abstract state. *)
Record rep (hotp : HmacOtp) (a : astate) : Prop := {
  rep_counter : counts (counter hotp) a.2;
  rep_array : len (key hotp) = MAX_KEY_SIZE;
  rep_key : match a.1 with
            | None => key_len hotp = 0
            | Some k => key_len hotp = len k /\ key_of hotp = k /\
                MIN_KEY_SIZE <= len k <= MAX_KEY_SIZE
            end;
}.

Lemma rep_default : rep default (None, 0).
Proof. split; [|done|done]. split; [done|]. split; [|done]. by repeat constructor. Qed.

Lemma counts_bytes c n : counts c n -> counter_bytes n = c.
Proof.
  intros (Hl & Hb & <-). unfold counter_bytes. by rewrite (le_split_be 8 c Hb Hl), rev_involutive.
Qed.

Lemma rfc_truncate_range mac : in_u 32 (rfc_truncate mac).
Proof.
  unfold rfc_truncate, in_u. set (x := _ mod 2 ^ 31). pose proof (Z.mod_pos_bound x (10 ^ 6) ltac:(lia)).
  lia.
Qed.

Context `{!Profile}.

(** With the TEE and the boxes as they were when the session began. *)
Definition rep_at (s0 : side St) (hotp : HmacOtp) (s : side St) (a : astate) : Prop :=
  rep hotp a /\ restored s0 s.

Lemma register_steps s0 hotp k a s w p1 p2 p3 :
  rep_at s0 hotp s a -> in_buffer w 0 k ->
  steps spec_step gives (rep_at s0) (register_shared_key hotp (ParameterAny.MemrefInput (mkMemrefInput 0), p1, p2, p3))
    (Register k) a s w.
Proof.
  intros [Hrep Hres] Hin. pose proof Hrep as [Hc Hk Hr]. eexists. split; [by left|].
  unfold register_shared_key. cbn [answer].
  cbn [ParameterAny.as_memref_input]. erewrite pbind_Ret by (by apply read_input_spec).
  unfold MIN_KEY_SIZE, MAX_KEY_SIZE in *.
  destruct ((10 <=? len k) && (len k <=? 64)) eqn:Hlen.
  - apply andb_true_iff in Hlen as [H1'%Z.leb_le H2'%Z.leb_le].
    rewrite (proj2 (Z.ltb_ge (len k) 10)), (proj2 (Z.ltb_ge 64 (len k))) by lia. cbn [orb].
    rewrite (proj2 (Z.ltb_ge (len (key hotp)) (len k))) by lia.
    eexists _, _, s, w. split; [done|]. split; [done|]. split; [|done]. split; cbn [counter key key_len].
    + done.
    + unfold MAX_KEY_SIZE. rewrite len_splice; lia.
    + split; [done|]. unfold MIN_KEY_SIZE, MAX_KEY_SIZE. split; [|lia]. unfold key_of. cbn [key key_len].
      unfold splice. change (Z.to_nat 0) with 0%nat. rewrite take_0. cbn [app].
      unfold len. rewrite Nat2Z.id. by rewrite take_app_length.
  - assert ((len k <? 10) || (64 <? len k) = true) as ->.
    { apply andb_false_iff in Hlen as [H1'%Z.leb_gt|H1'%Z.leb_gt]; apply orb_true_iff;
        [left|right]; by apply Z.ltb_lt. }
    by eexists _, _, s, w.
Qed.

(** The end of [get_hotp], once the HMAC is there. *)
Definition finish (hotp : HmacOtp) (mac : bytes) (p0 : ParameterAny)
    : prog (side St * world) (Result unit * HmacOtp) :=
  let* counter' := plift (increment (counter hotp)) in
  let hotp' := mkHmacOtp counter' (key hotp) (key_len hotp) in
  let* hotp_val := plift (truncate mac) in
  match ParameterAny.as_value_output p0 with
  | Err e => pret (Err e, hotp')
  | Ok p0 => let* _ := on_params (set_a p0 hotp_val) in pret (Ok tt, hotp')
  end.

(** What both requests for a code share: all but the parameter. *)
Lemma get_any_steps s0 hotp a s w p0 p1 p2 p3 r (rp : bytes -> Z -> reply) :
  r = Get \/ r = GetMistyped ->
  (forall k n, answer r (Some k, n) = counted k n (rp k n)) -> (forall n, answer r (None, n) = Some (Refused, (None, n))) ->
  rep_at s0 hotp s a ->
  (forall k n n' hotp' s', a = (Some k, n) -> rep_at s0 hotp' s' (Some k, n') ->
     increment (counter hotp) = Ret (counter hotp') -> key hotp' = key hotp ->
     key_len hotp' = key_len hotp ->
     exists res w', finish hotp (HMAC_SHA1 k (counter hotp)) p0 (s', w) = Ret ((res, hotp'), (s', w')) /\
       gives (rp k n) w w' (code_of res)) ->
  steps spec_step gives (rep_at s0) (get_hotp hotp (p0, p1, p2, p3)) r a s w.
Proof.
  intros Hget Hsome Hnone [Hrep Hres] Hfin. pose proof Hrep as [Hc Hk Hr]. unfold get_hotp.
  destruct a as [[k|] n]; cbn [fst snd] in *.
  - destruct Hr as (Hl & Hkey & Hlen).
    destruct (hmac_sha1_spec hotp (zeros SHA1_HASH_SIZE) s w) as (m & s' & E & Hm & Hs');
      [by split; [|lia]|done|].
    assert (restored s0 s') as Hres' by (by apply (restored_trans _ s)).
    destruct Hm as [->|(e & b & -> & Hrel & He)].
    2:{ eexists. split; [right; split; [done|]; split; [done|]; split; [by eexists|];
          by exists (Error.raw_code e)|].
        eexists _, hotp, s', w. split; [by erewrite pbind_Ret by exact E|]. by split. }
    rewrite Hkey in E. eexists. split; [by left|]. rewrite Hsome. unfold counted.
    pose proof (increment_counts _ _ Hc) as Hi. destruct (next n) as [n'|]; cbn [fmap option_fmap option_map].
    + destruct Hi as (c' & Ei & Hc').
      destruct (Hfin k n n' (mkHmacOtp c' (key hotp) (key_len hotp)) s' eq_refl)
        as (res & w' & Ef & Hg); [by split; [split; cbn|]|done..|].
      exists res, (mkHmacOtp c' (key hotp) (key_len hotp)), s', w'.
      split; [|split; [done|by split; [split; cbn|]]].
      erewrite pbind_Ret by exact E. exact Ef.
    + unfold pbind at 1. rewrite E. unfold pbind, plift. by rewrite Hi.
  - eexists. split; [by left|]. rewrite Hnone. exists (bail ErrorKind.BadParameters), hotp, s, w.
    unfold hmac_sha1. rewrite Hr. split; [done|]. split; [done|]. by split.
Qed.

Lemma get_steps s0 hotp a s w p p1 p2 p3 :
  rep_at s0 hotp s a -> raws w !! 0%nat = Some p -> param_ok p ->
  steps spec_step gives (rep_at s0) (get_hotp hotp (ParameterAny.ValueOutput (mkValueOutput 0), p1, p2, p3)) Get a s w.
Proof.
  intros Hrep Hp Hok.
  apply (get_any_steps s0 hotp a s w _ p1 p2 p3 Get (fun k n => Code (HOTP k (counter_bytes n))));
    [by left|done|done|done|].
  intros k n n' [c' kk kl] s' -> [Hrep' _] Hi Hkk Hkl. cbn in Hi, Hkk, Hkl. subst kk kl.
  destruct Hrep as [[Hc _ _] _]. cbn [snd] in Hc. rewrite (counts_bytes _ _ Hc). unfold finish.
  erewrite pbind_Ret by (unfold plift; by rewrite Hi).
  erewrite pbind_Ret by (unfold plift; rewrite truncate_rfc;
    [done|apply hmac_length|apply hmac_bytes]).
  cbn [ParameterAny.as_value_output].
  set (v := rfc_truncate _). assert (in_u 32 v) as Hv by apply rfc_truncate_range.
  erewrite pbind_Ret by exact (set_a_spec 0 s' w p v Hp). eexists _, _. split; [done|].
  split; [done|]. split; [done|]. destruct (value_set_a p v Hok Hv) as (Hva & _ & Hok'). by eexists.
Qed.

Lemma get_mistyped_steps s0 hotp a s w p0 p1 p2 p3 :
  rep_at s0 hotp s a -> ParameterAny.as_value_output p0 = bail ErrorKind.BadParameters ->
  steps spec_step gives (rep_at s0) (get_hotp hotp (p0, p1, p2, p3)) GetMistyped a s w.
Proof.
  intros Hrep Hp. apply (get_any_steps s0 hotp a s w _ p1 p2 p3 GetMistyped (fun _ _ => Refused));
    [by right|done|done|done|].
  intros k n n' [c' kk kl] s' -> _ Hi Hkk Hkl. cbn in Hi, Hkk, Hkl. subst kk kl. unfold finish.
  erewrite pbind_Ret by (unfold plift; by rewrite Hi).
  erewrite pbind_Ret by (unfold plift; rewrite truncate_rfc;
    [done|apply hmac_length|apply hmac_bytes]).
  rewrite Hp. by eexists _, _.
Qed.

Lemma hotp_invoke s0 : invoke_refines from_raw_tuple invoke_command spec_step carries gives (rep_at s0).
Proof.
  intros hotp s a r cmd types w Hrep (p0 & p1 & p2 & p3 & Ep & Hc). eexists. split; [exact Ep|].
  destruct r as [k| | | |c].
  - destruct Hc as (-> & -> & Hin). by apply register_steps.
  - destruct Hc as (-> & Hp). eexists. split; [by left|]. exists (bail ErrorKind.BadParameters), hotp, s, w.
    split; [|by split]. unfold invoke_command. cbn. by rewrite Hp.
  - destruct Hc as (-> & -> & p & Hp & Hok). by eapply get_steps.
  - destruct Hc as (-> & Hp). by apply get_mistyped_steps.
  - destruct Hc as (-> & Hc). eexists. split; [by left|]. unfold invoke_command. rewrite Hc.
    by eexists _, hotp, s, w.
Qed.

(** On a TEE with the memory, a run is that of [answer]. *)
Lemma hotp_answers `{!MacTeeReliable St} rs a out :
  spec_run spec_step rs a out -> out = answers answer rs a.
Proof. apply run_answers. intros r a' out' [|[Hn _]]; [done|by destruct Hn]. Qed.


End Hmac.

(** ** A TEE that computes HMAC-SHA1, and the host's test values *)

(** SHA-1 and HMAC, to run the TA. *)
Module Sha1.

Definition rotl (n x : Z) : Z := Z.lor (wrap_u 32 (Z.shiftl x n)) (Z.shiftr x (32 - n)).
Definition add (l : list Z) : Z := wrap_u 32 (foldr Z.add 0 l).

Definition pad (m : bytes) : bytes :=
  m ++ 128 :: zeros ((55 - len m) mod 64) ++ rev (le_split 8 (8 * len m)).

Fixpoint words (n : nat) (l : bytes) : list Z :=
  match n with O => [] | S n => be_combine (take 4 l) :: words n (drop 4 l) end.

(** The schedule, the latest word first. *)
Fixpoint schedule (n : nat) (r : list Z) : list Z :=
  match n with
  | O => rev r
  | S n =>
      let w i := nth i r 0 in
      schedule n (rotl 1 (Z.lxor (Z.lxor (w 2%nat) (w 7%nat)) (Z.lxor (w 13%nat) (w 15%nat))) :: r)
  end.

Definition digest : Type := Z * Z * Z * Z * Z.

Definition round (t : nat) (w : Z) (s : digest) : digest :=
  let '(a, b, c, d, e) := s in
  let '(f, k) :=
    if (t <? 20)%nat then (Z.lor (Z.land b c) (Z.land (Z.lxor b (Z.ones 32)) d), 0x5A827999)
    else if (t <? 40)%nat then (Z.lxor (Z.lxor b c) d, 0x6ED9EBA1)
    else if (t <? 60)%nat
    then (Z.lor (Z.lor (Z.land b c) (Z.land b d)) (Z.land c d), 0x8F1BBCDC)
    else (Z.lxor (Z.lxor b c) d, 0xCA62C1D6) in
  (add [rotl 5 a; f; e; k; w], a, rotl 30 b, c, d).

Fixpoint rounds (t : nat) (ws : list Z) (s : digest) : digest :=
  match ws with [] => s | w :: ws => rounds (S t) ws (round t w s) end.

Definition block (l : bytes) (s : digest) : digest :=
  let '(a, b, c, d, e) := s in
  let '(a', b', c', d', e') := rounds 0 (schedule 64 (rev (words 16 l))) s in
  (add [a; a'], add [b; b'], add [c; c'], add [d; d'], add [e; e']).

Fixpoint blocks (n : nat) (l : bytes) (s : digest) : digest :=
  match n with O => s | S n => blocks n (drop 64 l) (block (take 64 l) s) end.

Definition sha1 (m : bytes) : bytes :=
  let l := pad m in
  let '(a, b, c, d, e) := blocks (length l / 64) l
    (0x67452301, 0xEFCDAB89, 0x98BADCFE, 0x10325476, 0xC3D2E1F0) in
  mjoin ((fun w => rev (le_split 4 w)) <$> [a; b; c; d; e]).

Definition hmac (k m : bytes) : bytes :=
  let k := k ++ zeros (64 - len k) in
  sha1 ((Z.lxor 0x5c <$> k) ++ sha1 ((Z.lxor 0x36 <$> k) ++ m)).

Lemma le_split_bytes n x : Forall is_byte (le_split n x).
Proof.
  revert x. induction n as [|n IH]; intros x; constructor; [|done].
  unfold is_byte, in_u. apply Z.mod_pos_bound. lia.
Qed.

Lemma sha1_shape m : length (sha1 m) = 20%nat /\ Forall is_byte (sha1 m).
Proof.
  unfold sha1. destruct (blocks _ _ _) as [[[[a b] c] d] e]. split; [done|].
  assert (forall w, Forall is_byte (rev (le_split 4 w))) as Hw
    by (intros w; apply Forall_rev, le_split_bytes).
  cbn [fmap list_fmap mjoin list_join].
  repeat (apply Forall_app_2; [apply Hw|]). constructor.
Qed.

(** FIPS 180-4: the digest of "abc". *)
Example sha1_abc :
  sha1 [97; 98; 99] =
    [0xA9; 0x99; 0x3E; 0x36; 0x47; 0x06; 0x81; 0x6A; 0xBA; 0x3E;
     0x25; 0x71; 0x78; 0x50; 0xC2; 0x6C; 0x9C; 0xD0; 0xD8; 0x9D].
Proof. by vm_compute. Qed.

End Sha1.

Module HotpExamples.
Import RamObjects.
#[local] Open Scope Z_scope.

#[local] Instance ex_target : Target := 64.
#[local] Instance ex_target_ok : TargetOk := or_intror eq_refl.
#[local] Instance ex_memmove : TeeMemMove := plain_memmove.
#[local] Instance ex_memmove_ok : TeeMemMoveOk := plain_memmove_ok.
#[local] Instance ex_profile : Profile := true.
#[local] Instance ex_alloc : Allocator := fun d => fresh ({[0]} ∪ d).
#[local] Instance ex_alloc_ok : AllocatorOk.
Proof.
  split; intros d; unfold alloc_addr, ex_alloc.
  - intros Hd. apply (is_fresh ({[0]} ∪ d)). set_solver.
  - intros Hd. apply (is_fresh ({[0]} ∪ d)). rewrite Hd. set_solver.
Qed.

(** A buffer goes behind everything that is mapped. *)
#[local] Instance ex_vecs : VecAlloc := fun m _ => 1 + foldr Z.max 0 (map_to_list m).*1.

Lemma max_le l x : x ∈ l -> x <= foldr Z.max 0 l.
Proof. induction 1; cbn [foldr]; lia. Qed.

Lemma max_nonneg l : 0 <= foldr Z.max 0 l.
Proof. induction l; cbn [foldr]; lia. Qed.

#[local] Instance ex_vecs_ok : VecAllocOk.
Proof.
  split; intros m n; unfold vec_addr, ex_vecs.
  - pose proof (max_nonneg (map_to_list m).*1). lia.
  - intros x Hx. destruct (m !! x) as [v|] eqn:E; [|done].
    assert (x ∈ (map_to_list m).*1) as Hm%max_le; [|lia].
    apply list_elem_of_fmap. exists (x, v). split; [done|]. by apply elem_of_map_to_list.
Qed.

(** The TEE: its MAC operations, and the objects of [RamObjects]. *)
Record card : Type := mkCard { c_macs : gmap Z mac_op; c_ram : ram }.

Definition on_macs {A} (m : gmap Z mac_op -> outcome (A * gmap Z mac_op)) : prog card A :=
  fun s => let! r := m (c_macs s) in Ret (r.1, mkCard r.2 (c_ram s)).
Definition on_ram {A} (m : prog ram A) : prog card A :=
  fun s => let! r := m (c_ram s) in Ret (r.1, mkCard (c_macs s) r.2).

Definition no_answer (l d : bytes) (n : Z) : prog card out_answer := fun _ => Panic.

Definition key_in (o : Z) (s : card) : option bytes :=
  match attribute_of (c_ram s) o secret_id with Some (ByRef k) => Some k | _ => None end.

Definition final (h : Z) (l d : bytes) (n : Z) : prog card out_answer :=
  on_macs (fun m =>
    match m !! h with
    | Some (MacRunning k msg) =>
        if 20 <=? n then
          Ret (mkOut TEE_SUCCESS 20 (splice d 0 (Sha1.hmac k (msg ++ l))), <[h := MacKeyed k]> m)
        else Ret (mkOut TEE_ERROR_SHORT_BUFFER 20 d, m)
    | _ => Panic
    end).

#[local] Instance card_crypto : TeeCrypto card := {|
  TEE_AllocateOperation _ _ _ := on_macs (fun m =>
    let h := next (dom m) in Ret ((TEE_SUCCESS, h), <[h := MacNew]> m));
  TEE_FreeOperation h := on_macs (fun m => Ret (tt, delete h m));
  TEE_GetOperationInfo _ _ := Panic;
  TEE_GetOperationInfoMultiple _ _ _ _ := Panic;
  TEE_ResetOperation _ _ := Panic;
  TEE_SetOperationKey h o s :=
    match key_in o s with
    | Some k => Ret (TEE_SUCCESS, mkCard (<[h := MacKeyed k]> (c_macs s)) (c_ram s))
    | None => Panic
    end;
  TEE_SetOperationKey2 _ _ _ _ := Panic;
  TEE_CopyOperation _ _ _ := Panic;
  TEE_IsAlgorithmSupported _ _ _ := Panic;
  TEE_DigestUpdate _ _ _ := Panic;
  TEE_DigestDoFinal _ := no_answer;
  TEE_CipherInit _ _ _ := Panic;
  TEE_CipherUpdate _ := no_answer;
  TEE_CipherDoFinal _ := no_answer;
  TEE_MACInit h _ := on_macs (fun m =>
    match m !! h with
    | Some (MacKeyed k) => Ret (tt, <[h := MacRunning k []]> m)
    | _ => Panic
    end);
  TEE_MACUpdate h l := on_macs (fun m =>
    match m !! h with
    | Some (MacRunning k msg) => Ret (tt, <[h := MacRunning k (msg ++ l)]> m)
    | _ => Panic
    end);
  TEE_MACComputeFinal := final;
  TEE_MACCompareFinal _ _ _ _ := Panic;
  TEE_AEInit _ _ _ _ _ _ := Panic;
  TEE_AEUpdateAAD _ _ _ := Panic;
  TEE_AEUpdate _ := no_answer;
  TEE_AEEncryptFinal _ _ _ _ _ _ _ := Panic;
  TEE_AEDecryptFinal _ _ _ _ _ _ := Panic;
  TEE_AsymmetricEncrypt _ _ := no_answer;
  TEE_AsymmetricDecrypt _ _ := no_answer;
  TEE_AsymmetricSignDigest _ _ := no_answer;
  TEE_AsymmetricVerifyDigest _ _ _ _ _ := Panic;
  TEE_DeriveKey _ _ _ _ := Panic;
  operations s := dom (c_macs s);
|}.

#[local] Existing Instance ram_objects.
#[local] Instance card_objects : TeeObjects card := {|
  TEE_AllocateTransientObject t n := on_ram (TEE_AllocateTransientObject t n);
  TEE_ResetTransientObject h := on_ram (TEE_ResetTransientObject h);
  TEE_PopulateTransientObject m h l n := on_ram (TEE_PopulateTransientObject m h l n);
  TEE_CopyObjectAttributes1 h h' := on_ram (TEE_CopyObjectAttributes1 h h');
  TEE_GenerateKey m h n l k := on_ram (TEE_GenerateKey m h n l k);
  TEE_FreeObject h := on_ram (TEE_FreeObject h);
  TEE_InitRefAttribute := TEE_InitRefAttribute (St := ram);
  TEE_InitValueAttribute := TEE_InitValueAttribute (St := ram);
  TEE_GetObjectBufferAttribute h i d := on_ram (TEE_GetObjectBufferAttribute h i d);
  TEE_GetObjectValueAttribute h i := on_ram (TEE_GetObjectValueAttribute h i);
  TEE_AllocatePersistentObjectEnumerator := on_ram TEE_AllocatePersistentObjectEnumerator;
  TEE_FreePersistentObjectEnumerator h := on_ram (TEE_FreePersistentObjectEnumerator h);
  TEE_ResetPersistentObjectEnumerator h := on_ram (TEE_ResetPersistentObjectEnumerator h);
  TEE_StartPersistentObjectEnumerator h i := on_ram (TEE_StartPersistentObjectEnumerator h i);
  TEE_GetNextPersistentObject h d := on_ram (TEE_GetNextPersistentObject h d);
  transients s := transients (c_ram s);
  extractable s := extractable (c_ram s);
  enumerators s := enumerators (c_ram s);
|}.

#[local] Instance card_macs : MacTee card := { HMAC_SHA1 := Sha1.hmac; macs := c_macs }.

#[local] Instance card_macs_ok : MacTeeOk card.
Proof.
  split; cbn.
  - intros k m. apply Sha1.sha1_shape.
  - intros k m. apply Sha1.sha1_shape.
  - intros n s _. destruct (next_fresh (dom (c_macs s))) as [_ Hf].
    eexists _, _, _. split; [done|]. split; [done|]. left. by rewrite not_elem_of_dom in Hf.
  - intros h o k cs s _ Ho Hk. cbn. unfold key_in, attribute_of. rewrite Ho.
    change (cs !! secret_id = Some (ByRef k)) in Hk. cbv iota. rewrite Hk.
    eexists _, _. split; [done|]. split; [done|by left].
  - intros h k s E. unfold on_macs. rewrite E. by eexists.
  - intros h k msg l s E. unfold on_macs. rewrite E. by eexists.
  - intros h k msg l d n s E [Hn _]. unfold final, on_macs. rewrite E.
    apply Z.leb_le in Hn. rewrite Hn. by eexists.
  - intros h s _. by eexists.
  - intros n s _. destruct (next_fresh (dom (r_objects (c_ram s)))) as [H0' Hf].
    eexists _, _, _. split; [done|]. split; [done|]. left. by rewrite not_elem_of_dom in Hf.
  - done.
  - intros m o l cs s _ Hc. unfold on_ram. rewrite Hc. eexists _, _. split; [done|].
    split; [done|by left].
  - intros o s _. by eexists.
Qed.

#[local] Instance card_macs_reliable : MacTeeReliable card.
Proof.
  split; cbn; unfold on_macs, on_ram; cbn.
  - by intros n s r s' [= <- _].
  - intros h o s code s'. destruct (key_in o s); [|done]. by intros [= <- _].
  - by intros n s r s' [= <- _].
  - intros m o l n s code s'. destruct (contents_at m l); [|done]. by intros [= <- _].
Qed.

(** The client's calls. *)
Definition key_world (k : bytes) : world :=
  mkWorld (buffer_at 0x1000 k) [mkParam 0x1000 (len k); mkParam 0 0; mkParam 0 0; mkParam 0 0].
Definition value_world : world := mkWorld ∅ (replicate 4 (mkParam 0 0)).

Definition K : bytes :=
  [0x31; 0x32; 0x33; 0x34; 0x35; 0x36; 0x37; 0x38; 0x39; 0x30;
   0x31; 0x32; 0x33; 0x34; 0x35; 0x36; 0x37; 0x38; 0x39; 0x30].
Definition RFC4226_TEST_VALUES : list Z :=
  [755224; 287082; 359152; 969429; 338314; 254676; 287922; 162583; 399871; 520489].

Definition host_requests : list request := Register K :: replicate 10 Get.
Definition host_calls : list (Z * Z * world) :=
  (0, TEE_PARAM_TYPES 5 0 0 0, key_world K) :: replicate 10 (1, TEE_PARAM_TYPES 2 0 0 0, value_world).

Lemma host_carried : Forall2 carries host_requests host_calls.
Proof.
  constructor.
  - assert (in_buffer (key_world K) 0 K) as Hin.
    { exists 0x1000. split; [done|]. split; [done|].
      split; [by split_and!; [..|exact (buffer_at_mapped 0x1000 K)]|]. split; [done|].
      intros i Hi. cbn [wmem key_world]. apply buffer_at_lookup. unfold len in *. lia. }
    eexists _, _, _, _. split; [by apply any_tuple; [done..|by eapply any_input|]|]. done.
  - repeat (constructor; [eexists _, _, _, _; split; [by apply any_tuple|];
      split; [done|]; split; [done|]; eexists; by split|]). constructor.
Qed.

Example rfc_codes :
  fst <$> answers answer host_requests (None, 0)
    = Some (Accepted :: (Code <$> RFC4226_TEST_VALUES)).
Proof. vm_compute. reflexivity. Qed.


End HotpExamples.
