(* ===== verification/DigestTa.v ===== *)
(** * DigestTa: the digest TA

    Models [examples/ta/digest-rs/src/main.rs] and [examples/ta/proto/src/digest.rs]:
    a session owns a SHA-256 operation, which its default allocates and its end
    frees. *)

From S2P Require Import Prelude TeeDefines UteeError Memory Params EntryPoints Storage Crypto.
From S2P Require Import Transient TaApp SessionTa TaState.

(** ** [proto::digest::Command] *)

Module Command.

Inductive Command : Type := Update | DoFinal | Unknown.

Definition from (x : Z) : Command :=
  if x =? 0 then Update else if x =? 1 then DoFinal else Unknown.

Definition into (c : Command) : Z :=
  match c with Update => 0 | DoFinal => 1 | Unknown => 2 end.

End Command.

(** ** The session context *)

Record DigestOp : Type := mkDigestOp { op : OperationHandle }.

Section Ta.
Context `{!Target, !TeeMemMove, !Allocator}.
Context {St : Type} `{!TeeCrypto St}.

Abbreviation app A := (prog (side St * world) A).
Definition Parameters4 : Type := ParameterAny * ParameterAny * ParameterAny * ParameterAny.

(** [Digest::allocate(..).unwrap()]. *)
Definition default : app DigestOp :=
  let* r := on_crypto (Digest.allocate AlgorithmId.Sha256) in
  match r with
  | Ok op => pret (mkDigestOp op)
  | Err _ => plift Panic
  end.

Definition drop_ctx (ctx : DigestOp) : app unit :=
  on_crypto (OperationHandleOps.drop_handle (op ctx)).

Definition update (digest : DigestOp) (params : Parameters4) : app (Result unit) :=
  let '(p0, _, _, _) := params in
  let? p0 := pret (ParameterAny.as_memref_input p0) in
  let* buffer := on_params (read_to_vec p0) in
  let* _ := on_crypto (Digest.update (op digest) buffer) in
  pret (Ok tt).

Definition do_final (digest : DigestOp) (params : Parameters4) : app (Result unit) :=
  let '(p0, p1, p2, _) := params in
  let? p0 := pret (ParameterAny.as_memref_input p0) in
  let? p1 := pret (ParameterAny.as_memref_output p1) in
  let? p2 := pret (ParameterAny.as_value_output p2) in
  let* input := on_params (read_to_vec p0) in
  let* n := on_params (buffer_len p1) in
  let* out_buf := plift (vec_zeroed n) in
  let* (r, out_buf) := on_crypto (Digest.do_final (op digest) input out_buf) in
  let? length := pret r in
  let* _ := on_params (set_a p2 (wrap_u 32 length)) in
  let* out := plift (slice out_buf 0 length) in
  let? _ := on_params (set_output p1 out) in
  pret (Ok tt).

(** The context itself never changes. *)
Definition invoke_command (sess_ctx : DigestOp) (cmd_id : Z) (params : Parameters4)
    : app (Result unit * DigestOp) :=
  let* r := match Command.from cmd_id with
            | Command.Update => update sess_ctx params
            | Command.DoFinal => do_final sess_ctx params
            | Command.Unknown => pret (bail ErrorKind.BadParameters)
            end in
  pret (r, sess_ctx).

Definition create : app (Result unit) := pret (Ok tt).
Definition open_session (_params : ParameterNone * ParameterNone * ParameterNone * ParameterNone)
    (ctx : DigestOp) : app (Result unit * DigestOp) := pret (Ok tt, ctx).
Definition close_session (ctx : DigestOp) : app DigestOp := pret ctx.
Definition destroy : app unit := pret tt.

Definition digest_session : world -> list (Z * Z * world) -> world -> side St ->
    gmap Z DigestOp -> outcome (option (list (Z * world)) * (side St * gmap Z DigestOp)) :=
  session from_raw_tuple from_raw_tuple default drop_ctx
    open_session invoke_command close_session (TEE_PARAM_TYPES 0 0 0 0).

End Ta.
