(* ===== verification/DigestTaSpec.v ===== *)
(** * DigestTaSpec: the digest TA hashes what its client sends *)

From S2P Require Import Prelude TeeDefines UteeError Memory Params EntryPoints Storage Crypto.
From S2P Require Import Transient ParamsSpec TransientSpec TaApp SessionTa TaState HotpSpec DigestTa.

(** ** Documented behaviour of a TEE that computes SHA-256 *)

(** [hashing]: the operations, with the bytes given so far. *)
Class DigestTee (St : Type) `{TeeCrypto St} : Type := {
  SHA256 : bytes -> bytes;
  hashing : St -> gmap Z bytes;
}.

Class DigestTeeOk (St : Type) `{DigestTee St} : Prop := {
  sha256_length m : length (SHA256 m) = 32%nat;
  (* there may be no memory for the operation *)
  digest_allocate s :
    exists code h s', TEE_AllocateOperation (AlgorithmId.as_u32 AlgorithmId.Sha256)
        (OperationMode.as_u32 OperationMode.Digest) 0 s = Ret ((code, h), s') /\
      (code = TEE_SUCCESS -> hashing s !! h = None /\ hashing s' = <[h := []]> (hashing s));
  digest_update h m l s : hashing s !! h = Some m ->
    exists s', TEE_DigestUpdate h l s = Ret (tt, s') /\ hashing s' = <[h := m ++ l]> (hashing s);
  (* the size behind the pointer counts, which is at most the buffer's *)
  digest_final h m l dest size s : hashing s !! h = Some m -> 32 <= size <= len dest ->
    exists s', TEE_DigestDoFinal h l dest size s
        = Ret (mkOut TEE_SUCCESS 32 (splice dest 0 (SHA256 (m ++ l))), s') /\
      hashing s' = <[h := []]> (hashing s);
  (* a short buffer leaves the operation as it was *)
  digest_short h m l dest size s : hashing s !! h = Some m -> 0 <= size < 32 -> size <= len dest ->
    exists d s', TEE_DigestDoFinal h l dest size s = Ret (mkOut TEE_ERROR_SHORT_BUFFER 32 d, s') /\
      hashing s' = hashing s;
  digest_free h s : is_Some (hashing s !! h) ->
    exists s', TEE_FreeOperation h s = Ret (tt, s') /\ hashing s' = delete h (hashing s);
}.

(** ** What the client asks for, and is told *)

(** The commands, with parameters of the types they expect or of others. *)
Inductive request : Type :=
| Update (l : bytes) | DoFinal (l : bytes) (capacity : Z) | Mistyped (c : Command.Command)
| Other (cmd : Z).
Inductive reply : Type := Taken | Hash (d : bytes) | TooShort | Refused.

Section Spec.
Context `{!Target, !TargetOk, !TeeMemMove, !TeeMemMoveOk, !Allocator, !AllocatorOk}.
Context {St : Type} `{!TeeCrypto St, !DigestTee St, !DigestTeeOk St}.

(** The state: the bytes since the last digest.  [None] is a panic: [vec![0u8; n]] cannot
    be longer than half the address space. *)
Definition answer (r : request) (a : bytes) : option (reply * bytes) :=
  match r with
  | Update l => Some (Taken, a ++ l)
  | DoFinal l c =>
      if 2 ^ (ptr_bits - 1) <=? c then None
      else Some (if 32 <=? c then (Hash (SHA256 (a ++ l)), []) else (TooShort, a))
  | Mistyped _ | Other _ => Some (Refused, a)
  end.

Definition spec_step (r : request) (a : bytes) (out : option (reply * bytes)) : Prop :=
  out = answer r a.

(** Every call whose raw parameters convert: the entry point refuses the others. *)
Definition carries (r : request) (call : Z * Z * world) : Prop :=
  let '(cmd, types, w) := call in
  exists p0 p1 p2 p3,
    from_raw_tuple (A:=ParameterAny) (B:=ParameterAny) (C:=ParameterAny) (D:=ParameterAny) types w
      = Ret (Ok (p0, p1, p2, p3), w) /\
    match r with
    | Update l =>
        cmd = Command.into Command.Update /\
        p0 = ParameterAny.MemrefInput (mkMemrefInput 0) /\ in_buffer w 0 l
    | DoFinal l c =>
        cmd = Command.into Command.DoFinal /\
        p0 = ParameterAny.MemrefInput (mkMemrefInput 0) /\ in_buffer w 0 l /\
        p1 = ParameterAny.MemrefOutput (mkMemrefOutput c 1) /\ out_buffer w 1 c /\
        p2 = ParameterAny.ValueOutput (mkValueOutput 2) /\
        exists p, raws w !! 2%nat = Some p /\ param_ok p
    | Mistyped Command.Update =>
        cmd = Command.into Command.Update /\
        ParameterAny.as_memref_input p0 = bail ErrorKind.BadParameters
    | Mistyped Command.DoFinal =>
        cmd = Command.into Command.DoFinal /\
        (ParameterAny.as_memref_input p0 = bail ErrorKind.BadParameters \/
         ParameterAny.as_memref_output p1 = bail ErrorKind.BadParameters \/
         ParameterAny.as_value_output p2 = bail ErrorKind.BadParameters)
    | Mistyped Command.Unknown => False
    | Other c => cmd = c /\ Command.from c = Command.Unknown
    end.

(** The digest is in slot 1, its length also in slot 2; nothing else changes. *)
Definition gives (rp : reply) (w w' : world) (code : Z) : Prop :=
  match rp with
  | Taken => code = TEE_SUCCESS /\ w' = w
  | Hash d =>
      code = TEE_SUCCESS /\ (value_a <$> raws w' !! 2%nat) = Some (len d) /\
      exists raw, raws w !! 1%nat = Some raw /\ reported_size w' 1 = Some (len d) /\
        holds_at (wmem w') (memref_buffer raw) d /\
        same_outside (wmem w) (wmem w') (memref_buffer raw) (len d) /\
        raws w' !! 0%nat = raws w !! 0%nat /\ raws w' !! 3%nat = raws w !! 3%nat
  | TooShort => code = TEE_ERROR_SHORT_BUFFER /\ w' = w
  | Refused => code = TEE_ERROR_BAD_PARAMETERS /\ w' = w
  end.

(** The session owns one operation more than there were when it began. *)
Record rep (s0 : side St) (ctx : DigestOp) (s : side St) (a : bytes) : Prop := {
  rep_op : exists p h, op ctx = mkHandle p /\ p <> 0 /\ sd_boxes s0 !! p = None /\
    hashing (sd_tee s0) !! h = None /\ sd_boxes s = <[p := h]> (sd_boxes s0) /\
    hashing (sd_tee s) = <[h := a]> (hashing (sd_tee s0));
  rep_enums : sd_enums s = sd_enums s0;
}.

(** The TEE's operations and the boxes are as they were. *)
Definition restored (s s' : side St) : Prop :=
  hashing (sd_tee s') = hashing (sd_tee s) /\ sd_boxes s' = sd_boxes s /\ sd_enums s' = sd_enums s.

(** The TEE has no operation for the session. *)
Definition no_operation (s : side St) : bool :=
  match TEE_AllocateOperation (AlgorithmId.as_u32 AlgorithmId.Sha256)
          (OperationMode.as_u32 OperationMode.Digest) 0 (sd_tee s) with
  | Ret ((code, _), _) => negb (code =? TEE_SUCCESS)
  | _ => false
  end.

Lemma digest_opened s w :
  if no_operation s then default (s, w) = Panic
  else exists ctx s', default (s, w) = Ret (ctx, (s', w)) /\ rep s ctx s' [].
Proof.
  destruct s as [t b e]. destruct (digest_allocate t) as (code & h & t' & E & Hok).
  unfold no_operation. cbn [sd_tee]. rewrite E.
  pose proof (op_allocate_answer AlgorithmId.Sha256 OperationMode.Digest 0 t b code h t'
    ltac:(done) E) as Ha. unfold default, tee_check in *.
  destruct (code =? TEE_SUCCESS) eqn:Hc; cbn [negb]; reflect_bool.
  - destruct (Hok Hc) as [Hf Hh]. eexists _, _. split.
    + erewrite pbind_Ret by (apply on_crypto_Ret; exact Ha). done.
    + split; [|done]. eexists _, h. cbn [op sd_boxes sd_tee].
      split_and!; [done|apply alloc_nonnull|apply not_elem_of_dom, alloc_fresh|done..].
  - by erewrite pbind_Ret by (apply on_crypto_Ret; exact Ha).
Qed.

Lemma digest_closed s0 ctx s a w :
  rep s0 ctx s a -> exists s', drop_ctx ctx (s, w) = Ret (tt, (s', w)) /\ restored s0 s'.
Proof.
  intros [(p & h & Hop & Hp & Hb0 & Hh0 & Hb & Hh) He]. destruct s as [t b e], s0 as [t0 b0 e0].
  cbn [sd_tee sd_boxes sd_enums] in *. subst b e.
  destruct (digest_free h t) as (t' & E & Ht); [rewrite Hh, lookup_insert_eq; eauto|].
  eexists. split.
  - unfold drop_ctx. rewrite Hop. apply on_crypto_Ret.
    apply (op_drop_Ret p h); [done|apply lookup_insert_eq|done].
  - unfold restored. cbn [sd_tee sd_boxes sd_enums]. rewrite Ht, Hh.
    by rewrite !delete_insert_id.
Qed.

(** A change of the operation's bytes. *)
Lemma rep_step s0 ctx s a p h t a' :
  op ctx = mkHandle p -> p <> 0 -> sd_boxes s0 !! p = None -> hashing (sd_tee s0) !! h = None ->
  sd_boxes s = <[p := h]> (sd_boxes s0) -> hashing (sd_tee s) = <[h := a]> (hashing (sd_tee s0)) ->
  sd_enums s = sd_enums s0 -> hashing t = <[h := a']> (hashing (sd_tee s)) ->
  rep s0 ctx (mkSide t (sd_boxes s) (sd_enums s)) a'.
Proof.
  intros Hop Hp Hb0 Hh0 Hb Hh He Ht. split; [|done]. exists p, h. cbn [sd_boxes sd_tee].
  by rewrite Ht, Hh, insert_insert_eq.
Qed.

Lemma update_steps s0 ctx s a w l p1 p2 p3 :
  rep s0 ctx s a -> in_buffer w 0 l ->
  exists s', update ctx (ParameterAny.MemrefInput (mkMemrefInput 0), p1, p2, p3) (s, w)
      = Ret (Ok tt, (s', w)) /\ rep s0 ctx s' (a ++ l).
Proof.
  intros [(p & h & Hop & Hp & Hb0 & Hh0 & Hb & Hh) He] Hin.
  destruct (digest_update h a l (sd_tee s)) as (t' & E & Ht); [by rewrite Hh, lookup_insert_eq|].
  exists (mkSide t' (sd_boxes s) (sd_enums s)). split; [|by eapply rep_step].
  unfold update. cbn [ParameterAny.as_memref_input]. erewrite ptry_Ok by done.
  erewrite pbind_Ret by (by apply read_input_spec). destruct s as [t b e]. rewrite Hop.
  cbn [sd_tee sd_boxes sd_enums] in *.
  erewrite pbind_Ret by (apply on_crypto_Ret; apply (boxed_input p h);
    [by rewrite Hb, lookup_insert_eq|done]). done.
Qed.

(** The call on the operation, both ways. *)
Lemma final_call p h l d t b a t' :
  b !! p = Some h -> TEE_DigestDoFinal h l d (len d) t = Ret (a, t') ->
  Digest.do_final (mkHandle p) l d (mkCstate t b) = Ret (OperationHandleOps.sized a, mkCstate t' b).
Proof. intros Hb E. by apply (boxed p h (fun h => TEE_DigestDoFinal h l d (len d))). Qed.

Lemma sha256_len m : len (SHA256 m) = 32.
Proof. unfold len. by rewrite sha256_length. Qed.

Lemma slice_hash m c : 32 <= c -> slice (splice (zeros c) 0 (SHA256 m)) 0 32 = Ret (SHA256 m).
Proof.
  intros Hc. pose proof (slice_splice (zeros c) (SHA256 m)) as Hs. rewrite sha256_len in Hs. apply Hs.
  by rewrite len_zeros by lia.
Qed.

(** Writing the digest. *)
Lemma hash_given (s : side St) w c q d :
  out_buffer w 1 c -> raws w !! 2%nat = Some q -> param_ok q -> len d = 32 -> 32 <= c ->
  let w1 := mkWorld (wmem w) (<[2%nat := set_value_a q 32]> (raws w)) in
  exists w', on_params (set_output (mkMemrefOutput c 1) d) (s, w1) = Ret (Ok tt, (s, w')) /\
    gives (Hash d) w w' TEE_SUCCESS.
Proof.
  intros (b & Hb & _ & Hv) Hq Hok Hd Hc w1.
  destruct (output_spec s w1 1 c b c d) as (w' & E & Hr & raw & Hraw & Hh & Hs & Hj);
    [cbn [raws w1]; by rewrite list_lookup_insert_ne|done|lia|].
  exists w'. split; [done|]. split; [done|].
  assert (raws w1 !! 2%nat = Some (set_value_a q 32)) as Hw2
    by (apply list_lookup_insert_eq; by eapply lookup_lt_Some).
  split; [rewrite Hj, Hw2 by done; cbn; f_equal; rewrite Hd; by apply value_set_a|].
  exists raw. cbn [raws wmem w1] in *. rewrite !list_lookup_insert_ne in * by done.
  split_and!; [done..|rewrite Hj by done|rewrite Hj by done]; by rewrite list_lookup_insert_ne.
Qed.

Lemma do_final_steps s0 ctx s a w l c q p3 :
  rep s0 ctx s a -> in_buffer w 0 l -> out_buffer w 1 c -> raws w !! 2%nat = Some q ->
  param_ok q -> c < 2 ^ (ptr_bits - 1) ->
  exists res s' w', do_final ctx (ParameterAny.MemrefInput (mkMemrefInput 0),
      ParameterAny.MemrefOutput (mkMemrefOutput c 1), ParameterAny.ValueOutput (mkValueOutput 2), p3)
      (s, w) = Ret (res, (s', w')) /\
    (if 32 <=? c
     then gives (Hash (SHA256 (a ++ l))) w w' (code_of res) /\ rep s0 ctx s' []
     else gives TooShort w w' (code_of res) /\ rep s0 ctx s' a).
Proof.
  intros Hrep Hin Hout Hq Hok Hvec. pose proof Hrep as [(p & h & Hop & Hp & Hb0 & Hh0 & Hb & Hh) He].
  assert (0 <= c) as Hc0 by (destruct Hout as (? & _ & _ & _ & ? & _); lia).
  assert (hashing (sd_tee s) !! h = Some a) as Ha by (by rewrite Hh, lookup_insert_eq).
  assert (sd_boxes s !! p = Some h) as Hbp by (by rewrite Hb, lookup_insert_eq).
  unfold do_final. cbn [ParameterAny.as_memref_input ParameterAny.as_memref_output
    ParameterAny.as_value_output]. do 3 (erewrite ptry_Ok by done).
  erewrite pbind_Ret by (by apply read_input_spec).
  erewrite pbind_Ret by (by apply on_params_Ret).
  erewrite pbind_Ret by (unfold plift, vec_zeroed; cbn; by rewrite (proj2 (Z.ltb_lt _ _) Hvec)).
  destruct s as [t b e].
  cbn [sd_tee sd_boxes sd_enums] in *. rewrite Hop. destruct (32 <=? c) eqn:E32; reflect_bool.
  - destruct (digest_final h a l (zeros c) (len (zeros c)) t Ha) as (t' & E & Ht); [rewrite len_zeros by lia; lia|].
    erewrite pbind_Ret by (apply on_crypto_Ret; by apply (final_call p h)).
    cbn [OperationHandleOps.sized oa_code oa_size oa_buf]. erewrite ptry_Ok by done.
    erewrite pbind_Ret by (by apply set_a_spec).
    erewrite pbind_Ret by (unfold plift; by rewrite slice_hash).
    destruct (hash_given (mkSide t' b e) w c q (SHA256 (a ++ l))) as (w' & E' & Hg);
      [done..|apply sha256_len|done|].
    change (wrap_u 32 32) with 32. erewrite ptry_Ok by exact E'.
    eexists (Ok tt), _, w'. split; [done|]. split; [done|]. by eapply (rep_step _ _ (mkSide t b e)).
  - destruct (digest_short h a l (zeros c) (len (zeros c)) t Ha) as (d & t' & E & Ht);
      [rewrite len_zeros by done; lia|done|].
    erewrite pbind_Ret by (apply on_crypto_Ret; by apply (final_call p h)).
    cbn [OperationHandleOps.sized oa_code oa_size oa_buf].
    eexists (bail ErrorKind.ShortBuffer), (mkSide t' b e), w. split; [done|]. split; [done|].
    apply (rep_step s0 ctx (mkSide t b e) a p h); try done. cbn [sd_tee].
    by rewrite Ht, Hh, insert_insert_eq.
Qed.

Lemma do_final_panics ctx s w l c p2 p3 :
  in_buffer w 0 l -> out_buffer w 1 c -> 2 ^ (ptr_bits - 1) <= c ->
  do_final ctx (ParameterAny.MemrefInput (mkMemrefInput 0),
    ParameterAny.MemrefOutput (mkMemrefOutput c 1), ParameterAny.ValueOutput p2, p3) (s, w) = Panic.
Proof.
  intros Hin Hout Hc. unfold do_final. cbn [ParameterAny.as_memref_input
    ParameterAny.as_memref_output ParameterAny.as_value_output]. do 3 (erewrite ptry_Ok by done).
  erewrite pbind_Ret by (by apply read_input_spec).
  erewrite pbind_Ret by (by apply on_params_Ret).
  unfold pbind at 1, plift, vec_zeroed. cbn [mo_capacity]. by rewrite (proj2 (Z.ltb_ge _ _) Hc).
Qed.

Lemma digest_invoke s0 :
  invoke_refines from_raw_tuple invoke_command spec_step carries gives (rep s0).
Proof.
  intros ctx s a r cmd types w Hrep (p0 & p1 & p2 & p3 & Ep & Hc). eexists. split; [exact Ep|].
  eexists. split; [reflexivity|]. unfold invoke_command.
  assert (forall h : prog (side St * world) (Result unit), h (s, w) = Ret (bail ErrorKind.BadParameters, (s, w)) ->
    exists res ctx' g' w', (let* r0 := h in pret (r0, ctx)) (s, w) = Ret ((res, ctx'), (g', w')) /\
      gives Refused w w' (code_of res) /\ rep s0 ctx' g' a) as Hrefuse
    by (intros h E; eexists _, ctx, s, w; erewrite pbind_Ret by exact E; done).
  destruct r as [l|l c|[| |]|c]; cbn [answer].
  - destruct Hc as (-> & -> & Hin).
    destruct (update_steps s0 ctx s a w l p1 p2 p3 Hrep Hin) as (s' & E & Hrep').
    eexists _, ctx, s', w. erewrite pbind_Ret by exact E. by split.
  - destruct Hc as (-> & -> & Hin & -> & Hout & -> & q & Hq & Hok).
    destruct (2 ^ (ptr_bits - 1) <=? c) eqn:Hvec; reflect_bool.
    + unfold pbind at 1. cbn -[do_final].
      by rewrite (do_final_panics _ s w l).
    + destruct (do_final_steps s0 ctx s a w l c q p3 Hrep Hin Hout Hq Hok Hvec)
        as (res & s' & w' & E & HQ).
      destruct (32 <=? c); eexists res, ctx, s', w'; by erewrite pbind_Ret by exact E.
  - destruct Hc as (-> & Hp). apply Hrefuse. cbn. unfold update. by rewrite Hp.
  - destruct Hc as (-> & Hp). apply Hrefuse. change (do_final ctx (p0, p1, p2, p3) (s, w) = Ret (bail ErrorKind.BadParameters, (s, w))).
    unfold do_final.
    destruct Hp as [Hp|[Hp|Hp]].
    + by rewrite Hp.
    + destruct p0; try reflexivity. cbn [ParameterAny.as_memref_input]. erewrite ptry_Ok by done. by rewrite Hp.
    + destruct p0; try reflexivity. cbn [ParameterAny.as_memref_input]. erewrite ptry_Ok by done.
      destruct p1; try reflexivity. cbn [ParameterAny.as_memref_output]. erewrite ptry_Ok by done. by rewrite Hp.
  - done.
  - destruct Hc as (-> & Hc). apply Hrefuse. by rewrite Hc.
Qed.


End Spec.

(** ** A TEE that computes SHA-256 *)

Module Sha256.
Import Sha1.

Definition rotr (n x : Z) : Z := rotl (32 - n) x.

(** The constants are the first 32 bits behind the point of the roots of the first
    primes: square roots for the initial value, cube roots for the rounds. *)
Definition is_prime (n : nat) : bool :=
  forallb (fun d => negb (n mod d =? 0)%nat) (seq 2 (n - 2)).
Definition primes : list Z := Z.of_nat <$> List.filter is_prime (seq 2 310).

(** The largest [r] below [lo + 2 ^ n] with [r ^ 3 <= x]. *)
Fixpoint cube_root (n : nat) (lo x : Z) : Z :=
  match n with
  | O => lo
  | S n =>
      let m := lo + 2 ^ Z.of_nat n in
      cube_root n (if m ^ 3 <=? x then m else lo) x
  end.

Definition K : list Z :=
  Eval vm_compute in (fun p => cube_root 36 0 (p * 2 ^ 96) mod 2 ^ 32) <$> primes.
Definition H0 : list Z :=
  Eval vm_compute in (fun p => Z.sqrt (p * 2 ^ 64) mod 2 ^ 32) <$> take 8 primes.

Fixpoint schedule (n : nat) (r : list Z) : list Z :=
  match n with
  | O => rev r
  | S n =>
      let w i := nth i r 0 in
      let s0 := Z.lxor (Z.lxor (rotr 7 (w 14%nat)) (rotr 18 (w 14%nat))) (Z.shiftr (w 14%nat) 3) in
      let s1 := Z.lxor (Z.lxor (rotr 17 (w 1%nat)) (rotr 19 (w 1%nat))) (Z.shiftr (w 1%nat) 10) in
      schedule n (add [w 15%nat; s0; w 6%nat; s1] :: r)
  end.

Definition digest : Type := Z * Z * Z * Z * Z * Z * Z * Z.

Definition round (s : digest) (kw : Z * Z) : digest :=
  let '(a, b, c, d, e, f, g, h) := s in
  let s1 := Z.lxor (Z.lxor (rotr 6 e) (rotr 11 e)) (rotr 25 e) in
  let ch := Z.lxor (Z.land e f) (Z.land (Z.lxor e (Z.ones 32)) g) in
  let t1 := add [h; s1; ch; kw.1; kw.2] in
  let s0 := Z.lxor (Z.lxor (rotr 2 a) (rotr 13 a)) (rotr 22 a) in
  let maj := Z.lxor (Z.lxor (Z.land a b) (Z.land a c)) (Z.land b c) in
  (add [t1; s0; maj], a, b, c, add [d; t1], e, f, g).

Definition block (l : bytes) (s : digest) : digest :=
  let '(a, b, c, d, e, f, g, h) := s in
  let '(a', b', c', d', e', f', g', h') :=
    fold_left round (zip K (schedule 48 (rev (words 16 l)))) s in
  (add [a; a'], add [b; b'], add [c; c'], add [d; d'], add [e; e'], add [f; f'], add [g; g'],
   add [h; h']).

Fixpoint blocks (n : nat) (l : bytes) (s : digest) : digest :=
  match n with O => s | S n => blocks n (drop 64 l) (block (take 64 l) s) end.

Definition sha256 (m : bytes) : bytes :=
  let l := pad m in
  let h0 i := nth i H0 0 in
  let '(a, b, c, d, e, f, g, h) := blocks (length l / 64) l
    (h0 0%nat, h0 1%nat, h0 2%nat, h0 3%nat, h0 4%nat, h0 5%nat, h0 6%nat, h0 7%nat) in
  mjoin ((fun w => rev (le_split 4 w)) <$> [a; b; c; d; e; f; g; h]).

Lemma sha256_size m : length (sha256 m) = 32%nat.
Proof. unfold sha256. by destruct (blocks _ _ _) as [[[[[[[a b] c] d] e] f] g] h]. Qed.

(** FIPS 180-4: the digest of "abc". *)
Definition abc_digest : bytes :=
  [0xba; 0x78; 0x16; 0xbf; 0x8f; 0x01; 0xcf; 0xea; 0x41; 0x41; 0x40; 0xde; 0x5d; 0xae; 0x22; 0x23;
   0xb0; 0x03; 0x61; 0xa3; 0x96; 0x17; 0x7a; 0x9c; 0xb4; 0x10; 0xff; 0x61; 0xf2; 0x00; 0x15; 0xad].

Example sha256_abc : sha256 [97; 98; 99] = abc_digest.
Proof. by vm_compute. Qed.

End Sha256.

Module DigestExamples.
Import RamObjects HotpExamples.
#[local] Existing Instances ex_target ex_target_ok ex_memmove ex_memmove_ok ex_alloc ex_alloc_ok.

Abbreviation card := (gmap Z bytes).

Definition on_digest {A} (h : Z) (f : bytes -> A * bytes) : prog card A :=
  fun s => match s !! h with
           | Some m => Ret ((f m).1, <[h := (f m).2]> s)
           | None => Panic
           end.

#[local] Instance card_crypto : TeeCrypto card := {|
  TEE_AllocateOperation _ _ _ s :=
    let h := next (dom s) in Ret ((TEE_SUCCESS, h), <[h := []]> s);
  TEE_FreeOperation h s := Ret (tt, delete h s);
  TEE_GetOperationInfo _ _ := Panic;
  TEE_GetOperationInfoMultiple _ _ _ _ := Panic;
  TEE_ResetOperation h := on_digest h (fun _ => (tt, []));
  TEE_SetOperationKey _ _ _ := Panic;
  TEE_SetOperationKey2 _ _ _ _ := Panic;
  TEE_CopyOperation _ _ _ := Panic;
  TEE_IsAlgorithmSupported _ _ _ := Panic;
  TEE_DigestUpdate h l := on_digest h (fun m => (tt, m ++ l));
  TEE_DigestDoFinal h l d n := on_digest h (fun m =>
    if 32 <=? n then (mkOut TEE_SUCCESS 32 (splice d 0 (Sha256.sha256 (m ++ l))), [])
    else (mkOut TEE_ERROR_SHORT_BUFFER 32 d, m));
  TEE_CipherInit _ _ _ := Panic;
  TEE_CipherUpdate _ _ _ _ _ := Panic;
  TEE_CipherDoFinal _ _ _ _ _ := Panic;
  TEE_MACInit _ _ _ := Panic;
  TEE_MACUpdate _ _ _ := Panic;
  TEE_MACComputeFinal _ _ _ _ _ := Panic;
  TEE_MACCompareFinal _ _ _ _ := Panic;
  TEE_AEInit _ _ _ _ _ _ := Panic;
  TEE_AEUpdateAAD _ _ _ := Panic;
  TEE_AEUpdate _ _ _ _ _ := Panic;
  TEE_AEEncryptFinal _ _ _ _ _ _ _ := Panic;
  TEE_AEDecryptFinal _ _ _ _ _ _ := Panic;
  TEE_AsymmetricEncrypt _ _ _ _ _ _ := Panic;
  TEE_AsymmetricDecrypt _ _ _ _ _ _ := Panic;
  TEE_AsymmetricSignDigest _ _ _ _ _ _ := Panic;
  TEE_AsymmetricVerifyDigest _ _ _ _ _ := Panic;
  TEE_DeriveKey _ _ _ _ := Panic;
  operations s := dom s;
|}.

#[local] Instance card_digest : DigestTee card := { SHA256 := Sha256.sha256; hashing s := s }.

#[local] Instance card_digest_ok : DigestTeeOk card.
Proof.
  split; cbn.
  - apply Sha256.sha256_size.
  - intros s. destruct (next_fresh (dom s)) as [_ Hf].
    eexists _, _, _. split; [done|]. intros _. by rewrite not_elem_of_dom in Hf.
  - intros h m l s E. unfold on_digest. rewrite E. by eexists.
  - intros h m l d n s E [Hd _]. unfold on_digest. rewrite E, (proj2 (Z.leb_le _ _) Hd). by eexists.
  - intros h m l d n s E [_ Hd] _. unfold on_digest. rewrite E, (proj2 (Z.leb_gt _ _) Hd).
    eexists _, _. split; [done|]. by apply insert_id.
  - intros h s _. by eexists.
Qed.

(** [l] in slot 0, a buffer of [n] bytes behind it, and a value. *)
Definition call_world (l : bytes) (n : Z) : world :=
  mkWorld (buffer_at 0x1000 (l ++ zeros n))
          [mkParam 0x1000 (len l); mkParam (0x1000 + len l) n; mkParam 0 0; mkParam 0 0].

(** "a", then "bc" with a buffer that is too small, then "bc" again. *)
Definition abc_requests : list request := [Update [97]; DoFinal [98; 99] 16; DoFinal [98; 99] 64].
Definition abc_calls : list (Z * Z * world) :=
  [(0, TEE_PARAM_TYPES 5 0 0 0, call_world [97] 0);
   (1, TEE_PARAM_TYPES 5 6 2 0, call_world [98; 99] 16);
   (1, TEE_PARAM_TYPES 5 6 2 0, call_world [98; 99] 64)].

Lemma call_input l n : len l < 1000 -> 0 <= n < 1000 -> in_buffer (call_world l n) 0 l.
Proof.
  intros Hl Hn. pose proof (len_nonneg l).
  pose proof (buffer_at_mapped 0x1000 (l ++ zeros n)) as Hm. unfold len in Hm.
  rewrite length_app, Nat2Z.inj_add in Hm. exists 0x1000. split; [done|]. split; [done|]. split.
  - split_and!; [done|done|change ptr_bits with 64; lia|].
    apply (range_mapped_sub _ 0x1000 (len l + len (zeros n))); [done|lia|].
    rewrite len_zeros by lia. lia.
  - split; [lia|]. intros i Hi. cbn [wmem call_world]. rewrite buffer_at_lookup.
    + rewrite lookup_app_l; [done|]. unfold len in Hi. lia.
    + unfold len in *. rewrite length_app. lia.
Qed.

Lemma call_output l n : len l < 1000 -> 0 <= n < 1000 -> out_buffer (call_world l n) 1 n.
Proof.
  intros Hl Hn. pose proof (len_nonneg l).
  pose proof (buffer_at_mapped 0x1000 (l ++ zeros n)) as Hm. unfold len in Hm.
  rewrite length_app, Nat2Z.inj_add in Hm. exists (0x1000 + len l). split; [done|]. split; [lia|].
  split_and!; [lia|lia|change ptr_bits with 64; lia|].
  apply (range_mapped_sub _ 0x1000 (len l + len (zeros n))); [done|lia|].
  rewrite len_zeros by lia. lia.
Qed.

Lemma abc_carried : Forall2 carries abc_requests abc_calls.
Proof.
  constructor.
  - assert (in_buffer (call_world [97] 0) 0 [97]) as Hin by by apply call_input.
    eexists _, _, _, _. split; [by apply any_tuple; [done..|by eapply any_input|]|]. done.
  - assert (forall n, 0 <= n < 1000 ->
      carries (DoFinal [98; 99] n) (1, TEE_PARAM_TYPES 5 6 2 0, call_world [98; 99] n)) as Hfin.
    { intros n Hn. assert (in_buffer (call_world [98; 99] n) 0 [98; 99]) as Hin by by apply call_input.
      assert (out_buffer (call_world [98; 99] n) 1 n) as Hout by by apply call_output.
      eexists _, _, _, _.
      split; [apply any_tuple4; [done..|by eapply any_input|by apply any_output|done|done]|].
      split_and!; try done. by eexists. }
    constructor; [by apply Hfin|]. constructor; [by apply Hfin|]. constructor.
Qed.


End DigestExamples.
