(* ===== verification/SignTa.v ===== *)
(** * SignTa: the signature TA

    Models [examples/ta/signature_verification-rs/src/main.rs] and
    [examples/ta/proto/src/signature_verification.rs]: a command that makes an RSA key
    and signs a message with it, and one that verifies. *)

From S2P Require Import Prelude TeeDefines UteeError Memory Params EntryPoints Storage Crypto.
From S2P Require Import Transient TaApp TaState.

(** ** [proto::signature_verification::Command] *)

Module Command.

Inductive Command : Type := Sign | Verify | Unknown.

Definition from (x : Z) : Command :=
  if x =? 0 then Sign else if x =? 1 then Verify else Unknown.

Definition into (c : Command) : Z :=
  match c with Sign => 0 | Verify => 1 | Unknown => 2 end.

End Command.

(** [TEE_GetObjectInfo1] on the objects of [TeeObjects]. *)
Class TeeObjectInfo (St : Type) : Type := TEE_GetObjectInfo1 : Z -> prog St (Z * ObjectInfo).

Section Ta.
Context `{!Target, !Profile, !TeeMemMove, !Allocator, !VecAlloc}.
Context {St : Type} `{!TeeCrypto St, !TeeObjects St, !TeeObjectInfo St}.

Abbreviation app A := (prog (side St * world) A).
Definition Parameters4 : Type := ParameterAny * ParameterAny * ParameterAny * ParameterAny.

(** [GenericObject::info] of a transient object. *)
Definition info (o : TransientObject) : prog (oworld St) (Result ObjectInfo) :=
  let* (code, i) := Transient.on_tee (fun _ => TEE_GetObjectInfo1 (TransientOps.raw o)) in
  let? _ := pret (tee_check code) in
  pret (Ok i).

(** The block that writes the modulus and then the exponent. *)
Definition export_public_key (rsa_key : TransientObject) (p1 : ParameterMemrefOutput)
    : app (Result unit) :=
  let* n := on_params (buffer_len p1) in
  let* out_buf := plift (vec_zeroed n) in
  let* (r, out_buf) := on_objects (TransientOps.ref_attribute rsa_key AttributeId.RsaModulus out_buf) in
  let? modulus_len := pret r in
  let* rest := plift (slice out_buf modulus_len (len out_buf)) in
  let* (r, rest) :=
    on_objects (TransientOps.ref_attribute rsa_key AttributeId.RsaPublicExponent rest) in
  let? exp_len := pret r in
  let out_buf := splice out_buf modulus_len rest in
  let* total := plift (add_u ptr_bits modulus_len exp_len) in
  let* out := plift (slice out_buf 0 total) in
  let? _ := on_params (set_output p1 out) in
  pret (Ok tt).

(** [Digest::allocate] and [do_final] into an array of 32 bytes; the operation lives as
    long as [body]. *)
Definition with_hash (message : bytes) (body : bytes -> app (Result unit)) : app (Result unit) :=
  let? dig := on_crypto (Digest.allocate AlgorithmId.Sha256) in
  with_operation dig (
    let* (r, hash) := on_crypto (Digest.do_final dig message (zeros 32)) in
    let? _ := pret r in
    body hash).

(** An RSASSA operation of the key's size, with the key. *)
Definition with_rsa (mode : OperationMode) (key : TransientObject)
    (body : OperationHandle -> app (Result unit)) : app (Result unit) :=
  let? key_info := on_objects (info key) in
  let? rsa := on_crypto (Asymmetric.allocate AlgorithmId.RsassaPkcs1V15Sha256 mode
                           (object_size key_info)) in
  with_operation rsa (
    let? _ := on_crypto (OperationHandleOps.set_key rsa (TransientOps.raw key)) in
    body rsa).

(** The ends of [sign] and of [verify]. *)
Definition sign_hash (p2 : ParameterMemrefOutput) (hash : bytes) (rsa : OperationHandle)
    : app (Result unit) :=
  let* n := on_params (buffer_len p2) in
  let* sig_buf := plift (vec_zeroed n) in
  let* (r, sig_buf) := on_crypto (Asymmetric.sign_digest rsa [] hash sig_buf) in
  let? len := pret r in
  let* out := plift (slice sig_buf 0 len) in
  let? _ := on_params (set_output p2 out) in
  pret (Ok tt).

Definition verify_hash (signature hash : bytes) (rsa : OperationHandle) : app (Result unit) :=
  let* r := on_crypto (Asymmetric.verify_digest rsa [] hash signature) in
  match r with
  | Ok _ => pret (Ok tt)
  | Err _ => pret (bail ErrorKind.SignatureInvalid)
  end.

Definition sign (params : Parameters4) : app (Result unit) :=
  let '(p0, p1, p2, _) := params in
  let? p0 := pret (ParameterAny.as_memref_input p0) in
  let? p1 := pret (ParameterAny.as_memref_output p1) in
  let? p2 := pret (ParameterAny.as_memref_output p2) in
  let* message := on_params (read_to_vec p0) in
  let? rsa_key := on_objects (TransientOps.allocate TransientObjectType.RsaKeypair 2048) in
  with_object rsa_key (
    let? _ := on_objects (TransientOps.generate_key rsa_key 2048 []) in
    let? _ := export_public_key rsa_key p1 in
    with_hash message (fun hash =>
      with_rsa OperationMode.Sign rsa_key (fun rsa => sign_hash p2 hash rsa))).

(** The attributes refer to the two parts of [pubkey], which is at [p]. *)
Definition verify (params : Parameters4) : app (Result unit) :=
  let '(p0, p1, p2, _) := params in
  let? p0 := pret (ParameterAny.as_memref_input p0) in
  let? p1 := pret (ParameterAny.as_memref_input p1) in
  let? p2 := pret (ParameterAny.as_memref_input p2) in
  let* message := on_params (read_to_vec p0) in
  let* pubkey := on_params (read_to_vec p1) in
  with_vec pubkey (fun p =>
    if len pubkey <? 256 then pret (bail ErrorKind.BadParameters)
    else
      let* signature := on_params (read_to_vec p2) in
      let? rsa_pub_key := on_objects (TransientOps.allocate TransientObjectType.RsaPublicKey 2048) in
      with_object rsa_pub_key (
        let* mod_attr := plift (Attribute.from_ref AttributeId.RsaModulus p 256) in
        let* exp_attr := plift (Attribute.from_ref AttributeId.RsaPublicExponent (p + 256)
                                  (len pubkey - 256)) in
        let? _ := on_objects (TransientOps.populate rsa_pub_key [mod_attr; exp_attr]) in
        with_hash message (fun hash =>
          with_rsa OperationMode.Verify rsa_pub_key (fun rsa => verify_hash signature hash rsa)))).

Definition invoke_command (cmd_id : Z) (params : Parameters4) : app (Result unit) :=
  match Command.from cmd_id with
  | Command.Sign => sign params
  | Command.Verify => verify params
  | Command.Unknown => pret (bail ErrorKind.BadParameters)
  end.

Definition create : app (Result unit) := pret (Ok tt).
Definition open_session (_params : ParameterNone * ParameterNone * ParameterNone * ParameterNone)
    : app (Result unit) := pret (Ok tt).
Definition close_session : app unit := pret tt.
Definition destroy : app unit := pret tt.

End Ta.
