(* ===== verification/SignTaSpec.v ===== *)
(** * SignTaSpec: what the signature TA signs, it verifies *)

From S2P Require Import Prelude TeeDefines UteeError Memory Params EntryPoints Storage Crypto.
From S2P Require Import Transient ParamsSpec TransientSpec TaApp SessionTa TaState SignTa.

(** ** Documented behaviour of a TEE that computes RSASSA-PKCS1-v1_5 with SHA-256 *)

(** An operation: a digest with the bytes given so far, or one of RSA. *)
Inductive sign_op : Type :=
| Hashing (m : bytes)
| Fresh (mode : OperationMode)
| Keyed (mode : OperationMode) (cs : gmap Z attr_content).

Class SignTee (St : Type) : Type := {
  SHA256 : bytes -> bytes;
  (** A key pair, by its attributes, and the SHA-256 digest that is signed. *)
  RSA_SIGN : gmap Z attr_content -> bytes -> bytes;
  (** Modulus, exponent, digest and signature. *)
  RSA_VERIFY : bytes -> bytes -> bytes -> bytes -> bool;
  (** What the generation makes, and the public keys of 2048 bits that are taken. *)
  key_pair : gmap Z attr_content -> Prop;
  public_key : bytes -> bytes -> Prop;
  sign_ops : St -> gmap Z sign_op;
}.

Definition modulus_id : Z := AttributeId.as_u32 AttributeId.RsaModulus.
Definition exponent_id : Z := AttributeId.as_u32 AttributeId.RsaPublicExponent.

(** The attributes of a public key. *)
Definition public_contents (n e : bytes) : gmap Z attr_content :=
  <[modulus_id := ByRef n]> {[exponent_id := ByRef e]}.

Definition usable {St} `{SignTee St} (mode : OperationMode) (cs : gmap Z attr_content) : Prop :=
  (mode = OperationMode.Sign /\ key_pair cs) \/
  (mode = OperationMode.Verify /\ exists n e, cs = public_contents n e /\ public_key n e).

(** The calls leave the other operations and objects alone. *)
Definition same_ops {St} `{SignTee St, TeeObjects St} (s s' : St) : Prop :=
  sign_ops s' = sign_ops s /\ transients s' = transients s.

Class SignTeeOk (St : Type) `{TeeCrypto St, TeeObjects St, TeeObjectInfo St, SignTee St} : Prop := {
  sha256_length m : length (SHA256 m) = 32%nat;
  (** A generated pair has a public half, which verifies what the pair signs. *)
  key_pair_correct cs : key_pair cs ->
    exists n e, cs !! modulus_id = Some (ByRef n) /\ cs !! exponent_id = Some (ByRef e) /\
      len n = 256 /\ len e = 3 /\ public_key n e /\
      forall d, length d = 32%nat ->
        len (RSA_SIGN cs d) = 256 /\ RSA_VERIFY n e d (RSA_SIGN cs d) = true;
  sha_allocate s :
    exists h s', TEE_AllocateOperation (AlgorithmId.as_u32 AlgorithmId.Sha256)
        (OperationMode.as_u32 OperationMode.Digest) 0 s = Ret ((TEE_SUCCESS, h), s') /\
      sign_ops s !! h = None /\ sign_ops s' = <[h := Hashing []]> (sign_ops s) /\
      transients s' = transients s;
  sha_final h m l dest size s : sign_ops s !! h = Some (Hashing m) -> 32 <= size <= len dest ->
    exists s', TEE_DigestDoFinal h l dest size s
        = Ret (mkOut TEE_SUCCESS 32 (splice dest 0 (SHA256 (m ++ l))), s') /\
      sign_ops s' = <[h := Hashing []]> (sign_ops s) /\ transients s' = transients s;
  rsa_allocate mode s : mode = OperationMode.Sign \/ mode = OperationMode.Verify ->
    exists h s', TEE_AllocateOperation (AlgorithmId.as_u32 AlgorithmId.RsassaPkcs1V15Sha256)
        (OperationMode.as_u32 mode) 2048 s = Ret ((TEE_SUCCESS, h), s') /\
      sign_ops s !! h = None /\ sign_ops s' = <[h := Fresh mode]> (sign_ops s) /\
      transients s' = transients s;
  rsa_set_key h o mode cs s :
    sign_ops s !! h = Some (Fresh mode) -> transients s !! o = Some (Some cs) -> usable mode cs ->
    exists s', TEE_SetOperationKey h o s = Ret (TEE_SUCCESS, s') /\
      sign_ops s' = <[h := Keyed mode cs]> (sign_ops s) /\ transients s' = transients s;
  rsa_sign h cs d dest size s :
    sign_ops s !! h = Some (Keyed OperationMode.Sign cs) -> key_pair cs -> length d = 32%nat ->
    256 <= size <= len dest ->
    exists s', TEE_AsymmetricSignDigest h [] d dest size s
        = Ret (mkOut TEE_SUCCESS 256 (splice dest 0 (RSA_SIGN cs d)), s') /\ same_ops s s';
  rsa_sign_short h cs d dest size s :
    sign_ops s !! h = Some (Keyed OperationMode.Sign cs) -> key_pair cs -> length d = 32%nat ->
    0 <= size < 256 -> size <= len dest ->
    exists b s', TEE_AsymmetricSignDigest h [] d dest size s
        = Ret (mkOut TEE_ERROR_SHORT_BUFFER 256 b, s') /\ same_ops s s';
  rsa_verify h n e d sg s :
    sign_ops s !! h = Some (Keyed OperationMode.Verify (public_contents n e)) -> public_key n e ->
    length d = 32%nat ->
    exists s', TEE_AsymmetricVerifyDigest h [] d sg s
        = Ret (if RSA_VERIFY n e d sg then TEE_SUCCESS else TEE_ERROR_SIGNATURE_INVALID, s') /\
      same_ops s s';
  sign_op_free h s : is_Some (sign_ops s !! h) ->
    exists s', TEE_FreeOperation h s = Ret (tt, s') /\
      sign_ops s' = delete h (sign_ops s) /\ transients s' = transients s;
  rsa_object_allocate ty s :
    ty = TransientObjectType.RsaKeypair \/ ty = TransientObjectType.RsaPublicKey ->
    exists o s', TEE_AllocateTransientObject (TransientObjectType.as_u32 ty) 2048 s
        = Ret ((TEE_SUCCESS, o), s') /\
      o <> 0 /\ transients s !! o = None /\ transients s' = <[o := None]> (transients s) /\
      sign_ops s' = sign_ops s;
  rsa_generate m o s : transients s !! o = Some None ->
    exists cs s', TEE_GenerateKey m o 2048 [] 0 s = Ret (TEE_SUCCESS, s') /\ key_pair cs /\
      transients s' = <[o := Some cs]> (transients s) /\ sign_ops s' = sign_ops s;
  rsa_attribute o id cs l buf s :
    transients s !! o = Some (Some cs) -> key_pair cs -> id = modulus_id \/ id = exponent_id ->
    cs !! id = Some (ByRef l) -> len l <= len buf ->
    TEE_GetObjectBufferAttribute o id buf s = Ret (mkOut TEE_SUCCESS (len l) (splice buf 0 l), s);
  rsa_attribute_short o id cs l buf s :
    transients s !! o = Some (Some cs) -> key_pair cs -> id = modulus_id \/ id = exponent_id ->
    cs !! id = Some (ByRef l) -> len buf < len l ->
    exists b, TEE_GetObjectBufferAttribute o id buf s
      = Ret (mkOut TEE_ERROR_SHORT_BUFFER (len l) b, s);
  rsa_info mode o cs s : transients s !! o = Some (Some cs) -> usable mode cs ->
    exists i, TEE_GetObjectInfo1 o s = Ret ((TEE_SUCCESS, i), s) /\ objectSize i = 2048;
  rsa_init id p n : id = modulus_id \/ id = exponent_id ->
    TEE_InitRefAttribute id p n = Ret (mkAttribute id p n);
  rsa_populate m o attrs n e s :
    transients s !! o = Some None -> contents_at m attrs = Some (public_contents n e) ->
    public_key n e ->
    exists s', TEE_PopulateTransientObject m o attrs (wrap_u 32 (len attrs)) s
        = Ret (TEE_SUCCESS, s') /\
      transients s' = <[o := Some (public_contents n e)]> (transients s) /\
      sign_ops s' = sign_ops s;
  rsa_object_free o s : is_Some (transients s !! o) ->
    exists s', TEE_FreeObject o s = Ret (tt, s') /\
      transients s' = delete o (transients s) /\ sign_ops s' = sign_ops s;
}.

(** ** Programs that leave nothing behind *)

Section Scopes.
Context `{!Target, !TargetOk, !Profile, !TeeMemMove, !TeeMemMoveOk, !Allocator, !AllocatorOk}.
Context `{!VecAlloc, !VecAllocOk}.
Context {St : Type} `{!TeeCrypto St, !TeeObjects St, !TeeObjectInfo St, !SignTee St, !SignTeeOk St}.

Abbreviation app A := (prog (side St * world) A).

(** The TEE's operations and objects, and the boxes, are as they were. *)
Definition restored (s s' : side St) : Prop :=
  same_ops (sd_tee s) (sd_tee s') /\ sd_boxes s' = sd_boxes s /\ sd_enums s' = sd_enums s.

Definition restores {A} (m : app A) (s : side St) (w : world) (Q : A -> world -> Prop) : Prop :=
  exists a s' w', m (s, w) = Ret (a, (s', w')) /\ restored s s' /\ Q a w'.

Lemma sign_restored_refl s : restored s s.
Proof. done. Qed.

Lemma sign_restored_trans s1 s2 s3 : restored s1 s2 -> restored s2 s3 -> restored s1 s3.
Proof. unfold restored, same_ops. intros ([-> ->]&->&->) ([-> ->]&->&->). done. Qed.

Lemma restores_pret {A} (a : A) s w (Q : A -> world -> Prop) : Q a w -> restores (pret a) s w Q.
Proof. intros HQ. exists a, s, w. by split_and!. Qed.

(** A digest, and what is done with it while the operation lives. *)
Lemma with_hash_restores message body s w Q :
  (forall s1, transients (sd_tee s1) = transients (sd_tee s) ->
     restores (body (SHA256 message)) s1 w Q) ->
  restores (with_hash message body) s w Q.
Proof.
  intros Hbody. destruct s as [t b e].
  destruct (sha_allocate t) as (h & t1 & E1 & Hf & Hs1 & Ht1).
  set (p := alloc_addr (dom b)). assert (p <> 0) as Hp by apply alloc_nonnull.
  assert (b !! p = None) as Hb by apply not_elem_of_dom, alloc_fresh.
  destruct (sha_final h [] message (zeros 32) 32 t1) as (t2 & E2 & Hs2 & Ht2);
    [by rewrite Hs1, lookup_insert_eq|done|].
  destruct (Hbody (mkSide t2 (<[p := h]> b) e)) as (a & [t3 b3 e3] & w' & E3 & [[Hs3 Ht3] [Hb3 He3]] & HQ);
    [cbn; by rewrite Ht2, Ht1|].
  cbn [sd_tee sd_boxes sd_enums] in *. subst b3 e3.
  destruct (sign_op_free h t3) as (t4 & E4 & Hs4 & Ht4);
    [rewrite Hs3, Hs2, lookup_insert_eq; eauto|].
  exists a, (mkSide t4 b e), w'. split; [|split; [|done]].
  - unfold with_hash. unfold ptry at 1.
    erewrite pbind_Ret by (apply on_crypto_Ret; by apply op_allocate_Ret). cbv iota. fold p.
    unfold with_operation. erewrite pbind_Ret.
    2:{ erewrite pbind_Ret.
        2:{ apply on_crypto_Ret. apply (boxed p h (fun h => TEE_DigestDoFinal h message (zeros 32) 32)
              OperationHandleOps.sized t1 (<[p := h]> b)); [apply lookup_insert_eq|exact E2]. }
        cbn [OperationHandleOps.sized oa_code oa_buf oa_size app].
        rewrite splice_full by (unfold len; by rewrite sha256_length).
        change (tee_check TEE_SUCCESS) with (@Ok unit Error tt). cbv iota.
        erewrite ptry_Ok by done. exact E3. }
    erewrite pbind_Ret by (apply on_crypto_Ret; apply (op_drop_Ret p h _ _ t4); [done|apply lookup_insert_eq|exact E4]).
    by rewrite delete_insert_id.
  - split; [|done]. split; cbn [sd_tee]; [|by rewrite Ht4, Ht3, Ht2, Ht1].
    by rewrite Hs4, Hs3, Hs2, Hs1, insert_insert_eq, delete_insert_id.
Qed.

(** An RSA operation with a key that may be used for it. *)
Lemma with_rsa_restores mode o cs body s w Q :
  mode = OperationMode.Sign \/ mode = OperationMode.Verify ->
  transients (sd_tee s) !! o = Some (Some cs) -> usable mode cs ->
  (forall s1 p h, sd_boxes s1 !! p = Some h ->
     sign_ops (sd_tee s1) !! h = Some (Keyed mode cs) -> restores (body (mkHandle p)) s1 w Q) ->
  restores (with_rsa mode (mkTransient (mkObjectHandle o)) body) s w Q.
Proof.
  intros Hmode Ho Hu Hbody. destruct s as [t b e], w as [mm r]. cbn [sd_tee] in Ho.
  destruct (rsa_info mode o cs t Ho Hu) as (i & Ei & Hsize).
  destruct (rsa_allocate mode t Hmode) as (h & t1 & E1 & Hf & Hs1 & Ht1).
  set (p := alloc_addr (dom b)). assert (p <> 0) as Hp by apply alloc_nonnull.
  assert (b !! p = None) as Hb by apply not_elem_of_dom, alloc_fresh.
  destruct (rsa_set_key h o mode cs t1) as (t2 & E2 & Hs2 & Ht2);
    [by rewrite Hs1, lookup_insert_eq|by rewrite Ht1|done|].
  destruct (Hbody (mkSide t2 (<[p := h]> b) e) p h)
    as (a & [t3 b3 e3] & w' & E3 & [[Hs3 Ht3] [Hb3 He3]] & HQ);
    [apply lookup_insert_eq|cbn; by rewrite Hs2, lookup_insert_eq|].
  cbn [sd_tee sd_boxes sd_enums] in *. subst b3 e3.
  destruct (sign_op_free h t3) as (t4 & E4 & Hs4 & Ht4);
    [rewrite Hs3, Hs2, lookup_insert_eq; eauto|].
  exists a, (mkSide t4 b e), w'. split; [|split; [|done]].
  - unfold with_rsa. unfold ptry at 1. erewrite pbind_Ret.
    2:{ apply on_objects_Ret. unfold info, Transient.on_tee, ptry, pbind. cbn [omem otee].
        unfold TransientOps.raw. cbn [to_handle oh_raw]. by rewrite Ei. }
    cbv iota. unfold ptry at 1.
    erewrite pbind_Ret by (apply on_crypto_Ret; apply op_allocate_Ret;
      [unfold object_size; rewrite Hsize; done|unfold object_size; rewrite Hsize; exact E1]).
    cbv iota. fold p. unfold with_operation. erewrite pbind_Ret.
    2:{ unfold ptry at 1. erewrite pbind_Ret.
        2:{ apply on_crypto_Ret. apply (boxed p h (fun h => TEE_SetOperationKey h o) tee_check t1
              (<[p := h]> b)); [apply lookup_insert_eq|exact E2]. }
        change (tee_check TEE_SUCCESS) with (@Ok unit Error tt). cbv iota. exact E3. }
    erewrite pbind_Ret by (apply on_crypto_Ret; apply (op_drop_Ret p h _ _ t4);
      [done|apply lookup_insert_eq|exact E4]).
    by rewrite delete_insert_id.
  - split; [|done]. split; cbn [sd_tee]; [|by rewrite Ht4, Ht3, Ht2, Ht1].
    by rewrite Hs4, Hs3, Hs2, Hs1, insert_insert_eq, delete_insert_id.
Qed.

(** One more object. *)
Definition adds (o : Z) (s s' : side St) : Prop :=
  (exists c, transients (sd_tee s') = <[o := c]> (transients (sd_tee s))) /\
  sign_ops (sd_tee s') = sign_ops (sd_tee s) /\ sd_boxes s' = sd_boxes s /\
  sd_enums s' = sd_enums s.

Lemma adds_restored o s s1 s2 : adds o s s1 -> restored s1 s2 -> adds o s s2.
Proof.
  intros ((c & Ht) & Hs & Hb & He) ([Hs2 Ht2] & Hb2 & He2). unfold adds.
  rewrite Hs2, Ht2, Hb2, He2. split; [by exists c|done].
Qed.

(** An object for a key, which [body] fills. *)
Lemma with_key_restores {A} ty (body : TransientObject -> app (Result A)) s w Q :
  ty = TransientObjectType.RsaKeypair \/ ty = TransientObjectType.RsaPublicKey ->
  (forall t1 o, o <> 0 -> transients (sd_tee s) !! o = None ->
     transients t1 = <[o := None]> (transients (sd_tee s)) ->
     sign_ops t1 = sign_ops (sd_tee s) ->
     exists a s2 w', body (mkTransient (mkObjectHandle o)) (mkSide t1 (sd_boxes s) (sd_enums s), w)
         = Ret (a, (s2, w')) /\ adds o s s2 /\ Q a w') ->
  restores (let? key := on_objects (TransientOps.allocate ty 2048) in
            with_object key (body key)) s w Q.
Proof.
  intros Hty Hbody. destruct s as [t b e], w as [mm r]. cbn [sd_tee sd_boxes sd_enums] in *.
  destruct (rsa_object_allocate ty t Hty) as (o & t1 & E1 & Hn & Ho & Ht1 & Hs1).
  destruct (Hbody t1 o Hn Ho Ht1 Hs1) as (a & [t2 b2 e2] & [mm' r'] & E2 & ((c & Ht2) & Hs2 & Hb2 & He2) & HQ).
  cbn [sd_tee sd_boxes sd_enums] in *. subst b2 e2.
  destruct (rsa_object_free o t2) as (t3 & E3 & Ht3 & Hs3); [rewrite Ht2, lookup_insert_eq; eauto|].
  exists a, (mkSide t3 b e), (mkWorld mm' r'). split; [|split; [|done]].
  - unfold ptry. erewrite pbind_Ret.
    2:{ apply on_objects_Ret. unfold TransientOps.allocate, Transient.on_tee, ptry, pbind.
        cbn [omem otee]. change (wrap_u 32 2048) with 2048. rewrite E1. cbn. unfold Handle.from_raw.
        by rewrite (proj2 (Z.eqb_neq _ _) Hn). }
    cbn [result_map]. cbv beta iota. unfold with_object. erewrite pbind_Ret by exact E2.
    erewrite pbind_Ret; [done|]. apply on_objects_Ret.
    unfold TransientOps.drop_transient, TransientOps.is_null_object, Handle.is_null,
      TransientOps.raw. cbn [to_handle oh_raw]. rewrite (proj2 (Z.eqb_neq _ _) Hn).
    unfold Transient.on_tee. cbn. by rewrite E3.
  - split; [|done]. split; cbn [sd_tee]; [by rewrite Hs3, Hs2|].
    by rewrite Ht3, Ht2, delete_insert_id.
Qed.

(** ** The public key in the client's buffer *)

Definition too_short (r : Result unit) : Prop :=
  exists e, r = Err e /\ Error.raw_code e = TEE_ERROR_SHORT_BUFFER.

Lemma vec_31 n : 0 <= n < 2 ^ 31 -> vec_zeroed n = Ret (zeros n).
Proof. intros Hn. pose proof ptr_bits_31. unfold vec_zeroed. by rewrite (proj2 (Z.ltb_lt _ _)) by lia. Qed.

(** The slice behind the modulus, and the two parts put together. *)
Lemma slice_tail (l : bytes) n : 0 <= n <= len l -> slice l n (len l) = Ret (drop (Z.to_nat n) l).
Proof.
  intros Hn. unfold slice. rewrite !(proj2 (Z.leb_le _ _)) by lia. cbn [andb]. f_equal.
  apply take_ge. rewrite length_drop. unfold len in *. lia.
Qed.

Lemma splice_two (buf n e : bytes) :
  len n + len e <= len buf ->
  slice (splice (splice buf 0 n) (len n) (splice (drop (Z.to_nat (len n)) (splice buf 0 n)) 0 e))
    0 (len n + len e) = Ret (n ++ e).
Proof.
  intros Hle. pose proof (len_nonneg n). pose proof (len_nonneg e).
  assert (splice buf 0 n = n ++ drop (length n) buf) as -> by (unfold splice; by rewrite take_0).
  unfold len at 2. rewrite Nat2Z.id, drop_app_length.
  assert (len (drop (length n) buf) = len buf - len n) as Hd
    by (unfold len in *; rewrite length_drop; lia).
  assert (splice (drop (length n) buf) 0 e = e ++ drop (length e) (drop (length n) buf)) as ->
    by (unfold splice; by rewrite take_0).
  set (x := drop (length e) (drop (length n) buf)).
  assert (len x = len buf - len n - len e) as Hx
    by (unfold x; unfold len in *; rewrite !length_drop; lia). clearbody x.
  assert (splice (n ++ drop (length n) buf) (len n) (e ++ x) = n ++ e ++ x) as ->.
  { unfold splice. unfold len at 1 2. rewrite !Nat2Z.id, take_app_length, drop_ge, app_nil_r; [done|].
    rewrite !length_app. unfold len in *. lia. }
  rewrite app_assoc. replace (len n + len e) with (len (n ++ e)) by (unfold len; rewrite length_app; lia).
  unfold slice. rewrite !(proj2 (Z.leb_le _ _))
    by (rewrite ?len_app; pose proof (len_nonneg (n ++ e)); pose proof (len_nonneg x); lia).
  cbn [andb]. rewrite Z.sub_0_r. f_equal. unfold len. rewrite Nat2Z.id. apply take_app_length.
Qed.

(** One attribute of the pair, into a buffer. *)
Lemma attribute_read o id cs l buf (s : side St) w :
  transients (sd_tee s) !! o = Some (Some cs) -> key_pair cs ->
  AttributeId.as_u32 id = modulus_id \/ AttributeId.as_u32 id = exponent_id ->
  cs !! AttributeId.as_u32 id = Some (ByRef l) ->
  exists r buf', on_objects (TransientOps.ref_attribute (mkTransient (mkObjectHandle o)) id buf)
      (s, w) = Ret ((r, buf'), (s, w)) /\
    if len l <=? len buf then r = Ok (len l) /\ buf' = splice buf 0 l
    else exists e, r = Err e /\ Error.raw_code e = TEE_ERROR_SHORT_BUFFER.
Proof.
  intros Ho Hcs Hid Hl. destruct s as [t b e], w as [mm ws]. cbn [sd_tee] in Ho.
  destruct (len l <=? len buf) eqn:Hle; reflect_bool.
  - pose proof (rsa_attribute o _ cs l buf t Ho Hcs Hid Hl Hle) as E. eexists _, _. split; [|done].
    apply on_objects_Ret. unfold TransientOps.ref_attribute, Transient.on_tee, pbind.
    cbn [omem otee]. unfold TransientOps.raw. cbn [to_handle oh_raw]. by rewrite E.
  - destruct (rsa_attribute_short o _ cs l buf t Ho Hcs Hid Hl Hle) as (bb & E).
    eexists _, _. split.
    + apply on_objects_Ret. unfold TransientOps.ref_attribute, Transient.on_tee, pbind.
      cbn [omem otee]. unfold TransientOps.raw. cbn [to_handle oh_raw]. by rewrite E.
    + eexists. split; [reflexivity|]. done.
Qed.

Lemma export_spec o cs n e s w c :
  transients (sd_tee s) !! o = Some (Some cs) -> key_pair cs ->
  cs !! modulus_id = Some (ByRef n) -> cs !! exponent_id = Some (ByRef e) ->
  len n = 256 -> len e = 3 -> out_buffer w 1 c -> c < 2 ^ 31 ->
  exists r w', export_public_key (mkTransient (mkObjectHandle o)) (mkMemrefOutput c 1) (s, w)
      = Ret (r, (s, w')) /\
    if 259 <=? c then r = Ok tt /\ outputs 1 (n ++ e) w w' else too_short r /\ w' = w.
Proof.
  intros Ho Hcs Hn He Ln Le (b & Hi & Hb & Hv) Hc. pose proof Hv as (_ & Hc0 & _).
  unfold export_public_key.
  erewrite pbind_Ret by (apply on_params_Ret; reflexivity). cbn [mo_capacity].
  erewrite pbind_Ret by (unfold plift; by rewrite vec_31 by lia).
  destruct (attribute_read o AttributeId.RsaModulus cs n (zeros c) s w) as (r1 & b1 & E1 & H1');
    [done..|by left|done|].
  rewrite len_zeros, Ln in H1' by lia. erewrite pbind_Ret by exact E1. cbv beta iota.
  destruct (256 <=? c) eqn:Hc256; reflect_bool.
  2:{ destruct H1' as (er & -> & Hcode). rewrite (proj2 (Z.leb_gt 259 c)) by lia.
      eexists _, w. erewrite ptry_Err by done. split; [done|]. split; [by eexists|done]. }
  destruct H1' as [-> ->]. erewrite ptry_Ok by done.
  assert (len (splice (zeros c) 0 n) = c) as Hb1 by (rewrite len_splice; rewrite ?len_zeros; lia).
  erewrite pbind_Ret by (unfold plift; rewrite slice_tail by lia; reflexivity).
  destruct (attribute_read o AttributeId.RsaPublicExponent cs e
    (drop (Z.to_nat 256) (splice (zeros c) 0 n)) s w) as (r2 & b2 & E2 & H2'); [done..|by right|done|].
  assert (len (drop (Z.to_nat 256) (splice (zeros c) 0 n)) = c - 256) as Hd
    by (unfold len in *; rewrite length_drop; lia).
  rewrite Hd, Le in H2'. erewrite pbind_Ret by exact E2. cbv beta iota.
  destruct (3 <=? c - 256) eqn:Hc3; reflect_bool.
  2:{ destruct H2' as (er & -> & Hcode). rewrite (proj2 (Z.leb_gt 259 c)) by lia.
      eexists _, w. erewrite ptry_Err by done. split; [done|]. split; [by eexists|done]. }
  destruct H2' as [-> ->]. erewrite ptry_Ok by done. rewrite (proj2 (Z.leb_le 259 c)) by lia.
  erewrite pbind_Ret.
  2:{ unfold plift, add_u. rewrite (proj2 (Z.ltb_lt _ _)); [reflexivity|].
      destruct ptr_bits_cases as [-> | ->]; lia. }
  erewrite pbind_Ret.
  2:{ unfold plift. rewrite <- Ln, <- Le, splice_two; [reflexivity|]. rewrite len_zeros; lia. }
  destruct (output_spec s w 1 c b c (n ++ e) Hi Hv) as (w' & E3 & Ho3); [rewrite len_app; lia|].
  erewrite ptry_Ok by exact E3. eexists _, w'. split; [reflexivity|done].
Qed.

(** ** What the client asks for, and is told *)

Inductive request : Type :=
| ReqSign (msg : bytes) (c1 c2 : Z)
| ReqVerify (msg pk sg : bytes)
| ReqOther (cmd : Z).

Inductive reply : Type := Signed (pk sg : bytes) | Short | Valid | Invalid | Refused.

(** A signature of [msg] under the 256 bytes of a modulus and an exponent. *)
Definition verifies (msg pk sg : bytes) : bool :=
  RSA_VERIFY (take 256 pk) (drop 256 pk) (SHA256 msg) sg.

(** A signature comes with a public key under which it is valid. *)
Definition step (r : request) (_ : unit) (rp : reply) (_ : unit) : Prop :=
  match r with
  | ReqSign msg c1 c2 =>
      match rp with
      | Signed pk sg =>
          259 <= c1 /\ 256 <= c2 /\ len pk = 259 /\ len sg = 256 /\
          public_key (take 256 pk) (drop 256 pk) /\ verifies msg pk sg = true
      | Short => c1 < 259 \/ c2 < 256
      | _ => False
      end
  | ReqVerify msg pk sg =>
      if len pk <? 256 then rp = Refused
      else public_key (take 256 pk) (drop 256 pk) /\
           rp = if verifies msg pk sg then Valid else Invalid
  | ReqOther _ => rp = Refused
  end.

Definition carries (r : request) (call : Z * Z * world) : Prop :=
  let '(cmd, types, w) := call in
  match r with
  | ReqSign msg c1 c2 =>
      cmd = Command.into Command.Sign /\
      types = TEE_PARAM_TYPES TEE_PARAM_TYPE_MEMREF_INPUT TEE_PARAM_TYPE_MEMREF_OUTPUT
                TEE_PARAM_TYPE_MEMREF_OUTPUT 0 /\
      in_buffer w 0 msg /\ out_buffer w 1 c1 /\ out_buffer w 2 c2 /\ c1 < 2 ^ 31 /\ c2 < 2 ^ 31 /\
      forall q1 q2, raws w !! 1%nat = Some q1 -> raws w !! 2%nat = Some q2 ->
        memref_buffer q1 + c1 <= memref_buffer q2 \/ memref_buffer q2 + c2 <= memref_buffer q1
  | ReqVerify msg pk sg =>
      cmd = Command.into Command.Verify /\
      types = TEE_PARAM_TYPES TEE_PARAM_TYPE_MEMREF_INPUT TEE_PARAM_TYPE_MEMREF_INPUT
                TEE_PARAM_TYPE_MEMREF_INPUT 0 /\
      in_buffer w 0 msg /\ in_buffer w 1 pk /\ in_buffer w 2 sg
  | ReqOther c => cmd = c /\ types = TEE_PARAM_TYPES 0 0 0 0 /\ 2 <= c
  end.

(** Nothing but the two buffers changes. *)
Definition gives (rp : reply) (w w' : world) (code : Z) : Prop :=
  match rp with
  | Signed pk sg =>
      code = TEE_SUCCESS /\ exists q1 q2, raws w !! 1%nat = Some q1 /\ raws w !! 2%nat = Some q2 /\
        reported_size w' 1 = Some (len pk) /\ holds_at (wmem w') (memref_buffer q1) pk /\
        reported_size w' 2 = Some (len sg) /\ holds_at (wmem w') (memref_buffer q2) sg /\
        (forall x, ~ memref_buffer q1 <= x < memref_buffer q1 + len pk ->
                   ~ memref_buffer q2 <= x < memref_buffer q2 + len sg -> wmem w' !! x = wmem w !! x) /\
        forall j, j <> 1%nat -> j <> 2%nat -> raws w' !! j = raws w !! j
  | Short => code = TEE_ERROR_SHORT_BUFFER
  | Valid => code = TEE_SUCCESS /\ w' = w
  | Invalid => code = TEE_ERROR_SIGNATURE_INVALID /\ w' = w
  | Refused => code = TEE_ERROR_BAD_PARAMETERS /\ w' = w
  end.

(** An output buffer behind another one. *)
Lemma outputs_mapped i d w w' a n :
  outputs i d w w' -> range_mapped (wmem w) a n -> range_mapped (wmem w') a n.
Proof.
  intros (_ & raw & _ & Hh & Hs & _) Hm x Hx.
  destruct (decide (memref_buffer raw <= x < memref_buffer raw + len d)) as [Hin|Hout].
  - replace x with (memref_buffer raw + (x - memref_buffer raw)) by lia. rewrite Hh by lia.
    apply lookup_lt_is_Some_2. unfold len in Hin. lia.
  - rewrite Hs by done. by apply Hm.
Qed.

Lemma outputs_buffer i d w w' j c :
  outputs i d w w' -> j <> i -> out_buffer w j c -> out_buffer w' j c.
Proof.
  intros Ho Hj (b & Hb & Hn & Hv0 & Hv1 & Hv2 & Hm). pose proof Ho as (_ & raw & _ & _ & _ & Hraws).
  exists b. rewrite Hraws by done. split_and!; [done..|]. split_and!; [done..|].
  by eapply outputs_mapped.
Qed.

Lemma outputs_two w w1 w2 pk sg c1 c2 q1 q2 :
  outputs 1 pk w w1 -> outputs 2 sg w1 w2 -> raws w !! 1%nat = Some q1 ->
  raws w !! 2%nat = Some q2 -> len pk <= c1 -> len sg <= c2 ->
  memref_buffer q1 + c1 <= memref_buffer q2 \/ memref_buffer q2 + c2 <= memref_buffer q1 ->
  gives (Signed pk sg) w w2 TEE_SUCCESS.
Proof.
  intros (Hr1 & x1 & Hq1 & Hh1 & Hs1 & Hw1) (Hr2 & x2 & Hq2 & Hh2 & Hs2 & Hw2) E1 E2 Hl1 Hl2 Hap.
  rewrite E1 in Hq1. injection Hq1 as <-. rewrite Hw1, E2 in Hq2 by done. injection Hq2 as <-.
  pose proof (len_nonneg pk). pose proof (len_nonneg sg).
  split; [done|]. exists q1, q2. split_and!; [done|done| | |done|done| |].
  - unfold reported_size in *. by rewrite Hw2.
  - intros i Hi. rewrite Hs2 by lia. by apply Hh1.
  - intros x Hx1 Hx2. by rewrite Hs2, Hs1.
  - intros j Hj1 Hj2. by rewrite Hw2, Hw1.
Qed.

(** ** The two commands *)

Lemma sign_hash_restores p h cs d s w c :
  sd_boxes s !! p = Some h -> sign_ops (sd_tee s) !! h = Some (Keyed OperationMode.Sign cs) ->
  key_pair cs -> length d = 32%nat -> out_buffer w 2 c -> c < 2 ^ 31 ->
  restores (sign_hash (mkMemrefOutput c 2) d (mkHandle p)) s w (fun r w' =>
    if 256 <=? c then r = Ok tt /\ outputs 2 (RSA_SIGN cs d) w w' else too_short r).
Proof.
  intros Hp Hh Hcs Hd (b & Hi & Hb & Hv) Hc. pose proof Hv as (_ & Hc0 & _).
  destruct s as [t bx ex]. cbn [sd_tee sd_boxes] in *.
  destruct (key_pair_correct cs Hcs) as (n & e & _ & _ & _ & _ & _ & Hsig).
  destruct (Hsig d Hd) as [Hlen _].
  assert (forall t' a, TEE_AsymmetricSignDigest h [] d (zeros c) (len (zeros c)) t = Ret (a, t') ->
    on_crypto (Asymmetric.sign_digest (mkHandle p) [] d (zeros c)) (mkSide t bx ex, w)
      = Ret (OperationHandleOps.sized a, (mkSide t' bx ex, w))) as Hcall.
  { intros t' a E. apply on_crypto_Ret.
    by apply (boxed p h (fun h => TEE_AsymmetricSignDigest h [] d (zeros c) (len (zeros c))) _ t bx). }
  unfold sign_hash, restores.
  erewrite pbind_Ret by (apply on_params_Ret; reflexivity). cbn [mo_capacity].
  erewrite pbind_Ret by (unfold plift; by rewrite vec_31 by lia).
  destruct (256 <=? c) eqn:Hle; reflect_bool.
  - destruct (rsa_sign h cs d (zeros c) (len (zeros c)) t Hh Hcs Hd) as (t' & E & Hs); [rewrite len_zeros; lia|].
    erewrite pbind_Ret by (by apply Hcall). cbn [OperationHandleOps.sized oa_code oa_size oa_buf].
    change (tee_check TEE_SUCCESS) with (@Ok unit Error tt). cbv beta iota.
    erewrite ptry_Ok by done.
    erewrite pbind_Ret by (unfold plift; rewrite <- Hlen, slice_splice;
      [reflexivity|rewrite len_zeros; lia]).
    destruct (output_spec (mkSide t' bx ex) w 2 c b c (RSA_SIGN cs d) Hi Hv) as (w' & E2 & Ho); [lia|].
    erewrite ptry_Ok by exact E2. eexists _, _, _. split; [reflexivity|]. by split_and!.
  - destruct (rsa_sign_short h cs d (zeros c) (len (zeros c)) t Hh Hcs Hd) as (bb & t' & E & Hs);
      [rewrite len_zeros; lia|lia|].
    erewrite pbind_Ret by (by apply Hcall). cbn [OperationHandleOps.sized oa_code oa_size oa_buf].
    erewrite ptry_Err by done. eexists _, _, _. split; [reflexivity|]. split; [by split_and!|].
    eexists. split; [reflexivity|]. done.
Qed.

Lemma key_generated o mm ws t t2 b e :
  TEE_GenerateKey mm o 2048 [] 0 t = Ret (TEE_SUCCESS, t2) ->
  on_objects (TransientOps.generate_key (mkTransient (mkObjectHandle o)) 2048 [])
      (mkSide t b e, mkWorld mm ws) = Ret (Ok tt, (mkSide t2 b e, mkWorld mm ws)).
Proof.
  intros E. apply on_objects_Ret. unfold TransientOps.generate_key, Transient.on_tee, pbind.
  cbn [omem otee]. change (wrap_u 32 2048) with 2048. change (wrap_u 32 (len [])) with 0.
  unfold TransientOps.raw. cbn [to_handle oh_raw]. by rewrite E.
Qed.

Lemma key_filled o attrs mm ws t t2 b e :
  TEE_PopulateTransientObject mm o attrs (wrap_u 32 (len attrs)) t = Ret (TEE_SUCCESS, t2) ->
  on_objects (TransientOps.populate (mkTransient (mkObjectHandle o)) attrs)
      (mkSide t b e, mkWorld mm ws) = Ret (Ok tt, (mkSide t2 b e, mkWorld mm ws)).
Proof.
  intros E. apply on_objects_Ret. unfold TransientOps.populate, Transient.on_tee, pbind.
  cbn [omem otee]. unfold TransientOps.raw. cbn [to_handle oh_raw]. by rewrite E.
Qed.

(** The modulus and the exponent, one behind the other. *)
Lemma signed_step n e sg msg c1 c2 :
  len n = 256 -> len e = 3 -> len sg = 256 -> public_key n e ->
  RSA_VERIFY n e (SHA256 msg) sg = true -> 259 <= c1 -> 256 <= c2 ->
  step (ReqSign msg c1 c2) tt (Signed (n ++ e) sg) tt.
Proof.
  intros Ln Le Ls Hpk Hver Hc1 Hc2.
  assert (take 256 (n ++ e) = n /\ drop 256 (n ++ e) = e) as [Htake Hdrop].
  { assert (length n = 256%nat) as <- by (unfold len in Ln; lia).
    by rewrite take_app_length, drop_app_length. }
  cbn [step]. unfold verifies. rewrite Htake, Hdrop, len_app. split_and!; (done || lia).
Qed.

Lemma sign_restores s w msg c1 c2 x3 :
  in_buffer w 0 msg -> out_buffer w 1 c1 -> out_buffer w 2 c2 -> c1 < 2 ^ 31 -> c2 < 2 ^ 31 ->
  (forall q1 q2, raws w !! 1%nat = Some q1 -> raws w !! 2%nat = Some q2 ->
     memref_buffer q1 + c1 <= memref_buffer q2 \/ memref_buffer q2 + c2 <= memref_buffer q1) ->
  restores (sign (ParameterAny.MemrefInput (mkMemrefInput 0),
    ParameterAny.MemrefOutput (mkMemrefOutput c1 1), ParameterAny.MemrefOutput (mkMemrefOutput c2 2),
    x3)) s w
    (fun r w' => exists rp, step (ReqSign msg c1 c2) tt rp tt /\ gives rp w w' (code_of r)).
Proof.
  intros Hin Ho1 Ho2 Hc1 Hc2 Hap. unfold sign. cbn [ParameterAny.as_memref_input
    ParameterAny.as_memref_output]. unfold restores.
  erewrite ptry_Ok by done. erewrite ptry_Ok by done. erewrite ptry_Ok by done.
  erewrite pbind_Ret by (by apply read_input_spec).
  apply with_key_restores; [by left|]. intros t1 o Hn Ho Ht1 Hs1.
  destruct w as [mm ws].
  destruct (rsa_generate mm o t1) as (cs & t2 & E2 & Hcs & Ht2 & Hs2); [by rewrite Ht1, lookup_insert_eq|].
  set (s2 := mkSide t2 (sd_boxes s) (sd_enums s)).
  assert (transients (sd_tee s2) !! o = Some (Some cs)) as Hcs2 by (cbn; by rewrite Ht2, lookup_insert_eq).
  destruct (key_pair_correct cs Hcs) as (n & e & Hmod & Hexp & Ln & Le & Hpk & Hsig).
  destruct (export_spec o cs n e s2 (mkWorld mm ws) c1 Hcs2 Hcs Hmod Hexp Ln Le Ho1 Hc1)
    as (r & w1 & E3 & Hexport).
  assert (adds o s s2) as Hadds.
  { split; [|by split_and!; [cbn; rewrite Hs2|..]]. exists (Some cs). cbn.
    by rewrite Ht2, Ht1, insert_insert_eq. }
  erewrite ptry_Ok by by apply (key_generated _ _ _ _ _ _ _ E2).
  destruct (259 <=? c1) eqn:Hle; reflect_bool.
  - destruct Hexport as [-> Hout]. erewrite ptry_Ok by exact E3.
    destruct (with_hash_restores msg (fun hash => with_rsa OperationMode.Sign
      (mkTransient (mkObjectHandle o)) (sign_hash (mkMemrefOutput c2 2) hash)) s2 w1 (fun r w' =>
        if 256 <=? c2 then r = Ok tt /\ outputs 2 (RSA_SIGN cs (SHA256 msg)) w1 w' else too_short r))
      as (a & s' & w' & E & Hres & HQ).
    { intros s3 Ht3. apply (with_rsa_restores _ o cs); [by left|by rewrite Ht3|by left|].
      intros s4 p h Hp Hh. apply (sign_hash_restores p h); [done..|apply sha256_length| |done].
      by apply (outputs_buffer 1 (n ++ e) (mkWorld mm ws)). }
    exists a, s', w'. split; [exact E|]. split; [by eapply adds_restored|].
    destruct (256 <=? c2) eqn:Hle2; reflect_bool.
    + destruct HQ as [-> Hout2]. destruct (Hsig (SHA256 msg) (sha256_length msg)) as [Hlen Hver].
      exists (Signed (n ++ e) (RSA_SIGN cs (SHA256 msg))). split.
      * by apply signed_step.
      * destruct Hout as (Hr1 & q1 & Hq1 & Hrest). destruct Ho2 as (b2 & Hq2 & _).
        apply (outputs_two _ w1 w' _ _ c1 c2 q1 (mkParam b2 c2)); [by split; [|exists q1]|done|done|done| | |];
          [rewrite len_app; lia|lia|by apply Hap].
    + exists Short. split; [by right|]. destruct HQ as (er & -> & Hcode). exact Hcode.
  - destruct Hexport as [(er & -> & Hcode) ->]. erewrite ptry_Err by exact E3.
    exists (Err er), s2, (mkWorld mm ws). split; [reflexivity|]. split; [done|].
    exists Short. split; [by left|exact Hcode].
Qed.

(** A buffer of the TA's own, behind the client's. *)
Lemma in_buffer_union p v mm ws i l :
  (forall x, p <= x < p + len v -> mm !! x = None) -> in_buffer (mkWorld mm ws) i l ->
  in_buffer (mkWorld (buffer_at p v ∪ mm) ws) i l.
Proof.
  intros Hf (b & Hi & Hb & (Hv0 & Hv1 & Hv2 & Hm) & Hl & Hh). cbn [wmem raws] in *.
  assert (forall x y, mm !! x = Some y -> (buffer_at p v ∪ mm) !! x = Some y) as Hu.
  { intros x y Hx. rewrite lookup_union_r; [done|].
    destruct (decide (p <= x < p + len v)) as [Hin|Hout]; [by rewrite Hf in Hx|].
    by apply buffer_at_outside. }
  exists b. split_and!; [done..| |done|].
  - split_and!; [done..|]. intros x Hx. destruct (Hm x Hx) as [y Hy]. exists y. by apply Hu.
  - intros j Hj. cbn [wmem]. destruct (Hm (b + j)) as [y Hy]; [lia|].
    rewrite (Hu _ _ Hy). by rewrite <- Hh, Hy.
Qed.

Lemma with_vec_restores {A} l (body : Z -> app A) s w Q :
  (forall p m, 0 < p -> (forall x, p <= x < p + len l -> wmem w !! x = None) ->
     m = buffer_at p l ∪ wmem w ->
     restores (body p) s (mkWorld m (raws w)) (fun a w' => w' = mkWorld m (raws w) /\ Q a)) ->
  restores (with_vec l body) s w (fun a w' => w' = w /\ Q a).
Proof.
  intros Hbody. destruct s as [t b e], w as [mm ws].
  destruct (with_vec_Ret l body t b e mm ws (fun a s' => restored (mkSide t b e) s' /\ Q a))
    as (a & s' & E & Hr & HQ).
  - intros p Hp Hf. destruct (Hbody p _ Hp Hf eq_refl) as (a & s' & w' & E & Hr & -> & HQ).
    exists a, s'. by split_and!.
  - exists a, s', (mkWorld mm ws). by split_and!.
Qed.

Lemma public_attributes p pk mm :
  256 <= len pk ->
  contents_at (buffer_at p pk ∪ mm)
    [mkAttribute modulus_id p 256; mkAttribute exponent_id (p + 256) (len pk - 256)]
    = Some (public_contents (take 256 pk) (drop 256 pk)).
Proof.
  intros Hl. cbn [contents_at]. unfold content_at. cbn [attributeID attr_word0 attr_word1].
  change (is_value modulus_id) with false. change (is_value exponent_id) with false. cbv iota.
  pose proof (union_holds_at p pk mm 0 256) as E0. rewrite Z.add_0_r in E0.
  rewrite E0 by lia. rewrite (union_holds_at p pk mm 256 (len pk - 256)) by lia.
  rewrite drop_0. change (Z.to_nat 256) with 256%nat.
  rewrite (take_ge (drop 256 pk)) by (rewrite length_drop; unfold len; lia). done.
Qed.

Lemma verify_hash_restores p h n e d sg s w :
  sd_boxes s !! p = Some h ->
  sign_ops (sd_tee s) !! h = Some (Keyed OperationMode.Verify (public_contents n e)) ->
  public_key n e -> length d = 32%nat ->
  restores (verify_hash sg d (mkHandle p)) s w (fun r w' => w' = w /\
    code_of r = if RSA_VERIFY n e d sg then TEE_SUCCESS else TEE_ERROR_SIGNATURE_INVALID).
Proof.
  intros Hp Hh Hpk Hd. destruct s as [t b ex]. cbn [sd_tee sd_boxes] in *.
  destruct (rsa_verify h n e d sg t Hh Hpk Hd) as (t' & E & Hs).
  unfold verify_hash, restores. erewrite pbind_Ret.
  2:{ apply on_crypto_Ret. by apply (boxed p h (fun h => TEE_AsymmetricVerifyDigest h [] d sg) tee_check t b). }
  destruct (RSA_VERIFY n e d sg); eexists _, (mkSide t' b ex), w; (split; [reflexivity|]);
    by split_and!.
Qed.

Lemma verify_restores s w msg pk sg x3 :
  in_buffer w 0 msg -> in_buffer w 1 pk -> in_buffer w 2 sg ->
  (256 <= len pk -> public_key (take 256 pk) (drop 256 pk)) ->
  restores (verify (ParameterAny.MemrefInput (mkMemrefInput 0),
    ParameterAny.MemrefInput (mkMemrefInput 1), ParameterAny.MemrefInput (mkMemrefInput 2), x3)) s w
    (fun r w' => w' = w /\ code_of r = if len pk <? 256 then TEE_ERROR_BAD_PARAMETERS
       else if verifies msg pk sg then TEE_SUCCESS else TEE_ERROR_SIGNATURE_INVALID).
Proof.
  intros H0' H1' H2' Hpk. unfold verify. cbn [ParameterAny.as_memref_input]. unfold restores.
  do 3 (erewrite ptry_Ok by done).
  erewrite pbind_Ret by (by apply read_input_spec).
  erewrite pbind_Ret by (by apply read_input_spec).
  apply with_vec_restores. intros p m Hp Hf ->. destruct w as [mm ws]. cbn [wmem raws] in *.
  destruct (len pk <? 256) eqn:Hlen; reflect_bool; [by apply restores_pret|].
  specialize (Hpk Hlen). unfold restores.
  erewrite pbind_Ret by (apply read_input_spec; by apply in_buffer_union).
  apply with_key_restores; [by right|]. intros t1 o Hn Ho Ht1 Hs1.
  erewrite pbind_Ret by (unfold plift, Attribute.from_ref; rewrite rsa_init by (by left); reflexivity).
  erewrite pbind_Ret by (unfold plift, Attribute.from_ref; rewrite rsa_init by (by right); reflexivity).
  destruct (rsa_populate _ o _ _ _ t1 ltac:(by rewrite Ht1, lookup_insert_eq)
    (public_attributes p pk mm Hlen) Hpk) as (t2 & E2 & Ht2 & Hs2).
  set (s2 := mkSide t2 (sd_boxes s) (sd_enums s)).
  assert (adds o s s2) as Hadds.
  { split; [|by split_and!; [cbn; rewrite Hs2|..]]. eexists. cbn.
    by rewrite Ht2, Ht1, insert_insert_eq. }
  erewrite ptry_Ok by exact (key_filled _ _ _ _ _ _ _ _ E2).
  fold s2.
  destruct (with_hash_restores msg (fun hash => with_rsa OperationMode.Verify
      (mkTransient (mkObjectHandle o)) (verify_hash sg hash)) s2 (mkWorld (buffer_at p pk ∪ mm) ws)
      (fun r w' => w' = mkWorld (buffer_at p pk ∪ mm) ws /\ code_of r = if verifies msg pk sg
         then TEE_SUCCESS else TEE_ERROR_SIGNATURE_INVALID))
      as (a & s' & w' & E & Hres & HQ).
  { intros s3 Ht3. eapply (with_rsa_restores _ o); [by right| |right; split; [done|by eexists _, _]|].
    { rewrite Ht3. cbn. by rewrite Ht2, lookup_insert_eq. }
    intros s4 p' h Hp' Hh. apply (verify_hash_restores p' h); [done..|apply sha256_length]. }
  exists a, s', w'. split; [exact E|]. split; [by eapply adds_restored|done].
Qed.

(** A signature, or a refusal, is always possible. *)
Lemma sign_enabled (t : St) msg c1 c2 : exists rp, step (ReqSign msg c1 c2) tt rp tt.
Proof.
  destruct (decide (259 <= c1 /\ 256 <= c2)) as [[H1' H2']|Hn]; [|exists Short; cbn [step]; lia].
  destruct (rsa_object_allocate TransientObjectType.RsaKeypair t) as (o & t1 & _ & _ & _ & Ht1 & _);
    [by left|].
  destruct (rsa_generate ∅ o t1) as (cs & _ & _ & Hcs & _); [by rewrite Ht1, lookup_insert_eq|].
  destruct (key_pair_correct cs Hcs) as (n & e & _ & _ & Ln & Le & Hpk & Hsig).
  destruct (Hsig (SHA256 msg) (sha256_length msg)) as [Hlen Hver].
  exists (Signed (n ++ e) (RSA_SIGN cs (SHA256 msg))). by apply signed_step.
Qed.

(** Every command, through the conversion of its parameters. *)
Lemma sign_ta_steps s0 g a r cmd types w :
  restored s0 g -> carries r (cmd, types, w) -> (exists rp a', step r a rp a') ->
  exists ps res g' w' rp a', from_raw_tuple types w = Ret (Ok ps, w) /\
    invoke_command cmd ps (g, w) = Ret (res, (g', w')) /\ step r a rp a' /\
    gives rp w w' (code_of res) /\ restored s0 g'.
Proof.
  intros Hg Hc (rp0 & [] & Hs). destruct a. destruct r as [msg c1 c2|msg pk sg|c]; cbn [carries] in Hc.
  - destruct Hc as (-> & -> & Hin & Ho1 & Ho2 & Hc1 & Hc2 & Hap).
    destruct (sign_restores g w msg c1 c2 ParameterAny.None_ Hin Ho1 Ho2 Hc1 Hc2 Hap)
      as (res & g' & w' & E & Hres & rp & Hst & Hgv).
    eexists _, res, g', w', rp, tt. split; [|split; [exact E|split_and!; [done..|by eapply sign_restored_trans]]].
    by apply any_tuple4; [done..|by eapply any_input|apply any_output|apply any_output|].
  - destruct Hc as (-> & -> & H0' & H1' & H2'). cbn [step] in Hs.
    destruct (verify_restores g w msg pk sg ParameterAny.None_ H0' H1' H2')
      as (res & g' & w' & E & Hres & -> & Hcode).
    { intros Hl. rewrite (proj2 (Z.ltb_ge _ _) Hl) in Hs. apply Hs. }
    eexists _, res, g', w, rp0, tt. split; [|split; [exact E|split_and!; [done| |by eapply sign_restored_trans]]].
    + by apply any_tuple4; [done..|by eapply any_input|by eapply any_input|by eapply any_input|].
    + destruct (len pk <? 256); [by subst rp0|]. destruct Hs as [_ ->].
      by destruct (verifies msg pk sg).
  - destruct Hc as (-> & -> & Hc). exists (ParameterAny.None_, ParameterAny.None_, ParameterAny.None_,
      ParameterAny.None_), (bail ErrorKind.BadParameters), g, w, Refused, tt.
    split; [by apply any_tuple4|]. split; [|by split_and!].
    unfold invoke_command, Command.from. by rewrite !(proj2 (Z.eqb_neq _ _)) by lia.
Qed.

End Scopes.
