(* ===== verification/HelloTa.v ===== *)
(** * HelloTa: the TA that counts

    Models [examples/ta/hello_world-rs/src/main.rs] and
    [examples/ta/proto/src/hello_world.rs]: two commands that add to and subtract from the
    caller's value, with what they do through the generated entry point, for every value
    a caller can pass. *)

From S2P Require Import Prelude TeeDefines UteeError Memory Params EntryPoints ParamsSpec.
From S2P Require Import TeeParams TeeParamsSpec TaApp.

(** ** [proto::hello_world] *)

Module Command.

Inductive Command : Type := IncValue | DecValue | Unknown.

Definition from (x : Z) : Command :=
  if x =? 0 then IncValue else if x =? 1 then DecValue else Unknown.

Definition into (c : Command) : Z :=
  match c with IncValue => 0 | DecValue => 1 | Unknown => 2 end.

End Command.

Definition UUID : string := "133af0ca-bdab-11eb-9130-43bf7873bf67".

(** ** The handlers *)

Section Ta.
Context `{!Target, !Profile} {G : Type}.

Abbreviation app A := (prog (G * world) A).
Definition ParametersNone : Type := ParameterNone * ParameterNone * ParameterNone * ParameterNone.
Definition Parameters : Type := ParameterValueInout * ParameterNone * ParameterNone * ParameterNone.

Definition create : app (Result unit) := pret (Ok tt).
Definition open_session (_params : ParametersNone) : app (Result unit) := pret (Ok tt).
Definition close_session : app unit := pret tt.
Definition destroy : app unit := pret tt.

Definition invoke_command (cmd_id : Z) (params : Parameters) : app (Result unit) :=
  let '(values, _, _, _) := params in
  match Command.from cmd_id with
  | Command.IncValue =>
      let* a := on_params (get_a values) in
      let* a := plift (add_u 32 a 100) in
      let* _ := on_params (set_a values a) in
      pret (Ok tt)
  | Command.DecValue =>
      let* a := on_params (get_a values) in
      let* a := plift (sub_u 32 a 100) in
      let* _ := on_params (set_a values a) in
      pret (Ok tt)
  | Command.Unknown => pret (bail ErrorKind.BadParameters)
  end.

(** The entry point the macro generates. *)
Definition invoke_entry : Z -> Z -> prog (ta_state (G:=G) (Ctx:=unit)) Z :=
  TA_InvokeCommandEntryPoint0 from_raw_tuple invoke_command.

End Ta.

(** ** What a caller gets *)

Section Spec.
Context `{!Target, !TargetOk, !Profile} {G : Type}.

(** The answer to a command on the value [a]. *)
Definition answer (cmd a : Z) : outcome (Z * Z) :=
  match Command.from cmd with
  | Command.IncValue => let! x := add_u 32 a 100 in Ret (TEE_SUCCESS, x)
  | Command.DecValue => let! x := sub_u 32 a 100 in Ret (TEE_SUCCESS, x)
  | Command.Unknown => Ret (TEE_ERROR_BAD_PARAMETERS, a)
  end.

Lemma set_value_param a b x : in_u 32 a -> set_value_a (value_param a b) x = value_param x b.
Proof.
  unfold in_u, set_value_a, value_param. intros Ha.
  destruct ptr_bits_cases as [Hb|Hb]; rewrite !Hb; cbn [Z.eqb Pos.eqb word0 word1]; [done|].
  do 2 f_equal. rewrite Z.mul_comm, (Z.mul_comm (2 ^ 32) b). f_equal.
  rewrite Z.div_add, Z.div_small by lia. done.
Qed.

Definition value_types : Z := TEE_PARAM_TYPES TEE_PARAM_TYPE_VALUE_INOUT 0 0 0.

Lemma value_tuple w :
  from_raw_tuple (A:=ParameterValueInout) (B:=ParameterNone) (C:=ParameterNone) (D:=ParameterNone)
      value_types w
    = Ret (Ok (mkValueInout 0, mkParameterNone, mkParameterNone, mkParameterNone), w).
Proof. reflexivity. Qed.

(** A value that is read, changed and written back. *)
Lemma value_updated (f : Z -> outcome Z) (g : G) m rest a b :
  in_u 32 a -> in_u 32 b ->
  (let* x := on_params (get_a (mkValueInout 0)) in
   let* x := plift (f x) in
   let* _ := on_params (set_a (mkValueInout 0) x) in
   pret (@Ok unit Error.Error tt)) (g, mkWorld m (value_param a b :: rest))
    = let! x := f a in Ret (Ok tt, (g, mkWorld m (value_param x b :: rest))).
Proof.
  intros Ha Hb. erewrite pbind_Ret by (by apply on_params_Ret).
  destruct (value_param_fields a b Ha Hb) as [-> _]. unfold pbind, plift.
  destruct (f a) as [x| |]; try done. cbn. by rewrite set_value_param.
Qed.

(** Every command on every value: the handler's arithmetic, on the raw parameter. *)
Lemma invoke_entry_answers (g : G) m rest bs cmd a b :
  in_u 32 a -> in_u 32 b ->
  invoke_entry cmd value_types (mkTa g (mkWorld m (value_param a b :: rest)) bs)
    = let! r := answer cmd a in
      Ret (r.1, mkTa g (mkWorld m (value_param r.2 b :: rest)) bs).
Proof.
  intros Ha Hb. unfold invoke_entry, TA_InvokeCommandEntryPoint0.
  erewrite pbind_Ret by (unfold run_params; cbn [ew]; by rewrite value_tuple). cbv iota.
  unfold pbind at 1, run_user. cbn [ew eg boxes]. unfold invoke_command, answer.
  destruct (Command.from cmd); [| |done];
    rewrite (value_updated (fun x => _ 32 x 100)) by done; [destruct (add_u 32 a 100)|destruct (sub_u 32 a 100)]; done.
Qed.

End Spec.
