(* ===== verification/InterTa.v ===== *)
(** * InterTa: a TA that calls other TAs

    Models [examples/ta/inter_ta-rs/src/main.rs] and [examples/ta/proto/src/inter_ta.rs]:
    the TA has the system pseudo TA derive a key into a buffer of its own, and the TA of
    [HelloTa] add to a value.  [InterTaHost] is its client
    ([examples/ca/inter_ta-rs/src/main.rs]). *)

From S2P Require Import Prelude TeeDefines UteeError Memory Params EntryPoints TaApp TaState.
From S2P Require Import TeeParams Uuids TaSession HelloTa.

(** ** [proto::inter_ta] *)

Module Command.

Inductive Command : Type := Test | Unknown.

Definition from (x : Z) : Command := if x =? 0 then Test else Unknown.
Definition into (c : Command) : Z := match c with Test => 0 | Unknown => 1 end.

End Command.

Module SystemPtaCommand.

Inductive SystemPtaCommand : Type := AddRngEntropy | DeriveTaUniqueKey | Unknown.

Definition into (c : SystemPtaCommand) : Z :=
  match c with AddRngEntropy => 0 | DeriveTaUniqueKey => 1 | Unknown => 2 end.

End SystemPtaCommand.

Definition UUID : string := "fa9ea860-ef3b-4d59-8457-5564a60c0379".
Definition SYSTEM_PTA_UUID : string := "3a2f8978-5dc0-11e8-9c2d-fa7ae01bbebc".

Section Ta.
Context `{!Target, !VecAlloc, !UuidCrate}.
(** The TEE of the three calls sees the memory of the TA, where its buffers are. *)
Context {G : Type} `{!TeeTaApi (G * mem)}.

Abbreviation app A := (prog (G * world) A).

Definition on_ta_api {A} (p : prog (G * mem) A) : app A :=
  fun '(g, w) => match p (g, wmem w) with
                 | Ret (a, (g', m)) => Ret (a, (g', mkWorld m (raws w)))
                 | Panic => Panic
                 | UB => UB
                 end.

(** A session that is dropped when the block is left. *)
Definition with_ta_session {A} (session : TaSession) (body : app A) : app A :=
  let* r := body in
  let* _ := on_ta_api (session_drop session) in
  pret r.

(** An array with the bytes [l], while the block that owns it runs. *)
Definition drop_array (p n : Z) : prog world unit :=
  pmod (fun w => mkWorld (filter (fun '(a, _) => ~ p <= a < p + n) (wmem w)) (raws w)).
Definition with_array {A} (l : bytes) (body : Z -> app A) : app A :=
  fun '(g, w) =>
    let p := vec_addr (wmem w) (len l) in
    (let* r := body p in
     let* _ := on_params (drop_array p (len l)) in
     pret r) (g, mkWorld (buffer_at p l ∪ wmem w) (raws w)).

(** The bytes of a slice. *)
Definition slice_bytes (s : byte_slice) : prog world bytes :=
  fun w => match read_range (wmem w) (as_ptr s) (Z.to_nat (slice_len s)) with
           | Some l => Ret (l, w)
           | None => UB
           end.

(** [params[idx]]. *)
Definition param_at (ps : TeeParams) (idx : ParamIndex) : app Param :=
  match TeeParamsOps.index ps idx with Some p => pret p | None => plift Panic end.

(** The call, with the arrays at [input] and [output], and the checks of its answer. *)
Definition derive_key (session : TaSession) (input output : Z) : app (Result unit) :=
  let params :=
    TeeParamsOps.with_memref_out
      (TeeParamsOps.with_memref_in TeeParamsOps.new ParamIndex.Arg0 (mkSlice input 32))
      ParamIndex.Arg1 (mkSlice output 32) in
  let* (r, params) :=
    on_ta_api (TaSession.invoke_command session
      (SystemPtaCommand.into SystemPtaCommand.DeriveTaUniqueKey) params) in
  let? _ := pret r in
  let* p := param_at params ParamIndex.Arg1 in
  let* written := plift (Param.written_slice p) in
  match written with
  | None => pret (bail ErrorKind.BadParameters)
  | Some written_slice =>
      if negb (slice_len written_slice =? 32) then pret (bail ErrorKind.Generic)
      else
        let* key := on_params (slice_bytes written_slice) in
        if forallb (fun x => x =? 0) key then pret (bail ErrorKind.Generic)
        else pret (Ok tt)
  end.

Definition test_invoke_system_pta : app (Result unit) :=
  let? system_pta_uuid := pret (Utee.parse_str SYSTEM_PTA_UUID) in
  let? session := on_ta_api (build (builder_new system_pta_uuid)) in
  with_ta_session session (
    with_array (zeros 32) (fun input =>
    with_array (zeros 32) (fun output => derive_key session input output))).

(** The call and the check of its answer. *)
Definition add_value (session : TaSession) : app (Result unit) :=
  let params := TeeParamsOps.with_value_inout TeeParamsOps.new ParamIndex.Arg0 29 0 in
  let* (r, params) :=
    on_ta_api (invoke_command_with_timeout session
      (HelloTa.Command.into HelloTa.Command.IncValue) params 10000) in
  let? _ := pret r in
  let* p := param_at params ParamIndex.Arg0 in
  match Param.output_value p with
  | None => pret (bail ErrorKind.BadParameters)
  | Some (value_a, _value_b) =>
      if negb (value_a =? 129) then pret (bail ErrorKind.Generic) else pret (Ok tt)
  end.

Definition test_invoke_hello_world_user_ta : app (Result unit) :=
  let? hello_world_user_ta_uuid := pret (Utee.parse_str HelloTa.UUID) in
  let? session := on_ta_api (build (with_timeout (builder_new hello_world_user_ta_uuid) 10000)) in
  with_ta_session session (add_value session).

Definition invoke_command (cmd_id : Z) (_params : ParametersNone) : app (Result unit) :=
  match Command.from cmd_id with
  | Command.Test =>
      let? _ := test_invoke_system_pta in
      let? _ := test_invoke_hello_world_user_ta in
      pret (Ok tt)
  | Command.Unknown => pret (bail ErrorKind.NotSupported)
  end.

Definition create : app (Result unit) := pret (Ok tt).
Definition open_session (_params : ParametersNone) : app (Result unit) := pret (Ok tt).
Definition close_session : app unit := pret tt.
Definition destroy : app unit := pret tt.

End Ta.
