(* ===== verification/InterTaSpec.v ===== *)
(** * InterTaSpec: calls from one TA to another

    The TEE between the TAs as an interface, with the sessions it holds and the TAs it
    serves: what [InterTa] does with it, whatever its calls answer, and what comes back
    from the entry point of [HelloTa]. *)

From S2P Require Import Prelude TeeDefines UteeError Memory Params EntryPoints TaApp TaState.
From S2P Require Import TeeParams TeeParamsSpec Uuids TaSession HelloTa InterTa.
Import TeeParamsOps.

(** ** The TEE

    [target]: the TA of every session; [serves]: the TAs whose calls get through;
    [unique_key]: the key the system pseudo TA derives for this TA. *)

Class InterTee (G : Type) : Type := {
  target : G -> gmap Z TEE_UUID;
  serves : TEE_UUID -> G -> Prop;
  unique_key : bytes -> Z -> bytes;
}.

Definition key_types : Z :=
  TEE_PARAM_TYPES TEE_PARAM_TYPE_MEMREF_INPUT TEE_PARAM_TYPE_MEMREF_OUTPUT 0 0.

(** What is served stays served, sessions belong to their TA, and a call without memory
    references leaves the caller's memory alone.  A TA that is reached answers with its
    entry point; the pseudo TA writes the key where it is told to. *)
Class InterTeeOk `{!Target, !Profile} (pta hello : TEE_UUID) {G : Type} `{!TeeTaApi (G * mem), !InterTee G}
    : Prop := {
  open_reaches u t g m ans g' m' :
    TEE_OpenTASession u t 0 None (g, m) = (ans, (g', m')) ->
    m' = m /\ (forall v, serves v g -> serves v g') /\
    (serves u g -> oa_code ans = TEE_SUCCESS) /\
    (oa_code ans = TEE_SUCCESS -> target g !! oa_session ans = None /\
       target g' = <[oa_session ans := u]> (target g)) /\
    (oa_code ans <> TEE_SUCCESS -> target g' = target g);
  close_reaches h g m :
    is_Some (target g !! h) ->
    exists g', TEE_CloseTASession h (g, m) = Ret (g', m) /\ target g' = delete h (target g) /\
      forall v, serves v g -> serves v g';
  invoke_keeps h t c ty ps g m ans g' m' :
    TEE_InvokeTACommand h t c ty ps (g, m) = (ans, (g', m')) ->
    target g' = target g /\ (forall v, serves v g -> serves v g') /\
    length (ia_params ans) = length ps;
  invoke_hello h t c a b rest g m ans g' m' :
    target g !! h = Some hello -> in_u 32 a -> in_u 32 b ->
    TEE_InvokeTACommand h t c value_types (value_param a b :: rest) (g, m) = (ans, (g', m')) ->
    m' = m /\
    (serves hello g \/ ia_code ans = TEE_SUCCESS ->
     exists w, raws w = value_param a b :: rest /\ forall code st,
       HelloTa.invoke_entry c value_types (mkTa tt w ∅) = Ret (code, st) ->
       ia_code ans = code /\ ia_params ans = raws (ew st));
  invoke_derive h t extra key n l rest g m ans g' m' :
    target g !! h = Some pta -> holds_at m extra l -> len l <= 1024 ->
    range_mapped m key n -> 16 <= n <= 32 ->
    TEE_InvokeTACommand h t (SystemPtaCommand.into SystemPtaCommand.DeriveTaUniqueKey) key_types
      (mkParam extra (len l) :: mkParam key n :: rest) (g, m) = (ans, (g', m')) ->
    mdom m' = mdom m /\ same_outside m m' key n /\
    (serves pta g -> ia_code ans = TEE_SUCCESS) /\
    (ia_code ans = TEE_SUCCESS ->
       memref_size <$> ia_params ans !! 1%nat = Some n /\ holds_at m' key (unique_key l n));
  unique_key_len l n : 16 <= n <= 32 -> len (unique_key l n) = n;
}.

(** ** The calling TA *)

Section Caller.
Context `{!Target, !TargetOk, !Profile, !VecAlloc, !VecAllocOk, !UuidCrate}.
Context {G : Type} `{!TeeTaApi (G * mem), !InterTee G}.
Context (pta hello : TEE_UUID) `{IOk : !InterTeeOk pta hello}.

(** The TA's calls end with the sessions they began with. *)
Definition kept (g g' : G) : Prop :=
  target g' = target g /\ forall v, serves v g -> serves v g'.

Lemma kept_refl g : kept g g.
Proof. done. Qed.

Lemma kept_trans g1 g2 g3 : kept g1 g2 -> kept g2 g3 -> kept g1 g3.
Proof. intros [E1 S1] [E2 S2]. split; [congruence|auto]. Qed.

Lemma on_ta_api_Ret {A} (p : prog (G * mem) A) g w a g' m' :
  p (g, wmem w) = Ret (a, (g', m')) -> on_ta_api p (g, w) = Ret (a, (g', mkWorld m' (raws w))).
Proof. intros E. unfold on_ta_api. by rewrite E. Qed.

Lemma error_code_kept code origin :
  Error.raw_code (Error.with_origin (Error.from_raw_error code) origin) = code.
Proof. apply from_raw_error_code. Qed.

(** Opening a session without parameters. *)
Lemma build_bare u t g m :
  exists r g', build (mkBuilder (Utee.from_raw u) t None) (g, m) = Ret (r, (g', m)) /\
    match r with
    | Ok sess => target g !! raw sess = None /\ target g' = <[raw sess := u]> (target g) /\
        forall v, serves v g -> serves v g'
    | Err e => kept g g' /\ ~ serves u g /\ Error.raw_code e <> TEE_SUCCESS
    end.
Proof.
  unfold build, call_open. cbn [bparams target_uuid timeout]. unfold pbind at 1.
  destruct (TEE_OpenTASession _ t 0 (as_raw <$> None) (g, m)) as [ans [g' m']] eqn:E.
  destruct (open_reaches u t g m ans g' m' E) as (-> & Hs & Hsv & Hok & Hko).
  unfold tee_check_with_origin. case_if.
  - destruct (Hok ltac:(done)) as [Hf Ht]. erewrite ptry_Ok by done.
    eexists _, g'. split; [reflexivity|done].
  - erewrite ptry_Err by done. eexists _, g'. split; [reflexivity|].
    split; [split; [by apply Hko|done]|]. split; [intros Hv; by apply Hsv in Hv|].
    by rewrite error_code_kept.
Qed.

(** A block with a session, when its body keeps the other sessions. *)
Lemma session_block u t g w (body : TaSession -> prog (G * world) (Result unit))
    (post : Prop) :
  (forall sess g1, target g1 !! raw sess = Some u -> (forall v, serves v g -> serves v g1) ->
     exists r g2, body sess (g1, w) = Ret (r, (g2, w)) /\ kept g1 g2 /\
       (post -> serves u g1 -> r = Ok tt) /\ (code_of r = TEE_SUCCESS -> post)) ->
  exists r g', (let? session := on_ta_api (build (mkBuilder (Utee.from_raw u) t None)) in
                with_ta_session session (body session)) (g, w) = Ret (r, (g', w)) /\
    kept g g' /\ (post -> serves u g -> r = Ok tt) /\ (code_of r = TEE_SUCCESS -> post).
Proof.
  intros Hbody. destruct (build_bare u t g (wmem w)) as (r & g1 & E & Hr).
  assert (mkWorld (wmem w) (raws w) = w) as Hw by by destruct w.
  pose proof (on_ta_api_Ret _ _ w _ _ _ E) as E'. rewrite Hw in E'.
  destruct r as [sess|e]; [|erewrite ptry_Err by done].
  2:{ destruct Hr as (Hk & Hn & He). exists (Err e), g1. split; [done|]. split; [done|]. by split. }
  destruct Hr as (Hf & Ht & Hs). erewrite ptry_Ok by done.
  destruct (Hbody sess g1) as (r & g2 & E2 & [Ht2 Hs2] & Hgo & Hback);
    [by rewrite Ht, lookup_insert_eq|done|].
  destruct (close_reaches (raw sess) g2 (wmem w)) as (g3 & E3 & Ht3 & Hs3).
  { rewrite Ht2, Ht, lookup_insert_eq. by eexists. }
  exists r, g3. unfold with_ta_session. erewrite pbind_Ret by done.
  erewrite pbind_Ret.
  2:{ apply on_ta_api_Ret. unfold session_drop. rewrite E3. reflexivity. }
  rewrite Hw. split; [done|]. split; [|auto].
  split; [|auto]. by rewrite Ht3, Ht2, Ht, delete_insert_id.
Qed.

(** ** Arrays *)

Lemma with_array_Ret {A} l (body : Z -> prog (G * world) A) g mm rs (Q : A -> G -> Prop) :
  (forall p, (forall x, p <= x < p + len l -> mm !! x = None) ->
     exists a g' m', body p (g, mkWorld (buffer_at p l ∪ mm) rs) = Ret (a, (g', mkWorld m' rs)) /\
       same_outside (buffer_at p l ∪ mm) m' p (len l) /\ Q a g') ->
  exists a g', with_array l body (g, mkWorld mm rs) = Ret (a, (g', mkWorld mm rs)) /\ Q a g'.
Proof.
  intros Hbody. unfold with_array. cbn [wmem raws].
  pose proof (vec_addr_free mm (len l)) as Hf. set (p := vec_addr mm (len l)) in *. clearbody p.
  destruct (Hbody p Hf) as (a & g' & m' & E & Hs & HQ). exists a, g'. split; [|done].
  erewrite pbind_Ret by done. unfold drop_array, pmod. erewrite pbind_Ret by by apply on_params_Ret.
  cbn [wmem raws]. by rewrite (array_dropped p l mm m').
Qed.

Lemma slice_bytes_Ret m p l rs :
  range_mapped m p (len l) -> holds_at m p l ->
  slice_bytes (mkSlice p (len l)) (mkWorld m rs) = Ret (l, mkWorld m rs).
Proof.
  intros Hm Hh. unfold slice_bytes. cbn [as_ptr slice_len wmem].
  destruct (read_range_spec m (Z.to_nat (len l)) p) as (l' & E & Hlen & Hh');
    [by rewrite Z2Nat.id by apply len_nonneg|].
  rewrite Z2Nat.id in Hlen by apply len_nonneg. rewrite E.
  by rewrite (holds_at_inj m p l' l).
Qed.

(** ** The key *)

(** What the TA accepts as a key. *)
Definition usable_key : Prop := forallb (fun x => x =? 0) (unique_key (zeros 32) 32) = false.

Definition derive_params (input output : Z) : TeeParams :=
  with_memref_out (with_memref_in new ParamIndex.Arg0 (mkSlice input 32))
    ParamIndex.Arg1 (mkSlice output 32).

Lemma derive_key_runs sess input output g m rs :
  target g !! raw sess = Some pta -> holds_at m input (zeros 32) -> range_mapped m output 32 ->
  exists r g' m', derive_key sess input output (g, mkWorld m rs) = Ret (r, (g', mkWorld m' rs)) /\
    same_outside m m' output 32 /\ kept g g' /\
    (usable_key -> serves pta g -> r = Ok tt) /\ (code_of r = TEE_SUCCESS -> usable_key).
Proof.
  intros Ht Hin Hout. unfold derive_key. fold (derive_params input output).
  unfold TaSession.invoke_command, invoke_command_with_timeout, call_invoke. cbv zeta.
  set (ty := raw_param_types _). set (ps := as_raw _).
  destruct (TEE_InvokeTACommand (raw sess) TEE_TIMEOUT_INFINITE
    (SystemPtaCommand.into SystemPtaCommand.DeriveTaUniqueKey) ty ps (g, m)) as [ans [g' m']] eqn:E.
  destruct (invoke_keeps _ _ _ _ _ _ _ _ _ _ E) as (Ht' & Hs' & Hlen).
  destruct (invoke_derive (raw sess) TEE_TIMEOUT_INFINITE input output 32 (zeros 32)
    [mkParam 0 0; mkParam 0 0] g m ans g' m' Ht Hin) as (Hd & Hso & Hsv & Hok); [done..|].
  unfold pbind at 1, on_ta_api at 1. cbn [wmem raws]. unfold pbind at 1. rewrite E.
  unfold tee_check_with_origin. destruct (ia_code ans =? TEE_SUCCESS) eqn:Hc; reflect_bool.
  2:{ eexists _, g', m'. split; [reflexivity|]. split; [done|]. split; [done|].
      split; [intros _ Hv; by apply Hsv in Hv|]. cbn [code_of]. by rewrite error_code_kept. }
  destruct (Hok Hc) as [Hsize Hkey].
  destruct (ia_params ans) as [|q0 [|q1 [|q2 [|q3 [|]]]]]; try discriminate Hlen.
  cbn in Hsize. injection Hsize as Hsize.
  assert (update_from_raw (derive_params input output) [q0; q1; q2; q3]
    = (Ok tt, mkTeeParams (<[1%nat := Param.mkParam_ (ParamContent.MemrefOutput (mkSlice output 32) 32)]>
                            (params (derive_params input output))))) as ->.
  { unfold update_from_raw, update_one. cbn. unfold update_one. cbn.
    unfold Param.update_size_from_raw. cbn. by rewrite Hsize. }
  cbn. unfold pbind at 1, on_params. cbn [snd].
  assert (len (unique_key (zeros 32) 32) = 32) as Hl by by apply unique_key_len.
  pose proof (slice_bytes_Ret m' output (unique_key (zeros 32) 32) rs) as Hr. rewrite Hl in Hr.
  rewrite Hr by (done || by apply (range_mapped_dom m)).
  unfold usable_key. destruct (forallb _ _) eqn:Hz; eexists _, g', m'; (split; [reflexivity|]); done.
Qed.

Lemma system_pta_runs pu g w :
  Utee.parse_str SYSTEM_PTA_UUID = Ok pu -> Utee.as_raw pu = pta ->
  exists r g', test_invoke_system_pta (g, w) = Ret (r, (g', w)) /\ kept g g' /\
    (usable_key -> serves pta g -> r = Ok tt) /\ (code_of r = TEE_SUCCESS -> usable_key).
Proof.
  intros Hp Hu. unfold test_invoke_system_pta. erewrite ptry_Ok by by rewrite Hp.
  destruct pu as [pu]. cbn in Hu. subst pu. unfold builder_new.
  apply (session_block pta TEE_TIMEOUT_INFINITE g w
    (fun session => with_array (zeros 32) (fun input =>
       with_array (zeros 32) (fun output => derive_key session input output)))).
  intros sess g1 Ht _. destruct w as [mm rs].
  apply (with_array_Ret _ _ g1 mm rs (fun r g2 => kept g1 g2 /\
    (usable_key -> serves pta g1 -> r = Ok tt) /\ (code_of r = TEE_SUCCESS -> usable_key))).
  intros input Hin.
  destruct (with_array_Ret (zeros 32) (fun output => derive_key sess input output) g1
    (buffer_at input (zeros 32) ∪ mm) rs (fun r g2 => kept g1 g2 /\
    (usable_key -> serves pta g1 -> r = Ok tt) /\ (code_of r = TEE_SUCCESS -> usable_key)))
    as (r & g2 & E & HQ).
  - intros output Hout.
    destruct (derive_key_runs sess input output g1
      (buffer_at output (zeros 32) ∪ (buffer_at input (zeros 32) ∪ mm)) rs Ht) as
      (r & g2 & m' & E & Hs & HQ).
    + by apply array_beside.
    + apply (holds_at_mapped _ _ (zeros 32)), array_holds.
    + by exists r, g2, m'.
  - exists r, g2, (buffer_at input (zeros 32) ∪ mm). split; [exact E|]. split; [by intros x _|done].
Qed.

(** ** The value *)

(** The answer to the addition, when the TA is reached. *)
Definition hello_answer : list TEE_Param :=
  [value_param 129 0; mkParam 0 0; mkParam 0 0; mkParam 0 0].

Lemma add_value_runs sess g w :
  target g !! raw sess = Some hello ->
  exists r g', add_value sess (g, w) = Ret (r, (g', w)) /\ kept g g' /\
    (serves hello g -> r = Ok tt).
Proof.
  intros Ht. destruct w as [mm rs]. unfold add_value, invoke_command_with_timeout, call_invoke. cbv zeta.
  set (ty := raw_param_types _). set (ps := as_raw _).
  destruct (TEE_InvokeTACommand (raw sess) 10000
    (HelloTa.Command.into HelloTa.Command.IncValue) ty ps (g, mm)) as [ans [g' m']] eqn:E.
  destruct (invoke_keeps _ _ _ _ _ _ _ _ _ _ E) as (Ht' & Hs' & Hlen).
  destruct (invoke_hello (raw sess) 10000 (HelloTa.Command.into HelloTa.Command.IncValue) 29 0
    [mkParam 0 0; mkParam 0 0; mkParam 0 0] g mm ans g' m' Ht) as (-> & Hh); [done..|].
  assert (serves hello g \/ ia_code ans = TEE_SUCCESS ->
          ia_code ans = TEE_SUCCESS /\ ia_params ans = hello_answer) as Hans.
  { intros ([mt rt] & Hraw & Hans)%Hh. cbn in Hraw. subst rt.
    pose proof (invoke_entry_answers tt mt [mkParam 0 0; mkParam 0 0; mkParam 0 0] ∅
      (HelloTa.Command.into HelloTa.Command.IncValue) 29 0 ltac:(done) ltac:(done)) as Ee.
    exact (Hans _ _ Ee). }
  unfold pbind at 1, on_ta_api at 1, pbind at 1. cbn [wmem raws]. rewrite E.
  unfold tee_check_with_origin. destruct (ia_code ans =? TEE_SUCCESS) eqn:Hc; reflect_bool.
  - destruct (Hans (or_intror Hc)) as [_ ->].
    destruct (value_param_fields 129 0 ltac:(done) ltac:(done)) as [Va _].
    eexists _, g'. split; [|done]. cbn. rewrite Va. reflexivity.
  - eexists _, g'. split; [reflexivity|]. split; [done|]. intros Hv.
    by destruct (Hans (or_introl Hv)).
Qed.

Lemma hello_world_runs hu g w :
  Utee.parse_str HelloTa.UUID = Ok hu -> Utee.as_raw hu = hello ->
  exists r g', test_invoke_hello_world_user_ta (g, w) = Ret (r, (g', w)) /\ kept g g' /\
    (serves hello g -> r = Ok tt).
Proof.
  intros Hp Hu. unfold test_invoke_hello_world_user_ta. erewrite ptry_Ok by by rewrite Hp.
  destruct hu as [hu]. cbn in Hu. subst hu.
  destruct (session_block hello 10000 g w add_value True) as (r & g' & E & Hk & Hr & _).
  - intros sess g1 Ht _. destruct (add_value_runs sess g1 w Ht) as (r & g2 & E & Hk & Hr).
    exists r, g2. auto.
  - exists r, g'. auto.
Qed.

(** The command, whatever the TEE answers: the memory of the TA and the sessions are as
    before; it succeeds only with a key that is not zero, and with one it does when both
    TAs are served. *)
Lemma test_command_runs pu hu g w params :
  Utee.parse_str SYSTEM_PTA_UUID = Ok pu -> Utee.as_raw pu = pta ->
  Utee.parse_str HelloTa.UUID = Ok hu -> Utee.as_raw hu = hello ->
  exists r g', InterTa.invoke_command 0 params (g, w) = Ret (r, (g', w)) /\ kept g g' /\
    (usable_key -> serves pta g -> serves hello g -> r = Ok tt) /\ (code_of r = TEE_SUCCESS -> usable_key).
Proof.
  intros Pp Up Ph Uh. unfold InterTa.invoke_command.
  change (Command.from 0) with Command.Test. cbv iota.
  destruct (system_pta_runs pu g w Pp Up) as (r & g1 & E1 & Hk1 & Hgo & Hback).
  destruct r as [[]|e]; [|erewrite ptry_Err by done].
  2:{ exists (Err e), g1. split_and!; [done..| |done]. intros Hz Hv _. exact (Hgo Hz Hv). }
  erewrite ptry_Ok by done.
  destruct (hello_world_runs hu g1 w Ph Uh) as (r & g2 & E2 & Hk2 & Hr).
  assert (kept g g2) as Hk by by eapply kept_trans.
  destruct r as [[]|e]; [erewrite ptry_Ok by done|erewrite ptry_Err by done].
  - exists (Ok tt), g2. split_and!; [done..|]. intros _. by apply Hback.
  - exists (Err e), g2. split_and!; [done..| |].
    + intros _ _ Hv. apply Hr. by apply Hk1.
    + intros _. by apply Hback.
Qed.

End Caller.
