(* ===== verification/ClientApp.v ===== *)
(** * ClientApp: a client program, from its context to its last drop

    The example clients open a context and one session, make their calls, and leave:
    the session and the context are dropped at the end of the block.  Here is that
    block, the platform between libteec and a TA as an interface, and the theorem all
    clients share: when the TA refines a specification, the calls of the client see
    that specification, and nothing is left behind. *)

From S2P Require Import Prelude TeeDefines UteeError Memory Params EntryPoints Uuids SessionTa ParamsSpec.
From S2P Require Import TaApp TeeParams TeecDefines TeecError TeecParams TeecParamsSpec TeecSession.

(** ** The block of a client *)

Section Block.
Context {St : Type} `{!TeecApi St}.

(** A value that is dropped when the block is left. *)
Definition with_context {T} (ctx : Context) (body : prog (client St) T) : prog (client St) T :=
  let* r := body in let* _ := context_drop ctx in pret r.
Definition with_session {T} (session : Session) (body : prog (client St) T)
    : prog (client St) T :=
  let* r := body in let* _ := session_drop session in pret r.

(** [uuid.as_raw_ptr()]. *)
Definition raw_uuid (u : Teec.Uuid) : TEEC_UUID :=
  let r := Teec.as_raw u in
  mkTeecUuid (Uuids.timeLow r) (Uuids.timeMid r) (Uuids.timeHiAndVersion r)
    (Uuids.clockSeqAndNode r).

(** The block itself, with the calls of the client as [body]. *)
Definition client_block `{!UuidCrate} {T} (uuid : string)
    (body : Session -> prog (client St) (Result T)) : prog (client St) (Result T) :=
  let? ctx := context_new in
  with_context ctx (
    let? uuid := pret (Teec.parse_str uuid) in
    let? session := open_session ctx (raw_uuid uuid) in
    with_session session (body session)).

End Block.

(** ** The way of an operation *)

Definition words_ok `{!Target} (op : TEEC_Operation) : Prop :=
  Forall (fun x => param_ok (tp_words x.2)) (op_slots op).

(** The answer of a call is machine words again. *)
Class TransportWords `{!Target, !Transport} : Prop :=
  collect_words m op w : words_ok op -> Forall param_ok (raws w) -> words_ok (collect m op w).2.

(** The buffers of different slots stay apart on the way; what the client only sends is
    what it was before, unless it lies in one of the client's output buffers; and a TA
    that writes to its output buffers alone changes the client's alone. *)
Class TransportFrame `{!Target, !Transport} : Prop := {
  deliver_apart m op i j ti tj ri rj p q :
    i <> j -> op_slots op !! i = Some (ti, ri) -> op_slots op !! j = Some (tj, rj) ->
    deliverable m ti ri -> deliverable m tj rj -> is_temp ti = true -> is_temp tj = true ->
    apart (client_buffer ri) (client_size ri) (client_buffer rj) (client_size rj) ->
    raws (deliver m op) !! i = Some p -> raws (deliver m op) !! j = Some q ->
    apart (memref_buffer p) (client_size ri) (memref_buffer q) (client_size rj);
  collect_kept m op w i r p l :
    op_slots op !! i = Some (ParamType.MemrefTempInput, r) ->
    deliverable m ParamType.MemrefTempInput r -> raws (deliver m op) !! i = Some p ->
    len l = client_size r -> holds_at m (client_buffer r) l ->
    holds_at (wmem w) (memref_buffer p) l ->
    (forall j tj rj, op_slots op !! j = Some (tj, rj) -> is_temp tj = true ->
       is_output tj = true ->
       apart (client_buffer r) (client_size r) (client_buffer rj) (client_size rj)) ->
    holds_at (collect m op w).1 (client_buffer r) l;
  collect_outside m op w x :
    (forall y, (forall i t r p, op_slots op !! i = Some (t, r) -> is_temp t = true ->
       is_output t = true -> raws (deliver m op) !! i = Some p ->
       ~ memref_buffer p <= y < memref_buffer p + client_size r) ->
       wmem w !! y = wmem (deliver m op) !! y) ->
    (forall i t r, op_slots op !! i = Some (t, r) -> is_temp t = true -> is_output t = true ->
       ~ client_buffer r <= x < client_buffer r + client_size r) ->
    (collect m op w).1 !! x = m !! x;
}.

Lemma slot_arrives `{!Target, !Transport, !TransportOk} m op i x :
  op_slots op !! i = Some x -> exists p, raws (deliver m op) !! i = Some p.
Proof.
  intros Hi. apply lookup_lt_is_Some_2. rewrite deliver_length. apply lookup_lt_Some in Hi.
  unfold op_slots in Hi.
  destruct (ParamTypes.into_flags _) as [[[? ?] ?] ?], (op_params op) as [[[? ?] ?] ?]. exact Hi.
Qed.

(** A buffer to fill. *)
Lemma output_delivered `{!Target, !Transport, !TransportOk} m op i r :
  op_slots op !! i = Some (ParamType.MemrefTempOutput, r) ->
  deliverable m ParamType.MemrefTempOutput r -> out_buffer (deliver m op) i (client_size r).
Proof.
  intros Hi Hd. destruct (slot_arrives m op i _ Hi) as [p Hp].
  destruct (deliver_slot m op i _ r p Hi Hd Hp) as (_ & _ & Ht).
  destruct (Ht eq_refl) as (Hnn & Hsz & Hv & _). exists (memref_buffer p). rewrite Hsz in Hv.
  split; [|done]. rewrite Hp. f_equal. destruct p. unfold memref_size in Hsz. cbn in *. by subst.
Qed.

Lemma op_slots_length op : length (op_slots op) = 4%nat.
Proof.
  unfold op_slots.
  by destruct (ParamTypes.into_flags _) as [[[? ?] ?] ?], (op_params op) as [[[? ?] ?] ?].
Qed.

(** An output that fits comes back. *)
Lemma output_collected `{!Target, !Transport, !TransportOk} m op w i r p l :
  op_slots op !! i = Some (ParamType.MemrefTempOutput, r) ->
  deliverable m ParamType.MemrefTempOutput r -> raws (deliver m op) !! i = Some p ->
  reported_size w i = Some (len l) -> holds_at (wmem w) (memref_buffer p) l ->
  len l <= client_size r ->
  (forall j tj rj, j <> i -> op_slots op !! j = Some (tj, rj) -> is_temp tj = true ->
     is_output tj = true ->
     apart (client_buffer r) (client_size r) (client_buffer rj) (client_size rj)) ->
  holds_at (collect m op w).1 (client_buffer r) l.
Proof.
  intros Hi Hd Hp Hr Hh Hl Hal. unfold reported_size in Hr.
  destruct (raws w !! i) as [q|] eqn:Q; [|done]. cbn in Hr. injection Hr as Hr.
  destruct (lookup_lt_is_Some_2 (op_slots (collect m op w).2) i) as [[t' r'] Hi'].
  { rewrite op_slots_length, <- (op_slots_length op). by eapply lookup_lt_Some. }
  destruct (collect_slot m op w i _ r p q t' r' Hi Hd Hp Q Hi') as [_ Hm].
  destruct (Hm eq_refl eq_refl) as (_ & _ & Hb). rewrite Hr in Hb. by apply Hb.
Qed.

(** A buffer the client holds arrives as it is. *)
Lemma input_delivered `{!Target, !Transport, !TransportOk} m op i r l :
  op_slots op !! i = Some (ParamType.MemrefTempInput, r) -> param_ok (tp_words r) ->
  len l = client_size r -> holds_at m (client_buffer r) l -> 0 < client_buffer r ->
  client_buffer r + len l < 2 ^ ptr_bits -> len l < 2 ^ 31 ->
  in_buffer (deliver m op) i l.
Proof.
  intros Hi Hok Hl Hm Hb Hend Hmax.
  assert (deliverable m ParamType.MemrefTempInput r) as Hd.
  { split; [done|]. right. right. rewrite <- Hl. pose proof (len_nonneg l).
    split_and!; [done..|]. by apply holds_at_mapped. }
  destruct (slot_arrives m op i _ Hi) as [p Hp].
  destruct (deliver_slot m op i _ r p Hi Hd Hp) as (_ & _ & Ht).
  destruct (Ht eq_refl) as (Hnn & Hsz & Hv & Hin).
  exists (memref_buffer p). rewrite Hl in *. split; [|split; [done|split; [|split; [done|]]]].
  - rewrite Hp. f_equal. destruct p. unfold memref_size in Hsz. cbn in *. by subst.
  - by rewrite Hsz in Hv.
  - apply Hin; done.
Qed.

(** A vector or an array of the client, and its way as a parameter. *)
Record vector_at `{!Target} (m : mem) (a : Z) (l : bytes) : Prop := {
  vec_nonnull : 0 < a;
  vec_end : a + len l < 2 ^ ptr_bits;
  vec_short : len l < 2 ^ 31;
  vec_held : holds_at m a l;
}.

Lemma array_deliverable `{!Target, !TargetOk} m t a n :
  is_temp t = true -> 0 < a -> 0 <= n -> a + n < 2 ^ ptr_bits -> range_mapped m a n ->
  deliverable m t (from_tmpref (mkTmpRef a n)).
Proof.
  intros Ht Ha Hn Hend Hm. split; [|by right; right].
  unfold param_ok, in_u. cbn [tp_words from_tmpref word0 word1 tm_buffer tm_size]. lia.
Qed.

Lemma vector_deliverable `{!Target, !TargetOk} m t a l :
  is_temp t = true -> vector_at m a l -> deliverable m t (from_tmpref (mkTmpRef a (len l))).
Proof.
  intros Ht [Ha He _ Hl]. pose proof (len_nonneg l).
  apply array_deliverable; [done..|]. by apply holds_at_mapped.
Qed.

Lemma vector_delivered `{!Target, !TargetOk, !Transport, !TransportOk} m op i a l :
  op_slots op !! i = Some (ParamType.MemrefTempInput, from_tmpref (mkTmpRef a (len l))) ->
  vector_at m a l -> in_buffer (deliver m op) i l.
Proof.
  intros Hi [Ha He Hl Hh]. refine (input_delivered m op i _ l Hi _ _ Hh Ha He Hl); [|done].
  pose proof (len_nonneg l).
  unfold param_ok, in_u. cbn [tp_words from_tmpref word0 word1 tm_buffer tm_size]. lia.
Qed.

(** An operation without outputs changes nothing of the client. *)
Lemma collect_nothing `{!Target, !Transport, !TransportFrame} m op w :
  (forall i t r, op_slots op !! i = Some (t, r) -> is_temp t = true -> is_output t = false) ->
  wmem w = wmem (deliver m op) -> (collect m op w).1 = m.
Proof.
  intros Hno Hw. apply map_eq. intros x. apply collect_outside.
  - intros y _. by rewrite Hw.
  - intros i t r Hi Ht Ho. by rewrite (Hno i t r Hi Ht) in Ho.
Qed.

(** ** The platform *)

(** The client's memory, the TEE a TA works with, the boxes of its contexts, and the
    context pointer of every open session. *)
Class Platform (St G Ctx : Type) : Type := {
  client_mem : St -> mem;
  ta_side : St -> G;
  ta_boxes : St -> gmap Z Ctx;
  ta_sessions : St -> gmap Z Z;
}.

Section App.
Context `{!Target, !Transport}.
Context {St G Ctx : Type} `{!TeecApi St, !TeecApiOk St, !Platform St G Ctx}.

(** The side of the TA is left alone. *)
Definition untouched (s s' : St) : Prop :=
  client_mem s' = client_mem s /\ ta_side s' = ta_side s /\ ta_boxes s' = ta_boxes s /\
  ta_sessions s' = ta_sessions s.

(** The TA with the UUID [u] has the given entry points, and calls get through to them
    once a session is open; a TEE that does not open one has not reached the TA.  An
    opening or closing carries no parameters, and [w] is what the slots hold then. *)
Class PlatformOk (u : TEEC_UUID) (entry_open : prog (ta_state (G:=G) (Ctx:=Ctx)) (Z * option Z))
    (entry_invoke : Z -> Z -> Z -> prog (ta_state (G:=G) (Ctx:=Ctx)) Z)
    (entry_close : Z -> prog (ta_state (G:=G) (Ctx:=Ctx)) unit) : Prop := {
  platform_initialize s code c s' : TEEC_InitializeContext s = (code, c, s') -> untouched s s';
  platform_finalize c s s' : TEEC_FinalizeContext c s = Ret s' -> untouched s s';
  platform_open c l s rep s' : TEEC_OpenSession c u l None s = (rep, s') ->
    (or_code rep <> TEEC_SUCCESS /\ untouched s s') \/
    exists w, forall code ptr t,
      entry_open (mkTa (ta_side s) w (ta_boxes s)) = Ret ((code, Some ptr), t) ->
      or_code rep = code /\ client_mem s' = client_mem s /\ ta_side s' = eg t /\
      ta_boxes s' = boxes t /\ ta_sessions s' = <[or_session rep := ptr]> (ta_sessions s);
  platform_invoke h ptr cmd op s rep s' :
    ta_sessions s !! h = Some ptr -> TEEC_InvokeCommand h cmd op s = (rep, s') ->
    forall code t,
      entry_invoke ptr cmd (op_paramTypes op)
        (mkTa (ta_side s) (deliver (client_mem s) op) (ta_boxes s)) = Ret (code, t) ->
      ir_code rep = code /\ (client_mem s', ir_operation rep) = collect (client_mem s) op (ew t) /\
      ta_side s' = eg t /\ ta_boxes s' = boxes t /\ ta_sessions s' = ta_sessions s;
  platform_close h ptr s s' :
    ta_sessions s !! h = Some ptr -> TEEC_CloseSession h s = Ret s' ->
    exists w, forall t,
      entry_close ptr (mkTa (ta_side s) w (ta_boxes s)) = Ret (tt, t) ->
      ta_side s' = eg t /\ ta_boxes s' = boxes t /\ client_mem s' = client_mem s;
}.

(** The contexts and sessions of libteec. *)
Definition same_lib (s s' : St) : Prop :=
  contexts s' = contexts s /\ sessions_of s' = sessions_of s.

Lemma same_lib_trans s1 s2 s3 : same_lib s1 s2 -> same_lib s2 s3 -> same_lib s1 s3.
Proof. unfold same_lib. intros (->&->) (->&->). done. Qed.

(** The error of a client that gets no session. *)
Definition not_reached (u : TEEC_UUID) (s : St) : option Error.Error :=
  let '(code, c, s1) := TEEC_InitializeContext s in
  if code =? TEEC_SUCCESS then
    let '(rep, _) := TEEC_OpenSession c u TEEC_LOGIN_PUBLIC None s1 in
    if or_code rep =? TEEC_SUCCESS then None
    else Some (Error.with_origin (Error.from_raw_error (or_code rep))
                 (ErrorOrigin.from_u32 (or_origin rep)))
  else Some (Error.from_raw_error code).

(** ** The reference counts of the block *)

Lemma heap_deref (s : St) hp l cell :
  deref l (mkClient s (<[l := cell]> hp)) = Ret (cell, mkClient s (<[l := cell]> hp)).
Proof. unfold deref. cbn [heap]. by rewrite lookup_insert_eq. Qed.

Lemma heap_set (s : St) hp l cell cell' :
  set_cell l cell' (mkClient s (<[l := cell]> hp)) = Ret (tt, mkClient s (<[l := cell']> hp)).
Proof. unfold set_cell. cbn [heap lib]. by rewrite insert_insert_eq. Qed.

Lemma arc_clone_at (s : St) hp l n c b :
  arc_clone l (mkClient s (<[l := mkCell n c b]> hp))
    = Ret (l, mkClient s (<[l := mkCell (n + 1) c b]> hp)).
Proof.
  unfold arc_clone. erewrite pbind_Ret by apply heap_deref. by erewrite pbind_Ret by apply heap_set.
Qed.

Lemma arc_drop_at (s : St) hp l n c b :
  n <> 1 ->
  arc_drop l (mkClient s (<[l := mkCell n c b]> hp))
    = Ret (tt, mkClient s (<[l := mkCell (n - 1) c b]> hp)).
Proof.
  intros Hn. unfold arc_drop. erewrite pbind_Ret by apply heap_deref. cbn [strong inner locked].
  rewrite (proj2 (Z.eqb_neq n 1)) by done. apply heap_set.
Qed.

(** The last one finalizes the context. *)
Lemma arc_drop_last (s s' : St) hp l c b :
  hp !! l = None -> TEEC_FinalizeContext c s = Ret s' ->
  arc_drop l (mkClient s (<[l := mkCell 1 c b]> hp)) = Ret (tt, mkClient s' hp).
Proof.
  intros Hl E. unfold arc_drop. erewrite pbind_Ret by apply heap_deref. cbn [strong inner].
  change (1 =? 1) with true. cbv iota.
  erewrite pbind_Ret by (unfold inner_context_drop; cbn [lib heap]; by rewrite E).
  cbn [lib heap]. by rewrite delete_insert_id.
Qed.

Lemma invoke_command_at (s s' : St) hp h l cmd op ans :
  TEEC_InvokeCommand h cmd op s = (ans, s') ->
  invoke_command (mkSession h l) cmd op (mkClient s hp)
    = Ret ((teec_check_with_origin (ir_code ans) (ir_origin ans), ir_operation ans), mkClient s' hp).
Proof.
  intros E. unfold invoke_command. by erewrite pbind_Ret by (unfold call_invoke; cbn; by rewrite E).
Qed.

Lemma context_new_at (s s' : St) hp code c :
  TEEC_InitializeContext s = (code, c, s') ->
  context_new (mkClient s hp)
    = Ret (match teec_check code with
           | Ok _ => (Ok (mkContext (fresh (dom hp))),
                      mkClient s' (<[fresh (dom hp) := mkCell 1 c false]> hp))
           | Err e => (Err e, mkClient s' hp)
           end).
Proof.
  intros E. unfold context_new. erewrite pbind_Ret by (unfold call_initialize; cbn [lib heap];
    by rewrite E). cbv beta iota. by destruct (teec_check code).
Qed.

(** Opening a session leaves a second reference when it succeeds. *)
Lemma open_session_at (s s' : St) hp l c u rep :
  TEEC_OpenSession c u TEEC_LOGIN_PUBLIC None s = (rep, s') ->
  open_session (mkContext l) u (mkClient s (<[l := mkCell 1 c false]> hp))
    = Ret (match teec_check_with_origin (or_code rep) (or_origin rep) with
           | Ok _ => (Ok (mkSession (or_session rep) l), mkClient s' (<[l := mkCell 2 c false]> hp))
           | Err e => (Err e, mkClient s' (<[l := mkCell 1 c false]> hp))
           end).
Proof.
  intros E. unfold open_session, open_session_with_login, session_new, inner_context.
  cbn [ctx_raw]. unfold pbind at 1.
  erewrite pbind_Ret by apply arc_clone_at.
  erewrite pbind_Ret.
  2:{ unfold mutex_lock. erewrite pbind_Ret by apply heap_deref. cbn [locked strong inner].
      by erewrite pbind_Ret by apply heap_set. }
  erewrite pbind_Ret by (unfold call_open; cbn [lib heap];
    change (ConnectionMethods.into_u32 ConnectionMethods.LoginPublic) with TEEC_LOGIN_PUBLIC;
    by rewrite E).
  destruct (teec_check_with_origin (or_code rep) (or_origin rep)) as [t|e].
  - erewrite pbind_Ret by by erewrite pbind_Ret by apply arc_clone_at.
    erewrite pbind_Ret.
    2:{ unfold guard_drop. erewrite pbind_Ret by apply heap_deref. apply heap_set. }
    by erewrite pbind_Ret by by apply arc_drop_at.
  - erewrite pbind_Ret by done.
    erewrite pbind_Ret.
    2:{ unfold guard_drop. erewrite pbind_Ret by apply heap_deref. apply heap_set. }
    by erewrite pbind_Ret by by apply arc_drop_at.
Qed.

End App.

(** ** A TA that refines a specification

    [step r a rp a'] is what a TA in the abstract state [a] may answer to [r]; [stands bs
    ptr g bs' a] says that with the TEE [g] and the boxes [bs'] the pointer [ptr] belongs
    to a session that stands for [a], where [bs] are the boxes of the others. *)

Section Entries.
Context {G Ctx Req Reply A : Type}.
Context (step : Req -> A -> Reply -> A -> Prop).
Context (carries : Req -> Z * Z * world -> Prop).
Context (gives : Reply -> world -> world -> Z -> Prop).
Context (stands : gmap Z Ctx -> Z -> G -> gmap Z Ctx -> A -> Prop).
Context (entry_open : prog (ta_state (G:=G) (Ctx:=Ctx)) (Z * option Z)).
Context (entry_invoke : Z -> Z -> Z -> prog (ta_state (G:=G) (Ctx:=Ctx)) Z).
Context (entry_close : Z -> prog (ta_state (G:=G) (Ctx:=Ctx)) unit).

Definition entry_opens (g : G) (bs : gmap Z Ctx) (a0 : A) : Prop :=
  forall w, exists ptr t, entry_open (mkTa g w bs) = Ret ((TEE_SUCCESS, Some ptr), t) /\
    stands bs ptr (eg t) (boxes t) a0.

Definition entry_steps : Prop :=
  forall bs ptr g bs' a r cmd types w,
    stands bs ptr g bs' a -> carries r (cmd, types, w) -> (exists rp a', step r a rp a') ->
    exists code t rp a', entry_invoke ptr cmd types (mkTa g w bs') = Ret (code, t) /\
      step r a rp a' /\ gives rp w (ew t) code /\ stands bs ptr (eg t) (boxes t) a'.

Definition entry_closes (Q : A -> G -> Prop) : Prop :=
  forall bs ptr g bs' a w, stands bs ptr g bs' a ->
    exists t, entry_close ptr (mkTa g w bs') = Ret (tt, t) /\ boxes t = bs /\ Q a (eg t).

End Entries.

(** A TA with a session context, in the terms of [SessionTa]. *)
Section Boxed.
Context `{!Allocator, !AllocatorOk} {G P0 P Ctx : Type}.
Context (open_raws : Z -> prog world (UteeError.Result P0)).
Context (from_raws : Z -> prog world (UteeError.Result P)).
Context (ctx_default : prog (G * world) Ctx) (ctx_drop : Ctx -> prog (G * world) unit).
Context (user_open : P0 -> Ctx -> prog (G * world) (UteeError.Result unit * Ctx)).
Context (user_invoke : Ctx -> Z -> P -> prog (G * world) (UteeError.Result unit * Ctx)).
Context (user_close : Ctx -> prog (G * world) Ctx) (types0 : Z).
Context {Req Reply A : Type} (spec_step : Req -> A -> option (Reply * A) -> Prop).
Context (carries : Req -> Z * Z * world -> Prop).
Context (gives : Reply -> world -> world -> Z -> Prop).
Context (rep : Ctx -> G -> A -> Prop).

Definition boxed_step (r : Req) (a : A) (rp : Reply) (a' : A) : Prop :=
  spec_step r a (Some (rp, a')) /\ ~ spec_step r a None.

Definition boxed_stands (bs : gmap Z Ctx) (ptr : Z) (g : G) (bs' : gmap Z Ctx) (a : A) : Prop :=
  ptr <> 0 /\ bs !! ptr = None /\ exists ctx, bs' = <[ptr := ctx]> bs /\ rep ctx g a.

Lemma boxed_opens g g0 bs a0 :
  (forall w, opens open_raws ctx_default user_open rep types0 w g g0 a0) ->
  entry_opens boxed_stands
    (TA_OpenSessionEntryPoint open_raws ctx_default ctx_drop user_open types0) g bs a0.
Proof.
  intros Ho w. destruct (Ho w) as (ps & ctx & ctx' & g1 & Ep & Ed & Eo & Hrep).
  exists (alloc_addr (dom bs)). eexists. split.
  - unfold TA_OpenSessionEntryPoint.
    erewrite pbind_Ret by (unfold run_params; cbn [ew eg]; by rewrite Ep). cbv iota.
    erewrite pbind_Ret by (unfold run_user; cbn [ew eg]; by rewrite Ed).
    erewrite pbind_Ret by (unfold run_user; cbn [ew eg boxes]; by rewrite Eo). done.
  - split; [apply alloc_nonnull|]. split; [apply not_elem_of_dom, alloc_fresh|]. by exists ctx'.
Qed.

Lemma boxed_steps :
  invoke_refines from_raws user_invoke spec_step carries gives rep ->
  entry_steps boxed_step carries gives boxed_stands
    (TA_InvokeCommandEntryPoint from_raws user_invoke).
Proof.
  intros Hr bs ptr g bs' a r cmd types w (Hp & Hf & ctx & -> & Hrep) Hc (rp & a' & Hstep).
  destruct (invoke_steps from_raws user_invoke spec_step carries gives rep r a g w cmd types
    (<[ptr := ctx]> bs) ptr ctx Hr Hrep Hc Hp (lookup_insert_eq _ _ _)) as (out & Hst & Hi).
  destruct Hstep as [_ Hn]. destruct out as [[rp1 a1]|]; [|by destruct (Hn Hst)].
  destruct Hi as (code & ctx' & g' & w' & E & Hg & Hrep').
  eexists code, _, rp1, a1. split; [exact E|]. split; [by split|]. split; [done|].
  split; [done|]. split; [done|]. exists ctx'. cbn [boxes]. by rewrite insert_insert_eq.
Qed.

Lemma boxed_closes (Q : A -> G -> Prop) :
  (forall w ctx g a, rep ctx g a -> closes ctx_drop user_close ctx g w (Q a)) ->
  entry_closes boxed_stands (TA_CloseSessionEntryPoint ctx_drop user_close) Q.
Proof.
  intros Hclose bs ptr g bs' a w (Hp & Hf & ctx & -> & Hrep).
  destruct (Hclose w ctx g a Hrep) as (ctx' & g1 & g2 & Ec & Ed & HQ). eexists. split.
  - unfold TA_CloseSessionEntryPoint. rewrite (proj2 (Z.eqb_neq _ _) Hp).
    erewrite pbind_Ret by (unfold box_from_raw; cbn [boxes]; by rewrite lookup_insert_eq).
    erewrite pbind_Ret by (unfold run_user; cbn [ew eg boxes]; by rewrite Ec).
    erewrite pbind_Ret by (unfold run_user; cbn [ew eg boxes]; by rewrite Ed). done.
  - cbn [boxes eg]. by rewrite delete_insert_id.
Qed.

End Boxed.

(** A TA without one leaves the pointer and the boxes alone. *)
Section Unboxed.
Context {G P0 P Ctx : Type}.
Context (open_raws : Z -> prog world (UteeError.Result P0)).
Context (from_raws : Z -> prog world (UteeError.Result P)).
Context (user_open0 : P0 -> prog (G * world) (UteeError.Result unit)).
Context (user_invoke0 : Z -> P -> prog (G * world) (UteeError.Result unit)).
Context (user_close0 : prog (G * world) unit) (types0 : Z).
Context {Req Reply A : Type} (step : Req -> A -> Reply -> A -> Prop).
Context (carries : Req -> Z * Z * world -> Prop).
Context (gives : Reply -> world -> world -> Z -> Prop).
Context (rep : G -> A -> Prop).

(** The TEE's pointer of such a session is null. *)
Definition open_unboxed : prog (ta_state (G:=G) (Ctx:=Ctx)) (Z * option Z) :=
  let* code := TA_OpenSessionEntryPoint0 open_raws user_open0 types0 in
  pret (code, if code =? TEE_SUCCESS then Some 0 else None).
Definition invoke_unboxed (_ cmd types : Z) : prog (ta_state (G:=G) (Ctx:=Ctx)) Z :=
  TA_InvokeCommandEntryPoint0 from_raws user_invoke0 cmd types.
Definition close_unboxed (_ : Z) : prog (ta_state (G:=G) (Ctx:=Ctx)) unit :=
  TA_CloseSessionEntryPoint0 user_close0.

Definition unboxed_stands (bs : gmap Z Ctx) (_ : Z) (g : G) (bs' : gmap Z Ctx) (a : A) : Prop :=
  bs' = bs /\ rep g a.

Lemma unboxed_opens g bs a0 :
  (forall w, exists ps g0, open_raws types0 w = Ret (Ok ps, w) /\
     user_open0 ps (g, w) = Ret (Ok tt, (g0, w)) /\ rep g0 a0) ->
  entry_opens unboxed_stands open_unboxed g bs a0.
Proof.
  intros Ho w. destruct (Ho w) as (ps & g0 & Ep & Eo & Hrep). eexists _, _. split.
  - unfold open_unboxed, TA_OpenSessionEntryPoint0.
    erewrite pbind_Ret; [|erewrite pbind_Ret by (unfold run_params; cbn [ew eg]; by rewrite Ep)].
    2:{ cbv iota. by erewrite pbind_Ret by (unfold run_user; cbn [ew eg]; by rewrite Eo). }
    reflexivity.
  - done.
Qed.

Lemma unboxed_steps :
  (forall g a r cmd types w, rep g a -> carries r (cmd, types, w) ->
     (exists rp a', step r a rp a') ->
     exists ps res g' w' rp a', from_raws types w = Ret (Ok ps, w) /\
       user_invoke0 cmd ps (g, w) = Ret (res, (g', w')) /\ step r a rp a' /\
       gives rp w w' (code_of res) /\ rep g' a') ->
  entry_steps step carries gives unboxed_stands invoke_unboxed.
Proof.
  intros Hi bs ptr g bs' a r cmd types w [-> Hrep] Hc Hs.
  destruct (Hi g a r cmd types w Hrep Hc Hs) as (ps & res & g' & w' & rp & a' & Ep & E & Hst & Hg & Hrep').
  eexists _, _, rp, a'. split; [|split; [done|split]].
  - unfold invoke_unboxed, TA_InvokeCommandEntryPoint0.
    erewrite pbind_Ret by (unfold run_params; cbn [ew eg]; by rewrite Ep). cbv iota.
    by erewrite pbind_Ret by (unfold run_user; cbn [ew eg]; by rewrite E).
  - done.
  - done.
Qed.

Lemma unboxed_closes (Q : A -> G -> Prop) :
  (forall w g a, rep g a -> exists g', user_close0 (g, w) = Ret (tt, (g', w)) /\ Q a g') ->
  entry_closes unboxed_stands close_unboxed Q.
Proof.
  intros Hclose bs ptr g bs' a w [-> Hrep]. destruct (Hclose w g a Hrep) as (g' & E & HQ).
  exists (mkTa g' w bs). split; [|done].
  unfold close_unboxed, TA_CloseSessionEntryPoint0, run_user. cbn [eg ew]. by rewrite E.
Qed.

End Unboxed.

(** ** The client of a TA that refines a specification *)

Section Refined.
Context `{!Target, !Transport, !UuidCrate}.
Context {St G Ctx : Type} `{!TeecApi St, !TeecApiOk St, !Platform St G Ctx}.
Context {Req Reply A : Type}.
Context (step : Req -> A -> Reply -> A -> Prop).
Context (carries : Req -> Z * Z * world -> Prop).
Context (gives : Reply -> world -> world -> Z -> Prop).
Context (stands : gmap Z Ctx -> Z -> G -> gmap Z Ctx -> A -> Prop).
Context (entry_open : prog (ta_state (G:=G) (Ctx:=Ctx)) (Z * option Z)).
Context (entry_invoke : Z -> Z -> Z -> prog (ta_state (G:=G) (Ctx:=Ctx)) Z).
Context (entry_close : Z -> prog (ta_state (G:=G) (Ctx:=Ctx)) unit).
Context (u : TEEC_UUID) `{PO : !PlatformOk u entry_open entry_invoke entry_close}.

(** The session [h] stands for [a]; [bs] are the boxes of the other sessions. *)
Definition live (bs : gmap Z Ctx) (h : Z) (s : St) (a : A) : Prop :=
  exists ptr, ta_sessions s !! h = Some ptr /\ stands bs ptr (ta_side s) (ta_boxes s) a.

Lemma session_opened c s rp s' a0 :
  entry_opens stands entry_open (ta_side s) (ta_boxes s) a0 ->
  TEEC_OpenSession c u TEEC_LOGIN_PUBLIC None s = (rp, s') ->
  client_mem s' = client_mem s /\
  if or_code rp =? TEEC_SUCCESS then live (ta_boxes s) (or_session rp) s' a0
  else untouched s s'.
Proof.
  intros Ho E. destruct (platform_open c _ s rp s' E) as [[Hn Hu]|[w Hw]].
  - rewrite (proj2 (Z.eqb_neq _ _) Hn). split; [apply Hu|done].
  - destruct (Ho w) as (ptr & t & Eo & Hst).
    destruct (Hw _ _ _ Eo) as (Hc & Hm & Hs & Hb & Hses). rewrite Hc. split; [done|].
    change (TEE_SUCCESS =? _) with true. cbv iota. exists ptr. rewrite Hs, Hb.
    by rewrite Hses, lookup_insert_eq.
Qed.

Lemma session_invoked bs h s a r cmd op ans s' :
  entry_steps step carries gives stands entry_invoke ->
  live bs h s a -> carries r (cmd, op_paramTypes op, deliver (client_mem s) op) ->
  (exists rp a', step r a rp a') -> TEEC_InvokeCommand h cmd op s = (ans, s') ->
  exists rp a' w', step r a rp a' /\ gives rp (deliver (client_mem s) op) w' (ir_code ans) /\
    (client_mem s', ir_operation ans) = collect (client_mem s) op w' /\
    live bs h s' a' /\ same_lib s s'.
Proof.
  intros Hst (ptr & Hs & Hl) Hc Hp Hi.
  destruct (Hst bs ptr (ta_side s) (ta_boxes s) a r cmd (op_paramTypes op) _ Hl Hc Hp)
    as (code & t & rp & a' & E & Hstep & Hg & Hl').
  destruct (platform_invoke h ptr cmd op s ans s' Hs Hi _ _ E) as (-> & Hcol & Hside & Hbox & Hses).
  exists rp, a', (ew t). do 3 (split; [done|]). split; [|exact (invoke_ok _ _ _ _ _ _ Hi)].
  exists ptr. by rewrite Hses, Hside, Hbox.
Qed.

Lemma session_closed bs h s a s' (Q : A -> G -> Prop) :
  entry_closes stands entry_close Q ->
  live bs h s a -> TEEC_CloseSession h s = Ret s' -> ta_boxes s' = bs /\ Q a (ta_side s') /\
    client_mem s' = client_mem s.
Proof.
  intros Hclose (ptr & Hs & Hl) E. destruct (platform_close h ptr s s' Hs E) as (w & Hw).
  destruct (Hclose _ _ _ _ _ w Hl) as (t & Et & Hb & HQ). destruct (Hw t Et) as (-> & -> & ->). done.
Qed.

(** What the calls of a client do with a live session. *)
Definition calls_do {T} (bs : gmap Z Ctx) (m : mem) (a0 : A)
    (body : Session -> prog (client St) (Result T)) (post : Result T -> mem -> A -> Prop) : Prop :=
  forall h l s hp, live bs h s a0 -> client_mem s = m ->
  exists r s' a, body (mkSession h l) (mkClient s hp) = Ret (r, mkClient s' hp) /\
    live bs h s' a /\ same_lib s s' /\ post r (client_mem s') a.

(** The part between the opening of the session and its drop. *)
Lemma session_block_runs {T} (body : Session -> prog (client St) (Result T)) post
    s hp l c a0 (Q : A -> G -> Prop) :
  c ∈ contexts s ->
  entry_opens stands entry_open (ta_side s) (ta_boxes s) a0 ->
  entry_closes stands entry_close Q -> Q a0 (ta_side s) ->
  calls_do (ta_boxes s) (client_mem s) a0 body post ->
  exists r s' a,
    (let? session := open_session (mkContext l) u in with_session session (body session))
        (mkClient s (<[l := mkCell 1 c false]> hp))
      = Ret (r, mkClient s' (<[l := mkCell 1 c false]> hp)) /\
    same_lib s s' /\ ta_boxes s' = ta_boxes s /\ Q a (ta_side s') /\
    let '(rp, _) := TEEC_OpenSession c u TEEC_LOGIN_PUBLIC None s in
    if or_code rp =? TEEC_SUCCESS then post r (client_mem s') a
    else r = Err (Error.with_origin (Error.from_raw_error (or_code rp))
                    (ErrorOrigin.from_u32 (or_origin rp))) /\
         a = a0 /\ client_mem s' = client_mem s.
Proof.
  intros Hin Hopen Hclose HQ Hbody.
  destruct (TEEC_OpenSession c u TEEC_LOGIN_PUBLIC None s) as [rp s1] eqn:Eo.
  destruct (session_opened c s rp s1 a0 Hopen Eo) as (Hm1 & Hlive).
  destruct (open_ok c u TEEC_LOGIN_PUBLIC None s rp s1 Hin Eo) as (Hc1 & Hok & Hno).
  pose proof (open_session_at _ _ hp l _ _ _ Eo) as E1. unfold teec_check_with_origin in E1.
  unfold ptry. destruct (or_code rp =? TEEC_SUCCESS) eqn:Hc; erewrite pbind_Ret by exact E1; reflect_bool.
  2:{ destruct Hlive as (_ & Hs & Hb & _). eexists _, s1, a0. cbn. rewrite Hb, Hs, Hm1.
      split_and!; [reflexivity|split; [done|by apply Hno]|done..]. }
  destruct (Hok Hc) as [Hfresh Hses1].
  destruct (Hbody (or_session rp) l s1 (<[l := mkCell 2 c false]> hp) Hlive Hm1)
    as (r & s2 & a & E2 & Hlive2 & (Hc2 & Hses2) & Hpost).
  destruct (close_ok (or_session rp) c s2) as (s3 & E3 & Hc3 & Hses3);
    [by rewrite Hses2, Hses1, lookup_insert_eq|].
  destruct (session_closed _ _ _ _ _ Q Hclose Hlive2 E3) as (Hb3 & HQ3 & Hm3).
  exists r, s3, a. unfold with_session. erewrite pbind_Ret by exact E2.
  erewrite pbind_Ret.
  2:{ unfold session_drop. cbn [sess_raw sess_ctx].
      erewrite pbind_Ret by (cbn [lib heap]; by rewrite E3). by apply arc_drop_at. }
  split; [done|]. rewrite Hm3. split; [|done]. split; [by rewrite Hc3, Hc2, Hc1|].
  by rewrite Hses3, Hses2, Hses1, delete_insert_id.
Qed.

(** A client that gets no session reports why and has changed nothing; otherwise its
    calls decide.  In both cases every context, session and box is gone. *)
Lemma client_block_runs_to {T} uuid uu (body : Session -> prog (client St) (Result T)) post
    s hp a0 (Q : A -> G -> Prop) :
  Teec.parse_str uuid = Ok uu -> raw_uuid uu = u ->
  (forall h x, sessions_of s !! h = Some x -> x ∈ contexts s) ->
  entry_opens stands entry_open (ta_side s) (ta_boxes s) a0 ->
  entry_closes stands entry_close Q -> Q a0 (ta_side s) ->
  calls_do (ta_boxes s) (client_mem s) a0 body post ->
  exists r s' a, client_block uuid body (mkClient s hp) = Ret (r, mkClient s' hp) /\
    same_lib s s' /\ ta_boxes s' = ta_boxes s /\ Q a (ta_side s') /\
    match not_reached u s with
    | Some e => r = Err e /\ a = a0 /\ client_mem s' = client_mem s
    | None => post r (client_mem s') a
    end.
Proof.
  intros Hu Hraw Hwf Hopen Hclose HQ Hbody. unfold client_block, not_reached.
  destruct (TEEC_InitializeContext s) as [[code c] s1] eqn:Ei.
  destruct (platform_initialize s code c s1 Ei) as (Hm1 & Hs1 & Hb1 & _).
  destruct (initialize_ok s code c s1 Ei) as (Hses1 & Hok & Hno).
  pose proof (context_new_at _ _ hp _ _ Ei) as E1. unfold teec_check in E1.
  unfold ptry at 1. destruct (code =? TEEC_SUCCESS) eqn:Hc; erewrite pbind_Ret by exact E1; reflect_bool.
  2:{ eexists _, s1, a0. cbn. rewrite Hb1, Hs1. split_and!; [reflexivity|split; [by apply Hno|done]|done..]. }
  destruct (Hok Hc) as (Hfresh & Hc1).
  set (l := fresh (dom hp)). assert (hp !! l = None) as Hl by (apply not_elem_of_dom, is_fresh).
  clearbody l. rewrite <- Hs1 in HQ. rewrite <- Hs1, <- Hb1 in Hopen. rewrite <- Hb1, <- Hm1 in Hbody.
  destruct (session_block_runs body post s1 hp l c a0 Q) as (r & s2 & a & E2 & (Hc2 & Hses2) & Hb2 & HQ2 & Hr);
    [set_solver|done..|].
  destruct (finalize_ok c s2) as (s3 & E3 & Hc3 & Hses3); [set_solver|..].
  { intros h Hh. rewrite Hses2, Hses1 in Hh. by apply Hwf in Hh. }
  destruct (platform_finalize c s2 s3 E3) as (Hm3 & Hs3 & Hb3 & _).
  exists r, s3, a. split.
  - unfold with_context.
    erewrite pbind_Ret by (unfold ptry at 1; erewrite pbind_Ret by (by rewrite Hu);
      cbv iota; rewrite Hraw; exact E2).
    by erewrite pbind_Ret by by apply arc_drop_last.
  - rewrite Hb3, Hb2, Hb1, Hs3, Hm3. split; [|split; [done|split; [done|]]].
    + split; [rewrite Hc3, Hc2, Hc1; set_solver|by rewrite Hses3, Hses2].
    + destruct (TEEC_OpenSession c u TEEC_LOGIN_PUBLIC None s1) as [rp s4].
      destruct (or_code rp =? TEEC_SUCCESS); [done|].
      destruct Hr as (-> & -> & ->). by rewrite Hm1.
Qed.

(** When it does not matter where the TA ends. *)
Lemma client_block_runs {T} uuid uu (body : Session -> prog (client St) (Result T)) post
    s hp a0 (Q : G -> Prop) :
  Teec.parse_str uuid = Ok uu -> raw_uuid uu = u ->
  (forall h x, sessions_of s !! h = Some x -> x ∈ contexts s) ->
  entry_opens stands entry_open (ta_side s) (ta_boxes s) a0 ->
  entry_closes stands entry_close (fun _ => Q) -> Q (ta_side s) ->
  calls_do (ta_boxes s) (client_mem s) a0 body (fun r m _ => post r m) ->
  exists r s', client_block uuid body (mkClient s hp) = Ret (r, mkClient s' hp) /\
    same_lib s s' /\ ta_boxes s' = ta_boxes s /\ Q (ta_side s') /\
    match not_reached u s with
    | Some e => r = Err e
    | None => post r (client_mem s')
    end.
Proof.
  intros Hu Hraw Hwf Hopen Hclose HQ Hbody.
  destruct (client_block_runs_to uuid uu body _ s hp a0 _ Hu Hraw Hwf Hopen Hclose HQ Hbody)
    as (r & s' & a & E & Hlib & Hb & HQ' & Hr).
  exists r, s'. do 4 (split; [done|]). destruct (not_reached u s); [apply Hr|done].
Qed.

End Refined.

(** ** The frame of the shared transport *)

Module SharedFrame.
Import SharedTransport.
#[local] Existing Instances shared_target shared_transport.

#[local] Instance shared_frame : TransportFrame.
Proof.
  split.
  - intros m op i j ti tj ri rj p q _ Hi Hj _ _ _ _ Ha Hp Hq.
    by rewrite (shared_slot _ _ _ _ _ _ Hi Hp), (shared_slot _ _ _ _ _ _ Hj Hq).
  - intros m op w i r p l Hi _ Hp _ _ Hl _. by rewrite (shared_slot _ _ _ _ _ _ Hi Hp) in Hl.
  - intros m op w x Hw Hx. cbn. apply Hw. intros i t r p Hi Ht Ho Hp.
    rewrite (shared_slot _ _ _ _ _ _ Hi Hp). by apply (Hx i t r).
Qed.

End SharedFrame.

(** ** A platform in one process

    It runs the entry points on the client's operations; a TA that does not return is
    answered for by the TEE. *)

Module Local.
Section Platform.
Context `{!Transport} {G Ctx : Type} (uuid : TEEC_UUID).
Context (entry_open : prog (ta_state (G:=G) (Ctx:=Ctx)) (Z * option Z)).
Context (entry_invoke : Z -> Z -> Z -> prog (ta_state (G:=G) (Ctx:=Ctx)) Z).
Context (entry_close : Z -> prog (ta_state (G:=G) (Ctx:=Ctx)) unit).

(** A session: its context, and the pointer of the TA. *)
Record state : Type := mkState {
  l_mem : mem; l_side : G; l_boxes : gmap Z Ctx; l_contexts : gset Z; l_sessions : gmap Z (Z * Z)
}.

Definition no_words : world := mkWorld ∅ (repeat (mkParam 0 0) 4).

#[global] Instance TEEC_UUID_eq_dec : EqDecision TEEC_UUID.
Proof. solve_decision. Defined.

Definition open_local (c : Z) (u : TEEC_UUID) (s : state) : open_reply * state :=
  let refused code := (mkOpenReply code 3 0 None, s) in
  if decide (u = uuid) then
    match entry_open (mkTa (l_side s) no_words (l_boxes s)) with
    | Ret ((code, Some ptr), t) =>
        if code =? TEEC_SUCCESS then
          let h := fresh (dom (l_sessions s)) in
          (mkOpenReply code 4 h None,
           mkState (l_mem s) (eg t) (boxes t) (l_contexts s) (<[h := (c, ptr)]> (l_sessions s)))
        else refused code
    | _ => refused TEEC_ERROR_TARGET_DEAD
    end
  else refused TEEC_ERROR_ITEM_NOT_FOUND.

Definition invoke_local (h cmd : Z) (op : TEEC_Operation) (s : state) : invoke_reply * state :=
  match l_sessions s !! h with
  | Some (_, ptr) =>
      match entry_invoke ptr cmd (op_paramTypes op)
              (mkTa (l_side s) (deliver (l_mem s) op) (l_boxes s)) with
      | Ret (code, t) =>
          let '(m, op') := collect (l_mem s) op (ew t) in
          (mkInvokeReply code 4 op',
           mkState m (eg t) (boxes t) (l_contexts s) (l_sessions s))
      | _ => (mkInvokeReply TEEC_ERROR_TARGET_DEAD 3 op, s)
      end
  | None => (mkInvokeReply TEEC_ERROR_BAD_PARAMETERS 1 op, s)
  end.

Definition close_local (h : Z) (s : state) : outcome state :=
  match l_sessions s !! h with
  | Some (_, ptr) =>
      let '(g, bs) := match entry_close ptr (mkTa (l_side s) no_words (l_boxes s)) with
                      | Ret (_, t) => (eg t, boxes t)
                      | _ => (l_side s, l_boxes s)
                      end in
      Ret (mkState (l_mem s) g bs (l_contexts s) (delete h (l_sessions s)))
  | None => UB
  end.

#[local] Instance local_api : TeecApi state := {|
  TEEC_InitializeContext s :=
    let c := fresh (l_contexts s) in
    (TEEC_SUCCESS, c,
     mkState (l_mem s) (l_side s) (l_boxes s) ({[c]} ∪ l_contexts s) (l_sessions s));
  TEEC_FinalizeContext c s :=
    Ret (mkState (l_mem s) (l_side s) (l_boxes s) (l_contexts s ∖ {[c]}) (l_sessions s));
  TEEC_OpenSession c u _ _ s := open_local c u s;
  TEEC_InvokeCommand := invoke_local;
  TEEC_CloseSession := close_local;
  contexts := l_contexts;
  sessions_of s := fst <$> l_sessions s;
|}.

#[local] Instance local_platform : Platform state G Ctx := {|
  client_mem := l_mem; ta_side := l_side; ta_boxes := l_boxes;
  ta_sessions s := snd <$> l_sessions s;
|}.

Lemma local_api_ok : TeecApiOk state.
Proof.
  split; cbn.
  - intros s code c s' [= <- <- <-]. cbn. split; [done|]. split; [|done]. intros _.
    split; [apply is_fresh|done].
  - intros c s _ _. eexists. split; [reflexivity|done].
  - intros c u l op s rep s' _. unfold open_local.
    repeat case_match; intros [= <- <-]; reflect_bool; cbn in *; (split; [done|]); split; try done.
    intros _. rewrite lookup_fmap, fmap_insert.
    by rewrite (not_elem_of_dom_1 _ _ (is_fresh (dom (l_sessions s)))).
  - intros h cmd op s rep s'. unfold invoke_local. by repeat case_match; intros [= <- <-].
  - intros h c s. rewrite lookup_fmap. unfold close_local.
    destruct (l_sessions s !! h) as [[c' ptr]|]; [|done]. intros _.
    case_match. eexists. split; [reflexivity|]. cbn. by rewrite fmap_delete.
Qed.

Lemma local_platform_ok : PlatformOk uuid entry_open entry_invoke entry_close.
Proof.
  split; cbn.
  - by intros s code c s' [= <- <- <-].
  - by intros c s s' [= <-].
  - intros c l s rep s'. unfold open_local. rewrite decide_True by done. intros E.
    destruct (entry_open (mkTa (l_side s) no_words (l_boxes s)))
      as [[[code [ptr|]] t]| |] eqn:Eo; try (injection E as <- <-; by left).
    destruct (code =? TEEC_SUCCESS) eqn:Hc; reflect_bool; injection E as <- <-; [|by left].
    right. exists no_words. intros ? ? ? Ht. rewrite Eo in Ht. injection Ht as <- <- <-. cbn.
    by rewrite fmap_insert.
  - intros h ptr cmd op s rep s'. rewrite lookup_fmap. unfold invoke_local.
    destruct (l_sessions s !! h) as [[c' ptr']|]; [|done]. cbn. intros [= ->] E code t Ht.
    rewrite Ht in E. destruct (collect (l_mem s) op (ew t)). by injection E as <- <-.
  - intros h ptr s s'. rewrite lookup_fmap. unfold close_local.
    destruct (l_sessions s !! h) as [[c' ptr']|]; [|done]. cbn. intros [= ->] E.
    exists no_words. intros t Ht. rewrite Ht in E. by injection E as <-.
Qed.

End Platform.
End Local.
