(* ===== verification/ClientHeap.v ===== *)
(** * ClientHeap: the vectors of a client

    A client program allocates vectors in its own memory and passes them to libteec by
    reference.  The allocator is an interface: it finds a free range when there is one. *)

From S2P Require Import Prelude Memory Params EntryPoints TeeParams TeecDefines TeecError TeecParams TeecParamsSpec TeecSession ClientApp.

(** The memory of the client's process. *)
Class OwnMemory (St : Type) : Type := {
  own_mem : St -> mem;
  put_mem : mem -> St -> St;
}.

Class ClientAlloc : Type := client_addr : mem -> Z -> Z.

Section Heap.
Context {St : Type} `{!OwnMemory St, !ClientAlloc}.

Definition set_own (m : mem) (c : client St) : client St := mkClient (put_mem m (lib c)) (heap c).

(** A vector with the bytes [l], while the block that owns it runs. *)
Definition with_buffer {T} (l : bytes) (body : Z -> prog (client St) T) : prog (client St) T :=
  fun c =>
    let p := client_addr (own_mem (lib c)) (len l) in
    (let* r := body p in
     let* _ := pmod (fun c => set_own (dropped p (len l) (own_mem (lib c))) c) in
     pret r) (set_own (buffer_at p l ∪ own_mem (lib c)) c).

(** [v[..n].to_vec()] of a vector of [size] bytes at [p]. *)
Definition prefix_to_vec (p size n : Z) : prog (client St) bytes :=
  fun c =>
    if n <=? size then
      match read_range (own_mem (lib c)) p (Z.to_nat n) with
      | Some l => Ret (l, c)
      | None => UB
      end
    else Panic.

End Heap.

(** ** Laws *)

Class ClientAllocOk `{!Target, !ClientAlloc} : Prop :=
  client_addr_ok m n a :
    0 < a -> a + n < 2 ^ ptr_bits -> (forall x, a <= x < a + n -> m !! x = None) ->
    0 < client_addr m n /\ client_addr m n + n < 2 ^ ptr_bits /\
    forall x, client_addr m n <= x < client_addr m n + n -> m !! x = None.

(** Writing to its memory changes nothing else for the client. *)
Class OwnMemoryOk (St : Type) {G Ctx : Type} `{!TeecApi St, !Platform St G Ctx, !OwnMemory St} : Prop := {
  own_client s : own_mem s = client_mem s;
  put_client m s : client_mem (put_mem m s) = m;
  put_contexts m s : contexts (put_mem m s) = contexts s;
  put_sessions m s : sessions_of (put_mem m s) = sessions_of s;
  put_side m s : ta_side (put_mem m s) = ta_side s;
  put_boxes m s : ta_boxes (put_mem m s) = ta_boxes s;
  put_ta_sessions m s : ta_sessions (put_mem m s) = ta_sessions s;
}.

Section Laws.
Context `{!Target, !TargetOk, !ClientAlloc, !ClientAllocOk}.
Context {St G Ctx : Type} `{!TeecApi St, !Platform St G Ctx, !OwnMemory St}.
Context `{OwnOk : !OwnMemoryOk St}.

Lemma same_lib_put m s s' : same_lib s s' -> same_lib s (put_mem m s').
Proof. unfold same_lib. by rewrite put_contexts, put_sessions. Qed.

(** A block with a vector: when the block changes the memory at most in the vector, the
    memory is as before in the end. *)
Lemma with_buffer_Ret {T} a l (body : Z -> prog (client St) T) s hp (Q : T -> St -> Prop) :
  0 < a -> a + len l < 2 ^ ptr_bits ->
  (forall x, a <= x < a + len l -> client_mem s !! x = None) ->
  (forall p, 0 < p -> p + len l < 2 ^ ptr_bits ->
     (forall x, p <= x < p + len l -> client_mem s !! x = None) ->
     exists r s2,
       body p (mkClient (put_mem (buffer_at p l ∪ client_mem s) s) hp) = Ret (r, mkClient s2 hp) /\
       same_outside (buffer_at p l ∪ client_mem s) (client_mem s2) p (len l) /\ Q r s2) ->
  exists r s2, with_buffer l body (mkClient s hp)
      = Ret (r, mkClient (put_mem (client_mem s) s2) hp) /\ Q r s2.
Proof.
  intros Ha Hend Hfree Hbody. unfold with_buffer, set_own. cbn [lib heap]. rewrite own_client.
  destruct (client_addr_ok (client_mem s) (len l) a Ha Hend Hfree) as (Hp & Hpe & Hpf).
  set (p := client_addr (client_mem s) (len l)) in *. clearbody p.
  destruct (Hbody p Hp Hpe Hpf) as (r & s2 & E & Hs & HQ). exists r, s2. split; [|done].
  erewrite pbind_Ret by exact E. unfold pmod. erewrite pbind_Ret by done. cbn [lib heap].
  unfold dropped. by rewrite own_client, (array_dropped p l (client_mem s)).
Qed.

Lemma prefix_to_vec_Ret p size l s hp :
  len l <= size -> holds_at (client_mem s) p l ->
  prefix_to_vec p size (len l) (mkClient s hp) = Ret (l, mkClient s hp).
Proof.
  intros Hle Hl. unfold prefix_to_vec. rewrite (proj2 (Z.leb_le _ _)) by done. cbn [lib].
  rewrite own_client. destruct (read_range_spec (client_mem s) (Z.to_nat (len l)) p) as (l' & -> & Hlen & Hl').
  { rewrite Z2Nat.id by apply len_nonneg. by apply holds_at_mapped. }
  rewrite Z2Nat.id in Hlen by apply len_nonneg. by rewrite (holds_at_inj (client_mem s) p l' l).
Qed.

(** ** Room for vectors

    [space n m]: a megabyte of the address space has sixteen windows of [2^16] bytes, of
    which [2 * n] are free; a vector of at most that size takes two at most. *)
Definition window (i : Z) : Z := 2 ^ 20 + i * 2 ^ 16.

Definition space (n : nat) (m : mem) : Prop :=
  exists W : gset Z, (2 * n <= size W)%nat /\
    forall i, i ∈ W -> 0 <= i < 16 /\ forall x, window i <= x < window i + 2 ^ 16 -> m !! x = None.

Lemma space_take n m k :
  space (S n) m -> 0 <= k <= 2 ^ 16 ->
  exists a, 0 < a /\ a + k < 2 ^ ptr_bits /\ forall x, a <= x < a + k -> m !! x = None.
Proof.
  intros (W & Hs & HW) Hk. destruct (set_choose_L W) as [i Hi].
  { intros ->. rewrite size_empty in Hs. lia. }
  destruct (HW i Hi) as [Hir Hfree]. exists (window i). unfold window in *. split; [lia|]. split.
  - destruct ptr_bits_cases as [-> | ->]; lia.
  - intros x Hx. apply Hfree. lia.
Qed.

Lemma space_put n m p l :
  space (S n) m -> len l <= 2 ^ 16 -> space n (buffer_at p l ∪ m).
Proof.
  intros (W & Hs & HW) Hl. set (q := (p - 2 ^ 20) / 2 ^ 16).
  set (two := {[q]} ∪ {[q + 1]} : gset Z).
  assert (size two <= 2)%nat as Htwo
    by (unfold two; rewrite size_union_alt, size_singleton;
        pose proof (subseteq_size ({[q + 1]} ∖ {[q]}) ({[q + 1]} : gset Z) ltac:(set_solver)) as Hd;
        rewrite size_singleton in Hd; lia).
  exists (W ∖ two). split.
  - assert (size W <= size (two ∪ W ∖ two))%nat as Hle.
    { apply subseteq_size. intros x Hx. destruct (decide (x ∈ two)); set_solver. }
    rewrite size_union_alt in Hle.
    pose proof (subseteq_size ((W ∖ two) ∖ two) (W ∖ two) ltac:(set_solver)). lia.
  - intros i [Hi Hne]%elem_of_difference. destruct (HW i Hi) as [Hir Hfree]. split; [done|].
    intros x Hx. rewrite lookup_union_r; [by apply Hfree|]. apply buffer_at_outside. intros Hxp.
    pose proof (Z.div_mod (p - 2 ^ 20) (2 ^ 16)) as Hdiv.
    pose proof (Z.mod_pos_bound (p - 2 ^ 20) (2 ^ 16)) as Hmod.
    fold q in Hdiv. unfold window in Hx. apply Hne. unfold two.
    assert (i = q \/ i = q + 1) as [-> | ->] by lia; set_solver.
Qed.

Lemma space_mono n m m' :
  (forall x, m !! x = None -> m' !! x = None) -> space n m -> space n m'.
Proof.
  intros Hm (W & Hs & HW). exists W. split; [done|]. intros i Hi. destruct (HW i Hi) as [Hir Hf].
  split; [done|]. intros x Hx. by apply Hm, Hf.
Qed.

Lemma space_le n n' m : (n' <= n)%nat -> space n m -> space n' m.
Proof. intros Hn (W & Hs & HW). exists W. split; [lia|done]. Qed.

Lemma space_free m : (forall x, 2 ^ 20 <= x < 2 ^ 21 -> m !! x = None) -> space 8 m.
Proof.
  intros Hm. exists (list_to_set (seqZ 0 16)). split; [by vm_compute|].
  intros i Hi. apply elem_of_list_to_set, elem_of_seqZ in Hi. split; [lia|].
  intros x Hx. apply Hm. unfold window in Hx. lia.
Qed.

End Laws.

(** ** Programs of a session with vectors

    What a part of a client does in a live session that stands for [a], starting with the
    memory [m]. *)

Section Calls.
Context `{!Target, !TargetOk, !ClientAlloc, !ClientAllocOk}.
Context {St G Ctx A : Type} `{!TeecApi St, !Platform St G Ctx, !OwnMemory St, !OwnMemoryOk St}.
Context (stands : gmap Z Ctx -> Z -> G -> gmap Z Ctx -> A -> Prop) (bs : gmap Z Ctx) (h : Z).

Definition at_session {T} (body : prog (client St) T) (m : mem) (a : A)
    (post : T -> mem -> A -> Prop) : Prop :=
  forall s hp, live stands bs h s a -> client_mem s = m ->
  exists r s' a', body (mkClient s hp) = Ret (r, mkClient s' hp) /\
    live stands bs h s' a' /\ same_lib s s' /\ post r (client_mem s') a'.

(** Writing to the client's memory leaves a session alone. *)
Lemma live_put m s a : live stands bs h s a <-> live stands bs h (put_mem m s) a.
Proof. unfold live. by rewrite put_ta_sessions, put_side, put_boxes. Qed.

Lemma at_pret {T} (r : T) m a (post : T -> mem -> A -> Prop) :
  post r m a -> at_session (pret r) m a post.
Proof. intros Hp s hp Hl <-. by exists r, s, a. Qed.

(** [r?; Ok(())]. *)
Lemma at_passed {E} (r : result unit E) m a (post : result unit E -> mem -> A -> Prop) :
  post r m a -> at_session (let? _ := pret r in pret (Ok tt)) m a post.
Proof. intros Hp. by destruct r as [[]|e]; apply (at_pret _ m a post). Qed.

Lemma at_pbind {T U} (b : prog (client St) T) (f : T -> prog (client St) U) m a
    (mid : T -> mem -> A -> Prop) post :
  at_session b m a mid -> (forall r m' a', mid r m' a' -> at_session (f r) m' a' post) ->
  at_session (pbind b f) m a post.
Proof.
  intros Hb Hf s hp Hl Hm. destruct (Hb s hp Hl Hm) as (r & s1 & a1 & E1 & Hl1 & Hs1 & Hp).
  destruct (Hf r _ _ Hp s1 hp Hl1 eq_refl) as (r2 & s2 & a2 & E2 & Hl2 & Hs2 & Hp2).
  exists r2, s2, a2. erewrite pbind_Ret by exact E1. split; [done|]. split; [done|].
  split; [by apply (same_lib_trans _ s1)|done].
Qed.

Lemma at_ptry {T U E} (b : prog (client St) (result T E)) (f : T -> prog (client St) (result U E))
    m a (mid : result T E -> mem -> A -> Prop) post :
  at_session b m a mid -> (forall x m' a', mid (Ok x) m' a' -> at_session (f x) m' a' post) ->
  (forall e m' a', mid (Err e) m' a' -> post (Err e) m' a') ->
  at_session (ptry b f) m a post.
Proof.
  intros Hb Hf He. eapply at_pbind; [exact Hb|]. intros [x|e] m' a' Hm; [by apply Hf|].
  by apply at_pret, He.
Qed.

Lemma at_weaken {T} (b : prog (client St) T) m a (post post' : T -> mem -> A -> Prop) :
  (forall r m' a', post r m' a' -> post' r m' a') -> at_session b m a post -> at_session b m a post'.
Proof.
  intros Hw Hb s hp Hl Hm. destruct (Hb s hp Hl Hm) as (r & s1 & a1 & E & Hl1 & Hs & Hp).
  exists r, s1, a1. auto.
Qed.

(** A vector: the block has it, and does not have it in the end. *)
Lemma at_buffer {T} n l (body : Z -> prog (client St) T) m a post :
  space (S n) m -> len l <= 2 ^ 16 ->
  (forall p, 0 < p -> p + len l < 2 ^ ptr_bits -> (forall x, p <= x < p + len l -> m !! x = None) ->
     at_session (body p) (buffer_at p l ∪ m) a (fun r m' a' => post r (dropped p (len l) m') a')) ->
  at_session (with_buffer l body) m a post.
Proof.
  intros Hsp Hlen Hb s hp Hl <-. unfold with_buffer, set_own. cbn [lib heap]. rewrite own_client.
  destruct (space_take n _ (len l) Hsp) as (x & Hx & Hxe & Hxf); [pose proof (len_nonneg l); lia|].
  destruct (client_addr_ok (client_mem s) (len l) x Hx Hxe Hxf) as (Hp & Hpe & Hpf).
  set (p := client_addr (client_mem s) (len l)) in *. clearbody p.
  destruct (Hb p Hp Hpe Hpf (put_mem (buffer_at p l ∪ client_mem s) s) hp)
    as (r & s2 & a2 & E & Hl2 & Hs2 & Hpost); [by apply live_put|apply put_client|].
  exists r, (put_mem (dropped p (len l) (client_mem s2)) s2), a2.
  erewrite pbind_Ret by exact E. unfold pmod. erewrite pbind_Ret by done. cbn [lib heap].
  rewrite own_client. split; [done|]. split; [by apply live_put|]. rewrite put_client. split; [|done].
  unfold same_lib in *. by rewrite put_contexts, put_sessions in Hs2 |- *.
Qed.

(** Part of a vector is read. *)
Lemma at_prefix p size l m a (post : bytes -> mem -> A -> Prop) :
  len l <= size -> holds_at m p l -> post l m a ->
  at_session (prefix_to_vec p size (len l)) m a post.
Proof.
  intros Hle Hl Hp s hp Hlive <-. exists l, s, a. split; [by apply prefix_to_vec_Ret|done].
Qed.

(** A change within one vector is a change within it when another is dropped. *)
Lemma dropped_outside p l q n m m' :
  (forall x, p <= x < p + len l -> m !! x = None) ->
  same_outside (buffer_at p l ∪ m) m' q n -> same_outside m (dropped p (len l) m') q n.
Proof.
  intros Hf Hs x Hx. destruct (decide (p <= x < p + len l)) as [Hp|Hp].
  - by rewrite dropped_in, Hf.
  - rewrite dropped_out, Hs by done. by rewrite lookup_union_r by by apply buffer_at_outside.
Qed.

End Calls.

(** The calls of a client in these terms. *)
Lemma calls_at {St G Ctx A : Type} `{!TeecApi St, !Platform St G Ctx}
    (stands : gmap Z Ctx -> Z -> G -> gmap Z Ctx -> A -> Prop) {T} bs m a
    (body : Session -> prog (client St) (Result T)) post :
  (forall h l, at_session stands bs h (body (mkSession h l)) m a post) ->
  calls_do stands bs m a body post.
Proof. intros Hb h l. apply Hb. Qed.

(** One invocation in a session with a TA that refines a specification. *)
Section Invoked.
Context `{!Target, !Transport} {St G Ctx Req Reply A : Type}.
Context `{!TeecApi St, !TeecApiOk St, !Platform St G Ctx}.
Context (step : Req -> A -> Reply -> A -> Prop) (carries : Req -> Z * Z * world -> Prop).
Context (gives : Reply -> world -> world -> Z -> Prop).
Context (stands : gmap Z Ctx -> Z -> G -> gmap Z Ctx -> A -> Prop).
Context (entry_open : prog (ta_state (G:=G) (Ctx:=Ctx)) (Z * option Z)).
Context (entry_invoke : Z -> Z -> Z -> prog (ta_state (G:=G) (Ctx:=Ctx)) Z).
Context (entry_close : Z -> prog (ta_state (G:=G) (Ctx:=Ctx)) unit).
Context (u : TEEC_UUID) `{PO : !PlatformOk u entry_open entry_invoke entry_close}.

Lemma at_invoke bs h l r cmd op m a :
  entry_steps step carries gives stands entry_invoke ->
  carries r (cmd, op_paramTypes op, deliver m op) -> (exists rp a', step r a rp a') ->
  at_session stands bs h (invoke_command (mkSession h l) cmd op) m a
    (fun res m' a' => exists rp w code orig, step r a rp a' /\ gives rp (deliver m op) w code /\
       res = (teec_check_with_origin code orig, (collect m op w).2) /\ m' = (collect m op w).1).
Proof.
  intros Hst Hc Hs s hp Hlive <-. destruct (TEEC_InvokeCommand h cmd op s) as [ans s1] eqn:E.
  destruct (session_invoked step carries gives stands entry_open entry_invoke entry_close u
    bs h s a r cmd op ans s1 Hst Hlive Hc Hs E) as (rp & a' & w & Hstep & Hg & Hcol & Hlive1 & Hlib).
  eexists _, s1, a'. split; [by apply invoke_command_at|]. split; [done|]. split; [done|].
  exists rp, w, (ir_code ans), (ir_origin ans). by rewrite <- Hcol.
Qed.

End Invoked.

(** ** An allocator and the memory of the platform in one process *)

Module FirstFit.
Section FirstFit.
Context `{!Target}.

(** The lowest free range starts at 1 or behind a mapped address. *)
Definition fits_at (m : mem) (n p : Z) : bool :=
  bool_decide (0 < p /\ p + n < 2 ^ ptr_bits /\
               Forall (fun x => ~ p <= x < p + n) (elements (mdom m))).

#[local] Instance first_fit : ClientAlloc := fun m n =>
  default 1 (head (filter (fun p => fits_at m n p) (1 :: (Z.succ <$> elements (mdom m))))).

Lemma fits_at_spec m n p :
  fits_at m n p = true <->
  0 < p /\ p + n < 2 ^ ptr_bits /\ forall x, p <= x < p + n -> m !! x = None.
Proof.
  unfold fits_at. rewrite bool_decide_eq_true. split; intros (Hp & He & Hf); (split; [done|]);
    (split; [done|]).
  - intros x Hx. apply not_elem_of_dom. rewrite <- elem_of_elements. intros Hin.
    rewrite list.Forall_forall in Hf. by apply (Hf x).
  - apply list.Forall_forall. intros x Hin Hx. apply elem_of_elements in Hin.
    unfold mdom in Hin. apply elem_of_dom in Hin.
    rewrite (Hf x Hx) in Hin. by destruct Hin.
Qed.

Lemma candidate_below m n a :
  fits_at m n a = true ->
  exists p, p ∈ 1 :: (Z.succ <$> elements (mdom m)) /\ fits_at m n p = true.
Proof.
  intros Ha. pose proof Ha as (Hpos & _)%fits_at_spec.
  assert (0 <= a) as Hnn by lia. revert a Hnn Ha Hpos.
  apply (Z_lt_induction (fun a => fits_at m n a = true -> 0 < a ->
    exists p, p ∈ 1 :: (Z.succ <$> elements (mdom m)) /\ fits_at m n p = true)).
  intros a IH Ha Hpos.
  destruct (decide (a = 1)) as [->|Hne]; [exists 1; split; [by left|done]|].
  destruct (m !! (a - 1)) as [b|] eqn:Hm.
  - exists a. split; [|done]. right. apply list_elem_of_fmap. exists (a - 1).
    split; [lia|]. apply elem_of_elements. unfold mdom. apply elem_of_dom. by eexists.
  - apply (IH (a - 1)); [lia| |lia]. apply fits_at_spec in Ha as (_ & He & Hf). apply fits_at_spec.
    split; [lia|]. split; [lia|]. intros x Hx. destruct (decide (x = a - 1)) as [->|]; [done|].
    apply Hf. lia.
Qed.

#[local] Instance first_fit_ok : ClientAllocOk.
Proof.
  intros m n a Ha He Hf. apply fits_at_spec. unfold client_addr, first_fit.
  destruct (candidate_below m n a) as (p & Hin & Hp); [by apply fits_at_spec|].
  destruct (filter _ _) as [|q l] eqn:E.
  - exfalso. apply (not_elem_of_nil (A := Z) p). rewrite <- E. apply list_elem_of_filter.
    split; [by rewrite Hp|done].
  - cbn. assert (q ∈ filter (fun p => fits_at m n p) (1 :: (Z.succ <$> elements (mdom m)))) as Hq
      by (rewrite E; left).
    apply list_elem_of_filter in Hq as [Hq _]. by destruct (fits_at m n q).
Qed.

End FirstFit.
End FirstFit.

Module LocalHeap.
Section LocalHeap.
Context `{!Transport} {G Ctx : Type} (uuid : TEEC_UUID).
Context (entry_open : prog (ta_state (G:=G) (Ctx:=Ctx)) (Z * option Z)).
Context (entry_invoke : Z -> Z -> Z -> prog (ta_state (G:=G) (Ctx:=Ctx)) Z).
Context (entry_close : Z -> prog (ta_state (G:=G) (Ctx:=Ctx)) unit).
#[local] Existing Instances Local.local_api Local.local_platform.
#[local] Instance api : TeecApi (Local.state (G:=G) (Ctx:=Ctx)) :=
  Local.local_api uuid entry_open entry_invoke entry_close.

#[local] Instance local_memory : OwnMemory (Local.state (G:=G) (Ctx:=Ctx)) := {|
  own_mem := Local.l_mem;
  put_mem m s := Local.mkState m (Local.l_side s) (Local.l_boxes s) (Local.l_contexts s)
                   (Local.l_sessions s);
|}.

Lemma local_memory_ok : OwnMemoryOk (Local.state (G:=G) (Ctx:=Ctx)).
Proof. by split. Qed.

End LocalHeap.
End LocalHeap.
