(* ===== verification/HotpHost.v ===== *)
(** * HotpHost: the client of the one-time-password TA

    Models [examples/ca/hotp-rs/src/main.rs]: it registers a key, asks for ten codes
    and compares each with the value of RFC 4226.  The printed lines are left out. *)

From S2P Require Import Prelude Uuids Hotp TeeParams TeecDefines TeecError TeecParams TeecSession.
From S2P Require Import ClientApp.

Definition SIZE_K : Z := 20.
Definition RFC4226_TEST_VALUES : list Z :=
  [755224; 287082; 359152; 969429; 338314; 254676; 287922; 162583; 399871; 520489].

(** [proto::hotp::UUID]. *)
Definition UUID : string := "1585d412-bdab-11eb-ba91-3b085fd2601f".

(** The local array [k]. *)
Definition key_bytes : bytes :=
  [0x31; 0x32; 0x33; 0x34; 0x35; 0x36; 0x37; 0x38; 0x39; 0x30;
   0x31; 0x32; 0x33; 0x34; 0x35; 0x36; 0x37; 0x38; 0x39; 0x30].

Section Host.
Context `{!Target} {St : Type} `{!TeecApi St}.

Abbreviation app A := (prog (client St) A).

(** [k]: where the array is on the client's stack. *)
Definition register_shared_key (k : Z) (session : Session) : app (Result unit) :=
  let p0 := ParamTmpRefOps.new_input (mkSlice k SIZE_K) in
  let operation := OperationOps.new 0 p0 mkParamNone mkParamNone mkParamNone in
  let* (r, _) := invoke_command session (Hotp.Command.into Hotp.Command.RegisterSharedKey)
                   (op_raw operation) in
  let? _ := pret r in
  pret (Ok tt).

(** The operation is used for all calls. *)
Fixpoint get_codes (session : Session) (values : list Z)
    (operation : Operation ParamValue ParamNone ParamNone ParamNone) : app (Result unit) :=
  match values with
  | [] => pret (Ok tt)
  | expected_value :: values' =>
      let* (r, raw) := invoke_command session (Hotp.Command.into Hotp.Command.GetHOTP)
                         (op_raw operation) in
      let operation := mkOperation raw in
      let? _ := pret r in
      let '(p0, _, _, _) := OperationOps.parameters operation in
      let hotp_value := ParamValueOps.a p0 in
      if negb (hotp_value =? expected_value) then pret (Err (Error.from_kind ErrorKind.Generic))
      else get_codes session values' operation
  end.

Definition get_hotp (session : Session) : app (Result unit) :=
  let p0 := ParamValueOps.new 0 0 ParamType.ValueOutput in
  let operation := OperationOps.new 0 p0 mkParamNone mkParamNone mkParamNone in
  get_codes session RFC4226_TEST_VALUES operation.

Definition main `{!UuidCrate} (k : Z) : app (Result unit) :=
  let? ctx := context_new in
  with_context ctx (
    let? uuid := pret (Teec.parse_str UUID) in
    let? session := open_session ctx (raw_uuid uuid) in
    with_session session (
      let? _ := register_shared_key k session in
      let? _ := get_hotp session in
      pret (Ok tt))).

End Host.
