(* ===== verification/HotpHostSpec.v ===== *)
(** * HotpHostSpec: the client of the one-time-password TA accepts its codes

    The client, libteec, the entry points and the TA together, over the interfaces of
    [ClientApp]. *)

From S2P Require Import Prelude TeeDefines UteeError Memory Params EntryPoints Storage Crypto.
From S2P Require Import Transient ParamsSpec TransientSpec Uuids TaApp SessionTa TaState Hotp.
From S2P Require Import HotpSpec TeeParams TeecDefines TeecError TeecParams TeecParamsSpec.
From S2P Require Import TeecSession ClientApp HotpHost.

(** The codes of a key, from the counter [n] on. *)
Definition codes `{MacTee Tst} (k : bytes) (n : Z) (count : nat) : list Z :=
  (fun i => HOTP k (counter_bytes i)) <$> seqZ n (Z.of_nat count).

Lemma codes_cons `{MacTee Tst} k n count :
  codes k n (S count) = HOTP k (counter_bytes n) :: codes k (n + 1) count.
Proof.
  unfold codes. rewrite seqZ_cons by lia. rewrite fmap_cons. do 3 f_equal; lia.
Qed.

(** The verdict of the client. *)
Definition verdict (values expected : list Z) : Result unit :=
  if decide (values = expected) then Ok tt else Err (Error.from_kind ErrorKind.Generic).

(** ** The operations of the client *)

Section Operations.
Context `{!Target, !TargetOk, !Transport, !TransportOk, !TransportWords}.

Definition key_operation (k : Z) : TEEC_Operation :=
  op_raw (OperationOps.new 0 (ParamTmpRefOps.new_input (mkSlice k SIZE_K))
            mkParamNone mkParamNone mkParamNone).

(** The operation of the codes, and what the calls make of it. *)
Definition code_operation (op : TEEC_Operation) : Prop :=
  words_ok op /\ op_paramTypes op
    = op_paramTypes (op_raw (OperationOps.new 0 (ParamValueOps.new 0 0 ParamType.ValueOutput)
                               mkParamNone mkParamNone mkParamNone)).

Lemma new_code_operation :
  code_operation (op_raw (OperationOps.new 0 (ParamValueOps.new 0 0 ParamType.ValueOutput)
                            mkParamNone mkParamNone mkParamNone)).
Proof.
  split; [|done]. unfold words_ok. rewrite op_slots_new.
  assert (param_ok (mkParam 0 0)) as Hz
    by (unfold param_ok, in_u; cbn [word0 word1]; destruct ptr_bits_cases as [-> | ->]; done).
  rewrite !list.Forall_cons. split_and!; [by apply value_param_ok|exact Hz..|done].
Qed.

Lemma code_slots op :
  code_operation op -> exists r0 r1 r2 r3, op_params op = (r0, r1, r2, r3) /\
    op_slots op = [(ParamType.ValueOutput, r0); (ParamType.None_, r1); (ParamType.None_, r2);
                   (ParamType.None_, r3)].
Proof.
  intros [_ Ht]. destruct (op_params op) as [[[r0 r1] r2] r3] eqn:Hr. exists r0, r1, r2, r3.
  split; [done|]. by rewrite (op_slots_answered 0 _ _ _ _ op r0 r1 r2 r3 Ht Hr).
Qed.

Lemma code_deliverable m op i t r :
  code_operation op -> op_slots op !! i = Some (t, r) -> deliverable m t r.
Proof.
  intros Hop Hi. split.
  - exact (Forall_lookup_1 _ _ _ _ (proj1 Hop) Hi).
  - destruct (code_slots op Hop) as (r0 & r1 & r2 & r3 & _ & Hs). rewrite Hs in Hi.
    destruct i as [|[|[|[|i]]]]; cbn in Hi; [..|done]; injection Hi as <- <-; eauto.
Qed.

Lemma code_delivered m op :
  code_operation op -> Forall param_ok (raws (deliver m op)).
Proof.
  intros Hop. apply Forall_lookup. intros i p Hp.
  destruct (code_slots op Hop) as (r0 & r1 & r2 & r3 & _ & Hs).
  assert (exists x, op_slots op !! i = Some x) as [[t r] Hi].
  { rewrite Hs. apply lookup_lt_is_Some_2. apply lookup_lt_Some in Hp.
    rewrite deliver_length in Hp. exact Hp. }
  exact (proj1 (deliver_slot m op i t r p Hi (code_deliverable m op i t r Hop Hi) Hp)).
Qed.

Lemma code_collected m op w q :
  code_operation op -> Forall param_ok (raws w) -> raws w !! 0%nat = Some q ->
  code_operation (collect m op w).2 /\
  exists p0 p1 p2 p3, OperationOps.parameters (A:=ParamValue) (B:=ParamNone) (C:=ParamNone)
      (D:=ParamNone) (mkOperation (collect m op w).2) = (p0, p1, p2, p3) /\
    ParamValueOps.a p0 = value_a q.
Proof.
  intros Hop Hw Hq. assert (code_operation (collect m op w).2) as Hop'.
  { split; [by apply collect_words; [apply Hop|]|]. rewrite collect_types. apply Hop. }
  split; [done|]. destruct (code_slots op Hop) as (r0 & r1 & r2 & r3 & _ & Hs).
  destruct (code_slots _ Hop') as (x0 & x1 & x2 & x3 & Hx & Hs').
  assert (op_slots op !! 0%nat = Some (ParamType.ValueOutput, r0)) as Hs0 by (by rewrite Hs).
  destruct (lookup_lt_is_Some_2 (raws (deliver m op)) 0) as [p Hp]; [rewrite deliver_length; lia|].
  destruct (collect_slot m op w 0 _ r0 p q ParamType.ValueOutput x0 Hs0
    (code_deliverable m op 0 _ r0 Hop Hs0) Hp Hq) as [Hv _]; [by rewrite Hs'|].
  eexists _, _, _, _. split.
  - rewrite (parameters_answered 0 (ParamValueOps.new 0 0 ParamType.ValueOutput) mkParamNone
      mkParamNone mkParamNone _ x0 x1 x2 x3 (proj2 Hop') Hx). reflexivity.
  - exact (proj1 (Hv eq_refl eq_refl)).
Qed.

End Operations.

Lemma next_small `{Profile} n : 0 <= n < 255 -> next n = Some (n + 1).
Proof.
  intros Hn. unfold next. rewrite (Z.mod_small n), (Z.mod_small (n + 1)) by lia.
  rewrite (proj2 (Z.eqb_neq n 255)) by lia. by rewrite andb_false_r.
Qed.

(** ** The calls *)

Section Calls.
Context `{!Target, !TargetOk, !Profile, !TeeMemMove, !TeeMemMoveOk, !Allocator, !AllocatorOk}.
Context `{!VecAlloc, !VecAllocOk, !UuidCrate, !UuidCrateOk}.
Context {Tst : Type} `{!TeeCrypto Tst, !TeeObjects Tst, !MacTee Tst, !MacTeeOk Tst}.
Context {St : Type} `{!TeecApi St, !TeecApiOk St, !Platform St (side Tst) HmacOtp}.
Context `{!Transport, !TransportOk, !TransportWords}.

Definition open_entry : prog (ta_state (G:=side Tst) (Ctx:=HmacOtp)) (Z * option Z) :=
  TA_OpenSessionEntryPoint from_raw_tuple (pret default) (fun _ => pret tt) Hotp.open_session
    (TEE_PARAM_TYPES 0 0 0 0).
Definition invoke_entry : Z -> Z -> Z -> prog (ta_state (G:=side Tst) (Ctx:=HmacOtp)) Z :=
  TA_InvokeCommandEntryPoint from_raw_tuple Hotp.invoke_command.
Definition close_entry : Z -> prog (ta_state (G:=side Tst) (Ctx:=HmacOtp)) unit :=
  TA_CloseSessionEntryPoint (fun _ => pret tt) Hotp.close_session.

Context (u : TEEC_UUID) `{PO : !PlatformOk u open_entry invoke_entry close_entry}.

(** The session [h] of the one-time-password TA; [s0] is the TEE before. *)
Abbreviation hotp_live s0 := (live (boxed_stands (rep_at s0))).

Lemma hotp_invoked s0 bs h s a r cmd op ans s' :
  hotp_live s0 bs h s a -> carries r (cmd, op_paramTypes op, deliver (client_mem s) op) ->
  answer r a <> None -> TEEC_InvokeCommand h cmd op s = (ans, s') ->
  exists rp a' w', spec_step r a (Some (rp, a')) /\
    gives rp (deliver (client_mem s) op) w' (ir_code ans) /\
    (client_mem s', ir_operation ans) = collect (client_mem s) op w' /\
    hotp_live s0 bs h s' a' /\ same_lib s s'.
Proof.
  intros Hl Hc Hs Hi.
  assert (~ spec_step r a None) as Hn by (intros [?|(_ & _ & _ & ? & _ & ?)]; [by apply Hs|done]).
  destruct (answer r a) as [[rp a']|] eqn:Ea; [|done].
  destruct (session_invoked (boxed_step spec_step) carries gives (boxed_stands (rep_at s0))
    open_entry invoke_entry close_entry u bs h s a r cmd op ans s')
    as (rp1 & a1 & w' & [Hs' _] & Hrest);
    [|done..|exists rp, a'; split; [left; by rewrite Ea|done]|done|].
  - apply boxed_steps, hotp_invoke.
  - by exists rp1, a1, w'.
Qed.

Lemma register_host s0 bs h l s hp k :
  hotp_live s0 bs h s (None, 0) -> 0 < k -> k + SIZE_K < 2 ^ ptr_bits ->
  holds_at (client_mem s) k key_bytes ->
  exists s', HotpHost.register_shared_key k (mkSession h l) (mkClient s hp)
      = Ret (Ok tt, mkClient s' hp) /\
    hotp_live s0 bs h s' (Some key_bytes, 0) /\ same_lib s s'.
Proof.
  intros Hlive Hk Hk' Hm.
  destruct (TEEC_InvokeCommand h (Command.into Command.RegisterSharedKey) (key_operation k) s)
    as [ans s1] eqn:E.
  assert (in_u ptr_bits k /\ in_u ptr_bits SIZE_K) as Hwords
    by (unfold in_u, SIZE_K in *; split; [lia|destruct ptr_bits_cases as [-> | ->]; done]).
  assert (carries (Register key_bytes) (Command.into Command.RegisterSharedKey,
    op_paramTypes (key_operation k), deliver (client_mem s) (key_operation k))) as Hcarry.
  { assert (in_buffer (deliver (client_mem s) (key_operation k)) 0 key_bytes) as Hin
      by (by apply (input_delivered (client_mem s) (key_operation k) 0
           (to_raw (ParamTmpRefOps.new_input (mkSlice k SIZE_K))))).
    eexists _, _, _, _.
    split; [by apply (any_tuple TEE_PARAM_TYPE_MEMREF_INPUT 0); [done..|by eapply any_input|]|]. done. }
  destruct (hotp_invoked _ _ _ _ _ _ _ _ _ _ Hlive Hcarry ltac:(done) E)
    as (rp & a' & w' & Hstep & Hg & _ & Hlive' & Hlib).
  destruct Hstep as [Hstep|(_ & [?|?] & _)]; [|done..]. injection Hstep as -> ->. destruct Hg as [Hc _].
  exists s1. split; [|done]. unfold HotpHost.register_shared_key.
  erewrite pbind_Ret by by apply invoke_command_at. by rewrite Hc.
Qed.

(** What the client returns: its verdict, or the error of a TEE that failed. *)
Definition told (values expected : list Z) (r : Result unit) : Prop :=
  r = verdict values expected \/ ~ MacTeeReliable Tst /\ exists e, r = Err e.

Lemma get_codes_host s0 bs h l hp kk values : forall s op n,
  hotp_live s0 bs h s (Some kk, n) -> code_operation op -> 0 <= n ->
  n + len values <= 255 ->
  exists r s' n', get_codes (mkSession h l) values (mkOperation op) (mkClient s hp)
      = Ret (r, mkClient s' hp) /\ told (codes kk n (length values)) values r /\
    hotp_live s0 bs h s' (Some kk, n') /\ same_lib s s'.
Proof.
  induction values as [|v values IH]; intros s op n Hlive Hop Hn Hmax.
  { exists (Ok tt), s, n. split; [done|]. split; [by left|done]. }
  rewrite len_cons in Hmax. pose proof (len_nonneg values).
  cbn [get_codes length]. rewrite codes_cons.
  destruct (TEEC_InvokeCommand h (Command.into Command.GetHOTP) op s) as [ans s1] eqn:E.
  destruct (lookup_lt_is_Some_2 (raws (deliver (client_mem s) op)) 0) as [p Hp];
    [rewrite deliver_length; lia|].
  pose proof (code_delivered (client_mem s) op Hop) as Hws.
  assert (carries Get (Command.into Command.GetHOTP, op_paramTypes op,
    deliver (client_mem s) op)) as Hcarry.
  { eexists _, _, _, _. rewrite (proj2 Hop).
    split; [by apply (any_tuple TEE_PARAM_TYPE_VALUE_OUTPUT 0)|].
    split; [done|]. split; [done|]. exists p. split; [done|].
    exact (Forall_lookup_1 _ _ _ _ Hws Hp). }
  assert (answer Get (Some kk, n) = Some (Code (HOTP kk (counter_bytes n)), (Some kk, n + 1)))
    as Hanswer by (cbn; unfold counted; by rewrite next_small by lia).
  destruct (hotp_invoked _ _ _ _ _ _ _ _ _ _ Hlive Hcarry ltac:(by rewrite Hanswer) E)
    as (rp & a' & w' & Hstep & Hg & Hcol & Hlive' & Hlib).
  destruct Hstep as [Hstep|(Hrel & _ & _ & code & Hcode & [= -> ->])].
  2:{ destruct Hg as [Hc _]. eexists _, s1, n. split; [|split; [|split; [exact Hlive'|done]]].
      - erewrite pbind_Ret by by apply invoke_command_at. rewrite Hc. unfold teec_check_with_origin.
        rewrite (proj2 (Z.eqb_neq code TEEC_SUCCESS) Hcode). reflexivity.
      - right. split; [done|]. by eexists. }
  rewrite Hanswer in Hstep. injection Hstep as -> ->. destruct Hg as (Hc & _ & q & Hq & Hv & Hw).
  destruct (code_collected (client_mem s) op w' q Hop) as (Hop' & p0 & p1 & p2 & p3 & Hpar & Ha).
  { rewrite Hw. by apply Forall_insert. }
  { rewrite Hw. apply list_lookup_insert_eq. by eapply lookup_lt_Some. }
  rewrite <- Hcol in Hop', Hpar. cbn [snd] in Hop', Hpar.
  erewrite pbind_Ret by by apply invoke_command_at. rewrite Hc.
  change (teec_check_with_origin TEE_SUCCESS (ir_origin ans)) with (@Ok unit Error tt).
  unfold ptry. erewrite pbind_Ret by done. cbv beta iota. rewrite Hpar. cbv beta iota.
  rewrite Ha, Hv.
  destruct (decide (HOTP kk (counter_bytes n) = v)) as [Heq|Hne].
  - rewrite (proj2 (Z.eqb_eq _ _) Heq). cbn [negb].
    destruct (IH s1 (ir_operation ans) (n + 1) Hlive' Hop') as (r & s2 & n' & E2 & Hr & Hlive2 & Hlib2);
      [lia..|].
    exists r, s2, n'. rewrite E2. split; [done|]. split; [|split; [done|by apply (same_lib_trans _ s1)]].
    destruct Hr as [->|Hr]; [left|by right]. unfold verdict. rewrite Heq. do 2 case_decide; congruence.
  - rewrite (proj2 (Z.eqb_neq _ _) Hne). cbn [negb]. eexists _, s1, (n + 1).
    split; [reflexivity|]. split; [|done]. left. unfold verdict. by rewrite decide_False by congruence.
Qed.


End Calls.

(** ** The client runs *)

Module HostExamples.
Import RamObjects HotpExamples SharedTransport PlainUuids.
#[local] Open Scope Z_scope.
#[local] Existing Instances ex_target ex_target_ok ex_memmove ex_memmove_ok ex_profile ex_alloc
  ex_alloc_ok ex_vecs ex_vecs_ok card_crypto card_objects card_macs card_macs_ok
  card_macs_reliable.
#[local] Existing Instances shared_transport shared_transport_ok.

(** The references of the client stay, the rest comes from the TA's words. *)
#[local] Instance shared_words : TransportWords.
Proof.
  intros m op w Hop Hw. unfold words_ok in *. cbn [collect shared_transport snd].
  apply Forall_lookup. intros i [t' r'] Hi.
  assert (exists t r, op_slots op !! i = Some (t, r)) as (t & r & Hs).
  { apply lookup_lt_Some in Hi. destruct (lookup_lt_is_Some_2 (op_slots op) i) as [[t r] E]; [|eauto].
    revert Hi. unfold op_slots.
    by repeat match goal with |- context [let '(_, _) := ?x in _] => destruct x end. }
  pose proof (Forall_lookup_1 _ _ _ _ Hop Hs) as Hr. cbn [snd] in *.
  assert (r' = answer_slot t r (raws w !! i)) as ->.
  { revert Hi Hs. unfold op_slots, answer_op.
    destruct (ParamTypes.into_flags (ParamTypes.from_u32 (op_paramTypes op)))
      as [[[f0 f1] f2] f3] eqn:Ef.
    destruct (op_params op) as [[[r0 r1] r2] r3]. cbn [with_answer op_paramTypes op_params].
    rewrite Ef. by destruct i as [|[|[|[|i]]]]; intros [= <- <-] [= <- <-]. }
  destruct (raws w !! i) as [q|] eqn:Hq; [|done]. cbn.
  pose proof (Forall_lookup_1 _ _ _ _ Hw Hq) as [H0 H1].
  destruct (is_temp t); cbn [tp_words]; [|done]. by split; [apply Hr|].
Qed.

Definition hotp_uuid : TEEC_UUID :=
  mkTeecUuid 0x1585d412 0xbdab 0x11eb [0xba; 0x91; 0x3b; 0x08; 0x5f; 0xd2; 0x60; 0x1f].

Abbreviation board := (Local.state (G:=side card) (Ctx:=HmacOtp)).

#[local] Instance board_api : TeecApi board :=
  Local.local_api hotp_uuid open_entry invoke_entry close_entry.
#[local] Instance board_api_ok : TeecApiOk board :=
  Local.local_api_ok hotp_uuid open_entry invoke_entry close_entry.
#[local] Existing Instance Local.local_platform.
#[local] Instance board_ok : PlatformOk hotp_uuid open_entry invoke_entry close_entry :=
  Local.local_platform_ok hotp_uuid open_entry invoke_entry close_entry.

Definition empty_board : board :=
  Local.mkState (buffer_at 0x1000 key_bytes) (mkSide (mkCard ∅ (mkRam ∅ ∅)) ∅ ∅) ∅ ∅ ∅.

Lemma first_codes : codes key_bytes 0 10 = RFC4226_TEST_VALUES.
Proof. vm_compute. reflexivity. Qed.

Lemma accepted r : told (Tst:=card) (codes key_bytes 0 10) RFC4226_TEST_VALUES r -> r = Ok tt.
Proof.
  intros [->|[Hrel _]]; [|destruct (Hrel card_macs_reliable)].
  unfold verdict. by rewrite decide_True by exact first_codes.
Qed.


End HostExamples.
