(* ===== verification/SignHost.v ===== *)
(** * SignHost: the client of the signature TA

    Models [examples/ca/signature_verification-rs/src/main.rs]: it has a message signed
    and then verified under the public key that came with the signature.  The printed
    lines are left out. *)

From S2P Require Import Prelude Uuids SignTa TeeParams TeecDefines TeecError TeecParams TeecSession.
From S2P Require Import ClientApp.

Definition PUBLIC_KEY_SIZE : Z := 259.
Definition SIGNATURE_SIZE : Z := 256.

(** [proto::signature_verification::UUID]. *)
Definition UUID : string := "c7e478c2-89b3-46eb-ac19-571e66c3830d".

(** [b"hello,world"]. *)
Definition hello_world : bytes := [104; 101; 108; 108; 111; 44; 119; 111; 114; 108; 100].

Section Host.
Context `{!Target} {St : Type} `{!TeecApi St}.

Abbreviation app A := (prog (client St) A).

Definition sign (session : Session) (message public_key signature : byte_slice) : app (Result unit) :=
  let p0 := ParamTmpRefOps.new_input message in
  let p1 := ParamTmpRefOps.new_output public_key in
  let p2 := ParamTmpRefOps.new_output signature in
  let operation := OperationOps.new 0 p0 p1 p2 mkParamNone in
  let* (r, _) := invoke_command session (SignTa.Command.into SignTa.Command.Sign)
                   (op_raw operation) in
  let? _ := pret r in
  pret (Ok tt).

Definition verify (session : Session) (message public_key signature : byte_slice)
    : app (Result unit) :=
  let p0 := ParamTmpRefOps.new_input message in
  let p1 := ParamTmpRefOps.new_input public_key in
  let p2 := ParamTmpRefOps.new_input signature in
  let operation := OperationOps.new 0 p0 p1 p2 mkParamNone in
  let* (r, _) := invoke_command session (SignTa.Command.into SignTa.Command.Verify)
                   (op_raw operation) in
  let? _ := pret r in
  pret (Ok tt).

(** Where the message and the two arrays are. *)
Definition main `{!UuidCrate} (message_at public_key_at signature_at : Z) : app (Result unit) :=
  let? ctx := context_new in
  with_context ctx (
    let? uuid := pret (Teec.parse_str UUID) in
    let? session := open_session ctx (raw_uuid uuid) in
    with_session session (
      let message := mkSlice message_at (len hello_world) in
      let public_key := mkSlice public_key_at PUBLIC_KEY_SIZE in
      let signature := mkSlice signature_at SIGNATURE_SIZE in
      let? _ := sign session message public_key signature in
      let? _ := verify session message public_key signature in
      pret (Ok tt))).

End Host.
