(* ===== verification/SignHostSpec.v ===== *)
(** * SignHostSpec: the client's signature is valid

    The client of the signature TA, over the interfaces of [ClientApp]. *)

From S2P Require Import Prelude TeeDefines UteeError Memory Params EntryPoints Storage Crypto.
From S2P Require Import Transient ParamsSpec TransientSpec Uuids TaApp SessionTa TaState HotpSpec.
From S2P Require Import DigestTaSpec SignTa.
From S2P Require Import SignTaSpec TeeParams TeecDefines TeecError TeecParams TeecParamsSpec.
From S2P Require Import TeecSession ClientApp SignHost.

Section Host.
Context `{!Target, !TargetOk, !Profile, !TeeMemMove, !TeeMemMoveOk, !Allocator, !AllocatorOk}.
Context `{!VecAlloc, !VecAllocOk, !UuidCrate, !UuidCrateOk}.
Context {Tst : Type} `{!TeeCrypto Tst, !TeeObjects Tst, !TeeObjectInfo Tst, !SignTee Tst, !SignTeeOk Tst}.
Context {St : Type} `{!TeecApi St, !TeecApiOk St, !Platform St (side Tst) unit}.
Context `{!Transport, !TransportOk, !TransportFrame}.

Definition open_entry : prog (ta_state (G:=side Tst) (Ctx:=unit)) (Z * option Z) :=
  open_unboxed from_raw_tuple SignTa.open_session (TEE_PARAM_TYPES 0 0 0 0).
Definition invoke_entry : Z -> Z -> Z -> prog (ta_state (G:=side Tst) (Ctx:=unit)) Z :=
  invoke_unboxed from_raw_tuple SignTa.invoke_command.
Definition close_entry : Z -> prog (ta_state (G:=side Tst) (Ctx:=unit)) unit :=
  close_unboxed SignTa.close_session.

Context (u : TEEC_UUID) `{PO : !PlatformOk u open_entry invoke_entry close_entry}.

Abbreviation sign_live s0 := (live (unboxed_stands (fun g (_ : unit) => restored s0 g))).

Lemma sign_invoked s0 bs h s r cmd op ans s' :
  sign_live s0 bs h s tt -> carries r (cmd, op_paramTypes op, deliver (client_mem s) op) ->
  (exists rp, step r tt rp tt) -> TEEC_InvokeCommand h cmd op s = (ans, s') ->
  exists rp w', step r tt rp tt /\ gives rp (deliver (client_mem s) op) w' (ir_code ans) /\
    (client_mem s', ir_operation ans) = collect (client_mem s) op w' /\
    sign_live s0 bs h s' tt /\ same_lib s s'.
Proof.
  intros Hl Hc (rp0 & Hs) Hi.
  destruct (session_invoked step carries gives
    (unboxed_stands (fun g (_ : unit) => restored s0 g)) open_entry invoke_entry close_entry u
    bs h s tt r cmd op ans s') as (rp & [] & w' & Hrest); [|done..|by exists rp0, tt|done|by exists rp, w'].
  apply unboxed_steps. apply sign_ta_steps.
Qed.

(** ** The client's buffers *)

Section Buffers.
Context (pm pp ps : Z).

(** Three ranges of the client's stack that do not meet. *)
Record arrays (m : mem) : Prop := {
  arr_nonnull : 0 < pm /\ 0 < pp /\ 0 < ps;
  arr_end : pm + len hello_world < 2 ^ ptr_bits /\ pp + PUBLIC_KEY_SIZE < 2 ^ ptr_bits /\
    ps + SIGNATURE_SIZE < 2 ^ ptr_bits;
  arr_apart : apart pm (len hello_world) pp PUBLIC_KEY_SIZE /\
    apart pm (len hello_world) ps SIGNATURE_SIZE /\ apart pp PUBLIC_KEY_SIZE ps SIGNATURE_SIZE;
  arr_message : holds_at m pm hello_world;
  arr_mapped : range_mapped m pp PUBLIC_KEY_SIZE /\ range_mapped m ps SIGNATURE_SIZE;
}.

Definition message : byte_slice := mkSlice pm (len hello_world).
Definition public_key_array : byte_slice := mkSlice pp PUBLIC_KEY_SIZE.
Definition signature_array : byte_slice := mkSlice ps SIGNATURE_SIZE.

Definition sign_operation : TEEC_Operation :=
  op_raw (OperationOps.new 0 (ParamTmpRefOps.new_input message)
            (ParamTmpRefOps.new_output public_key_array)
            (ParamTmpRefOps.new_output signature_array) mkParamNone).

Definition verify_operation : TEEC_Operation :=
  op_raw (OperationOps.new 0 (ParamTmpRefOps.new_input message)
            (ParamTmpRefOps.new_input public_key_array)
            (ParamTmpRefOps.new_input signature_array) mkParamNone).

Lemma sign_slots :
  op_slots sign_operation !! 0%nat
    = Some (ParamType.MemrefTempInput, from_tmpref (mkTmpRef pm (len hello_world))) /\
  op_slots sign_operation !! 1%nat
    = Some (ParamType.MemrefTempOutput, from_tmpref (mkTmpRef pp PUBLIC_KEY_SIZE)) /\
  op_slots sign_operation !! 2%nat
    = Some (ParamType.MemrefTempOutput, from_tmpref (mkTmpRef ps SIGNATURE_SIZE)).
Proof. unfold sign_operation. by rewrite op_slots_new. Qed.

Lemma verify_slots :
  op_slots verify_operation !! 0%nat
    = Some (ParamType.MemrefTempInput, from_tmpref (mkTmpRef pm (len hello_world))) /\
  op_slots verify_operation !! 1%nat
    = Some (ParamType.MemrefTempInput, from_tmpref (mkTmpRef pp PUBLIC_KEY_SIZE)) /\
  op_slots verify_operation !! 2%nat
    = Some (ParamType.MemrefTempInput, from_tmpref (mkTmpRef ps SIGNATURE_SIZE)).
Proof. unfold verify_operation. by rewrite op_slots_new. Qed.

Lemma arrays_deliverable m :
  arrays m ->
  (forall t, is_temp t = true -> deliverable m t (from_tmpref (mkTmpRef pm (len hello_world)))) /\
  (forall t, is_temp t = true -> deliverable m t (from_tmpref (mkTmpRef pp PUBLIC_KEY_SIZE))) /\
  (forall t, is_temp t = true -> deliverable m t (from_tmpref (mkTmpRef ps SIGNATURE_SIZE))).
Proof.
  intros [(Hm & Hp & Hs) (Em & Ep & Es) _ Hmsg (Mp & Ms)].
  split_and!; intros t Ht; apply array_deliverable; done || by apply holds_at_mapped.
Qed.

Lemma sign_carried m :
  arrays m ->
  carries (ReqSign hello_world PUBLIC_KEY_SIZE SIGNATURE_SIZE)
    (SignTa.Command.into SignTa.Command.Sign, op_paramTypes (sign_operation),
     deliver m sign_operation).
Proof.
  intros Ha. destruct (arrays_deliverable m Ha) as (Dm & Dp & Ds).
  destruct sign_slots as (S0 & S1 & S2).
  pose proof Ha as [(Hm & Hp & Hs) (Em & Ep & Es) (A1 & A2 & A3) Hmsg _].
  split; [done|]. split; [done|]. split.
  { eapply (input_delivered m); [exact S0|apply (Dm ParamType.MemrefTempInput eq_refl)|done..]. }
  split; [exact (output_delivered m _ 1 _ S1 (Dp ParamType.MemrefTempOutput eq_refl))|].
  split; [exact (output_delivered m _ 2 _ S2 (Ds ParamType.MemrefTempOutput eq_refl))|]. split; [done|]. split; [done|].
  intros q1 q2 H1' H2'.
  exact (deliver_apart m _ 1 2 _ _ _ _ q1 q2 ltac:(done) S1 S2 (Dp ParamType.MemrefTempOutput eq_refl) (Ds ParamType.MemrefTempOutput eq_refl)
    eq_refl eq_refl A3 H1' H2').
Qed.

(** The answer of a signature in the client's arrays; the message is still there. *)
Lemma sign_collected m w pk sg code :
  arrays m -> gives (Signed pk sg) (deliver m sign_operation) w code ->
  len pk = PUBLIC_KEY_SIZE -> len sg = SIGNATURE_SIZE ->
  holds_at (collect m sign_operation w).1 pm hello_world /\
  holds_at (collect m sign_operation w).1 pp pk /\ holds_at (collect m sign_operation w).1 ps sg.
Proof.
  intros Ha (_ & q1 & q2 & Q1 & Q2 & R1 & Hh1 & R2 & Hh2 & Hout & _) Lp Ls.
  destruct (arrays_deliverable m Ha) as (Dm & Dp & Ds). destruct sign_slots as (S0 & S1 & S2).
  pose proof Ha as [_ _ (A1 & A2 & A3) Hmsg _].
  destruct (slot_arrives m _ 0 _ S0) as [q0 Q0].
  assert (forall j tj rj, op_slots sign_operation !! j = Some (tj, rj) -> is_temp tj = true ->
    is_output tj = true -> j = 1%nat /\ rj = from_tmpref (mkTmpRef pp PUBLIC_KEY_SIZE) \/
    j = 2%nat /\ rj = from_tmpref (mkTmpRef ps SIGNATURE_SIZE)) as Houts.
  { unfold sign_operation. rewrite op_slots_new. intros j tj rj Hj Ht Ho.
    destruct j as [|[|[|[|j]]]]; cbn in Hj; [..|done]; injection Hj as <- <-; auto; done. }
  assert (apart (memref_buffer q0) (len hello_world) (memref_buffer q1) PUBLIC_KEY_SIZE) as T1
    by exact (deliver_apart m _ 0 1 _ _ _ _ q0 q1 ltac:(done) S0 S1 (Dm ParamType.MemrefTempInput eq_refl) (Dp ParamType.MemrefTempOutput eq_refl)
      eq_refl eq_refl A1 Q0 Q1).
  assert (apart (memref_buffer q0) (len hello_world) (memref_buffer q2) SIGNATURE_SIZE) as T2
    by exact (deliver_apart m _ 0 2 _ _ _ _ q0 q2 ltac:(done) S0 S2 (Dm ParamType.MemrefTempInput eq_refl) (Ds ParamType.MemrefTempOutput eq_refl)
      eq_refl eq_refl A2 Q0 Q2).
  split; [|split].
  - refine (collect_kept m _ w 0 _ q0 hello_world S0 (Dm ParamType.MemrefTempInput eq_refl) Q0 _ Hmsg _ _);
      [done| |].
    + destruct (deliver_slot m _ 0 _ _ q0 S0 (Dm ParamType.MemrefTempInput eq_refl) Q0) as (_ & _ & Ht).
      destruct (Ht eq_refl) as (_ & _ & _ & Hin). specialize (Hin eq_refl hello_world eq_refl Hmsg).
      intros x Hx. rewrite Hout; [by apply Hin|..]; rewrite ?Lp, ?Ls; unfold apart in *; lia.
    + intros j tj rj Hj Ht Ho. destruct (Houts j tj rj Hj Ht Ho) as [[-> ->]|[-> ->]]; done.
  - refine (output_collected m _ w 1 _ q1 pk S1 (Dp ParamType.MemrefTempOutput eq_refl) Q1 R1 Hh1 _ _);
      [by rewrite Lp|].
    intros j tj rj Hne Hj Ht Ho. destruct (Houts j tj rj Hj Ht Ho) as [[-> ->]|[-> ->]]; done.
  - refine (output_collected m _ w 2 _ q2 sg S2 (Ds ParamType.MemrefTempOutput eq_refl) Q2 R2 Hh2 _ _);
      [by rewrite Ls|].
    intros j tj rj Hne Hj Ht Ho. destruct (Houts j tj rj Hj Ht Ho) as [[-> ->]|[-> ->]]; [|done].
    unfold apart in *. cbn. lia.
Qed.

(** The message, the key and the signature as they are sent to be verified. *)
Lemma verify_carried m pk sg :
  arrays m -> holds_at m pp pk -> holds_at m ps sg -> len pk = PUBLIC_KEY_SIZE ->
  len sg = SIGNATURE_SIZE ->
  carries (ReqVerify hello_world pk sg)
    (SignTa.Command.into SignTa.Command.Verify, op_paramTypes verify_operation,
     deliver m verify_operation).
Proof.
  intros Ha Hpk Hsg Lp Ls. destruct (arrays_deliverable m Ha) as (Dm & Dp & Ds).
  destruct verify_slots as (S0 & S1 & S2).
  pose proof Ha as [(Hm & Hp & Hs) (Em & Ep & Es) _ Hmsg _].
  split; [done|]. split; [done|]. split_and!.
  - eapply (input_delivered m); [exact S0|apply (Dm ParamType.MemrefTempInput eq_refl)|done..].
  - eapply (input_delivered m); [exact S1|apply (Dp ParamType.MemrefTempInput eq_refl)|done..| |];
      rewrite Lp; done.
  - eapply (input_delivered m); [exact S2|apply (Ds ParamType.MemrefTempInput eq_refl)|done..| |];
      rewrite Ls; done.
Qed.

(** Verifying changes none of the three. *)
Lemma verify_collected m i a l :
  (forall t, is_temp t = true -> deliverable m t (from_tmpref (mkTmpRef a (len l)))) ->
  op_slots verify_operation !! i
    = Some (ParamType.MemrefTempInput, from_tmpref (mkTmpRef a (len l))) ->
  holds_at m a l ->
  holds_at (collect m verify_operation (deliver m verify_operation)).1 a l.
Proof.
  intros Hd Hi Hl. destruct (slot_arrives m _ i _ Hi) as [q Hq].
  specialize (Hd ParamType.MemrefTempInput eq_refl).
  refine (collect_kept m _ _ i _ q l Hi Hd Hq _ Hl _ _); [done| |].
  - destruct (deliver_slot m _ i _ _ q Hi Hd Hq) as (_ & _ & Ht).
    destruct (Ht eq_refl) as (_ & _ & _ & Hin). by apply Hin.
  - unfold verify_operation. rewrite op_slots_new. intros j tj rj Hj _ Ho.
    destruct j as [|[|[|[|j]]]]; cbn in Hj; [..|done]; injection Hj as <- <-; done.
Qed.

(** The message, and in the arrays a public key and a signature under it. *)
Definition signed (m : mem) : Prop :=
  exists pk sg, len pk = PUBLIC_KEY_SIZE /\ len sg = SIGNATURE_SIZE /\
    holds_at m pm hello_world /\ holds_at m pp pk /\ holds_at m ps sg /\
    verifies hello_world pk sg = true.

(** ** The calls *)

Lemma sign_host s0 bs h l s hp :
  sign_live s0 bs h s tt -> arrays (client_mem s) ->
  exists pk sg s', SignHost.sign (mkSession h l) message public_key_array signature_array
      (mkClient s hp) = Ret (Ok tt, mkClient s' hp) /\
    sign_live s0 bs h s' tt /\ same_lib s s' /\ arrays (client_mem s') /\
    holds_at (client_mem s') pp pk /\ holds_at (client_mem s') ps sg /\
    len pk = PUBLIC_KEY_SIZE /\ len sg = SIGNATURE_SIZE /\
    public_key (take 256 pk) (drop 256 pk) /\ verifies hello_world pk sg = true.
Proof.
  intros Hlive Ha.
  destruct (TEEC_InvokeCommand h (SignTa.Command.into SignTa.Command.Sign) sign_operation s)
    as [ans s1] eqn:E.
  destruct (sign_invoked s0 bs h s _ _ _ ans s1 Hlive (sign_carried _ Ha)) as
    (rp & w & Hstep & Hg & Hcol & Hlive1 & Hlib); [|exact E|].
  { apply (sign_enabled (sd_tee (ta_side s))). }
  destruct rp as [pk sg| | | |]; try done; [|destruct Hstep as [Hs|Hs]; done].
  destruct Hstep as (_ & _ & Lp & Ls & Hpk & Hver).
  destruct (sign_collected (client_mem s) w pk sg _ Ha Hg Lp Ls) as (Hm & Hp & Hsg).
  rewrite <- Hcol in Hm, Hp, Hsg. cbn [fst] in *.
  exists pk, sg, s1. split; [|split; [done|split; [done|split; [|done]]]].
  - unfold SignHost.sign. erewrite pbind_Ret by by apply invoke_command_at.
    destruct Hg as [Hc _]. by rewrite Hc.
  - destruct Ha as [H1' H2' H3' _ _]. split; [done..|].
    change PUBLIC_KEY_SIZE with 259. change SIGNATURE_SIZE with 256.
    rewrite <- Lp, <- Ls. split; by apply holds_at_mapped.
Qed.

Lemma verify_host s0 bs h l s hp pk sg :
  sign_live s0 bs h s tt -> arrays (client_mem s) ->
  holds_at (client_mem s) pp pk -> holds_at (client_mem s) ps sg ->
  len pk = PUBLIC_KEY_SIZE -> len sg = SIGNATURE_SIZE ->
  public_key (take 256 pk) (drop 256 pk) -> verifies hello_world pk sg = true ->
  exists s', SignHost.verify (mkSession h l) message public_key_array signature_array
      (mkClient s hp) = Ret (Ok tt, mkClient s' hp) /\
    sign_live s0 bs h s' tt /\ same_lib s s' /\
    holds_at (client_mem s') pm hello_world /\
    holds_at (client_mem s') pp pk /\ holds_at (client_mem s') ps sg.
Proof.
  intros Hlive Ha Hp Hs Lp Ls Hpk Hver.
  destruct (TEEC_InvokeCommand h (SignTa.Command.into SignTa.Command.Verify) verify_operation s)
    as [ans s1] eqn:E.
  assert (step (ReqVerify hello_world pk sg) tt Valid tt) as Hval.
  { cbn [step]. rewrite Lp. split; [done|by rewrite Hver]. }
  destruct (sign_invoked s0 bs h s _ _ _ ans s1 Hlive (verify_carried _ pk sg Ha Hp Hs Lp Ls)) as
    (rp & w & Hstep & Hg & Hcol & Hlive1 & Hlib); [by exists Valid|exact E|].
  cbn [step] in Hstep. rewrite Lp, Hver in Hstep. destruct Hstep as [_ ->].
  destruct Hg as [Hc ->]. destruct (arrays_deliverable _ Ha) as (Dm & Dp & Ds).
  destruct verify_slots as (S0 & S1 & S2).
  exists s1. split; [|split; [done|split; [done|]]].
  - unfold SignHost.verify. erewrite pbind_Ret by by apply invoke_command_at. by rewrite Hc.
  - replace (client_mem s1)
      with (collect (client_mem s) verify_operation (deliver (client_mem s) verify_operation)).1
      by by rewrite <- Hcol.
    rewrite <- Lp in Dp, S1. rewrite <- Ls in Ds, S2.
    split; [|split]; eapply verify_collected; done || apply Ha.
Qed.


End Buffers.

End Host.

(** ** A TEE that signs, and the client on it *)

Module SignExamples.
Import RamObjects HotpExamples SharedTransport PlainUuids.
#[local] Open Scope Z_scope.
#[local] Existing Instances ex_target ex_target_ok ex_memmove ex_memmove_ok ex_profile ex_alloc
  ex_alloc_ok ex_vecs ex_vecs_ok ram_objects.
#[local] Existing Instances shared_transport shared_transport_ok SharedFrame.shared_frame.

(** The TEE: its operations, and the objects of [RamObjects]. *)
Record signer : Type := mkSigner { sg_ops : gmap Z sign_op; sg_ram : ram }.

Definition on_ops {A} (m : gmap Z sign_op -> outcome (A * gmap Z sign_op)) : prog signer A :=
  fun s => let! r := m (sg_ops s) in Ret (r.1, mkSigner r.2 (sg_ram s)).
Definition on_ram {A} (m : prog ram A) : prog signer A :=
  fun s => let! r := m (sg_ram s) in Ret (r.1, mkSigner (sg_ops s) r.2).

(** A scheme with the shapes of RSA: the signature is the digest behind a part of the
    modulus. *)
Definition modulus : bytes := replicate 256 7.
Definition pair : gmap Z attr_content := public_contents modulus [1; 0; 1].
Definition modulus_of (cs : gmap Z attr_content) : bytes :=
  match cs !! modulus_id with Some (ByRef n) => n | _ => [] end.
Definition seal (n d : bytes) : bytes := take 224 n ++ d.

Definition no_out (l d : bytes) (n : Z) : prog signer out_answer := fun _ => Panic.

#[local] Instance signer_crypto : TeeCrypto signer := {|
  TEE_AllocateOperation al mode _ := on_ops (fun m =>
    let h := next (dom m) in
    Ret ((TEE_SUCCESS, h),
         <[h := if al =? AlgorithmId.as_u32 AlgorithmId.Sha256 then Hashing []
                else Fresh (if mode =? OperationMode.as_u32 OperationMode.Sign
                            then OperationMode.Sign else OperationMode.Verify)]> m));
  TEE_FreeOperation h := on_ops (fun m => Ret (tt, delete h m));
  TEE_GetOperationInfo _ _ := Panic;
  TEE_GetOperationInfoMultiple _ _ _ _ := Panic;
  TEE_ResetOperation _ _ := Panic;
  TEE_SetOperationKey h o s :=
    match sg_ops s !! h, r_objects (sg_ram s) !! o with
    | Some (Fresh mode), Some (Some cs) =>
        Ret (TEE_SUCCESS, mkSigner (<[h := Keyed mode cs]> (sg_ops s)) (sg_ram s))
    | _, _ => Panic
    end;
  TEE_SetOperationKey2 _ _ _ _ := Panic;
  TEE_CopyOperation _ _ _ := Panic;
  TEE_IsAlgorithmSupported _ _ _ := Panic;
  TEE_DigestUpdate _ _ _ := Panic;
  TEE_DigestDoFinal h l d _ := on_ops (fun m =>
    match m !! h with
    | Some (Hashing x) =>
        Ret (mkOut TEE_SUCCESS 32 (splice d 0 (Sha256.sha256 (x ++ l))), <[h := Hashing []]> m)
    | _ => Panic
    end);
  TEE_CipherInit _ _ _ := Panic;
  TEE_CipherUpdate _ := no_out;
  TEE_CipherDoFinal _ := no_out;
  TEE_MACInit _ _ _ := Panic;
  TEE_MACUpdate _ _ _ := Panic;
  TEE_MACComputeFinal _ := no_out;
  TEE_MACCompareFinal _ _ _ _ := Panic;
  TEE_AEInit _ _ _ _ _ _ := Panic;
  TEE_AEUpdateAAD _ _ _ := Panic;
  TEE_AEUpdate _ := no_out;
  TEE_AEEncryptFinal _ _ _ _ _ _ _ := Panic;
  TEE_AEDecryptFinal _ _ _ _ _ _ := Panic;
  TEE_AsymmetricEncrypt _ _ := no_out;
  TEE_AsymmetricDecrypt _ _ := no_out;
  TEE_AsymmetricSignDigest h _ d dest n s :=
    match sg_ops s !! h with
    | Some (Keyed OperationMode.Sign cs) =>
        Ret (if 256 <=? n
             then mkOut TEE_SUCCESS 256 (splice dest 0 (seal (modulus_of cs) d))
             else mkOut TEE_ERROR_SHORT_BUFFER 256 dest, s)
    | _ => Panic
    end;
  TEE_AsymmetricVerifyDigest h _ d sg s :=
    match sg_ops s !! h with
    | Some (Keyed OperationMode.Verify cs) =>
        Ret (if bool_decide (sg = seal (modulus_of cs) d) then TEE_SUCCESS
             else TEE_ERROR_SIGNATURE_INVALID, s)
    | _ => Panic
    end;
  TEE_DeriveKey _ _ _ _ := Panic;
  operations s := dom (sg_ops s);
|}.

#[local] Instance signer_objects : TeeObjects signer := {|
  TEE_AllocateTransientObject t n := on_ram (TEE_AllocateTransientObject t n);
  TEE_ResetTransientObject h := on_ram (TEE_ResetTransientObject h);
  TEE_PopulateTransientObject m h l n := on_ram (TEE_PopulateTransientObject m h l n);
  TEE_CopyObjectAttributes1 h h' := on_ram (TEE_CopyObjectAttributes1 h h');
  TEE_GenerateKey m h n l k := on_ram (fun s =>
    Ret (TEE_SUCCESS, mkRam (<[h := Some pair]> (r_objects s)) (r_enums s)));
  TEE_FreeObject h := on_ram (TEE_FreeObject h);
  TEE_InitRefAttribute := TEE_InitRefAttribute (St := ram);
  TEE_InitValueAttribute := TEE_InitValueAttribute (St := ram);
  TEE_GetObjectBufferAttribute h i d := on_ram (TEE_GetObjectBufferAttribute h i d);
  TEE_GetObjectValueAttribute h i := on_ram (TEE_GetObjectValueAttribute h i);
  TEE_AllocatePersistentObjectEnumerator := on_ram TEE_AllocatePersistentObjectEnumerator;
  TEE_FreePersistentObjectEnumerator h := on_ram (TEE_FreePersistentObjectEnumerator h);
  TEE_ResetPersistentObjectEnumerator h := on_ram (TEE_ResetPersistentObjectEnumerator h);
  TEE_StartPersistentObjectEnumerator h i := on_ram (TEE_StartPersistentObjectEnumerator h i);
  TEE_GetNextPersistentObject h d := on_ram (TEE_GetNextPersistentObject h d);
  transients s := transients (sg_ram s);
  extractable s := extractable (sg_ram s);
  enumerators s := enumerators (sg_ram s);
|}.

#[local] Instance signer_info : TeeObjectInfo signer :=
  fun _ s => Ret ((TEE_SUCCESS, mkObjectInfo 0 2048 2048 0 0 0 0), s).

#[local] Instance signer_tee : SignTee signer := {|
  SHA256 := Sha256.sha256;
  RSA_SIGN cs d := seal (modulus_of cs) d;
  RSA_VERIFY n e d sg := bool_decide (sg = seal n d);
  key_pair cs := cs = pair;
  public_key n e := len n = 256 /\ len e = 3;
  sign_ops := sg_ops;
|}.

Lemma seal_shape n d : len n = 256 -> length d = 32%nat -> len (seal n d) = 256.
Proof. intros Hn Hd. unfold seal, len in *. rewrite length_app, length_take. lia. Qed.

(** The parts of the pair have no zeros in front. *)
Lemma pair_as_given id l :
  id = modulus_id \/ id = exponent_id -> pair !! id = Some (ByRef l) ->
  (if is_bignum id then strip l else l) = l.
Proof. intros [-> | ->] Hl; vm_compute in Hl; by injection Hl as <-. Qed.

#[local] Instance signer_ok : SignTeeOk signer.
Proof.
  split; cbn.
  - apply Sha256.sha256_size.
  - intros cs ->. exists modulus, [1; 0; 1]. split_and!; [done..|]. intros d Hd.
    split; [by apply seal_shape|]. by rewrite bool_decide_eq_true.
  - intros s. destruct (next_fresh (dom (sg_ops s))) as [_ Hf]. eexists _, _.
    split; [reflexivity|]. by split; [apply not_elem_of_dom|].
  - intros h m l dest n s E _. unfold on_ops. rewrite E. by eexists.
  - intros mode s Hm. destruct (next_fresh (dom (sg_ops s))) as [_ Hf]. eexists _, _.
    split; [reflexivity|]. split; [by apply not_elem_of_dom|]. by destruct Hm as [-> | ->].
  - intros h o mode cs s E Ho _. rewrite E, Ho. by eexists.
  - intros h cs d dest n s E _ _ [Hl _]. rewrite E, (proj2 (Z.leb_le _ _)) by done. by eexists.
  - intros h cs d dest n s E _ _ [_ Hl] _. rewrite E, (proj2 (Z.leb_gt _ _)) by done. by eexists _, _.
  - intros h n e d sg s E _ _. rewrite E. by eexists.
  - intros h s _. by eexists.
  - intros ty s _. destruct (next_fresh (dom (r_objects (sg_ram s)))) as [Hn Hf].
    eexists _, _. split; [reflexivity|]. split; [done|]. by split; [apply not_elem_of_dom|].
  - intros m o s _. by eexists _, _.
  - intros o id cs l buf s Ho -> Hid Hc Hl. unfold on_ram, attribute_of. cbn. rewrite Ho, Hc.
    cbv zeta. rewrite (pair_as_given id l Hid Hc), (proj2 (Z.leb_le _ _)) by done. by destruct s.
  - intros o id cs l buf s Ho -> Hid Hc Hl. unfold on_ram, attribute_of. cbn. rewrite Ho, Hc.
    cbv zeta. rewrite (pair_as_given id l Hid Hc), (proj2 (Z.leb_gt _ _)) by done. destruct s. by eexists.
  - intros mode o cs s _ _. by eexists.
  - by intros id p n [-> | ->].
  - intros m o attrs n e s _ Hc _. unfold on_ram. cbn. rewrite Hc. by eexists.
  - intros o s _. by eexists.
Qed.

Definition sign_uuid : TEEC_UUID :=
  mkTeecUuid 0xc7e478c2 0x89b3 0x46eb [0xac; 0x19; 0x57; 0x1e; 0x66; 0xc3; 0x83; 0x0d].

Abbreviation board := (Local.state (G:=side signer) (Ctx:=unit)).

#[local] Instance board_api : TeecApi board :=
  Local.local_api sign_uuid open_entry invoke_entry close_entry.
#[local] Instance board_api_ok : TeecApiOk board :=
  Local.local_api_ok sign_uuid open_entry invoke_entry close_entry.
#[local] Existing Instance Local.local_platform.
#[local] Instance board_ok : PlatformOk sign_uuid open_entry invoke_entry close_entry :=
  Local.local_platform_ok sign_uuid open_entry invoke_entry close_entry.

(** The message, the two arrays behind it, and nothing else. *)
Definition stack : bytes := hello_world ++ zeros 515.
Definition empty_board : board :=
  Local.mkState (buffer_at 0x1000 stack) (mkSide (mkSigner ∅ (mkRam ∅ ∅)) ∅ ∅) ∅ ∅ ∅.

Lemma stack_arrays : arrays 0x1000 0x100b 0x110e (buffer_at 0x1000 stack).
Proof.
  assert (len stack = 526) as Hl by reflexivity. split.
  - done.
  - done.
  - unfold apart. change (len hello_world) with 11. unfold PUBLIC_KEY_SIZE, SIGNATURE_SIZE. lia.
  - intros i Hi. change (len hello_world) with 11 in Hi.
    rewrite buffer_at_lookup by lia. unfold stack. by rewrite lookup_app_l by (cbn; lia).
  - pose proof (buffer_at_mapped 0x1000 stack) as Hm. rewrite Hl in Hm.
    unfold PUBLIC_KEY_SIZE, SIGNATURE_SIZE. split; (eapply range_mapped_sub; [exact Hm|lia..]).
Qed.


End SignExamples.
