(* ===== verification/SuppTa.v ===== *)
(** * SuppTa: a TA that calls a plugin, and its client

    Models [examples/ta/supp_plugin-rs/src/main.rs], [examples/ta/proto/src/supp_plugin.rs]
    and [examples/ca/supp_plugin-rs/src/main.rs]; the plugin is [Supplicant.PrintPlugin].
    The printed lines are left out. *)

From S2P Require Import Prelude TeeDefines UteeError Memory Params EntryPoints TaApp Uuids.
From S2P Require Import TeeParams Supplicant.
From S2P Require TeecDefines TeecError TeecParams TeecSession ClientApp.

(** ** [proto::supp_plugin] *)

Module Command.

Inductive Command : Type := Ping | Unknown.

Definition from (x : Z) : Command := if x =? 0 then Ping else Unknown.
Definition into (c : Command) : Z := match c with Ping => 0 | Unknown => 1 end.

End Command.

(** [PluginCommand] as a number; the type is with the plugin. *)
Definition plugin_command (c : PrintPlugin.PluginCommand) : Z :=
  match c with PrintPlugin.Print => 0 | PrintPlugin.Unknown => 1 end.

Definition TA_UUID : string := "255fc838-de89-42d3-9a8e-d044c50fa57c".
Definition PLUGIN_SUBCMD_NULL : Z := 0xFFFFFFFF.
Definition PLUGIN_UUID : string := "ef620757-fa2b-4f19-a1c4-6e51cfe4c0f9".

(** ** The TA *)

Section Ta.
Context `{!Target, !TeeMemMove, !VecPolicy, !UuidCrate} {G : Type} `{!SuppCall G}.

Abbreviation app A := (prog (G * world) A).
Definition Parameters4 : Type := ParameterAny * ParameterAny * ParameterAny * ParameterAny.
Definition ParametersNone : Type := ParameterNone * ParameterNone * ParameterNone * ParameterNone.

Definition invoke_command (cmd_id : Z) (params : Parameters4) : app (Result unit) :=
  let '(p0, _, _, _) := params in
  let? p0 := pret (ParameterAny.as_memref_input p0) in
  let* input := on_params (read_to_vec p0) in
  let? uuid := pret (Utee.parse_str PLUGIN_UUID) in
  match Command.from cmd_id with
  | Command.Ping =>
      let plugin := Supplicant.new uuid in
      let? outbuf := on_tee (Supplicant.invoke plugin (plugin_command PrintPlugin.Print)
                               PLUGIN_SUBCMD_NULL input) in
      pret (Ok tt)
  | Command.Unknown => pret (bail ErrorKind.BadParameters)
  end.

Definition create : app (Result unit) := pret (Ok tt).
Definition open_session (_params : ParametersNone) : app (Result unit) := pret (Ok tt).
Definition close_session : app unit := pret tt.
Definition destroy : app unit := pret tt.

End Ta.

(** ** The client *)

Module Host.
Import TeecDefines TeecError TeecParams TeecSession ClientApp.

(** The local array. *)
Definition test_data : bytes := replicate 10 0x36.

Section Host.
Context `{!Target} {St : Type} `{!TeecApi St, !UuidCrate}.

(** [test_data_at]: where the array is on the client's stack. *)
Definition ping_ta (test_data_at : Z) (session : Session) : prog (client St) (TeecError.Result unit) :=
  let p0 := ParamTmpRefOps.new_input (mkSlice test_data_at (len test_data)) in
  let operation := OperationOps.new 0 p0 mkParamNone mkParamNone mkParamNone in
  let* (r, _) := TeecSession.invoke_command session (Command.into Command.Ping)
                   (op_raw operation) in
  let? _ := pret r in
  pret (Ok tt).

Definition main (test_data_at : Z) : prog (client St) (TeecError.Result unit) :=
  let? ctx := context_new in
  with_context ctx (
    let? uuid := pret (match Teec.parse_str TA_UUID with
                       | Ok uuid => Ok uuid
                       | Err _ => Err (TeecError.Error.from_kind TeecError.ErrorKind.BadParameters)
                       end) in
    let? session := TeecSession.open_session ctx (raw_uuid uuid) in
    with_session session (
      let? _ := ping_ta test_data_at session in
      pret (Ok tt))).

End Host.
End Host.
