(* ===== verification/SuppTaSpec.v ===== *)
(** * SuppTaSpec: from a client through a TA to a plugin, and back

    The client of [SuppTa] over the interfaces of [ClientApp]; the TA behind its
    generated entry points; a plugin's generated function behind the supplicant
    ([Supplicant.delivered]). *)

From S2P Require Import Prelude TeeDefines UteeError Memory Params EntryPoints ParamsSpec TaApp Uuids.
From S2P Require Import TeeParams Supplicant.
From S2P Require TeecError Plugin.
From S2P Require Import TeecDefines TeecParams TeecParamsSpec TeecSession ClientApp SuppTa.

Section Spec.
Context `{!Target, !TargetOk, !Profile, !TeeMemMove, !TeeMemMoveOk, !VecPolicy, !VecPolicyOk}.
Context `{!UuidCrate} {G : Type} `{!SuppCall G}.

(** A plugin that answers in every call what [serve] says. *)
Context (f : Plugin.PluginParameters -> prog Plugin.pworld (TeecError.Result unit)).
Context (serve : Z -> Z -> bytes -> TeecError.Result bytes).
Context (answers_f : answers f serve).
Context (errors_f : forall c sub req e, serve c sub req = Err e -> TeecError.Error.raw_code e <> TEE_SUCCESS).
Context (sizes_f : forall c sub req l, serve c sub req = Ok l -> len l < 2 ^ (ptr_bits - 1)).

(** What the plugin is asked, in a buffer of [shared] bytes. *)
Definition asked (shared : Z) (l : bytes) : TeecError.Result bytes :=
  serve (plugin_command PrintPlugin.Print) PLUGIN_SUBCMD_NULL (l ++ zeros (shared - len l)).

(** The code of the TA's answer. *)
Definition ping_code (shared : Z) (l : bytes) : Z :=
  match asked shared l with
  | Ok response => if len response <=? shared then TEE_SUCCESS else TEE_ERROR_SHORT_BUFFER
  | Err e => TeecError.Error.raw_code e
  end.

Lemma ping_code_result shared l :
  code_of (match ta_result shared (asked shared l) with Ok _ => Ok tt | Err e => Err e end)
    = ping_code shared l.
Proof.
  unfold ping_code, ta_result. destruct (asked shared l) as [response|e]; [by case_if|].
  apply from_raw_error_code.
Qed.

Lemma ping_runs pu (g : G) w l p1 p2 p3 :
  Utee.parse_str PLUGIN_UUID = Ok pu -> Supplicant.delivered (Utee.as_raw pu) f g -> in_buffer w 0 l ->
  exists shared r g', len l <= shared /\
    SuppTa.invoke_command 0 (ParameterAny.MemrefInput (mkMemrefInput 0), p1, p2, p3) (g, w)
      = Ret (r, (g', w)) /\ code_of r = ping_code shared l.
Proof.
  intros Hp Hd Hin. pose proof ptr_bits_31.
  assert (len l < 2 ^ 31) as Hl by (by destruct Hin as (? & _ & _ & _ & ? & _)).
  destruct (invoke_spec f serve (Supplicant.new pu) (plugin_command PrintPlugin.Print)
    PLUGIN_SUBCMD_NULL l g) as (shared & g' & Hs & E); [done|done|lia|by eauto..|].
  exists shared. rewrite <- ping_code_result. unfold SuppTa.invoke_command.
  cbn [ParameterAny.as_memref_input]. erewrite ptry_Ok by done.
  erewrite pbind_Ret by (by apply read_input_spec). erewrite ptry_Ok by by rewrite Hp.
  change (Command.from 0) with Command.Ping. cbv iota zeta.
  fold (asked shared l) in E. destruct (ta_result shared (asked shared l)) as [out|e].
  - erewrite ptry_Ok by (apply on_tee_Ret; exact E). by exists (Ok tt), g'.
  - erewrite ptry_Err by (apply on_tee_Ret; exact E). by exists (Err e), g'.
Qed.

(** ** The client *)

Context {St : Type} `{!TeecApi St, !TeecApiOk St, !Platform St G unit}.
Context `{!Transport, !TransportOk}.

Definition open_entry : prog (ta_state (G:=G) (Ctx:=unit)) (Z * option Z) :=
  open_unboxed from_raw_tuple SuppTa.open_session (TEE_PARAM_TYPES 0 0 0 0).
Definition invoke_entry : Z -> Z -> Z -> prog (ta_state (G:=G) (Ctx:=unit)) Z :=
  invoke_unboxed from_raw_tuple SuppTa.invoke_command.
Definition close_entry : Z -> prog (ta_state (G:=G) (Ctx:=unit)) unit :=
  close_unboxed SuppTa.close_session.

Context (u : TEEC_UUID) `{PO : !PlatformOk u open_entry invoke_entry close_entry}.

(** The plugin is there until it has been called ([false]). *)
Definition step (l : bytes) (called : bool) (code : Z) (called' : bool) : Prop :=
  called = false /\ called' = true /\ exists shared, len l <= shared /\ code = ping_code shared l.

Definition carries (l : bytes) (call : Z * Z * world) : Prop :=
  let '(cmd, types, w) := call in
  cmd = Command.into Command.Ping /\
  types = TEE_PARAM_TYPES TEE_PARAM_TYPE_MEMREF_INPUT 0 0 0 /\ in_buffer w 0 l.

Definition gives (code : Z) (w w' : world) (code' : Z) : Prop := w' = w /\ code' = code.

Definition plugin_waits (id : TEE_UUID) (g : G) (called : bool) : Prop :=
  called = false -> Supplicant.delivered id f g.

Lemma ping_steps pu :
  Utee.parse_str PLUGIN_UUID = Ok pu ->
  entry_steps step carries gives (unboxed_stands (plugin_waits (Utee.as_raw pu))) invoke_entry.
Proof.
  intros Hp. apply unboxed_steps. intros g called l cmd types w Hw (-> & -> & Hin) (rp & c' & -> & _).
  destruct (ping_runs pu g w l ParameterAny.None_ ParameterAny.None_ ParameterAny.None_ Hp
    (Hw eq_refl) Hin) as (shared & r & g' & Hs & E & Hc).
  eexists _, r, g', w, (code_of r), true.
  split; [by apply any_tuple; [done..|by eapply any_input|]|]. split; [exact E|].
  split; [|split; [done|done]]. split; [done|]. split; [done|]. by exists shared.
Qed.

(** The array, where the client has it. *)
Record data_ready (a : Z) (m : mem) : Prop := {
  data_nonnull : 0 < a;
  data_end : a + len Host.test_data < 2 ^ ptr_bits;
  data_held : holds_at m a Host.test_data;
}.

Definition ping_operation (a : Z) : TEEC_Operation :=
  op_raw (OperationOps.new 0 (ParamTmpRefOps.new_input (mkSlice a (len Host.test_data)))
            mkParamNone mkParamNone mkParamNone).

Lemma ping_carried a m :
  data_ready a m ->
  carries Host.test_data
    (Command.into Command.Ping, op_paramTypes (ping_operation a), deliver m (ping_operation a)).
Proof.
  intros [Ha He Hm]. split; [done|]. split; [done|].
  eapply (input_delivered m _ 0 (from_tmpref (mkTmpRef a (len Host.test_data)))); try done.
  unfold param_ok, in_u. cbn [tp_words from_tmpref word0 word1 tm_buffer tm_size].
  change (len Host.test_data) with 10 in *. lia.
Qed.

(** The client's result for the code of the TA. *)
Definition client_result (code : Z) (r : TeecError.Result unit) : Prop :=
  if code =? TEE_SUCCESS then r = Ok tt
  else exists e, r = Err e /\ TeecError.Error.raw_code e = code.

Lemma ping_host pu a bs h l s hp :
  Utee.parse_str PLUGIN_UUID = Ok pu -> data_ready a (client_mem s) ->
  live (unboxed_stands (plugin_waits (Utee.as_raw pu))) bs h s false ->
  exists shared r s', Host.ping_ta a (mkSession h l) (mkClient s hp) = Ret (r, mkClient s' hp) /\
    live (unboxed_stands (plugin_waits (Utee.as_raw pu))) bs h s' true /\ same_lib s s' /\
    len Host.test_data <= shared /\ client_result (ping_code shared Host.test_data) r.
Proof.
  intros Hp Ha Hlive.
  destruct (TEEC_InvokeCommand h (Command.into Command.Ping) (ping_operation a) s) as [ans s1] eqn:E.
  destruct (session_invoked step carries gives (unboxed_stands (plugin_waits (Utee.as_raw pu)))
    open_entry invoke_entry close_entry u bs h s false Host.test_data (Command.into Command.Ping)
    (ping_operation a) ans s1)
    as (code & c' & w' & (_ & -> & shared & Hs & ->) & [_ Hg] & _ & Hlive1 & Hlib);
    [by apply ping_steps|done|by apply ping_carried| |done|].
  { eexists _, true. split; [done|]. split; [done|]. by exists (len Host.test_data). }
  exists shared. unfold Host.ping_ta. fold (ping_operation a).
  erewrite pbind_Ret by by apply invoke_command_at. cbv iota.
  unfold TeecError.teec_check_with_origin, client_result. rewrite Hg.
  change TEEC_SUCCESS with TEE_SUCCESS.
  destruct (ping_code shared Host.test_data =? TEE_SUCCESS); eexists _, s1;
    (split; [reflexivity|]); do 3 (split; [done|]); [done|].
  eexists. split; [done|]. apply TeecError.teec_raw_error_code.
Qed.

(** C11: a request of a client goes through a TA to a plugin, and the plugin's verdict back
    to the client: the client's block with libteec, the generated entry points of the TA,
    the TA's command to the supplicant with its growing buffer, and the function the
    macros generate for a plugin, for every plugin that answers its calls.  Without a
    session the client reports the TEE's error; with one it succeeds exactly when the
    plugin accepts the client's ten bytes, padded with zeros to the shared size, and its
    response fits there; a longer response is ShortBuffer, and an error of the plugin
    reaches the client, through the error types of three crates, with its code. *)
Theorem client_pings_plugin a pu uu s hp :
  Utee.parse_str PLUGIN_UUID = Ok pu -> Supplicant.delivered (Utee.as_raw pu) f (ta_side s) ->
  Teec.parse_str TA_UUID = Ok uu -> raw_uuid uu = u ->
  (forall h x, sessions_of s !! h = Some x -> x ∈ contexts s) ->
  data_ready a (client_mem s) ->
  exists r s', Host.main a (mkClient s hp) = Ret (r, mkClient s' hp) /\
    same_lib s s' /\ ta_boxes s' = ta_boxes s /\
    match not_reached u s with
    | Some e => r = Err e
    | None => exists shared, len Host.test_data <= shared /\
        client_result (ping_code shared Host.test_data) r
    end.
Proof.
  intros Hp Hd Hu Hraw Hwf Ha.
  destruct (client_block_runs (unboxed_stands (plugin_waits (Utee.as_raw pu)))
    open_entry invoke_entry close_entry u TA_UUID uu
    (fun session => let? _ := Host.ping_ta a session in pret (Ok tt))
    (fun r _ => exists shared, len Host.test_data <= shared /\
       client_result (ping_code shared Host.test_data) r)
    s hp false (fun _ => True) Hu Hraw Hwf) as (r & s' & E & Hlib & Hb & _ & Hr).
  - apply unboxed_opens. intros w. eexists _, _. split; [reflexivity|]. split; [reflexivity|].
    by intros _.
  - apply unboxed_closes. intros w g called _. by exists g.
  - done.
  - intros h l s1 hp1 Hlive Hm. rewrite <- Hm in Ha.
    destruct (ping_host pu a _ h l s1 hp1 Hp Ha Hlive) as (shared & r & s2 & E & Hlive2 & Hlib & Hs & Hr).
    exists r, s2, true. split; [|split; [done|split; [done|by exists shared]]].
    by destruct r as [[]|e]; [erewrite ptry_Ok by done|erewrite ptry_Err by done].
  - exists r, s'. split; [|done]. rewrite <- E. unfold Host.main, client_block. by rewrite Hu.
Qed.

End Spec.

(** ** The example plugin behind a supplicant in one process *)

Module SuppExamples.
Import PrintExample SharedTransport PlainUuids.
#[local] Existing Instances print_target print_profile exact_vec exact_vec_ok supplicant
  plain_memmove plain_memmove_ok shared_transport shared_transport_ok.

Definition supp_uuid : TEEC_UUID :=
  mkTeecUuid 0x255fc838 0xde89 0x42d3 [0x9a; 0x8e; 0xd0; 0x44; 0xc5; 0x0f; 0xa5; 0x7c].
Definition plugin_uuid : TEE_UUID :=
  mkTeeUuid 0xef620757 0xfa2b 0x4f19 [0xa1; 0xc4; 0x6e; 0x51; 0xcf; 0xe4; 0xc0; 0xf9].

Abbreviation board := (Local.state (G:=unit) (Ctx:=unit)).

#[local] Instance board_api : TeecApi board :=
  Local.local_api supp_uuid open_entry invoke_entry close_entry.
#[local] Instance board_api_ok : TeecApiOk board :=
  Local.local_api_ok supp_uuid open_entry invoke_entry close_entry.
#[local] Existing Instance Local.local_platform.
#[local] Instance board_ok : PlatformOk supp_uuid open_entry invoke_entry close_entry :=
  Local.local_platform_ok supp_uuid open_entry invoke_entry close_entry.

Definition board0 : board := Local.mkState (buffer_at 0x1000 Host.test_data) tt ∅ ∅ ∅.

Lemma client_pings_plugin_witness :
  exists s', Host.main 0x1000 (mkClient board0 ∅) = Ret (Ok tt, mkClient s' ∅) /\
    same_lib board0 s'.
Proof.
  destruct (client_pings_plugin PrintPlugin.invoke print_serve print_answers
    ltac:(intros c sub req e; unfold print_serve; case_match; [done|by intros [= <-]])
    ltac:(intros c sub req l; unfold print_serve; case_match; [by intros [= <-]|done])
    supp_uuid 0x1000 (Utee.mkUuid plugin_uuid)
    (Teec.mkUuid (mkTeeUuid 0x255fc838 0xde89 0x42d3 [0x9a; 0x8e; 0xd0; 0x44; 0xc5; 0x0f; 0xa5; 0x7c]))
    board0 ∅) as (r & s' & E & Hlib & _ & Hr).
  - vm_compute. reflexivity.
  - apply print_delivered.
  - vm_compute. reflexivity.
  - reflexivity.
  - intros h x Hx. discriminate Hx.
  - split; [done|done|]. intros i Hi. by apply buffer_at_lookup.
  - exists s'. assert (not_reached supp_uuid board0 = None) as Hn by (vm_compute; reflexivity).
    rewrite Hn in Hr. destruct Hr as (shared & Hs & Hr).
    assert (ping_code print_serve shared Host.test_data = TEE_SUCCESS) as Hc.
    { unfold ping_code. change (asked print_serve shared Host.test_data)
        with (@Ok bytes TeecError.Error.Error (replicate 9 0x40)).
      change (len Host.test_data) with 10 in Hs.
      cbv iota beta. change (len (replicate 9 0x40)) with 9.
      by rewrite (proj2 (Z.leb_le 9 shared)) by lia. }
    rewrite Hc in Hr. cbn in Hr. subst r. exact (conj E Hlib).
Defined.

End SuppExamples.
