(* ===== verification/InterTaHost.v ===== *)
(** * InterTaHost: the client of the TA that calls others

    Models [examples/ca/inter_ta-rs/src/main.rs]; the printed line is left out. *)

From S2P Require Import Prelude Uuids InterTa TeecDefines TeecError TeecParams TeecSession ClientApp.

Section Host.
Context {St : Type} `{!TeecApi St, !UuidCrate}.

Definition main : prog (client St) (Result unit) :=
  let? ctx := context_new in
  with_context ctx (
    let? uuid := pret (match Teec.parse_str UUID with
                       | Ok uuid => Ok uuid
                       | Err _ => Err (Error.from_kind ErrorKind.BadParameters)
                       end) in
    let? session := open_session ctx (raw_uuid uuid) in
    with_session session (
      let operation := OperationOps.new 0 mkParamNone mkParamNone mkParamNone mkParamNone in
      let* (r, _) := TeecSession.invoke_command session (Command.into Command.Test)
                       (op_raw operation) in
      let? _ := pret r in
      pret (Ok tt))).

End Host.
