(* ===== verification/InterTaHostSpec.v ===== *)
(** * InterTaHostSpec: from a client through one TA to two others

    The client of [InterTaHost] over the interfaces of [ClientApp], the generated entry
    points of [InterTa], and the TEE of [InterTaSpec] behind them. *)

From S2P Require Import Prelude TeeDefines UteeError Memory Params EntryPoints Uuids TaApp TaState.
From S2P Require Import TeeParams TeeParamsSpec TaSession HelloTa InterTa InterTaSpec.
From S2P Require Import TeecDefines TeecError TeecParams TeecParamsSpec TeecSession ClientApp.
From S2P Require Import HotpSpec DigestTaSpec.
From S2P Require Import InterTaHost.

Section Host.
Context `{!Target, !TargetOk, !Profile, !VecAlloc, !VecAllocOk, !UuidCrate}.
Context {G : Type} `{!TeeTaApi (G * mem), !InterTee G}.
Context (pta hello : TEE_UUID) `{IOk : !InterTeeOk pta hello}.
Context {St : Type} `{!TeecApi St, !TeecApiOk St, !Platform St G unit, !Transport}.

Definition open_entry : prog (ta_state (G:=G) (Ctx:=unit)) (Z * option Z) :=
  open_unboxed from_raw_tuple InterTa.open_session (TEE_PARAM_TYPES 0 0 0 0).
Definition invoke_entry : Z -> Z -> Z -> prog (ta_state (G:=G) (Ctx:=unit)) Z :=
  invoke_unboxed from_raw_tuple InterTa.invoke_command.
Definition close_entry : Z -> prog (ta_state (G:=G) (Ctx:=unit)) unit :=
  close_unboxed InterTa.close_session.

Context (u : TEEC_UUID) `{PO : !PlatformOk u open_entry invoke_entry close_entry}.

(** ** The command as a step, in a TEE that began as [g0] *)

Section Step.
Context (g0 : G).

Definition step (_ _ : unit) (code : Z) (_ : unit) : Prop :=
  (code = TEE_SUCCESS -> usable_key) /\
  (usable_key -> serves pta g0 -> serves hello g0 -> code = TEE_SUCCESS).

Definition carries (_ : unit) (call : Z * Z * world) : Prop :=
  call.1 = (Command.into Command.Test, TEE_PARAM_TYPES 0 0 0 0).

Definition gives (code : Z) (w w' : world) (code' : Z) : Prop := w' = w /\ code' = code.

Abbreviation stands := (unboxed_stands (fun g (_ : unit) => kept g0 g)).

Lemma test_steps pu hu :
  Utee.parse_str SYSTEM_PTA_UUID = Ok pu -> Utee.as_raw pu = pta ->
  Utee.parse_str HelloTa.UUID = Ok hu -> Utee.as_raw hu = hello ->
  entry_steps step carries gives stands invoke_entry.
Proof.
  intros Pp Up Ph Uh. apply unboxed_steps.
  intros g [] [] cmd types w [Ht Hs] Hc _. injection Hc as -> ->.
  destruct (test_command_runs pta hello pu hu g w
    (mkParameterNone, mkParameterNone, mkParameterNone, mkParameterNone) Pp Up Ph Uh)
    as (r & g' & E & [Ht' Hs'] & Hgo & Hback).
  exists (mkParameterNone, mkParameterNone, mkParameterNone, mkParameterNone), r, g', w, (code_of r), tt.
  split; [reflexivity|]. split; [exact E|]. split; [|split; [done|split; [congruence|auto]]].
  split; [done|]. intros Hk Hp Hh. rewrite Hgo by auto. done.
Qed.

End Step.
(** ** The client *)

Definition test_operation : TEEC_Operation :=
  op_raw (OperationOps.new 0 mkParamNone mkParamNone mkParamNone mkParamNone).

(** The client's memory after an operation that the TA left as it found it. *)
Definition untouched_mem (m : mem) : mem :=
  (collect m test_operation (deliver m test_operation)).1.

Lemma test_host g0 pu hu bs h l s hp :
  Utee.parse_str SYSTEM_PTA_UUID = Ok pu -> Utee.as_raw pu = pta ->
  Utee.parse_str HelloTa.UUID = Ok hu -> Utee.as_raw hu = hello ->
  live (unboxed_stands (fun g (_ : unit) => kept g0 g)) bs h s tt ->
  exists r s',
    (let* (r, _) := TeecSession.invoke_command (mkSession h l) (Command.into Command.Test)
                      test_operation in
     let? _ := pret r in
     pret (@Ok unit Error.Error tt)) (mkClient s hp) = Ret (r, mkClient s' hp) /\
    live (unboxed_stands (fun g (_ : unit) => kept g0 g)) bs h s' tt /\ same_lib s s' /\
    client_mem s' = untouched_mem (client_mem s) /\ (r = Ok tt -> usable_key) /\
    (usable_key -> serves pta g0 -> serves hello g0 -> r = Ok tt).
Proof.
  intros Pp Up Ph Uh Hlive.
  destruct (TEEC_InvokeCommand h (Command.into Command.Test) test_operation s) as [ans s1] eqn:E.
  destruct (session_invoked (step g0) carries gives
    (unboxed_stands (fun g (_ : unit) => kept g0 g)) open_entry invoke_entry close_entry u
    bs h s tt tt (Command.into Command.Test) test_operation ans s1)
    as (code & [] & w' & [Hback Hgo] & [-> Hg] & Hcol & Hlive1 & Hlib); [|done|done| |done|].
  { by eapply test_steps. }
  { destruct (forallb (fun x => x =? 0) (unique_key (zeros 32) 32)) eqn:Hk.
    - exists TEE_ERROR_GENERIC, tt. split; [done|]. unfold usable_key. by rewrite Hk.
    - by exists TEE_SUCCESS, tt. }
  assert (client_mem s1 = untouched_mem (client_mem s)) as Hm by (unfold untouched_mem; by rewrite <- Hcol).
  erewrite pbind_Ret by by apply invoke_command_at. cbv iota.
  unfold teec_check_with_origin. change TEEC_SUCCESS with TEE_SUCCESS. rewrite Hg.
  destruct (code =? TEE_SUCCESS) eqn:Hc; reflect_bool; eexists _, s1;
    (split; [reflexivity|]); do 3 (split; [done|]); split; try done; auto.
  intros H1' H2' H3'. by destruct Hc; apply Hgo.
Qed.

(** C10: a client, the TA it calls, and the TAs that one calls: the client's block with
    libteec, the generated entry points, the inter-TA sessions and their parameters, and
    the entry point of the TA that adds, for every TEE between them.  Without a session
    the client reports the TEE's error.  With one it succeeds only when the key that the
    pseudo TA derived for it is not zero, and whenever both TAs are served and the key is
    not zero: the array came back filled, and the sum is right.  Whatever fails, nothing
    panics, no array of the TA stays in memory and every session of the TA and of the
    client is closed again. *)
Theorem inter_ta_client_passes pu hu uu s hp :
  Utee.parse_str SYSTEM_PTA_UUID = Ok pu -> Utee.as_raw pu = pta ->
  Utee.parse_str HelloTa.UUID = Ok hu -> Utee.as_raw hu = hello ->
  Teec.parse_str InterTa.UUID = Ok uu -> raw_uuid uu = u ->
  (forall h x, sessions_of s !! h = Some x -> x ∈ contexts s) ->
  exists r s', main (mkClient s hp) = Ret (r, mkClient s' hp) /\
    same_lib s s' /\ ta_boxes s' = ta_boxes s /\ target (ta_side s') = target (ta_side s) /\
    match not_reached u s with
    | Some e => r = Err e
    | None => client_mem s' = untouched_mem (client_mem s) /\ (r = Ok tt -> usable_key) /\
        (usable_key -> serves pta (ta_side s) -> serves hello (ta_side s) -> r = Ok tt)
    end.
Proof.
  intros Pp Up Ph Uh Hu Hraw Hwf.
  destruct (client_block_runs (unboxed_stands (fun g (_ : unit) => kept (ta_side s) g))
    open_entry invoke_entry close_entry u InterTa.UUID uu
    (fun session =>
       let* (r, _) := TeecSession.invoke_command session (Command.into Command.Test)
                        test_operation in
       let? _ := pret r in
       pret (@Ok unit Error.Error tt))
    (fun r m => m = untouched_mem (client_mem s) /\ (r = Ok tt -> usable_key) /\
       (usable_key -> serves pta (ta_side s) -> serves hello (ta_side s) -> r = Ok tt))
    s hp tt (fun g => kept (ta_side s) g) Hu Hraw Hwf)
    as (r & s' & E & Hlib & Hb & [Ht _] & Hr).
  - apply unboxed_opens. intros w. eexists _, _. split; [reflexivity|]. split; [reflexivity|done].
  - apply unboxed_closes. intros w g [] Hg. by exists g.
  - done.
  - intros h l s1 hp1 Hlive Hm.
    destruct (test_host (ta_side s) pu hu _ h l s1 hp1 Pp Up Ph Uh Hlive) as (r & s2 & E2 & Hl2 & Hlib & Hr).
    exists r, s2, tt. by rewrite <- Hm.
  - exists r, s'. split; [|done]. rewrite <- E. unfold main, client_block. by rewrite Hu.
Qed.

End Host.

(** ** A TEE that runs the TAs, and the client on it *)

Module InterExamples.
Import HotpExamples SharedTransport PlainUuids.
#[local] Existing Instances ex_target ex_target_ok ex_profile ex_vecs ex_vecs_ok shared_transport.

#[local] Instance TEE_UUID_eq_dec : EqDecision TEE_UUID.
Proof. solve_decision. Defined.

Definition pta_uuid : TEE_UUID :=
  mkTeeUuid 0x3a2f8978 0x5dc0 0x11e8 [0x9c; 0x2d; 0xfa; 0x7a; 0xe0; 0x1b; 0xbe; 0xbc].
Definition hello_uuid : TEE_UUID :=
  mkTeeUuid 0x133af0ca 0xbdab 0x11eb [0x91; 0x30; 0x43; 0xbf; 0x78; 0x73; 0xbf; 0x67].

Abbreviation bench := (gmap Z TEE_UUID).

Definition bench_open (u : TEE_UUID) (s : bench * mem) : open_answer * (bench * mem) :=
  if decide (u = pta_uuid \/ u = hello_uuid) then
    let h := fresh (dom s.1) in (mkOpenAnswer TEE_SUCCESS 4 h None, (<[h := u]> s.1, s.2))
  else (mkOpenAnswer TEE_ERROR_ITEM_NOT_FOUND 3 0 None, s).

Definition derived (l : bytes) (n : Z) : bytes := take (Z.to_nat n) (Sha256.sha256 l).

(** The pseudo TA. *)
Definition bench_derive (ps : list TEE_Param) (m : mem) : invoke_answer * mem :=
  match ps with
  | p :: q :: _ =>
      match read_range m (word0 p) (Z.to_nat (word1 p)) with
      | Some l =>
          match write_range m (word0 q) (derived l (word1 q)) with
          | Some m' => (mkInvokeAnswer TEE_SUCCESS 4 ps, m')
          | None => (mkInvokeAnswer TEE_ERROR_BAD_PARAMETERS 4 ps, m)
          end
      | None => (mkInvokeAnswer TEE_ERROR_BAD_PARAMETERS 4 ps, m)
      end
  | _ => (mkInvokeAnswer TEE_ERROR_BAD_PARAMETERS 4 ps, m)
  end.

(** The TA that adds. *)
Definition bench_hello (c ty : Z) (ps : list TEE_Param) : invoke_answer :=
  match HelloTa.invoke_entry c ty (mkTa tt (mkWorld ∅ ps) ∅) with
  | Ret (code, st) =>
      if decide (length (raws (ew st)) = length ps) then mkInvokeAnswer code 4 (raws (ew st))
      else mkInvokeAnswer TEE_ERROR_TARGET_DEAD 3 ps
  | _ => mkInvokeAnswer TEE_ERROR_TARGET_DEAD 3 ps
  end.

Definition bench_invoke (h c ty : Z) (ps : list TEE_Param) (s : bench * mem)
    : invoke_answer * (bench * mem) :=
  match s.1 !! h with
  | Some u =>
      if decide (u = hello_uuid) then (bench_hello c ty ps, s)
      else if (c =? 1) && (ty =? key_types) then
        let '(ans, m) := bench_derive ps s.2 in (ans, (s.1, m))
      else (mkInvokeAnswer TEE_ERROR_NOT_SUPPORTED 4 ps, s)
  | None => (mkInvokeAnswer TEE_ERROR_BAD_STATE 3 ps, s)
  end.

#[local] Instance bench_api : TeeTaApi (bench * mem) := {|
  TEE_OpenTASession u _ _ _ s := bench_open u s;
  TEE_InvokeTACommand h _ c ty ps s := bench_invoke h c ty ps s;
  TEE_CloseTASession h s :=
    if decide (is_Some (s.1 !! h)) then Ret (delete h s.1, s.2) else Panic;
  sessions s := dom s.1;
|}.

#[local] Instance bench_tee : InterTee bench := {|
  target g := g;
  serves u _ := u = pta_uuid \/ u = hello_uuid;
  unique_key := derived;
|}.

Lemma derived_len l n : 16 <= n <= 32 -> len (derived l n) = n.
Proof.
  intros Hn. unfold derived, len. rewrite length_take, Sha256.sha256_size. lia.
Qed.

Lemma bench_derive_params ps m : length (ia_params (bench_derive ps m).1) = length ps.
Proof. unfold bench_derive. by repeat case_match. Qed.

#[local] Instance bench_ok : InterTeeOk pta_uuid hello_uuid (G:=bench).
Proof.
  split; cbn -[value_types key_types value_param].
  - intros u t g m ans g' m'. unfold bench_open. cbn. destruct (decide _) as [Hu|Hu];
      intros [= <- <- <-]; cbn; [|by split_and!].
    split_and!; try done. intros _. split; [|done]. apply not_elem_of_dom, is_fresh.
  - intros h g m Hh. rewrite decide_True by done. by eexists.
  - intros h t c ty ps g m ans g' m'. unfold bench_invoke. cbn.
    destruct (g !! h) as [u|]; [|by intros [= <- <- <-]].
    destruct (decide _).
    { intros [= <- <- <-]. split_and!; [done..|]. unfold bench_hello. by repeat case_match. }
    destruct (_ && _); [|by intros [= <- <- <-]].
    pose proof (bench_derive_params ps m) as Hp. destruct (bench_derive ps m) as [a m1].
    by intros [= <- <- <-].
  - intros h t c a b rest g m ans g' m' Hh Ha Hb. unfold bench_invoke. cbn [fst].
    rewrite Hh, decide_True by done. intros [= <- <- <-]. split; [done|]. intros _.
    exists (mkWorld ∅ (value_param a b :: rest)). split; [done|]. intros code st Hst.
    unfold bench_hello. rewrite Hst, decide_True; [done|].
    rewrite invoke_entry_answers in Hst by done. destruct (HelloTa.answer c a) as [[x y]| |]; try done.
    by injection Hst as <- <-.
  - intros h t extra key n l rest g m ans g' m' Hh Hx Hl Hk Hn. unfold bench_invoke. cbn [fst].
    rewrite Hh, decide_False by done. cbn [Z.eqb]. unfold bench_derive. cbn [word0 word1 snd].
    destruct (read_range_spec m (Z.to_nat (len l)) extra) as (l' & -> & Hl' & Hx').
    { rewrite Z2Nat.id by apply len_nonneg. by apply holds_at_mapped. }
    rewrite Z2Nat.id in Hl' by apply len_nonneg.
    rewrite (holds_at_inj m extra l' l) by done.
    destruct (write_range_spec (derived l n) m key) as (mk & -> & Hd & Hh' & Hs);
      [by rewrite derived_len|]. rewrite derived_len in Hs by done.
    intros [= <- <- <-]. by split_and!.
  - intros l n Hn. by apply derived_len.
Qed.

Definition inter_uuid : TEEC_UUID :=
  mkTeecUuid 0xfa9ea860 0xef3b 0x4d59 [0x84; 0x57; 0x55; 0x64; 0xa6; 0x0c; 0x03; 0x79].

Abbreviation board := (Local.state (G:=bench) (Ctx:=unit)).

#[local] Instance board_api : TeecApi board :=
  Local.local_api inter_uuid open_entry invoke_entry close_entry.
#[local] Instance board_api_ok : TeecApiOk board :=
  Local.local_api_ok inter_uuid open_entry invoke_entry close_entry.
#[local] Existing Instance Local.local_platform.
#[local] Instance board_ok : PlatformOk inter_uuid open_entry invoke_entry close_entry :=
  Local.local_platform_ok inter_uuid open_entry invoke_entry close_entry.

Definition empty_board : board := Local.mkState ∅ ∅ ∅ ∅ ∅.

Lemma inter_ta_client_passes_witness :
  exists s', main (mkClient empty_board ∅) = Ret (Ok tt, mkClient s' ∅) /\
    same_lib empty_board s' /\ target (ta_side s') = ∅.
Proof.
  destruct (inter_ta_client_passes pta_uuid hello_uuid inter_uuid (Utee.mkUuid pta_uuid)
    (Utee.mkUuid hello_uuid)
    (Teec.mkUuid (mkTeeUuid 0xfa9ea860 0xef3b 0x4d59 [0x84; 0x57; 0x55; 0x64; 0xa6; 0x0c; 0x03; 0x79]))
    empty_board ∅) as (r & s' & E & Hlib & _ & Ht & Hr).
  - vm_compute. reflexivity.
  - reflexivity.
  - vm_compute. reflexivity.
  - reflexivity.
  - vm_compute. reflexivity.
  - reflexivity.
  - intros h x Hx. discriminate Hx.
  - exists s'. assert (not_reached inter_uuid empty_board = None) as Hn by (vm_compute; reflexivity).
    rewrite Hn in Hr. destruct Hr as (_ & _ & Hok).
    assert (usable_key (G:=bench)) as Hk by (vm_compute; reflexivity).
    specialize (Hok Hk (or_introl eq_refl) (or_intror eq_refl)). subst r.
    exact (conj E (conj Hlib Ht)).
Defined.

End InterExamples.
