(* ===== verification/WalletHost.v ===== *)
(** * WalletHost: the client of the wallet TA

    Models [projects/web3/eth_wallet/host/src/]: [main.rs], [tests.rs] and what [cli.rs]
    does beside the declarations of its options.  The crates [uuid], [bincode] and [hex]
    are interfaces.  A run gives what it prints on its last line; the other lines are left
    out. *)

From S2P Require Import Prelude SecureDb Wallet Uuids TeeParams TeecDefines TeecError TeecParams.
From S2P Require Import TeecSession ClientApp ClientHeap.

Definition OUTPUT_MAX_SIZE : Z := 1024.

(** [proto::UUID]. *)
Definition UUID : string := "be2dc9a0-02b4-4b33-ba21-9964dbdf1573".

(** ** [cli.rs] *)

Module Cli.

(** [hex::decode]. *)
Class HexCrate : Type := {
  hex_error : Type;
  hex_decode : bytes -> result bytes hex_error;
}.

Section Address.
Context `{!HexCrate}.

Inductive address_error : Type :=
| FromHex (e : hex_error)
| InvalidLength (n : Z).

(** [src.trim_start_matches("0x")]. *)
Fixpoint trim_0x (src : bytes) : bytes :=
  match src with
  | 48 :: 120 :: src' => trim_0x src'
  | _ => src
  end.

(** [array.copy_from_slice(&v)] panics when the lengths differ. *)
Definition decode_hex_to_address (src : bytes) : outcome (result bytes address_error) :=
  otry (Ret (map_err FromHex (hex_decode (trim_0x src)))) (fun v =>
    if len v <? 20 then Ret (Err (InvalidLength (len v)))
    else
      let array := zeros 20 in
      let prefix := take 20 v in
      if len prefix =? len array then Ret (Ok prefix) else Panic).

End Address.

Section Options.
Context `{!EthCrates}.

Record RemoveWalletOpt : Type := mkRemoveWalletOpt { ro_wallet_id : Uuid }.
Record DeriveAddressOpt : Type := mkDeriveAddressOpt { ao_wallet_id : Uuid; ao_hd_path : bytes }.
Record SignTransactionOpt : Type := mkSignTransactionOpt {
  to_wallet_id : Uuid; to_hd_path : bytes; to_chain_id : Z; to_nonce : Z; to_to : bytes;
  to_value : Z; to_gas_price : Z; to_gas : Z
}.

Inductive Command : Type :=
| CreateWallet
| RemoveWallet (opt : RemoveWalletOpt)
| DeriveAddress (opt : DeriveAddressOpt)
| SignTransaction (opt : SignTransactionOpt)
| Test.

End Options.

End Cli.

(** ** [main.rs] and [tests.rs] *)

Section Host.
Context `{!EthCrates, !Target, !UuidCrate, !ClientAlloc}.
Context {St : Type} `{!TeecApi St, !OwnMemory St}.
Context `{!Bincode CreateWalletOutput, !Bincode RemoveWalletInput}.
Context `{!Bincode DeriveAddressInput, !Bincode DeriveAddressOutput}.
Context `{!Bincode SignTransactionInput, !Bincode SignTransactionOutput}.

Abbreviation app A := (prog (client St) A).

(** [anyhow::Error]. *)
Inductive host_error : Type :=
| FromTeec (e : Error.Error)
| FromBincode (e : db_error).

(** The commands of the TA are those of [proto]. *)
Definition invoke_command (command : Wallet.Command) (input : byte_slice) : app (Result bytes) :=
  let? ctx := context_new in
  with_context ctx (
    let? uuid := pret (map_err (fun _ => Error.from_kind ErrorKind.ItemNotFound)
                         (Teec.parse_str UUID)) in
    let? session := open_session ctx (raw_uuid uuid) in
    with_session session (
      let p0 := ParamTmpRefOps.new_input input in
      with_buffer (zeros OUTPUT_MAX_SIZE) (fun output =>
        let p1 := ParamTmpRefOps.new_output (mkSlice output OUTPUT_MAX_SIZE) in
        let operation := OperationOps.new 0 p0 p1 mkParamNone mkParamNone in
        let* (r, raw) := TeecSession.invoke_command session (Wallet.Command.into command)
                           (op_raw operation) in
        let operation : Operation ParamTmpRef ParamTmpRef ParamNone ParamNone := mkOperation raw in
        let '(_, p1, _, _) := OperationOps.parameters operation in
        let output_len := ParamTmpRefOps.updated_size p1 in
        match r with
        | Ok _ =>
            let* l := prefix_to_vec output OUTPUT_MAX_SIZE output_len in
            pret (Ok l)
        | Err e =>
            let* _ := prefix_to_vec output OUTPUT_MAX_SIZE output_len in
            pret (Err e)
        end))).

(** The call with the input in a vector of its own. *)
Definition send (command : Wallet.Command) (input : bytes) : app (result bytes host_error) :=
  let* r := with_buffer input (fun p => invoke_command command (mkSlice p (len input))) in
  pret (map_err FromTeec r).

Definition create_wallet : app (result Uuid host_error) :=
  let? serialized_output := send Wallet.Command.CreateWallet [] in
  let? output := pret (map_err FromBincode
                         (deserialize (T := CreateWalletOutput) serialized_output)) in
  pret (Ok (co_wallet_id output)).

Definition remove_wallet (wallet_id : Uuid) : app (result unit host_error) :=
  let input := mkRemoveWalletInput wallet_id in
  let? b := pret (map_err FromBincode (serialize input)) in
  let? _ := send Wallet.Command.RemoveWallet b in
  pret (Ok tt).

Definition derive_address (wallet_id : Uuid) (hd_path : bytes) : app (result bytes host_error) :=
  let input := mkDeriveAddressInput wallet_id hd_path in
  let? b := pret (map_err FromBincode (serialize input)) in
  let? serialized_output := send Wallet.Command.DeriveAddress b in
  let? output := pret (map_err FromBincode
                         (deserialize (T := DeriveAddressOutput) serialized_output)) in
  pret (Ok (do_address output)).

Definition sign_transaction (wallet_id : Uuid) (hd_path : bytes) (chain_id nonce : Z)
    (to : bytes) (value gas_price gas : Z) : app (result bytes host_error) :=
  let transaction := mkEthTransaction chain_id nonce (Some to) value gas_price gas [] in
  let input := mkSignTransactionInput wallet_id hd_path transaction in
  let? b := pret (map_err FromBincode (serialize input)) in
  let? serialized_output := send Wallet.Command.SignTransaction b in
  let? output := pret (map_err FromBincode
                         (deserialize (T := SignTransactionOutput) serialized_output)) in
  pret (Ok (so_signature output)).

Definition workflow_path : bytes := str_bytes "m/44'/60'/0'/0/0".

Definition test_workflow : app (result unit host_error) :=
  let? wallet_id := create_wallet in
  let? address := derive_address wallet_id workflow_path in
  let? _ := sign_transaction wallet_id workflow_path 5 0 address 100 1000000000 21000 in
  pret (Ok tt).

(** The last line printed. *)
Inductive Printed : Type :=
| WalletId (i : Uuid)
| WalletRemoved
| Address (a : bytes)
| Signature (s : bytes)
| TestsPassed.

Definition main (args : Cli.Command) : app (result Printed host_error) :=
  match args with
  | Cli.CreateWallet =>
      let? wallet_id := create_wallet in
      pret (Ok (WalletId wallet_id))
  | Cli.RemoveWallet opt =>
      let? _ := remove_wallet (Cli.ro_wallet_id opt) in
      pret (Ok WalletRemoved)
  | Cli.DeriveAddress opt =>
      let? address := derive_address (Cli.ao_wallet_id opt) (Cli.ao_hd_path opt) in
      pret (Ok (Address address))
  | Cli.SignTransaction opt =>
      let? signature :=
        sign_transaction (Cli.to_wallet_id opt) (Cli.to_hd_path opt) (Cli.to_chain_id opt)
          (Cli.to_nonce opt) (Cli.to_to opt) (Cli.to_value opt) (Cli.to_gas_price opt)
          (Cli.to_gas opt) in
      pret (Ok (Signature signature))
  | Cli.Test =>
      let? _ := test_workflow in
      pret (Ok TestsPassed)
  end.

End Host.
