(* ===== verification/WalletHostSpec.v ===== *)
(** * WalletHostSpec: the wallet client sees a map of wallets

    [WalletHost] over the interfaces of [ClientApp] and [ClientHeap], with the TA of
    [Wallet] behind its generated entry points ([WalletSpec.wallet_invocation]). *)

From S2P Require Import Prelude TeeDefines UteeError Memory Params EntryPoints Storage SecureDb.
From S2P Require Import Crypto ParamsSpec StorageSpec SecureDbSpec TaApp Wallet WalletSpec Uuids.
From S2P Require Import TeeParams TeecDefines TeecError TeecParams TeecParamsSpec TeecSession.
From S2P Require Import ClientApp ClientHeap WalletHost.

(** An address is twenty bytes of what [hex] decodes, and the copy never panics. *)
Lemma decode_hex_to_address_spec `{!Cli.HexCrate} src :
  Cli.decode_hex_to_address src = Ret (
    match Cli.hex_decode (Cli.trim_0x src) with
    | Ok v => if len v <? 20 then Err (Cli.InvalidLength (len v)) else Ok (take 20 v)
    | Err e => Err (Cli.FromHex e)
    end).
Proof.
  unfold Cli.decode_hex_to_address. destruct (Cli.hex_decode _) as [v|e]; [|done]. cbn [map_err otry].
  destruct (len v <? 20) eqn:Hv; [done|]. reflect_bool. rewrite len_zeros by done.
  rewrite (proj2 (Z.eqb_eq _ _)); [done|]. unfold len in *. rewrite length_take. lia.
Qed.

Section Host.
Context `{!EthCrates, !EthCratesOk, !Target, !TargetOk, !TeeMemMove, !TeeMemMoveOk}.
Context {Tst : Type} `{!TrustedStorage Tst, !TrustedStorageOk Tst, !TrustedStorageReliable Tst}.
Context `{!TeeRandom Tst, !TeeRandomOk Tst}.
Context `{!Bincode (gset key), !BincodeOk (gset key), !HashIter, !HashIterOk}.
Context `{!Bincode Wallet, !BincodeOk Wallet}.
Context `{!Bincode CreateWalletInput, !Bincode CreateWalletOutput}.
Context `{!Bincode RemoveWalletInput, !Bincode RemoveWalletOutput}.
Context `{!Bincode DeriveAddressInput, !Bincode DeriveAddressOutput}.
Context `{!Bincode SignTransactionInput, !Bincode SignTransactionOutput}.
Context (wallet_type_name : key) (debug : error -> bytes).
Context (K : gset key) (keys_fit : ser_total K) (keys_short : forall k, k ∈ K -> short k).
Context (ids_in_K : forall (s : Tst) l s',
  TEE_GenerateRandom 16 s = Ret (l, s') -> wallet_key wallet_type_name (from_random_bytes l) ∈ K).
Context (wallets_fit : forall i ent, len ent = 32 -> exists b, serialize (mkWallet i ent) = Ok b).
Context {St : Type} `{!TeecApi St, !TeecApiOk St, !Platform St Tst unit}.
Context `{!OwnMemory St, !OwnMemoryOk St, !ClientAlloc, !ClientAllocOk}.
Context `{!Transport, !TransportOk, !TransportFrame, !UuidCrate}.

Abbreviation store_of W := (holds wallet_type_name K W).
Abbreviation Wallets := (gmap Uuid bytes).

Definition open_entry : prog (ta_state (G:=Tst) (Ctx:=unit)) (Z * option Z) :=
  open_unboxed from_raw_tuple Wallet.open_session (TEE_PARAM_TYPES 0 0 0 0).
Definition invoke_entry : Z -> Z -> Z -> prog (ta_state (G:=Tst) (Ctx:=unit)) Z :=
  invoke_unboxed from_raw_tuple (Wallet.invoke_command wallet_type_name debug).
Definition close_entry : Z -> prog (ta_state (G:=Tst) (Ctx:=unit)) unit :=
  close_unboxed Wallet.close_session.

Context (u : TEEC_UUID) `{PO : !PlatformOk u open_entry invoke_entry close_entry}.

(** ** The TA, for a client with 1024 bytes to fill *)

Definition step (r : WalletSpec.request) (W : Wallets) (rp : result bytes error) (W' : Wallets) : Prop :=
  rq_capacity r = OUTPUT_MAX_SIZE /\
  exists d, draw_ok d /\ answer d.1 d.2 (Wallet.Command.from (rq_cmd r)) (rq_input r) W = (rp, W').

Definition given (rp : result bytes error) (w w' : world) (code : Z) : Prop :=
  WalletSpec.gives debug OUTPUT_MAX_SIZE rp (0, 0, w) (code, w').

Definition stands : gmap Z unit -> Z -> Tst -> gmap Z unit -> Wallets -> Prop :=
  unboxed_stands (fun g W => store_of W g).

Lemma wallet_steps : entry_steps step WalletSpec.carries given stands invoke_entry.
Proof.
  intros bs ptr g bs' W r cmd types w [-> Hs] Hc (_ & _ & Hcap & _).
  destruct (wallet_invocation wallet_type_name debug K keys_fit keys_short ids_in_K wallets_fit
    r cmd types w W g bs Hs Hc) as (d & code & g' & w' & Hd & E & Hg & Hs').
  exists code, (mkTa g' w' bs), (answer d.1 d.2 (Wallet.Command.from (rq_cmd r)) (rq_input r) W).1,
    (answer d.1 d.2 (Wallet.Command.from (rq_cmd r)) (rq_input r) W).2.
  split; [exact E|]. split; [|split; [|by split]].
  - split; [done|]. exists d. split; [done|]. by destruct (answer _ _ _ _ _).
  - rewrite Hcap in Hg. exact Hg.
Qed.

(** ** One exchange *)

Definition wallet_operation (p n q : Z) : TEEC_Operation :=
  op_raw (OperationOps.new 0 (ParamTmpRefOps.new_input (mkSlice p n))
            (ParamTmpRefOps.new_output (mkSlice q OUTPUT_MAX_SIZE)) mkParamNone mkParamNone).

Lemma wallet_slots p n q :
  op_slots (wallet_operation p n q) !! 0%nat
    = Some (ParamType.MemrefTempInput, from_tmpref (mkTmpRef p n)) /\
  op_slots (wallet_operation p n q) !! 1%nat
    = Some (ParamType.MemrefTempOutput, from_tmpref (mkTmpRef q OUTPUT_MAX_SIZE)) /\
  forall j t r, op_slots (wallet_operation p n q) !! j = Some (t, r) -> is_temp t = true ->
    is_output t = true -> j = 1%nat /\ r = from_tmpref (mkTmpRef q OUTPUT_MAX_SIZE).
Proof.
  unfold wallet_operation. rewrite op_slots_new. split; [done|]. split; [done|].
  intros j t r Hj Ht Ho. destruct j as [|[|[|[|j]]]]; cbn in Hj; [..|done]; injection Hj as <- <-; done.
Qed.

(** Two ranges of the client: the input and the vector to fill. *)
Record buffers (m : mem) (p : Z) (l : bytes) (q : Z) : Prop := {
  in_nonnull : 0 < p;
  in_end : p + len l < 2 ^ ptr_bits;
  in_short : len l <= 2 ^ 16;
  in_held : holds_at m p l;
  out_nonnull : 0 < q;
  out_end : q + OUTPUT_MAX_SIZE < 2 ^ ptr_bits;
  out_mapped : range_mapped m q OUTPUT_MAX_SIZE;
}.

Lemma output_deliverable m p l q :
  buffers m p l q ->
  deliverable m ParamType.MemrefTempOutput (from_tmpref (mkTmpRef q OUTPUT_MAX_SIZE)).
Proof.
  intros [_ _ _ _ Hq Hqe Hqm]. by apply array_deliverable.
Qed.

Lemma wallet_carried m p l q c :
  buffers m p l q ->
  WalletSpec.carries (WalletSpec.mkRequest (Wallet.Command.into c) l OUTPUT_MAX_SIZE)
    (Wallet.Command.into c, op_paramTypes (wallet_operation p (len l) q),
     deliver m (wallet_operation p (len l) q)).
Proof.
  intros Hb. pose proof (output_deliverable m p l q Hb) as Hout.
  destruct Hb as [Hp Hpe Hl Hh _ _ _]. destruct (wallet_slots p (len l) q) as (S0 & S1 & _).
  split; [apply deliver_length|]. split; [done|]. split; [done|]. split.
  - apply (vector_delivered m _ 0 p l S0). split; [done..|cbn [rq_input]; lia|done].
  - exact (output_delivered m _ 1 _ S1 Hout).
Qed.

(** What the TA wrote is the only change of the client's memory. *)
Lemma wallet_collected m p l q rp w code :
  buffers m p l q -> given rp (deliver m (wallet_operation p (len l) q)) w code ->
  same_outside m (collect m (wallet_operation p (len l) q) w).1 q OUTPUT_MAX_SIZE.
Proof.
  intros Hb Hg x Hx. pose proof (output_deliverable m p l q Hb) as Hout.
  destruct (wallet_slots p (len l) q) as (_ & S1 & Honly).
  apply collect_outside.
  2:{ intros i t r Hi Ht Ho. by destruct (Honly i t r Hi Ht Ho) as [_ ->]. }
  intros y Hy. destruct (slot_arrives m _ 1 _ S1) as [raw Hraw].
  specialize (Hy 1%nat _ _ raw S1 eq_refl eq_refl Hraw).
  change (client_size (from_tmpref (mkTmpRef q OUTPUT_MAX_SIZE))) with OUTPUT_MAX_SIZE in Hy.
  unfold given, WalletSpec.gives in Hg. cbn [snd] in Hg. destruct (_ <? _) eqn:Hc; reflect_bool.
  - by destruct Hg as (_ & -> & _).
  - destruct Hg as (_ & _ & raw' & Hraw' & _ & Hs & _). rewrite Hraw in Hraw'.
    injection Hraw' as <-. apply Hs. lia.
Qed.

(** An error with the code of the TA. *)
Definition coded (code : Z) (r : Result bytes) : Prop :=
  exists e, r = Err e /\ Error.raw_code e = code.

(** What the client makes of the TA's answer. *)
Definition reply_told (rp : result bytes error) (r : Result bytes) : Prop :=
  if OUTPUT_MAX_SIZE <? len (sent debug rp) then coded TEE_ERROR_SHORT_BUFFER r
  else match rp with
       | Ok out => r = Ok out
       | Err _ => coded TEE_ERROR_BAD_PARAMETERS r
       end.

Definition answered (c : Wallet.Command) (l : bytes) (W : Wallets) (r : Result bytes)
    (W' : Wallets) : Prop :=
  exists d rp, draw_ok d /\ answer d.1 d.2 c l W = (rp, W') /\ reply_told rp r.

(** The part of the client between its vector and the vector's end. *)
Definition exchange (c : Wallet.Command) (p n : Z) (session : Session) (output : Z)
    : prog (client St) (Result bytes) :=
  let* (r, raw) := TeecSession.invoke_command session (Wallet.Command.into c)
                     (wallet_operation p n output) in
  let operation : Operation ParamTmpRef ParamTmpRef ParamNone ParamNone := mkOperation raw in
  let '(_, p1, _, _) := OperationOps.parameters operation in
  let output_len := ParamTmpRefOps.updated_size p1 in
  match r with
  | Ok _ =>
      let* l := prefix_to_vec output OUTPUT_MAX_SIZE output_len in
      pret (Ok l)
  | Err e =>
      let* _ := prefix_to_vec output OUTPUT_MAX_SIZE output_len in
      pret (Err e)
  end.

(** The size that an operation reports for its second parameter. *)
Lemma second_size raw t r :
  op_slots raw !! 1%nat = Some (t, r) ->
  let '(_, p1, _, _) := OperationOps.parameters
    (mkOperation raw : Operation ParamTmpRef ParamTmpRef ParamNone ParamNone) in
  ParamTmpRefOps.updated_size p1 = client_size r.
Proof.
  unfold op_slots, OperationOps.parameters. cbn [op_raw].
  destruct (ParamTypes.into_flags _) as [[[f0 f1] f2] f3], (op_params raw) as [[[r0 r1] r2] r3].
  by intros [= <- <-].
Qed.

Lemma coded_check code orig :
  code <> TEEC_SUCCESS -> exists e, teec_check_with_origin code orig = Err e /\
    Error.raw_code e = code.
Proof.
  intros Hc. unfold teec_check_with_origin. rewrite (proj2 (Z.eqb_neq _ _)) by done.
  eexists. split; [done|]. apply teec_raw_error_code.
Qed.

(** The prefix that is reported holds what was sent. *)
Lemma reported_prefix m p l q rp w code orig :
  buffers m p l q -> given rp (deliver m (wallet_operation p (len l) q)) w code ->
  exists t r out,
    op_slots (collect m (wallet_operation p (len l) q) w).2 !! 1%nat = Some (t, r) /\
    client_size r = len out /\ len out <= OUTPUT_MAX_SIZE /\
    holds_at (collect m (wallet_operation p (len l) q) w).1 q out /\
    reply_told rp (match teec_check_with_origin code orig with Ok _ => Ok out | Err e => Err e end).
Proof.
  intros Hb Hg. pose proof (output_deliverable m p l q Hb) as Hout.
  destruct (wallet_slots p (len l) q) as (_ & S1 & Honly).
  destruct (slot_arrives m _ 1 _ S1) as [raw Hraw].
  destruct (lookup_lt_is_Some_2 (op_slots (collect m (wallet_operation p (len l) q) w).2) 1)
    as [[t r] Hr]; [rewrite op_slots_length; lia|].
  assert (forall n, reported_size w 1 = Some n -> client_size r = n) as Hsize.
  { intros n Hn. unfold reported_size in Hn. destruct (raws w !! 1%nat) as [x|] eqn:X; [|done].
    injection Hn as <-.
    destruct (collect_slot m _ w 1 _ _ raw x t r S1 Hout Hraw X Hr) as [_ Hm].
    by destruct (Hm eq_refl eq_refl) as (_ & -> & _). }
  exists t, r. unfold given, WalletSpec.gives in Hg. cbn [snd] in Hg. unfold reply_told.
  destruct (_ <? len (sent debug rp)) eqn:Hc; reflect_bool.
  - destruct Hg as (-> & _ & Hz). exists []. split; [done|]. split; [by apply Hsize|].
    split; [done|]. split; [by apply holds_at_nil|].
    destruct (coded_check TEE_ERROR_SHORT_BUFFER orig) as (e & -> & He); [done|]. by exists e.
  - destruct Hg as (-> & Hz & raw' & Hraw' & Hh & _). rewrite Hraw in Hraw'. injection Hraw' as <-.
    exists (sent debug rp). split; [done|]. split; [by apply Hsize|]. split; [done|]. split.
    + refine (output_collected m _ w 1 _ raw _ S1 Hout Hraw Hz Hh Hc _).
      intros j tj rj Hne Hj Ht Ho. by destruct (Honly j tj rj Hj Ht Ho) as [-> _].
    + destruct rp as [out|e']; [done|].
      destruct (coded_check TEE_ERROR_BAD_PARAMETERS orig) as (e & -> & He); [done|]. by exists e.
Qed.

Lemma exchange_runs c bs h l m W p input q :
  buffers m p input q ->
  at_session stands bs h (exchange c p (len input) (mkSession h l) q) m W
    (fun r m' W' => same_outside m m' q OUTPUT_MAX_SIZE /\ answered c input W r W').
Proof.
  intros Hb s hp Hlive <-.
  destruct (TEEC_InvokeCommand h (Wallet.Command.into c) (wallet_operation p (len input) q) s)
    as [ans s1] eqn:E.
  destruct (session_invoked step WalletSpec.carries given stands open_entry invoke_entry close_entry u
    bs h s W _ _ _ ans s1 wallet_steps Hlive (wallet_carried _ p input q c Hb))
    as (rp & W' & w & (_ & d & Hd & Ha) & Hg & Hcol & Hlive1 & Hlib); [|exact E|].
  { cbn [rq_cmd rq_input]. exists (answer (zeros 32) (zeros 16) (Wallet.Command.from (Wallet.Command.into c)) input W).1. eexists.
    split; [done|]. exists (zeros 32, zeros 16). split; [done|]. by apply surjective_pairing. }
  cbn [rq_cmd rq_input] in Ha. replace (Wallet.Command.from _) with c in Ha by (by destruct c).
  destruct (reported_prefix _ p input q rp w (ir_code ans) (ir_origin ans) Hb Hg)
    as (t & r & out & Hr & Hsz & Hle & Hh & Htold).
  pose proof (wallet_collected _ p input q rp w _ Hb Hg) as Hs.
  rewrite <- Hcol in Hr, Hh, Hs. cbn [fst snd] in *.
  unfold exchange. pose proof (second_size _ _ _ Hr) as H2s.
  eexists _, s1, W'. split.
  - erewrite pbind_Ret by by apply invoke_command_at. cbv iota beta.
    destruct (OperationOps.parameters _) as [[[p0 p1] p2] p3]. cbv zeta. rewrite H2s, Hsz.
    instantiate (1 := match teec_check_with_origin (ir_code ans) (ir_origin ans) with
                      | Ok _ => Ok out | Err e => Err e end).
    by destruct (teec_check_with_origin _ _); erewrite pbind_Ret by by apply prefix_to_vec_Ret.
  - split; [done|]. split; [done|]. split; [done|]. by exists d, rp.
Qed.

(** The calls of one session, with the vector for the output. *)
Lemma session_does c bs m p input W :
  0 < p -> p + len input < 2 ^ ptr_bits -> len input <= 2 ^ 16 -> holds_at m p input ->
  space 1 m ->
  calls_do stands bs m W
    (fun session => with_buffer (zeros OUTPUT_MAX_SIZE) (exchange c p (len input) session))
    (fun r m' W' => m' = m /\ answered c input W r W').
Proof.
  intros Hp Hpe Hl Hh Hsp. apply calls_at. intros h l. apply (at_buffer stands bs h 0); [done|by rewrite len_zeros by done|].
  rewrite len_zeros by done. intros q Hq Hqe Hqf.
  eapply at_weaken; [|apply exchange_runs; split; [done..| |done|done|]].
  - intros r m' W' [Hs Hans]. split; [|done].
    pose proof (array_dropped q (zeros OUTPUT_MAX_SIZE) m m') as Hd.
    rewrite len_zeros in Hd by done. by apply Hd.
  - apply array_after; [done|]. by rewrite len_zeros by done.
  - apply holds_at_mapped with (l := zeros OUTPUT_MAX_SIZE). apply array_holds.
Qed.

(** ** A client between two calls *)

Record ready (W : Wallets) (s : St) : Prop := {
  ready_sessions h x : sessions_of s !! h = Some x -> x ∈ contexts s;
  ready_room : space 2 (client_mem s);
  ready_wallets : store_of W (ta_side s);
}.

Definition kept (s s' : St) : Prop :=
  same_lib s s' /\ ta_boxes s' = ta_boxes s /\ client_mem s' = client_mem s.

(** The TEE may refuse a session. *)
Definition refused (e : Error.Error) : Prop := exists s, not_reached u s = Some e.

Definition told (c : Wallet.Command) (input : bytes) (W : Wallets) (r : Result bytes)
    (W' : Wallets) : Prop :=
  (exists e, refused e /\ r = Err e /\ W' = W) \/ answered c input W r W'.

Context (uu : Teec.Uuid) (uuid_parsed : Teec.parse_str UUID = Ok uu) (uuid_raw : raw_uuid uu = u).

Lemma invoke_told c p input s hp W :
  (forall h x, sessions_of s !! h = Some x -> x ∈ contexts s) -> store_of W (ta_side s) ->
  0 < p -> p + len input < 2 ^ ptr_bits -> len input <= 2 ^ 16 -> holds_at (client_mem s) p input ->
  space 1 (client_mem s) ->
  exists r s' W', WalletHost.invoke_command c (mkSlice p (len input)) (mkClient s hp)
      = Ret (r, mkClient s' hp) /\
    kept s s' /\ store_of W' (ta_side s') /\ told c input W r W'.
Proof.
  intros Hwf Hs Hp Hpe Hl Hh Hfree.
  destruct (client_block_runs_to stands open_entry invoke_entry close_entry u UUID uu
    (fun session => with_buffer (zeros OUTPUT_MAX_SIZE) (exchange c p (len input) session))
    (fun r m' W' => m' = client_mem s /\ answered c input W r W')
    s hp W (fun W g => store_of W g) uuid_parsed uuid_raw Hwf)
    as (r & s' & W' & E & Hlib & Hb & Hs' & Hr).
  - apply unboxed_opens. intros w. by eexists _, _.
  - apply unboxed_closes. intros w g W' Hg. by exists g.
  - done.
  - by apply session_does.
  - exists r, s', W'. split.
    { rewrite <- E. unfold WalletHost.invoke_command, client_block. by rewrite uuid_parsed. }
    destruct (not_reached u s) as [e|] eqn:Hn.
    + destruct Hr as (-> & -> & Hm). split; [by split|]. split; [done|]. left. exists e.
      split; [by exists s|done].
    + destruct Hr as (Hm & Ha). split; [by split|]. split; [done|by right].
Qed.

(** ** What a run of the client means

    A run relates the wallets before it to its result and the wallets after it. *)

Definition spec (A : Type) : Type := Wallets -> result A host_error -> Wallets -> Prop.

Definition does {A} (body : prog (client St) (result A host_error)) (P : spec A) : Prop :=
  forall W s hp, ready W s -> exists r s' W', body (mkClient s hp) = Ret (r, mkClient s' hp) /\
    kept s s' /\ ready W' s' /\ P W r W'.

Definition settled {A} (r : result A host_error) : spec A := fun W r' W' => r' = r /\ W' = W.

Definition followed_by {A B} (P : spec A) (Q : A -> spec B) : spec B :=
  fun W r W' => exists r0 W1, P W r0 W1 /\
    match r0 with
    | Ok a => Q a W1 r W'
    | Err e => r = Err e /\ W' = W1
    end.

Lemma state_kept_trans s1 s2 s3 : kept s1 s2 -> kept s2 s3 -> kept s1 s3.
Proof.
  intros (Hl & Hb & Hm) (Hl' & Hb' & Hm'). split; [by apply (same_lib_trans _ s2)|].
  split; congruence.
Qed.

Lemma does_pret {A} (r : result A host_error) : does (pret r) (settled r).
Proof. intros W s hp Hr. by exists r, s, W. Qed.

Lemma does_followed_by {A B} (m : prog (client St) (result A host_error)) f (P : spec A) (Q : A -> spec B) :
  does m P -> (forall a, (exists W W', P W (Ok a) W') -> does (f a) (Q a)) ->
  does (ptry m f) (followed_by P Q).
Proof.
  intros Hm Hf W s hp Hr. destruct (Hm W s hp Hr) as (r0 & s1 & W1 & E1 & Hk1 & Hr1 & HP).
  destruct r0 as [a|e].
  - destruct (Hf a (ex_intro _ W (ex_intro _ W1 HP)) W1 s1 hp Hr1) as (r & s2 & W2 & E2 & Hk2 & Hr2 & HQ).
    exists r, s2, W2. erewrite ptry_Ok by exact E1. split; [done|].
    split; [by apply (state_kept_trans _ s1)|]. split; [done|]. by exists (Ok a), W1.
  - exists (Err e), s1, W1. erewrite ptry_Err by exact E1. do 3 (split; [done|]). by exists (Err e), W1.
Qed.

(** One invocation, with the input in a vector. *)
Definition sent_told (c : Wallet.Command) (input : bytes) : spec bytes :=
  fun W r W' => exists r0, told c input W r0 W' /\ r = map_err FromTeec r0.

Lemma send_does c input : len input <= 2 ^ 16 -> does (send c input) (sent_told c input).
Proof.
  intros Hl W s hp [Hwf Hroom Hs]. pose proof (len_nonneg input) as Hn.
  destruct (space_take 1 _ (len input) Hroom) as (a & Ha & Hae & Haf); [lia|].
  destruct (with_buffer_Ret a input (fun p => WalletHost.invoke_command c (mkSlice p (len input))) s hp
    (fun r s2 => exists W', same_lib s s2 /\ ta_boxes s2 = ta_boxes s /\ store_of W' (ta_side s2) /\
       told c input W r W')) as (r & s2 & E & W' & Hlib & Hb & Hs2 & Ht); [done..| |].
  - intros p Hp Hpe Hpf. set (m1 := buffer_at p input ∪ client_mem s).
    destruct (invoke_told c p input (put_mem m1 s) hp W) as (r & s2 & W' & E & (Hlib & Hb & Hm) & Hs2 & Ht).
    + by rewrite put_sessions, put_contexts.
    + by rewrite put_side.
    + done.
    + done.
    + done.
    + rewrite put_client. apply array_holds.
    + rewrite put_client. by apply space_put.
    + exists r, s2. split; [exact E|]. rewrite put_client in Hm. split; [by rewrite Hm|].
      exists W'. unfold same_lib in *. rewrite put_contexts, put_sessions in Hlib.
      by rewrite put_boxes in Hb.
  - exists (map_err FromTeec r), (put_mem (client_mem s) s2), W'. split; [|split; [|split]].
    + unfold send. by erewrite pbind_Ret by exact E.
    + split; [by apply same_lib_put|]. by rewrite put_boxes, put_client.
    + destruct Hlib as [Hc Hse]. split; [|by rewrite put_client|by rewrite put_side].
      rewrite put_sessions, put_contexts, Hc, Hse. exact Hwf.
    + by exists r.
Qed.

(** ** The commands

    The crate [bincode] on the messages: an empty message is empty. *)

Context `{!BincodeOk CreateWalletInput, !BincodeOk CreateWalletOutput}.
Context `{!BincodeOk RemoveWalletInput, !BincodeOk DeriveAddressInput, !BincodeOk DeriveAddressOutput}.
Context `{!BincodeOk SignTransactionInput, !BincodeOk SignTransactionOutput}.
Context (create_input : serialize mkCreateWalletInput = Ok []).

Definition failed {A} (code : Z) (r : result A host_error) : Prop :=
  exists e, r = Err (FromTeec e) /\ Error.raw_code e = code.

(** The map answers [f], for some random values; [g] is what the client takes from it. *)
Definition command_told {U A} `{!Bincode U}
    (f : bytes * bytes -> Wallets -> result U error * Wallets) (g : U -> A) : spec A :=
  fun W r W' =>
    (exists e, refused e /\ r = Err (FromTeec e) /\ W' = W) \/
    exists d, draw_ok d /\ W' = (f d W).2 /\
      if OUTPUT_MAX_SIZE <? len (sent debug (reply_of (f d W).1)) then
        failed TEE_ERROR_SHORT_BUFFER r
      else match (f d W).1, reply_of (f d W).1 with
           | Ok x, Ok _ => r = Ok (g x)
           | _, _ => failed TEE_ERROR_BAD_PARAMETERS r
           end.

(** An input that [bincode] does not encode is not sent. *)
Definition encoded {T A} `{!Bincode T} (i : T) (P : spec A) : spec A :=
  match serialize i with
  | Ok _ => P
  | Err e => settled (Err (FromBincode e))
  end.

Definition create_told : spec Uuid :=
  command_told (fun d W => spec_create d.1 d.2 W mkCreateWalletInput) co_wallet_id.
Definition remove_told (i : Uuid) : spec unit :=
  encoded (mkRemoveWalletInput i)
    (command_told (fun _ W => spec_remove W (mkRemoveWalletInput i)) (fun _ => tt)).
Definition derive_told (i : Uuid) (path : bytes) : spec bytes :=
  encoded (mkDeriveAddressInput i path)
    (command_told (fun _ W => spec_derive W (mkDeriveAddressInput i path)) do_address).
Definition sign_told (i : Uuid) (path : bytes) (t : EthTransaction) : spec bytes :=
  encoded (mkSignTransactionInput i path t)
    (command_told (fun _ W => spec_sign W (mkSignTransactionInput i path t)) so_signature).

Definition printed {A} (P : spec A) (g : A -> Printed) : spec Printed :=
  followed_by P (fun a => settled (Ok (g a))).

(** The run of a command line. *)
Definition main_told (args : Cli.Command) : spec Printed :=
  match args with
  | Cli.CreateWallet => printed create_told WalletId
  | Cli.RemoveWallet o => printed (remove_told (Cli.ro_wallet_id o)) (fun _ => WalletRemoved)
  | Cli.DeriveAddress o =>
      printed (derive_told (Cli.ao_wallet_id o) (Cli.ao_hd_path o)) Address
  | Cli.SignTransaction o =>
      printed (sign_told (Cli.to_wallet_id o) (Cli.to_hd_path o)
        (mkEthTransaction (Cli.to_chain_id o) (Cli.to_nonce o) (Some (Cli.to_to o))
           (Cli.to_value o) (Cli.to_gas_price o) (Cli.to_gas o) [])) Signature
  | Cli.Test =>
      printed (followed_by create_told (fun i => followed_by (derive_told i workflow_path) (fun a =>
        followed_by (sign_told i workflow_path
               (mkEthTransaction 5 0 (Some a) 100 1000000000 21000 [])) (fun _ =>
        settled (Ok tt))))) (fun _ => TestsPassed)
  end.

Lemma typed_does {U A} `{!Bincode U} c b (f : bytes * bytes -> Wallets -> result U error * Wallets)
    (g : U -> A) (k : bytes -> prog (client St) (result A host_error)) :
  len b <= 2 ^ 16 ->
  (forall d W, answer d.1 d.2 c b W = (reply_of (f d W).1, (f d W).2)) ->
  (forall x ob c0, serialize x = Ok ob -> k ob c0 = Ret (Ok (g x), c0)) ->
  does (let? out := send c b in k out) (command_told f g).
Proof.
  intros Hl Ha Hk W s hp Hr.
  destruct (send_does c b Hl W s hp Hr) as (r & s' & W' & E & Hkept & Hr' & r0 & Ht & ->).
  destruct Ht as [(e & He & -> & ->)|(d & rp & Hd & Hrp & Ht)].
  { exists (Err (FromTeec e)), s', W. erewrite ptry_Err by exact E. do 3 (split; [done|]).
    left. by exists e. }
  rewrite Ha in Hrp. injection Hrp as <- <-.
  enough (exists r, (let? out := send c b in k out) (mkClient s hp) = Ret (r, mkClient s' hp) /\
    if OUTPUT_MAX_SIZE <? len (sent debug (reply_of (f d W).1)) then failed TEE_ERROR_SHORT_BUFFER r
    else match (f d W).1, reply_of (f d W).1 with
         | Ok x, Ok _ => r = Ok (g x)
         | _, _ => failed TEE_ERROR_BAD_PARAMETERS r
         end) as (r & E' & Hc).
  { exists r, s', (f d W).2. do 3 (split; [done|]). right. by exists d. }
  assert (forall code, coded code r0 -> exists r,
    (let? out := send c b in k out) (mkClient s hp) = Ret (r, mkClient s' hp) /\ failed code r) as Herr.
  { intros code (e & -> & He). exists (Err (FromTeec e)). erewrite ptry_Err by exact E.
    split; [done|]. by exists e. }
  unfold reply_told in Ht. destruct (_ <? _); [by apply Herr|].
  destruct (f d W).1 as [x|e]; cbn [reply_of result_bind] in *; [|by apply Herr].
  destruct (serialize x) as [ob|e] eqn:Hx; cbn [map_err] in *; [|by apply Herr].
  subst r0. exists (Ok (g x)). erewrite ptry_Ok by exact E. split; [by apply Hk|done].
Qed.

Lemma on_input_Ok {T U} `{!Bincode T, !Bincode U} b (i : T) W (f : T -> result U error * Wallets) :
  deserialize b = Ok i -> on_input b W f = (reply_of (f i).1, (f i).2).
Proof. intros Hb. unfold on_input. by rewrite Hb. Qed.

(** What is read back from an encoded value. *)
Lemma decoded {T A} `{!Bincode T, !BincodeOk T} (x : T) b (g : T -> A) (c : client St) :
  serialize x = Ok b ->
  (let? output := pret (map_err FromBincode (deserialize (T := T) b)) in pret (Ok (g output))) c
    = Ret (Ok (g x), c).
Proof. intros Hx. by erewrite ptry_Ok by by rewrite (deserialize_serialize _ _ Hx). Qed.

(** The encoding of a message fits in the client's free memory. *)
Definition fits {T} `{!Bincode T} (x : T) : Prop := forall b, serialize x = Ok b -> len b <= 2 ^ 16.

(** A command that encodes its input. *)
Lemma encoded_does {T A} `{!Bincode T} (i : T) (body : bytes -> prog (client St) (result A host_error))
    (P : spec A) :
  (forall b, serialize i = Ok b -> does (body b) P) ->
  does (let? b := pret (map_err FromBincode (serialize i)) in body b) (encoded i P).
Proof.
  intros Hb W s hp Hr. unfold encoded. destruct (serialize i) as [b|e].
  - destruct (Hb b eq_refl W s hp Hr) as (r & s' & W' & E & Hrest). exists r, s', W'.
    by erewrite ptry_Ok by done.
  - exists (Err (FromBincode e)), s, W. by erewrite ptry_Err by done.
Qed.

Lemma create_does : does create_wallet create_told.
Proof.
  apply (typed_does (U := CreateWalletOutput)); [done| |by intros; apply decoded].
  intros d W. cbn [answer]. by apply on_input_Ok, deserialize_serialize.
Qed.

Lemma remove_does i : fits (mkRemoveWalletInput i) -> does (remove_wallet i) (remove_told i).
Proof.
  intros Hf. apply encoded_does. intros b Hb.
  apply (typed_does (U := RemoveWalletOutput)); [by apply Hf| |done].
  intros d W. cbn [answer]. by apply on_input_Ok, deserialize_serialize.
Qed.

Lemma derive_does i path :
  fits (mkDeriveAddressInput i path) -> does (derive_address i path) (derive_told i path).
Proof.
  intros Hf. apply encoded_does. intros b Hb.
  apply (typed_does (U := DeriveAddressOutput)); [by apply Hf| |by intros; apply decoded].
  intros d W. cbn [answer]. by apply on_input_Ok, deserialize_serialize.
Qed.

Lemma sign_transaction_does i path ch n a v gp gs :
  fits (mkSignTransactionInput i path (mkEthTransaction ch n (Some a) v gp gs [])) ->
  does (sign_transaction i path ch n a v gp gs)
    (sign_told i path (mkEthTransaction ch n (Some a) v gp gs [])).
Proof.
  intros Hf. apply encoded_does. intros b Hb.
  apply (typed_does (U := SignTransactionOutput)); [by apply Hf| |by intros; apply decoded].
  intros d W. cbn [answer]. by apply on_input_Ok, deserialize_serialize.
Qed.

(** An address that is told has twenty bytes. *)
Lemma derive_told_len i path W W' a : derive_told i path W (Ok a) W' -> len a = 20.
Proof.
  unfold derive_told, encoded, settled, command_told.
  destruct (serialize (mkDeriveAddressInput i path)) as [b|e]; cbv beta; [|by intros [? _]].
  intros [(e & _ & ? & _)|(d & _ & _ & Hc)]; [done|]. destruct (_ <? _); [by destruct Hc as (? & ? & _)|].
  unfold spec_derive in Hc. cbn [fst] in Hc.
  destruct (find_wallet _ W _) as [ent|e]; cbn [result_bind] in Hc; [|by destruct Hc as (? & ? & _)].
  unfold address_of in Hc.
  destruct (xprv_of ent _) as [x|e]; cbn [result_bind di_hd_path] in Hc; [|by destruct Hc as (? & ? & _)].
  destruct (public_key_from_slice _) as [pk|e]; cbn [map_err result_bind] in Hc;
    [|by destruct Hc as (? & ? & _)].
  destruct (reply_of _) as [ob|e]; [|by destruct Hc as (? & ? & _)]. injection Hc as ->.
  cbn [do_address fst].
  pose proof (Keccak256_len (drop 1 (serialize_uncompressed pk))). unfold len in *.
  rewrite length_drop. lia.
Qed.

(** The messages of a command line fit. *)
Definition small (args : Cli.Command) : Prop :=
  match args with
  | Cli.CreateWallet => True
  | Cli.RemoveWallet o => fits (mkRemoveWalletInput (Cli.ro_wallet_id o))
  | Cli.DeriveAddress o => fits (mkDeriveAddressInput (Cli.ao_wallet_id o) (Cli.ao_hd_path o))
  | Cli.SignTransaction o =>
      fits (mkSignTransactionInput (Cli.to_wallet_id o) (Cli.to_hd_path o)
        (mkEthTransaction (Cli.to_chain_id o) (Cli.to_nonce o) (Some (Cli.to_to o))
           (Cli.to_value o) (Cli.to_gas_price o) (Cli.to_gas o) []))
  | Cli.Test => forall i, fits (mkDeriveAddressInput i workflow_path) /\
      forall a, len a = 20 -> fits (mkSignTransactionInput i workflow_path
        (mkEthTransaction 5 0 (Some a) 100 1000000000 21000 []))
  end.

Lemma printed_does {A} (m : prog (client St) (result A host_error)) (P : spec A) g :
  does m P -> does (let? a := m in pret (Ok (g a))) (printed P g).
Proof. intros Hm. apply does_followed_by; [done|]. intros a _. apply does_pret. Qed.

Lemma main_does args : small args -> does (main args) (main_told args).
Proof.
  intros Hs. destruct args as [|o|o|o|]; cbn [main main_told small] in *; apply printed_does.
  - apply create_does.
  - by apply remove_does.
  - by apply derive_does.
  - by apply sign_transaction_does.
  - apply does_followed_by; [apply create_does|]. intros i _. destruct (Hs i) as [Hd Ha].
    apply does_followed_by; [by apply derive_does|]. intros a (W & W' & Hda).
    apply does_followed_by; [|intros _ _; apply does_pret]. by eapply sign_transaction_does, Ha, derive_told_len.
Qed.

(** Runs of the client program, one after the other. *)
Fixpoint runs (lines : list Cli.Command)
    : prog (client St) (list (result Printed host_error)) :=
  match lines with
  | [] => pret []
  | args :: lines' => let* r := main args in let* rs := runs lines' in pret (r :: rs)
  end.

Fixpoint runs_told (lines : list Cli.Command) (W : Wallets) (rs : list (result Printed host_error))
    (W' : Wallets) : Prop :=
  match lines, rs with
  | [], [] => W' = W
  | args :: lines', r :: rs' => exists W1, main_told args W r W1 /\ runs_told lines' W1 rs' W'
  | _, _ => False
  end.

(** C5: the wallet program as its user sees it, on a storage on which nothing fails
    that does not have to, for keys of at most 64 bytes, key lists, wallets and
    messages that can be serialised, the inputs of every command line in at most
    2^16 bytes, with memory for two vectors in the client and every open session in
    a live context: any sequence of runs of the client, each with its context,
    session, vectors and operation, libteec, the generated entry points, the TA, and
    the database in the TEE's storage, prints what a map from identifiers to seeds
    prints. A wallet that was created is there in all later runs until it is
    removed, its addresses and signatures are the reference functions of its seed; a
    request that the map refuses ends in BadParameters, an answer of more than 1024
    bytes in ShortBuffer (and a wallet created or removed by it stays so); a TEE
    that gives no session has changed nothing. No run panics, not even on an error's
    text that is too long, and each leaves libteec and the client's memory as they
    were. *)
Theorem wallet_client_refines_map lines W s hp :
  ready W s -> Forall small lines ->
  exists rs s' W', runs lines (mkClient s hp) = Ret (rs, mkClient s' hp) /\
    kept s s' /\ ready W' s' /\ runs_told lines W rs W'.
Proof.
  intros Hr Hs. revert W s Hr. induction Hs as [|args lines Ha _ IH]; intros W s Hr.
  - by exists [], s, W.
  - destruct (main_does args Ha W s hp Hr) as (r & s1 & W1 & E1 & Hk1 & Hr1 & Ht1).
    destruct (IH W1 s1 Hr1) as (rs & s2 & W2 & E2 & Hk2 & Hr2 & Ht2).
    exists (r :: rs), s2, W2. cbn [runs]. erewrite pbind_Ret by exact E1.
    erewrite pbind_Ret by exact E2. split; [done|]. split; [by apply (state_kept_trans _ s1)|].
    split; [done|]. by exists W1.
Qed.

End Host.

(** ** The client and the TA on one board *)

Module WalletHostExamples.
Import RamStorage SecureDbExamples WalletExamples SharedTransport PlainUuids FirstFit LocalHeap.
#[local] Existing Instances ex_target ex_target_ok ex_memmove ex_memmove_ok keys_bincode
  keys_bincode_ok ex_iter ex_iter_ok ex_crates ex_crates_ok ex_random ex_random_ok
  ex_wallet_bincode ex_wallet_bincode_ok shared_transport shared_transport_ok first_fit
  first_fit_ok SharedFrame.shared_frame.

(** Encodings with lengths in front; nothing longer than 2^15 is encoded. *)
Definition bounded (b : bytes) : DbResult bytes :=
  if len b <? 2 ^ 15 then Ok b else Err BincodeError.
Definition framed (l : bytes) : bytes := len l :: l.
Definition unframe (b : bytes) : DbResult (bytes * bytes) :=
  match b with
  | n :: b' => Ok (take (Z.to_nat n) b', drop (Z.to_nat n) b')
  | [] => Err BincodeError
  end.

Lemma unframe_framed l rest : unframe (framed l ++ rest) = Ok (l, rest).
Proof. cbn. unfold len. by rewrite Nat2Z.id, take_app_length, drop_app_length. Qed.

Definition some_framed (a : option bytes) : bytes :=
  match a with Some a => a ++ [1] | None => [] end.
Definition unsome (b : bytes) : option bytes :=
  match b with [] => None | _ => Some (take (length b - 1) b) end.

Lemma unsome_framed a : unsome (some_framed a) = a.
Proof.
  destruct a as [a|]; [|done]. unfold unsome, some_framed.
  destruct (a ++ [1]) eqn:E; [by destruct a|]. rewrite <- E, length_app. cbn [length].
  by rewrite Nat.add_sub, take_app_length.
Qed.

Lemma bounded_Ok b b' : bounded b = Ok b' -> b' = b /\ len b < 2 ^ 15.
Proof. unfold bounded. destruct (len b <? 2 ^ 15) eqn:Hb; [|done]. reflect_bool. by intros [= <-]. Qed.

#[local] Instance host_create_in : Bincode CreateWalletInput :=
  {| serialize _ := Ok []; deserialize _ := Ok mkCreateWalletInput |}.
#[local] Instance host_create_out : Bincode CreateWalletOutput := {|
  serialize o := bounded (co_wallet_id o :: co_mnemonic o);
  deserialize b :=
    match b with i :: m => Ok (mkCreateWalletOutput i m) | [] => Err BincodeError end |}.
#[local] Instance host_remove_in : Bincode RemoveWalletInput := {|
  serialize i := bounded [ri_wallet_id i];
  deserialize b := match b with i :: _ => Ok (mkRemoveWalletInput i) | [] => Err BincodeError end |}.
#[local] Instance host_remove_out : Bincode RemoveWalletOutput :=
  {| serialize _ := Ok []; deserialize _ := Ok mkRemoveWalletOutput |}.
#[local] Instance host_derive_in : Bincode DeriveAddressInput := {|
  serialize i := bounded (di_wallet_id i :: di_hd_path i);
  deserialize b :=
    match b with i :: p => Ok (mkDeriveAddressInput i p) | [] => Err BincodeError end |}.
#[local] Instance host_derive_out : Bincode DeriveAddressOutput := {|
  serialize o := bounded (framed (do_address o) ++ do_public_key o);
  deserialize b := result_map (fun x => mkDeriveAddressOutput x.1 x.2) (unframe b) |}.
#[local] Instance host_sign_in : Bincode SignTransactionInput := {|
  serialize i :=
    let t := si_transaction i in
    bounded (si_wallet_id i :: chain_id t :: nonce t :: value t :: gas_price t :: gas t ::
             framed (si_hd_path i) ++ framed (data t) ++ some_framed (to t));
  deserialize b :=
    match b with
    | i :: ch :: n :: v :: gp :: gs :: b' =>
        try x := unframe b' in
        try y := unframe x.2 in
        Ok (mkSignTransactionInput i x.1 (mkEthTransaction ch n (unsome y.2) v gp gs y.1))
    | _ => Err BincodeError
    end |}.
#[local] Instance host_sign_out : Bincode SignTransactionOutput := {|
  serialize o := bounded (so_signature o); deserialize b := Ok (mkSignTransactionOutput b) |}.

Abbreviation board := (Local.state (G:=ram) (Ctx:=unit)).
Definition wallet_uuid : TEEC_UUID :=
  mkTeecUuid 0xbe2dc9a0 0x02b4 0x4b33 [0xba; 0x21; 0x99; 0x64; 0xdb; 0xdf; 0x15; 0x73].

Abbreviation opens_ta := open_entry.
Abbreviation invokes_ta := (invoke_entry ex_type ex_debug).
Abbreviation closes_ta := close_entry.

#[local] Instance board_api : TeecApi board :=
  Local.local_api wallet_uuid opens_ta invokes_ta closes_ta.
#[local] Instance board_api_ok : TeecApiOk board :=
  Local.local_api_ok wallet_uuid opens_ta invokes_ta closes_ta.
#[local] Existing Instances Local.local_platform local_memory.
#[local] Instance board_ok : PlatformOk wallet_uuid opens_ta invokes_ta closes_ta :=
  Local.local_platform_ok wallet_uuid opens_ta invokes_ta closes_ta.
#[local] Instance board_memory_ok : OwnMemoryOk board :=
  local_memory_ok wallet_uuid opens_ta invokes_ta closes_ta.

Definition board0 : board := Local.mkState ∅ (mkRam ∅ ∅) ∅ ∅ ∅.

Lemma bounded_ok {T} `{!Bincode T} (enc : T -> bytes) :
  (forall x, serialize x = bounded (enc x)) -> (forall x, deserialize (enc x) = Ok x) -> BincodeOk T.
Proof.
  intros Hs Hd. split; intros x b; rewrite Hs; intros [-> Hb]%bounded_Ok; [apply Hd|].
  change (2 ^ (ptr_bits - 1)) with (2 ^ 63). lia.
Qed.

Lemma bounded_fits {T} `{!Bincode T} (x : T) b0 : serialize x = bounded b0 -> fits x.
Proof. intros Hs b. rewrite Hs. intros [-> Hb]%bounded_Ok. lia. Qed.

#[local] Instance host_create_in_ok : BincodeOk CreateWalletInput.
Proof. split; intros [] b [= <-]; done. Qed.
#[local] Instance host_create_out_ok : BincodeOk CreateWalletOutput.
Proof. eapply bounded_ok; [done|by intros []]. Qed.
#[local] Instance host_remove_in_ok : BincodeOk RemoveWalletInput.
Proof. eapply bounded_ok; [done|by intros []]. Qed.
#[local] Instance host_derive_in_ok : BincodeOk DeriveAddressInput.
Proof. eapply bounded_ok; [done|by intros []]. Qed.
#[local] Instance host_derive_out_ok : BincodeOk DeriveAddressOutput.
Proof.
  apply (bounded_ok (fun o => framed (do_address o) ++ do_public_key o)); intros [a k]; [done|].
  unfold deserialize, host_derive_out. by rewrite unframe_framed.
Qed.
#[local] Instance host_sign_in_ok : BincodeOk SignTransactionInput.
Proof.
  eapply bounded_ok; [done|]. intros [i p [ch n a v gp gs d]].
  unfold deserialize, host_sign_in.
  cbn [si_wallet_id si_hd_path si_transaction chain_id nonce to value gas_price gas data].
  rewrite unframe_framed. cbn [result_bind snd fst]. rewrite unframe_framed. cbn [result_bind snd fst].
  by rewrite unsome_framed.
Qed.
#[local] Instance host_sign_out_ok : BincodeOk SignTransactionOutput.
Proof. eapply bounded_ok; [done|by intros []]. Qed.

Lemma board_ready : ready ex_type ex_keys ∅ board0.
Proof. 
  split; [by intros h x Hx| |exact no_wallets].
  apply (space_le 8); [lia|]. apply space_free. intros x _. apply lookup_empty.
Qed.

(** Create a wallet, use it, remove it, remove it again, and the workflow of the tests. *)
Definition ex_lines : list Cli.Command :=
  [Cli.CreateWallet; Cli.DeriveAddress (Cli.mkDeriveAddressOpt 7 workflow_path);
   Cli.RemoveWallet (Cli.mkRemoveWalletOpt 7); Cli.RemoveWallet (Cli.mkRemoveWalletOpt 7); Cli.Test].

Lemma ex_small : Forall small ex_lines.
Proof.
  repeat apply List.Forall_cons; try apply List.Forall_nil; cbn [small];
    [done|by eapply bounded_fits..|].
  intros i. split; [by eapply bounded_fits|]. intros a _. by eapply bounded_fits.
Qed.

Definition printed_lines : list (option Printed) :=
  match runs ex_lines (mkClient board0 ∅) with
  | Ret (rs, _) => (fun r => match r with Ok x => Some x | Err _ => None end) <$> rs
  | _ => []
  end.

Lemma wallet_client_refines_map_witness :
  exists rs s' W', runs ex_lines (mkClient board0 ∅) = Ret (rs, mkClient s' ∅) /\
    runs_told ex_debug wallet_uuid ex_lines ∅ rs W' /\
    printed_lines = [Some (WalletId 7); Some (Address (zeros 20)); Some WalletRemoved; None;
                     Some TestsPassed].
Proof.
  assert (Teec.parse_str UUID = Ok (Teec.mkUuid
    (mkTeeUuid 0xbe2dc9a0 0x02b4 0x4b33 [0xba; 0x21; 0x99; 0x64; 0xdb; 0xdf; 0x15; 0x73]))) as Hu
    by (vm_compute; reflexivity).
  assert (serialize mkCreateWalletInput = Ok []) as Hc by done.
  destruct (wallet_client_refines_map ex_type ex_debug ex_keys ex_keys_fit ex_keys_short ex_ids ex_wallets_fit
    wallet_uuid _ Hu eq_refl Hc ex_lines ∅ board0 ∅ board_ready ex_small)
    as (rs & s' & W' & E & _ & _ & Ht).
  exists rs, s', W'. split; [exact E|]. split; [exact Ht|]. vm_compute. reflexivity.
Defined.

End WalletHostExamples.
