(* ===== verification/StorageHost.v ===== *)
(** * StorageHost: the client of the secure-storage TA

    Models [examples/ca/secure_storage-rs/src/main.rs]: it stores an object, reads it back,
    compares and deletes it, and then creates a second object or deletes it when it is
    there.  The local arrays and vectors are vectors of [ClientHeap]; the printed lines are
    left out but for the outcome of the comparison, which is the result. *)

From S2P Require Import Prelude Uuids StorageTa TeeParams TeecDefines TeecError TeecParams TeecSession.
From S2P Require Import ClientApp ClientHeap.

Definition TEST_OBJECT_SIZE : Z := 7000.

(** [proto::secure_storage::UUID]. *)
Definition UUID : string := "1cd6d392-bdab-11eb-9082-abc902ac5cd4".

(** [CString::new(s).map_err(..)?.into_bytes_with_nul()]: no zero byte inside. *)
Definition c_string (s : bytes) : Result bytes :=
  if bool_decide (0 ∈ s) then Err (Error.from_kind ErrorKind.BadParameters) else Ok (s ++ [0]).

Section Host.
Context `{!Target} {St : Type} `{!TeecApi St, !OwnMemory St, !ClientAlloc}.

Abbreviation app A := (prog (client St) A).

Definition read_secure_object (session : Session) (obj_id obj_data : byte_slice) : app (Result unit) :=
  let p0 := ParamTmpRefOps.new_input obj_id in
  let p1 := ParamTmpRefOps.new_output obj_data in
  let operation := OperationOps.new 0 p0 p1 mkParamNone mkParamNone in
  let* (r, _) := invoke_command session (StorageTa.Command.into StorageTa.Command.Read)
                   (op_raw operation) in
  let? _ := pret r in
  pret (Ok tt).

Definition write_secure_object (session : Session) (obj_id obj_data : byte_slice) : app (Result unit) :=
  let p0 := ParamTmpRefOps.new_input obj_id in
  let p1 := ParamTmpRefOps.new_input obj_data in
  let operation := OperationOps.new 0 p0 p1 mkParamNone mkParamNone in
  let* (r, _) := invoke_command session (StorageTa.Command.into StorageTa.Command.Write)
                   (op_raw operation) in
  let? _ := pret r in
  pret (Ok tt).

Definition delete_secure_object (session : Session) (obj_id : byte_slice) : app (Result unit) :=
  let p0 := ParamTmpRefOps.new_input obj_id in
  let operation := OperationOps.new 0 p0 mkParamNone mkParamNone mkParamNone in
  let* (r, _) := invoke_command session (StorageTa.Command.into StorageTa.Command.Delete)
                   (op_raw operation) in
  let? _ := pret r in
  pret (Ok tt).

(** A local value, as a slice. *)
Definition with_local {T} (l : bytes) (body : byte_slice -> app T) : app T :=
  with_buffer l (fun p => body (mkSlice p (len l))).

(** The bytes of a local array. *)
Definition contents (a : byte_slice) : app bytes :=
  prefix_to_vec (as_ptr a) (slice_len a) (slice_len a).

(** [a.iter().zip(b.iter()).all(|(a, b)| a == b)]. *)
Definition all_equal (a b : bytes) : bool := forallb (fun '(x, y) => x =? y) (combine a b).

(** The second object: made when it is not there, and deleted when it is. *)
Definition second_object (session : Session) (obj2_id read_data : byte_slice) : app (Result unit) :=
  let* r := read_secure_object session obj2_id read_data in
  match r with
  | Err e =>
      if negb (bool_decide (Error.kind e = ErrorKind.ItemNotFound)) then pret (Err e)
      else
        with_local (replicate (Z.to_nat TEST_OBJECT_SIZE) 0xB1) (fun obj2_data =>
        let? _ := write_secure_object session obj2_id obj2_data in
        pret (Ok tt))
  | Ok _ =>
      let? _ := delete_secure_object session obj2_id in
      pret (Ok tt)
  end.

(** [main] from the first identifier on. *)
Definition test_objects (session : Session) : app (Result bool) :=
  let? obj1_id := pret (c_string (str_bytes "object#1")) in
  with_local obj1_id (fun obj1_id =>
  with_local (replicate (Z.to_nat TEST_OBJECT_SIZE) 0xA1) (fun obj1_data =>
  with_local (zeros TEST_OBJECT_SIZE) (fun read_data =>
  let? _ := write_secure_object session obj1_id obj1_data in
  let? _ := read_secure_object session obj1_id read_data in
  let* written := contents obj1_data in
  let* read := contents read_data in
  let read_correctly := all_equal written read in
  let? _ := delete_secure_object session obj1_id in
  let? obj2_id := pret (c_string (str_bytes "object#2")) in
  with_local obj2_id (fun obj2_id =>
  let? _ := second_object session obj2_id read_data in
  pret (Ok read_correctly))))).

Definition main `{!UuidCrate} : app (Result bool) :=
  let? ctx := context_new in
  with_context ctx (
    let? uuid := pret (Teec.parse_str UUID) in
    let? session := open_session ctx (raw_uuid uuid) in
    with_session session (test_objects session)).

End Host.
