(* ===== verification/StorageHostSpec.v ===== *)
(** * StorageHostSpec: what the storage client leaves behind

    [StorageHost] over the interfaces of [ClientApp] and [ClientHeap], with the TA of
    [StorageTa] behind its generated entry points ([StorageTaSpec.invocation_refines]). *)

From S2P Require Import Prelude TeeDefines UteeError Memory Params EntryPoints Storage.
From S2P Require Import ParamsSpec StorageSpec TaApp StorageTa StorageTaSpec Uuids.
From S2P Require Import TeeParams TeecDefines TeecError TeecParams TeecParamsSpec TeecSession.
From S2P Require Import ClientApp ClientHeap StorageHost.

Section Host.
Context `{!Target, !TargetOk, !TeeMemMove, !TeeMemMoveOk}.
Context {Tst : Type} `{!TrustedStorage Tst, !TrustedStorageOk Tst}.
Context `{!TrustedStorageReliable Tst, !TrustedStorageWrite Tst}.
Context {St : Type} `{!TeecApi St, !TeecApiOk St, !Platform St Tst unit}.
Context `{!OwnMemory St, !OwnMemoryOk St, !ClientAlloc, !ClientAllocOk}.
Context `{!Transport, !TransportOk, !TransportFrame, !UuidCrate}.

Abbreviation Objects := (gmap bytes bytes).

Definition open_entry : prog (ta_state (G:=Tst) (Ctx:=unit)) (Z * option Z) :=
  open_unboxed from_raw_tuple StorageTa.open_session (TEE_PARAM_TYPES 0 0 0 0).
Definition invoke_entry : Z -> Z -> Z -> prog (ta_state (G:=Tst) (Ctx:=unit)) Z :=
  invoke_unboxed from_raw_tuple StorageTa.invoke_command.
Definition close_entry : Z -> prog (ta_state (G:=Tst) (Ctx:=unit)) unit :=
  close_unboxed StorageTa.close_session.

Context (u : TEEC_UUID) `{PO : !PlatformOk u open_entry invoke_entry close_entry}.

(** ** The TA *)

Definition step (r : StorageTaSpec.request) (W : Objects) (rp : reply) (W' : Objects) : Prop :=
  panics r = false /\ answer r W = (rp, W').

Definition stands : gmap Z unit -> Z -> Tst -> gmap Z unit -> Objects -> Prop :=
  unboxed_stands (fun g W => represents W g).

Lemma storage_steps : entry_steps step carries_call gives stands invoke_entry.
Proof.
  intros bs ptr g bs' W r cmd types w [-> Hr] Hc (? & ? & Hp & _).
  destruct (invocation_refines r cmd types w W g bs Hr Hc Hp) as (code & g' & w' & E & Hg & Hr').
  exists code, (mkTa g' w' bs), (answer r W).1, (answer r W).2.
  split; [exact E|]. split; [split; [done|by apply surjective_pairing]|]. by split.
Qed.

(** ** The three requests *)

Section Requests.
Context (bs : gmap Z unit) (h l : Z).

Abbreviation at_storage := (at_session stands bs h).
Abbreviation session := (mkSession h l).

Lemma request_at r cmd op m W :
  carries r cmd (op_paramTypes op) (deliver m op) -> panics r = false ->
  at_storage (invoke_command session cmd op) m W
    (fun res m' W' => exists w code orig, gives (answer r W).1 (deliver m op) w code /\
       res = (teec_check_with_origin code orig, (collect m op w).2) /\
       m' = (collect m op w).1 /\ W' = (answer r W).2).
Proof.
  intros Hc Hp. eapply at_weaken;
    [|exact (at_invoke step carries_call gives stands open_entry invoke_entry close_entry u bs h l
               r cmd op m W storage_steps Hc
               (ex_intro _ _ (ex_intro _ _ (conj Hp (surjective_pairing _)))))].
  intros res m' W' (rp & w & code & orig & [_ Ha] & Hg & -> & ->). exists w, code, orig.
  by rewrite Ha.
Qed.

(** The client's error for a refusal. *)
Definition refused_as (k : ErrorKind) (r : Result unit) : Prop :=
  exists e, r = Err e /\ Error.kind e = k.

Lemma refusal k code orig :
  code = UteeError.Error.raw_code (UteeError.Error.from_kind k) ->
  (k = UteeError.ErrorKind.ItemNotFound \/ k = UteeError.ErrorKind.ShortBuffer) ->
  exists e, teec_check_with_origin code orig = Err e /\
    Error.kind e = match k with
                   | UteeError.ErrorKind.ItemNotFound => ErrorKind.ItemNotFound
                   | _ => ErrorKind.ShortBuffer
                   end.
Proof. by intros -> [-> | ->]; eexists. Qed.

Lemma write_at_storage m W p q oid data :
  vector_at m p oid -> vector_at m q data -> panics (ReqWrite oid data) = false ->
  at_storage (write_secure_object session (mkSlice p (len oid)) (mkSlice q (len data))) m W
    (fun r m' W' => r = Ok tt /\ m' = m /\ W' = <[oid := data]> W).
Proof.
  intros Hp Hq Hlen. unfold write_secure_object. set (op := op_raw _).
  assert (op_slots op = [(ParamType.MemrefTempInput, from_tmpref (mkTmpRef p (len oid)));
    (ParamType.MemrefTempInput, from_tmpref (mkTmpRef q (len data)));
    (ParamType.None_, to_raw mkParamNone); (ParamType.None_, to_raw mkParamNone)]) as Hs
    by (unfold op; by rewrite op_slots_new).
  eapply at_pbind; [apply (request_at (ReqWrite oid data)); [|done]|].
  - split; [apply deliver_length|]. split; [done|]. split; [done|].
    split; (eapply vector_delivered; [by rewrite Hs|done]).
  - intros [r raw] m' W' (w & code & orig & [-> ->] & [= -> ->] & -> & ->). apply at_pret.
    split; [done|]. split; [|done]. apply collect_nothing; [|done].
    intros i t x Hi _. rewrite Hs in Hi. destruct i as [|[|[|[|i]]]]; cbn in Hi; [..|done];
      by injection Hi as <- <-.
Qed.

Lemma delete_at_storage m W p oid d :
  vector_at m p oid -> W !! oid = Some d -> panics (ReqDelete oid) = false ->
  at_storage (delete_secure_object session (mkSlice p (len oid))) m W
    (fun r m' W' => r = Ok tt /\ m' = m /\ W' = delete oid W).
Proof.
  intros Hp HW Hlen. unfold delete_secure_object. set (op := op_raw _).
  assert (op_slots op = [(ParamType.MemrefTempInput, from_tmpref (mkTmpRef p (len oid)));
    (ParamType.None_, to_raw mkParamNone); (ParamType.None_, to_raw mkParamNone);
    (ParamType.None_, to_raw mkParamNone)]) as Hs by (unfold op; by rewrite op_slots_new).
  eapply at_pbind; [apply (request_at (ReqDelete oid)); [|done]|].
  - split; [apply deliver_length|]. split; [done|]. split; [done|].
    eapply vector_delivered; [by rewrite Hs|done].
  - intros [r raw] m' W'. cbn [answer]. rewrite HW.
    intros (w & code & orig & [-> ->] & [= -> ->] & -> & ->). apply at_pret.
    split; [done|]. split; [|done]. apply collect_nothing; [|done].
    intros i t x Hi _. rewrite Hs in Hi. destruct i as [|[|[|[|i]]]]; cbn in Hi; [..|done];
      by injection Hi as <- <-.
Qed.

(** What a read into [cap] bytes at [q] does. *)
Definition read_told (W : Objects) (oid : bytes) (q cap : Z) (m : mem) (r : Result unit) (m' : mem)
    (W' : Objects) : Prop :=
  W' = W /\ same_outside m m' q cap /\
  match W !! oid with
  | None => refused_as ErrorKind.ItemNotFound r
  | Some d => if cap <? len d then refused_as ErrorKind.ShortBuffer r
              else r = Ok tt /\ holds_at m' q d
  end.

Lemma read_at_storage m W p oid q cap :
  vector_at m p oid -> 0 < q -> 0 <= cap -> q + cap < 2 ^ ptr_bits -> range_mapped m q cap ->
  panics (ReqRead oid cap) = false ->
  at_storage (read_secure_object session (mkSlice p (len oid)) (mkSlice q cap)) m W
    (read_told W oid q cap m).
Proof.
  intros Hp Hq Hcap Hqe Hqm Hlen. unfold read_secure_object. set (op := op_raw _).
  assert (op_slots op = [(ParamType.MemrefTempInput, from_tmpref (mkTmpRef p (len oid)));
    (ParamType.MemrefTempOutput, from_tmpref (mkTmpRef q cap));
    (ParamType.None_, to_raw mkParamNone); (ParamType.None_, to_raw mkParamNone)]) as Hs
    by (unfold op; by rewrite op_slots_new).
  pose proof (array_deliverable m ParamType.MemrefTempOutput q cap eq_refl Hq Hcap Hqe Hqm) as Hout.
  assert (op_slots op !! 1%nat = Some (ParamType.MemrefTempOutput, from_tmpref (mkTmpRef q cap)))
    as S1 by by rewrite Hs.
  assert (forall j t x, op_slots op !! j = Some (t, x) -> is_temp t = true -> is_output t = true ->
    j = 1%nat /\ x = from_tmpref (mkTmpRef q cap)) as Honly.
  { intros j t x Hj _ Ho. rewrite Hs in Hj. destruct j as [|[|[|[|j]]]]; cbn in Hj; [..|done];
      by injection Hj as <- <-. }
  eapply at_pbind; [apply (request_at (ReqRead oid cap)); [|done]|].
  { split; [apply deliver_length|]. split; [done|]. split; [done|]. split.
    - eapply vector_delivered; [by rewrite Hs|done].
    - exact (output_delivered m op 1 _ S1 Hout). }
  intros [r raw] m' W' (w & code & orig & Hg & [= -> ->] & -> & ->). apply at_passed.
  destruct (slot_arrives m op 1 _ S1) as [x Hx].
  assert ((forall d, gives (Data d) (deliver m op) w code -> len d <= cap ->
    same_outside (wmem (deliver m op)) (wmem w) (memref_buffer x) cap) /\
    (forall k, gives (Refused k) (deliver m op) w code -> wmem w = wmem (deliver m op))) as [Hdata Href].
  { split; [|by intros k [_ ->]]. intros d (_ & _ & x' & Hx' & _ & Ho & _) Hd y Hy.
    rewrite Hx in Hx'. injection Hx' as <-. apply Ho. lia. }
  assert (same_outside (wmem (deliver m op)) (wmem w) (memref_buffer x) cap ->
    same_outside m (collect m op w).1 q cap) as Hsame.
  { intros Ho y Hy. apply collect_outside.
    - intros z Hz. apply Ho. exact (Hz 1%nat _ _ x S1 eq_refl eq_refl Hx).
    - intros i t z Hi Ht Hz. by destruct (Honly i t z Hi Ht Hz) as [_ ->]. }
  unfold read_told. cbn [answer] in *. destruct (W !! oid) as [d|] eqn:HW.
  2:{ split; [done|]. split; [by apply Hsame; rewrite (Href _ Hg)|]. destruct Hg as [Hc _].
      destruct (refusal _ _ orig Hc) as (e & -> & He); [by left|]. by exists e. }
  destruct (cap <? len d) eqn:Hd; cbn [fst] in *; reflect_bool; (split; [done|]).
  - split; [by apply Hsame; rewrite (Href _ Hg)|]. destruct Hg as [Hc _].
    destruct (refusal _ _ orig Hc) as (e & -> & He); [by right|]. by exists e.
  - split; [apply Hsame; by eapply Hdata|].
    destruct Hg as (-> & Hr & x' & Hx' & Hh & _). rewrite Hx in Hx'. injection Hx' as <-.
    split; [done|]. refine (output_collected m op w 1 _ x d S1 Hout Hx Hr Hh Hd _).
    intros j t y Hne Hj Ht Ho. by destruct (Honly j t y Hj Ht Ho) as [-> _].
Qed.

(** ** The client's vectors *)

Lemma vector_after m p l0 q l' :
  vector_at m p l0 -> (forall x, q <= x < q + len l' -> m !! x = None) ->
  vector_at (buffer_at q l' ∪ m) p l0.
Proof. intros [Hp He Hs Hl] Hf. split; [done..|]. by apply array_after. Qed.

(** What lies in free memory can change. *)
Lemma vector_kept m m' p l0 q n :
  vector_at m p l0 -> (forall x, q <= x < q + n -> m !! x = None) -> same_outside m m' q n ->
  vector_at m' p l0.
Proof.
  intros [Hp He Hs Hl] Hf Ho. split; [done..|]. intros i Hi.
  destruct (holds_at_mapped m p l0 Hl (p + i)) as [b Hb]; [lia|].
  rewrite Ho, Hl by (try done; intros Hx; by rewrite Hf in Hb). done.
Qed.

Lemma outside_beside m m' q l' n :
  len l' = n -> same_outside (buffer_at q l' ∪ m) m' q n -> same_outside m m' q n.
Proof.
  intros <- Ho x Hx. rewrite Ho by done. by rewrite lookup_union_r by by apply buffer_at_outside.
Qed.

Lemma outside_trans m1 m2 m3 q n :
  same_outside m1 m2 q n -> same_outside m2 m3 q n -> same_outside m1 m3 q n.
Proof. intros H12 H23 x Hx. by rewrite H23, H12. Qed.

Lemma space_outside k m m' q n :
  range_mapped m q n -> same_outside m m' q n -> space k m -> space k m'.
Proof.
  intros Hm Ho. apply space_mono. intros x Hx. rewrite Ho; [done|].
  intros Hq. destruct (Hm x Hq) as [b Hb]. congruence.
Qed.

Lemma at_local {T} n v (body : byte_slice -> prog (client St) T) m a post :
  space (S n) m -> len v <= 2 ^ 16 ->
  (forall p, (forall x, p <= x < p + len v -> m !! x = None) ->
     vector_at (buffer_at p v ∪ m) p v -> space n (buffer_at p v ∪ m) ->
     at_storage (body (mkSlice p (len v))) (buffer_at p v ∪ m) a
       (fun r m' a' => post r (dropped p (len v) m') a')) ->
  at_storage (with_local v body) m a post.
Proof.
  intros Hs Hv Hb. apply (at_buffer stands bs h n); [done..|]. intros p Hp Hpe Hf.
  apply Hb; [done| |by apply space_put]. split; [done..|lia|apply array_holds].
Qed.

(** ** The second object *)

Definition id2 : bytes := str_bytes "object#2" ++ [0].
Definition data2 : bytes := replicate (Z.to_nat TEST_OBJECT_SIZE) 0xB1.

(** It is made when it is not there, and deleted when it is; one that is too long stays. *)
Definition toggled (W : Objects) : Objects :=
  match W !! id2 with
  | None => <[id2 := data2]> W
  | Some d => if TEST_OBJECT_SIZE <? len d then W else delete id2 W
  end.

Definition too_long (W : Objects) : bool :=
  match W !! id2 with Some d => TEST_OBJECT_SIZE <? len d | None => false end.

Definition passes {T : Type} (W : Objects) (x : T) (r : Result T) : Prop :=
  if too_long W then exists e, r = Err e /\ Error.kind e = ErrorKind.ShortBuffer else r = Ok x.

Lemma second_at_storage m W p q :
  vector_at m p id2 -> 0 < q -> q + TEST_OBJECT_SIZE < 2 ^ ptr_bits ->
  range_mapped m q TEST_OBJECT_SIZE -> (forall x, q <= x < q + TEST_OBJECT_SIZE -> ~ p <= x < p + len id2) ->
  space 1 m ->
  at_storage (second_object session (mkSlice p (len id2)) (mkSlice q TEST_OBJECT_SIZE)) m W
    (fun r m' W' => same_outside m m' q TEST_OBJECT_SIZE /\ W' = toggled W /\ passes W tt r).
Proof.
  intros Hp Hq Hqe Hqm Hap Hsp.
  eapply at_pbind; [by apply (read_at_storage m W p id2 q TEST_OBJECT_SIZE)|].
  intros r m' W' (-> & Ho & Hr). unfold toggled, passes, too_long.
  assert (vector_at m' p id2) as Hp'.
  { destruct Hp as [Hp1 Hp2 Hp3 Hp4]. split; [done..|]. intros i Hi. rewrite Ho, Hp4; [done..|].
    intros Hx. apply (Hap (p + i)); [done|lia]. }
  destruct (W !! id2) as [d|] eqn:HW.
  - destruct (TEST_OBJECT_SIZE <? len d).
    + destruct Hr as (e & -> & He). cbv iota. rewrite bool_decide_false by (rewrite He; done).
      apply at_pret. split; [done|]. split; [done|]. by exists e.
    + destruct Hr as [-> _]. cbv iota.
      eapply at_ptry; [by apply (delete_at_storage m' W p id2 d)| |].
      * intros x m2 W2 (_ & -> & ->). by apply at_pret.
      * by intros e m2 W2 (? & _).
  - destruct Hr as (e & -> & He). cbv iota. rewrite bool_decide_true by done. cbn [negb].
    apply (at_local 0); [by eapply space_outside|done|]. intros p2 Hf Hp2 _.
    eapply at_ptry; [apply (write_at_storage _ W p p2 id2 data2); [by apply vector_after|done|done]| |].
    + intros x m2 W2 (_ & -> & ->). apply at_pret. split; [|done].
      replace (dropped _ _ _) with m'; [done|]. symmetry. by apply (filter_buffer p2 data2).
    + by intros e2 m2 W2 (? & _).
Qed.

(** ** The run *)

Definition id1 : bytes := str_bytes "object#1" ++ [0].
Definition data1 : bytes := replicate (Z.to_nat TEST_OBJECT_SIZE) 0xA1.

Lemma all_equal_refl v : all_equal v v = true.
Proof. unfold all_equal. induction v as [|x v IH]; [done|]. cbn. by rewrite Z.eqb_refl, IH. Qed.

(** From the write of the first object on, with the three arrays in place. *)
Definition with_arrays (obj1_id obj1_data read_data : byte_slice) : prog (client St) (Result bool) :=
  let? _ := write_secure_object session obj1_id obj1_data in
  let? _ := read_secure_object session obj1_id read_data in
  let* written := contents obj1_data in
  let* read := contents read_data in
  let read_correctly := all_equal written read in
  let? _ := delete_secure_object session obj1_id in
  let? obj2_id := pret (c_string (str_bytes "object#2")) in
  with_local obj2_id (fun obj2_id =>
  let? _ := second_object session obj2_id read_data in
  pret (Ok read_correctly)).

Lemma arrays_at_storage m0 W p d q :
  let m := buffer_at q (zeros TEST_OBJECT_SIZE) ∪ m0 in
  vector_at m0 p id1 -> vector_at m0 d data1 ->
  (forall x, q <= x < q + TEST_OBJECT_SIZE -> m0 !! x = None) ->
  vector_at m q (zeros TEST_OBJECT_SIZE) -> space 2 m ->
  at_storage (with_arrays (mkSlice p (len id1)) (mkSlice d (len data1)) (mkSlice q TEST_OBJECT_SIZE)) m W
    (fun r m' W' => same_outside m m' q TEST_OBJECT_SIZE /\ W' = toggled (delete id1 W) /\
       passes (delete id1 W) true r).
Proof.
  intros m Hp Hd Hf [Hq Hqe _ Hqm] Hsp. rewrite len_zeros in Hqe by done.
  assert (len (zeros TEST_OBJECT_SIZE) = TEST_OBJECT_SIZE) as Hz by by rewrite len_zeros by done.
  assert (range_mapped m q TEST_OBJECT_SIZE) as Hmap by (rewrite <- Hz; by apply holds_at_mapped).
  assert (vector_at m p id1) as Hpm by (apply vector_after; [done|by rewrite Hz]).
  assert (vector_at m d data1) as Hdm by (apply vector_after; [done|by rewrite Hz]).
  eapply at_ptry; [by apply write_at_storage| |by intros e m2 W2 (? & _)]. intros x m2 W2 (_ & -> & ->).
  eapply at_ptry; [by apply (read_at_storage m _ p id1 q TEST_OBJECT_SIZE)| |].
  2:{ intros e m2 W2 (_ & _ & Hr). rewrite lookup_insert_eq in Hr. by destruct Hr. }
  intros y m2 W2 (-> & Ho & Hr). rewrite lookup_insert_eq in Hr. destruct Hr as [_ Hread].
  assert (same_outside m0 m2 q TEST_OBJECT_SIZE) as Ho0 by by eapply outside_beside.
  pose proof (vector_kept m0 m2 p id1 q _ Hp Hf Ho0) as Hp2.
  pose proof (vector_kept m0 m2 d data1 q _ Hd Hf Ho0) as Hd2.
  eapply at_pbind; [apply (at_prefix stands bs h d (len data1) data1 m2 _
    (fun v m' W' => v = data1 /\ m' = m2 /\ W' = <[id1 := data1]> W)); [done|apply Hd2|done]|].
  intros v ? ? (-> & -> & ->).
  eapply at_pbind; [apply (at_prefix stands bs h q TEST_OBJECT_SIZE data1 m2 _
    (fun v m' W' => v = data1 /\ m' = m2 /\ W' = <[id1 := data1]> W)); [done..|]|].
  { done. }
  intros v ? ? (-> & -> & ->). rewrite all_equal_refl.
  eapply at_ptry; [apply (delete_at_storage m2 _ p id1 data1); [done|apply lookup_insert_eq|done]| |
    by intros e m3 W3 (? & _)].
  intros z m3 W3 (_ & -> & ->). rewrite delete_insert_eq.
  apply (at_local 1 id2); [by eapply space_outside|done|]. intros p2 Hf2 Hp3 Hsp3.
  assert (range_mapped m2 q TEST_OBJECT_SIZE) as Hmap2
    by (change TEST_OBJECT_SIZE with (len data1); by apply holds_at_mapped).
  assert (forall m', same_outside (buffer_at p2 id2 ∪ m2) m' q TEST_OBJECT_SIZE ->
    same_outside m (dropped p2 (len id2) m') q TEST_OBJECT_SIZE) as Hback.
  { intros m' Hm'. apply (outside_trans _ m2); [done|]. by apply dropped_outside. }
  eapply at_ptry; [apply second_at_storage; [exact Hp3|done|done| | |exact Hsp3]| |].
  - intros x' Hx'. apply lookup_union_is_Some. right. by apply Hmap2.
  - intros x' Hx' Hx2. specialize (Hf2 x' Hx2). destruct (Hmap2 x' Hx') as [b Hb]. congruence.
  - intros [] m3 W3 (Ho3 & -> & Hr). apply at_pret. split; [by apply Hback|]. split; [done|].
    unfold passes in *. destruct (too_long _); [by destruct Hr as (? & ? & _)|done].
  - intros e m3 W3 (Ho3 & -> & Hr). split; [by apply Hback|]. split; [done|].
    unfold passes in *. destruct (too_long _); [|done]. destruct Hr as (e' & [= <-] & He). by exists e.
Qed.

Lemma run_at_storage m W :
  space 5 m ->
  at_storage (test_objects session) m W
    (fun r m' W' => m' = m /\ W' = toggled (delete id1 W) /\ passes (delete id1 W) true r).
Proof.
  intros Hsp. apply (at_local 4 id1); [done..|]. intros p Hf Hp Hsp1.
  apply (at_local 3 data1); [done..|]. intros d Hfd Hd Hsp2.
  apply (at_local 2 (zeros TEST_OBJECT_SIZE)); [done..|]. rewrite len_zeros by done.
  intros q Hfq Hq Hsp3. eapply at_weaken; [|by apply arrays_at_storage; [apply vector_after|..]].
  intros r m' W' (Ho & -> & Hr). split; [|done].
  transitivity (dropped p (len id1) (dropped d (len data1) (buffer_at d data1 ∪ (buffer_at p id1 ∪ m)))).
  - do 2 f_equal. pose proof (array_dropped q (zeros TEST_OBJECT_SIZE)
      (buffer_at d data1 ∪ (buffer_at p id1 ∪ m)) m') as Hdrop.
    rewrite len_zeros in Hdrop by done. by apply Hdrop.
  - transitivity (dropped p (len id1) (buffer_at p id1 ∪ m)); [f_equal|]; by apply filter_buffer.
Qed.

End Requests.

(** The second of two runs undoes the first. *)
Lemma toggled_twice W :
  W !! id2 = None -> toggled (delete id1 (toggled (delete id1 W))) = delete id1 W.
Proof.
  intros HW. assert (id1 <> id2) as Hne by done.
  unfold toggled at 2. rewrite lookup_delete_ne, HW by done.
  rewrite delete_insert_ne, delete_delete_eq by done. unfold toggled. rewrite lookup_insert_eq.
  change (TEST_OBJECT_SIZE <? len data2) with false. cbv iota.
  rewrite delete_insert_id; [done|]. by rewrite lookup_delete_ne.
Qed.

(** C6: the client of the secure-storage TA, with its session, arrays and
    operations, libteec, the generated entry points, the TA and the trusted storage,
    on a storage on which nothing fails that does not have to, with memory for five
    arrays in the client and every open session in a live context: it reads back the
    seven thousand bytes it stored, and deletes them again; the second object is
    there after the run exactly when it was not before, whatever it held and as long
    as it fits the client's array (a longer one stops the run with ShortBuffer and
    stays). No other object is touched, no handle stays open; without a session the
    client reports the TEE's error and the storage is as it was. In all cases
    libteec, the session contexts and the client's memory are as before. *)
Theorem storage_client_toggles uu s hp W :
  Teec.parse_str UUID = Ok uu -> raw_uuid uu = u ->
  (forall h x, sessions_of s !! h = Some x -> x ∈ contexts s) ->
  represents W (ta_side s) -> space 5 (client_mem s) ->
  exists r s' W', main (mkClient s hp) = Ret (r, mkClient s' hp) /\
    same_lib s s' /\ ta_boxes s' = ta_boxes s /\ client_mem s' = client_mem s /\
    represents W' (ta_side s') /\
    match not_reached u s with
    | Some e => r = Err e /\ W' = W
    | None => W' = toggled (delete id1 W) /\ passes (delete id1 W) true r
    end.
Proof.
  intros Hu Hraw Hwf HW Hsp.
  destruct (client_block_runs_to stands open_entry invoke_entry close_entry u UUID uu test_objects
    (fun r m' W' => m' = client_mem s /\ W' = toggled (delete id1 W) /\ passes (delete id1 W) true r)
    s hp W (fun W g => represents W g) Hu Hraw Hwf) as (r & s' & W' & E & Hlib & Hb & HW' & Hr).
  - apply unboxed_opens. intros w. by eexists _, _.
  - apply unboxed_closes. intros w g W' Hg. by exists g.
  - done.
  - apply calls_at. intros h l. by apply run_at_storage.
  - exists r, s', W'. do 3 (split; [done|]). destruct (not_reached u s) as [e|].
    + destruct Hr as (-> & -> & Hm). done.
    + by destruct Hr.
Qed.

End Host.

(** ** The client and the TA on one board *)

Module StorageHostExamples.
Import RamStorage ParamExamples StorageTaExamples SharedTransport PlainUuids FirstFit LocalHeap.
#[local] Existing Instances StorageTaExamples.ex_target plain_memmove plain_memmove_ok
  shared_transport shared_transport_ok first_fit first_fit_ok SharedFrame.shared_frame.

Definition storage_uuid : TEEC_UUID :=
  mkTeecUuid 0x1cd6d392 0xbdab 0x11eb [0x90; 0x82; 0xab; 0xc9; 0x02; 0xac; 0x5c; 0xd4].

Abbreviation board := (Local.state (G:=ram) (Ctx:=unit)).

#[local] Instance board_api : TeecApi board :=
  Local.local_api storage_uuid open_entry invoke_entry close_entry.
#[local] Instance board_api_ok : TeecApiOk board :=
  Local.local_api_ok storage_uuid open_entry invoke_entry close_entry.
#[local] Existing Instances Local.local_platform local_memory.
#[local] Instance board_ok : PlatformOk storage_uuid open_entry invoke_entry close_entry :=
  Local.local_platform_ok storage_uuid open_entry invoke_entry close_entry.
#[local] Instance board_memory_ok : OwnMemoryOk board :=
  local_memory_ok storage_uuid open_entry invoke_entry close_entry.

Definition board0 : board := Local.mkState ∅ (mkRam ∅ ∅) ∅ ∅ ∅.

(** A first run makes the second object. *)
Lemma storage_client_toggles_witness :
  exists s', main (mkClient board0 ∅) = Ret (Ok true, mkClient s' ∅) /\ same_lib board0 s' /\
    client_mem s' = ∅ /\ represents {[ id2 := data2 ]} (ta_side s').
Proof.
  assert (Teec.parse_str UUID = Ok (Teec.mkUuid
    (mkTeeUuid 0x1cd6d392 0xbdab 0x11eb [0x90; 0x82; 0xab; 0xc9; 0x02; 0xac; 0x5c; 0xd4]))) as Hu
    by (vm_compute; reflexivity).
  destruct (storage_client_toggles storage_uuid _ board0 ∅ ∅ Hu eq_refl)
    as (r & s' & W' & E & Hlib & _ & Hm & HW & Hr).
  - intros h x Hx. discriminate Hx.
  - exact represents_empty.
  - apply (space_le 8); [lia|]. apply space_free. intros x _. apply lookup_empty.
  - assert (not_reached storage_uuid board0 = None) as Hn by (vm_compute; reflexivity).
    rewrite Hn in Hr. destruct Hr as [-> Hr]. unfold passes in Hr.
    assert (too_long (delete id1 ∅) = false) as Hshort by done. rewrite Hshort in Hr. subst r.
    exists s'. split; [exact E|]. split; [exact Hlib|]. split; [exact Hm|]. exact HW.
Defined.

End StorageHostExamples.
